(* ===== verification/_CoqProject ===== *)
-Q . S2P
Prelude.v
PyDecimal.v
PyText.v
PyPath.v
PyTime.v
PyParse.v
Types.v
Store.v
Storage.v
Broker.v
Adapters.v
PyFloat.v
FloatRound.v
FloatOrder.v
MultiTest.v
Survival.v
Json.v
PyNumber.v
PyStats.v
Sharpe.v
Performance.v
Resample.v
Facts.v
SqlArchive.v
Ledger.v
Decay.v
Backoff.v
Macro.v
Sessions.v
Cot.v
MacroSources.v
Cftc.v
RiskManager.v
Slippage.v
Verifier.v
BarContract.v
CmeEod.v
Replay.v
Crypto.v
Databento.v
Ibkr.v
Brr.v
Policies.v
MockBroker.v
PropBroker.v
Calendar.v
Roll.v
Continuous.v
TermStructure.v
Cv.v
Cscv.v
Promotion.v
VolParity.v
Strategy.v
Backtest.v
Portfolio.v
Gauntlet.v
