(* ===== verification/Prelude.v ===== *)
(** * futur3: a verification library for the engine

    futur3 backtests futures strategies.  Data sources deliver bars and settlements, which a verifier
    compares across sources; a roll executor and a continuous series turn contracts into a stream of
    bars; an engine drives a strategy over that stream, sizes its signals against a risk gate and
    sends orders to a broker model; statistics decide whether a result may be trusted.  The library
    follows the package [src/futur3/]: a file models one or two of its modules, its names are theirs.

    ** Foundations
    - [Prelude]: exceptions ([exn], with the class hierarchy [except] clauses test), [result] and the
      state monad [M] (state and outcome: what a method changed before raising stays changed), Python
      dictionaries in insertion order ([dict]), stable sorting, error-closure lemmas.
    - [PyDecimal], [PyFloat], [PyText], [PyTime], [PyParse], [Json]: what the code uses of Python.
      Decimals of 28 digits with half-even rounding; binary64 by [SpecFloat], with the total order of
      its numbers; ASCII text, SHA-256, [str] and [repr]; dates as proleptic ordinals, instants in
      microseconds with an optional offset; the parsers of numbers, dates and JSON, with their round
      trips.  [FloatRound] relates a binary64 to the fraction it stands for: when a result is exact, how
      far off it is otherwise; [FloatOrder] places the floats on the line of multiples of 2^-1074, where
      rounding is monotone, so that a bound on a fraction is a bound on its float.  [PyNumber] has the
      numbers a JSON payload mixes, [round] and the conversions between instants and seconds.
      [PyStats] is what the code uses of the [math] and [statistics] modules: exact sums, mean,
      variance, deviation, median, correlation.  [PyPath] has paths and a matcher for the patterns of
      [re].

    ** The parts, from the inside out
    - Broker: [Broker] (execution/broker.py, margin_source.py) has the records and the class
      [BrokerAdapter] with its laws; [MockBroker], [PropBroker] (adapters/mock_broker.py,
      prop_aware_mock_broker.py) and [Adapters] (topstepx_broker.py, ibkr_broker.py) are its
      instances.  [Slippage] is execution/slippage.py.
    - Risk: [RiskManager] (risk_manager.py, fixed_size_risk_manager.py), [Survival] (survival.py and
      the block length of cv/block_bootstrap.py), [VolParity] (vol_parity.py), [Decay]
      (decay_monitor.py), [Ledger] (paper_ledger.py).
    - Market calendar and series: [Calendar] (contracts/trading_calendar.py), [Roll]
      (execution/roll_executor.py), [Continuous] (data/continuous.py), [TermStructure]
      (data/term_structure.py, data/intraday_continuous.py), [Sessions] (timeframe.py,
      intraday_session.py).
    - Data: [Types] (data/types.py), [Verifier] (data/source.py, data/verifier.py), [Policies]
      (data/verifier_policies.py, runtime/context.py), [Brr] (data/brr.py), [Backoff]
      (data/sources/backoff_queue.py).  [BarContract] says what a bar source promises.
    - Bar sources: [Crypto] (data/sources/crypto.py), [Databento] (data/sources/databento_hist.py),
      [Ibkr] (data/sources/ibkr_historical.py, a session of requests to a gateway, paced).
    - Settlements: [CmeEod] (data/sources/cme_eod.py) scrapes and archives, [Replay]
      (data/sources/replay.py) reads that archive back as a source; [Store] is the partitioned archive
      the stores share, [Storage] its settle and bar stores (storage/abcs.py,
      parquet_settle_store.py, parquet_store.py).
    - Macro and positioning: [Macro] (data/macro_types.py, macro_source.py, events/severity.py),
      [MacroSources] (data/sources/fred_macro.py, bls_macro.py), [Cot] (data/cot_types.py,
      cot_source.py), [Cftc] (data/sources/cftc.py).
    - Engine: [Strategy] (strategies/base.py), [Backtest] (engine/backtest.py), [Portfolio]
      (engine/portfolio_backtest.py).
    - Validation: [Cv] (cv/walkforward.py, cv/cpcv.py), [MultiTest] (stats/multiple_testing.py,
      _multi_strategy.py, reality_check.py, spa_test.py, romano_wolf.py), [Sharpe]
      (stats/_sharpe_core.py, probabilistic_sharpe.py, deflated_sharpe.py), [Performance]
      (stats/performance.py, robustness.py, tail_risk.py), [Resample] (stats/bootstrap_ci.py,
      permutation.py, cv/block_bootstrap.py), [Cscv] (cv/cscv.py), [Promotion]
      (stats/promotion_gate.py, backtest_validation.py, the way from equity curves to a verdict);
      [Gauntlet] joins the two engines to the gates.
    - Around them: [SqlArchive] (storage/duckdb_query.py), [Facts] (tools/verify_facts.py).

    Clients are proved against classes, implementations discharge their laws: the engine runs over any
    [BrokerAdapter] with [BrokerLaws], any [Strategy] and any [Sizer]; the verifier over a list of
    [DataSource] records, which [Replay_source] builds; the macro and positioning gates over
    [MacroEventSource] and [COTSource].

    ** What the theorems show
    - No look-ahead: what an engine does at a bar does not depend on later bars, and an order fills on
      a later bar than the one it was decided on ([run_no_lookahead], [orders_fill_on_a_later_bar],
      [portfolio_no_lookahead]); a value is not seen before it was published ([macro_pit_safe],
      [cftc_blackout], [bls_value_late]).
    - Accounting: cash, positions and the trade ledger of the mock broker reconcile through every
      operation ([mock_reconciliation], [trade_ledger], [roll_position_flat_back]), the engine changes
      the broker through its operations only ([run_refines_broker_ops]), the prop overlay refuses what
      its rules refuse, halts for good, and never blocks a reduction.
    - Risk: the sizing gate only tightens ([size_position_tighten_only]).
    - Verification: what the verifier emits was agreed on by enough sources, as the policy's kind asks
      ([verify_bar_safe], [verify_settle_safe]), and its run hash does not depend on their order
      ([run_hash_order]).
    - Calendars and series: business-day arithmetic, the roll calendar and its windows, the continuous
      series, the fold structure of walk-forward and combinatorial validation.
    - Archives: a store gives back exactly what was kept, in order ([settle_store_faithful],
      [bar_store_faithful]); the ledger's file reads back as the sessions recorded
      ([paper_ledger_faithful]); a replay after the capture answers what the live source answered
      ([live_then_replay]).
    - Bar sources: the bars of an exchange are its rows in the window, at their exact instants
      ([crypto_bars_faithful]) and none is missed between pages ([crypto_no_row_missed]); a settle is
      that of the latest bar when the gateway answers none after the instant asked for
      ([ibkr_settle_faithful]), and a request is made only while a slot of the queue is held
      ([ibkr_paced]).
    - Errors: which exceptions a fetch can raise, and that a failed one changes nothing
      ([cme_fetch_clean]).  Rate limits: a slot is granted after the logs are cut to their windows and
      are below their limits, or at a limit with the oldest entry exactly on the window's edge, where
      the code lets one more through ([acquire_grants]).
    - Statistics: Holm's and Benjamini and Hochberg's corrections are the ones of the textbook
      ([corrections_spec]), and the step-down of Romano and Wolf rejects in the order of the evidence
      ([romano_wolf_consistent]); the deflated ratio has as many trials as are finite and collapses to the
      plain one without a spread among them ([deflated_sharpe_spec]); a drawdown lies between zero and
      one and is zero for a curve that never falls, only for those ([drawdown_bounds]); the overfitting
      probability is the share of splits whose winner ranks below the middle ([pbo_spec]); a permutation
      p-value is never zero ([permutation_p_value]); block resamples have the length of the sample and
      are made of its runs ([block_indices_spec]).
    - Promotion: the returns the gates read are those of the curve up to its ruin
      ([equity_returns_spec]), and a verdict in favour has passed every gate on them
      ([promotion_needs_evidence]).  The curves of runs over one window, by either engine, always reach
      the gates ([runs_reach_the_gates]).
    - Tools: a query of the archive names exactly its data files, and no file name can end its literal
      ([archive_queries_spec]); the fact checker reports exactly the marked lines, and its tables add up
      ([walk_spec]).

    ** Fuel and bounds
    Loops that are not structural carry fuel: [add_trading_days] has [max_calendar_steps] days, the
    bound the code counts itself and past which it raises; the survival search halves an interval of
    [hi - lo]; the fold loop of walk-forward runs once per fold start; a resample of [n] places draws at
    most [n] blocks, for none is empty ([block_indices_spec]); the JSON reader has twice the
    length of its text.  The wait loop of the rate limiter takes its fuel as an argument: over a clock
    that counts up, one more than the time left is enough ([acquire_terminates]).

    ** Limits of the model
    - Decimals have no NaN, infinity, negative zero or exponent limits.  Where the code reads a decimal
      from the text of a source, a text that spells NaN or infinity is read as such by [Cftc], which
      truncates it, and by [CmeEod], up to the checks of its settle: those a NaN meets raise, and where
      a settle passes its checks with such a price the model stops, as [Unmodelled].  The other
      parsers of the model refuse these texts as [InvalidOperation]; their code would go on with them.
    - Dates lie in the years 1 to 9999; arithmetic past them is not checked.
    - Text has one byte per character; [upper], [strip], [split] and [isdigit] are those of ASCII;
      [fromisoformat] reads the extended format.
    - Messages of exceptions, logging and [repr] are left out; so are failures of the file system.
    - Errors the [math] module raises on overflow are left out, and so is the [ZeroDivisionError] of a
      float only where the divisor is known not to be zero; the series the statistics take are finite,
      as their entry points check.
    - An instant past the year 9999 is refused as [ValueError]; [strftime] writes years of four digits.
    - The wait loops of [Ibkr] carry fuel, over a clock that its class advances.
    - Code that is not in the repository is a class: [Polars] (data frames, with their documented laws
      and an instance on lists), [BeautifulSoup], [CurlSession], [Requests] (transport), [Libm]
      (logarithm and power, with the sign of the logarithm in [LogSign]), [NormalDist] (the normal
      distribution), [SumProd] ([math.sumprod]), [PyRandom] (the generator), [Clock] and the offsets of New York, London
      and Chicago ([EasternTime], [LondonTime], [ChicagoTime]), and the vendor libraries ([Ccxt],
      [DatabentoSDK], [IbAsync], [DuckDB]).

    ** Not modelled
    - The package [__init__] files: re-exports.
    - The command line of tools/verify_facts.py. *)

From Stdlib Require Export ZArith Lia Bool Ascii String List Permutation Sorted.
From stdpp Require Export base list strings numbers option.

#[global] Open Scope Z_scope.

(** ** Exceptions

    One constructor per exception class the modelled code raises or catches.  Messages are not
    modelled: the source never inspects them. *)
Inductive exn :=
| ValueError
| AssertionError
| DivisionByZero
| InvalidOperation
| BrokerError
| OrderTypeUnsupportedError
| BrokerNotConnectedError
| TopstepXBrokerNotImplemented
| IBKRBrokerNotImplemented
| RiskManagerError
| MarginSourceError
| SurvivalError
| SlippageError
| UnknownSlippageBandError
| StrategyError
| DataSourceError
| BarsNotSupported
| TicksNotSupported
| SettlesNotSupported
| SchemaMismatch
| FutureDatedSourceError
| ContractNotConfigured
| BackoffQueueTimeout
| UnknownPolicyError
| MacroSourceError
| ShutdownVoidError
| COTSourceError
| TradingCalendarError
| RollExecutorError
| ContinuousSeriesError
| IntradayContinuousError
| TermStructureError
| WalkForwardError
| CPCVError
| PaperLedgerError
| JSONDecodeError
| GeoBlockedError
| ContractStillActiveError
| COTContractUnknownError
| ScheduleDriftError
| CMEScrapeError
| WAFBlockedError
| MalformedSettlementPage
| IBKRError
| IBKRConnectionError
| IBKRReqError
| IBKRContractAmbiguity
| CSCVError
| BlockBootstrapError
| IntradaySessionError
| StorageError
| StorageNotInitialized
| IdempotentDuplicateError
| PartitionNotFound
| CftcSocrataError
| COTSchemaDriftError
| FredMacroError
| BlsMacroError
| BRRError
| BRRWindowEmpty
| InsufficientVenues
| MultipleTestError
| MultiStrategyError
| RealityCheckError
| SPAError
| RomanoWolfError
| StatsError
| PSRError
| RobustnessError
| TailRiskError
| BCaError
| PermutationError
| BacktestValidationError
| StatisticsError
| OverflowError
| PolarsError
| KeyError
| IndexError
| TypeError
(* no exception of the code: the model stops where the code goes on with a value it does not have *)
| Unmodelled.

#[global] Instance exn_eq_dec : EqDecision exn.
Proof. solve_decision. Defined.

(** The direct base class of an exception, among the modelled ones. *)
Definition exn_parent (e : exn) : option exn :=
  match e with
  | OrderTypeUnsupportedError | BrokerNotConnectedError
  | TopstepXBrokerNotImplemented | IBKRBrokerNotImplemented => Some BrokerError
  | UnknownSlippageBandError => Some SlippageError
  | BarsNotSupported | TicksNotSupported | SettlesNotSupported | SchemaMismatch
  | FutureDatedSourceError | ContractNotConfigured | BackoffQueueTimeout
  | UnknownPolicyError | MacroSourceError | COTSourceError | GeoBlockedError
  | ContractStillActiveError | CMEScrapeError | IBKRError | BRRError => Some DataSourceError
  | ShutdownVoidError | ScheduleDriftError | FredMacroError | BlsMacroError => Some MacroSourceError
  | COTSchemaDriftError | COTContractUnknownError | CftcSocrataError => Some COTSourceError
  | WAFBlockedError | MalformedSettlementPage => Some CMEScrapeError
  | IBKRConnectionError | IBKRReqError | IBKRContractAmbiguity => Some IBKRError
  | BRRWindowEmpty | InsufficientVenues => Some BRRError
  | StorageNotInitialized | IdempotentDuplicateError | PartitionNotFound => Some StorageError
  | JSONDecodeError | StatisticsError => Some ValueError
  | _ => None
  end.

(** [except cls] catches [e]: [e] is [cls] or one of its ancestors is (the hierarchy is at most
    three classes deep). *)
Definition exn_is (e cls : exn) : bool :=
  bool_decide (e = cls) ||
  match exn_parent e with
  | None => false
  | Some p => bool_decide (p = cls) ||
              match exn_parent p with None => false | Some q => bool_decide (q = cls) end
  end.

(** ** Fallible computations *)
Inductive result (A : Type) : Type :=
| Ok (a : A)
| Err (e : exn).
Arguments Ok {A} a.
Arguments Err {A} e.

Definition rbind {A B} (m : result A) (k : A -> result B) : result B :=
  match m with Ok a => k a | Err e => Err e end.

(** [if guard: raise e] *)
Definition reject (guard : bool) (e : exn) : result unit := if guard then Err e else Ok tt.

Definition of_option {A} (o : option A) (e : exn) : result A :=
  match o with Some a => Ok a | None => Err e end.

Fixpoint rmap {A B} (f : A -> result B) (l : list A) : result (list B) :=
  match l with
  | [] => Ok []
  | x :: xs => rbind (f x) (fun y => rbind (rmap f xs) (fun ys => Ok (y :: ys)))
  end.

Fixpoint rfold {A B} (f : B -> A -> result B) (l : list A) (b : B) : result B :=
  match l with
  | [] => Ok b
  | x :: xs => rbind (f b x) (rfold f xs)
  end.

Definition is_ok {A} (r : result A) : bool := match r with Ok _ => true | Err _ => false end.

(** ** Stateful computations

    A method runs on an object state and either returns or raises; what it changed before it
    raised stays changed, as in the source. *)
Definition M (S A : Type) : Type := S -> S * result A.

Definition ret {S A} (a : A) : M S A := fun s => (s, Ok a).
Definition raise {S A} (e : exn) : M S A := fun s => (s, Err e).
Definition bind {S A B} (m : M S A) (k : A -> M S B) : M S B :=
  fun s => match m s with
           | (s', Ok a) => k a s'
           | (s', Err e) => (s', Err e)
           end.
Definition get {S} : M S S := fun s => (s, Ok s).
Definition modify {S} (f : S -> S) : M S unit := fun s => (f s, Ok tt).
Definition lift {S A} (r : result A) : M S A := fun s => (s, r).

Declare Scope py_scope.
Delimit Scope py_scope with py.
Notation "x <- m ;; k" := (bind m (fun x => k))
  (at level 100, m at next level, right associativity) : py_scope.
Notation "'do' p <- m ;; k" := (bind m (fun x => let p := x in k))
  (at level 100, p pattern, m at next level, right associativity) : py_scope.
Notation "m ;; k" := (bind m (fun _ => k)) (at level 100, right associativity) : py_scope.
Notation "'let!' x := m 'in' k" := (rbind m (fun x => k))
  (at level 10, x name, m at level 100, k at level 200) : py_scope.
Notation "'let!' ' p := m 'in' k" := (rbind m (fun x => let p := x in k))
  (at level 10, p pattern, m at level 100, k at level 200) : py_scope.
Notation "'guard!' b 'else' e 'in' k" := (rbind (reject b e) (fun _ => k))
  (at level 10, b at level 100, e at level 100, k at level 200) : py_scope.
#[global] Open Scope py_scope.

Fixpoint mfold {S A B} (f : B -> A -> M S B) (l : list A) (b : B) : M S B :=
  match l with
  | [] => ret b
  | x :: xs => b' <- f b x ;; mfold f xs b'
  end.


(** ** Python dicts: association lists in insertion order *)
Section Dict.
Context {K V : Type} `{EqDecision K}.

Definition dict := list (K * V).

Fixpoint dget (k : K) (d : dict) : option V :=
  match d with
  | [] => None
  | (k', v) :: d' => if decide (k' = k) then Some v else dget k d'
  end.

(** [d[k] = v]: an existing key keeps its place, a new one goes last. *)
Fixpoint dset (k : K) (v : V) (d : dict) : dict :=
  match d with
  | [] => [(k, v)]
  | (k', v') :: d' => if decide (k' = k) then (k, v) :: d' else (k', v') :: dset k v d'
  end.

Fixpoint dpop (k : K) (d : dict) : dict :=
  match d with
  | [] => []
  | (k', v') :: d' => if decide (k' = k) then dpop k d' else (k', v') :: dpop k d'
  end.

Definition dmem (k : K) (d : dict) : bool :=
  match dget k d with Some _ => true | None => false end.

Definition dget_or (k : K) (dflt : V) (d : dict) : V :=
  match dget k d with Some v => v | None => dflt end.

Definition dkeys (d : dict) : list K := map fst d.
Definition dvalues (d : dict) : list V := map snd d.

Lemma dget_dset_eq k v d : dget k (dset k v d) = Some v.
Proof. induction d as [|[k' v'] d IH]; simpl; repeat (case_decide; simpl); congruence. Qed.

Lemma dget_dset_ne k k' v d : k ≠ k' → dget k (dset k' v d) = dget k d.
Proof.
  intros Hne. induction d as [|[k2 v2] d IH]; simpl; repeat (case_decide; simpl); congruence.
Qed.

Lemma dget_dset k k' v d :
  dget k (dset k' v d) = if decide (k = k') then Some v else dget k d.
Proof.
  case_decide; subst; [apply dget_dset_eq | by apply dget_dset_ne].
Qed.

Lemma dget_dpop_eq k d : dget k (dpop k d) = None.
Proof. induction d as [|[k' v'] d IH]; simpl; repeat (case_decide; simpl); congruence. Qed.

Lemma dget_dpop_ne k k' d : k ≠ k' → dget k (dpop k' d) = dget k d.
Proof.
  intros Hne. induction d as [|[k2 v2] d IH]; simpl; repeat (case_decide; simpl); congruence.
Qed.

Lemma dget_dpop k k' d : dget k (dpop k' d) = if decide (k = k') then None else dget k d.
Proof. case_decide; subst; [apply dget_dpop_eq | by apply dget_dpop_ne]. Qed.

Lemma dget_In k v d : dget k d = Some v → In (k, v) d.
Proof.
  induction d as [|[k' v'] d IH]; simpl; [done|].
  case_decide; [intros [= ->]; left; congruence | eauto].
Qed.

Lemma dkeys_In k d : In k (dkeys d) ↔ is_Some (dget k d).
Proof.
  induction d as [|[k' v'] d IH]; simpl; [split; [done | by intros []]|].
  case_decide; subst; [by split; eauto|]. rewrite IH. naive_solver.
Qed.

Lemma dget_None k d : dget k d = None ↔ ¬ In k (dkeys d).
Proof. rewrite dkeys_In, <- eq_None_not_Some. done. Qed.

Lemma dkeys_dset_mem k v d : is_Some (dget k d) → dkeys (dset k v d) = dkeys d.
Proof.
  induction d as [|[k' v'] d IH]; simpl; [by intros []|].
  case_decide; simpl; [by subst|]. intros. f_equal. auto.
Qed.

Lemma dset_fresh k v d : dget k d = None → dset k v d = d ++ [(k, v)].
Proof.
  induction d as [|[k' v'] d IH]; simpl; [done|].
  case_decide; [done|]. intros. f_equal. auto.
Qed.

Lemma dkeys_dset_fresh k v d : dget k d = None → dkeys (dset k v d) = dkeys d ++ [k].
Proof. intros. unfold dkeys. rewrite dset_fresh by done. by rewrite map_app. Qed.

Lemma dkeys_dset_In k k' v d : In k (dkeys (dset k' v d)) ↔ k = k' ∨ In k (dkeys d).
Proof.
  rewrite !dkeys_In, dget_dset. case_decide; subst; [naive_solver eauto|]. naive_solver.
Qed.

Lemma dkeys_dset_NoDup k v d : List.NoDup (dkeys d) → List.NoDup (dkeys (dset k v d)).
Proof.
  intros Hnd. destruct (dget k d) eqn:E.
  - by rewrite dkeys_dset_mem by eauto.
  - rewrite dkeys_dset_fresh by done. apply List.NoDup_app; [done| |].
  + repeat constructor. by intros [].
  + intros x Hx [->|[]]. by apply dget_None in E.
Qed.

Lemma dkeys_dpop_In k k' d : In k (dkeys (dpop k' d)) ↔ k ≠ k' ∧ In k (dkeys d).
Proof.
  rewrite !dkeys_In, dget_dpop. case_decide; subst; [|naive_solver].
  split; [by intros []| naive_solver].
Qed.

Lemma dkeys_dpop_NoDup k d : List.NoDup (dkeys d) → List.NoDup (dkeys (dpop k d)).
Proof.
  induction d as [|[k' v'] d IH]; simpl; [done|]. intros [Hni Hnd]%List.NoDup_cons_iff.
  case_decide; subst; [auto|]. simpl. constructor; [|auto].
  intros [_ H']%dkeys_dpop_In. done.
Qed.

Lemma In_dget k v d : List.NoDup (dkeys d) → In (k, v) d → dget k d = Some v.
Proof.
  induction d as [|[k' v'] d IH]; simpl; [done|]. intros [Hni Hnd]%List.NoDup_cons_iff.
  intros [[= -> ->]|Hin]; [by rewrite decide_True|].
  rewrite decide_False; [auto|]. intros ->. apply Hni, in_map_iff. by exists (k, v).
Qed.

Lemma dpop_dset k v d : dpop k (dset k v d) = dpop k d.
Proof.
  induction d as [|[k' v'] d IH]; simpl; repeat (case_decide; simpl); congruence.
Qed.

Lemma dpop_none k d : dget k d = None → dpop k d = d.
Proof.
  induction d as [|[k' v'] d IH]; simpl; [done|]. case_decide; [done|].
  intros. f_equal. auto.
Qed.
End Dict.
Arguments dict : clear implicits.

(** ** Python's [sorted]: a stable sort by a boolean order *)
Section Sorted.
Context {A : Type} (leb : A -> A -> bool).

Fixpoint insert_by (x : A) (l : list A) : list A :=
  match l with
  | [] => [x]
  | y :: ys => if leb x y then x :: l else y :: insert_by x ys
  end.

Definition sort_by (l : list A) : list A := foldr insert_by [] l.

Lemma insert_by_perm x l : Permutation (x :: l) (insert_by x l).
Proof.
  induction l as [|y ys IH]; simpl; [done|]. destruct (leb x y); [done|].
  rewrite <- IH. constructor.
Qed.

Lemma sort_by_perm l : Permutation l (sort_by l).
Proof.
  induction l as [|x xs IH]; simpl; [done|]. rewrite <- insert_by_perm. by constructor.
Qed.

Lemma sort_by_In x l : In x (sort_by l) ↔ In x l.
Proof.
  split; apply Permutation_in; [symmetry|]; apply sort_by_perm.
Qed.

Lemma sort_by_length l : length (sort_by l) = length l.
Proof. symmetry. apply Permutation_length, sort_by_perm. Qed.

Hypothesis leb_total : forall x y, leb x y = true ∨ leb y x = true.
Hypothesis leb_trans : forall x y z, leb x y = true → leb y z = true → leb x z = true.

Notation le := (fun x y => leb x y = true).

Lemma insert_by_sorted x l : StronglySorted le l → StronglySorted le (insert_by x l).
Proof.
  induction 1 as [|y ys Hs IH Hall]; simpl; [repeat constructor|].
  destruct (leb x y) eqn:E.
  - constructor; [by constructor|]. constructor; [done|].
  eapply List.Forall_impl; [|exact Hall]. simpl. eauto.
  - constructor; [done|]. assert (leb y x = true) by (destruct (leb_total x y); congruence).
  eapply Permutation_Forall; [apply insert_by_perm|]. by constructor.
Qed.

Lemma sort_by_sorted l : StronglySorted le (sort_by l).
Proof. induction l; simpl; [constructor|]. by apply insert_by_sorted. Qed.
End Sorted.

(** Two sorted permutations of the same list agree when the order is antisymmetric on it: this is
    why the sources the program sorts by id give results that do not depend on their order. *)
Lemma sorted_unique {A} (le : A -> A -> Prop) (l1 l2 : list A) :
  StronglySorted le l1 → StronglySorted le l2 → Permutation l1 l2 →
  (forall x y, In x l1 → In y l1 → le x y → le y x → x = y) → l1 = l2.
Proof.
  intros H1. revert l2. induction H1 as [|x xs Hs IH Hall]; intros l2 H2 Hp Hanti.
  - by apply Permutation_nil in Hp.
  - destruct H2 as [|y ys Hs2 Hall2]; [by apply Permutation_sym, Permutation_nil in Hp|].
    assert (x = y) as ->.
    { assert (Hy : In y (x :: xs)) by (eapply Permutation_in; [symmetry; done|by left]).
      assert (Hx : In x (y :: ys)) by (eapply Permutation_in; [done|by left]).
      rewrite List.Forall_forall in Hall, Hall2.
      destruct Hy as [->|Hy]; [done|]. destruct Hx as [->|Hx]; [done|].
      apply Hanti; [by left|by right|auto|auto]. }
    f_equal. apply IH; [done| |].
    + by eapply Permutation_cons_inv.
    + intros a b Ha Hb. apply Hanti; by right.
Qed.

Lemma StronglySorted_weaken {A} (R1 R2 : A -> A -> Prop) l :
  (forall a b, R1 a b → R2 a b) → StronglySorted R1 l → StronglySorted R2 l.
Proof.
  intros Hi. induction 1 as [|x l Hs IH Hx]; constructor; [done|]. eapply List.Forall_impl; [apply Hi|exact Hx].
Qed.

Lemma NoDup_map_filter {A B} (f : A -> B) (p : A -> bool) l : List.NoDup (map f l) → List.NoDup (map f (List.filter p l)).
Proof.
  induction l as [|x l IH]; [done|]. cbn. intros [Hx Hnd]%List.NoDup_cons_iff. destruct (p x); [|by apply IH].
  cbn. constructor; [|by apply IH]. intros (y & Hy & [Hin _]%filter_In)%in_map_iff. apply Hx. apply in_map_iff. eauto.
Qed.

(** Filtering by any predicate commutes with a stable sort. *)
Section SortFilter.
Context {A : Type} (leb : A -> A -> bool) (p : A -> bool).
Hypothesis leb_total : forall x y, leb x y = true ∨ leb y x = true.
Hypothesis leb_trans : forall x y z, leb x y = true → leb y z = true → leb x z = true.

Lemma insert_by_filter x l : StronglySorted (fun x y => leb x y = true) l →
  List.filter p (insert_by leb x l)
  = if p x then insert_by leb x (List.filter p l) else List.filter p l.
Proof.
  induction 1 as [|y ys Hs IH Hall]; simpl; [by destruct (p x)|].
  destruct (leb x y) eqn:E; simpl.
  - destruct (p x) eqn:Ex; [|done]. destruct (p y); simpl; [by rewrite E|].
    assert (Hx : Forall (fun z => leb x z = true) (List.filter p ys)).
    { apply List.Forall_forall. intros z [Hz _]%filter_In. rewrite List.Forall_forall in Hall. eauto. }
    destruct (List.filter p ys) as [|z zs]; [done|]. inversion Hx as [|? ? Ez]. simpl. by rewrite Ez.
  - rewrite IH. destruct (p y), (p x); simpl; by rewrite ?E.
Qed.

Lemma sort_by_filter l : List.filter p (sort_by leb l) = sort_by leb (List.filter p l).
Proof.
  induction l as [|x xs IH]; [done|]. cbn [sort_by foldr]. fold (sort_by leb xs).
  rewrite insert_by_filter by (apply sort_by_sorted; done). rewrite IH. cbn [List.filter].
  by destruct (p x).
Qed.
End SortFilter.

(** Sorting commutes with an order-preserving map. *)
Lemma sort_by_map {A B} (la : A -> A -> bool) (lb : B -> B -> bool) (f : A -> B) l :
  (forall x y, lb (f x) (f y) = la x y) → sort_by lb (map f l) = map f (sort_by la l).
Proof.
  intros Hf. induction l as [|x xs IH]; [done|]. cbn [sort_by foldr map].
  fold (sort_by lb (map f xs)) (sort_by la xs). rewrite IH. generalize (sort_by la xs).
  intros ys. induction ys as [|y ys IHy]; [done|]. simpl. rewrite Hf.
  destruct (la x y); [done|]. simpl. by rewrite IHy.
Qed.

(** ** Python's [min]/[max] with a key: the first extremal element *)
Section Extremum.
Context {A : Type} (ltb : A -> A -> bool).

(** [min(l)] where [ltb x y] is [x < y]; the first of equal minima wins. *)
Fixpoint min_by (x : A) (l : list A) : A :=
  match l with
  | [] => x
  | y :: ys => min_by (if ltb y x then y else x) ys
  end.

(** [max(l)]; the first of equal maxima wins. *)
Fixpoint max_by (x : A) (l : list A) : A :=
  match l with
  | [] => x
  | y :: ys => max_by (if ltb x y then y else x) ys
  end.

Lemma min_by_In x l : In (min_by x l) (x :: l).
Proof.
  revert x. induction l as [|y ys IH]; intros x; [by left|].
  simpl. destruct (ltb y x); destruct (IH x), (IH y); simpl in *; eauto 6.
Qed.

Lemma max_by_In x l : In (max_by x l) (x :: l).
Proof.
  revert x. induction l as [|y ys IH]; intros x; [by left|].
  simpl. destruct (ltb x y); destruct (IH x), (IH y); simpl in *; eauto 6.
Qed.

(** The extremal element bounds the others, for a preorder that [ltb] decides. *)
Context (le : A -> A -> Prop) `{!Reflexive le, !Transitive le}.
Hypothesis ltb_le : forall x y, ltb x y = true → le x y.
Hypothesis ltb_ge : forall x y, ltb x y = false → le y x.

Lemma min_by_le x l y : In y (x :: l) → le (min_by x l) y.
Proof.
  revert x y. induction l as [|z zs IH]; intros x y; simpl; [intros [->|[]]; reflexivity|].
  destruct (ltb z x) eqn:E; [apply ltb_le in E|apply ltb_ge in E];
  intros [<-|[<-|Hy]]; try (etrans; [apply IH; by left|done]); apply IH; simpl; auto.
Qed.

Lemma max_by_ge x l y : In y (x :: l) → le y (max_by x l).
Proof.
  revert x y. induction l as [|z zs IH]; intros x y; simpl; [intros [->|[]]; reflexivity|].
  destruct (ltb x z) eqn:E; [apply ltb_le in E|apply ltb_ge in E];
  intros [<-|[<-|Hy]]; try (etrans; [done|apply IH; by left]); apply IH; simpl; auto.
Qed.
End Extremum.

Lemma min_by_Z x l : min_by Z.ltb x l = foldl Z.min x l.
Proof.
  revert x. induction l as [|y ys IH]; intros x; simpl; [done|]. rewrite IH. f_equal.
  destruct (Z.ltb_spec y x); lia.
Qed.
Lemma max_by_Z x l : max_by Z.ltb x l = foldl Z.max x l.
Proof.
  revert x. induction l as [|y ys IH]; intros x; simpl; [done|]. rewrite IH. f_equal.
  destruct (Z.ltb_spec x y); lia.
Qed.

(** Sums of integers. *)
Definition zsum (l : list Z) : Z := foldr Z.add 0 l.
Lemma zsum_app l1 l2 : zsum (l1 ++ l2) = zsum l1 + zsum l2.
Proof. induction l1; simpl; lia. Qed.
Lemma zsum_zero {A} (f : A -> Z) l : (forall x, In x l → f x = 0) → zsum (map f l) = 0.
Proof. induction l as [|x xs IH]; simpl; intros H; [done|]. rewrite H, IH; auto. Qed.

(** The midpoint of a bracket that is not closed yet is strictly inside it. *)
Lemma mid_between lo hi : 1 < hi - lo → lo < (lo + hi) / 2 < hi.
Proof.
  intros H. pose proof (Z.div_mod (lo + hi) 2 ltac:(lia)).
  pose proof (Z.mod_pos_bound (lo + hi) 2 ltac:(lia)). lia.
Qed.

(** ** The order on strings *)
Lemma ascii_compare_trans_lt a b c :
  Ascii.compare a b = Lt → Ascii.compare b c = Lt → Ascii.compare a c = Lt.
Proof. unfold Ascii.compare. rewrite !N.compare_lt_iff. lia. Qed.

Lemma string_compare_trans_lt a : forall b c,
  String.compare a b = Lt → String.compare b c = Lt → String.compare a c = Lt.
Proof.
  induction a as [|x a IH]; intros [|y b] [|z c]; simpl; try congruence.
  destruct (Ascii.compare x y) eqn:E1, (Ascii.compare y z) eqn:E2; try congruence; intros H1 H2.
  - apply Ascii.compare_eq_iff in E1, E2. subst. unfold Ascii.compare. rewrite N.compare_refl. eauto.
  - apply Ascii.compare_eq_iff in E1. subst. by rewrite E2.
  - apply Ascii.compare_eq_iff in E2. subst. by rewrite E1.
  - by rewrite (ascii_compare_trans_lt _ _ _ E1 E2).
Qed.

Lemma string_leb_trans a b c :
  String.leb a b = true → String.leb b c = true → String.leb a c = true.
Proof.
  unfold String.leb. destruct (String.compare a b) eqn:E1; [| |done].
  - apply String.compare_eq_iff in E1. by subst.
  - destruct (String.compare b c) eqn:E2; [| |done].
    + apply String.compare_eq_iff in E2. subst. by rewrite E1.
    + by rewrite (string_compare_trans_lt _ _ _ E1 E2).
Qed.

(** ** Reasoning about stateful methods *)

(** Every run of [m] relates the state before it to the state after it by [R], whether it returns
    or raises. *)
Definition steps {S A} (R : S -> S -> Prop) (m : M S A) : Prop := forall s, R s (fst (m s)).

(** [m] keeps the invariant [I], whether it returns or raises. *)
Definition preserves {S A} (I : S -> Prop) (m : M S A) : Prop := forall s, I s → I (fst (m s)).

Section Steps.
Context {S : Type} (R : S -> S -> Prop) `{!Reflexive R, !Transitive R}.

Lemma steps_ret {A} (a : A) : steps R (ret a).
Proof. intros s. simpl. reflexivity. Qed.
Lemma steps_raise {A} e : steps R (raise (A:=A) e).
Proof. intros s. simpl. reflexivity. Qed.
Lemma steps_get : steps R get.
Proof. intros s. simpl. reflexivity. Qed.
Lemma steps_lift {A} (r : result A) : steps R (lift r).
Proof. intros s. simpl. reflexivity. Qed.
Lemma steps_bind {A B} (m : M S A) (k : A -> M S B) :
  steps R m → (forall a, steps R (k a)) → steps R (bind m k).
Proof.
  intros Hm Hk s. unfold bind. specialize (Hm s). destruct (m s) as [s1 [a|e]]; simpl in *; [|done].
  etrans; [exact Hm|]. apply Hk.
Qed.
Lemma steps_mfold {A B} (f : B -> A -> M S B) l b :
  (forall b x, steps R (f b x)) → steps R (mfold f l b).
Proof.
  intros Hf. revert b. induction l as [|x xs IH]; intros b; simpl; [apply steps_ret|].
  apply steps_bind; auto.
Qed.
End Steps.

Section Preserves.
Context {S : Type} (I : S -> Prop).

Lemma pres_ret {A} (a : A) : preserves I (ret a).
Proof. by intros s. Qed.
Lemma pres_raise {A} e : preserves I (raise (A:=A) e).
Proof. by intros s. Qed.
Lemma pres_get : preserves I get.
Proof. by intros s. Qed.
Lemma pres_lift {A} (r : result A) : preserves I (lift r).
Proof. by intros s. Qed.
Lemma pres_bind {A B} (m : M S A) (k : A -> M S B) :
  preserves I m → (forall a, preserves I (k a)) → preserves I (bind m k).
Proof.
  intros Hm Hk s Hs. unfold bind. specialize (Hm s Hs).
  destruct (m s) as [s1 [a|e]]; simpl in *; [|done]. by apply Hk.
Qed.
Lemma pres_modify f : (forall s, I s → I (f s)) → preserves I (modify f).
Proof. intros Hf s Hs. simpl. auto. Qed.
Lemma pres_mfold {A B} (f : B -> A -> M S B) l b :
  (forall b x, preserves I (f b x)) → preserves I (mfold f l b).
Proof.
  intros Hf. revert b. induction l as [|x xs IH]; intros b; simpl; [apply pres_ret|].
  apply pres_bind; auto.
Qed.
Lemma pres_if {A} (b : bool) (m1 m2 : M S A) :
  preserves I m1 → preserves I m2 → preserves I (if b then m1 else m2).
Proof. by destruct b. Qed.
End Preserves.

(** What a method returns, when it returns, satisfies [Q]. *)
Definition yields {S A} (Q : A -> Prop) (m : M S A) : Prop := forall s s' a, m s = (s', Ok a) → Q a.

Lemma yields_ret {S A} (Q : A -> Prop) (a : A) : Q a → yields (S := S) Q (ret a).
Proof. by intros HQ s s' a' [= <- <-]. Qed.
Lemma yields_any {S A} (m : M S A) : yields (fun _ => True) m.
Proof. done. Qed.
Lemma yields_bind {S A B} (P : A -> Prop) (Q : B -> Prop) (m : M S A) (k : A -> M S B) :
  yields P m → (forall a, P a → yields Q (k a)) → yields Q (bind m k).
Proof.
  intros Hm Hk s s' b E. unfold bind in E. destruct (m s) as [s1 [a|e]] eqn:Em; [|done].
  eapply Hk; [eapply Hm, Em|exact E].
Qed.
Lemma yields_seq {S A B} (Q : B -> Prop) (m : M S A) (k : A -> M S B) :
  (forall a, yields Q (k a)) → yields Q (bind m k).
Proof. intros Hk. eapply yields_bind; [apply yields_any|]. intros a _. apply Hk. Qed.

(** A fold returns within what its steps add. *)
Lemma yields_mfold {S A} (f : Z -> A -> M S Z) (n : Z) l : 0 <= n →
  (forall b x, yields (fun r => b <= r <= b + n) (f b x)) →
  forall b, yields (fun r => b <= r <= b + n * Z.of_nat (length l)) (mfold f l b).
Proof.
  intros Hn Hf. induction l as [|x xs IH]; intros b; cbn [mfold length]; [apply yields_ret; simpl; lia|].
  eapply yields_bind; [apply Hf|]. intros r Hr s s' a E%IH. cbn beta in *. rewrite Nat2Z.inj_succ. nia.
Qed.

Create HintDb pres.
#[export] Hint Resolve pres_ret pres_raise pres_get pres_lift pres_bind pres_modify pres_mfold
  pres_if : pres.

(** A returning [bind] is two returning steps. *)
Lemma bind_Ok {S A B} (m : M S A) (k : A -> M S B) s s' b :
  bind m k s = (s', Ok b) ↔ exists s1 a, m s = (s1, Ok a) ∧ k a s1 = (s', Ok b).
Proof.
  unfold bind. split.
  - destruct (m s) as [s1 [a|e]]; [eauto|congruence].
  - intros (s1 & a & -> & ?). done.
Qed.

Lemma lift_Ok {S A} (r : result A) (s s' : S) a : lift r s = (s', Ok a) ↔ s = s' ∧ r = Ok a.
Proof. unfold lift. naive_solver. Qed.

Lemma modify_Ok {S} (f : S -> S) s s' r : modify f s = (s', r) ↔ s' = f s ∧ r = Ok tt.
Proof. unfold modify. naive_solver. Qed.

Lemma rbind_Ok {A B} (m : result A) (k : A -> result B) b :
  rbind m k = Ok b ↔ exists a, m = Ok a ∧ k a = Ok b.
Proof. destruct m; simpl; naive_solver. Qed.

Lemma reject_Ok b e u : reject b e = Ok u ↔ b = false.
Proof. destruct b, u; naive_solver. Qed.

Lemma of_option_Ok {A} (o : option A) e a : of_option o e = Ok a ↔ o = Some a.
Proof. destruct o; naive_solver. Qed.

Lemma rmap_Ok {A B} (f : A -> result B) l l' :
  rmap f l = Ok l' ↔ Forall2 (fun x y => f x = Ok y) l l'.
Proof.
  revert l'. induction l as [|x xs IH]; intros l'; simpl.
  - split; [intros [= <-]; constructor|]. by inversion 1.
  - rewrite rbind_Ok. split.
    + intros (y & Hy & (ys & Hys & [= <-])%rbind_Ok). constructor; [done|]. by apply IH.
    + inversion 1 as [|? y ? ys Hy Hys]; subst. exists y. split; [done|].
      apply rbind_Ok. exists ys. split; [by apply IH|done].
Qed.

Lemma rmap_In {A B} (f : A -> result B) l l' x :
  rmap f l = Ok l' → In x l → exists y, f x = Ok y ∧ In y l'.
Proof.
  rewrite rmap_Ok. induction 1 as [|a b l l' Hab Hl IH]; simpl; [done|].
  intros [->|Hx]; [eauto|]. destruct (IH Hx) as (y & ? & ?). eauto.
Qed.

(** A map of returning steps returns. *)
Lemma rmap_total {A B} (f : A -> result B) l :
  (forall x, In x l → exists y, f x = Ok y) → exists l', rmap f l = Ok l' ∧ length l' = length l.
Proof.
  induction l as [|x xs IH]; intros H; simpl; [by exists []|].
  destruct (H x (or_introl eq_refl)) as [y ->].
  destruct (IH (fun z Hz => H z (or_intror Hz))) as (ys & -> & Hlen). simpl.
  exists (y :: ys). simpl. auto.
Qed.

Lemma rmap_In_Ok {A B} (f : A -> result B) l l' : rmap f l = Ok l' →
  forall y, In y l' ↔ exists x, In x l ∧ f x = Ok y.
Proof.
  revert l'. induction l as [|x l IH]; intros l' E y; cbn [rmap] in E.
  - injection E as <-. split; [done|]. by intros (? & [] & _).
  - apply rbind_Ok in E as (z & Ez & E). apply rbind_Ok in E as (zs & Es & [= <-]). cbn. rewrite (IH _ Es). split.
    + intros [<-|(x' & ? & ?)]; eauto.
    + intros (x' & [->|?] & Hf); [left; congruence|right; eauto].
Qed.

(** The values present in a list of options. *)
Fixpoint somes {A} (l : list (option A)) : list A :=
  match l with [] => [] | Some a :: l => a :: somes l | None :: l => somes l end.

Lemma somes_In {A} (l : list (option A)) a : In a (somes l) ↔ In (Some a) l.
Proof.
  induction l as [|[b|] l IH]; cbn; [done| |].
  - rewrite IH. naive_solver.
  - rewrite IH. naive_solver.
Qed.

Lemma somes_length {A} (l : list (option A)) : (length (somes l) <= length l)%nat.
Proof. induction l as [|[b|] l IH]; cbn; lia. Qed.

(** The exceptions a computation can raise. *)
Definition fails_only {A} (errs : exn -> Prop) (r : result A) : Prop :=
  match r with Ok _ => True | Err e => errs e end.

Lemma fails_bind {A B} errs (m : result A) (k : A -> result B) :
  fails_only errs m → (forall a, m = Ok a → fails_only errs (k a)) → fails_only errs (rbind m k).
Proof. destruct m; simpl; auto. Qed.

Lemma rmap_fails {A B} errs (f : A -> result B) l : (forall x, fails_only errs (f x)) → fails_only errs (rmap f l).
Proof.
  intros Hf. induction l as [|x l IH]; [done|]. cbn [rmap]. apply fails_bind; [done|]. intros y _.
  apply fails_bind; [done|]. done.
Qed.

Lemma reject_fails (errs : exn -> Prop) b e : errs e → fails_only errs (reject b e).
Proof. by destruct b. Qed.

Lemma of_option_fails {A} (errs : exn -> Prop) (o : option A) e : errs e → fails_only errs (of_option o e).
Proof. by destruct o. Qed.

(** Split hypotheses about returning computations into their steps. *)
Ltac inv_ok :=
  repeat match goal with
  | H : rbind _ _ = Ok _ |- _ => apply rbind_Ok in H; destruct H as (? & ? & ?)
  | H : bind _ _ _ = (_, Ok _) |- _ => apply bind_Ok in H; destruct H as (? & ? & ? & ?)
  | H : reject _ _ = Ok _ |- _ => apply reject_Ok in H
  | H : lift _ _ = (_, Ok _) |- _ => apply lift_Ok in H; destruct H as [? ?]
  | H : ret _ _ = (_, _) |- _ => injection H as ??
  | H : get _ = (_, _) |- _ => injection H as ??
  | H : modify _ _ = (_, _) |- _ => apply modify_Ok in H; destruct H as [? ?]
  | H : Ok _ = Ok _ |- _ => injection H as ?
  | H : Err _ = Ok _ |- _ => discriminate H
  | H : raise _ _ = (_, Ok _) |- _ => discriminate H
  end; simplify_eq.

(** A goal [run = outcome ∧ claim]: evaluate the run once, name the equation and go on with the
    claim. *)
Ltac run_as E :=
  match goal with
  | |- ?A ∧ _ => cut A; [intros E; split; [exact E|] | vm_compute; reflexivity]
  end.
