(* ===== verification/PyDecimal.v ===== *)
(** * Python's [decimal.Decimal] under the default context

    The finite decimals of the standard library, with the default context every module of the
    program uses: precision 28, [ROUND_HALF_EVEN].  A number is a signed coefficient and a decimal
    exponent; arithmetic computes the exact result and rounds it to 28 significant digits, and
    comparison is exact.  The exponents of results follow the library (they decide how a number
    prints), equality of values is the coarser [deq].  Signed zeros, NaN, infinities and the
    exponent bounds (+-999999) are left out: no module of the program produces them. *)

From Stdlib Require Import QArith Qpower Qabs Qround Lqa.
From S2P Require Import Prelude.

#[local] Open Scope Z_scope.

Record decimal := Dec { dcoef : Z; dexp : Z }.

#[global] Instance decimal_eq_dec : EqDecision decimal.
Proof. solve_decision. Defined.

Definition dec_of_Z (n : Z) : decimal := Dec n 0.
Definition d0 : decimal := dec_of_Z 0.
Definition d1 : decimal := dec_of_Z 1.

Definition dprec : Z := 28.

(** ** Rounding to the context *)
Fixpoint ndigits_fuel (fuel : nat) (n : Z) : Z :=
  match fuel with
  | O => 1
  | S f => if n <? 10 then 1 else 1 + ndigits_fuel f (n / 10)
  end.

(** The number of decimal digits of [n >= 0]; [log2 n] divisions by ten are enough. *)
Definition ndigits (n : Z) : Z := ndigits_fuel (Z.to_nat (Z.log2 n)) n.

(** [n / 10^k] rounded half to even, for [n >= 0]. *)
Definition round_half_even (n k : Z) : Z :=
  let p := 10 ^ k in
  let q := n / p in
  let r := n mod p in
  if 2 * r <? p then q else if p <? 2 * r then q + 1 else if Z.even q then q else q + 1.

(** [Decimal._fix]: round to 28 digits; a carry to 29 digits drops its last zero. *)
Definition dfix (d : decimal) : decimal :=
  let n := Z.abs (dcoef d) in
  let nd := ndigits n in
  if nd <=? dprec then d
  else
    let k := nd - dprec in
    let q := round_half_even n k in
    let s := Z.sgn (dcoef d) in
    if q =? 10 ^ dprec then Dec (s * 10 ^ (dprec - 1)) (dexp d + k + 1)
    else Dec (s * q) (dexp d + k).

(** ** Arithmetic *)
Definition scale_to (e : Z) (d : decimal) : Z := dcoef d * 10 ^ (dexp d - e).

Definition dadd_exact (a b : decimal) : decimal :=
  let e := Z.min (dexp a) (dexp b) in Dec (scale_to e a + scale_to e b) e.

Definition dmul_exact (a b : decimal) : decimal := Dec (dcoef a * dcoef b) (dexp a + dexp b).

Definition dneg_exact (a : decimal) : decimal := Dec (- dcoef a) (dexp a).

Definition dadd (a b : decimal) : decimal := dfix (dadd_exact a b).
Definition dsub (a b : decimal) : decimal := dadd a (dneg_exact b).
Definition dmul (a b : decimal) : decimal := dfix (dmul_exact a b).
Definition dneg (a : decimal) : decimal := dfix (dneg_exact a).
Definition dabs (a : decimal) : decimal := dfix (Dec (Z.abs (dcoef a)) (dexp a)).

(** The exact quotient's trailing zeros are dropped while the exponent is below the ideal one. *)
Fixpoint strip_zeros (fuel : nat) (c e ideal : Z) : Z * Z :=
  match fuel with
  | O => (c, e)
  | S f => if (e <? ideal) && (c mod 10 =? 0) then strip_zeros f (c / 10) (e + 1) ideal
           else (c, e)
  end.

(** [a / b]: 29 or 30 digits of the quotient, a sticky last digit when it is inexact, rounded. *)
Definition ddiv (a b : decimal) : result decimal :=
  if dcoef b =? 0 then (if dcoef a =? 0 then Err InvalidOperation else Err DivisionByZero)
  else if dcoef a =? 0 then Ok (dfix (Dec 0 (dexp a - dexp b)))
  else
    let ca := Z.abs (dcoef a) in
    let cb := Z.abs (dcoef b) in
    let shift := ndigits cb - ndigits ca + dprec + 1 in
    let e := dexp a - dexp b - shift in
    let num := if 0 <=? shift then ca * 10 ^ shift else ca in
    let den := if 0 <=? shift then cb else cb * 10 ^ (- shift) in
    let q := num / den in
    let s := Z.sgn (dcoef a) * Z.sgn (dcoef b) in
    if negb (num mod den =? 0)
    then Ok (dfix (Dec (s * (if q mod 5 =? 0 then q + 1 else q)) e))
    else let '(c, e') := strip_zeros (Z.to_nat (dexp a - dexp b - e)) q e (dexp a - dexp b) in
         Ok (dfix (Dec (s * c) e')).

(** ** Comparison *)
Definition dcmp (a b : decimal) : comparison :=
  let e := Z.min (dexp a) (dexp b) in Z.compare (scale_to e a) (scale_to e b).

Definition dltb (a b : decimal) : bool := match dcmp a b with Lt => true | _ => false end.
Definition dleb (a b : decimal) : bool := match dcmp a b with Gt => false | _ => true end.
Definition deqb (a b : decimal) : bool := match dcmp a b with Eq => true | _ => false end.

(** [min(a, b)] and [max(a, b)] keep the first argument on a tie. *)
Definition dmax (a b : decimal) : decimal := if dltb a b then b else a.
Definition dmin (a b : decimal) : decimal := if dltb b a then b else a.

Definition dsum (l : list decimal) : decimal := foldl dadd d0 l.

(** [int(d.to_integral_value(rounding=ROUND_DOWN))]: truncation toward zero. *)
Definition dtrunc (d : decimal) : Z :=
  if 0 <=? dexp d then dcoef d * 10 ^ dexp d
  else Z.sgn (dcoef d) * (Z.abs (dcoef d) / 10 ^ (- dexp d)).

(** ** Values *)
Definition dval (d : decimal) : Q := (inject_Z (dcoef d) * Qpower (10 # 1) (dexp d))%Q.

#[global] Arguments dval : simpl never.
#[global] Arguments dfix : simpl never.
#[global] Arguments dadd : simpl never.
#[global] Arguments dsub : simpl never.
#[global] Arguments dmul : simpl never.
#[global] Arguments ddiv : simpl never.
#[global] Arguments dltb : simpl never.
#[global] Arguments dleb : simpl never.
#[global] Arguments deqb : simpl never.

Definition deq (a b : decimal) : Prop := (dval a == dval b)%Q.

Declare Scope dec_scope.
Delimit Scope dec_scope with dec.
Bind Scope dec_scope with decimal.
Infix "+" := dadd : dec_scope.
Infix "-" := dsub : dec_scope.
Infix "*" := dmul : dec_scope.
Infix "<?" := dltb : dec_scope.
Infix "<=?" := dleb : dec_scope.
Infix "=?" := deqb : dec_scope.


Example dec_div3 : ddiv (Dec 1 0) (Dec 3 0) = Ok (Dec 3333333333333333333333333333 (-28)).
Proof. vm_compute. reflexivity. Qed.
Example dec_div_exact : ddiv (Dec 1 0) (Dec 4 0) = Ok (Dec 25 (-2)).
Proof. vm_compute. reflexivity. Qed.
Example dec_div_ideal : ddiv (Dec 100 0) (Dec 5 0) = Ok (Dec 20 0).
Proof. vm_compute. reflexivity. Qed.
Example dec_add_round :
  dadd (Dec 9999999999999999999999999999 0) (Dec 7 (-1)) = Dec 1000000000000000000000000000 1.
Proof. vm_compute. reflexivity. Qed.

(** ** Powers of ten in Q *)
Definition p10 (e : Z) : Q := Qpower (10 # 1) e.

Lemma p10_pos e : (0 < p10 e)%Q.
Proof. unfold p10. apply Qpower_0_lt. reflexivity. Qed.

Lemma p10_add e f : (p10 (e + f) == p10 e * p10 f)%Q.
Proof. unfold p10. apply Qpower_plus. discriminate. Qed.

Lemma p10_Z e : 0 <= e → (inject_Z (10 ^ e) == p10 e)%Q.
Proof. intros. unfold p10. rewrite Zpower_Qpower by done. reflexivity. Qed.

Lemma dval_scale e d : e <= dexp d → (dval d == inject_Z (scale_to e d) * p10 e)%Q.
Proof.
  intros He. unfold dval, scale_to. fold (p10 (dexp d)).
  replace (dexp d) with ((dexp d - e) + e) at 1 by lia.
  rewrite p10_add, inject_Z_mult, <- p10_Z by lia. ring.
Qed.

Lemma Qmult_p10_lt a b e : (inject_Z a * p10 e < inject_Z b * p10 e)%Q ↔ a < b.
Proof. rewrite Qmult_lt_r by apply p10_pos. by rewrite <- Zlt_Qlt. Qed.

Lemma Qmult_p10_le a b e : (inject_Z a * p10 e <= inject_Z b * p10 e)%Q ↔ a <= b.
Proof. rewrite Qmult_le_r by apply p10_pos. by rewrite <- Zle_Qle. Qed.

(** ** Comparison is comparison of values *)
Lemma dcmp_spec a b : dcmp a b = (dval a ?= dval b)%Q.
Proof.
  unfold dcmp. set (e := Z.min _ _).
  assert (He : e <= dexp a ∧ e <= dexp b) by lia. destruct He as [Ha Hb].
  symmetry. rewrite (dval_scale e a), (dval_scale e b) by done.
  destruct (Z.compare_spec (scale_to e a) (scale_to e b)) as [->|H|H].
  - by apply Qeq_alt.
  - apply Qlt_alt. by apply Qmult_p10_lt.
  - apply Qgt_alt. by apply Qmult_p10_lt.
Qed.

Lemma dltb_spec a b : dltb a b = true ↔ (dval a < dval b)%Q.
Proof. unfold dltb. rewrite dcmp_spec, Qlt_alt. destruct (_ ?= _)%Q; naive_solver. Qed.

Lemma dltb_false a b : dltb a b = false ↔ (dval b <= dval a)%Q.
Proof.
  rewrite <- not_true_iff_false, dltb_spec. split; [apply Qnot_lt_le | apply Qle_not_lt].
Qed.

Lemma dleb_spec a b : dleb a b = true ↔ (dval a <= dval b)%Q.
Proof.
  unfold dleb. rewrite dcmp_spec, Qle_alt. destruct (_ ?= _)%Q; naive_solver.
Qed.

Lemma dleb_false a b : dleb a b = false ↔ (dval b < dval a)%Q.
Proof.
  rewrite <- not_true_iff_false, dleb_spec. split; [apply Qnot_le_lt | apply Qlt_not_le].
Qed.

Lemma deqb_spec a b : deqb a b = true ↔ deq a b.
Proof. unfold deqb, deq. rewrite dcmp_spec, Qeq_alt. destruct (_ ?= _)%Q; naive_solver. Qed.

#[global] Instance deq_equiv : Equivalence deq.
Proof.
  split; unfold deq.
  - intros x. reflexivity.
  - intros x y H. by symmetry.
  - intros x y z H1 H2. by rewrite H1.
Qed.

#[global] Instance dval_proper : Proper (deq ==> Qeq) dval.
Proof. by intros a b H. Qed.

#[global] Instance dcmp_proper : Proper (deq ==> deq ==> eq) dcmp.
Proof. intros a b H c d H'. unfold deq in *. by rewrite !dcmp_spec, H, H'. Qed.

#[global] Instance dltb_proper : Proper (deq ==> deq ==> eq) dltb.
Proof. intros a b H c d H'. unfold dltb. by rewrite H, H'. Qed.

#[global] Instance dleb_proper : Proper (deq ==> deq ==> eq) dleb.
Proof. intros a b H c d H'. unfold dleb. by rewrite H, H'. Qed.

#[global] Instance deqb_proper : Proper (deq ==> deq ==> eq) deqb.
Proof. intros a b H c d H'. unfold deqb. by rewrite H, H'. Qed.

(** Comparisons against an integer constant, and signs. *)
Lemma dval_Z n : (dval (dec_of_Z n) == inject_Z n)%Q.
Proof. unfold dval, dec_of_Z. simpl. ring. Qed.

Lemma dval_sgn d : (dval d ?= 0)%Q = Z.compare (dcoef d) 0.
Proof.
  assert (E : (dval d == inject_Z (dcoef d) * p10 (dexp d))%Q) by reflexivity.
  destruct (Z.compare_spec (dcoef d) 0) as [H|H|H].
  - apply Qeq_alt. rewrite E, H. ring.
  - apply Qlt_alt. rewrite E. rewrite <- (Qmult_0_l (p10 (dexp d))).
    by apply Qmult_p10_lt.
  - apply Qgt_alt. rewrite E. rewrite <- (Qmult_0_l (p10 (dexp d))).
    by apply Qmult_p10_lt.
Qed.

Lemma dval_pos d : (0 < dval d)%Q ↔ 0 < dcoef d.
Proof. rewrite <- Z.compare_gt_iff, <- dval_sgn. by rewrite Qgt_alt. Qed.
Lemma dval_neg d : (dval d < 0)%Q ↔ dcoef d < 0.
Proof. rewrite <- Z.compare_lt_iff, <- dval_sgn. by rewrite Qlt_alt. Qed.
Lemma dval_nonneg d : (0 <= dval d)%Q ↔ 0 <= dcoef d.
Proof.
  split; intros H.
  - apply Z.nlt_ge. intros H'%dval_neg. by apply Qlt_not_le in H'.
  - apply Qnot_lt_le. intros H'%dval_neg. lia.
Qed.

(** ** Digit counts *)
Lemma ndigits_fuel_spec f : forall n, 0 < n → Z.log2 n <= Z.of_nat f →
  1 <= ndigits_fuel f n ∧ 10 ^ (ndigits_fuel f n - 1) <= n < 10 ^ ndigits_fuel f n.
Proof.
  induction f as [|f IH]; intros n Hn Hf; simpl.
  - assert (n = 1) as ->; [|lia].
    destruct (Z.log2_spec n Hn) as [_ H]. replace (Z.log2 n) with 0 in H by (pose proof (Z.log2_nonneg n); lia).
    simpl in H. lia.
  - destruct (Z.ltb_spec n 10); [simpl; lia|].
    assert (Hd : 1 <= n / 10) by (apply Z.div_le_lower_bound; lia).
    assert (Hlog : Z.log2 (n / 10) <= Z.of_nat f).
    { assert (Z.log2 (n / 10) <= Z.log2 (n / 2)).
      { apply Z.log2_le_mono. apply Z.div_le_compat_l; lia. }
      assert (Z.log2 (n / 2) = Z.log2 n - 1).
      { rewrite <- Z.shiftr_div_pow2 with (n := 1) by lia. rewrite Z.log2_shiftr by lia.
        assert (1 <= Z.log2 n) by (apply Z.log2_le_pow2; simpl; lia). lia. }
      lia. }
    destruct (IH (n / 10)) as (H1 & H2 & H3); [lia|done|].
    set (k := ndigits_fuel f (n / 10)) in *. split; [lia|].
    replace (1 + k - 1) with (k - 1 + 1) by lia. replace (1 + k) with (k + 1) by lia.
    rewrite !Z.pow_add_r by lia. change (10 ^ 1) with 10.
    pose proof (Z.div_mod n 10 ltac:(lia)). pose proof (Z.mod_pos_bound n 10 ltac:(lia)). lia.
Qed.

Lemma ndigits_spec n : 0 < n → 10 ^ (ndigits n - 1) <= n < 10 ^ ndigits n.
Proof.
  intros. apply ndigits_fuel_spec; [done|]. rewrite Z2Nat.id; [lia|apply Z.log2_nonneg].
Qed.

Lemma ndigits_pos n : 0 <= n → 1 <= ndigits n.
Proof.
  intros. destruct (decide (n = 0)) as [->|]; [by vm_compute|].
  apply ndigits_fuel_spec; [lia|]. rewrite Z2Nat.id; [lia|apply Z.log2_nonneg].
Qed.

Lemma ndigits_le n k : 0 <= n → 1 <= k → n < 10 ^ k → ndigits n <= k.
Proof.
  intros Hn Hk H. destruct (decide (n = 0)) as [->|]; [by vm_compute|].
  pose proof (ndigits_pos n Hn).
  destruct (ndigits_spec n) as [H1 _]; [lia|].
  destruct (Z.le_gt_cases (ndigits n) k); [done|]. exfalso.
  assert (10 ^ k <= 10 ^ (ndigits n - 1)) by (apply Z.pow_le_mono_r; lia). lia.
Qed.

(** ** Rounding *)
Lemma round_half_even_error n k : 0 <= k →
  2 * Z.abs (round_half_even n k * 10 ^ k - n) <= 10 ^ k.
Proof.
  intros Hk. unfold round_half_even. set (p := 10 ^ k).
  assert (Hp : 0 < p) by (apply Z.pow_pos_nonneg; lia).
  pose proof (Z.div_mod n p ltac:(lia)). pose proof (Z.mod_pos_bound n p Hp).
  destruct (Z.ltb_spec (2 * (n mod p)) p); [nia|].
  destruct (Z.ltb_spec p (2 * (n mod p))); [nia|].
  destruct (Z.even (n / p)); nia.
Qed.

Lemma round_half_even_lower n k m : 0 <= k → m * 10 ^ k <= n → m <= round_half_even n k.
Proof.
  intros Hk H. unfold round_half_even. assert (0 < 10 ^ k) by (apply Z.pow_pos_nonneg; lia).
  assert (m <= n / 10 ^ k) by (apply Z.div_le_lower_bound; lia).
  repeat case_match; lia.
Qed.

Lemma round_half_even_upper n k m : 0 <= k → n <= m * 10 ^ k → round_half_even n k <= m.
Proof.
  intros Hk H. pose proof (round_half_even_error n k Hk).
  assert (Hp : 0 < 10 ^ k) by (apply Z.pow_pos_nonneg; lia).
  destruct (Z.le_gt_cases (round_half_even n k) m); [done|]. exfalso. nia.
Qed.

(** The magnitude of a rounded coefficient: [dfix] in one formula. *)
Definition fix_shift (d : decimal) : Z := Z.max 0 (ndigits (Z.abs (dcoef d)) - dprec).

Lemma dfix_exact d : ndigits (Z.abs (dcoef d)) <= dprec → dfix d = d.
Proof. intros H. unfold dfix. by apply Z.leb_le in H as ->. Qed.

Lemma dfix_small d : Z.abs (dcoef d) < 10 ^ dprec → dfix d = d.
Proof. intros H. apply dfix_exact, ndigits_le; unfold dprec in *; lia. Qed.

(** Rounding moves a value by at most half a unit in the 28th digit. *)
Lemma dfix_cases d :
  dfix d = d ∨
  exists k q, 0 < k ∧ 10 ^ (dprec - 1) <= q ∧
    10 ^ (dprec - 1 + k) <= Z.abs (dcoef d) ∧
    2 * Z.abs (q * 10 ^ k - Z.abs (dcoef d)) <= 10 ^ k ∧
    (dval (dfix d) == inject_Z (Z.sgn (dcoef d) * q * 10 ^ k) * p10 (dexp d))%Q ∧
    Z.sgn (dcoef (dfix d)) = Z.sgn (dcoef d).
Proof.
  unfold dfix. set (n := Z.abs (dcoef d)).
  destruct (Z.leb_spec (ndigits n) dprec) as [|Hnd]; [by left|right].
  assert (Hn : 0 < n).
  { destruct (decide (n = 0)) as [E|]; [|lia]. rewrite E in Hnd. by vm_compute in Hnd. }
  destruct (ndigits_spec n Hn) as [Hlo Hhi]. set (k := ndigits n - dprec) in *.
  set (q := round_half_even n k). exists k, q.
  assert (Hq : 10 ^ (dprec - 1) <= q).
  { apply round_half_even_lower; [lia|]. rewrite <- Z.pow_add_r by (unfold dprec; lia).
    by replace (dprec - 1 + k) with (ndigits n - 1) by lia. }
  split_and!; [lia|done| |by apply round_half_even_error; lia| |].
  - by replace (dprec - 1 + k) with (ndigits n - 1) by lia.
  - destruct (Z.eqb_spec q (10 ^ dprec)) as [E|]; unfold dval; simpl.
    + rewrite E. fold (p10 (dexp d + k + 1)). fold (p10 (dexp d)).
      rewrite !p10_add, !inject_Z_mult, (p10_Z k), (p10_Z dprec) by (unfold dprec; lia).
      replace dprec with ((dprec - 1) + 1) at 2 by lia.
      rewrite p10_add, p10_Z by (unfold dprec; lia). ring.
    + fold (p10 (dexp d + k)). fold (p10 (dexp d)).
      rewrite !p10_add, !inject_Z_mult, (p10_Z k) by lia. ring.
  - assert (Z.sgn q = 1) by (apply Z.sgn_pos; unfold dprec in *; lia).
    destruct (_ =? _); simpl; rewrite Z.sgn_mul, Z.sgn_sgn; [|by rewrite H; lia].
    change (Z.sgn (10 ^ (dprec - 1))) with 1. lia.
Qed.

(** Rounding keeps the sign. *)
Lemma dfix_sgn d : Z.sgn (dcoef (dfix d)) = Z.sgn (dcoef d).
Proof. destruct (dfix_cases d) as [->|(?&?&_&_&_&_&_&?)]; done. Qed.

Lemma dfix_pos d : 0 < dcoef (dfix d) ↔ 0 < dcoef d.
Proof. pose proof (dfix_sgn d). revert H. generalize (dcoef (dfix d)). intros. lia. Qed.
Lemma dfix_nonneg d : 0 <= dcoef (dfix d) ↔ 0 <= dcoef d.
Proof. pose proof (dfix_sgn d). revert H. generalize (dcoef (dfix d)). intros. lia. Qed.
Lemma dfix_zero d : dcoef (dfix d) = 0 ↔ dcoef d = 0.
Proof. pose proof (dfix_sgn d). revert H. generalize (dcoef (dfix d)). intros. lia. Qed.

(** The relative error of one rounding: half a unit in the 28th significant digit. *)
Definition half_ulp : Q := (1 # 2) * p10 (1 - dprec).

Lemma dfix_error d : (Qabs (dval (dfix d) - dval d) <= half_ulp * Qabs (dval d))%Q.
Proof.
  destruct (dfix_cases d) as [->|(k & q & Hk & Hq & Hbig & Herr & -> & _)].
  - setoid_replace (dval d - dval d)%Q with 0%Q using relation Qeq by ring.
    apply Qmult_le_0_compat; [|apply Qabs_nonneg]. by vm_compute.
  - unfold dval. fold (p10 (dexp d)). pose proof (p10_pos (dexp d)) as Hp.
    assert (E : (inject_Z (Z.sgn (dcoef d) * q * 10 ^ k) * p10 (dexp d)
             - inject_Z (dcoef d) * p10 (dexp d)
             == inject_Z (Z.sgn (dcoef d) * (q * 10 ^ k - Z.abs (dcoef d))) * p10 (dexp d))%Q).
    { set (c := dcoef d). rewrite <- (Z.abs_sgn c) at 2. set (s := Z.sgn c). set (a := Z.abs c).
      replace (s * (q * 10 ^ k - a)) with (s * q * 10 ^ k + - (a * s)) by ring.
      rewrite inject_Z_plus, inject_Z_opp. ring. }
    rewrite E, !Qabs_Qmult, (Qabs_pos (p10 _)) by lra.
    rewrite Qmult_assoc. apply Qmult_le_compat_r; [|lra].
    change (Qabs (inject_Z ?x)) with (inject_Z (Z.abs x)).
    rewrite Z.abs_mul. set (a := Z.abs (dcoef d)) in *.
    assert (Hs : Z.abs (Z.sgn (dcoef d)) = 1).
    { assert (dcoef d ≠ 0) by (intros E0; subst a; rewrite E0 in Hbig; simpl in Hbig;
        assert (0 < 10 ^ (dprec - 1 + k)) by (apply Z.pow_pos_nonneg; unfold dprec; lia); lia). lia. }
    rewrite Hs, Z.mul_1_l. unfold half_ulp.
    assert (H1 : (inject_Z (2 * Z.abs (q * 10 ^ k - a)) <= inject_Z (10 ^ k))%Q)
      by (by rewrite <- Zle_Qle).
    assert (H2 : (inject_Z (10 ^ (dprec - 1 + k)) <= inject_Z a)%Q) by (by rewrite <- Zle_Qle).
    rewrite p10_Z, p10_add in H2 by (unfold dprec; lia). rewrite p10_Z in H1 by lia.
    rewrite inject_Z_mult in H1. change (inject_Z 2) with 2%Q in H1.
    assert (H3 : (p10 (1 - dprec) * p10 (dprec - 1) == 1)%Q).
    { rewrite <- p10_add. by replace (1 - dprec + (dprec - 1)) with 0 by lia. }
    pose proof (p10_pos (1 - dprec)) as H4.
    assert (H5 : (p10 (1 - dprec) * (p10 (dprec - 1) * p10 k) <= p10 (1 - dprec) * inject_Z a)%Q).
    { rewrite !(Qmult_comm (p10 (1 - dprec))). apply Qmult_le_compat_r; lra. }
    rewrite Qmult_assoc, H3 in H5. lra.
Qed.

(** ** The operations *)
Lemma dval_dneg_exact a : (dval (dneg_exact a) == - dval a)%Q.
Proof. unfold dval. simpl. rewrite inject_Z_opp. ring. Qed.

Lemma dval_dadd_exact a b : (dval (dadd_exact a b) == dval a + dval b)%Q.
Proof.
  unfold dadd_exact. set (e := Z.min _ _). rewrite (dval_scale e a), (dval_scale e b) by lia.
  unfold dval. simpl. fold (p10 e). rewrite inject_Z_plus. ring.
Qed.

Lemma dval_dmul_exact a b : (dval (dmul_exact a b) == dval a * dval b)%Q.
Proof.
  unfold dval. simpl. fold (p10 (dexp a + dexp b)). rewrite p10_add, inject_Z_mult.
  unfold p10. ring.
Qed.

Lemma dadd_sgn a b : Z.sgn (dcoef (dadd a b)) = Z.sgn (dcoef (dadd_exact a b)).
Proof. apply dfix_sgn. Qed.

Lemma dadd_nonneg a b : 0 <= dcoef a → 0 <= dcoef b → 0 <= dcoef (dadd a b).
Proof.
  intros Ha Hb. apply dfix_nonneg, dval_nonneg. rewrite dval_dadd_exact.
  apply dval_nonneg in Ha, Hb. lra.
Qed.

Lemma dadd_pos a b : 0 < dcoef a → 0 <= dcoef b → 0 < dcoef (dadd a b).
Proof.
  intros Ha Hb. apply dfix_pos, dval_pos. rewrite dval_dadd_exact.
  apply dval_pos in Ha. apply dval_nonneg in Hb. lra.
Qed.

(** The sign of a rounded difference is the comparison of its operands. *)
Lemma dsub_nonneg a b : 0 <= dcoef (dsub a b) ↔ (dval b <= dval a)%Q.
Proof.
  unfold dsub, dadd. rewrite dfix_nonneg, <- dval_nonneg, dval_dadd_exact, dval_dneg_exact.
  split; intros; lra.
Qed.

Lemma dsub_pos a b : 0 < dcoef (dsub a b) ↔ (dval b < dval a)%Q.
Proof.
  unfold dsub, dadd. rewrite dfix_pos, <- dval_pos, dval_dadd_exact, dval_dneg_exact.
  split; intros; lra.
Qed.

Lemma dmul_pos a b : 0 < dcoef a → 0 < dcoef b → 0 < dcoef (dmul a b).
Proof. intros. apply dfix_pos. simpl. nia. Qed.

Lemma dmul_nonneg a b : 0 <= dcoef a → 0 <= dcoef b → 0 <= dcoef (dmul a b).
Proof. intros. apply dfix_nonneg. simpl. nia. Qed.

(** No rounding happens when the exact result fits in 28 digits. *)
Definition fits (d : decimal) : Prop := Z.abs (dcoef d) < 10 ^ dprec.

#[global] Instance fits_dec d : Decision (fits d) := Z_lt_dec _ _.

Lemma dadd_fits a b : fits (dadd_exact a b) → dadd a b = dadd_exact a b.
Proof. apply dfix_small. Qed.

Lemma dval_dadd a b : fits (dadd_exact a b) → (dval (dadd a b) == dval a + dval b)%Q.
Proof. intros. rewrite dadd_fits by done. apply dval_dadd_exact. Qed.

Lemma dval_dsub a b :
  fits (dadd_exact a (dneg_exact b)) → (dval (dsub a b) == dval a - dval b)%Q.
Proof. intros. unfold dsub. rewrite dval_dadd, dval_dneg_exact by done. ring. Qed.

Lemma dval_dmul a b : fits (dmul_exact a b) → (dval (dmul a b) == dval a * dval b)%Q.
Proof. intros. unfold dmul. rewrite dfix_small by done. apply dval_dmul_exact. Qed.

(** Rounding is monotone against a value that is itself representable. *)
Lemma p10_le e f : e <= f → (p10 e <= p10 f)%Q.
Proof.
  intros H. rewrite <- (Qmult_1_l (p10 e)). replace f with ((f - e) + e) by lia.
  rewrite p10_add. apply Qmult_le_compat_r; [|pose proof (p10_pos e); lra].
  rewrite <- (p10_Z (f - e)) by lia. rewrite <- (Zle_Qle 1).
  pose proof (Z.pow_pos_nonneg 10 (f - e)). lia.
Qed.

Lemma dval_fits_ub v : 0 < dcoef v → dcoef v < 10 ^ dprec → (dval v < p10 (dprec + dexp v))%Q.
Proof.
  intros H1 H2. unfold dval. fold (p10 (dexp v)).
  rewrite p10_add, <- (p10_Z dprec) by (unfold dprec; lia). by apply Qmult_p10_lt.
Qed.

(** Align two values at the exponent of the second. *)
Lemma dval_aligned v e k : e + k <= dexp v →  0 <= k →
  (dval v == inject_Z (dcoef v * 10 ^ (dexp v - e - k) * 10 ^ k) * p10 e)%Q.
Proof.
  intros H Hk. rewrite (dval_scale e) by lia. unfold scale_to.
  rewrite <- Z.mul_assoc, <- Z.pow_add_r by lia. by replace (dexp v - e - k + k) with (dexp v - e) by lia.
Qed.

Lemma dfix_lower v d : 0 < dcoef v → dcoef v < 10 ^ dprec →
  (dval v <= dval d)%Q → (dval v <= dval (dfix d))%Q.
Proof.
  intros Hv Hf Hle. destruct (dfix_cases d) as [->|(k & q & Hk & Hq & Hbig & Herr & E & _)]; [done|].
  assert (Hd : 0 < dcoef d).
  { apply dval_pos. eapply Qlt_le_trans; [|exact Hle]. by apply dval_pos. }
  rewrite E, (Z.sgn_pos (dcoef d)), Z.mul_1_l by done. rewrite Z.abs_eq in * by lia.
  assert (Hp : 0 < 10 ^ k) by (apply Z.pow_pos_nonneg; lia).
  destruct (Z.le_gt_cases (dexp d + k) (dexp v)) as [Hc|Hc].
  - rewrite (dval_aligned v (dexp d) k) in * by lia. revert Hle.
    unfold dval. fold (p10 (dexp d)). rewrite !Qmult_p10_le.
    generalize (dcoef v * 10 ^ (dexp v - dexp d - k)). intros m Hm.
    destruct (Z.le_gt_cases m q); nia.
  - apply Qlt_le_weak. eapply Qlt_le_trans; [by apply dval_fits_ub|].
    eapply Qle_trans; [apply (p10_le _ ((dprec - 1) + k + dexp d)); lia|].
    rewrite !p10_add, <- (p10_Z k), <- (p10_Z (dprec - 1)), <- inject_Z_mult by (unfold dprec; lia).
    apply Qmult_p10_le. by apply Z.mul_le_mono_pos_r.
Qed.

Lemma dfix_upper v d : 0 < dcoef v → dcoef v < 10 ^ dprec →
  (dval d <= dval v)%Q → (dval (dfix d) <= dval v)%Q.
Proof.
  intros Hv Hf Hle. destruct (dfix_cases d) as [->|(k & q & Hk & Hq & Hbig & Herr & E & Hs)]; [done|].
  destruct (Z.le_gt_cases (dcoef d) 0) as [Hd|Hd].
  { apply Qle_trans with 0%Q; [|by apply Qlt_le_weak, dval_pos].
    apply Qnot_lt_le. intros H%dval_pos. lia. }
  rewrite E, (Z.sgn_pos (dcoef d)), Z.mul_1_l by done. rewrite Z.abs_eq in * by lia.
  assert (Hp : 0 < 10 ^ k) by (apply Z.pow_pos_nonneg; lia).
  destruct (Z.le_gt_cases (dexp d + k) (dexp v)) as [Hc|Hc].
  - rewrite (dval_aligned v (dexp d) k) in * by lia. revert Hle.
    unfold dval. fold (p10 (dexp d)). rewrite !Qmult_p10_le.
    generalize (dcoef v * 10 ^ (dexp v - dexp d - k)). intros m Hm.
    destruct (Z.le_gt_cases q m); nia.
  - exfalso. apply (Qlt_irrefl (dval v)). eapply Qlt_le_trans; [by apply dval_fits_ub|].
    eapply Qle_trans; [|exact Hle].
    eapply Qle_trans; [apply (p10_le _ ((dprec - 1 + k) + dexp d)); lia|].
    rewrite p10_add, <- (p10_Z (dprec - 1 + k)) by (unfold dprec; lia). by apply Qmult_p10_le.
Qed.

(** The relative error of a rounded product or sum. *)
Lemma dmul_error a b :
  (Qabs (dval (dmul a b) - dval a * dval b) <= half_ulp * Qabs (dval a * dval b))%Q.
Proof. rewrite <- dval_dmul_exact. apply dfix_error. Qed.

Lemma dadd_error a b :
  (Qabs (dval (dadd a b) - (dval a + dval b)) <= half_ulp * Qabs (dval a + dval b))%Q.
Proof. rewrite <- dval_dadd_exact. apply dfix_error. Qed.

(** ** Division *)
Lemma strip_zeros_spec f : forall c e ideal,
  let '(c', e') := strip_zeros f c e ideal in
  (dval (Dec c' e') == dval (Dec c e))%Q ∧ (Z.sgn c' = Z.sgn c).
Proof.
  induction f as [|f IH]; intros c e ideal; simpl; [by split|].
  destruct ((e <? ideal) && (c mod 10 =? 0)) eqn:E; [|by split].
  apply andb_true_iff in E as [_ E%Z.eqb_eq].
  assert (Hc : c = c / 10 * 10) by (pose proof (Z.div_mod c 10 ltac:(lia)); lia).
  specialize (IH (c / 10) (e + 1) ideal).
  destruct (strip_zeros f (c / 10) (e + 1) ideal) as [c' e'].
  destruct IH as [IH1 IH2]. split.
  - rewrite IH1. unfold dval. simpl. fold (p10 (e + 1)) (p10 e).
    revert Hc. generalize (c / 10). intros c0 ->. rewrite p10_add, inject_Z_mult.
    change (p10 1) with (10 # 1)%Q. change (inject_Z 10) with (10 # 1)%Q. ring.
  - rewrite IH2. revert Hc. generalize (c / 10). intros c0 ->. rewrite Z.sgn_mul. simpl. lia.
Qed.

Lemma ddiv_ok a b : dcoef b ≠ 0 → exists q, ddiv a b = Ok q.
Proof.
  intros Hb%Z.eqb_neq. unfold ddiv. rewrite Hb. repeat case_match; eauto.
Qed.

(** The scaled operands of a division: their quotient has at least 29 digits. *)
Lemma div_scaling ca cb :
  0 < ca → 0 < cb →
  let shift := ndigits cb - ndigits ca + dprec + 1 in
  let num := if 0 <=? shift then ca * 10 ^ shift else ca in
  let den := if 0 <=? shift then cb else cb * 10 ^ (- shift) in
  0 < den ∧ 10 ^ dprec * den <= num ∧
  exists m, (inject_Z num * p10 m == inject_Z ca)%Q ∧
            (inject_Z den * p10 m == inject_Z cb * p10 (- shift))%Q.
Proof.
  intros Ha Hb shift. pose proof (ndigits_spec ca Ha) as [Ha1 Ha2].
  pose proof (ndigits_spec cb Hb) as [Hb1 Hb2].
  pose proof (ndigits_pos ca ltac:(lia)). pose proof (ndigits_pos cb ltac:(lia)).
  destruct (Z.leb_spec 0 shift) as [Hs|Hs]; simpl.
  - split_and!; [lia| |exists (- shift)].
    + transitivity (10 ^ (ndigits ca - 1) * 10 ^ shift); [|nia].
      rewrite <- Z.pow_add_r by lia.
      replace (ndigits ca - 1 + shift) with (dprec + ndigits cb) by (unfold shift; lia).
      rewrite Z.pow_add_r by (unfold dprec; lia). nia.
    + split; [|done]. rewrite inject_Z_mult, p10_Z, <- Qmult_assoc, <- p10_add by done.
      replace (shift + - shift) with 0 by lia. change (p10 0) with 1%Q. ring.
  - assert (0 < 10 ^ (- shift)) by (apply Z.pow_pos_nonneg; lia).
    split_and!; [nia| |exists 0].
    + transitivity (10 ^ (ndigits ca - 1)); [|lia].
      replace (ndigits ca - 1) with (dprec + (ndigits cb + - shift)) by (unfold shift; lia).
      rewrite !Z.pow_add_r by (unfold dprec; lia). nia.
    + change (p10 0) with 1%Q. rewrite inject_Z_mult, p10_Z by lia. split; ring.
Qed.

(** The error of a coefficient [c] near the scaled quotient [num / den]. *)
Lemma div_coef_error a b c num den m shift :
  dcoef a ≠ 0 → dcoef b ≠ 0 →
  (inject_Z num * p10 m == inject_Z (Z.abs (dcoef a)))%Q →
  (inject_Z den * p10 m == inject_Z (Z.abs (dcoef b)) * p10 (- shift))%Q →
  0 < den → 10 ^ dprec * den <= num → Z.abs (c * den - num) <= den →
  (Qabs (dval (Dec (Z.sgn (dcoef a) * Z.sgn (dcoef b) * c) (dexp a - dexp b - shift)) * dval b
         - dval a) <= p10 (- dprec) * Qabs (dval a))%Q.
Proof.
  intros Ha Hb Hnum Hcb Hden Hbig Hc. unfold dval. cbn [dcoef dexp].
  fold (p10 (dexp a - dexp b - shift)) (p10 (dexp a)) (p10 (dexp b)).
  assert (Hpow : (p10 (dexp a - dexp b - shift) * p10 (dexp b) == p10 (dexp a) * p10 (- shift))%Q).
  { rewrite <- !p10_add. by replace (dexp a - dexp b - shift + dexp b) with (dexp a + - shift) by lia. }
  set (sa := Z.sgn (dcoef a)) in *. set (sb := Z.sgn (dcoef b)) in *.
  assert (Hsb : (inject_Z sb * inject_Z sb == 1)%Q).
  { rewrite <- inject_Z_mult. by replace (sb * sb) with 1 by (subst sb; lia). }
  assert (Ea : dcoef a = Z.abs (dcoef a) * sa) by (symmetry; apply Z.abs_sgn).
  assert (Eb : dcoef b = Z.abs (dcoef b) * sb) by (symmetry; apply Z.abs_sgn).
  set (ca := Z.abs (dcoef a)) in *. set (cb := Z.abs (dcoef b)) in *.
  rewrite Ea, Eb, !inject_Z_mult.
  pose proof (p10_pos (dexp a)) as Hpa. pose proof (p10_pos m) as Hpm.
  assert (E : (inject_Z sa * inject_Z sb * inject_Z c * p10 (dexp a - dexp b - shift)
        * (inject_Z cb * inject_Z sb * p10 (dexp b)) - inject_Z ca * inject_Z sa * p10 (dexp a)
      == inject_Z sa * inject_Z (c * den - num) * (p10 m * p10 (dexp a)))%Q).
  { unfold Zminus. rewrite inject_Z_plus, inject_Z_opp, inject_Z_mult.
    transitivity (inject_Z sa * (inject_Z sb * inject_Z sb) * inject_Z c
      * (p10 (dexp a - dexp b - shift) * p10 (dexp b)) * inject_Z cb
      - inject_Z ca * inject_Z sa * p10 (dexp a))%Q; [unfold Zminus; ring|].
    rewrite Hsb, Hpow.
    transitivity (inject_Z sa * p10 (dexp a)
      * (inject_Z c * (inject_Z cb * p10 (- shift)) - inject_Z ca))%Q; [ring|].
    rewrite <- Hcb, <- Hnum. ring. }
  rewrite E, !Qabs_Qmult, !(Qabs_pos (p10 _)) by lra.
  assert (Hsa : (Qabs (inject_Z sa) == 1)%Q).
  { change (Qabs (inject_Z sa)) with (inject_Z (Z.abs sa)).
    by replace (Z.abs sa) with 1 by (subst sa; lia). }
  rewrite Hsa. change (Qabs (inject_Z ?x)) with (inject_Z (Z.abs x)).
  assert (H1 : (inject_Z (Z.abs (c * den - num)) <= inject_Z den)%Q) by (by rewrite <- Zle_Qle).
  assert (H2 : (inject_Z (10 ^ dprec * den) <= inject_Z num)%Q) by (by rewrite <- Zle_Qle).
  rewrite inject_Z_mult, p10_Z in H2 by (unfold dprec; lia).
  replace (Z.abs ca) with ca by (subst ca; lia). rewrite <- Hnum.
  assert (H3 : (p10 (- dprec) * p10 dprec == 1)%Q).
  { rewrite <- p10_add. by replace (- dprec + dprec) with 0 by lia. }
  pose proof (p10_pos (- dprec)) as H4.
  assert (H5 : (inject_Z den <= p10 (- dprec) * inject_Z num)%Q).
  { assert (H6 : (p10 (- dprec) * (p10 dprec * inject_Z den) <= p10 (- dprec) * inject_Z num)%Q).
    { rewrite !(Qmult_comm (p10 (- dprec))). apply Qmult_le_compat_r; lra. }
    rewrite Qmult_assoc, H3 in H6. lra. }
  assert (H7 : (0 <= p10 m * p10 (dexp a))%Q) by (apply Qmult_le_0_compat; lra).
  assert (H8 : (inject_Z (Z.abs (c * den - num)) <= p10 (- dprec) * inject_Z num)%Q) by lra.
  pose proof (Qmult_le_compat_r _ _ _ H8 H7). lra.
Qed.

(** What is rounded at the end of a division is within one unit of the 29th digit of the exact
    quotient, and has its sign. *)
Lemma ddiv_pre a b : dcoef b ≠ 0 → exists v,
  ddiv a b = Ok (dfix v) ∧ Z.sgn (dcoef v) = Z.sgn (dcoef a) * Z.sgn (dcoef b) ∧
  (Qabs (dval v * dval b - dval a) <= p10 (- dprec) * Qabs (dval a))%Q.
Proof.
  intros Hb. unfold ddiv. rewrite (proj2 (Z.eqb_neq _ _) Hb).
  destruct (Z.eqb_spec (dcoef a) 0) as [Ha|Ha].
  - eexists. split; [done|]. rewrite Ha. split; [done|].
    assert (E : (dval a == 0)%Q) by (unfold dval; rewrite Ha; ring).
    assert (E' : (dval (Dec 0 (dexp a - dexp b)) == 0)%Q) by (unfold dval; cbn [dcoef]; ring).
    rewrite E, E'. setoid_replace (0 * dval b - 0)%Q with 0%Q using relation Qeq by ring.
    rewrite Qmult_0_r. apply Qle_refl.
  - pose proof (div_scaling (Z.abs (dcoef a)) (Z.abs (dcoef b)) ltac:(lia) ltac:(lia)) as Hdiv.
    cbv zeta in Hdiv |- *. set (shift := _ + dprec + 1) in *.
    set (num := if 0 <=? shift then Z.abs (dcoef a) * 10 ^ shift else _) in *.
    set (den := if 0 <=? shift then Z.abs (dcoef b) else _) in *.
    destruct Hdiv as (Hden & Hbig & m & Hnum & Hcb). set (q := num / den) in *.
    assert (Hq : 10 ^ dprec <= q) by (apply Z.div_le_lower_bound; lia).
    assert (Hp : 0 < 10 ^ dprec) by (apply Z.pow_pos_nonneg; unfold dprec; lia).
    pose proof (Z.div_mod num den ltac:(lia)) as Hdm.
    pose proof (Z.mod_pos_bound num den Hden) as Hmod.
    pose proof (fun c => div_coef_error a b c num den m shift Ha Hb Hnum Hcb Hden Hbig) as Herr.
    fold q in Hdm. clearbody q. destruct (Z.eqb_spec (num mod den) 0) as [E|E]; cbn [negb].
    + pose proof (strip_zeros_spec
        (Z.to_nat (dexp a - dexp b - (dexp a - dexp b - shift))) q (dexp a - dexp b - shift)
        (dexp a - dexp b)) as Hs.
      destruct (strip_zeros _ _ _ _) as [c e']. destruct Hs as [Hs1 Hs2].
      eexists. split; [done|]. split; [cbn [dcoef]; rewrite !Z.sgn_mul, !Z.sgn_sgn; lia|].
      assert (Ev : (dval (Dec (Z.sgn (dcoef a) * Z.sgn (dcoef b) * c) e')
        == dval (Dec (Z.sgn (dcoef a) * Z.sgn (dcoef b) * q) (dexp a - dexp b - shift)))%Q).
      { revert Hs1. unfold dval. cbn [dcoef dexp]. rewrite !inject_Z_mult. intros Hs1.
        rewrite <- !Qmult_assoc, Hs1. reflexivity. }
      rewrite Ev. apply Herr. rewrite Z.abs_le. nia.
    + assert (Hc : exists c, (if q mod 5 =? 0 then q + 1 else q) = c ∧ 0 < c
                             ∧ Z.abs (c * den - num) <= den).
      { destruct (_ =? _); eexists; split_and!; [done|lia|rewrite Z.abs_le; nia|done|lia|rewrite Z.abs_le; nia]. }
      destruct Hc as (c & -> & Hc & Hc'). eexists. split; [done|].
      split; [cbn [dcoef]; rewrite !Z.sgn_mul, !Z.sgn_sgn; lia|]. by apply Herr.
Qed.

Lemma ddiv_sgn a b q :
  ddiv a b = Ok q → Z.sgn (dcoef q) = Z.sgn (dcoef a) * Z.sgn (dcoef b).
Proof.
  intros H. destruct (decide (dcoef b = 0)) as [E|E].
  { unfold ddiv in H. rewrite E in H. simpl in H. by case_match. }
  destruct (ddiv_pre a b E) as (v & H' & Hs & _). rewrite H in H'. injection H' as ->.
  by rewrite dfix_sgn.
Qed.

Lemma ddiv_pos a b q : 0 < dcoef a → 0 < dcoef b → ddiv a b = Ok q → 0 < dcoef q.
Proof. intros Ha Hb H%ddiv_sgn. lia. Qed.
Lemma ddiv_nonneg a b q : 0 <= dcoef a → 0 < dcoef b → ddiv a b = Ok q → 0 <= dcoef q.
Proof. intros Ha Hb H%ddiv_sgn. lia. Qed.

(** The relative error of a division: one unit of the 28th digit. *)
Definition div_ulp : Q := p10 (1 - dprec).

Lemma ddiv_error a b q : ddiv a b = Ok q →
  (Qabs (dval q * dval b - dval a) <= div_ulp * Qabs (dval a))%Q.
Proof.
  intros H. destruct (decide (dcoef b = 0)) as [E|E].
  { unfold ddiv in H. rewrite E in H. simpl in H. by case_match. }
  destruct (ddiv_pre a b E) as (v & H' & _ & Hv). rewrite H in H'. injection H' as ->.
  pose proof (dfix_error v) as Hf.
  assert (E1 : (dval (dfix v) * dval b - dval a
    == (dval (dfix v) - dval v) * dval b + (dval v * dval b - dval a))%Q) by ring.
  rewrite E1. eapply Qle_trans; [apply Qabs_triangle|]. rewrite Qabs_Qmult.
  assert (H1 : (Qabs (dval (dfix v) - dval v) * Qabs (dval b)
                <= half_ulp * (Qabs (dval v * dval b)))%Q).
  { rewrite Qabs_Qmult, Qmult_assoc. apply Qmult_le_compat_r; [done|apply Qabs_nonneg]. }
  assert (H2 : (Qabs (dval v * dval b) <= Qabs (dval v * dval b - dval a) + Qabs (dval a))%Q).
  { setoid_replace (dval v * dval b)%Q with ((dval v * dval b - dval a) + dval a)%Q
      using relation Qeq at 1 by ring. apply Qabs_triangle. }
  assert (H3 : (0 <= half_ulp)%Q) by (by vm_compute).
  pose proof (Qabs_nonneg (dval a)) as H4.
  set (x := Qabs (dval v * dval b - dval a)) in *. set (y := Qabs (dval a)) in *.
  assert (H5 : (half_ulp * Qabs (dval v * dval b) <= half_ulp * (p10 (- dprec) * y + y))%Q).
  { rewrite !(Qmult_comm half_ulp). apply Qmult_le_compat_r; lra. }
  assert (H6 : (half_ulp * (p10 (- dprec) + 1) + p10 (- dprec) <= div_ulp)%Q) by (by vm_compute).
  pose proof (Qmult_le_compat_r _ _ y H6 H4). lra.
Qed.

(** ** Truncation, minimum and maximum *)
Lemma dtrunc_bounds d : 0 <= dcoef d →
  (inject_Z (dtrunc d) <= dval d)%Q ∧ (dval d < inject_Z (dtrunc d + 1))%Q.
Proof.
  intros Hd. unfold dtrunc, dval. fold (p10 (dexp d)). pose proof (p10_pos (dexp d)) as Hp.
  destruct (Z.leb_spec 0 (dexp d)) as [He|He].
  - rewrite inject_Z_plus, inject_Z_mult, p10_Z by done. change (inject_Z 1) with 1%Q. lra.
  - rewrite Z.abs_eq by done. set (p := 10 ^ (- dexp d)).
    assert (Hpp : 0 < p) by (apply Z.pow_pos_nonneg; lia).
    assert (E : Z.sgn (dcoef d) * (dcoef d / p) = dcoef d / p).
    { destruct (decide (dcoef d = 0)) as [->|]; [by rewrite Z.div_0_l by lia|].
      rewrite Z.sgn_pos by lia. lia. }
    rewrite E. pose proof (Z.div_mod (dcoef d) p ltac:(lia)).
    pose proof (Z.mod_pos_bound (dcoef d) p Hpp).
    assert (H1 : (p10 (- dexp d) * p10 (dexp d) == 1)%Q).
    { rewrite <- p10_add. by replace (- dexp d + dexp d) with 0 by lia. }
    assert (E2 : forall x, (inject_Z x == inject_Z (x * p) * p10 (dexp d))%Q).
    { intros x. rewrite inject_Z_mult. unfold p. rewrite p10_Z, <- Qmult_assoc, H1 by lia. ring. }
    rewrite (E2 (dcoef d / p)), (E2 (dcoef d / p + 1)).
    split; [apply Qmult_p10_le; lia | apply Qmult_p10_lt; lia].
Qed.

(** A whole value is not changed. *)
Lemma dtrunc_whole d n : (dval d == inject_Z n)%Q → dtrunc d = n.
Proof.
  unfold dtrunc, dval. fold (p10 (dexp d)). intros E.
  destruct (Z.leb_spec 0 (dexp d)) as [He|He].
  { rewrite <- p10_Z, <- inject_Z_mult in E by done. exact (proj1 (inject_Z_injective _ _) E). }
  set (p := 10 ^ (- dexp d)). assert (Hpp : 0 < p) by (apply Z.pow_pos_nonneg; lia).
  assert (H1 : (p10 (- dexp d) * p10 (dexp d) == 1)%Q).
  { rewrite <- p10_add. by replace (- dexp d + dexp d) with 0 by lia. }
  assert (E2 : (inject_Z (dcoef d) * p10 (dexp d) == inject_Z (n * p) * p10 (dexp d))%Q).
  { rewrite E, inject_Z_mult. unfold p. rewrite p10_Z, <- Qmult_assoc, H1 by lia. ring. }
  assert (Ec : dcoef d = n * p).
  { apply Z.le_antisymm; apply (Qmult_p10_le _ _ (dexp d)); rewrite E2; apply Qle_refl. }
  rewrite Ec, Z.sgn_mul, Z.abs_mul, (Z.sgn_pos p), (Z.abs_eq p), Z.div_mul, Z.mul_1_r by lia.
  destruct n; simpl; lia.
Qed.

Lemma dtrunc_nonneg d : 0 <= dcoef d → 0 <= dtrunc d.
Proof.
  intros Hd. unfold dtrunc. case_match; [apply Z.mul_nonneg_nonneg; [done|apply Z.pow_nonneg; lia]|].
  apply Z.mul_nonneg_nonneg; [lia|]. apply Z.div_pos; [lia|].
  apply Z.pow_pos_nonneg; lia.
Qed.

Lemma dval_dmax a b : (dval a <= dval (dmax a b) ∧ dval b <= dval (dmax a b))%Q.
Proof.
  unfold dmax. destruct (dltb a b) eqn:E; [apply dltb_spec in E|apply dltb_false in E]; split; lra.
Qed.
Lemma dval_dmin a b : (dval (dmin a b) <= dval a ∧ dval (dmin a b) <= dval b)%Q.
Proof.
  unfold dmin. destruct (dltb b a) eqn:E; [apply dltb_spec in E|apply dltb_false in E]; split; lra.
Qed.
Lemma dmax_cases a b : dmax a b = a ∨ dmax a b = b.
Proof. unfold dmax. destruct (dltb a b); auto. Qed.

(** [d <= 0] and [d < 0] of the source, on coefficients. *)
Lemma dltb_0_l d : dltb d0 d = (0 <? dcoef d).
Proof.
  apply eq_true_iff_eq. rewrite dltb_spec, Z.ltb_lt.
  assert (E : (dval d0 == 0)%Q) by reflexivity. by rewrite E, dval_pos.
Qed.
Lemma dleb_0_r d : dleb d d0 = (dcoef d <=? 0).
Proof.
  apply eq_true_iff_eq. rewrite dleb_spec, Z.leb_le.
  assert (E : (dval d0 == 0)%Q) by reflexivity. rewrite E.
  split; intros H; [apply Z.nlt_ge; intros H'%dval_pos; lra|].
  apply Qnot_lt_le. intros H'%dval_pos. lia.
Qed.
Lemma dltb_0_r d : dltb d d0 = (dcoef d <? 0).
Proof.
  apply eq_true_iff_eq. rewrite dltb_spec, Z.ltb_lt.
  assert (E : (dval d0 == 0)%Q) by reflexivity. by rewrite E, dval_neg.
Qed.
Lemma dleb_0_l d : dleb d0 d = (0 <=? dcoef d).
Proof.
  apply eq_true_iff_eq. rewrite dleb_spec, Z.leb_le.
  assert (E : (dval d0 == 0)%Q) by reflexivity. by rewrite E, dval_nonneg.
Qed.

(** ** Exact totals *)
Definition qsum (l : list decimal) : Q := foldr (fun d q => (dval d + q)%Q) 0%Q l.

Lemma qsum_app l1 l2 : (qsum (l1 ++ l2) == qsum l1 + qsum l2)%Q.
Proof. induction l1 as [|d l1 IH]; simpl; [ring|]. rewrite IH. ring. Qed.

Lemma dval_d0 : (dval d0 == 0)%Q.
Proof. reflexivity. Qed.

Lemma qsum_dset {K} `{EqDecision K} (k : K) v (d : dict K decimal) :
  (qsum (dvalues (dset k v d)) == qsum (dvalues d) - dval (dget_or k d0 d) + dval v)%Q.
Proof.
  induction d as [|[k' v'] d IH]; simpl; [unfold dget_or; simpl; rewrite dval_d0; ring|].
  unfold dget_or in *. simpl. case_decide; simpl; [ring|]. rewrite IH. ring.
Qed.

Lemma qsum_dpop {K} `{EqDecision K} (k : K) (d : dict K decimal) :
  List.NoDup (dkeys d) → (qsum (dvalues (dpop k d)) == qsum (dvalues d) - dval (dget_or k d0 d))%Q.
Proof.
  unfold dget_or. induction d as [|[k' v'] d IH]; simpl; [intros _; rewrite dval_d0; ring|].
  intros [Hni Hnd]%List.NoDup_cons_iff. case_decide as Hk; simpl.
  - subst k'. rewrite dpop_none by (by apply dget_None). ring.
  - rewrite IH by done. ring.
Qed.

Create HintDb dec.
#[export] Hint Resolve dadd_nonneg dadd_pos dmul_pos dmul_nonneg : dec.
#[export] Hint Rewrite dltb_0_l dleb_0_r dltb_0_r dleb_0_l : dec.

(** ** Powers and roots *)

(** Rounding to a precision of one's own: [dfix] is [dround 28]. *)
Definition dround (prec : Z) (d : decimal) : decimal :=
  let n := Z.abs (dcoef d) in
  let nd := ndigits n in
  if nd <=? prec then d
  else
    let k := nd - prec in
    let q := round_half_even n k in
    let s := Z.sgn (dcoef d) in
    if q =? 10 ^ prec then Dec (s * 10 ^ (prec - 1)) (dexp d + k + 1)
    else Dec (s * q) (dexp d + k).

(** [d ** 2]: the C implementation multiplies with three guard digits and rounds again. *)
Definition dsquare (d : decimal) : decimal :=
  if dcoef d =? 0 then d0 else dfix (dround (dprec + 3) (dmul_exact d d)).

(** [d.sqrt()]: 29 digits of the root, a sticky last digit when it is inexact, rounded; an exact
    root has half the exponent. *)
Definition dsqrt (d : decimal) : result decimal :=
  if dcoef d =? 0 then Ok (dfix (Dec 0 (dexp d / 2)))
  else if dcoef d <? 0 then Err InvalidOperation
  else
    let prec := dprec + 1 in
    let e := dexp d / 2 in
    let c := if Z.odd (dexp d) then dcoef d * 10 else dcoef d in
    let l := if Z.odd (dexp d) then ndigits (dcoef d) / 2 + 1 else (ndigits (dcoef d) + 1) / 2 in
    let shift := prec - l in
    let c' := if 0 <=? shift then c * 100 ^ shift else c / 100 ^ (- shift) in
    let n := Z.sqrt c' in
    let exact := (if 0 <=? shift then true else c mod 100 ^ (- shift) =? 0) && (n * n =? c') in
    if exact
    then Ok (dfix (Dec (if 0 <=? shift then n / 10 ^ shift else n * 10 ^ (- shift)) e))
    else Ok (dfix (Dec (if n mod 5 =? 0 then n + 1 else n) (e - shift))).

Example dsqrt_2 : dsqrt (Dec 2 0) = Ok (Dec 1414213562373095048801688724 (-27)).
Proof. reflexivity. Qed.
Example dsqrt_exact : dsqrt (Dec 625 (-4)) = Ok (Dec 25 (-2)).
Proof. reflexivity. Qed.
Example dsquare_exact : dsquare (Dec (-15) (-1)) = Dec 225 (-2).
Proof. reflexivity. Qed.

Lemma dround_pos p d : 1 <= p → 0 < dcoef d → 0 < dcoef (dround p d).
Proof.
  intros Hp Hd. unfold dround. destruct (Z.leb_spec (ndigits (Z.abs (dcoef d))) p) as [|Hn]; [done|].
  rewrite Z.sgn_pos, Z.abs_eq in * by lia. destruct (_ =? _); cbn [dcoef].
  - assert (0 < 10 ^ (p - 1)) by (apply Z.pow_pos_nonneg; lia). lia.
  - pose proof (ndigits_spec (dcoef d) Hd) as [Hlo _].
    assert (1 <= round_half_even (dcoef d) (ndigits (dcoef d) - p)); [|lia].
    apply round_half_even_lower; [lia|]. rewrite Z.mul_1_l. etrans; [|exact Hlo].
    apply Z.pow_le_mono_r; lia.
Qed.

Lemma dsquare_nonneg d : 0 <= dcoef (dsquare d).
Proof.
  unfold dsquare. destruct (Z.eqb_spec (dcoef d) 0); [done|].
  apply Z.lt_le_incl, dfix_pos, dround_pos; [done|]. cbn [dmul_exact dcoef]. nia.
Qed.

(** The root of a positive decimal is a positive decimal. *)
Lemma dsqrt_pos d : 0 < dcoef d → exists r, dsqrt d = Ok r ∧ 0 < dcoef r.
Proof.
  intros Hd. unfold dsqrt. rewrite (proj2 (Z.eqb_neq _ 0)) by lia. rewrite (proj2 (Z.ltb_ge _ 0)) by lia.
  cbv zeta. set (c := if Z.odd _ then dcoef d * 10 else _). set (l := if Z.odd _ then _ else _).
  set (shift := dprec + 1 - l).
  assert (Hc : 0 < c) by (subst c; destruct (Z.odd _); lia).
  pose proof (ndigits_spec (dcoef d) Hd) as [Hlo Hhi].
  assert (Hl : 100 ^ (l - 1) <= c ∧ 1 <= l).
  { pose proof (ndigits_pos (dcoef d) ltac:(lia)) as Hnd.
    assert (Hl : (if Z.odd (dexp d) then ndigits (dcoef d) / 2 + 1 else (ndigits (dcoef d) + 1) / 2) = l)
      by done.
    clearbody l. revert Hl. generalize dependent (ndigits (dcoef d)). intros n Hlo Hhi Hnd Hl.
    assert (1 <= l) by (rewrite <- Hl; destruct (Z.odd _); Z.to_euclidean_division_equations; lia).
    replace (100 ^ (l - 1)) with (10 ^ (2 * (l - 1)))
      by (rewrite Z.pow_mul_r by lia; reflexivity).
    subst c. destruct (Z.odd (dexp d)); (split; [|lia]).
    - etrans; [apply (Z.pow_le_mono_r 10 _ n); Z.to_euclidean_division_equations; lia|].
      replace n with (Z.succ (n - 1)) at 1 by lia. rewrite Z.pow_succ_r by lia. lia.
    - etrans; [apply (Z.pow_le_mono_r 10 _ (n - 1)); Z.to_euclidean_division_equations; lia|]. lia. }
  destruct Hl as [Hl Hl1].
  set (c' := if 0 <=? shift then c * 100 ^ shift else _).
  assert (Hc' : 1 <= c').
  { subst c'. destruct (Z.leb_spec 0 shift).
    - assert (0 < 100 ^ shift) by (apply Z.pow_pos_nonneg; lia). nia.
    - apply Z.div_le_lower_bound; [apply Z.pow_pos_nonneg; lia|]. rewrite Z.mul_1_r. etrans; [|exact Hl].
      apply Z.pow_le_mono_r; unfold shift, dprec in *; lia. }
  pose proof (Z.sqrt_le_mono 1 c' Hc') as Hn. change (Z.sqrt 1) with 1 in Hn.
  pose proof (Z.sqrt_spec c' ltac:(lia)) as Hsq. set (n := Z.sqrt c') in *.
  match goal with |- context [if ?b then _ else _] => match b with (_ && (n * n =? c'))%bool => destruct b eqn:E end end;
    eexists; (split; [reflexivity|]); apply dfix_pos; cbn [dcoef].
  - apply andb_true_iff in E as [_ E%Z.eqb_eq]. subst c'.
    destruct (Z.leb_spec 0 shift); [|assert (0 < 10 ^ (- shift)) by (apply Z.pow_pos_nonneg; lia); nia].
    assert (Hp : 0 < 10 ^ shift) by (apply Z.pow_pos_nonneg; lia).
    apply Z.div_str_pos. split; [done|].
    assert (H100 : 100 ^ shift = 10 ^ shift * 10 ^ shift) by (rewrite <- Z.pow_mul_l; done).
    rewrite H100 in E. nia.
  - clear - Hn. clearbody n. destruct (n mod 5 =? 0); lia.
Qed.
