(* ===== verification/PyText.v ===== *)
(** * Text, numbers as text, and [hashlib.sha256]

    Strings are ASCII byte strings; [str.encode()] is then the identity.  The hash is the real
    SHA-256 of the standard library, so that the provenance hashes of the program evaluate. *)

From Stdlib Require Import DecimalString DecimalFacts DecimalZ DecimalN DecimalPos.
From S2P Require Import Prelude PyDecimal.

#[local] Open Scope Z_scope.

(** ** [str(int)] and zero padding *)
Definition str_int (n : Z) : string := NilZero.string_of_int (Z.to_int n).

Fixpoint str_repeat (c : ascii) (n : nat) : string :=
  match n with O => "" | S n => String c (str_repeat c n) end.

(** [f"{n:0wd}"] for [n >= 0]. *)
Definition str_pad (w : nat) (n : Z) : string :=
  let s := str_int n in String.append (str_repeat "0" (w - String.length s)) s.

Fixpoint str_join (sep : string) (l : list string) : string :=
  match l with
  | [] => ""
  | [x] => x
  | x :: xs => String.append x (String.append sep (str_join sep xs))
  end.

Definition str_concat (l : list string) : string := str_join "" l.

(** [s.upper()] and [s.isdigit()] on ASCII text. *)
Definition ascii_upper (c : ascii) : ascii :=
  let n := N_of_ascii c in
  if ((97 <=? n) && (n <=? 122))%N then ascii_of_N (n - 32) else c.
Fixpoint str_upper (s : string) : string :=
  match s with EmptyString => EmptyString | String c s => String (ascii_upper c) (str_upper s) end.
(** [s.lower()] *)
Definition ascii_lower (c : ascii) : ascii :=
  let n := N_of_ascii c in
  if ((65 <=? n) && (n <=? 90))%N then ascii_of_N (n + 32) else c.
Fixpoint str_lower (s : string) : string :=
  match s with EmptyString => EmptyString | String c s => String (ascii_lower c) (str_lower s) end.
Definition ascii_isdigit (c : ascii) : bool :=
  let n := N_of_ascii c in ((48 <=? n) && (n <=? 57))%N.
Fixpoint str_all (p : ascii -> bool) (s : string) : bool :=
  match s with EmptyString => true | String c s => p c && str_all p s end.
Definition str_isdigit (s : string) : bool :=
  match s with EmptyString => false | _ => str_all ascii_isdigit s end.

Definition ascii_isspace (c : ascii) : bool :=
  let n := N_of_ascii c in ((n =? 32) || ((9 <=? n) && (n <=? 13)) || ((28 <=? n) && (n <=? 31)))%N.
Fixpoint str_lstrip (s : string) : string :=
  match s with
  | EmptyString => EmptyString
  | String c s' => if ascii_isspace c then str_lstrip s' else s
  end.
Fixpoint str_rstrip (s : string) : string :=
  match s with
  | EmptyString => EmptyString
  | String c s' => match str_rstrip s' with
                   | EmptyString => if ascii_isspace c then EmptyString else String c EmptyString
                   | t => String c t
                   end
  end.
Definition str_strip (s : string) : string := str_rstrip (str_lstrip s).

(** [s.split()]: the words between runs of white space. *)
Fixpoint str_split (s : string) : list string :=
  match s with
  | EmptyString => []
  | String c s' =>
      if ascii_isspace c then str_split s'
      else match s' with
           | EmptyString => [String c EmptyString]
           | String d _ => if ascii_isspace d then String c EmptyString :: str_split s'
                           else match str_split s' with w :: ws => String c w :: ws | [] => [] end
           end
  end.

(** [s.replace(c, )]: every [c] is removed. *)
Fixpoint str_remove (c : ascii) (s : string) : string :=
  match s with
  | EmptyString => EmptyString
  | String d s => if Ascii.eqb d c then str_remove c s else String d (str_remove c s)
  end.

(** [sub in s] *)
Definition str_contains (sub s : string) : bool :=
  match String.index 0 sub s with Some _ => true | None => false end.

(** [s.splitlines()] on text of one byte per character. *)
Definition line_break (c : ascii) : bool :=
  let n := N_of_ascii c in
  ((10 <=? n) && (n <=? 13) || (28 <=? n) && (n <=? 30) || (n =? 133))%N.
Fixpoint splitlines (s : string) : list string :=
  match s with
  | EmptyString => []
  | String c s' =>
      if line_break c then
        EmptyString :: match s' with
                       | String c' s'' => if Ascii.eqb c "013" && Ascii.eqb c' "010"
                                          then splitlines s'' else splitlines s'
                       | EmptyString => []
                       end
      else match splitlines s' with
           | [] => [String c EmptyString]
           | l :: ls => String c l :: ls
           end
  end.

(** [s[:-n]] and [s[-n:]] for [0 < n <= len(s)]. *)
Definition str_drop_last (n : nat) (s : string) : string :=
  String.substring 0 (String.length s - n) s.
Definition str_take_last (n : nat) (s : string) : string :=
  String.substring (String.length s - n) n s.

(** ** [str(Decimal)] *)
Definition str_decimal (d : decimal) : string :=
  let digits := str_int (Z.abs (dcoef d)) in
  let n := Z.of_nat (String.length digits) in
  let leftdigits := dexp d + n in
  let dotplace := if (dexp d <=? 0) && (-6 <? leftdigits) then leftdigits else 1 in
  let '(intpart, fracpart) :=
    if dotplace <=? 0
    then ("0"%string, String.append "." (String.append (str_repeat "0" (Z.to_nat (- dotplace))) digits))
    else if n <=? dotplace
    then (String.append digits (str_repeat "0" (Z.to_nat (dotplace - n))), ""%string)
    else (String.substring 0 (Z.to_nat dotplace) digits,
          String.append "." (String.substring (Z.to_nat dotplace) (Z.to_nat (n - dotplace)) digits)) in
  let expo := if leftdigits =? dotplace then ""%string
              else let e := leftdigits - dotplace in
                   String.append (if 0 <=? e then "E+" else "E") (str_int e) in
  String.append (if dcoef d <? 0 then "-" else "") (String.append intpart (String.append fracpart expo)).

Definition str_opt {A} (f : A -> string) (o : option A) : string :=
  match o with Some a => f a | None => "None" end.

(** ** SHA-256 *)
Module Sha256.
Definition w32 (x : Z) : Z := Z.land x 0xffffffff.
Definition rotr (x n : Z) : Z := Z.lor (Z.shiftr x n) (w32 (Z.shiftl x (32 - n))).
Definition ch (x y z : Z) : Z := Z.lxor (Z.land x y) (Z.land (Z.lxor x 0xffffffff) z).
Definition maj (x y z : Z) : Z := Z.lxor (Z.land x y) (Z.lxor (Z.land x z) (Z.land y z)).
Definition bsig0 x := Z.lxor (rotr x 2) (Z.lxor (rotr x 13) (rotr x 22)).
Definition bsig1 x := Z.lxor (rotr x 6) (Z.lxor (rotr x 11) (rotr x 25)).
Definition ssig0 x := Z.lxor (rotr x 7) (Z.lxor (rotr x 18) (Z.shiftr x 3)).
Definition ssig1 x := Z.lxor (rotr x 17) (Z.lxor (rotr x 19) (Z.shiftr x 10)).

(** The standard's constants: the first 32 fractional bits of the cube roots of the first 64
primes, and of the square roots of the first 8, computed rather than listed. *)
Definition is_prime (n : nat) : bool :=
  (2 <=? n)%nat && forallb (fun d => negb (n mod d =? 0)%nat) (seq 2 (n - 2)).
Definition primes : list Z :=
  Eval vm_compute in map Z.of_nat (List.filter is_prime (seq 2 310)).

Fixpoint icbrt (fuel : nat) (n lo hi : Z) : Z :=
  match fuel with
  | O => lo
  | S f => let mid := (lo + hi) / 2 in
         if mid * mid * mid <=? n then icbrt f n mid hi else icbrt f n lo mid
  end.

Definition K : list Z :=
  Eval vm_compute in map (fun p => w32 (icbrt 40 (Z.shiftl p 96) 0 (2 ^ 36))) primes.
Definition H0 : list Z :=
  Eval vm_compute in map (fun p => w32 (Z.sqrt (Z.shiftl p 64))) (firstn 8 primes).

Record state := St { sa : Z; sb : Z; sc : Z; sd : Z; se : Z; sf : Z; sg : Z; sh : Z }.

Definition state_of (l : list Z) : state :=
  let h i := nth i l 0 in St (h 0%nat) (h 1%nat) (h 2%nat) (h 3%nat) (h 4%nat) (h 5%nat) (h 6%nat) (h 7%nat).
Definition init : state := Eval vm_compute in state_of H0.

(** One round; [window] holds the next sixteen words of the message schedule. *)
Fixpoint rounds (ks : list Z) (window : list Z) (s : state) : state :=
  match ks, window with
  | k :: ks', w :: ws =>
    let t1 := sh s + bsig1 (se s) + ch (se s) (sf s) (sg s) + k + w in
    let t2 := bsig0 (sa s) + maj (sa s) (sb s) (sc s) in
    let w16 := w32 (ssig1 (nth 13 ws 0) + nth 8 ws 0 + ssig0 (nth 0 ws 0) + w) in
    rounds ks' (ws ++ [w16])
      (St (w32 (t1 + t2)) (sa s) (sb s) (sc s) (w32 (sd s + t1)) (se s) (sf s) (sg s))
  | _, _ => s
  end.

Definition compress (s : state) (block : list Z) : state :=
  let r := rounds K block s in
  St (w32 (sa s + sa r)) (w32 (sb s + sb r)) (w32 (sc s + sc r)) (w32 (sd s + sd r))
   (w32 (se s + se r)) (w32 (sf s + sf r)) (w32 (sg s + sg r)) (w32 (sh s + sh r)).

Fixpoint bytes_of (s : string) : list Z :=
  match s with EmptyString => [] | String c s' => Z.of_N (N_of_ascii c) :: bytes_of s' end.

Definition be_bytes (n : nat) (x : Z) : list Z :=
  map (fun i => Z.land (Z.shiftr x (8 * Z.of_nat (n - 1 - i))) 255) (seq 0 n).

Definition pad (m : list Z) : list Z :=
  let len := Z.of_nat (length m) in
  m ++ [0x80] ++ repeat 0 (Z.to_nat ((55 - len) mod 64)) ++ be_bytes 8 (8 * len).

Fixpoint words (l : list Z) : list Z :=
  match l with
  | a :: b :: c :: d :: l' =>
    (Z.shiftl a 24 + Z.shiftl b 16 + Z.shiftl c 8 + d) :: words l'
  | _ => []
  end.

(** One block of sixteen words per step; [fuel] is the number of words. *)
Fixpoint blocks (fuel : nat) (ws : list Z) (s : state) : state :=
  match fuel, ws with
  | O, _ | _, [] => s
  | S f, _ => blocks f (skipn 16 ws) (compress s (firstn 16 ws))
  end.

Definition hex_digit (n : Z) : ascii :=
  ascii_of_N (Z.to_N (if n <? 10 then 48 + n else 87 + n)).
Definition hex32 (x : Z) : string :=
  fold_right (fun i acc => String (hex_digit (Z.land (Z.shiftr x (4 * i)) 15)) acc) ""%string
  [7; 6; 5; 4; 3; 2; 1; 0].

Definition hexdigest (s : string) : string :=
  let ws := words (pad (bytes_of s)) in
  let r := blocks (length ws) ws init in
  str_concat (map hex32 [sa r; sb r; sc r; sd r; se r; sf r; sg r; sh r]).
End Sha256.

Notation sha256_hex := Sha256.hexdigest.

Example sha256_abc :
  sha256_hex "abc" = "ba7816bf8f01cfea414140de5dae2223b00361a396177a9cb410ff61f20015ad"%string.
Proof. vm_compute. reflexivity. Qed.

(** ** Facts *)
Lemma sha256_hex_length s : String.length (sha256_hex s) = 64%nat.
Proof. unfold Sha256.hexdigest. by destruct (Sha256.blocks _ _ _). Qed.

Lemma string_length_append a b :
  String.length (String.append a b) = (String.length a + String.length b)%nat.
Proof. induction a as [|c a IH]; simpl; [done|]. by rewrite IH. Qed.

Lemma append_assoc a b c : String.append (String.append a b) c = String.append a (String.append b c).
Proof.
  induction a as [|x a IH]; [done|].
  change (String x (String.append (String.append a b) c) = String x (String.append a (String.append b c))).
  by rewrite IH.
Qed.

Lemma substring_append_l a b n : (n <= String.length a)%nat →
  String.substring 0 n (String.append a b) = String.substring 0 n a.
Proof.
  revert n. induction a as [|c a IH]; intros [|n] H; simpl in *; try done; [by destruct b|lia|].
  f_equal. apply IH. lia.
Qed.

Lemma substring_all a : String.substring 0 (String.length a) a = a.
Proof. induction a as [|c a IH]; simpl; [done|]. f_equal. exact IH. Qed.

Lemma substring_append_r a b i n :
  String.substring (String.length a + i) n (String.append a b) = String.substring i n b.
Proof. induction a as [|c a IH]; simpl; [done|]. exact IH. Qed.

Lemma string_append_inj_r p a b : String.append p a = String.append p b → a = b.
Proof. induction p as [|c p IH]; simpl; [done|]. intros [= H]. auto. Qed.

(** Reading a padded number back. *)
Definition digits_val (s : string) : option Z :=
  match NilEmpty.uint_of_string s with Some u => Some (Z.of_uint u) | None => None end.

Lemma digits_val_zero s : digits_val (String "0" s) = digits_val s.
Proof. unfold digits_val. simpl. by destruct (NilEmpty.uint_of_string s). Qed.

Lemma digits_val_zeros k s : digits_val (String.append (str_repeat "0" k) s) = digits_val s.
Proof. induction k as [|k IH]; [done|]. cbn. rewrite <- IH. apply digits_val_zero. Qed.

Lemma digits_val_str_int n : 0 <= n → digits_val (str_int n) = Some n.
Proof.
  intros Hn. unfold digits_val, str_int. pose proof (DecimalZ.of_to n) as Hof.
  destruct n as [|p|p]; [done| |lia].
  simpl in *. assert (Hne : Pos.to_uint p ≠ Decimal.Nil) by apply DecimalPos.Unsigned.to_uint_nonnil.
  assert (E : NilZero.string_of_uint (Pos.to_uint p) = NilEmpty.string_of_uint (Pos.to_uint p))
    by (by destruct (Pos.to_uint p)).
  rewrite E, NilEmpty.usu. f_equal. exact Hof.
Qed.

Lemma digits_val_str_pad w n : 0 <= n → digits_val (str_pad w n) = Some n.
Proof. intros. unfold str_pad. by rewrite digits_val_zeros, digits_val_str_int. Qed.

Lemma str_pad_inj w n m : 0 <= n → 0 <= m → str_pad w n = str_pad w m → n = m.
Proof.
  intros Hn Hm H. apply (f_equal digits_val) in H. rewrite !digits_val_str_pad in H by done.
  congruence.
Qed.
