(* ===== verification/PyPath.v ===== *)
(** * Paths and regular expressions

    What the code uses of [pathlib] and [re]: paths as lists of parts with their text and order, and a
    backtracking matcher for patterns without nested repetition. *)

From S2P Require Import Prelude PyDecimal PyText.

#[local] Open Scope Z_scope.

(** ** [pathlib] *)

(** A path is its parts; the first part of an absolute one is ["/"]. *)
Definition path : Type := list string.

(** [str(p)], which is [p.as_posix()]. *)
Definition path_str (p : path) : string :=
  match p with
  | [] => "."
  | root :: rest => if String.eqb root "/" then String.append "/" (str_join "/" rest) else str_join "/" p
  end%string.

(** [a <= b]: part by part. *)
Fixpoint path_leb (a b : path) : bool :=
  match a, b with
  | [], _ => true
  | _, [] => false
  | x :: a, y :: b => match String.compare x y with Lt => true | Eq => path_leb a b | Gt => false end
  end.

(** [p.relative_to(root)] *)
Fixpoint relative_to (p root : path) {struct root} : result path :=
  match root, p with
  | [], _ => Ok p
  | x :: root, y :: p => if String.eqb x y then relative_to p root else Err ValueError
  | _ :: _, [] => Err ValueError
  end.

Lemma relative_to_app root p : relative_to (root ++ p) root = Ok p.
Proof. induction root as [|x root IH]; [done|]. cbn. by rewrite String.eqb_refl. Qed.

Lemma relative_to_Ok root : forall p q, relative_to p root = Ok q ↔ p = root ++ q.
Proof.
  induction root as [|x root IH]; intros p q; cbn [relative_to app]; [split; [by intros [=]|congruence]|].
  destruct p as [|y p]; [done|]. destruct (String.eqb_spec x y) as [->|Hn]; [rewrite IH; split; congruence|]. split; [done|]. by intros [=].
Qed.

Lemma path_leb_total a : forall b, path_leb a b = true ∨ path_leb b a = true.
Proof.
  induction a as [|x a IH]; intros [|y b]; [by left..|by right|]. cbn. rewrite (String.compare_antisym y x).
  destruct (String.compare x y); cbn; auto.
Qed.

Lemma path_leb_trans a : forall b c, path_leb a b = true → path_leb b c = true → path_leb a c = true.
Proof.
  induction a as [|x a IH]; intros [|y b] [|z c]; try done. cbn.
  destruct (String.compare x y) eqn:E1; [apply String.compare_eq_iff in E1 as ->| |done].
  - destruct (String.compare y z); [|done..]. apply IH.
  - intros _. destruct (String.compare y z) eqn:E2; [apply String.compare_eq_iff in E2 as ->; by rewrite E1| |done].
    by rewrite (string_compare_trans_lt _ _ _ E1 E2).
Qed.

(** ** [re] *)
Definition is_word (c : ascii) : bool :=
  let n := N_of_ascii c in
  ((48 <=? n) && (n <=? 57) || (65 <=? n) && (n <=? 90) || (97 <=? n) && (n <=? 122) || (n =? 95))%N.
Definition word_opt (c : option ascii) : bool := match c with Some c => is_word c | None => false end.
Definition str_head (s : string) : option ascii := match s with String c _ => Some c | EmptyString => None end.

(** [\b] between two places of a text. *)
Definition boundary (prev : option ascii) (s : string) : bool := xorb (word_opt prev) (word_opt (str_head s)).

Inductive regex :=
| ReLit (s : string)
| RePlus (p : ascii -> bool)
| ReBound
| ReCat (r1 r2 : regex)
| ReAlt (r1 r2 : regex).

Section Match.
Context {A : Type}.
Implicit Type k : option ascii -> string -> option A.

Fixpoint match_lit (w : string) (k : option ascii -> string -> option A) (prev : option ascii) (s : string) : option A :=
  match w, s with
  | EmptyString, _ => k prev s
  | String c w, String d s => if Ascii.eqb c d then match_lit w k (Some d) s else None
  | String _ _, EmptyString => None
  end.

(** Greedy: as many characters as there are, fewer when what follows fails. *)
Fixpoint match_plus (p : ascii -> bool) (k : option ascii -> string -> option A) (s : string) : option A :=
  match s with
  | EmptyString => None
  | String c s => if p c then match match_plus p k s with Some a => Some a | None => k (Some c) s end else None
  end.

(** [k] is what has to match after [r]. *)
Fixpoint re_match (r : regex) (k : option ascii -> string -> option A) (prev : option ascii) (s : string) : option A :=
  match r with
  | ReLit w => match_lit w k prev s
  | RePlus p => match_plus p k s
  | ReBound => if boundary prev s then k prev s else None
  | ReCat r1 r2 => re_match r1 (re_match r2 k) prev s
  | ReAlt r1 r2 => match re_match r1 k prev s with Some a => Some a | None => re_match r2 k prev s end
  end.
End Match.

Definition re_at (r : regex) (prev : option ascii) (s : string) : option (option ascii * string) :=
  re_match r (fun prev s => Some (prev, s)) prev s.

(** [pattern.search(s) is not None] *)
Fixpoint re_search (r : regex) (prev : option ascii) (s : string) : bool :=
  match re_at r prev s with
  | Some _ => true
  | None => match s with String c s => re_search r (Some c) s | EmptyString => false end
  end.

(** [[m.group() for m in pattern.finditer(s)]], for a pattern without an empty match. *)
Fixpoint re_finditer (fuel : nat) (r : regex) (prev : option ascii) (s : string) : list string :=
  match fuel with
  | O => []
  | S fuel =>
      match re_at r prev s with
      | Some (prev', rest) =>
          String.substring 0 (String.length s - String.length rest) s :: re_finditer fuel r prev' rest
      | None => match s with String c s => re_finditer fuel r (Some c) s | EmptyString => [] end
      end
  end.

(** *** Facts: a whole word *)

(** The character before what follows [pre]. *)
Fixpoint last_char (prev : option ascii) (pre : string) : option ascii :=
  match pre with EmptyString => prev | String c pre => last_char (Some c) pre end.

(** [w] stands in [s], after [prev], as a word of its own. *)
Definition whole_word (w : string) (prev : option ascii) (s : string) : Prop :=
  exists pre post, s = String.append pre (String.append w post) ∧ word_opt (last_char prev pre) = false ∧
    word_opt (str_head post) = false.

(** The pattern [\bw\b]. *)
Definition word_pattern (w : string) : regex := ReCat ReBound (ReCat (ReLit w) ReBound).

Lemma match_lit_Some {A} w : forall (k : option ascii -> string -> option A) prev s a,
  match_lit w k prev s = Some a ↔ exists post, s = String.append w post ∧ k (last_char prev w) post = Some a.
Proof.
  induction w as [|c w IH]; intros k prev s a; cbn [match_lit last_char String.append].
  - split; [eauto|]. by intros (post & -> & Hk).
  - destruct s as [|d s]; [split; [done|by intros (? & ? & _)]|]. destruct (Ascii.eqb_spec c d) as [->|Hn].
    + rewrite IH. split; intros (post & E & Hk); exists post; [by subst|]. by injection E.
    + split; [done|]. by intros (post & [= -> _] & _).
Qed.

Lemma last_char_app prev a : forall b, last_char prev (String.append a b) = last_char (last_char prev a) b.
Proof. revert prev. induction a as [|c a IH]; intros prev b; [done|]. apply IH. Qed.

(** A word that starts and ends with word characters. *)
Definition proper_word (w : string) : Prop := word_opt (str_head w) = true ∧ word_opt (last_char None w) = true.

Lemma last_char_some prev w : w ≠ EmptyString → last_char prev w = last_char None w.
Proof. by destruct w. Qed.

Lemma word_at w prev s : proper_word w →
  is_Some (re_at (word_pattern w) prev s) ↔ exists post, s = String.append w post ∧ word_opt prev = false ∧ word_opt (str_head post) = false.
Proof.
  intros [Hh Hl]. assert (Hn : w ≠ EmptyString) by (by intros ->).
  assert (Hp : forall post, str_head (String.append w post) = str_head w) by (intros post; by destruct w).
  unfold re_at, word_pattern. cbn [re_match]. unfold boundary at 1. split.
  - intros [a Ha]. destruct (xorb _ _) eqn:Eb in Ha; [|done]. apply match_lit_Some in Ha as (post & -> & Ha).
    unfold boundary in Ha. rewrite Hp, Hh in Eb. rewrite last_char_some, Hl in Ha by done. exists post. split; [done|].
    split; [by destruct (word_opt prev)|]. by destruct (word_opt (str_head post)).
  - intros (post & -> & E1 & E2). rewrite Hp, Hh, E1. cbn [xorb]. exists (last_char prev w, post). apply match_lit_Some.
    exists post. split; [done|]. unfold boundary. by rewrite last_char_some, Hl, E2.
Qed.

(** A search for [\bw\b] succeeds exactly on the texts that have the word. *)
Lemma search_word w : proper_word w → forall s prev, re_search (word_pattern w) prev s = true ↔ whole_word w prev s.
Proof.
  intros Hw. induction s as [|c s IH]; intros prev; cbn [re_search].
  - pose proof (word_at w prev EmptyString Hw) as Ha. destruct (re_at _ _ _).
    + split; [|done]. intros _. destruct (proj1 Ha ltac:(eauto)) as (post & E & E1 & E2). exists EmptyString, post. eauto.
    + split; [done|]. intros (pre & post & E & E1 & E2). destruct pre; [|done].
      by destruct (proj2 Ha ltac:(eauto)).
  - pose proof (word_at w prev (String c s) Hw) as Ha. destruct (re_at _ _ _).
    + split; [|done]. intros _. destruct (proj1 Ha ltac:(eauto)) as (post & E & E1 & E2). exists EmptyString, post. eauto.
    + rewrite IH. split.
      * intros (pre & post & -> & E1 & E2). exists (String c pre), post. eauto.
      * intros (pre & post & E & E1 & E2). destruct pre as [|d pre]; [by destruct (proj2 Ha ltac:(eauto))|].
        injection E as -> ->. exists pre, post. eauto.
Qed.
