(* ===== verification/PyTime.v ===== *)
(** * Python's [datetime]

    A [date] is its proleptic Gregorian ordinal (1 January of year 1 is 1), with the year, month
    and day computed as the library computes them.  A [datetime] is a wall-clock reading in
    microseconds since ordinal 0 together with the UTC offset its time zone gives at that moment,
    or no offset when it is naive; comparison of aware datetimes compares instants. The year range
    1..9999 of the library is not enforced. *)

From S2P Require Import Prelude PyText.

#[local] Open Scope Z_scope.

Definition date := Z.

Definition is_leap (y : Z) : bool :=
  (y mod 4 =? 0) && (negb (y mod 100 =? 0) || (y mod 400 =? 0)).

Definition days_in_month (y m : Z) : Z :=
  if m =? 2 then (if is_leap y then 29 else 28)
  else if (m =? 4) || (m =? 6) || (m =? 9) || (m =? 11) then 30 else 31.

(** Days in a common year before the first of month [m]. *)
Definition cum_days (m : Z) : Z :=
  nth (Z.to_nat m) [0; 0; 31; 59; 90; 120; 151; 181; 212; 243; 273; 304; 334] 0.

Definition days_before_month (y m : Z) : Z :=
  cum_days m + (if (2 <? m) && is_leap y then 1 else 0).

Definition days_before_year (y : Z) : Z :=
  let y := y - 1 in y * 365 + y / 4 - y / 100 + y / 400.

(** [date(y, m, d)] for a valid triple. *)
Definition mk_date (y m d : Z) : date := days_before_year y + days_before_month y m + d.

Definition ord2ymd (n : date) : Z * Z * Z :=
  let n := n - 1 in
  let n400 := n / 146097 in let n := n mod 146097 in
  let n100 := n / 36524 in let n := n mod 36524 in
  let n4 := n / 1461 in let n := n mod 1461 in
  let n1 := n / 365 in let n := n mod 365 in
  let year := n400 * 400 + 1 + n100 * 100 + n4 * 4 + n1 in
  if (n1 =? 4) || (n100 =? 4) then (year - 1, 12, 31)
  else
    let month := Z.shiftr (n + 50) 5 in
    let preceding := days_before_month year month in
    if n <? preceding
    then (year, month - 1, n - (preceding - days_in_month year (month - 1)) + 1)
    else (year, month, n - preceding + 1).

Definition year_of (d : date) : Z := fst (fst (ord2ymd d)).
Definition month_of (d : date) : Z := snd (fst (ord2ymd d)).
Definition day_of (d : date) : Z := snd (ord2ymd d).

(** Monday is 0. *)
Definition weekday (d : date) : Z := (d + 6) mod 7.

Definition valid_ymd (y m d : Z) : Prop := 1 <= m <= 12 ∧ 1 <= d <= days_in_month y m.

Definition us_per_day : Z := 86400000000.

Record datetime := DT { dt_local : Z; dt_off : option Z }.

#[global] Instance datetime_eq_dec : EqDecision datetime.
Proof. solve_decision. Defined.

Definition dt_naive (t : datetime) : bool := match dt_off t with None => true | _ => false end.
Definition dt_date (t : datetime) : date := dt_local t / us_per_day.
Definition dt_time (t : datetime) : Z := dt_local t mod us_per_day.
Definition dt_instant (t : datetime) : Z :=
  dt_local t - match dt_off t with Some o => o * 1000000 | None => 0 end.

Definition dt_ltb (a b : datetime) : bool := dt_instant a <? dt_instant b.
Definition dt_leb (a b : datetime) : bool := dt_instant a <=? dt_instant b.
Definition dt_eqb (a b : datetime) : bool := dt_instant a =? dt_instant b.

(** [t + timedelta]: the wall clock moves. *)
Definition dt_add (t : datetime) (us : Z) : datetime := DT (dt_local t + us) (dt_off t).

Definition mk_datetime (y mo d h mi s us : Z) (off : option Z) : datetime :=
  DT (mk_date y mo d * us_per_day + ((h * 60 + mi) * 60 + s) * 1000000 + us) off.

(** ** [isoformat()] *)
Definition date_iso (d : date) : string :=
  let '(y, m, dd) := ord2ymd d in
  str_concat [str_pad 4 y; "-"%string; str_pad 2 m; "-"%string; str_pad 2 dd].

Definition off_iso (o : Z) : string :=
  let a := Z.abs o in
  str_concat [(if o <? 0 then "-"%string else "+"%string); str_pad 2 (a / 3600); ":"%string;
              str_pad 2 (a / 60 mod 60);
              if a mod 60 =? 0 then ""%string else String.append ":" (str_pad 2 (a mod 60))].

Definition dt_iso (t : datetime) : string :=
  let us := dt_time t in
  let s := us / 1000000 in
  str_concat [date_iso (dt_date t); "T"%string; str_pad 2 (s / 3600); ":"%string;
              str_pad 2 (s / 60 mod 60); ":"%string; str_pad 2 (s mod 60);
              (if us mod 1000000 =? 0 then ""%string
               else String.append "." (str_pad 6 (us mod 1000000)));
              match dt_off t with None => ""%string | Some o => off_iso o end].

Example iso_utc : dt_iso (mk_datetime 2026 5 22 15 0 7 0 (Some 0)) = "2026-05-22T15:00:07+00:00"%string.
Proof. vm_compute. reflexivity. Qed.
Example weekday_2026 : weekday (mk_date 2026 5 22) = 4.
Proof. vm_compute. reflexivity. Qed.

(** ** Dates and ordinals *)
Lemma is_leap_split a b c e : 0 <= b < 4 → 0 <= c < 25 → 0 <= e < 4 →
  is_leap (400 * a + 100 * b + 4 * c + e + 1) = (e =? 3) && ((c <? 24) || (b =? 3)).
Proof.
  intros Hb Hc He. unfold is_leap.
  assert (H4 : (400 * a + 100 * b + 4 * c + e + 1) mod 4 = (e + 1) mod 4).
  { replace (400 * a + 100 * b + 4 * c + e + 1) with (e + 1 + (100 * a + 25 * b + c) * 4) by ring.
    apply Z.mod_add. lia. }
  assert (H100 : (400 * a + 100 * b + 4 * c + e + 1) mod 100 = (4 * c + e + 1) mod 100).
  { replace (400 * a + 100 * b + 4 * c + e + 1) with (4 * c + e + 1 + (4 * a + b) * 100) by ring.
    apply Z.mod_add. lia. }
  assert (H400 : (400 * a + 100 * b + 4 * c + e + 1) mod 400 = (100 * b + 4 * c + e + 1) mod 400).
  { replace (400 * a + 100 * b + 4 * c + e + 1) with (100 * b + 4 * c + e + 1 + a * 400) by ring.
    apply Z.mod_add. lia. }
  rewrite H4, H100, H400. clear H4 H100 H400.
  apply eq_true_iff_eq.
  rewrite !andb_true_iff, !orb_true_iff, negb_true_iff, !Z.eqb_eq, Z.eqb_neq, Z.ltb_lt.
  Z.to_euclidean_division_equations. lia.
Qed.

Lemma days_before_year_split a b c e : 0 <= b < 4 → 0 <= c < 25 → 0 <= e < 4 →
  days_before_year (400 * a + 100 * b + 4 * c + e + 1)
  = 146097 * a + 36524 * b + 1461 * c + 365 * e.
Proof.
  intros. unfold days_before_year.
  Z.to_euclidean_division_equations. lia.
Qed.

Lemma year_split y : exists a b c e, y = 400 * a + 100 * b + 4 * c + e + 1 ∧
  0 <= b < 4 ∧ 0 <= c < 25 ∧ 0 <= e < 4.
Proof.
  exists ((y - 1) / 400), ((y - 1) mod 400 / 100), ((y - 1) mod 100 / 4), ((y - 1) mod 4).
  Z.to_euclidean_division_equations. lia.
Qed.

(** Case analysis on a month. *)
Ltac month_cases m :=
  let H := fresh in
  assert (m = 1 ∨ m = 2 ∨ m = 3 ∨ m = 4 ∨ m = 5 ∨ m = 6 ∨ m = 7 ∨ m = 8 ∨ m = 9 ∨ m = 10
          ∨ m = 11 ∨ m = 12) as H by lia;
  destruct H as [->|[->|[->|[->|[->|[->|[->|[->|[->|[->|[->| ->]]]]]]]]]]].

Lemma month_guess y m d : valid_ymd y m d →
  let n := days_before_month y m + d - 1 in
  (n + 50) / 32 = m ∨ ((n + 50) / 32 = m + 1 ∧ m < 12).
Proof.
  intros [Hm Hd]. unfold days_before_month, days_in_month in *.
  destruct (is_leap y); month_cases m; cbv -[Z.add Z.sub Z.div Z.le Z.lt] in Hd |- *;
    Z.to_euclidean_division_equations; lia.
Qed.

Lemma days_before_month_succ y m : 1 <= m < 12 →
  days_before_month y (m + 1) = days_before_month y m + days_in_month y m.
Proof.
  intros Hm. unfold days_before_month, days_in_month.
  destruct (is_leap y); month_cases m; try reflexivity; lia.
Qed.

(** The month search of [ord2ymd] inside a year: the guess is the month or the next one. *)
Lemma month_search y m d : valid_ymd y m d →
  let n := days_before_month y m + d - 1 in
  let month := Z.shiftr (n + 50) 5 in
  let preceding := days_before_month y month in
  (if n <? preceding
   then (y, month - 1, n - (preceding - days_in_month y (month - 1)) + 1)
   else (y, month, n - preceding + 1)) = (y, m, d).
Proof.
  intros Hv. pose proof (month_guess y m d Hv) as Hg. destruct Hv as [Hm Hd].
  cbv zeta in *. rewrite Z.shiftr_div_pow2 by lia. change (2 ^ 5) with 32.
  destruct Hg as [-> | [-> Hm']].
  - destruct (Z.ltb_spec (days_before_month y m + d - 1) (days_before_month y m)); [lia|].
    f_equal. lia.
  - replace (m + 1 - 1) with m by lia. rewrite days_before_month_succ by lia.
    destruct (Z.ltb_spec (days_before_month y m + d - 1) (days_before_month y m + days_in_month y m));
      [f_equal; lia | lia].
Qed.

Lemma doy_bounds y m d : valid_ymd y m d →
  0 <= days_before_month y m + d - 1 <= (if is_leap y then 365 else 364) ∧
  (days_before_month y m + d - 1 = 365 → m = 12 ∧ d = 31).
Proof.
  intros [Hm Hd]. unfold days_before_month, days_in_month in *.
  destruct (is_leap y); month_cases m; cbv -[Z.add Z.sub Z.le Z.lt] in Hd |- *; lia.
Qed.

(** [date(y, m, d)] gives back its year, month and day. *)
Lemma ord2ymd_mk_date y m d : valid_ymd y m d → ord2ymd (mk_date y m d) = (y, m, d).
Proof.
  intros Hv. pose proof (doy_bounds y m d Hv) as [Hdoy H365].
  pose proof (month_search y m d Hv) as Hs. unfold ord2ymd, mk_date.
  destruct (year_split y) as (a & b & c & e & Hy & Hb & Hc & He).
  assert (Hbefore : days_before_year y = 146097 * a + 36524 * b + 1461 * c + 365 * e)
    by (subst y; by apply days_before_year_split).
  assert (Hleap : is_leap y = (e =? 3) && ((c <? 24) || (b =? 3)))
    by (subst y; by apply is_leap_split).
  rewrite Hbefore. set (t := days_before_month y m + d - 1) in *.
  replace (146097 * a + 36524 * b + 1461 * c + 365 * e + days_before_month y m + d - 1)
    with (146097 * a + 36524 * b + 1461 * c + 365 * e + t) by (subst t; lia).
  assert (Ht : 36524 * b + 1461 * c + 365 * e + t < 146097) by (destruct (is_leap y); lia).
  assert (E400 : (146097 * a + 36524 * b + 1461 * c + 365 * e + t) / 146097 = a)
    by (Z.to_euclidean_division_equations; lia).
  assert (R400 : (146097 * a + 36524 * b + 1461 * c + 365 * e + t) mod 146097
                 = 36524 * b + 1461 * c + 365 * e + t)
    by (Z.to_euclidean_division_equations; lia).
  cbv zeta. rewrite E400, R400. clear E400 R400.
  destruct (decide (t = 365)) as [E|E].
  - (* the last day of a leap year *)
    destruct (H365 E) as [-> ->].
    assert (Hl : is_leap y = true) by (destruct (is_leap y); [done|lia]).
    rewrite Hl in Hleap. symmetry in Hleap. apply andb_true_iff in Hleap as [->%Z.eqb_eq Hcb].
    apply orb_true_iff in Hcb. rewrite Z.ltb_lt, Z.eqb_eq in Hcb. rewrite E in *.
    destruct (decide (c = 24)) as [->|].
    + assert (b = 3) as -> by lia.
      assert (Hy' : y = a * 400 + 1 + 4 * 100 + 0 * 4 + 0 - 1) by lia. rewrite Hy'.
      cbv -[Z.add Z.mul Z.sub]. reflexivity.
    + assert (E100 : (36524 * b + 1461 * c + 365 * 3 + 365) / 36524 = b)
        by (Z.to_euclidean_division_equations; lia).
      assert (R100 : (36524 * b + 1461 * c + 365 * 3 + 365) mod 36524 = 1461 * c + 1460)
        by (Z.to_euclidean_division_equations; lia).
      rewrite E100, R100. clear E100 R100.
      assert (E4 : (1461 * c + 1460) / 1461 = c) by (Z.to_euclidean_division_equations; lia).
      assert (R4 : (1461 * c + 1460) mod 1461 = 1460) by (Z.to_euclidean_division_equations; lia).
      rewrite E4, R4. change (1460 / 365) with 4. simpl. f_equal. f_equal. lia.
  - assert (Ht' : 0 <= t <= 364) by (destruct (is_leap y); lia).
    assert (E100 : (36524 * b + 1461 * c + 365 * e + t) / 36524 = b)
      by (Z.to_euclidean_division_equations; lia).
    assert (R100 : (36524 * b + 1461 * c + 365 * e + t) mod 36524 = 1461 * c + 365 * e + t)
      by (Z.to_euclidean_division_equations; lia).
    rewrite E100, R100. clear E100 R100.
    assert (E4 : (1461 * c + 365 * e + t) / 1461 = c) by (Z.to_euclidean_division_equations; lia).
    assert (R4 : (1461 * c + 365 * e + t) mod 1461 = 365 * e + t)
      by (Z.to_euclidean_division_equations; lia).
    rewrite E4, R4. clear E4 R4.
    assert (E1 : (365 * e + t) / 365 = e) by (Z.to_euclidean_division_equations; lia).
    assert (R1 : (365 * e + t) mod 365 = t) by (Z.to_euclidean_division_equations; lia).
    rewrite E1, R1. clear E1 R1.
    rewrite (proj2 (Z.eqb_neq e 4)), (proj2 (Z.eqb_neq b 4)) by lia. simpl orb.
    replace (a * 400 + 1 + b * 100 + c * 4 + e) with y by lia. exact Hs.
Qed.

Lemma year_of_mk_date y m d : valid_ymd y m d → year_of (mk_date y m d) = y.
Proof. intros. unfold year_of. by rewrite ord2ymd_mk_date. Qed.
