(* ===== verification/PyParse.v ===== *)
(** * Reading numbers and dates back from text

    [Decimal(str)], [int(str)] and [date.fromisoformat], and that they read back what [str] and
    [isoformat] wrote.  The special values of [Decimal] are not values of the model: their spellings
    are refused.  [fromisoformat] reads the extended calendar format, the one [isoformat] writes. *)

From Stdlib Require Import DecimalString DecimalFacts DecimalZ DecimalPos.
From S2P Require Import Prelude PyDecimal PyText PyTime.

#[local] Open Scope Z_scope.
#[local] Arguments String.append !_ _ / : simpl nomatch.

(** The longest prefix of digits, and the rest. *)
Fixpoint take_digits (s : string) : string * string :=
  match s with
  | EmptyString => (EmptyString, EmptyString)
  | String c s' => if ascii_isdigit c
                   then let '(d, r) := take_digits s' in (String c d, r)
                   else (EmptyString, s)
  end.

Fixpoint drop_underscores (s : string) : string :=
  match s with
  | EmptyString => EmptyString
  | String c s' => if Ascii.eqb c "_" then drop_underscores s' else String c (drop_underscores s')
  end.

(** An optional sign. *)
Definition take_sign (s : string) : bool * string :=
  match s with
  | String c s' => if Ascii.eqb c "-" then (true, s')
                   else if Ascii.eqb c "+" then (false, s') else (false, s)
  | EmptyString => (false, s)
  end.

Definition signed (neg : bool) (n : Z) : Z := if neg then - n else n.

(** One or more digits to the end of the text, with an optional sign. *)
Definition read_int (s : string) : option Z :=
  let '(neg, s) := take_sign s in
  let '(d, r) := take_digits s in
  match d, r with
  | EmptyString, _ => None
  | _, EmptyString => option_map (signed neg) (digits_val d)
  | _, _ => None
  end.

(** The exponent part. *)
Definition read_exponent (s : string) : option Z :=
  match s with
  | EmptyString => Some 0
  | String c s' => if Ascii.eqb c "E" || Ascii.eqb c "e" then read_int s' else None
  end.

Definition read_decimal (s : string) : option decimal :=
  let '(neg, s) := take_sign s in
  let '(i, r) := take_digits s in
  let '(f, r) := match r with
                 | String c r' => if Ascii.eqb c "." then take_digits r' else (EmptyString, r)
                 | EmptyString => (EmptyString, r)
                 end in
  match i, f with
  | EmptyString, EmptyString => None
  | _, _ =>
      match digits_val (String.append i f), read_exponent r with
      | Some c, Some e => Some (Dec (signed neg c) (e - Z.of_nat (String.length f)))
      | _, _ => None
      end
  end.

(** [Decimal(s)]: an invalid text raises [InvalidOperation]. *)
Definition decimal_of_str (s : string) : result decimal :=
  of_option (read_decimal (drop_underscores (str_strip s))) InvalidOperation.

(** A [Decimal] with its special values, for the texts that spell one: what the rest of the
    development computes with is the finite part. *)
Inductive decimal_value :=
| Finite (d : decimal)
| Infinity (neg : bool)
| NaN.

Definition drop_prefix (p s : string) : option string :=
  if String.prefix p s then Some (String.substring (String.length p) (String.length s - String.length p) s)
  else None.

(** [NaN] or [sNaN], in either case, with or without digits after it. *)
Definition spells_nan (t : string) : bool :=
  let t := match drop_prefix "S" t with Some u => u | None => t end in
  match drop_prefix "NAN" t with
  | Some EmptyString => true
  | Some digits => str_isdigit digits
  | None => false
  end.

(** [Decimal(s)], special values included. *)
Definition decimal_value_of_str (s : string) : result decimal_value :=
  let '(neg, t) := take_sign (drop_underscores (str_strip s)) in
  let t := str_upper t in
  if String.eqb t "INF" || String.eqb t "INFINITY" then Ok (Infinity neg)
  else if spells_nan t then Ok NaN
  else let! d := decimal_of_str s in Ok (Finite d).

(** [a < b]: ordering a [NaN] signals. *)
Definition dv_ltb (a b : decimal_value) : result bool :=
  match a, b with
  | NaN, _ | _, NaN => Err InvalidOperation
  | Finite x, Finite y => Ok (dltb x y)
  | Infinity true, Infinity true => Ok false
  | Infinity true, _ => Ok true
  | Infinity false, _ => Ok false
  | Finite _, Infinity neg => Ok (negb neg)
  end.

Definition finite_part (v : decimal_value) : option decimal :=
  match v with Finite d => Some d | _ => None end.

(** [int(s)]: one underscore may stand between two digits. *)
Fixpoint join_groups (after_digit : bool) (s : string) : option string :=
  match s with
  | EmptyString => Some EmptyString
  | String c s' =>
      if Ascii.eqb c "_" then
        match s' with
        | String d _ => if after_digit && ascii_isdigit d then join_groups false s' else None
        | EmptyString => None
        end
      else option_map (String c) (join_groups (ascii_isdigit c) s')
  end.

Definition int_of_str (s : string) : result Z :=
  of_option (match join_groups false (str_strip s) with Some t => read_int t | None => None end) ValueError.

Definition valid_ymdb (y m d : Z) : bool :=
  (1 <=? y) && (y <=? 9999) && (1 <=? m) && (m <=? 12) && (1 <=? d) && (d <=? days_in_month y m).

Definition date_fromisoformat (s : string) : result date :=
  let field a n := let t := String.substring a n s in
                   if str_isdigit t && (String.length t =? n)%nat then digits_val t else None in
  of_option
    (if (String.length s =? 10)%nat && String.eqb (String.substring 4 1 s) "-"
        && String.eqb (String.substring 7 1 s) "-"
     then match field 0%nat 4%nat, field 5%nat 2%nat, field 8%nat 2%nat with
          | Some y, Some m, Some d => if valid_ymdb y m d then Some (mk_date y m d) else None
          | _, _, _ => None
          end
     else None) ValueError.

Example read_1 : decimal_of_str " -1.50e3 " = Ok (Dec (-150) 1).
Proof. reflexivity. Qed.
Example read_int_1 : map int_of_str [" -1_000 "; "1__0"; "_1"; "1_"; "+7"; "1.0"]%string
  = [Ok (-1000); Err ValueError; Err ValueError; Err ValueError; Ok 7; Err ValueError].
Proof. reflexivity. Qed.
Example read_special : map decimal_value_of_str ["+Infinity"; "-inf"; "sNaN12"; "nan"; "NaN1x"; "1"]
  = [Ok (Infinity false); Ok (Infinity true); Ok NaN; Ok NaN; Err InvalidOperation; Ok (Finite (Dec 1 0))].
Proof. vm_compute. reflexivity. Qed.
Example read_2 : decimal_of_str "1.2.3" = Err InvalidOperation.
Proof. reflexivity. Qed.

(** ** Text made of digits *)
Lemma str_all_append p a b : str_all p (String.append a b) = str_all p a && str_all p b.
Proof. induction a as [|c a IH]; simpl; [done|]. by rewrite IH, andb_assoc. Qed.

Lemma str_all_impl (p q : ascii -> bool) s : (forall c, p c = true → q c = true) →
  str_all p s = true → str_all q s = true.
Proof.
  intros Hpq. induction s as [|c s IH]; simpl; [done|]. rewrite !andb_true_iff. intros [H1 H2]. auto.
Qed.

Lemma string_of_uint_digits u : str_all ascii_isdigit (NilEmpty.string_of_uint u) = true.
Proof. by induction u. Qed.

Lemma str_int_digits n : 0 <= n → str_all ascii_isdigit (str_int n) = true ∧ str_int n ≠ ""%string.
Proof.
  intros Hn. unfold str_int. destruct n as [|p|p]; [split; done| |lia]. simpl.
  assert (Hne : Pos.to_uint p ≠ Decimal.Nil) by apply DecimalPos.Unsigned.to_uint_nonnil.
  assert (E : NilZero.string_of_uint (Pos.to_uint p) = NilEmpty.string_of_uint (Pos.to_uint p))
    by (by destruct (Pos.to_uint p)).
  rewrite E. split; [apply string_of_uint_digits|]. by destruct (Pos.to_uint p).
Qed.

Lemma str_int_neg n : n < 0 → str_int n = String "-" (str_int (- n)).
Proof. destruct n as [|p|p]; [lia..|]. done. Qed.

Lemma str_repeat_digits k : str_all ascii_isdigit (str_repeat "0" k) = true.
Proof. by induction k. Qed.

Lemma str_repeat_length c k : String.length (str_repeat c k) = k.
Proof. induction k as [|k IH]; simpl; [done|]. by rewrite IH. Qed.

Lemma append_empty_r s : String.append s "" = s.
Proof. induction s as [|c s IH]; simpl; [done|]. by rewrite IH. Qed.

Definition not_digit_first (s : string) : Prop :=
  match s with EmptyString => True | String c _ => ascii_isdigit c = false end.

Lemma take_digits_append a b : str_all ascii_isdigit a = true → not_digit_first b →
  take_digits (String.append a b) = (a, b).
Proof.
  intros Ha Hb. induction a as [|c a IH]; simpl in *.
  - destruct b as [|c b]; [done|]. simpl in *. by rewrite Hb.
  - apply andb_true_iff in Ha as [Hc Ha]. rewrite Hc, IH by done. done.
Qed.

Lemma take_digits_all a : str_all ascii_isdigit a = true → take_digits a = (a, ""%string).
Proof.
  intros Ha. pose proof (take_digits_append a "" Ha I) as E. by rewrite append_empty_r in E.
Qed.

Lemma digit_not_sign c : ascii_isdigit c = true → Ascii.eqb c "-" = false ∧ Ascii.eqb c "+" = false.
Proof. intros Hc. destruct c as [[] [] [] [] [] [] [] []]; try discriminate Hc; split; reflexivity. Qed.

Lemma take_sign_digits s : str_all ascii_isdigit s = true → take_sign s = (false, s).
Proof.
  destruct s as [|c s]; [done|]. simpl. intros [Hc _]%andb_true_iff.
  destruct (digit_not_sign c Hc) as [-> ->]. done.
Qed.

Lemma read_int_str n : read_int (str_int n) = Some n.
Proof.
  assert (Hpos : forall m, 0 <= m → forall neg, match (let '(d, r) := take_digits (str_int m) in
      match d, r with
      | EmptyString, _ => None
      | _, EmptyString => option_map (signed neg) (digits_val d)
      | _, _ => None end) with x => x end = Some (signed neg m)).
  { intros m Hm neg. destruct (str_int_digits m Hm) as [Hd Hne]. rewrite take_digits_all by done.
    rewrite digits_val_str_int by done. by destruct (str_int m). }
  unfold read_int. destruct (Z.lt_ge_cases n 0) as [Hn|Hn].
  - rewrite str_int_neg by done. cbn [take_sign]. change (Ascii.eqb "-" "-") with true. cbv iota beta.
    rewrite (Hpos (- n) ltac:(lia) true). unfold signed. f_equal. lia.
  - destruct (str_int_digits n Hn) as [Hd _]. rewrite take_sign_digits by done. apply (Hpos n Hn false).
Qed.

(** ** [Decimal(str(d))] *)

(** The characters of a written decimal. *)
Definition plain (c : ascii) : bool :=
  ascii_isdigit c || Ascii.eqb c "." || Ascii.eqb c "-" || Ascii.eqb c "+" || Ascii.eqb c "E".

Lemma plain_facts c : plain c = true → ascii_isspace c = false ∧ Ascii.eqb c "_" = false.
Proof.
  intros Hc. destruct c as [[] [] [] [] [] [] [] []]; try discriminate Hc; split; reflexivity.
Qed.

Lemma plain_text s : str_all plain s = true → drop_underscores (str_strip s) = s.
Proof.
  intros Hs. assert (Hl : str_lstrip s = s).
  { destruct s as [|c s]; [done|]. simpl in *. apply andb_true_iff in Hs as [Hc _].
    by destruct (plain_facts c Hc) as [-> _]. }
  unfold str_strip. rewrite Hl. clear Hl.
  assert (Hr : str_rstrip s = s).
  { induction s as [|c s IH]; [done|]. simpl in *. apply andb_true_iff in Hs as [Hc Hs].
    rewrite IH by done. destruct (plain_facts c Hc) as [-> _]. by destruct s. }
  rewrite Hr. clear Hr. induction s as [|c s IH]; [done|]. simpl in *.
  apply andb_true_iff in Hs as [Hc Hs]. destruct (plain_facts c Hc) as [_ ->]. by rewrite IH.
Qed.

Lemma digits_plain s : str_all ascii_isdigit s = true → str_all plain s = true.
Proof. apply str_all_impl. intros c Hc. unfold plain. by rewrite Hc. Qed.

(** The written exponent: nothing for zero, or [E] and a signed number. *)
Definition expo_text (e : Z) : string :=
  if e =? 0 then ""%string else String.append (if 0 <=? e then "E+" else "E") (str_int e).

Lemma expo_text_spec e : not_digit_first (expo_text e) ∧ read_exponent (expo_text e) = Some e
  ∧ str_all plain (expo_text e) = true
  ∧ match expo_text e with EmptyString => True | String c _ => Ascii.eqb c "." = false end.
Proof.
  unfold expo_text. destruct (Z.eqb_spec e 0) as [->|Hne]; [done|].
  destruct (Z.leb_spec 0 e) as [He|He]; cbn [String.append].
  - split; [done|]. split; [|split; [|done]].
    + cbn. pose proof (read_int_str e) as Hr. unfold read_int in *. cbn [take_sign].
      destruct (str_int_digits e He) as [Hd _]. rewrite take_sign_digits in Hr by done. exact Hr.
    + cbn. by apply digits_plain, str_int_digits.
  - split; [done|]. split; [|split; [|done]].
    + cbn. apply read_int_str.
    + cbn. rewrite str_int_neg by done. cbn. apply digits_plain, str_int_digits. lia.
Qed.

Lemma substring_split s : forall k, (k <= String.length s)%nat →
  String.append (String.substring 0 k s) (String.substring k (String.length s - k) s) = s.
Proof.
  induction s as [|c s IH]; intros k Hk; simpl in *; [by destruct k|].
  destruct k as [|k]; simpl.
  - f_equal. specialize (IH 0%nat ltac:(lia)). rewrite Nat.sub_0_r in IH.
    assert (E : String.substring 0 0 s = ""%string) by (by destruct s). by rewrite E in IH.
  - f_equal. apply IH. lia.
Qed.

Lemma substring_length_le s : forall a n, (a + n <= String.length s)%nat →
  String.length (String.substring a n s) = n.
Proof.
  induction s as [|c s IH]; intros a n Hl; simpl in *.
  - by assert (n = 0%nat) as -> by lia; destruct a.
  - destruct a as [|a]; [|apply IH; lia]. destruct n as [|n]; [done|]. simpl. f_equal. apply IH. lia.
Qed.

(** Reading a mantissa with or without a point, and an exponent. *)
Lemma read_mantissa neg i f e c :
  str_all ascii_isdigit i = true → str_all ascii_isdigit f = true → i ≠ ""%string →
  digits_val (String.append i f) = Some c →
  read_decimal (String.append (if neg : bool then "-" else "")
    (String.append i (String.append (match f with EmptyString => "" | _ => String "." f end) (expo_text e))))
  = Some (Dec (signed neg c) (e - Z.of_nat (String.length f))).
Proof.
  intros Hi Hf Hne Hc. unfold read_decimal.
  set (rest := String.append _ (expo_text e)).
  assert (Hsign : take_sign (String.append (if neg then "-" else "") (String.append i rest))
                  = (neg, String.append i rest)).
  { destruct neg; [done|]. cbn [String.append]. destruct i as [|x i]; [done|]. cbn.
    simpl in Hi. apply andb_true_iff in Hi as [Hx _]. by destruct (digit_not_sign x Hx) as [-> ->]. }
  rewrite Hsign. destruct (expo_text_spec e) as (Hnd & Hre & _ & Hdot).
  assert (Hrest : not_digit_first rest) by (unfold rest; by destruct f).
  rewrite take_digits_append by done. subst rest. destruct f as [|x f].
  - cbn [String.append String.length]. rewrite append_empty_r in Hc.
    assert (E : match expo_text e with
                | EmptyString => (EmptyString, expo_text e)
                | String c0 r' => if Ascii.eqb c0 "." then take_digits r' else (EmptyString, expo_text e)
                end = (EmptyString, expo_text e)) by (destruct (expo_text e); [done|by rewrite Hdot]).
    rewrite E, append_empty_r, Hc, Hre. destruct i; [done|]. reflexivity.
  - cbn [String.append]. change (Ascii.eqb "." ".") with true. cbv iota beta.
    change (String x (String.append f (expo_text e))) with (String.append (String x f) (expo_text e)).
    rewrite take_digits_append by done. rewrite Hc, Hre. by destruct i.
Qed.

(** The text is a sign, digits, perhaps a point and digits, perhaps an exponent. *)
Lemma str_decimal_shape d : exists i f e,
  str_decimal d = String.append (if dcoef d <? 0 then "-" else "")
    (String.append i (String.append (match f with EmptyString => "" | _ => String "." f end) (expo_text e)))
  ∧ str_all ascii_isdigit i = true ∧ str_all ascii_isdigit f = true ∧ i ≠ ""%string
  ∧ digits_val (String.append i f) = Some (Z.abs (dcoef d)) ∧ e - Z.of_nat (String.length f) = dexp d.
Proof.
  unfold str_decimal. set (digits := str_int (Z.abs (dcoef d))).
  destruct (str_int_digits (Z.abs (dcoef d)) ltac:(lia)) as [Hd Hne]. fold digits in Hd, Hne.
  pose proof (digits_val_str_int (Z.abs (dcoef d)) ltac:(lia)) as Hv. fold digits in Hv.
  clearbody digits. set (n := Z.of_nat (String.length digits)). set (left_ := dexp d + n).
  assert (Hn : 0 < n) by (subst n; destruct digits; [done|simpl; lia]).
  assert (Hexpo : forall dp, (if left_ =? dp then ""%string
      else let e := left_ - dp in String.append (if 0 <=? e then "E+" else "E") (str_int e))
    = expo_text (left_ - dp)).
  { intros dp. unfold expo_text. destruct (Z.eqb_spec left_ dp), (Z.eqb_spec (left_ - dp) 0); by (lia || done). }
  set (dp := if (dexp d <=? 0) && (-6 <? left_) then left_ else 1).
  assert (Hdp : dp = left_ ∧ dexp d <= 0 ∨ dp = 1).
  { subst dp. destruct (Z.leb_spec (dexp d) 0); cbn [andb]; [|by right]. destruct (_ <? _); [by left|by right]. }
  clearbody dp. destruct (Z.leb_spec dp 0) as [H0|H0].
  - (* the point is at or before the first digit *)
    destruct Hdp as [[-> He]| ->]; [|lia].
    exists "0"%string, (String.append (str_repeat "0" (Z.to_nat (- left_))) digits), 0.
    rewrite Hexpo, Z.sub_diag. split; [|split_and!].
    + f_equal. f_equal. f_equal.
      destruct (String.append _ digits) eqn:E; [|done]. destruct (str_repeat _ _); [by destruct digits|done].
    + done.
    + by rewrite str_all_append, str_repeat_digits, Hd.
    + done.
    + cbn [String.append]. rewrite digits_val_zero, digits_val_zeros. exact Hv.
    + rewrite string_length_append, str_repeat_length. subst left_ n. lia.
  - destruct (Z.leb_spec n dp) as [H1|H1].
    + (* the point is after the last digit *)
      assert (E0 : dp = n).
      { destruct Hdp as [[-> He]| ->]; subst left_; lia. }
      exists digits, ""%string, (left_ - dp). rewrite Hexpo, E0, Z.sub_diag. cbn [Z.to_nat str_repeat].
      rewrite !append_empty_r. split; [done|]. split_and!; try done. cbn. subst left_. lia.
    + (* the point is inside *)
      pose proof (substring_split digits (Z.to_nat dp) ltac:(subst n; lia)) as Hsplit.
      assert (Hlen : (Z.to_nat (n - dp) = String.length digits - Z.to_nat dp)%nat) by (subst n; lia).
      exists (String.substring 0 (Z.to_nat dp) digits),
             (String.substring (Z.to_nat dp) (Z.to_nat (n - dp)) digits), (left_ - dp).
      pose proof (substring_length_le digits 0 (Z.to_nat dp) ltac:(subst n; lia)) as L1.
      pose proof (substring_length_le digits (Z.to_nat dp) (Z.to_nat (n - dp)) ltac:(subst n; lia)) as L2.
      rewrite Hexpo. rewrite <- Hlen in Hsplit.
      assert (Hdd : str_all ascii_isdigit (String.append (String.substring 0 (Z.to_nat dp) digits)
        (String.substring (Z.to_nat dp) (Z.to_nat (n - dp)) digits)) = true) by (by rewrite Hsplit).
      rewrite str_all_append in Hdd. apply andb_true_iff in Hdd as [D1 D2].
      split; [|split_and!].
      * f_equal. f_equal. f_equal. destruct (String.substring (Z.to_nat dp) _ digits); [simpl in L2; lia|done].
      * done.
      * done.
      * intros E. rewrite E in L1. simpl in L1. lia.
      * by rewrite Hsplit.
      * rewrite L2. subst left_. lia.
Qed.

Lemma decimal_roundtrip d : decimal_of_str (str_decimal d) = Ok d.
Proof.
  destruct (str_decimal_shape d) as (i & f & e & Es & Hi & Hf & Hne & Hc & He).
  unfold decimal_of_str. rewrite plain_text.
  - rewrite Es, (read_mantissa _ i f e (Z.abs (dcoef d))) by done. cbn [of_option]. f_equal.
    destruct d as [c x]. cbn [dcoef dexp] in *. unfold signed.
    rewrite He. destruct (Z.ltb_spec c 0); f_equal; lia.
  - rewrite Es, !str_all_append. destruct (expo_text_spec e) as (_ & _ & -> & _).
    rewrite (digits_plain i Hi). rewrite andb_true_r.
    assert (str_all plain (if dcoef d <? 0 then "-" else "") = true) as -> by (by destruct (_ <? _)).
    cbn [andb]. destruct f as [|x f]; [done|]. cbn. by apply digits_plain in Hf.
Qed.

(** ** [date.fromisoformat(d.isoformat())] *)

(** Texts of a known length are lists of characters. *)
Lemma str_length_2 s : String.length s = 2%nat → exists a b, s = String a (String b "").
Proof. destruct s as [|a [|b [|]]]; try discriminate. eauto. Qed.

Lemma str_length_4 s : String.length s = 4%nat →
  exists a b c d, s = String a (String b (String c (String d ""))).
Proof. destruct s as [|a [|b [|c [|d [|]]]]]; try discriminate. eauto. Qed.

Definition pad_ok (w : nat) (n : Z) : bool :=
  (String.length (str_pad w n) =? w)%nat && str_isdigit (str_pad w n).

Lemma pad_ok_below w k n : forallb (pad_ok w) (seqZ 0 k) = true → 0 <= n < k → pad_ok w n = true.
Proof. intros Hall Hn. rewrite forallb_forall in Hall. apply Hall, list_elem_of_In, elem_of_seqZ. lia. Qed.

Lemma str_pad_2 n : 0 <= n < 100 → String.length (str_pad 2 n) = 2%nat ∧ str_isdigit (str_pad 2 n) = true.
Proof.
  intros Hn. pose proof (pad_ok_below 2 100 n ltac:(vm_compute; reflexivity) Hn) as E.
  unfold pad_ok in E. by rewrite andb_true_iff, Nat.eqb_eq in E.
Qed.

Lemma str_pad_4 n : 0 <= n < 10000 →
  String.length (str_pad 4 n) = 4%nat ∧ str_isdigit (str_pad 4 n) = true.
Proof.
  intros Hn. pose proof (pad_ok_below 4 10000 n ltac:(vm_compute; reflexivity) Hn) as E.
  unfold pad_ok in E. by rewrite andb_true_iff, Nat.eqb_eq in E.
Qed.

Lemma days_in_month_le y m : days_in_month y m <= 31.
Proof. unfold days_in_month. repeat case_match; lia. Qed.

Lemma date_roundtrip y m d : 1 <= y <= 9999 → valid_ymd y m d →
  date_fromisoformat (date_iso (mk_date y m d)) = Ok (mk_date y m d).
Proof.
  intros Hy Hv. pose proof Hv as [Hm Hd]. pose proof (days_in_month_le y m) as Hdm.
  unfold date_iso. rewrite ord2ymd_mk_date by done.
  destruct (str_pad_4 y ltac:(lia)) as [Ly Dy]. destruct (str_pad_2 m ltac:(lia)) as [Lm Dm].
  destruct (str_pad_2 d ltac:(lia)) as [Ld Dd].
  pose proof (digits_val_str_pad 4 y ltac:(lia)) as Vy.
  pose proof (digits_val_str_pad 2 m ltac:(lia)) as Vm.
  pose proof (digits_val_str_pad 2 d ltac:(lia)) as Vd.
  destruct (str_length_4 _ Ly) as (y1 & y2 & y3 & y4 & Ey).
  destruct (str_length_2 _ Lm) as (m1 & m2 & Em). destruct (str_length_2 _ Ld) as (d1 & d2 & Ed).
  rewrite Ey in *. rewrite Em in *. rewrite Ed in *.
  unfold date_fromisoformat.
  change (String.length _ =? 10)%nat with true. change (String.eqb (String.substring 4 1 _) "-") with true.
  change (String.eqb (String.substring 7 1 _) "-") with true. cbv beta iota zeta. cbn [andb].
  change (String.substring 0 4 _) with (String y1 (String y2 (String y3 (String y4 "")))).
  change (String.substring 5 2 _) with (String m1 (String m2 "")).
  change (String.substring 8 2 _) with (String d1 (String d2 "")).
  rewrite Dy, Dm, Dd, Vy, Vm, Vd. cbn [String.length Nat.eqb andb].
  assert (valid_ymdb y m d = true) as ->; [|done].
  unfold valid_ymdb. rewrite !andb_true_iff, !Z.leb_le. lia.
Qed.

(** A date the calendar can write. *)
Definition real_date (d : date) : Prop :=
  exists y m dd, 1 <= y <= 9999 ∧ valid_ymd y m dd ∧ d = mk_date y m dd.

Lemma real_date_roundtrip d : real_date d → date_fromisoformat (date_iso d) = Ok d.
Proof. intros (y & m & dd & Hy & Hv & ->). by apply date_roundtrip. Qed.
(** Later dates have later years. *)
Lemma real_year_mono d1 d2 : real_date d1 → real_date d2 → d1 <= d2 → year_of d1 <= year_of d2.
Proof.
  intros (y1 & m1 & e1 & _ & V1 & ->) (y2 & m2 & e2 & _ & V2 & ->) Hle. rewrite !year_of_mk_date by done.
  destruct (Z.le_gt_cases y1 y2) as [?|Hgt]; [done|exfalso].
  pose proof (doy_bounds _ _ _ V1) as [[B1 _] _]. pose proof (doy_bounds _ _ _ V2) as [[_ B2] _].
  assert (Hnext : days_before_year y2 + (if is_leap y2 then 366 else 365) <= days_before_year y1).
  { assert (Hs : days_before_year (y2 + 1) = days_before_year y2 + (if is_leap y2 then 366 else 365)).
    { unfold days_before_year, is_leap.
      destruct (Z.eqb_spec (y2 mod 4) 0), (Z.eqb_spec (y2 mod 100) 0), (Z.eqb_spec (y2 mod 400) 0); cbn [andb orb negb];
        Z.to_euclidean_division_equations; lia. }
    rewrite <- Hs. unfold days_before_year. clear -Hgt. Z.to_euclidean_division_equations; lia. }
  unfold mk_date in Hle. destruct (is_leap y2); lia.
Qed.

Lemma int_of_str_int n : 0 <= n → int_of_str (str_int n) = Ok n.
Proof.
  intros Hn. destruct (str_int_digits n Hn) as [Hd _]. unfold int_of_str.
  assert (Hs : str_strip (str_int n) = str_int n).
  { pose proof (digits_plain _ Hd) as Hp. unfold str_strip.
    assert (Hl : str_lstrip (str_int n) = str_int n).
    { destruct (str_int n) as [|c s]; [done|]. simpl in *. apply andb_true_iff in Hp as [Hc _].
      by destruct (plain_facts c Hc) as [-> _]. }
    rewrite Hl. clear Hl Hn Hd. induction (str_int n) as [|c s IH]; [done|]. simpl in *.
    apply andb_true_iff in Hp as [Hc Hp]. rewrite IH by done. destruct (plain_facts c Hc) as [-> _]. by destruct s. }
  rewrite Hs. assert (Hj : forall b, join_groups b (str_int n) = Some (str_int n)).
  { clear Hs. induction (str_int n) as [|c s IH]; [done|]. intros b. simpl in *. apply andb_true_iff in Hd as [Hc Hd].
    assert (Hu : Ascii.eqb c "_" = false) by (apply plain_facts; unfold plain; by rewrite Hc).
    rewrite Hu. by rewrite IH. }
  rewrite Hj. by rewrite read_int_str.
Qed.

(** ** [datetime.fromisoformat]

    The date part in the extended calendar format, any separator, then the time. *)
Definition str_drop (n : nat) (s : string) : string := String.substring n (String.length s - n) s.

(** [int(s[a:a+2])] of two digits. *)
Definition two_digits (s : string) : option (Z * string) :=
  let t := String.substring 0 2 s in
  if (String.length t =? 2)%nat && str_isdigit t
  then option_map (fun n => (n, str_drop 2 s)) (digits_val t) else None.

(** [[.,]d+]: microseconds of the first six digits; the digits after them are dropped. *)
Definition parse_fraction (s : string) : option Z :=
  match s with
  | EmptyString => Some 0
  | String c r =>
      if (Ascii.eqb c "." || Ascii.eqb c ",") && str_isdigit r
      then option_map (fun n => n * 10 ^ (6 - Z.of_nat (Nat.min 6 (String.length r))))
             (digits_val (String.substring 0 6 r))
      else None
  end.

(** [HH[:MM[:SS[.f]]]], with colons throughout or not at all, in microseconds with its parts. *)
Definition parse_hms (s : string) : option (Z * Z * Z * Z) :=
  match two_digits s with
  | None => None
  | Some (h, EmptyString) => Some (h, 0, 0, 0)
  | Some (h, String c r as s1) =>
      let sep := Ascii.eqb c ":" in
      match two_digits (if sep then r else s1) with
      | None => None
      | Some (m, EmptyString) => Some (h, m, 0, 0)
      | Some (m, String c2 r2 as s2) =>
          if sep && negb (Ascii.eqb c2 ":") then None
          else match two_digits (if sep then r2 else s2) with
               | None => None
               | Some (sec, f) => option_map (fun us => (h, m, sec, us)) (parse_fraction f)
               end
      end
  end.

Definition str_find (c : ascii) (s : string) : option nat := String.index 0 (String c EmptyString) s.

(** The time of day in microseconds, and the offset in seconds when there is one. An offset is less
    than a day; fractions of a second in one are outside the model. *)
Definition parse_time (s : string) : option (Z * option Z) :=
  let tz := match str_find "-" s with
            | Some i => Some i
            | None => match str_find "+" s with Some i => Some i | None => str_find "Z" s end
            end in
  let base := match tz with Some i => String.substring 0 i s | None => s end in
  match parse_hms base with
  | None => None
  | Some (h, m, sec, us) =>
      if (h <? 24) && (m <? 60) && (sec <? 60) then
        let t := ((h * 60 + m) * 60 + sec) * 1000000 + us in
        match tz with
        | None => Some (t, None)
        | Some i =>
            let mark := String.substring i 1 s in
            let zone := str_drop (i + 1) s in
            if String.eqb mark "Z" then if String.eqb zone "" then Some (t, Some 0) else None
            else match parse_hms zone with
                 | Some (oh, om, os, 0) =>
                     let off := (oh * 60 + om) * 60 + os in
                     if off <? 86400 then Some (t, Some (if String.eqb mark "-" then - off else off)) else None
                 | _ => None
                 end
        end
      else None
  end.

Definition datetime_fromisoformat (s : string) : result datetime :=
  let! d := date_fromisoformat (String.substring 0 10 s) in
  match str_drop 11 s with
  | EmptyString => Ok (DT (d * us_per_day) None)
  | t => match parse_time t with
         | Some (us, off) => Ok (DT (d * us_per_day + us) off)
         | None => Err ValueError
         end
  end.

Example iso_read : map datetime_fromisoformat
    ["2026-01-06T00:00:00.000"; "2026-01-06"; "2026-01-06 0915"; "2026-01-06T09:15:00-05:00"; "2026-01-06T24:00"; "2026-1-06T00"]%string
  = [Ok (DT (mk_date 2026 1 6 * us_per_day) None); Ok (DT (mk_date 2026 1 6 * us_per_day) None);
     Ok (mk_datetime 2026 1 6 9 15 0 0 None); Ok (mk_datetime 2026 1 6 9 15 0 0 (Some (-18000)));
     Err ValueError; Err ValueError].
Proof. vm_compute. reflexivity. Qed.
