(* ===== verification/Types.v ===== *)
(** * futur3/data/types.py: the records of the data layer

    Enumerations, the frozen dataclasses with their [__post_init__] checks, and the provenance
    hashes.  A dataclass is a record; constructing one is running its check on the record. *)

From S2P Require Import Prelude PyDecimal PyText PyTime.

#[local] Open Scope Z_scope.

Definition SHA256_HEX_LENGTH : nat := 64.

Inductive SourceTier :=
| T1_EXCHANGE_HISTORICAL
| T2_EXCHANGE
| T2_BROKER
| T2_MACRO
| T3_AGGREGATOR
| T4_DERIVED.

#[global] Instance SourceTier_eq_dec : EqDecision SourceTier.
Proof. solve_decision. Defined.

Definition SourceTier_value (t : SourceTier) : Z :=
  match t with
  | T1_EXCHANGE_HISTORICAL => 1
  | T2_EXCHANGE => 2
  | T2_BROKER => 3
  | T2_MACRO => 4
  | T3_AGGREGATOR => 5
  | T4_DERIVED => 6
  end.

Inductive BarResolution := SEC_1 | SEC_5 | MIN_1 | MIN_5 | MIN_15 | HOUR_1 | DAY_1 | SETTLE.

#[global] Instance BarResolution_eq_dec : EqDecision BarResolution.
Proof. solve_decision. Defined.

Definition BarResolution_value (r : BarResolution) : string :=
  match r with
  | SEC_1 => "1s"
  | SEC_5 => "5s"
  | MIN_1 => "1m"
  | MIN_5 => "5m"
  | MIN_15 => "15m"
  | HOUR_1 => "1h"
  | DAY_1 => "1d"
  | SETTLE => "settle"
  end.

Inductive SettleState := live | preliminary | final.

#[global] Instance SettleState_eq_dec : EqDecision SettleState.
Proof. solve_decision. Defined.

(** [ContractSymbol] is a [str] subclass without state of its own. *)
Definition ContractSymbol := string.

Definition _assert_tz_aware (ts : datetime) : result unit := reject (dt_naive ts) ValueError.

Definition hex_length_bad (h : string) : bool := negb (String.length h =? SHA256_HEX_LENGTH)%nat.

Record RawBar := {
  rb_contract : ContractSymbol;
  rb_ts : datetime;
  rb_resolution : BarResolution;
  rb_open : decimal;
  rb_high : decimal;
  rb_low : decimal;
  rb_close : decimal;
  rb_volume : Z;
  rb_oi : option Z;
  rb_source_id : string;
  rb_as_of_iso : datetime;
  rb_content_bytes_sha : string;
}.

Definition RawBar_post_init (b : RawBar) : result RawBar :=
  let! _ := _assert_tz_aware (rb_ts b) in
  let! _ := _assert_tz_aware (rb_as_of_iso b) in
  guard! dltb (rb_high b) (rb_low b) else ValueError in
  guard! rb_volume b <? 0 else ValueError in
  guard! match rb_oi b with Some oi => oi <? 0 | None => false end else ValueError in
  guard! hex_length_bad (rb_content_bytes_sha b) else ValueError in
  Ok b.

Record Settle := {
  st_contract : ContractSymbol;
  st_as_of_date : date;
  st_settle : decimal;
  st_settle_state : SettleState;
  st_open : decimal;
  st_high : decimal;
  st_low : decimal;
  st_last : decimal;
  st_change : decimal;
  st_volume_est : Z;
  st_oi_prior : Z;
  st_source_id : string;
  st_as_of_iso : option datetime;
  st_content_bytes_sha : string;
  st_cme_month_code : string;
}.

Definition Settle_post_init (s : Settle) : result Settle :=
  let! _ := match st_as_of_iso s with Some t => _assert_tz_aware t | None => Ok tt end in
  guard! dltb (st_high s) (st_low s) else ValueError in
  guard! st_volume_est s <? 0 else ValueError in
  guard! st_oi_prior s <? 0 else ValueError in
  guard! negb (String.eqb (st_content_bytes_sha s) "") && hex_length_bad (st_content_bytes_sha s)
    else ValueError in
  Ok s.

Inductive TickSide := tick_bid | tick_ask | tick_trade.

Record RawTick := {
  rt_contract : ContractSymbol;
  rt_ts : datetime;
  rt_price : decimal;
  rt_size : Z;
  rt_side : option TickSide;
  rt_source_id : string;
  rt_as_of_iso : datetime;
  rt_content_bytes_sha : string;
}.

Definition RawTick_post_init (t : RawTick) : result RawTick :=
  let! _ := _assert_tz_aware (rt_ts t) in
  let! _ := _assert_tz_aware (rt_as_of_iso t) in
  guard! rt_size t <=? 0 else ValueError in
  guard! dleb (rt_price t) d0 else ValueError in
  guard! hex_length_bad (rt_content_bytes_sha t) else ValueError in
  Ok t.

Definition content_sha256 (payload : string) : string := sha256_hex payload.

Definition source_provenance_hash (source_id : string) (as_of_iso : datetime)
    (content_bytes_sha : string) : string :=
  sha256_hex (str_join "||" [source_id; dt_iso as_of_iso; content_bytes_sha]).

(** ** Facts *)
Lemma hex_length_sha s : hex_length_bad (sha256_hex s) = false.
Proof. unfold hex_length_bad. by rewrite sha256_hex_length. Qed.

(** A constructed bar is the given record, and its invariants hold. *)
Definition RawBar_wf (b : RawBar) : Prop :=
  dt_naive (rb_ts b) = false ∧ dt_naive (rb_as_of_iso b) = false ∧
  dltb (rb_high b) (rb_low b) = false ∧ 0 <= rb_volume b ∧
  (forall oi, rb_oi b = Some oi → 0 <= oi) ∧
  String.length (rb_content_bytes_sha b) = SHA256_HEX_LENGTH.

Lemma RawBar_post_init_Ok b b' : RawBar_post_init b = Ok b' ↔ b' = b ∧ RawBar_wf b.
Proof.
  unfold RawBar_post_init, RawBar_wf, _assert_tz_aware, hex_length_bad. split.
  - intros H. inv_ok.
    repeat match goal with
    | H : (_ <? _) = false |- _ => apply Z.ltb_ge in H
    | H : negb _ = false |- _ => apply negb_false_iff, Nat.eqb_eq in H
    end. split_and!; try done. intros oi E. rewrite E in *. lia.
  - intros (-> & H1 & H2 & H3 & H4 & H5 & H6). rewrite H1, H2, H3. simpl.
    rewrite (proj2 (Z.ltb_ge _ _) H4). simpl.
    replace (match rb_oi b with Some oi => oi <? 0 | None => false end) with false.
    2:{ destruct (rb_oi b) as [oi|]; [|done]. symmetry. apply Z.ltb_ge. auto. }
    simpl. by rewrite H6, Nat.eqb_refl.
Qed.

Lemma Settle_post_init_id s s' : Settle_post_init s = Ok s' → s' = s.
Proof. unfold Settle_post_init. intros E. by inv_ok. Qed.
