(* ===== verification/Store.v ===== *)
(** * The archive the Parquet stores share

    Both stores of [storage/] keep one data frame per partition file and write to them the same way:
    submitted rows are grouped by partition, deduplicated on a key, stripped of the rows already on
    disk, appended and sorted.  The data frames are the [polars] package's: the class [Polars] has the
    operations the stores call, with what its documentation says of them as laws.  Compression, the
    creation of directories and failures of the file system are not modelled. *)

From Stdlib Require Import Sorting.Sorted.
From S2P Require Import Prelude.

#[local] Open Scope Z_scope.

(** ** Data frames *)

(** [unique(keep="last", maintain_order=True)]: of the rows with equal keys, the last one stays. *)
Fixpoint keep_last {R D} `{EqDecision D} (key : R -> D) (l : list R) : list R :=
  match l with
  | [] => []
  | r :: l => if existsb (fun r' => bool_decide (key r' = key r)) l then keep_last key l
              else r :: keep_last key l
  end.

(** Is some row of [l] keyed like [r]? *)
Definition key_in {R D} `{EqDecision D} (key : R -> D) (l : list R) (r : R) : bool :=
  existsb (fun r' => bool_decide (key r' = key r)) l.

Class Polars := {
  frame : Type -> Type;
  pl_DataFrame : forall {R}, list R -> frame R;
  pl_rows : forall {R}, frame R -> list R;
  pl_unique : forall {R D} `{EqDecision D}, (R -> D) -> frame R -> frame R;
  pl_anti_join : forall {R D} `{EqDecision D}, (R -> D) -> frame R -> frame R -> frame R;
  pl_concat : forall {R}, list (frame R) -> frame R;
  pl_sort : forall {R}, (R -> R -> bool) -> frame R -> frame R;
  pl_filter : forall {R}, (R -> bool) -> frame R -> frame R;
}.

(** A sort by columns orders the rows by their keys; the order of rows with equal keys is not
    promised. *)
Class PolarsLaws `{Polars} := {
  rows_DataFrame : forall R (l : list R), pl_rows (pl_DataFrame l) = l;
  rows_unique : forall R D `{EqDecision D} (key : R -> D) f, pl_rows (pl_unique key f) = keep_last key (pl_rows f);
  rows_anti_join : forall R D `{EqDecision D} (key : R -> D) (f g : frame R),
    Permutation (pl_rows (pl_anti_join key f g)) (List.filter (fun r => negb (key_in key (pl_rows g) r)) (pl_rows f));
  rows_concat : forall R (l : list (frame R)), pl_rows (pl_concat l) = concat (map pl_rows l);
  rows_sort : forall R (leb : R -> R -> bool) f, Permutation (pl_rows (pl_sort leb f)) (pl_rows f);
  rows_sorted : forall R (leb : R -> R -> bool) f,
    (forall x y, leb x y = true ∨ leb y x = true) →
    (forall x y z, leb x y = true → leb y z = true → leb x z = true) →
    StronglySorted (fun x y => leb x y = true) (pl_rows (pl_sort leb f));
  rows_filter : forall R p (f : frame R), pl_rows (pl_filter p f) = List.filter p (pl_rows f);
}.

Definition pl_height `{Polars} {R} (f : frame R) : Z := Z.of_nat (length (pl_rows f)).

(** ** The archive *)
Section Archive.
Context `{Polars} {R K D : Type} `{EqDecision K, EqDecision D}.
Variable part : R -> K. (* the partition file of a row *)
Variable key : R -> D. (* the dedupe subset *)
Variable leb : R -> R -> bool. (* the sort keys *)

Definition archive : Type := dict K (frame R).

(** [groups.setdefault(key, []).append(r)] *)
Definition group_rows (rows : list R) : dict K (list R) :=
  fold_left (fun groups r => dset (part r) (dget_or (part r) [] groups ++ [r]) groups) rows [].

(** One partition: the file afterwards, the rows written and the rows deduplicated. *)
Definition merge_partition (existing : option (frame R)) (rows : list R) : frame R * Z * Z :=
  let submitted := pl_unique key (pl_DataFrame rows) in
  let internal_dupes := Z.of_nat (length rows) - pl_height submitted in
  match existing with
  | Some existing =>
      let new_only := pl_anti_join key submitted existing in
      let collisions := pl_height submitted - pl_height new_only in
      (pl_sort leb (pl_concat [existing; new_only]), pl_height new_only, internal_dupes + collisions)
  | None => (pl_sort leb submitted, pl_height submitted, internal_dupes)
  end.

Definition write_group (s : archive * Z * Z) (kv : K * list R) : archive * Z * Z :=
  let '(a, written, deduped) := s in
  let '(f, w, d) := merge_partition (dget (fst kv) a) (snd kv) in
  (dset (fst kv) f a, written + w, deduped + d).

Definition write_rows (rows : list R) (a : archive) : archive * Z * Z :=
  fold_left write_group (group_rows rows) (a, 0, 0).

(** ** What an archive holds *)
Definition rows_at (a : archive) (k : K) : list R :=
  match dget k a with Some f => pl_rows f | None => [] end.

Definition all_rows (a : archive) : list R := concat (map (fun kf => pl_rows (snd kf)) a).

Definition archive_wf (a : archive) : Prop :=
  List.NoDup (dkeys a) ∧ forall k f, dget k a = Some f →
    (forall r, In r (pl_rows f) → part r = k) ∧ List.NoDup (map key (pl_rows f)).

Lemma keep_last_In l r : In r (keep_last key l) ↔ exists l1 l2, l = l1 ++ r :: l2 ∧ key_in key l2 r = false.
Proof.
  induction l as [|x l IH]; cbn [keep_last].
  - split; [done|]. by intros ([|] & ? & ? & _).
  - fold (key_in key l x). destruct (key_in key l x) eqn:E.
    + rewrite IH. split.
      * intros (l1 & l2 & -> & Hl). by exists (x :: l1), l2.
      * intros ([|y l1] & l2 & [= -> ->] & Hl); [congruence|]. by exists l1, l2.
    + cbn [In]. rewrite IH. split.
      * intros [->|(l1 & l2 & -> & Hl)]; [by exists [], l|by exists (x :: l1), l2].
      * intros ([|y l1] & l2 & [= -> ->] & Hl); [by left|right; by exists l1, l2].
Qed.

Lemma key_in_spec l r : key_in key l r = true ↔ In (key r) (map key l).
Proof.
  unfold key_in. rewrite existsb_exists, in_map_iff. split; intros (x & H1 & H2).
  - apply bool_decide_eq_true in H2. eauto.
  - exists x. split; [done|]. by apply bool_decide_eq_true.
Qed.

Lemma key_in_false l r : key_in key l r = false ↔ ~ In (key r) (map key l).
Proof. rewrite <- key_in_spec. by destruct (key_in key l r). Qed.

Lemma keep_last_sub l r : In r (keep_last key l) → In r l.
Proof. rewrite keep_last_In. intros (l1 & l2 & -> & _). apply in_app_iff. right. by left. Qed.

Lemma keep_last_keys l d : In d (map key (keep_last key l)) ↔ In d (map key l).
Proof.
  induction l as [|x l IH]; [done|]. cbn [keep_last map]. fold (key_in key l x).
  destruct (key_in key l x) eqn:E.
  - rewrite IH. split; [by right|]. intros [<-|Hd]; [by apply key_in_spec|done].
  - cbn [map In]. by rewrite IH.
Qed.

Lemma keep_last_NoDup l : List.NoDup (map key (keep_last key l)).
Proof.
  induction l as [|x l IH]; [constructor|]. cbn [keep_last]. fold (key_in key l x).
  destruct (key_in key l x) eqn:E; [done|]. cbn [map]. constructor; [|done].
  rewrite keep_last_keys. by apply key_in_false.
Qed.

Lemma keep_last_length l : (length (keep_last key l) <= length l)%nat.
Proof. induction l as [|x l IH]; cbn [keep_last length]; [lia|]. destruct (existsb _ l); cbn [length]; lia. Qed.

Lemma keep_last_id l : List.NoDup (map key l) → keep_last key l = l.
Proof.
  induction l as [|x l IH]; [done|]. cbn [map keep_last]. intros [Hx Hnd]%List.NoDup_cons_iff.
  fold (key_in key l x). apply key_in_false in Hx. by rewrite Hx, IH.
Qed.
End Archive.

Lemma Permutation_In_iff {A} {l1 l2 : list A} (Hp : Permutation l1 l2) x : In x l1 ↔ In x l2.
Proof. split; apply Permutation_in; [done|by symmetry]. Qed.

Lemma Permutation_filter {A} (p : A -> bool) l1 l2 : Permutation l1 l2 → Permutation (List.filter p l1) (List.filter p l2).
Proof.
  induction 1 as [|x l1 l2 Hp IH|x y l|l1 l2 l3 H1 IH1 H2 IH2]; cbn; [done| | |by etrans].
  - by destruct (p x); [constructor|].
  - destruct (p x), (p y); try done. constructor.
Qed.

(** ** What a write does *)
Section Writes.
Context `{PolarsLaws} {R K D : Type} `{EqDecision K, EqDecision D}.
Variable part : R -> K.
Variable key : R -> D.
Variable leb : R -> R -> bool.
Hypothesis key_part : forall r1 r2, key r1 = key r2 → part r1 = part r2.
Hypothesis leb_total : forall x y, leb x y = true ∨ leb y x = true.
Hypothesis leb_trans : forall x y z, leb x y = true → leb y z = true → leb x z = true.

Notation archive := (@archive _ R K).
Notation merge_partition := (@merge_partition _ R D _ key leb).
Notation write_group := (@write_group _ R K D _ _ key leb).
Notation write_rows := (@write_rows _ R K D _ _ part key leb).
Notation group_rows := (@group_rows R K _ part).

(** The rows of a batch for one partition, and those of them a file does not hold yet. *)
Definition rows_for (k : K) (rows : list R) : list R := List.filter (fun r => bool_decide (part r = k)) rows.
Definition fresh (on_disk rows : list R) : list R :=
  List.filter (fun r => negb (key_in key on_disk r)) (keep_last key rows).

Lemma group_rows_snoc rows r :
  group_rows (rows ++ [r]) = dset (part r) (dget_or (part r) [] (group_rows rows) ++ [r]) (group_rows rows).
Proof. unfold group_rows. by rewrite fold_left_app. Qed.

Lemma group_rows_spec rows : List.NoDup (dkeys (group_rows rows)) ∧ forall k,
  dget k (group_rows rows) = match rows_for k rows with [] => None | l => Some l end.
Proof.
  induction rows as [|r rows [Hnd IH]] using rev_ind; [split; [constructor|done]|].
  rewrite group_rows_snoc. split; [by apply dkeys_dset_NoDup|]. intros k. unfold rows_for in *.
  rewrite dget_dset, filter_app. cbn [List.filter]. unfold dget_or. rewrite !IH. case_decide as Ek.
  - rewrite bool_decide_eq_true_2 by done. subst k. destruct (List.filter _ rows); done.
  - rewrite bool_decide_eq_false_2 by congruence. by rewrite app_nil_r.
Qed.

Lemma rows_for_part k rows r : In r (rows_for k rows) → part r = k.
Proof. unfold rows_for. rewrite filter_In. intros [_ Hk]. by apply bool_decide_eq_true in Hk. Qed.

Definition disk (existing : option (frame R)) : list R := match existing with Some f => pl_rows f | None => [] end.

Lemma filter_all {A} (p : A -> bool) l : (forall x, In x l → p x = true) → List.filter p l = l.
Proof. induction l as [|x l IH]; intros Hp; [done|]. cbn. rewrite Hp by (by left). f_equal. apply IH. intros; apply Hp. by right. Qed.

Lemma merge_spec existing rows f w d : merge_partition existing rows = (f, w, d) →
  Permutation (pl_rows f) (disk existing ++ fresh (disk existing) rows) ∧
  StronglySorted (fun x y => leb x y = true) (pl_rows f) ∧
  w = Z.of_nat (length (fresh (disk existing) rows)) ∧ w + d = Z.of_nat (length rows) ∧ 0 <= d.
Proof.
  unfold merge_partition, pl_height. rewrite rows_unique, rows_DataFrame.
  pose proof (keep_last_length key rows) as Hk. destruct existing as [g|]; intros [= <- <- <-]; cbn [disk].
  - pose proof (rows_anti_join R D key (pl_unique key (pl_DataFrame rows)) g) as Hp.
    rewrite rows_unique, rows_DataFrame in Hp. fold (fresh (pl_rows g) rows) in Hp.
    pose proof (Permutation_length Hp) as Hl. split_and!.
    + rewrite rows_sort, rows_concat. cbn [map concat]. rewrite app_nil_r. by rewrite Hp.
    + by apply rows_sorted.
    + lia.
    + lia.
    + unfold fresh in Hl. pose proof (List.filter_length_le (fun r => negb (key_in key (pl_rows g) r)) (keep_last key rows)). lia.
  - assert (Hf : fresh [] rows = keep_last key rows) by (apply filter_all; done). rewrite Hf. split_and!.
    + by rewrite rows_sort, rows_unique, rows_DataFrame.
    + by apply rows_sorted.
    + done.
    + lia.
    + lia.
Qed.

(** A batch of groups: each partition it names is merged, the others stay as they are. *)
Lemma write_groups_spec gs : forall a w d a' w' d', List.NoDup (dkeys gs) →
  fold_left write_group gs (a, w, d) = (a', w', d') →
  (List.NoDup (dkeys a) → List.NoDup (dkeys a')) ∧
  (forall k, match dget k gs with
             | Some l => exists f wk dk, merge_partition (dget k a) l = (f, wk, dk) ∧ dget k a' = Some f
             | None => dget k a' = dget k a
             end) ∧
  w' + d' = w + d + Z.of_nat (list_sum (map (fun kl => length (snd kl)) gs)) ∧
  0 <= w' - w ∧ d <= d' ∧
  ((forall k l r, dget k gs = Some l → In r l → key_in key (disk (dget k a)) r = true) → w' = w).
Proof.
  induction gs as [|[k0 l0] gs IH]; intros a w d a' w' d' Hnd E.
  - injection E as <- <- <-. split; [done|]. split; [done|]. cbn. split_and!; try lia; done.
  - cbn in Hnd. apply List.NoDup_cons_iff in Hnd as [Hk0 Hnd]. cbn [fold_left] in E.
    assert (Hstep : exists f wk dk, merge_partition (dget k0 a) l0 = (f, wk, dk) ∧
      write_group (a, w, d) (k0, l0) = (dset k0 f a, w + wk, d + dk)).
    { unfold write_group. cbn [fst snd]. destruct (merge_partition (dget k0 a) l0) as [[f wk] dk] eqn:Em. eauto. }
    destruct Hstep as (f & wk & dk & Em & Ew). rewrite Ew in E.
    destruct (IH _ _ _ _ _ _ Hnd E) as (N & P & C & W & Dd & Z0). clear IH.
    apply merge_spec in Em as Hm. destruct Hm as (M1 & _ & M3 & M4 & M5).
    assert (Hgs : dget k0 gs = None) by (by apply dget_None).
    split; [intros Ha; by apply N, dkeys_dset_NoDup|]. split; [|split; [|split; [|split]]].
    + intros k. cbn [dget]. case_decide as Ek.
      * subst k. exists f, wk, dk. split; [done|]. specialize (P k0). rewrite Hgs in P. by rewrite P, dget_dset_eq.
      * specialize (P k). rewrite dget_dset_ne in P by congruence. exact P.
    + cbn [map snd]. unfold list_sum in *. cbn [foldr]. lia.
    + lia.
    + lia.
    + intros Hall. assert (wk = 0) as ->.
      { rewrite M3. assert (Hfr : fresh (disk (dget k0 a)) l0 = []); [|by rewrite Hfr].
        unfold fresh. assert (Hin : forall r, In r (keep_last key l0) → key_in key (disk (dget k0 a)) r = true).
        { intros r Hr%keep_last_sub. apply (Hall k0 l0); [cbn; by rewrite decide_True|done]. }
        clear -Hin. induction (keep_last key l0) as [|x l IH]; [done|]. cbn. rewrite Hin by (by left). cbn.
        apply IH. intros; apply Hin. by right. }
      rewrite Z.add_0_r in Z0. apply Z0. intros k l r Hg Hr. destruct (decide (k = k0)) as [->|Hne]; [congruence|].
      rewrite dget_dset_ne by done. apply (Hall k l); [|done]. cbn. by rewrite decide_False by congruence.
Qed.

Lemma group_total rows : list_sum (map (fun kl => length (snd kl)) (group_rows rows)) = length rows.
Proof.
  induction rows as [|r rows IH] using rev_ind; [done|]. rewrite group_rows_snoc, length_app.
  cbn [length]. rewrite <- IH. clear IH. unfold dget_or. generalize (group_rows rows). intros g.
  induction g as [|[k l] g IHg]; [done|]. cbn [dget dset]. case_decide as Ek.
  - cbn [map snd]. unfold list_sum. cbn [foldr]. rewrite length_app. cbn [length]. lia.
  - cbn [map snd]. unfold list_sum in *. cbn [foldr]. rewrite IHg. lia.
Qed.

(** The whole write, partition by partition. *)
Lemma write_rows_spec rows a a' w d : write_rows rows a = (a', w, d) →
  (List.NoDup (dkeys a) → List.NoDup (dkeys a')) ∧
  (forall k, Permutation (rows_at a' k) (rows_at a k ++ fresh (rows_at a k) (rows_for k rows))) ∧
  w + d = Z.of_nat (length rows) ∧ 0 <= w ∧ 0 <= d ∧
  ((forall r, In r rows → key_in key (rows_at a (part r)) r = true) → w = 0).
Proof.
  unfold write_rows. intros E. destruct (group_rows_spec rows) as [Hnd Hg].
  destruct (write_groups_spec _ _ _ _ _ _ _ Hnd E) as (N & P & C & W & Dd & Z0). rewrite group_total in C.
  split; [done|]. split; [|split; [lia|split; [lia|split; [lia|]]]].
  - intros k. specialize (P k). rewrite Hg in P. unfold rows_at. destruct (rows_for k rows) as [|r l] eqn:Er.
    + rewrite P. by rewrite app_nil_r.
    + destruct P as (f & wk & dk & Em & ->). apply merge_spec in Em as (M1 & _). exact M1.
  - intros Hall. apply Z0. intros k l r Hgk Hr. rewrite Hg in Hgk.
    assert (Hin : In r (rows_for k rows)) by (destruct (rows_for k rows); [done|congruence]).
    pose proof (rows_for_part _ _ _ Hin) as Hp. apply filter_In in Hin as [Hin _]. specialize (Hall _ Hin).
    by rewrite Hp in Hall.
Qed.

(** *** The archive refines a map from keys to rows *)

(** The last row of a batch with a key, and the row the archive keeps for it: the first batch to
    bring the key decides. *)
Definition last_with (d : D) (rows : list R) : option R := List.find (fun r => bool_decide (key r = d)) (rev rows).
Definition recorded (batches : list (list R)) (d : D) : option R :=
  fold_left (fun acc rows => match acc with Some r => Some r | None => last_with d rows end) batches None.

Definition holds (a : archive) (batches : list (list R)) : Prop :=
  List.NoDup (dkeys a) ∧
  (forall k, List.NoDup (map key (rows_at a k))) ∧
  (forall k r, In r (rows_at a k) ↔ part r = k ∧ recorded batches (key r) = Some r).

Lemma last_with_key d rows r : last_with d rows = Some r → key r = d ∧ In r rows.
Proof. intros [Hin Hk]%List.find_some. apply in_rev in Hin. by apply bool_decide_eq_true in Hk. Qed.

Lemma last_with_None d rows : last_with d rows = None ↔ ~ In d (map key rows).
Proof.
  unfold last_with. split.
  - intros Hn (r & Hk & Hin)%in_map_iff. apply in_rev in Hin.
    pose proof (List.find_none _ _ Hn r Hin) as Hf. by apply bool_decide_eq_false in Hf.
  - intros Hn. destruct (List.find _ (rev rows)) as [r|] eqn:E; [|done].
    apply List.find_some in E as [Hin Hk%bool_decide_eq_true]. apply in_rev in Hin. exfalso. apply Hn.
    apply in_map_iff. eauto.
Qed.

Lemma last_with_snoc d rows r : last_with d (rows ++ [r]) = if bool_decide (key r = d) then Some r else last_with d rows.
Proof. unfold last_with. rewrite rev_app_distr. done. Qed.

Lemma keep_last_last_with rows r : In r (keep_last key rows) ↔ last_with (key r) rows = Some r.
Proof.
  rewrite keep_last_In. split.
  - intros (l1 & l2 & -> & Hl2). unfold last_with. rewrite rev_app_distr. cbn [rev].
    rewrite <- app_assoc. apply key_in_false in Hl2. revert Hl2. induction l2 as [|x l2 IH] using rev_ind; intros Hl2.
    + cbn. by rewrite bool_decide_eq_true_2.
    + rewrite rev_app_distr. cbn [rev app List.find]. rewrite map_app, in_app_iff in Hl2. cbn in Hl2.
      rewrite bool_decide_eq_false_2 by (intros E; tauto). apply IH. tauto.
  - induction rows as [|x rows IH] using rev_ind; [done|]. rewrite last_with_snoc. case_bool_decide as Ek.
    + intros [= ->]. exists rows, []. split; [done|]. done.
    + intros Hl. destruct (IH Hl) as (l1 & l2 & -> & Hl2). exists l1, (l2 ++ [x]). rewrite <- app_assoc. split; [done|].
      apply key_in_false. apply key_in_false in Hl2. rewrite map_app, in_app_iff. cbn. intros [?|[?|[]]]; congruence.
Qed.

Lemma last_with_rows_for rows r : last_with (key r) (rows_for (part r) rows) = last_with (key r) rows.
Proof.
  unfold rows_for. induction rows as [|x rows IH] using rev_ind; [done|]. rewrite filter_app. cbn [List.filter].
  destruct (bool_decide (part x = part r)) eqn:Ep.
  - rewrite !last_with_snoc. by rewrite IH.
  - rewrite app_nil_r, last_with_snoc, IH. apply bool_decide_eq_false in Ep.
    rewrite bool_decide_eq_false_2; [done|]. intros Ek. by apply Ep, key_part.
Qed.

Lemma recorded_key batches d r : recorded batches d = Some r → key r = d.
Proof.
  unfold recorded. induction batches as [|b batches IH] using rev_ind; [done|]. rewrite fold_left_app. cbn [fold_left].
  destruct (fold_left _ batches None); [done|]. by intros [? _]%last_with_key.
Qed.

Lemma recorded_snoc batches rows d :
  recorded (batches ++ [rows]) d = match recorded batches d with Some r => Some r | None => last_with d rows end.
Proof. unfold recorded. by rewrite fold_left_app. Qed.

Lemma holds_key a batches r : holds a batches →
  In (key r) (map key (rows_at a (part r))) ↔ is_Some (recorded batches (key r)).
Proof.
  intros (_ & _ & Hh). rewrite in_map_iff. split.
  - intros (x & Hk & Hin). apply Hh in Hin as [_ Hx]. rewrite <- Hk, Hx. eauto.
  - intros [x Hx]. pose proof (recorded_key _ _ _ Hx) as Hk. exists x. split; [done|]. apply Hh.
    split; [by apply key_part|]. by rewrite Hk.
Qed.

(** A write adds the batch to what the archive holds, and counts every row once. *)
Lemma write_holds a batches rows a' w d : holds a batches → write_rows rows a = (a', w, d) →
  holds a' (batches ++ [rows]) ∧ w + d = Z.of_nat (length rows) ∧ 0 <= w ∧ 0 <= d.
Proof.
  intros Hh E. destruct (write_rows_spec _ _ _ _ _ E) as (N & P & C & Hw & Hd & _).
  pose proof Hh as (Ha & Hnd & Hin). split; [|done].
  assert (Hfresh : forall k r, In r (fresh (rows_at a k) (rows_for k rows)) ↔
    part r = k ∧ last_with (key r) rows = Some r ∧ recorded batches (key r) = None).
  { intros k r. unfold fresh. rewrite filter_In, keep_last_last_with, negb_true_iff, key_in_false. split.
    - intros [Hl Hk]. pose proof (last_with_key _ _ _ Hl) as [_ Hp%rows_for_part]. subst k.
      rewrite last_with_rows_for in Hl. rewrite (holds_key a batches) in Hk by done.
      split; [done|]. split; [done|]. by apply eq_None_not_Some.
    - intros (<- & Hl & Hn). rewrite last_with_rows_for. split; [done|]. rewrite (holds_key a batches) by done.
      by apply eq_None_not_Some. }
  split; [by apply N|]. split.
  - intros k. eapply Permutation_NoDup; [symmetry; apply Permutation_map, P|]. rewrite map_app.
    apply List.NoDup_app; [done| |].
    + unfold fresh. apply NoDup_map_filter. apply keep_last_NoDup.
    + intros x Hx (r & <- & Hr)%in_map_iff. apply Hfresh in Hr as (<- & _ & Hn).
      apply (holds_key a batches) in Hx; [|done]. rewrite Hn in Hx. by destruct Hx.
  - intros k r. rewrite (Permutation_In_iff (P k)), in_app_iff, Hin, Hfresh, recorded_snoc.
    destruct (recorded batches (key r)) as [x|] eqn:Er; [|naive_solver]. split; [naive_solver|].
    intros [Hk [= ->]]. by left.
Qed.

(** Writing a batch that is already held changes nothing and counts every row as a duplicate. *)
Lemma write_again a batches rows a' w d : holds a batches → In rows batches → write_rows rows a = (a', w, d) →
  w = 0 ∧ d = Z.of_nat (length rows) ∧ holds a' batches.
Proof.
  intros Hh Hb E. destruct (write_rows_spec _ _ _ _ _ E) as (_ & _ & C & _ & _ & Z0).
  destruct (write_holds _ _ _ _ _ _ Hh E) as [(H1 & H2 & H3) _].
  assert (Hrec : forall r, In r rows → is_Some (recorded batches (key r))).
  { intros r Hr. apply in_split in Hb as (b1 & b2 & ->). clear -Hr. unfold recorded. rewrite fold_left_app. cbn [fold_left].
    assert (Hkeep : forall bs x, fold_left (fun acc rows => match acc with Some r => Some r | None => last_with (key r) rows end) bs (Some x) = Some x)
      by (intros bs x; induction bs; done).
    destruct (fold_left _ b1 None); [rewrite Hkeep; eauto|].
    destruct (last_with (key r) rows) as [x|] eqn:El; [rewrite Hkeep; eauto|].
    exfalso. apply last_with_None in El. apply El. by apply in_map. }
  assert (w = 0) as ->.
  { apply Z0. intros r Hr. apply key_in_spec, (holds_key a batches); [done|]. by apply Hrec. }
  split; [done|]. split; [lia|]. split; [done|]. split; [done|]. intros k r. rewrite H3, recorded_snoc.
  destruct (recorded batches (key r)) as [x|] eqn:Er; [done|].
  split; [|naive_solver]. intros [_ Hl%last_with_key]. destruct Hl as [_ Hr]. apply Hrec in Hr. rewrite Er in Hr. by destruct Hr.
Qed.

(** *** Reading *)
Variable path_leb : K -> K -> bool. (* the order of the file names *)

(** The frames of the partitions [p] selects, in the order of their files. *)
Definition files (p : K -> bool) (a : archive) : list (frame R) :=
  map snd (sort_by (fun x y => path_leb (fst x) (fst y)) (List.filter (fun kf => p (fst kf)) a)).

Definition read_rows (p : K -> bool) (q : R -> bool) (a : archive) : list R :=
  match files p a with
  | [] => []
  | fs => pl_rows (pl_sort leb (pl_filter q (pl_concat fs)))
  end.

Lemma read_rows_spec p q a batches : holds a batches →
  StronglySorted (fun x y => leb x y = true) (read_rows p q a) ∧ List.NoDup (map key (read_rows p q a)) ∧
  forall r, In r (read_rows p q a) ↔ p (part r) = true ∧ q r = true ∧ recorded batches (key r) = Some r.
Proof.
  intros (Ha & Hnd & Hin).
  set (all := concat (map (fun kf => pl_rows (snd kf)) (List.filter (fun kf => p (fst kf)) a))).
  assert (Hperm : Permutation (read_rows p q a) (List.filter q all)).
  { unfold read_rows, files. set (l := List.filter _ a) in *.
    pose proof (sort_by_perm (fun x y => path_leb (fst x) (fst y)) l) as Hp.
    set (sl := sort_by _ l) in *. subst all. assert (E : map (fun kf => pl_rows (snd kf)) sl = map pl_rows (map snd sl)) by (by rewrite map_map).
    destruct (map snd sl) as [|f fs] eqn:Es.
    - assert (sl = []) as Hs by (by destruct sl). rewrite Hs in Hp. apply Permutation_sym, Permutation_nil in Hp. by rewrite Hp.
    - rewrite rows_sort, rows_filter, rows_concat, <- E. apply Permutation_filter.
      rewrite <- !flat_map_concat_map. by apply Permutation_flat_map. }
  assert (Hall : forall r, In r all ↔ p (part r) = true ∧ recorded batches (key r) = Some r).
  { intros r. unfold all. rewrite in_concat. split.
    - intros (l & Hl & Hr). apply in_map_iff in Hl as ([k f] & <- & Hk). apply filter_In in Hk as [Hk Hp].
      cbn in *. assert (Hr' : In r (rows_at a k)) by (unfold rows_at; by rewrite (In_dget _ _ _ Ha Hk)).
      apply Hin in Hr' as [<- Hrec]. done.
    - intros [Hp Hrec]. assert (Hr : In r (rows_at a (part r))) by (by apply Hin). unfold rows_at in Hr.
      destruct (dget (part r) a) as [f|] eqn:Ef; [|done]. exists (pl_rows f). split; [|done].
      apply in_map_iff. exists (part r, f). split; [done|]. apply filter_In. split; [by apply dget_In|done]. }
  split; [|split].
  - unfold read_rows. destruct (files p a); [constructor|by apply rows_sorted].
  - eapply Permutation_NoDup; [symmetry; apply Permutation_map, Hperm|]. apply NoDup_map_filter. unfold all.
    clear -Ha Hnd Hin key_part. assert (Hsub : forall k f, In (k, f) a → rows_at a k = pl_rows f)
      by (intros k f Hk; unfold rows_at; by rewrite (In_dget _ _ _ Ha Hk)).
    assert (Hinc : forall kf, In kf (List.filter (fun kf => p (fst kf)) a) → In kf a) by (by intros kf [? _]%filter_In).
    assert (Hk : List.NoDup (map fst (List.filter (fun kf => p (fst kf)) a))) by (by apply NoDup_map_filter).
    revert Hk Hinc. generalize (List.filter (fun kf => p (fst kf)) a). intros l Hk Hinc.
    induction l as [|[k f] l IH]; [constructor|]. cbn [map concat fst snd] in *. rewrite map_app.
    apply List.NoDup_cons_iff in Hk as [Hnk Hk]. apply List.NoDup_app.
    + rewrite <- (Hsub k f) by (apply Hinc; by left). apply Hnd.
    + apply IH; [done|]. intros; apply Hinc. by right.
    + intros d (r & <- & Hr)%in_map_iff (r2 & Ek & Hr2)%in_map_iff.
      apply in_concat in Hr2 as (l2 & ([k2 f2] & <- & Hkf2)%in_map_iff & Hr2). cbn in Hr2.
      rewrite <- (Hsub k f) in Hr by (apply Hinc; by left). rewrite <- (Hsub k2 f2) in Hr2 by (apply Hinc; by right).
      apply Hin in Hr as [E1 _]. apply Hin in Hr2 as [E2 _]. apply key_part in Ek. apply Hnk.
      apply in_map_iff. exists (k2, f2). split; [cbn; congruence|done].
  - intros r. rewrite (Permutation_In_iff Hperm), filter_In, Hall. tauto.
Qed.
End Writes.

(** ** Frames as lists: one implementation of the laws *)
Module ListFrames.
#[local] Instance list_frames : Polars := {
  frame R := list R;
  pl_DataFrame R l := l;
  pl_rows R f := f;
  pl_unique R D _ key f := keep_last key f;
  pl_anti_join R D _ key f g := List.filter (fun r => negb (key_in key g r)) f;
  pl_concat R l := concat l;
  pl_sort R leb f := sort_by leb f;
  pl_filter R p f := List.filter p f;
}.

#[local] Instance list_frames_laws : PolarsLaws.
Proof.
  constructor; try done.
  - intros R l. cbn. by rewrite map_id.
  - intros R leb f. symmetry. apply sort_by_perm.
  - intros R leb f Ht Htr. by apply sort_by_sorted.
Qed.
End ListFrames.
