(* ===== verification/Storage.v ===== *)
(** * storage/abcs.py, parquet_settle_store.py and parquet_store.py: the Parquet archives

    The query and the result of the storage interface, and the settle and bar stores over the shared
    archive of [Store].  A frame's row is a record with the columns the stores write; decimals are
    stored as text. *)

From S2P Require Import Prelude PyDecimal PyText PyTime PyParse Types Store.

#[local] Open Scope Z_scope.

(** ** abcs.py *)

(** The path of the location written to is left out. *)
Record StoreWriteResult := { rows_written : Z; dedupe_count : Z }.

Definition StoreWriteResult_post_init (r : StoreWriteResult) : result StoreWriteResult :=
  guard! rows_written r <? 0 else ValueError in
  guard! dedupe_count r <? 0 else ValueError in
  Ok r.

Definition total_submitted (r : StoreWriteResult) : Z := rows_written r + dedupe_count r.

Record StoreQuery := {
  q_contract : ContractSymbol;
  q_ts_start : datetime;
  q_ts_end : datetime;
  q_resolution : option BarResolution;
  q_inclusive_end : bool;
}.

Definition StoreQuery_post_init (q : StoreQuery) : result StoreQuery :=
  guard! dt_naive (q_ts_start q) else ValueError in
  guard! dt_naive (q_ts_end q) else ValueError in
  guard! dt_leb (q_ts_end q) (q_ts_start q) else ValueError in
  Ok q.

Definition _SYMBOL_SUFFIX_LEN : nat := 3.

(** [s[:-3]] of a symbol that is longer. *)
Definition symbol_root (contract : ContractSymbol) : result string :=
  guard! (String.length contract <=? _SYMBOL_SUFFIX_LEN)%nat else StorageError in
  Ok (str_drop_last _SYMBOL_SUFFIX_LEN contract).

Definition root_of (contract : string) : string := str_drop_last _SYMBOL_SUFFIX_LEN contract.

Lemma symbol_root_of contract root : symbol_root contract = Ok root → root = root_of contract.
Proof. unfold symbol_root. by intros (? & _ & [= <-])%rbind_Ok. Qed.

(** [t.astimezone(UTC)] *)
Definition to_utc (t : datetime) : datetime := DT (dt_instant t) (Some 0).

(** Text order, for the sort keys and the file names. *)
Lemma string_leb_total a b : String.leb a b = true ∨ String.leb b a = true.
Proof. destruct (String.leb_total a b) as [E|E]; rewrite E; auto. Qed.

(** Sorting by a first key, then by a second one. *)
Section Lex.
Context {A : Type} (k1 : A -> Z) (le2 : A -> A -> bool).
Hypothesis le2_total : forall x y, le2 x y = true ∨ le2 y x = true.
Hypothesis le2_trans : forall x y z, le2 x y = true → le2 y z = true → le2 x z = true.

Definition lex_leb (x y : A) : bool := (k1 x <? k1 y) || ((k1 x =? k1 y) && le2 x y).

Lemma lex_total x y : lex_leb x y = true ∨ lex_leb y x = true.
Proof.
  unfold lex_leb. rewrite !orb_true_iff, !andb_true_iff, !Z.ltb_lt, !Z.eqb_eq.
  destruct (Z.lt_total (k1 x) (k1 y)) as [?|[?|?]]; [auto| |auto]. destruct (le2_total x y); auto.
Qed.

Lemma lex_trans x y z : lex_leb x y = true → lex_leb y z = true → lex_leb x z = true.
Proof.
  unfold lex_leb. rewrite !orb_true_iff, !andb_true_iff, !Z.ltb_lt, !Z.eqb_eq.
  intros [?|[? ?]] [?|[? ?]]; [left; lia|left; lia|left; lia|right; split; [congruence|by eapply le2_trans]].
Qed.
End Lex.

(** ** The settle store *)
Module SettleStore.
Record settle_row := {
  sr_contract : string;
  sr_as_of_date : date;
  sr_settle : string;
  sr_settle_state : string;
  sr_open : string;
  sr_high : string;
  sr_low : string;
  sr_last : string;
  sr_change : string;
  sr_volume_est : Z;
  sr_oi_prior : Z;
  sr_source_id : string;
  sr_as_of_iso : option datetime;
  sr_content_bytes_sha : string;
  sr_cme_month_code : string;
}.

Definition SettleState_str (s : SettleState) : string :=
  match s with live => "live" | preliminary => "preliminary" | final => "final" end.

Definition settle_state_of (s : string) : option SettleState :=
  if String.eqb s "live" then Some live
  else if String.eqb s "preliminary" then Some preliminary
  else if String.eqb s "final" then Some final else None.

Definition _SETTLE_STATE_RANK : dict string Z := [("live", 0); ("preliminary", 1); ("final", 2)]%string.

(** [_DEDUPE_SUBSET] *)
Definition settle_key (r : settle_row) : string * date * string * string :=
  (sr_contract r, sr_as_of_date r, sr_settle_state r, sr_content_bytes_sha r).

(** [_sort_exprs]: [replace_strict] refuses a state it does not know. *)
Definition known_state (r : settle_row) : bool := dmem (sr_settle_state r) _SETTLE_STATE_RANK.
Definition state_rank (r : settle_row) : Z := dget_or (sr_settle_state r) 0 _SETTLE_STATE_RANK.
Definition settle_leb : settle_row -> settle_row -> bool :=
  lex_leb sr_as_of_date (lex_leb state_rank (fun x y => String.leb (sr_content_bytes_sha x) (sr_content_bytes_sha y))).

(** The partition of a row: its root and its year. *)
Definition settle_part (r : settle_row) : string * Z := (root_of (sr_contract r), year_of (sr_as_of_date r)).

Definition year_leb (a b : string * Z) : bool :=
  String.leb (String.append "year=" (str_int (snd a))) (String.append "year=" (str_int (snd b))).

Definition _settle_to_row (s : Settle) : settle_row := {|
  sr_contract := st_contract s; sr_as_of_date := st_as_of_date s; sr_settle := str_decimal (st_settle s);
  sr_settle_state := SettleState_str (st_settle_state s); sr_open := str_decimal (st_open s);
  sr_high := str_decimal (st_high s); sr_low := str_decimal (st_low s); sr_last := str_decimal (st_last s);
  sr_change := str_decimal (st_change s); sr_volume_est := st_volume_est s; sr_oi_prior := st_oi_prior s;
  sr_source_id := st_source_id s; sr_as_of_iso := option_map to_utc (st_as_of_iso s);
  sr_content_bytes_sha := st_content_bytes_sha s; sr_cme_month_code := st_cme_month_code s |}.

Definition _row_to_settle (r : settle_row) : result Settle :=
  let! state := of_option (settle_state_of (sr_settle_state r)) StorageError in
  let! settle := decimal_of_str (sr_settle r) in
  let! open := decimal_of_str (sr_open r) in
  let! high := decimal_of_str (sr_high r) in
  let! low := decimal_of_str (sr_low r) in
  let! last := decimal_of_str (sr_last r) in
  let! change := decimal_of_str (sr_change r) in
  Settle_post_init {|
    st_contract := sr_contract r; st_as_of_date := sr_as_of_date r; st_settle := settle;
    st_settle_state := state; st_open := open; st_high := high; st_low := low; st_last := last;
    st_change := change; st_volume_est := sr_volume_est r; st_oi_prior := sr_oi_prior r;
    st_source_id := sr_source_id r; st_as_of_iso := sr_as_of_iso r;
    st_content_bytes_sha := sr_content_bytes_sha r; st_cme_month_code := sr_cme_month_code r |}.

Section Ops.
Context `{Polars}.

Definition ParquetSettleStore : Type := dict (string * Z) (frame settle_row).

(** The groups before the first one whose file holds a state the sort does not know. *)
Fixpoint sortable_groups (store : ParquetSettleStore) (groups : dict (string * Z) (list settle_row))
    : dict (string * Z) (list settle_row) :=
  match groups with
  | [] => []
  | (k, rows) :: groups =>
      if forallb known_state (rows_at store k) then (k, rows) :: sortable_groups store groups else []
  end.

(** The grouping raises before anything is written; a file that cannot be sorted stops the loop where
    it stands. *)
Definition write_settles (settles : list Settle) : M ParquetSettleStore StoreWriteResult :=
  match settles with
  | [] => lift (StoreWriteResult_post_init {| rows_written := 0; dedupe_count := 0 |})
  | _ =>
      _ <- lift (rmap (fun s => symbol_root (st_contract s)) settles) ;;
      store <- get ;;
      let groups := group_rows settle_part (map _settle_to_row settles) in
      let good := sortable_groups store groups in
      let '(store', written, deduped) := fold_left (write_group settle_key settle_leb) good (store, 0, 0) in
      modify (fun _ => store') ;;
      _ <- lift (reject (length good <? length groups)%nat PolarsError) ;;
      lift (StoreWriteResult_post_init {| rows_written := written; dedupe_count := deduped |})
  end.

Definition in_range (contract : ContractSymbol) (as_of_date_start as_of_date_end : date) (r : settle_row) : bool :=
  String.eqb (sr_contract r) contract && (as_of_date_start <=? sr_as_of_date r) && (sr_as_of_date r <=? as_of_date_end).

Definition read_settles (store : ParquetSettleStore) (contract : ContractSymbol)
    (as_of_date_start as_of_date_end : date) : result (list Settle) :=
  guard! as_of_date_end <? as_of_date_start else ValueError in
  let! root := symbol_root contract in
  let rows := read_rows settle_leb year_leb (fun k => String.eqb (fst k) root)
                (in_range contract as_of_date_start as_of_date_end) store in
  guard! existsb (fun r => negb (known_state r)) rows else PolarsError in
  rmap _row_to_settle rows.
End Ops.

(** *** Facts *)

(** A settle as it comes back: its snapshot instant in UTC. *)
Definition settle_utc (s : Settle) : Settle := {|
  st_contract := st_contract s; st_as_of_date := st_as_of_date s; st_settle := st_settle s;
  st_settle_state := st_settle_state s; st_open := st_open s; st_high := st_high s; st_low := st_low s;
  st_last := st_last s; st_change := st_change s; st_volume_est := st_volume_est s;
  st_oi_prior := st_oi_prior s; st_source_id := st_source_id s;
  st_as_of_iso := option_map to_utc (st_as_of_iso s); st_content_bytes_sha := st_content_bytes_sha s;
  st_cme_month_code := st_cme_month_code s |}.

(** A settle the constructor accepts, for a symbol with a root. *)
Definition storable (s : Settle) : Prop := Settle_post_init s = Ok s ∧ exists root, symbol_root (st_contract s) = Ok root.

Lemma row_roundtrip s : Settle_post_init s = Ok s → _row_to_settle (_settle_to_row s) = Ok (settle_utc s).
Proof.
  intros Hs. unfold _row_to_settle, _settle_to_row. cbn.
  assert (E : settle_state_of (SettleState_str (st_settle_state s)) = Some (st_settle_state s)) by (by destruct (st_settle_state s)).
  rewrite E. cbn [of_option rbind]. do 6 (rewrite decimal_roundtrip; cbn [rbind]).
  unfold Settle_post_init in *. cbn [st_as_of_iso settle_utc st_high st_low st_volume_est st_oi_prior st_content_bytes_sha] in *.
  destruct s as [c d se ss o h l la ch v oi src [t|] sha mc]; cbn in *; [|exact Hs].
  destruct (_assert_tz_aware t) as [u|]; [|done]. cbn [rbind] in Hs. cbn.
  destruct (reject (dltb h l) ValueError); [|done]. cbn [rbind] in *.
  destruct (reject (v <? 0) ValueError); [|done]. cbn [rbind] in *.
  destruct (reject (oi <? 0) ValueError); [|done]. cbn [rbind] in *.
  destruct (reject _ ValueError); done.
Qed.

Lemma settle_key_part r1 r2 : settle_key r1 = settle_key r2 → settle_part r1 = settle_part r2.
Proof. unfold settle_key, settle_part. by intros [= -> -> _ _]. Qed.

Lemma sha_total (x y : settle_row) : String.leb (sr_content_bytes_sha x) (sr_content_bytes_sha y) = true
  ∨ String.leb (sr_content_bytes_sha y) (sr_content_bytes_sha x) = true.
Proof. apply string_leb_total. Qed.

Lemma settle_leb_total x y : settle_leb x y = true ∨ settle_leb y x = true.
Proof. apply lex_total, lex_total, sha_total. Qed.

Lemma settle_leb_trans x y z : settle_leb x y = true → settle_leb y z = true → settle_leb x z = true.
Proof. apply lex_trans, lex_trans. intros a b c. apply string_leb_trans. Qed.

Lemma to_row_known s : known_state (_settle_to_row s) = true.
Proof. unfold known_state. cbn. by destruct (st_settle_state s). Qed.

Section Facts.
Context `{PolarsLaws}.

Notation recorded := (@recorded settle_row (string * date * string * string) _ settle_key).
Notation holds := (@holds _ settle_row (string * Z) (string * date * string * string) _ _ settle_part settle_key).

Definition rows_of (batches : list (list Settle)) : list (list settle_row) := map (map _settle_to_row) batches.

(** The store after a sequence of writes. *)
Definition written (batches : list (list Settle)) : ParquetSettleStore :=
  fold_left (fun store b => fst (write_settles b store)) batches [].

Lemma recorded_In batches d r : recorded batches d = Some r → exists rows, In rows batches ∧ In r rows.
Proof.
  induction batches as [|b batches IH] using rev_ind; [done|]. rewrite recorded_snoc.
  destruct (recorded batches d) as [x|].
  - intros [= ->]. destruct (IH eq_refl) as (rows & H1 & H2). exists rows. rewrite in_app_iff. auto.
  - intros [_ Hin]%last_with_key. exists b. rewrite in_app_iff. split; [right; by left|done].
Qed.

Lemma recorded_settle batches d r : recorded (rows_of batches) d = Some r →
  exists s, In s (concat batches) ∧ r = _settle_to_row s.
Proof.
  intros (rows & (b & <- & Hb)%in_map_iff & (s & <- & Hs)%in_map_iff)%recorded_In.
  exists s. split; [|done]. apply in_concat. eauto.
Qed.

Lemma sortable_all store groups : (forall k r, In r (rows_at store k) → known_state r = true) →
  sortable_groups store groups = groups.
Proof.
  intros Hk. induction groups as [|[k rows] groups IH]; [done|]. cbn [sortable_groups].
  assert (E : forallb known_state (rows_at store k) = true) by (apply forallb_forall; eauto). rewrite E. by f_equal.
Qed.

Lemma write_step batches b store : holds store (rows_of batches) → Forall storable b →
  exists store' w d, write_settles b store = (store', Ok {| rows_written := w; dedupe_count := d |}) ∧
    holds store' (rows_of (batches ++ [b])) ∧ w + d = Z.of_nat (length b) ∧ 0 <= w ∧ 0 <= d ∧
    (In b batches → w = 0 ∧ holds store' (rows_of batches)).
Proof.
  intros Hh Hb. unfold rows_of. rewrite map_app. cbn [map]. fold (rows_of batches).
  destruct b as [|s b].
  { exists store, 0, 0. split; [done|]. cbn [map length]. split; [|split_and!; try lia; done].
    destruct Hh as (H1 & H2 & H3). split; [done|]. split; [done|]. intros k r. rewrite H3, recorded_snoc.
    by destruct (recorded _ _). }
  assert (Hroots : exists roots, rmap (fun s => symbol_root (st_contract s)) (s :: b) = Ok roots).
  { destruct (rmap_total (fun s => symbol_root (st_contract s)) (s :: b)) as (l & El & _); [|eauto].
    intros x Hx. rewrite List.Forall_forall in Hb. by destruct (Hb _ Hx). }
  destruct Hroots as [roots Hroots]. set (rows := map _settle_to_row (s :: b)) in *.
  destruct (write_rows settle_part settle_key settle_leb rows store) as [[store' w] d] eqn:Ew.
  pose proof (write_holds settle_part settle_key settle_leb settle_key_part settle_leb_total settle_leb_trans
    _ _ _ _ _ _ Hh Ew) as (Hh' & Hwd & Hw & Hd).
  exists store', w, d. split; [|split; [exact Hh'|]].
  - unfold write_settles, bind, lift, get. rewrite Hroots. fold rows.
    rewrite sortable_all.
    + change (fold_left (write_group settle_key settle_leb) (group_rows settle_part rows) (store, 0, 0))
        with (write_rows settle_part settle_key settle_leb rows store). rewrite Ew.
      rewrite Nat.ltb_irrefl. cbn [modify reject fst snd]. unfold StoreWriteResult_post_init. cbn.
      apply Z.ltb_ge in Hw, Hd. by rewrite Hw, Hd.
    + intros k r Hr. destruct Hh as (_ & _ & Hin). apply Hin in Hr as [_ Hr]. apply recorded_settle in Hr as (x & _ & ->).
      apply to_row_known.
  - unfold rows in Hwd. rewrite length_map in Hwd. do 3 (split; [done|]). intros Hin.
    destruct (write_again settle_part settle_key settle_leb settle_key_part settle_leb_total settle_leb_trans
      _ _ _ _ _ _ Hh (in_map _ _ _ Hin) Ew) as (H1 & _ & H3). done.
Qed.

Lemma holds_nil : holds [] [].
Proof. split; [constructor|]. split; [constructor|]. intros k r. by split; [intros []|intros [_ ?]]. Qed.

Lemma written_holds batches : Forall (Forall storable) batches → holds (written batches) (rows_of batches).
Proof.
  induction batches as [|b batches IH] using rev_ind; intros Hall; [apply holds_nil|].
  apply Forall_app in Hall as [Hall Hb]. inversion Hb as [|? ? Hb1 _]; subst.
  unfold written. rewrite fold_left_app. cbn [fold_left]. fold (written batches).
  destruct (write_step batches b _ (IH Hall) Hb1) as (st & w & d & E & Hh & _). by rewrite E.
Qed.

(** Chronological order of what is read: by business date, then preliminary before final. *)
Definition chrono (a b : Settle) : Prop := settle_leb (_settle_to_row a) (_settle_to_row b) = true.

(** The settles a sequence of batches keeps: of the submissions with the same contract, date, state and
    content hash, the last one of the first batch that has any. *)
Definition kept (batches : list (list Settle)) (s : Settle) : Prop :=
  In s (concat batches) ∧ recorded (rows_of batches) (settle_key (_settle_to_row s)) = Some (_settle_to_row s).

Definition wanted (contract : ContractSymbol) (lo hi : date) (s : Settle) : Prop :=
  st_contract s = contract ∧ lo <= st_as_of_date s <= hi.

Lemma read_holds store batches contract lo hi : holds store (rows_of batches) → Forall (Forall storable) batches →
  lo <= hi → (exists root, symbol_root contract = Ok root) →
  exists rows out, read_rows settle_leb year_leb (fun k => String.eqb (fst k) (root_of contract)) (in_range contract lo hi) store = rows ∧
    Forall2 (fun r s => exists s0, kept batches s0 ∧ wanted contract lo hi s0 ∧ r = _settle_to_row s0 ∧ s = settle_utc s0) rows out ∧
    read_settles store contract lo hi = Ok out.
Proof.
  intros Hh Hall Hle [root Hroot]. unfold read_settles. apply Z.ltb_ge in Hle. rewrite Hle. cbn [reject rbind].
  rewrite Hroot. cbn [rbind]. assert (root = root_of contract) as ->.
  { unfold symbol_root in Hroot. by apply rbind_Ok in Hroot as (? & _ & [= <-]). }
  destruct (read_rows_spec settle_part settle_key settle_leb settle_key_part settle_leb_total settle_leb_trans year_leb
    (fun k => String.eqb (fst k) (root_of contract)) (in_range contract lo hi) _ _ Hh) as (_ & _ & Hin).
  set (rows := read_rows _ _ _ _ _) in *. exists rows.
  assert (Hrow : forall r, In r rows → exists s0, kept batches s0 ∧ wanted contract lo hi s0 ∧ r = _settle_to_row s0 ∧ storable s0).
  { intros r Hr. apply Hin in Hr as (_ & Hq & Hrec). destruct (recorded_settle _ _ _ Hrec) as (s & Hs & ->).
    exists s. unfold kept, wanted. unfold in_range in Hq. cbn in Hq. apply andb_true_iff in Hq as [[Hc%String.eqb_eq H1%Z.leb_le]%andb_true_iff H2%Z.leb_le].
    split; [done|]. split; [done|]. split; [done|]. apply in_concat in Hs as (b & Hb & Hs).
    rewrite List.Forall_forall in Hall. specialize (Hall _ Hb). rewrite List.Forall_forall in Hall. by apply Hall. }
  assert (Hknown : existsb (fun r => negb (known_state r)) rows = false).
  { destruct (existsb _ rows) eqn:E; [|done]. apply existsb_exists in E as (r & Hr & Hk).
    destruct (Hrow _ Hr) as (s0 & _ & _ & -> & _). by rewrite to_row_known in Hk. }
  rewrite Hknown. cbn [reject rbind]. clear -Hrow.
  induction rows as [|r rows IH]; [by exists []|].
  destruct (Hrow r ltac:(by left)) as (s0 & Hk & Hw & -> & Hst & _).
  destruct IH as (out & Eo & Hf & Hr); [intros; apply Hrow; by right|].
  exists (settle_utc s0 :: out). split; [done|]. split; [constructor; [by exists s0|done]|].
  cbn [rmap]. rewrite row_roundtrip by done. cbn [rbind]. by rewrite Hr.
Qed.

Lemma to_row_utc s : settle_key (_settle_to_row (settle_utc s)) = settle_key (_settle_to_row s)
  ∧ state_rank (_settle_to_row (settle_utc s)) = state_rank (_settle_to_row s)
  ∧ (forall x, settle_leb (_settle_to_row (settle_utc s)) x = settle_leb (_settle_to_row s) x)
  ∧ (forall x, settle_leb x (_settle_to_row (settle_utc s)) = settle_leb x (_settle_to_row s)).
Proof. done. Qed.

(** Rows of one contract that no sort key separates have the same dedupe key. *)
Lemma settle_leb_antisym x y : sr_contract x = sr_contract y → known_state x = true → known_state y = true →
  settle_leb x y = true → settle_leb y x = true → settle_key x = settle_key y.
Proof.
  intros Hc Hx Hy. unfold settle_leb, lex_leb. rewrite !orb_true_iff, !andb_true_iff, !orb_true_iff, !andb_true_iff.
  rewrite !Z.ltb_lt, !Z.eqb_eq. unfold date in *.
  intros [?|[Ed [?|[Er Es]]]] [?|[Ed2 [?|[Er2 Es']]]]; try lia. unfold settle_key.
  assert (Est : sr_settle_state x = sr_settle_state y).
  { unfold known_state, state_rank, dmem, dget_or, _SETTLE_STATE_RANK in *. cbn [dget] in *.
    repeat (case_decide; cbn iota in *; try congruence); lia. }
  assert (Esha : sr_content_bytes_sha x = sr_content_bytes_sha y) by (by apply String.leb_antisym).
  unfold date. congruence.
Qed.

Lemma read_rows_same st1 st2 batches contract lo hi : holds st1 (rows_of batches) → holds st2 (rows_of batches) →
  let read st := read_rows settle_leb year_leb (fun k => String.eqb (fst k) (root_of contract)) (in_range contract lo hi) st in
  read st1 = read st2.
Proof.
  intros H1 H2. cbn zeta.
  destruct (read_rows_spec settle_part settle_key settle_leb settle_key_part settle_leb_total settle_leb_trans year_leb
    (fun k => String.eqb (fst k) (root_of contract)) (in_range contract lo hi) _ _ H1) as (S1 & N1 & I1).
  destruct (read_rows_spec settle_part settle_key settle_leb settle_key_part settle_leb_total settle_leb_trans year_leb
    (fun k => String.eqb (fst k) (root_of contract)) (in_range contract lo hi) _ _ H2) as (S2 & N2 & I2).
  apply (sorted_unique (fun x y => settle_leb x y = true)); [done|done| |].
  - apply Permutation.NoDup_Permutation; [by eapply NoDup_map_inv|by eapply NoDup_map_inv|]. intros r. by rewrite I1, I2.
  - intros x y Hx Hy Hxy Hyx. apply I1 in Hx as (_ & Qx & Rx). apply I1 in Hy as (_ & Qy & Ry).
    destruct (recorded_settle _ _ _ Rx) as (sx & _ & Ex). destruct (recorded_settle _ _ _ Ry) as (sy & _ & Ey).
    assert (Hk : settle_key x = settle_key y); [|rewrite Hk in Rx; congruence].
    apply settle_leb_antisym; [|rewrite Ex; apply to_row_known|rewrite Ey; apply to_row_known|done|done].
    unfold in_range in Qx, Qy. rewrite !andb_true_iff, !String.eqb_eq in Qx, Qy.
    destruct Qx as [[-> _] _], Qy as [[-> _] _]. done.
Qed.

(** C24: the settle archive gives back what was stored, in order, and forgets nothing.  After any
    sequence of writes, reading a contract over an inclusive range of dates returns, in chronological
    order (business date, then live, preliminary, final), exactly the settles kept for it in that
    range, each once, with every price digit for digit and the snapshot instant in UTC; of the
    submissions with the same contract, date, state and content hash one is kept, so a preliminary
    settle, its final one and later revisions all stay, and whatever is kept stays kept by every later
    write. *)
Theorem settle_store_faithful batches contract lo hi :
  Forall (Forall storable) batches → lo <= hi → (exists root, symbol_root contract = Ok root) →
  exists out, read_settles (written batches) contract lo hi = Ok out ∧ StronglySorted chrono out ∧ List.NoDup out ∧
    (forall s, In s out ↔ exists s0, kept batches s0 ∧ wanted contract lo hi s0 ∧ s = settle_utc s0) ∧
    (forall more s, kept batches s → kept (batches ++ more) s).
Proof.
  intros Hall Hle Hroot. pose proof (written_holds _ Hall) as Hh.
  destruct (read_holds _ _ _ _ _ Hh Hall Hle Hroot) as (rows & out & Er & Hf & Hread). exists out. split; [done|].
  destruct (read_rows_spec settle_part settle_key settle_leb settle_key_part settle_leb_total settle_leb_trans year_leb
    (fun k => String.eqb (fst k) (root_of contract)) (in_range contract lo hi) _ _ Hh) as (Hs & Hn & Hin).
  rewrite Er in Hs, Hn, Hin. split; [|split; [|split]].
  - clear -Hs Hf. induction Hf as [|r s rows out (s0 & _ & _ & -> & ->) Hf IH]; [constructor|].
    apply StronglySorted_inv in Hs as [Hs Hr]. constructor; [by apply IH|].
    clear -Hr Hf. induction Hf as [|r s rows out (s1 & _ & _ & -> & ->) Hf IH]; [constructor|].
    inversion Hr; subst. constructor; [done|by apply IH].
  - assert (Hmap : map settle_key rows = map (fun s => settle_key (_settle_to_row s)) out).
    { clear -Hf. induction Hf as [|r s rows out (s0 & _ & _ & -> & ->) Hf IH]; [done|]. cbn [map]. by rewrite IH. }
    rewrite Hmap in Hn. by eapply NoDup_map_inv.
  - intros s. split.
    + intros Hs0. clear -Hf Hs0. induction Hf as [|r x rows out (s0 & H1 & H2 & _ & ->) Hf IH]; [done|].
      destruct Hs0 as [<-|Hs0]; [by exists s0|auto].
    + intros (s0 & [Hc Hk] & [Ec Ed] & ->).
      assert (Hr : In (_settle_to_row s0) rows).
      { apply Hin. split; [|split; [|done]].
        - cbn. rewrite Ec. apply String.eqb_refl.
        - unfold in_range. cbn. rewrite Ec, String.eqb_refl. rewrite !andb_true_iff, !Z.leb_le. lia. }
      clear -Hf Hr Hk. induction Hf as [|r x rows out (s1 & _ & _ & -> & ->) Hf IH]; [done|].
      destruct Hr as [E|Hr]; [left|by right; apply IH]. clear -E. destruct s0, s1. unfold _settle_to_row in E. cbn in *.
      injection E as -> -> Es Est Eo Eh El Ela Ech -> -> -> Eas -> ->. unfold settle_utc. cbn. rewrite Eas.
      repeat match goal with E : str_decimal _ = str_decimal _ |- _ =>
        apply (f_equal decimal_of_str) in E; rewrite !decimal_roundtrip in E; injection E as -> end.
      by destruct st_settle_state, st_settle_state0; try discriminate Est.
  - intros more s [Hc Hk]. split; [rewrite concat_app; apply in_app_iff; by left|]. unfold rows_of in *. rewrite map_app.
    unfold recorded in *. rewrite fold_left_app, Hk. clear. induction (map _ more); [done|]. exact IHl.
Qed.

(** writing is idempotent and counts honestly.  A write reports every submitted settle either as
    written or as a duplicate; submitting again a batch that was already written reports no row
    written and every row a duplicate, and every read afterwards answers exactly as before. *)
Theorem settle_store_idempotent batches b : Forall (Forall storable) batches → Forall storable b →
  exists store' w d, write_settles b (written batches) = (store', Ok {| rows_written := w; dedupe_count := d |}) ∧
    w + d = Z.of_nat (length b) ∧ 0 <= w <= Z.of_nat (length b) ∧
    (In b batches → w = 0 ∧ forall contract lo hi,
       read_settles store' contract lo hi = read_settles (written batches) contract lo hi).
Proof.
  intros Hall Hb. pose proof (written_holds _ Hall) as Hh.
  destruct (write_step _ _ _ Hh Hb) as (st & w & d & E & Hh' & Hwd & Hw & Hd & Hagain).
  exists st, w, d. split; [done|]. split; [done|]. split; [lia|]. intros Hin. destruct (Hagain Hin) as [Hw0 Hst].
  split; [done|]. intros contract lo hi. unfold read_settles. destruct (reject _ _); [|done]. cbn [rbind].
  destruct (symbol_root contract) as [root|] eqn:Er; [|done]. cbn [rbind].
  assert (root = root_of contract) as ->.
  { unfold symbol_root in Er. by apply rbind_Ok in Er as (? & _ & [= <-]). }
  pose proof (read_rows_same _ _ _ contract lo hi Hst Hh) as Es. cbn zeta in Es. by rewrite Es.
Qed.
End Facts.

(** *** Witnesses: a preliminary settle, its final one, and the preliminary again *)
#[local] Existing Instances ListFrames.list_frames ListFrames.list_frames_laws.

Definition wit_settle (state : SettleState) (price : Z) : Settle := {|
  st_contract := "ESM26"; st_as_of_date := mk_date 2026 5 22; st_settle := Dec price (-2);
  st_settle_state := state; st_open := Dec 600000 (-2); st_high := Dec 610000 (-2); st_low := Dec 590000 (-2);
  st_last := Dec price (-2); st_change := Dec (-125) (-2); st_volume_est := 1000; st_oi_prior := 2000;
  st_source_id := "cme"; st_as_of_iso := Some (mk_datetime 2026 5 22 18 0 0 0 (Some (-18000)));
  st_content_bytes_sha := content_sha256 "page"; st_cme_month_code := "JUN 26" |}.

Definition wit_batches : list (list Settle) :=
  [[wit_settle final 601325]; [wit_settle preliminary 601250; wit_settle preliminary 601275]].

Lemma wit_storable : Forall (Forall storable) wit_batches.
Proof.
  repeat constructor; (vm_compute; reflexivity) || (exists "ES"%string; vm_compute; reflexivity).
Qed.

Lemma settle_store_faithful_witness : exists out,
  read_settles (written wit_batches) "ESM26" (mk_date 2026 5 22) (mk_date 2026 5 22) = Ok out ∧
  map (fun s => (st_settle_state s, st_settle s)) out = [(preliminary, Dec 601275 (-2)); (final, Dec 601325 (-2))].
Proof.
  destruct (settle_store_faithful wit_batches "ESM26" (mk_date 2026 5 22) (mk_date 2026 5 22)) as (out & E & _).
  - exact wit_storable.
  - unfold date. lia.
  - exists "ES"%string. vm_compute. reflexivity.
  - exists out. split; [exact E|].
    assert (E2 : exists out2, read_settles (written wit_batches) "ESM26" (mk_date 2026 5 22) (mk_date 2026 5 22) = Ok out2 ∧
      map (fun s => (st_settle_state s, st_settle s)) out2 = [(preliminary, Dec 601275 (-2)); (final, Dec 601325 (-2))])
      by (eexists; split; [vm_compute; reflexivity|reflexivity]).
    destruct E2 as (out2 & E2 & Em). rewrite E2 in E. injection E as <-. exact Em.
Defined.

Lemma settle_store_idempotent_witness :
  (exists store', write_settles [wit_settle final 601325] (written wit_batches)
     = (store', Ok {| rows_written := 0; dedupe_count := 1 |}))
  ∧ exists store' w d, write_settles [wit_settle final 601325] (written wit_batches)
      = (store', Ok {| rows_written := w; dedupe_count := d |}) ∧ w + d = 1.
Proof.
  split; [eexists; vm_compute; reflexivity|].
  destruct (settle_store_idempotent wit_batches [wit_settle final 601325] wit_storable) as (st & w & d & E & Hwd & _).
  - pose proof wit_storable as Hall. inversion Hall as [|? ? Hb _]. exact Hb.
  - exists st, w, d. split; [exact E|exact Hwd].
Defined.
End SettleStore.

(** ** The bar store *)
Module BarStore.
Record bar_row := {
  pb_contract : string;
  pb_ts : datetime;
  pb_resolution : string;
  pb_open : string;
  pb_high : string;
  pb_low : string;
  pb_close : string;
  pb_volume : Z;
  pb_oi : option Z;
  pb_source_id : string;
  pb_as_of_iso : datetime;
  pb_content_bytes_sha : string;
}.

(** [BarResolution(value)] *)
Definition resolution_of (s : string) : result BarResolution :=
  of_option (List.find (fun r => String.eqb (BarResolution_value r) s)
    [SEC_1; SEC_5; MIN_1; MIN_5; MIN_15; HOUR_1; DAY_1; SETTLE]) ValueError.

Definition _bar_to_row (b : RawBar) : bar_row := {|
  pb_contract := rb_contract b; pb_ts := to_utc (rb_ts b); pb_resolution := BarResolution_value (rb_resolution b);
  pb_open := str_decimal (rb_open b); pb_high := str_decimal (rb_high b); pb_low := str_decimal (rb_low b);
  pb_close := str_decimal (rb_close b); pb_volume := rb_volume b; pb_oi := rb_oi b;
  pb_source_id := rb_source_id b; pb_as_of_iso := to_utc (rb_as_of_iso b);
  pb_content_bytes_sha := rb_content_bytes_sha b |}.

Definition _row_to_bar (r : bar_row) : result RawBar :=
  let! resolution := resolution_of (pb_resolution r) in
  let! open := decimal_of_str (pb_open r) in
  let! high := decimal_of_str (pb_high r) in
  let! low := decimal_of_str (pb_low r) in
  let! close := decimal_of_str (pb_close r) in
  RawBar_post_init {|
    rb_contract := pb_contract r; rb_ts := pb_ts r; rb_resolution := resolution; rb_open := open;
    rb_high := high; rb_low := low; rb_close := close; rb_volume := pb_volume r; rb_oi := pb_oi r;
    rb_source_id := pb_source_id r; rb_as_of_iso := pb_as_of_iso r;
    rb_content_bytes_sha := pb_content_bytes_sha r |}.

(** [_DEDUPE_SUBSET], with the instant of the bar *)
Definition bar_key (r : bar_row) : string * Z * string * string :=
  (pb_contract r, dt_instant (pb_ts r), pb_resolution r, pb_content_bytes_sha r).

(** [_SORT_KEYS] *)
Definition bar_leb : bar_row -> bar_row -> bool :=
  lex_leb (fun r => dt_instant (pb_ts r)) (fun x y => String.leb (pb_content_bytes_sha x) (pb_content_bytes_sha y)).

(** The partition of a row: root, resolution, year and month of its instant in UTC. *)
Definition partition : Type := string * string * Z * Z.
Definition bar_part (r : bar_row) : partition :=
  let day := dt_date (to_utc (pb_ts r)) in
  (root_of (pb_contract r), pb_resolution r, year_of day, month_of day).

(** [sorted] compares the paths part by part. *)
Definition path_leb (a b : partition) : bool :=
  let file (k : partition) := let '(_, _, year, month) := k in
    (String.append "year=" (str_int year), String.append "month=" (str_pad 2 month)) in
  let '(ya, ma) := file a in
  let '(yb, mb) := file b in
  String.ltb ya yb || (String.eqb ya yb && String.leb ma mb).

Section Ops.
Context `{Polars}.

Definition ParquetBarStore : Type := dict partition (frame bar_row).

Definition write_bars (bars : list RawBar) : M ParquetBarStore StoreWriteResult :=
  match bars with
  | [] => lift (StoreWriteResult_post_init {| rows_written := 0; dedupe_count := 0 |})
  | _ =>
      _ <- lift (rmap (fun b => symbol_root (rb_contract b)) bars) ;;
      store <- get ;;
      let '(store', written, deduped) := write_rows bar_part bar_key bar_leb (map _bar_to_row bars) store in
      modify (fun _ => store') ;;
      lift (StoreWriteResult_post_init {| rows_written := written; dedupe_count := deduped |})
  end.

Definition in_query (query : StoreQuery) (r : bar_row) : bool :=
  String.eqb (pb_contract r) (q_contract query) && dt_leb (to_utc (q_ts_start query)) (pb_ts r)
  && (if q_inclusive_end query then dt_leb (pb_ts r) (to_utc (q_ts_end query))
      else dt_ltb (pb_ts r) (to_utc (q_ts_end query))).

Definition in_directory (root resolution : string) (k : partition) : bool :=
  let '(r, res, _, _) := k in String.eqb r root && String.eqb res resolution.

Definition read_bars (store : ParquetBarStore) (query : StoreQuery) : result (list RawBar) :=
  let! resolution := of_option (q_resolution query) ValueError in
  let! root := symbol_root (q_contract query) in
  rmap _row_to_bar
    (read_rows bar_leb path_leb (in_directory root (BarResolution_value resolution)) (in_query query) store).
End Ops.

(** *** Facts *)

(** A bar as it comes back: its instants in UTC. *)
Definition bar_utc (b : RawBar) : RawBar := {|
  rb_contract := rb_contract b; rb_ts := to_utc (rb_ts b); rb_resolution := rb_resolution b;
  rb_open := rb_open b; rb_high := rb_high b; rb_low := rb_low b; rb_close := rb_close b;
  rb_volume := rb_volume b; rb_oi := rb_oi b; rb_source_id := rb_source_id b;
  rb_as_of_iso := to_utc (rb_as_of_iso b); rb_content_bytes_sha := rb_content_bytes_sha b |}.

(** A bar the constructor accepts, for a symbol with a root. *)
Definition storable (b : RawBar) : Prop := RawBar_post_init b = Ok b ∧ exists root, symbol_root (rb_contract b) = Ok root.

Lemma resolution_roundtrip r : resolution_of (BarResolution_value r) = Ok r.
Proof. by destruct r. Qed.

Lemma BarResolution_value_inj r1 r2 : BarResolution_value r1 = BarResolution_value r2 → r1 = r2.
Proof. intros E. pose proof (resolution_roundtrip r1) as E1. rewrite E, resolution_roundtrip in E1. congruence. Qed.

Lemma bar_roundtrip b : RawBar_post_init b = Ok b → _row_to_bar (_bar_to_row b) = Ok (bar_utc b).
Proof.
  intros [_ Hb]%RawBar_post_init_Ok. unfold _row_to_bar, _bar_to_row. cbn -[BarResolution_value resolution_of].
  rewrite resolution_roundtrip. cbn [rbind]. do 4 (rewrite decimal_roundtrip; cbn [rbind]).
  apply (proj2 (RawBar_post_init_Ok (bar_utc b) (bar_utc b))). split; [done|]. destruct Hb as (_ & _ & H). split; [done|]. split; [done|exact H].
Qed.

Lemma bar_key_part r1 r2 : bar_key r1 = bar_key r2 → bar_part r1 = bar_part r2.
Proof. unfold bar_key, bar_part, to_utc. by intros [= -> -> -> _]. Qed.

Lemma bar_leb_total x y : bar_leb x y = true ∨ bar_leb y x = true.
Proof. apply lex_total. intros a b. apply string_leb_total. Qed.

Lemma bar_leb_trans x y z : bar_leb x y = true → bar_leb y z = true → bar_leb x z = true.
Proof. apply lex_trans. intros a b c. apply string_leb_trans. Qed.

Section Facts.
Context `{PolarsLaws}.

Notation recorded := (@recorded bar_row (string * Z * string * string) _ bar_key).
Notation holds := (@holds _ bar_row partition (string * Z * string * string) _ _ bar_part bar_key).

Definition rows_of (batches : list (list RawBar)) : list (list bar_row) := map (map _bar_to_row) batches.

(** The store after a sequence of writes. *)
Definition written (batches : list (list RawBar)) : ParquetBarStore :=
  fold_left (fun store b => fst (write_bars b store)) batches [].

Lemma write_bars_step batches b store : holds store (rows_of batches) → Forall storable b →
  exists store' w d, write_bars b store = (store', Ok {| rows_written := w; dedupe_count := d |}) ∧
    holds store' (rows_of (batches ++ [b])) ∧ w + d = Z.of_nat (length b) ∧ 0 <= w ∧ 0 <= d ∧ (In b batches → w = 0).
Proof.
  intros Hh Hb. unfold rows_of. rewrite map_app. cbn [map]. fold (rows_of batches). destruct b as [|b0 b].
  { exists store, 0, 0. split; [done|]. cbn [map length]. split; [|split_and!; try lia; done].
    destruct Hh as (H1 & H2 & H3). split; [done|]. split; [done|]. intros k r. rewrite H3, recorded_snoc.
    by destruct (Store.recorded _ _ _). }
  destruct (rmap_total (fun b => symbol_root (rb_contract b)) (b0 :: b)) as (roots & Hroots & _).
  { intros x Hx. rewrite List.Forall_forall in Hb. by destruct (Hb _ Hx). }
  set (rows := map _bar_to_row (b0 :: b)). destruct (write_rows bar_part bar_key bar_leb rows store) as [[store' w] d] eqn:Ew.
  pose proof (write_holds bar_part bar_key bar_leb bar_key_part bar_leb_total bar_leb_trans _ _ _ _ _ _ Hh Ew)
    as (Hh' & Hwd & Hw & Hd).
  exists store', w, d. split; [|split; [exact Hh'|]].
  - unfold write_bars, bind, lift, get. rewrite Hroots. fold rows. rewrite Ew. cbn [modify fst snd].
    unfold StoreWriteResult_post_init. cbn. apply Z.ltb_ge in Hw, Hd. by rewrite Hw, Hd.
  - unfold rows in Hwd. rewrite length_map in Hwd. do 3 (split; [done|]). intros Hin.
    by destruct (write_again bar_part bar_key bar_leb bar_key_part bar_leb_total bar_leb_trans
      _ _ _ _ _ _ Hh (in_map _ _ _ Hin) Ew).
Qed.

Lemma written_bars_holds batches : Forall (Forall storable) batches → holds (written batches) (rows_of batches).
Proof.
  induction batches as [|b batches IH] using rev_ind; intros Hall.
  { split; [constructor|]. split; [constructor|]. intros k r. by split; [intros []|intros [_ ?]]. }
  apply Forall_app in Hall as [Hall Hb]. inversion Hb as [|? ? Hb1 _]; subst.
  unfold written. rewrite fold_left_app. cbn [fold_left]. fold (written batches).
  destruct (write_bars_step batches b _ (IH Hall) Hb1) as (st & w & d & E & Hh & _). by rewrite E.
Qed.

(** Chronological order, the content hash breaking ties. *)
Definition chrono (a b : RawBar) : Prop := bar_leb (_bar_to_row a) (_bar_to_row b) = true.

(** Of the submissions with the same contract, instant, resolution and content hash, the last one of
    the first batch that has any. *)
Definition kept (batches : list (list RawBar)) (b : RawBar) : Prop :=
  In b (concat batches) ∧ recorded (rows_of batches) (bar_key (_bar_to_row b)) = Some (_bar_to_row b).

Definition wanted (query : StoreQuery) (resolution : BarResolution) (b : RawBar) : Prop :=
  rb_contract b = q_contract query ∧ rb_resolution b = resolution ∧ dt_instant (q_ts_start query) <= dt_instant (rb_ts b) ∧
  if q_inclusive_end query then dt_instant (rb_ts b) <= dt_instant (q_ts_end query)
  else dt_instant (rb_ts b) < dt_instant (q_ts_end query).

Lemma instant_utc t : dt_instant (to_utc t) = dt_instant t.
Proof. unfold to_utc, dt_instant at 1. cbn. lia. Qed.

Lemma bar_to_row_utc b : _bar_to_row (bar_utc b) = _bar_to_row b.
Proof.
  assert (Ht : forall t, to_utc (to_utc t) = to_utc t) by (intros t; unfold to_utc at 1; by rewrite instant_utc).
  unfold _bar_to_row, bar_utc. cbn. by rewrite !Ht.
Qed.

Lemma query_wanted query resolution b :
  in_directory (root_of (q_contract query)) (BarResolution_value resolution) (bar_part (_bar_to_row b)) = true
    ∧ in_query query (_bar_to_row b) = true ↔ wanted query resolution b.
Proof.
  unfold in_directory, bar_part, in_query, wanted, dt_leb, dt_ltb, _bar_to_row.
  cbn [pb_contract pb_resolution pb_ts]. rewrite !instant_utc, !andb_true_iff, !String.eqb_eq, Z.leb_le. split.
  - intros ([_ Hr%BarResolution_value_inj] & [Hc Hs] & He). split; [done|]. split; [done|]. split; [done|].
    destruct (q_inclusive_end query); lia.
  - intros (-> & -> & Hs & He). split; [done|]. split; [done|]. destruct (q_inclusive_end query); lia.
Qed.

Lemma recorded_bar batches d r : recorded (rows_of batches) d = Some r →
  exists b, In b (concat batches) ∧ r = _bar_to_row b.
Proof.
  unfold rows_of. induction batches as [|b batches IH] using rev_ind; [done|].
  rewrite map_app. cbn [map]. rewrite recorded_snoc, concat_app. cbn [concat]. rewrite app_nil_r.
  destruct (Store.recorded bar_key (map (map _bar_to_row) batches) d) as [x|].
  - intros [= ->]. destruct (IH eq_refl) as (b1 & Hb1 & ->). exists b1. rewrite in_app_iff. auto.
  - intros [_ (b1 & <- & Hb1)%in_map_iff]%last_with_key. exists b1. rewrite in_app_iff. auto.
Qed.

Lemma bar_row_inj a b : _bar_to_row a = _bar_to_row b → bar_utc a = bar_utc b.
Proof.
  intros E. destruct a, b. unfold _bar_to_row in E. cbn in E. injection E as -> Ets Er Eo Eh El Ec -> -> -> Eas ->.
  unfold bar_utc, to_utc. cbn. rewrite Ets, Eas. apply BarResolution_value_inj in Er as ->.
  repeat match goal with E : str_decimal _ = str_decimal _ |- _ =>
    apply (f_equal decimal_of_str) in E; rewrite !decimal_roundtrip in E; injection E as -> end. done.
Qed.

(** the bar archive gives back what was stored.  After any sequence of writes, a query with a
    resolution returns, by instant and then content hash, exactly the bars kept for that contract and
    resolution inside its window, whose end is exclusive unless the query asks for it, each once, with
    every price digit for digit and its instants in UTC; of the submissions with the same contract,
    instant, resolution and content hash one is kept, so every revision stays, and whatever is kept
    stays kept by every later write. *)
Theorem bar_store_faithful batches query resolution :
  Forall (Forall storable) batches → q_resolution query = Some resolution →
  (exists root, symbol_root (q_contract query) = Ok root) →
  exists out, read_bars (written batches) query = Ok out ∧ StronglySorted chrono out ∧ List.NoDup out ∧
    (forall b, In b out ↔ exists b0, kept batches b0 ∧ wanted query resolution b0 ∧ b = bar_utc b0) ∧
    (forall more b, kept batches b → kept (batches ++ more) b).
Proof.
  intros Hall Hres [root Hroot]. pose proof (written_bars_holds _ Hall) as Hh. unfold read_bars. rewrite Hres, Hroot.
  cbn [of_option rbind]. rewrite (symbol_root_of _ _ Hroot).
  destruct (read_rows_spec bar_part bar_key bar_leb bar_key_part bar_leb_total bar_leb_trans path_leb
    (in_directory (root_of (q_contract query)) (BarResolution_value resolution)) (in_query query) _ _ Hh) as (Hs & Hn & Hin).
  set (rows := read_rows _ _ _ _ _) in *.
  assert (Hrow : forall r, In r rows → exists b0, kept batches b0 ∧ wanted query resolution b0 ∧ r = _bar_to_row b0 ∧
    _row_to_bar r = Ok (bar_utc b0)).
  { intros r (Hd & Hq & Hrec)%Hin. destruct (recorded_bar _ _ _ Hrec) as (b & Hb & ->). exists b. split; [done|].
    split; [by apply query_wanted|]. split; [done|]. apply bar_roundtrip.
    apply in_concat in Hb as (l & Hl & Hb). rewrite List.Forall_forall in Hall. specialize (Hall _ Hl).
    rewrite List.Forall_forall in Hall. by apply Hall. }
  assert (Hout : exists out, rmap _row_to_bar rows = Ok out ∧
    Forall2 (fun r b => exists b0, kept batches b0 ∧ wanted query resolution b0 ∧ r = _bar_to_row b0 ∧ b = bar_utc b0) rows out).
  { clear -Hrow. induction rows as [|r rows IH]; [by exists []|].
    destruct (Hrow r ltac:(by left)) as (b0 & Hk & Hw & -> & Hb).
    destruct IH as (out & Eo & Hf); [intros; apply Hrow; by right|]. exists (bar_utc b0 :: out). cbn [rmap].
    rewrite Hb. cbn [rbind]. rewrite Eo. split; [done|]. constructor; [by exists b0|done]. }
  destruct Hout as (out & Eo & Hf). exists out. split; [done|]. split; [|split; [|split]].
  - clear -Hs Hf. induction Hf as [|r b rows out (b0 & _ & _ & -> & ->) Hf IH]; [constructor|].
    apply StronglySorted_inv in Hs as [Hs Hr]. constructor; [by apply IH|]. clear -Hr Hf.
    induction Hf as [|r b rows out (b1 & _ & _ & -> & ->) Hf IH]; [constructor|].
    inversion Hr as [|? ? Hle Hr']; subst. constructor; [|by apply IH]. unfold chrono. by rewrite !bar_to_row_utc.
  - assert (Hmap : map bar_key rows = map (fun b => bar_key (_bar_to_row b)) out).
    { clear -Hf. induction Hf as [|r b rows out (b0 & _ & _ & -> & ->) Hf IH]; [done|]. cbn [map].
      by rewrite IH, bar_to_row_utc. }
    rewrite Hmap in Hn. by eapply NoDup_map_inv.
  - intros b. split.
    + intros Hb. clear -Hf Hb. induction Hf as [|r x rows out (b0 & H1 & H2 & _ & ->) Hf IH]; [done|].
      destruct Hb as [<-|Hb]; [by exists b0|auto].
    + intros (b0 & [Hc Hk] & Hw & ->).
      assert (Hr : In (_bar_to_row b0) rows) by (apply Hin; apply query_wanted in Hw as [? ?]; done).
      clear -Hf Hr. induction Hf as [|r x rows out (b1 & _ & _ & -> & ->) Hf IH]; [done|].
      destruct Hr as [E|Hr]; [left; by apply bar_row_inj|right; by apply IH].
  - intros more b [Hc Hk]. split; [rewrite concat_app; apply in_app_iff; by left|]. unfold rows_of in *. rewrite map_app.
    unfold recorded in *. rewrite fold_left_app, Hk. clear. induction (map _ more); [done|]. exact IHl.
Qed.
End Facts.

(** *** A witness: two bars, one of them fetched twice and then revised *)
#[local] Existing Instances ListFrames.list_frames ListFrames.list_frames_laws.

Definition wit_bar (minute close : Z) (page : string) : RawBar := {|
  rb_contract := "ESM26"; rb_ts := mk_datetime 2026 5 22 9 minute 0 0 (Some (-18000)); rb_resolution := MIN_5;
  rb_open := Dec 600000 (-2); rb_high := Dec 610000 (-2); rb_low := Dec 590000 (-2); rb_close := Dec close (-2);
  rb_volume := 1000; rb_oi := None; rb_source_id := "cme"; rb_as_of_iso := mk_datetime 2026 5 22 18 0 0 0 (Some 0);
  rb_content_bytes_sha := content_sha256 page |}.

Definition wit_batches : list (list RawBar) :=
  [[wit_bar 35 601325 "a"; wit_bar 30 601250 "a"]; [wit_bar 30 601250 "a"; wit_bar 30 601275 "b"]].

Definition wit_query : StoreQuery := {|
  q_contract := "ESM26"; q_ts_start := mk_datetime 2026 5 22 14 30 0 0 (Some 0);
  q_ts_end := mk_datetime 2026 5 22 14 35 0 0 (Some 0); q_resolution := Some MIN_5; q_inclusive_end := false |}.

Lemma bar_store_faithful_witness : exists out, read_bars (written wit_batches) wit_query = Ok out ∧
  length out = 2%nat ∧ write_bars [wit_bar 30 601250 "a"] (written wit_batches)
    = (fst (write_bars [wit_bar 30 601250 "a"] (written wit_batches)), Ok {| rows_written := 0; dedupe_count := 1 |}).
Proof.
  destruct (bar_store_faithful wit_batches wit_query MIN_5) as (out & E & _).
  - repeat constructor; (vm_compute; reflexivity) || (exists "ES"%string; vm_compute; reflexivity).
  - reflexivity.
  - exists "ES"%string. vm_compute. reflexivity.
  - exists out. split; [exact E|].
    assert (E2 : exists out2, read_bars (written wit_batches) wit_query = Ok out2 ∧ length out2 = 2%nat)
      by (eexists; split; [vm_compute; reflexivity|reflexivity]).
    destruct E2 as (out2 & E2 & El). rewrite E2 in E. injection E as <-. split; [exact El|vm_compute; reflexivity].
Defined.
End BarStore.
