(* ===== verification/Broker.v ===== *)
(** * futur3/execution/broker.py: the broker seam

    Order types, orders, events, positions and account metrics with their construction checks,
    and the interface every adapter implements. *)

From S2P Require Import Prelude PyDecimal PyText PyTime Types.

#[local] Open Scope Z_scope.

Inductive OrderType :=
| MKT | LMT | STP | STP_LMT | STP_PRT | MIT | LIT | MOC | MOO | TRAIL | TRAIL_LMT | JOIN_BID
| JOIN_ASK.

#[global] Instance OrderType_eq_dec : EqDecision OrderType.
Proof. solve_decision. Defined.

(** [set(OrderType)]. *)
Definition all_order_types : list OrderType :=
  [MKT; LMT; STP; STP_LMT; STP_PRT; MIT; LIT; MOC; MOO; TRAIL; TRAIL_LMT; JOIN_BID; JOIN_ASK].

Definition ot_mem (t : OrderType) (l : list OrderType) : bool := bool_decide (t ∈ l).

Inductive Side := BUY | SELL.

#[global] Instance Side_eq_dec : EqDecision Side.
Proof. solve_decision. Defined.

Inductive Duration := DAY | GTC | GTD.

Inductive OrderEventType :=
| submitted | ack | filled | partial_fill | cancelled | rejected | modified.

#[global] Instance OrderEventType_eq_dec : EqDecision OrderEventType.
Proof. solve_decision. Defined.

Definition OrderEventType_str (t : OrderEventType) : string :=
  match t with
  | submitted => "submitted"
  | ack => "ack"
  | filled => "filled"
  | partial_fill => "partial_fill"
  | cancelled => "cancelled"
  | rejected => "rejected"
  | modified => "modified"
  end.

Inductive ConsistencyRuleStatus := compliant | warning | violation.

Record Order := {
  o_contract : ContractSymbol;
  o_side : Side;
  o_quantity : Z;
  o_order_type : OrderType;
  o_limit_price : option decimal;
  o_stop_price : option decimal;
  o_duration : Duration;
  o_parent_order_id : option string;
  o_oco_group_id : option string;
  o_client_order_id : option string;
}.

Definition _requires_limit (t : OrderType) : bool := ot_mem t [LMT; STP_LMT; LIT; TRAIL_LMT].
Definition _requires_stop (t : OrderType) : bool := ot_mem t [STP; STP_LMT; STP_PRT; MIT].

Definition is_none {A} (o : option A) : bool := match o with None => true | Some _ => false end.

Definition Order_post_init (o : Order) : result Order :=
  guard! o_quantity o <=? 0 else ValueError in
  guard! _requires_limit (o_order_type o) && is_none (o_limit_price o) else ValueError in
  guard! _requires_stop (o_order_type o) && is_none (o_stop_price o) else ValueError in
  Ok o.

Record OrderEvent := {
  ev_broker_order_id : string;
  ev_client_order_id : string;
  ev_contract : ContractSymbol;
  ev_event_type : OrderEventType;
  ev_fill_price : option decimal;
  ev_fill_quantity : option Z;
  ev_cumulative_filled : Z;
  ev_remaining_quantity : Z;
  ev_ts_utc : datetime;
  ev_raw_broker_payload_sha : string;
}.

Definition OrderEvent_post_init (e : OrderEvent) : result OrderEvent :=
  match dt_off (ev_ts_utc e) with
  | None => Err ValueError
  | Some off =>
      guard! negb (off =? 0) else ValueError in
      guard! ev_cumulative_filled e <? 0 else ValueError in
      guard! ev_remaining_quantity e <? 0 else ValueError in
      guard! match ev_fill_quantity e with Some q => q <? 0 | None => false end
        else ValueError in
      guard! hex_length_bad (ev_raw_broker_payload_sha e) else ValueError in
      Ok e
  end.

(** [quantity] is signed: long > 0, short < 0, flat = 0. *)
Record Position := {
  p_contract : ContractSymbol;
  p_quantity : Z;
  p_avg_entry_price : decimal;
  p_unrealized_pnl : decimal;
  p_realized_pnl_today : decimal;
  p_margin_used : decimal;
}.

Definition Position_post_init (p : Position) : result Position :=
  guard! dltb (p_margin_used p) d0 else ValueError in
  guard! negb (p_quantity p =? 0) && dleb (p_avg_entry_price p) d0 else ValueError in
  Ok p.

Record AccountMetrics := {
  am_account_id : string;
  am_equity : decimal;
  am_cash : decimal;
  am_margin_used : decimal;
  am_margin_available : decimal;
  am_leverage_used : decimal;
  am_realized_pnl_today : decimal;
  am_unrealized_pnl : decimal;
  am_trailing_drawdown_remaining : option decimal;
  am_consistency_rule_status : option ConsistencyRuleStatus;
  am_max_position_size_allowed : option Z;
}.

Definition AccountMetrics_post_init (m : AccountMetrics) : result AccountMetrics :=
  guard! dltb (am_margin_used m) d0 else ValueError in
  guard! dltb (am_margin_available m) d0 else ValueError in
  guard! dltb (am_leverage_used m) d0 else ValueError in
  guard! match am_max_position_size_allowed m with Some n => n <? 0 | None => false end
    else ValueError in
  Ok m.

(** ** The adapter interface

    [BrokerAdapter]: what strategy and engine code may call on any broker, over the adapter's
    own state. *)
Class BrokerAdapter (B : Type) := {
  place_order : Order -> M B string;
  cancel_order : string -> M B unit;
  modify_order : string -> option decimal -> option decimal -> option Z -> M B unit;
  get_positions : M B (list Position);
  get_account_metrics : M B AccountMetrics;
  is_trade_allowed : ContractSymbol -> Side -> Z -> M B (bool * option string);
  supported_order_types : B -> list OrderType;
}.

(** The part of the contract every adapter shares: an order type outside the supported set is
    refused, with nothing changed, and a modification that changes nothing is refused. *)
Class BrokerLaws (B : Type) `{BrokerAdapter B} := {
  place_order_unsupported : forall o b,
    ot_mem (o_order_type o) (supported_order_types b) = false →
    exists e, place_order o b = (b, Err e) ∧ exn_is e BrokerError = true;
  modify_order_empty : forall id b,
    modify_order id None None None b = (b, Err ValueError);
  is_trade_allowed_nonpos : forall c s q b, q <= 0 →
    exists r, is_trade_allowed c s q b = (b, Ok (false, Some r));
}.

(** ** Facts *)
Definition Order_wf (o : Order) : Prop :=
  0 < o_quantity o ∧
  (_requires_limit (o_order_type o) = true → is_Some (o_limit_price o)) ∧
  (_requires_stop (o_order_type o) = true → is_Some (o_stop_price o)).

Lemma is_none_false {A} (o : option A) : is_none o = false ↔ is_Some o.
Proof. destruct o; simpl; split; intros H; try done; by destruct H. Qed.

Lemma Order_post_init_Ok o o' : Order_post_init o = Ok o' ↔ o' = o ∧ Order_wf o.
Proof.
  unfold Order_post_init, Order_wf. split.
  - intros H. inv_ok. rewrite andb_false_iff, is_none_false in *. rewrite Z.leb_gt in *.
    split_and!; [done|done| |]; intros E; rewrite E in *; naive_solver.
  - intros (-> & H1 & H2 & H3). apply Z.leb_gt in H1. rewrite H1. simpl.
    assert (E2 : _requires_limit (o_order_type o) && is_none (o_limit_price o) = false).
    { apply andb_false_iff. rewrite is_none_false. destruct (_requires_limit _); auto. }
    assert (E3 : _requires_stop (o_order_type o) && is_none (o_stop_price o) = false).
    { apply andb_false_iff. rewrite is_none_false. destruct (_requires_stop _); auto. }
    by rewrite E2, E3.
Qed.

Definition Position_wf (p : Position) : Prop :=
  0 <= dcoef (p_margin_used p) ∧ (p_quantity p ≠ 0 → 0 < dcoef (p_avg_entry_price p)).

Lemma Position_post_init_Ok p p' : Position_post_init p = Ok p' ↔ p' = p ∧ Position_wf p.
Proof.
  unfold Position_post_init, Position_wf. rewrite dltb_0_r, dleb_0_r. split.
  - intros H. inv_ok. rewrite andb_false_iff, negb_false_iff, Z.ltb_ge, Z.leb_gt, Z.eqb_eq in *.
    split_and!; [done|done|]. intros Hq. naive_solver.
  - intros (-> & H1 & H2). apply Z.ltb_ge in H1. rewrite H1. simpl.
    replace (negb (p_quantity p =? 0) && (dcoef (p_avg_entry_price p) <=? 0)) with false; [done|].
    symmetry. apply andb_false_iff. rewrite negb_false_iff, Z.eqb_eq, Z.leb_gt.
    destruct (decide (p_quantity p = 0)); auto.
Qed.

(** The signed quantity an order side gives a fill. *)
Definition signed_qty (s : Side) (q : Z) : Z := match s with BUY => q | SELL => - q end.
