(* ===== verification/Adapters.v ===== *)
(** * execution/adapters/topstepx_broker.py and ibkr_broker.py: the live adapters' shells

    Both classes expose the whole adapter interface before the live wiring exists: the synchronous
    part answers, every live call raises the class's own not-implemented error.  They discharge the
    laws of [BrokerAdapter]; the TopstepX class also holds the order-type downgrade matrix. *)

From S2P Require Import Prelude PyDecimal PyText PyTime Types Broker.

#[local] Open Scope Z_scope.

(** ** TopstepX *)
Inductive TopstepAccountState := Combine | XFA | LFA.

(** [account_state] is a string at run time; the constructor checks it. *)
Definition account_state_of (s : string) : option TopstepAccountState :=
  if String.eqb s "Combine" then Some Combine
  else if String.eqb s "XFA" then Some XFA
  else if String.eqb s "LFA" then Some LFA else None.

Definition _TOPSTEPX_NATIVE_ORDER_TYPES : list OrderType :=
  [MKT; LMT; STP; STP_LMT; TRAIL; JOIN_BID; JOIN_ASK].

Inductive HaltSeverity := halt_LOW | halt_MEDIUM | halt_HIGH.

(** The reason text is left out. *)
Record TopstepXDowngradeRule := {
  target_order_type : option OrderType;
  severity : HaltSeverity;
}.

Definition _DOWNGRADE_MATRIX : dict OrderType TopstepXDowngradeRule :=
  let rule from to sev := (from, {| target_order_type := to; severity := sev |}) in
  [ rule STP_PRT (Some STP) halt_LOW; rule MIT (Some STP) halt_MEDIUM;
    rule LIT (Some LMT) halt_MEDIUM; rule MOC None halt_HIGH; rule MOO None halt_HIGH;
    rule TRAIL_LMT None halt_HIGH ].

(** One line of the audit log: what was asked for, what it became ([None] for a refusal) and how
    serious that is. *)
Record halt_flag := {
  hf_requested : OrderType;
  hf_submitted : option OrderType;
  hf_severity : HaltSeverity;
}.

(** The adapter, with the audit log its module logger receives. *)
Record TopstepXBrokerAdapter := {
  tx_account_id : option string;
  tx_account_state : TopstepAccountState;
  tx_api_key_env_var : string;
  tx_halt_flags : list halt_flag;
}.

Definition new_TopstepXBrokerAdapter (account_id : option string) (account_state : string)
    (api_key_env_var : string) : result TopstepXBrokerAdapter :=
  match account_state_of account_state with
  | None => Err ValueError
  | Some st =>
      guard! String.eqb api_key_env_var "" else ValueError in
      Ok {| tx_account_id := account_id; tx_account_state := st;
            tx_api_key_env_var := api_key_env_var; tx_halt_flags := [] |}
  end.

Definition log_halt (requested : OrderType) (rule : TopstepXDowngradeRule)
    : M TopstepXBrokerAdapter unit :=
  modify (fun a => {|
    tx_account_id := tx_account_id a; tx_account_state := tx_account_state a;
    tx_api_key_env_var := tx_api_key_env_var a;
    tx_halt_flags := tx_halt_flags a
      ++ [{| hf_requested := requested; hf_submitted := target_order_type rule;
             hf_severity := severity rule |}] |}).

Definition downgrade_order_type (requested : OrderType) : M TopstepXBrokerAdapter OrderType :=
  if ot_mem requested _TOPSTEPX_NATIVE_ORDER_TYPES then ret requested
  else match dget requested _DOWNGRADE_MATRIX with
       | None => raise OrderTypeUnsupportedError
       | Some rule =>
           log_halt requested rule ;;
           match target_order_type rule with
           | None => raise OrderTypeUnsupportedError
           | Some t => ret t
           end
       end.

(** The reason texts of the two adapters, without the quantity they quote. *)
Definition quantity_reason : string := "is_trade_allowed: quantity must be > 0".

Definition tx_is_trade_allowed (contract : ContractSymbol) (side : Side) (quantity : Z)
    : M TopstepXBrokerAdapter (bool * option string) :=
  if quantity <=? 0 then ret (false, Some quantity_reason) else ret (true, None).

(** A modification that names nothing is refused before the shell's own error. *)
Definition stub_modify {S} (e : exn) (id : string) (new_limit_price new_stop_price : option decimal)
    (new_quantity : option Z) : M S unit :=
  if is_none new_limit_price && is_none new_stop_price && is_none new_quantity
  then raise ValueError else raise e.

Definition tx_stream_order_events : M TopstepXBrokerAdapter (list OrderEvent) :=
  raise TopstepXBrokerNotImplemented.

#[global] Instance TopstepX_adapter : BrokerAdapter TopstepXBrokerAdapter := {
  place_order o := raise TopstepXBrokerNotImplemented;
  cancel_order id := raise TopstepXBrokerNotImplemented;
  modify_order := stub_modify TopstepXBrokerNotImplemented;
  get_positions := raise TopstepXBrokerNotImplemented;
  get_account_metrics := raise TopstepXBrokerNotImplemented;
  is_trade_allowed := tx_is_trade_allowed;
  supported_order_types a := _TOPSTEPX_NATIVE_ORDER_TYPES;
}.

(** ** IBKR *)
Definition IBKR_PAPER_PORT : Z := 4002.
Definition IBKR_LIVE_PORT : Z := 4001.
Definition IBKR_DEFAULT_HOST : string := "127.0.0.1".
Definition _MIN_USER_PORT : Z := 1024.
Definition _MAX_USER_PORT : Z := 65535.

Definition _IBKR_SUPPORTED_ORDER_TYPES : list OrderType :=
  [MKT; LMT; STP; STP_LMT; STP_PRT; MIT; LIT; MOC; MOO; TRAIL; TRAIL_LMT].

Record IBKRBrokerAdapter := {
  ib_host : string;
  ib_port : Z;
  ib_client_id : Z;
  ib_account_id : option string;
}.

Definition new_IBKRBrokerAdapter (host : string) (port client_id : Z) (account_id : option string)
    : result IBKRBrokerAdapter :=
  guard! String.eqb host "" else ValueError in
  guard! negb ((port =? IBKR_PAPER_PORT) || (port =? IBKR_LIVE_PORT))
         && negb ((_MIN_USER_PORT <=? port) && (port <=? _MAX_USER_PORT)) else ValueError in
  guard! client_id <? 0 else ValueError in
  Ok {| ib_host := host; ib_port := port; ib_client_id := client_id; ib_account_id := account_id |}.

Definition is_paper (a : IBKRBrokerAdapter) : bool := ib_port a =? IBKR_PAPER_PORT.

Definition ib_is_trade_allowed (contract : ContractSymbol) (side : Side) (quantity : Z)
    : M IBKRBrokerAdapter (bool * option string) :=
  if quantity <=? 0 then ret (false, Some quantity_reason) else ret (true, None).

Definition ib_stream_order_events : M IBKRBrokerAdapter (list OrderEvent) :=
  raise IBKRBrokerNotImplemented.

#[global] Instance IBKR_adapter : BrokerAdapter IBKRBrokerAdapter := {
  place_order o := raise IBKRBrokerNotImplemented;
  cancel_order id := raise IBKRBrokerNotImplemented;
  modify_order := stub_modify IBKRBrokerNotImplemented;
  get_positions := raise IBKRBrokerNotImplemented;
  get_account_metrics := raise IBKRBrokerNotImplemented;
  is_trade_allowed := ib_is_trade_allowed;
  supported_order_types a := _IBKR_SUPPORTED_ORDER_TYPES;
}.

(** ** The interface's laws *)

(** A shell refuses every order with its own error, a [BrokerError], and nothing changes. *)
#[global] Instance TopstepX_laws : BrokerLaws TopstepXBrokerAdapter.
Proof.
  constructor; [by eexists|done|]. intros c sd q b Hq. apply Z.leb_le in Hq. cbn.
  unfold tx_is_trade_allowed. rewrite Hq. by eexists.
Qed.

#[global] Instance IBKR_laws : BrokerLaws IBKRBrokerAdapter.
Proof.
  constructor; [by eexists|done|]. intros c sd q b Hq. apply Z.leb_le in Hq. cbn.
  unfold ib_is_trade_allowed. rewrite Hq. by eexists.
Qed.

(** ** Facts *)

(** An order with its type replaced. *)
Definition with_type (t : OrderType) (o : Order) : Order := {|
  o_contract := o_contract o; o_side := o_side o; o_quantity := o_quantity o; o_order_type := t;
  o_limit_price := o_limit_price o; o_stop_price := o_stop_price o; o_duration := o_duration o;
  o_parent_order_id := o_parent_order_id o; o_oco_group_id := o_oco_group_id o;
  o_client_order_id := o_client_order_id o |}.

(** The types a native order cannot express at all. *)
Definition rejected_tier (t : OrderType) : bool := ot_mem t [MOC; MOO; TRAIL_LMT].

(** the downgrade matrix covers every order type and stays inside what the venue takes.  For any
    requested type: a native one passes unchanged and leaves no trace; one with a substitute becomes
    a native type, and a well-formed order stays well-formed under it because the substitute asks for
    no price the original did not carry; market-on-close, market-on-open and trailing-limit raise
    [OrderTypeUnsupportedError].  Everything but a native passage leaves exactly one entry in the
    audit log, naming what was asked and what was done, and no other field changes. *)
Theorem downgrade_total (a : TopstepXBrokerAdapter) (o : Order) :
  let requested := o_order_type o in
  let '(a', r) := downgrade_order_type requested a in
  match r with
  | Ok t => ot_mem t (supported_order_types a) = true ∧ rejected_tier requested = false
            ∧ (Order_wf o → Order_post_init (with_type t o) = Ok (with_type t o))
            ∧ (ot_mem requested (supported_order_types a) = true → t = requested ∧ a' = a)
  | Err e => e = OrderTypeUnsupportedError ∧ rejected_tier requested = true
  end
  ∧ (tx_account_id a', tx_account_state a', tx_api_key_env_var a')
    = (tx_account_id a, tx_account_state a, tx_api_key_env_var a)
  ∧ (ot_mem requested (supported_order_types a) = false → exists h,
       tx_halt_flags a' = tx_halt_flags a ++ [h] ∧ hf_requested h = requested
       ∧ hf_submitted h = match r with Ok t => Some t | Err _ => None end).
Proof.
  cbn zeta. destruct o as [c sd q t lp sp du pa oco cl]. cbn [o_order_type].
  destruct t; cbn; (split; [|split; [done|intros Hn; first [discriminate Hn|by eexists]]]);
    first [done | split_and!; try done; intros (Hq & Hl & Hs); apply Order_post_init_Ok; split; try done;
      cbn in *; split_and!; try done; auto].
Qed.
