(* ===== verification/PyFloat.v ===== *)
(** * Python's [float]

    IEEE-754 binary64 as the standard library's [SpecFloat] computes it: every operation is the
    correctly rounded one.  Elementary functions of the C library ([math.log], [math.log10], [pow]) and the
    generator [random.Random] have no exact definition to translate; they are the classes [Libm]
    and [PyRandom], with the documented range of the generator as its laws. *)

From Stdlib Require Import SpecFloat.
From S2P Require Import Prelude PyDecimal.

#[local] Open Scope Z_scope.

Definition float := spec_float.

Definition fprec : Z := 53.
Definition femax : Z := 1024.

Definition fadd : float -> float -> float := SFadd fprec femax.
Definition fsub : float -> float -> float := SFsub fprec femax.
Definition fmul : float -> float -> float := SFmul fprec femax.
Definition fdiv : float -> float -> float := SFdiv fprec femax.
Definition fsqrt : float -> float := SFsqrt fprec femax.
Definition fabs : float -> float := SFabs.
Definition fopp (x : float) : float :=
  match x with
  | S754_nan => S754_nan
  | S754_zero s => S754_zero (negb s)
  | S754_infinity s => S754_infinity (negb s)
  | S754_finite s m e => S754_finite (negb s) m e
  end.
Definition fltb : float -> float -> bool := SFltb.
Definition fleb : float -> float -> bool := SFleb.
Definition feqb : float -> float -> bool := SFeqb.

(** [float(n)] for an int. *)
Definition f_of_Z (n : Z) : float := binary_normalize fprec femax n 0 false.
Definition f_of_nat (n : nat) : float := f_of_Z (Z.of_nat n).

(** [float(p / q)] for a ratio with [q > 0], correctly rounded. *)
Definition f_of_ratio (p q : Z) : float :=
  match p, q with
  | Z0, _ => S754_zero false
  | Zpos a, Zpos b => SFdiv fprec femax (S754_finite false a 0) (S754_finite false b 0)
  | Zneg a, Zpos b => SFdiv fprec femax (S754_finite true a 0) (S754_finite false b 0)
  | _, _ => S754_nan
  end.

(** [float(Decimal)]. *)
Definition f_of_decimal (d : decimal) : float :=
  if 0 <=? dexp d then f_of_Z (dcoef d * 10 ^ dexp d)
  else f_of_ratio (dcoef d) (10 ^ (- dexp d)).

Definition f_zero : float := S754_zero false.
Definition f_one : float := f_of_Z 1.

Definition f_isnan (x : float) : bool := match x with S754_nan => true | _ => false end.
Definition f_isfinite (x : float) : bool :=
  match x with S754_zero _ | S754_finite _ _ _ => true | _ => false end.

(** [math.fsum]: the correctly rounded exact sum, for finite terms. *)
Definition f_mant (x : float) : Z :=
  match x with S754_finite s m _ => if s then Zneg m else Zpos m | _ => 0 end.
Definition f_exp (x : float) : Z := match x with S754_finite _ _ e => e | _ => 0 end.
Definition fsum (l : list float) : float :=
  let e := foldr (fun x acc => Z.min (f_exp x) acc) 0 l in
  let m := foldr (fun x acc => f_mant x * 2 ^ (f_exp x - e) + acc) 0 l in
  binary_normalize fprec femax m e false.

(** [sum(l)] of floats: since Python 3.12 it carries the rounding error of every addition along and
    adds it at the end (Neumaier's algorithm). The sum starts from the integer 0. *)
Fixpoint f_sum_loop (total comp : float) (l : list float) : float :=
  match l with
  | [] => if negb (feqb comp f_zero) && f_isfinite comp then fadd total comp else total
  | x :: xs =>
      let t := fadd total x in
      let err := if fleb (fabs x) (fabs total) then fadd (fsub total t) x else fadd (fsub x t) total in
      f_sum_loop t (fadd comp err) xs
  end.
Definition f_sum (l : list float) : float :=
  match l with [] => f_zero | x :: xs => f_sum_loop (fadd f_zero x) f_zero xs end.

(** [math.ceil] and [int()] of a finite float. *)
Definition f_floor (x : float) : Z :=
  match x with
  | S754_finite _ _ e => if 0 <=? e then f_mant x * 2 ^ e else f_mant x / 2 ^ (- e)
  | _ => 0
  end.
Definition f_ceil (x : float) : Z :=
  match x with
  | S754_finite _ _ e => if 0 <=? e then f_mant x * 2 ^ e else - (- f_mant x / 2 ^ (- e))
  | _ => 0
  end.
Definition f_trunc (x : float) : Z := if fltb x f_zero then f_ceil x else f_floor x.

(** [max(a, b)] and [min(a, b)]: the first argument on a tie. *)
Definition fmax (a b : float) : float := if fltb a b then b else a.
Definition fmin (a b : float) : float := if fltb b a then b else a.

(** *** The order of floats: total on the numbers, nothing is ordered with a NaN *)
Definition fkey (x : float) : Z * Z * Z :=
  match x with
  | S754_infinity true => (0, 0, 0)
  | S754_finite true m e => (1, - e, Z.neg m)
  | S754_zero _ => (2, 0, 0)
  | S754_finite false m e => (3, e, Z.pos m)
  | S754_infinity false => (4, 0, 0)
  | S754_nan => (5, 0, 0)
  end.

Definition key_le (a b : Z * Z * Z) : Prop :=
  let '(a1, a2, a3) := a in
  let '(b1, b2, b3) := b in
  a1 < b1 ∨ (a1 = b1 ∧ (a2 < b2 ∨ (a2 = b2 ∧ a3 <= b3))).

Lemma fleb_spec x y : fleb x y = true ↔ f_isnan x = false ∧ f_isnan y = false ∧ key_le (fkey x) (fkey y).
Proof.
  unfold fleb, SFleb, key_le.
  destruct x as [[]|[]| |[] m1 e1], y as [[]|[]| |[] m2 e2]; cbn [SFcompare f_isnan fkey];
    repeat match goal with |- context [Z.compare ?a ?b] => destruct (Z.compare_spec a b) end;
    unfold CompOpp; repeat match goal with |- context [Pos.compare_cont Eq ?a ?b] =>
      change (Pos.compare_cont Eq a b) with (Pos.compare a b); destruct (Pos.compare_spec a b) end;
    split; intros Hle; try done; try (split; [done|split; [done|lia]]); destruct Hle as (? & ? & ?); try done; try lia.
Qed.

Lemma fltb_spec x y : fltb x y = true ↔ f_isnan x = false ∧ f_isnan y = false ∧ fleb y x = false.
Proof.
  unfold fltb, SFltb, fleb, SFleb.
  destruct x as [[]|[]| |[] m1 e1], y as [[]|[]| |[] m2 e2]; cbn [SFcompare f_isnan]; try (by split; [done|naive_solver]);
    rewrite (Z.compare_antisym e1 e2);
    change (Pos.compare_cont Eq m2 m1) with (Pos.compare m2 m1);
    change (Pos.compare_cont Eq m1 m2) with (Pos.compare m1 m2);
    rewrite (Pos.compare_antisym m1 m2);
    destruct (Z.compare e1 e2), (Pos.compare m1 m2); cbn; naive_solver.
Qed.

Lemma fleb_refl x : f_isnan x = false → fleb x x = true.
Proof.
  intros Hx. apply fleb_spec. split; [done|]. split; [done|]. unfold key_le. destruct (fkey x) as [[a b] c]. lia.
Qed.

Lemma fleb_trans x y z : fleb x y = true → fleb y z = true → fleb x z = true.
Proof.
  rewrite !fleb_spec. intros (Hx & _ & H1) (_ & Hz & H2). split; [done|]. split; [done|].
  unfold key_le in *. destruct (fkey x) as [[a1 b1] c1], (fkey y) as [[a2 b2] c2], (fkey z) as [[a3 b3] c3]. lia.
Qed.

Lemma fleb_total x y : f_isnan x = false → f_isnan y = false → fleb x y = true ∨ fleb y x = true.
Proof.
  intros Hx Hy. rewrite !fleb_spec. unfold key_le.
  destruct (fkey x) as [[a1 b1] c1], (fkey y) as [[a2 b2] c2].
  assert ((a1 < a2 ∨ a1 = a2 ∧ (b1 < b2 ∨ b1 = b2 ∧ c1 <= c2)) ∨ (a2 < a1 ∨ a2 = a1 ∧ (b2 < b1 ∨ b2 = b1 ∧ c2 <= c1))) by lia.
  tauto.
Qed.

Lemma fltb_fleb x y : fltb x y = true → fleb x y = true.
Proof. intros (Hx & Hy & Hn)%fltb_spec. destruct (fleb_total x y Hx Hy); congruence. Qed.

Lemma fleb_false_fltb x y : f_isnan x = false → f_isnan y = false → fleb x y = false ↔ fltb y x = true.
Proof. intros Hx Hy. rewrite fltb_spec. tauto. Qed.

(** [max] and [min] started from a number are numbers and bound it. *)
Lemma fmax_ge a b : f_isnan a = false → f_isnan (fmax a b) = false ∧ fleb a (fmax a b) = true.
Proof.
  intros Ha. unfold fmax. destruct (fltb a b) eqn:E; [|by split; [|apply fleb_refl]].
  split; [by apply fltb_spec in E as (_ & ? & _)|by apply fltb_fleb].
Qed.

Lemma fmin_le a b : f_isnan a = false → f_isnan (fmin a b) = false ∧ fleb (fmin a b) a = true.
Proof.
  intros Ha. unfold fmin. destruct (fltb b a) eqn:E; [|by split; [|apply fleb_refl]].
  split; [by apply fltb_spec in E as (? & _)|by apply fltb_fleb].
Qed.

Class Libm := {
  log : float -> float;
  log10 : float -> float;
  pow : float -> float -> float;
}.

(** [random.Random]: a state, seeding, [randrange(n)] and [random()]. *)
Class PyRandom := {
  rng : Type;
  rng_seed : option Z -> rng;
  randrange : rng -> Z -> rng * Z;
  random : rng -> rng * float;
}.

Class PyRandomLaws `{PyRandom} := {
  randrange_range : forall g n, 0 < n → 0 <= snd (randrange g n) < n;
}.

Example f_tenth : f_of_decimal (Dec 1 (-1)) = S754_finite false 7205759403792794 (-56).
Proof. vm_compute. reflexivity. Qed.
Example f_third : fdiv f_one (f_of_Z 3) = S754_finite false 6004799503160661 (-54).
Proof. vm_compute. reflexivity. Qed.
Example sum_tenths : f_sum (repeat (f_of_decimal (Dec 1 (-1))) 10) = f_one.
Proof. vm_compute. reflexivity. Qed.
