(* ===== verification/FloatRound.v ===== *)
(** * Rounding of binary64

    [SpecFloat]'s operations are correctly rounded: the finite result of an exact value [n / d], scaled
    by a power of two, is the nearest multiple of that power, the even one of two.  The exact value
    travels through the operation as the remainder of a division, which the round and sticky bits
    describe. *)

From Stdlib Require Import SpecFloat.
From S2P Require Import Prelude PyDecimal PyFloat.

#[local] Open Scope Z_scope.

(** The nearest integer of [n / d], the even one of two. *)
Definition rne (n d : Z) : Z :=
  let q := n / d in
  let r := n mod d in
  if 2 * r <? d then q
  else if d <? 2 * r then q + 1
  else if Z.even q then q else q + 1.

Lemma rne_error n d : 0 < d → 2 * Z.abs (rne n d * d - n) <= d.
Proof.
  intros Hd. unfold rne. pose proof (Z.div_mod n d ltac:(lia)) as E. pose proof (Z.mod_pos_bound n d Hd).
  destruct (Z.ltb_spec (2 * (n mod d)) d); [nia|]. destruct (Z.ltb_spec d (2 * (n mod d))); [nia|].
  destruct (Z.even _); nia.
Qed.

(** An integer close enough is the nearest one. *)
Lemma rne_unique n d m : 0 < d → 2 * Z.abs (m * d - n) < d → rne n d = m.
Proof. intros Hd Hm. pose proof (rne_error n d Hd). nia. Qed.

Lemma rne_lower n d m : 0 < d → m * d <= n → m <= rne n d.
Proof. intros Hd Hm. pose proof (rne_error n d Hd). nia. Qed.

Lemma rne_upper n d m : 0 < d → n <= m * d → rne n d <= m.
Proof. intros Hd Hm. pose proof (rne_error n d Hd). nia. Qed.

Lemma rne_exact m d : 0 < d → rne (m * d) d = m.
Proof. intros Hd. apply rne_unique; [done|]. replace (m * d - m * d) with 0 by ring. simpl. lia. Qed.

(** ** The round and sticky bits of a quotient *)
Definition bits_of (n d : Z) (r s : bool) : Prop :=
  match r, s with
  | false, false => n mod d = 0
  | false, true => 0 < 2 * (n mod d) < d
  | true, false => 2 * (n mod d) = d
  | true, true => d < 2 * (n mod d)
  end.

Definition rep (mrs : shr_record) (n d : Z) : Prop :=
  0 < d ∧ 0 <= n ∧ shr_m mrs = n / d ∧ bits_of n d (shr_r mrs) (shr_s mrs).

Lemma div_double n d : 0 < d → 0 <= n →
  n / (d * 2) = (n / d) / 2 ∧ n mod (d * 2) = n mod d + d * ((n / d) mod 2).
Proof.
  intros Hd Hn. split; [by rewrite Z.div_div by lia|]. by rewrite Z.rem_mul_r by lia.
Qed.

Lemma shr_1_rep mrs n d : rep mrs n d → rep (shr_1 mrs) n (d * 2).
Proof.
  intros (Hd & Hn & Hm & Hb). destruct (div_double n d Hd Hn) as [E1 E2].
  pose proof (Z.mod_pos_bound n d Hd). assert (0 <= n / d) by (apply Z.div_pos; lia).
  unfold rep. rewrite E1, <- Hm. destruct mrs as [m r s]. cbn [shr_m shr_r shr_s] in *. rewrite <- Hm in E2.
  split; [lia|]. split; [done|].
  assert (Hcase : m / 2 = shr_m (shr_1 (Build_shr_record m r s)) ∧
    shr_r (shr_1 (Build_shr_record m r s)) = Z.odd m ∧ shr_s (shr_1 (Build_shr_record m r s)) = r || s).
  { destruct m as [|p|p]; [done| |lia]. destruct p as [p|p|]; cbn; split_and!; try done.
    - symmetry. apply (Z.div_unique _ 2 _ 1); lia.
    - symmetry. apply (Z.div_unique _ 2 _ 0); lia. }
  destruct Hcase as (-> & -> & ->). split; [done|]. unfold bits_of. rewrite E2.
  assert (Hodd : m mod 2 = if Z.odd m then 1 else 0) by apply Zmod_odd. rewrite Hodd.
  unfold bits_of in Hb. destruct (Z.odd m), r, s; cbn [orb]; lia.
Qed.

Lemma iter_pos_nat {A} (f : A -> A) p x : SpecFloat.iter_pos f p x = Nat.iter (Pos.to_nat p) f x.
Proof.
  revert x. induction p as [p IH|p IH|]; intros x; cbn [SpecFloat.iter_pos]; [| |done].
  - rewrite (IH (f x)), IH, Pos2Nat.inj_xI, <- Nat.iter_add, <- Nat.iter_succ_r. f_equal. lia.
  - rewrite (IH x), IH, Pos2Nat.inj_xO, <- Nat.iter_add. f_equal. lia.
Qed.

Lemma shr_rep mrs e n d k : rep mrs n d → 0 <= k →
  rep (fst (shr mrs e k)) n (d * 2 ^ k) ∧ snd (shr mrs e k) = e + k.
Proof.
  intros Hr Hk. destruct k as [|p|p]; [|clear Hk|lia].
  - cbn. rewrite Z.mul_1_r, Z.add_0_r. done.
  - unfold shr. cbn [fst snd]. split; [|done]. rewrite iter_pos_nat, <- (positive_nat_Z p).
    induction (Pos.to_nat p) as [|j IH]; [by rewrite Z.pow_0_r, Z.mul_1_r|]. cbn [Nat.iter].
    rewrite Nat2Z.inj_succ, Z.pow_succ_r by lia. replace (d * (2 * 2 ^ Z.of_nat j)) with (d * 2 ^ Z.of_nat j * 2) by ring.
    by apply shr_1_rep.
Qed.

Lemma round_rep mrs n d : rep mrs n d → round_nearest_even (shr_m mrs) (loc_of_shr_record mrs) = rne n d.
Proof.
  intros (Hd & Hn & Hm & Hb). unfold rne. rewrite <- Hm. destruct mrs as [m r s].
  cbn [shr_m shr_r shr_s loc_of_shr_record] in *. unfold bits_of in Hb.
  destruct r, s; cbn [round_nearest_even];
    destruct (Z.ltb_spec (2 * (n mod d)) d); try lia; destruct (Z.ltb_spec d (2 * (n mod d))); try lia; done.
Qed.

(** ** The mantissa of a result *)
Lemma digits_spec p : 2 ^ (Z.pos (digits2_pos p) - 1) <= Z.pos p < 2 ^ Z.pos (digits2_pos p).
Proof.
  induction p as [p IH|p IH|]; cbn [digits2_pos]; [| |done];
    rewrite Pos2Z.inj_succ, Z.pow_succ_r by lia;
    replace (Z.succ (Z.pos (digits2_pos p)) - 1) with (Z.succ (Z.pos (digits2_pos p) - 1)) by lia;
    rewrite Z.pow_succ_r by lia; lia.
Qed.

Lemma Zdigits_spec m : 0 < m → 0 < Zdigits2 m ∧ 2 ^ (Zdigits2 m - 1) <= m < 2 ^ Zdigits2 m.
Proof. destruct m as [|p|p]; [lia| |lia]. intros _. split; [done|]. apply digits_spec. Qed.

(** A number of at most [k] bits has at most [k] digits. *)
Lemma Zdigits_le m k : 0 <= m < 2 ^ k → 0 <= k → Zdigits2 m <= k.
Proof.
  intros Hm Hk. destruct (Z.eq_dec m 0) as [->|Hne]; [done|]. destruct (Zdigits_spec m ltac:(lia)) as [Hp [Hlo _]].
  destruct (Z.le_gt_cases (Zdigits2 m) k) as [|Hgt]; [done|].
  assert (2 ^ k <= 2 ^ (Zdigits2 m - 1)) by (apply Z.pow_le_mono_r; lia). lia.
Qed.

Lemma Zdigits_unique m k : 0 < k → 2 ^ (k - 1) <= m < 2 ^ k → Zdigits2 m = k.
Proof.
  intros Hk [Hlo Hhi]. assert (0 < 2 ^ (k - 1)) by (apply Z.pow_pos_nonneg; lia).
  destruct (Zdigits_spec m ltac:(lia)) as [Hp [Hl Hh]].
  pose proof (Zdigits_le m k ltac:(lia) ltac:(lia)).
  destruct (Z.lt_ge_cases (Zdigits2 m) k) as [Hlt|]; [|lia].
  assert (2 ^ Zdigits2 m <= 2 ^ (k - 1)) by (apply Z.pow_le_mono_r; lia). lia.
Qed.

(** [x] is [M * 2^e], with the sign of [s]. *)
Definition scaled (x : float) (s : bool) (M e : Z) : Prop :=
  match x with
  | S754_zero s' => s' = s ∧ M = 0
  | S754_finite s' m e' => s' = s ∧ e <= e' ∧ Z.pos m * 2 ^ (e' - e) = M
  | _ => False
  end.

Definition fe (k : Z) : Z := SpecFloat.fexp fprec femax k.

Lemma fe_spec k : fe k = Z.max (k - 53) (-1074).
Proof. reflexivity. Qed.

Lemma shr_nonpos mrs e k : k <= 0 → shr mrs e k = (mrs, e).
Proof. destruct k; [done|lia|done]. Qed.

(** The shift of the first rounding: down to the precision or the smallest exponent. *)
Definition shift_of (m e : Z) : Z := Z.max 0 (fe (Zdigits2 m + e) - e).

Lemma shr_fexp_rep m e l n d : rep (shr_record_of_loc m l) n d →
  rep (fst (shr_fexp fprec femax m e l)) n (d * 2 ^ shift_of m e)
  ∧ snd (shr_fexp fprec femax m e l) = e + shift_of m e.
Proof.
  intros Hr. unfold shr_fexp, shift_of. fold (fe (Zdigits2 m + e)).
  destruct (Z.le_gt_cases (fe (Zdigits2 m + e) - e) 0) as [Hle|Hgt].
  - rewrite shr_nonpos, Z.max_l by done. cbn [fst snd]. by rewrite Z.pow_0_r, Z.mul_1_r, Z.add_0_r.
  - rewrite Z.max_r by lia. apply shr_rep; [done|lia].
Qed.

(** Rounding again changes nothing but the power of two. *)
Lemma renormalize s M e : 0 <= M <= 2 ^ 53 → -1074 <= e <= 970 →
  scaled (let '(mrs, e') := shr_fexp fprec femax M e loc_Exact in
          match shr_m mrs with
          | Z0 => S754_zero s
          | Z.pos m => if e' <=? femax - fprec then S754_finite s m e' else S754_infinity s
          | Z.neg _ => S754_nan
          end) s M e.
Proof.
  intros HM He. unfold shr_fexp. fold (fe (Zdigits2 M + e)). rewrite fe_spec.
  destruct (Z.eq_dec M (2 ^ 53)) as [->|Hne].
  - replace (Z.max (Zdigits2 (2 ^ 53) + e - 53) (-1074) - e) with 1 by (change (Zdigits2 (2 ^ 53)) with 54; lia).
    cbn. rewrite (proj2 (Z.leb_le _ _)) by (unfold femax, fprec; lia). cbn.
    split; [done|]. split; [lia|]. replace (e + 1 - e) with 1 by lia. done.
  - pose proof (Zdigits_le M 53 ltac:(lia) ltac:(lia)). rewrite shr_nonpos by lia. cbn [shr_record_of_loc shr_m].
    destruct M as [|m|m]; [done| |lia]. rewrite (proj2 (Z.leb_le _ _)) by (unfold femax, fprec; lia).
    cbn. split; [done|]. split; [lia|]. by rewrite Z.sub_diag, Z.mul_1_r.
Qed.

Lemma round_aux_spec s m e l n d : 0 < m → rep (shr_record_of_loc m l) n d →
  e + shift_of m e <= 970 →
  let M := rne n (d * 2 ^ shift_of m e) in
  0 <= M <= 2 ^ 53 ∧ scaled (binary_round_aux fprec femax s m e l) s M (e + shift_of m e).
Proof.
  intros Hm Hr He M. destruct (shr_fexp_rep m e l n d Hr) as [Hr' He'].
  unfold binary_round_aux. destruct (shr_fexp fprec femax m e l) as [mrs e'] eqn:Es. cbn [fst snd] in *.
  rewrite (round_rep _ _ _ Hr'). subst e'. fold M.
  destruct Hr' as (Hd' & Hn & _ & _). destruct Hr as (Hd & _ & Hq & _).
  destruct (Zdigits_spec m Hm) as [Hg [_ Hhi]].
  assert (Hsh : 0 <= shift_of m e ∧ Zdigits2 m - 53 <= shift_of m e ∧ -1074 <= e + shift_of m e)
    by (unfold shift_of; rewrite fe_spec; lia).
  assert (Hmq : n / d = m) by (rewrite <- Hq; by destruct l as [|[]]).
  assert (HM : 0 <= M <= 2 ^ 53).
  { split; [apply rne_lower; lia|]. apply rne_upper; [lia|].
    assert (n < (m + 1) * d) by (pose proof (Z.mul_succ_div_gt n d Hd); nia).
    assert (2 ^ Zdigits2 m <= 2 ^ 53 * 2 ^ shift_of m e)
      by (rewrite <- Z.pow_add_r by lia; apply Z.pow_le_mono_r; lia).
    nia. }
  split; [done|]. apply renormalize; [done|lia].
Qed.

(** ** Values

    [x] is a number of the format and is [M * 2^e]: the two mantissas agree at the smaller exponent. *)
Definition in_format (x : float) : Prop := f_isfinite x = true ∧ -1074 <= f_exp x.

Definition has_value (x : float) (M e : Z) : Prop :=
  in_format x ∧
  let c := Z.min (f_exp x) e in f_mant x * 2 ^ (f_exp x - c) = M * 2 ^ (e - c).

(** Any common exponent will do. *)
Lemma common_exponent a b x y c : c <= x → c <= y →
  a * 2 ^ (x - Z.min x y) = b * 2 ^ (y - Z.min x y) ↔ a * 2 ^ (x - c) = b * 2 ^ (y - c).
Proof.
  intros Hx Hy. set (m := Z.min x y).
  assert (E : 2 ^ (x - c) = 2 ^ (x - m) * 2 ^ (m - c)) by (rewrite <- Z.pow_add_r by lia; f_equal; lia).
  assert (E' : 2 ^ (y - c) = 2 ^ (y - m) * 2 ^ (m - c)) by (rewrite <- Z.pow_add_r by lia; f_equal; lia).
  assert (0 < 2 ^ (m - c)) by (apply Z.pow_pos_nonneg; lia).
  rewrite E, E', !Z.mul_assoc. split; [by intros ->|]. intros H'. by apply Z.mul_reg_r in H'; [|lia].
Qed.

Lemma has_value_at x M e c : c <= f_exp x → c <= e →
  has_value x M e ↔ in_format x ∧ f_mant x * 2 ^ (f_exp x - c) = M * 2 ^ (e - c).
Proof. intros Hx He. unfold has_value. cbv zeta. by rewrite (common_exponent _ _ _ _ c). Qed.

(** A value may be read at a smaller exponent. *)
Lemma has_value_shift x M e j : 0 <= j → has_value x M e ↔ has_value x (M * 2 ^ j) (e - j).
Proof.
  intros Hj. set (c := Z.min (f_exp x) (e - j)).
  rewrite (has_value_at x M e c), (has_value_at x (M * 2 ^ j) (e - j) c) by lia.
  rewrite <- Z.mul_assoc, <- Z.pow_add_r by lia. by replace (j + (e - j - c)) with (e - c) by lia.
Qed.

Definition sgn (s : bool) (M : Z) : Z := if s then - M else M.

Lemma scaled_value x s M e : -1074 <= e → scaled x s M e → has_value x (sgn s M) e.
Proof.
  intros He0. unfold scaled, has_value, in_format. destruct x as [s'|s'| |s' m e']; try done; cbn [f_isfinite f_exp f_mant].
  - intros [-> ->]. split; [done|]. by destruct s.
  - intros (-> & He & <-). split; [lia|]. rewrite Z.min_r by lia. rewrite Z.sub_diag, Z.mul_1_r.
    destruct s; cbn [sgn]; lia.
Qed.

Lemma exact_rep m : 0 < m → rep (shr_record_of_loc m loc_Exact) m 1.
Proof. intros Hm. unfold rep. cbn. rewrite Z.div_1_r, Z.mod_1_r. lia. Qed.

(** An integer times a power of two that fits the format is not rounded. *)
Lemma round_aux_exact s m e V f : 0 < m → 0 < V < 2 ^ 53 → -1074 <= f <= 970 → -1074 <= e <= 970 →
  (let c := Z.min e f in m * 2 ^ (e - c) = V * 2 ^ (f - c)) →
  has_value (binary_round_aux fprec femax s m e loc_Exact) (sgn s V) f.
Proof.
  cbv zeta. intros Hm HV Hf He Heq. set (c := Z.min e f) in *.
  assert (Hdig : Zdigits2 m + e <= 53 + f ∨ Zdigits2 m <= 53).
  { destruct (Z.le_gt_cases e f) as [Hle|Hgt].
    - left. replace (e - c) with 0 in Heq by lia. rewrite Z.mul_1_r in Heq.
      assert (Hb : m < 2 ^ (53 + (f - c))).
      { rewrite Heq, Z.pow_add_r by lia. apply Z.mul_lt_mono_pos_r; [apply Z.pow_pos_nonneg|]; lia. }
      pose proof (Zdigits_le m (53 + (f - c)) ltac:(lia) ltac:(lia)). lia.
    - right. replace (f - c) with 0 in Heq by lia. rewrite Z.mul_1_r in Heq. apply Zdigits_le; [|lia].
      assert (0 < 2 ^ (e - c)) by (apply Z.pow_pos_nonneg; lia). nia. }
  pose proof (round_aux_spec s m e loc_Exact m 1 Hm (exact_rep m Hm)) as Hr. rewrite !Z.mul_1_l in Hr.
  assert (Hs : e + shift_of m e <= 970 ∧ (0 < shift_of m e → e + shift_of m e <= f ∧ e <= f))
    by (unfold shift_of; rewrite fe_spec; lia).
  destruct Hr as [_ Hr]; [lia|].
  set (sh := shift_of m e) in *. assert (Hsh : 0 <= sh) by (unfold sh, shift_of; lia).
  assert (Hx : rne m (2 ^ sh) * 2 ^ sh = m).
  { destruct (Z.eq_dec sh 0) as [->|Hne]; [rewrite Z.mul_1_r; apply rne_unique; lia|].
    destruct Hs as [_ Hs]. destruct (Hs ltac:(lia)) as [Hs1 Hs2].
    assert (Em : m = V * 2 ^ (f - c - sh) * 2 ^ sh).
    { rewrite <- Z.mul_assoc, <- Z.pow_add_r by lia. replace (e - c) with 0 in Heq by lia.
      rewrite Z.mul_1_r in Heq. rewrite Heq. do 2 f_equal. lia. }
    rewrite Em at 1. rewrite rne_exact; [by rewrite <- Em|]. apply Z.pow_pos_nonneg; lia. }
  apply scaled_value in Hr; [|lia].
  apply (has_value_shift _ _ _ sh) in Hr; [|lia]. replace (e + sh - sh) with e in Hr by lia.
  assert (Hv : sgn s (rne m (2 ^ sh)) * 2 ^ sh = sgn s m) by (destruct s; cbn [sgn]; lia). rewrite Hv in Hr.
  set (c' := Z.min (f_exp (binary_round_aux fprec femax s m e loc_Exact)) c).
  apply (has_value_at _ _ _ c') in Hr as [Hfin Hr]; [|lia..]. apply (has_value_at _ _ _ c'); [lia..|]. split; [done|].
  rewrite Hr. replace (e - c') with ((e - c) + (c - c')) by lia. replace (f - c') with ((f - c) + (c - c')) by lia.
  rewrite !Z.pow_add_r, !Z.mul_assoc by lia. f_equal. destruct s; cbn [sgn]; by rewrite ?Z.mul_opp_l, Heq.
Qed.

(** ** Exact operations *)
Lemma iter_xO m d : Z.pos (Pos.iter xO m d) = Z.pos m * 2 ^ Z.pos d.
Proof.
  rewrite <- (positive_nat_Z d), Pos2Nat.inj_iter. induction (Pos.to_nat d) as [|j IH]; [cbn; lia|].
  cbn [Nat.iter]. rewrite Nat2Z.inj_succ, Z.pow_succ_r by lia. cbn in *. lia.
Qed.

Lemma shl_align_spec m e e' : Z.pos (fst (shl_align m e e')) = Z.pos m * 2 ^ (e - Z.min e e')
  ∧ snd (shl_align m e e') = Z.min e e'.
Proof.
  unfold shl_align. destruct (e' - e) as [|d|d] eqn:Ed; cbn [fst snd].
  - replace (Z.min e e') with e by lia. rewrite Z.sub_diag. lia.
  - replace (Z.min e e') with e by lia. rewrite Z.sub_diag. lia.
  - rewrite iter_xO. replace (Z.min e e') with e' by lia. split; [do 2 f_equal; lia|done].
Qed.

Lemma binary_round_exact s m e V f : 0 < V < 2 ^ 53 → -1074 <= f <= 970 → e <= 970 → -1074 <= e →
  (let c := Z.min e f in Z.pos m * 2 ^ (e - c) = V * 2 ^ (f - c)) →
  has_value (binary_round fprec femax s m e) (sgn s V) f.
Proof.
  cbv zeta. intros HV Hf He He' Heq. unfold binary_round. fold (fe (Z.pos (digits2_pos m) + e)).
  destruct (shl_align_spec m e (fe (Z.pos (digits2_pos m) + e))) as [Hm Hs].
  destruct (shl_align m e _) as [mz ez]. cbn [fst snd] in *.
  assert (-1074 <= ez <= e) by (rewrite fe_spec in Hs; lia).
  apply round_aux_exact; [done..|lia|]. cbv zeta. rewrite Hm. rewrite <- Hs.
  apply (common_exponent _ _ _ _ (Z.min ez f)) in Heq; [|lia..].
  rewrite <- Z.mul_assoc, <- Z.pow_add_r by lia. by replace (e - ez + (ez - Z.min ez f)) with (e - Z.min ez f) by lia.
Qed.

Lemma normalize_exact m e V f : Z.abs V < 2 ^ 53 → -1074 <= f <= 970 → -1074 <= e <= 970 →
  (let c := Z.min e f in m * 2 ^ (e - c) = V * 2 ^ (f - c)) →
  has_value (binary_normalize fprec femax m e false) V f.
Proof.
  cbv zeta. intros HV Hf He Heq. set (c := Z.min e f) in *.
  assert (0 < 2 ^ (e - c)) by (apply Z.pow_pos_nonneg; lia). assert (0 < 2 ^ (f - c)) by (apply Z.pow_pos_nonneg; lia).
  destruct m as [|p|p]; cbn [binary_normalize].
  - assert (V = 0) as -> by nia. by split.
  - assert (0 < V) by nia. apply (binary_round_exact false p e V f); [lia..|exact Heq].
  - assert (V < 0) by nia. replace V with (sgn true (- V)) by (cbn; lia).
    apply binary_round_exact; [lia..|]. change (Z.pos p * 2 ^ (e - c) = - V * 2 ^ (f - c)). lia.
Qed.

Lemma f_of_Z_value n : Z.abs n < 2 ^ 53 → has_value (f_of_Z n) n 0.
Proof. intros Hn. apply normalize_exact; [done|lia|lia|done]. Qed.

Lemma fsub_exact x y a b e : has_value x a e → has_value y b e → Z.abs (a - b) < 2 ^ 53 → -1074 <= e <= 970 →
  f_exp x <= 970 → f_exp y <= 970 → has_value (fsub x y) (a - b) e.
Proof.
  intros Hx Hy Hab He Hex Hey. set (c := Z.min e (Z.min (f_exp x) (f_exp y))).
  apply (has_value_at _ _ _ c) in Hx as [[Fx Lx] Hx]; [|lia..]. apply (has_value_at _ _ _ c) in Hy as [[Fy Ly] Hy]; [|lia..].
  assert (Hc : (f_mant x * 2 ^ (f_exp x - c) - f_mant y * 2 ^ (f_exp y - c)) = (a - b) * 2 ^ (e - c))
    by (rewrite Hx, Hy; ring).
  assert (0 < 2 ^ (e - c)) by (apply Z.pow_pos_nonneg; lia).
  assert (Hdir : forall z V, f_isfinite z = true → -1074 <= f_exp z → c <= f_exp z → f_mant z * 2 ^ (f_exp z - c) = V * 2 ^ (e - c) → has_value z V e)
    by (intros z V Fz Lz Hez Ez; apply (has_value_at _ _ _ c); [lia..|done]).
  unfold fsub, SFsub.
  destruct x as [sx|sx| |sx mx ex], y as [sy|sy| |sy my ey]; try done; cbn [f_mant f_exp f_isfinite] in *.
  - apply Hdir; [by destruct sx, sy| | |]; destruct sx, sy; cbn; lia.
  - apply Hdir; [done|cbn; lia|cbn; lia|]. cbn [f_mant f_exp]. rewrite <- Hc. destruct sy; cbn [negb]; lia.
  - apply Hdir; [done|cbn; lia|cbn; lia|]. cbn [f_mant f_exp]. lia.
  - destruct (shl_align_spec mx ex (Z.min ex ey)) as [Ex _]. destruct (shl_align_spec my ey (Z.min ex ey)) as [Ey _].
    replace (Z.min ex (Z.min ex ey)) with (Z.min ex ey) in Ex by lia.
    replace (Z.min ey (Z.min ex ey)) with (Z.min ex ey) in Ey by lia.
    set (m := Z.min ex ey) in *. apply normalize_exact; [done|done|lia|]. cbv zeta. rewrite Ex, Ey.
    assert (Hx' : (cond_Zopp sx (Z.pos mx * 2 ^ (ex - m)) - cond_Zopp sy (Z.pos my * 2 ^ (ey - m)))
      * 2 ^ (m - Z.min m e) = (a - b) * 2 ^ (e - Z.min m e)); [|exact Hx'].
    apply (common_exponent _ _ _ _ c); [lia..|]. rewrite <- Hc.
    replace (ex - c) with ((ex - m) + (m - c)) by lia. replace (ey - c) with ((ey - m) + (m - c)) by lia.
    rewrite !Z.pow_add_r by lia. destruct sx, sy; cbn [cond_Zopp]; rewrite <- ?Pos2Z.opp_pos; ring.
Qed.

(** ** Rounded operations *)

(** A value of bounded magnitude has a bounded exponent. *)
Lemma value_exp x a e : has_value x a e → Z.abs a < 2 ^ 100 → e <= 800 → f_exp x <= 970.
Proof.
  intros [[Hf _] Hv] Ha He. cbv zeta in Hv. destruct (Z.le_gt_cases (f_exp x) 970) as [|Hgt]; [done|exfalso].
  rewrite Z.min_r, Z.sub_diag, Z.mul_1_r in Hv by lia.
  assert (2 ^ 100 <= 2 ^ (f_exp x - e)) by (apply Z.pow_le_mono_r; lia).
  assert (f_mant x ≠ 0) by (destruct x as [| | |[] m e0]; cbn in *; lia). nia.
Qed.

Lemma value_sign x a e : has_value x a e → 0 <= a → fltb x f_zero = false.
Proof.
  intros [[Hf _] Hv] Ha. cbv zeta in Hv. set (c := Z.min (f_exp x) e) in *.
  assert (0 < 2 ^ (e - c)) by (apply Z.pow_pos_nonneg; lia).
  destruct x as [| | |[] m e0]; try done. cbn [f_mant f_exp] in *.
  assert (0 < 2 ^ (e0 - c)) by (apply Z.pow_pos_nonneg; lia). nia.
Qed.

Lemma f_floor_value x a k : has_value x a (- k) → 0 <= k → f_floor x = a / 2 ^ k.
Proof.
  intros Hv Hk. set (c := Z.min (f_exp x) (Z.min 0 (- k))).
  apply (has_value_at _ _ _ c) in Hv as [[Hf _] Hv]; [|lia..].
  assert (Hp : 0 < 2 ^ (- k - c) ∧ 0 < 2 ^ k ∧ 0 < 2 ^ (- c)) by (split_and!; apply Z.pow_pos_nonneg; lia).
  assert (Hd : a / 2 ^ k = (f_mant x * 2 ^ (f_exp x - c)) / 2 ^ (- c)).
  { rewrite Hv. replace (- c) with ((- k - c) + k) by lia. rewrite Z.pow_add_r by lia.
    rewrite (Z.mul_comm (2 ^ (- k - c)) (2 ^ k)). rewrite Z.div_mul_cancel_r; lia. }
  rewrite Hd. destruct x as [s|s| |s m e]; try done; cbn [f_mant f_exp f_floor] in *.
  destruct (Z.leb_spec 0 e).
  - replace (e - c) with (e + - c) by lia. rewrite Z.pow_add_r, Z.mul_assoc, Z.div_mul by lia. done.
  - replace (2 ^ (- c)) with (2 ^ (- e) * 2 ^ (e - c)) by (rewrite <- Z.pow_add_r by lia; f_equal; lia).
    rewrite Z.div_mul_cancel_r; [done|apply Z.pow_nonzero; lia..].
Qed.

Lemma f_trunc_value x a k : has_value x a (- k) → 0 <= k → 0 <= a → f_trunc x = a / 2 ^ k.
Proof. intros Hv Hk Ha. unfold f_trunc. rewrite (value_sign _ _ _ Hv Ha). by apply f_floor_value. Qed.

Lemma location_rep n d : 0 <= n → 0 < d → rep (shr_record_of_loc (n / d) (new_location d (n mod d))) n d.
Proof.
  intros Hn Hd. pose proof (Z.mod_pos_bound n d Hd). unfold rep, new_location, new_location_even, new_location_odd.
  assert (Hodd : Z.even d = false → d mod 2 = 1) by (intros He; rewrite Zmod_even, He; done).
  destruct (Z.even d) eqn:Ed; destruct (Z.eqb_spec (n mod d) 0).
  - cbn. lia.
  - destruct (Z.compare_spec (2 * (n mod d)) d); cbn; lia.
  - cbn. lia.
  - specialize (Hodd eq_refl). destruct (Z.compare_spec (2 * (n mod d) + 1) d); cbn;
      pose proof (Z.div_mod d 2 ltac:(lia)); lia.
Qed.

Lemma rne_scale n d c : 0 < d → 0 < c → rne (n * c) (d * c) = rne n d.
Proof.
  intros Hd Hc. unfold rne. rewrite Z.div_mul_cancel_r, Z.mul_mod_distr_r by lia.
  assert (E1 : (2 * (n mod d * c) <? d * c) = (2 * (n mod d) <? d)) by (apply eq_true_iff_eq; rewrite !Z.ltb_lt; nia).
  assert (E2 : (d * c <? 2 * (n mod d * c)) = (d <? 2 * (n mod d))) by (apply eq_true_iff_eq; rewrite !Z.ltb_lt; nia).
  by rewrite E1, E2.
Qed.

(** The scale at which a quotient has 53 or 54 bits. *)
Definition ratio_scale (p q : Z) : Z := 53 - (Zdigits2 p - Zdigits2 q).

Lemma ratio_scale_spec p q : 0 < p → 0 < q → p <= 2 ^ 52 * q → q <= p * 2 ^ 100 →
  let s := ratio_scale p q in 1 <= s <= 155 ∧ 2 ^ 52 <= p * 2 ^ s / q < 2 ^ 54.
Proof.
  intros Hp Hq Hhi Hlo s. destruct (Zdigits_spec p Hp) as [Dp [Pl Ph]]. destruct (Zdigits_spec q Hq) as [Dq [Ql Qh]].
  unfold ratio_scale in s. set (dp := Zdigits2 p) in *. set (dq := Zdigits2 q) in *.
  assert (dp - dq <= 52).
  { apply Z.le_ngt. intros Hgt. assert (2 ^ (52 + dq) <= 2 ^ (dp - 1)) by (apply Z.pow_le_mono_r; lia).
    rewrite Z.pow_add_r in * by lia. lia. }
  assert (-102 <= dp - dq).
  { apply Z.le_ngt. intros Hgt. assert (2 ^ (dp + 100) <= 2 ^ (dq - 1)) by (apply Z.pow_le_mono_r; lia).
    rewrite (Z.pow_add_r 2 dp) in * by lia. lia. }
  split; [lia|].
  assert (E1 : 2 ^ 52 * 2 ^ dq = 2 ^ (dp - 1) * 2 ^ s) by (rewrite <- !Z.pow_add_r by lia; f_equal; lia).
  assert (E2 : 2 ^ 54 * 2 ^ (dq - 1) = 2 ^ dp * 2 ^ s) by (rewrite <- !Z.pow_add_r by lia; f_equal; lia).
  assert (0 < 2 ^ s) by (apply Z.pow_pos_nonneg; lia).
  split; [apply Z.div_le_lower_bound; nia|apply Z.div_lt_upper_bound; nia].
Qed.

Lemma ratio_unfold p q : 0 < p → 0 < q → 0 <= ratio_scale p q <= 155 →
  let n := p * 2 ^ ratio_scale p q in
  f_of_ratio p q = binary_round_aux fprec femax false (n / q) (- ratio_scale p q) (new_location q (n mod q)).
Proof.
  intros Hp Hq Hs n. destruct p as [|p|p]; [lia| |lia]. destruct q as [|q|q]; [lia| |lia].
  unfold f_of_ratio, SFdiv, SFdiv_core_binary. unfold ratio_scale in n, Hs |- *.
  fold (fe (Zdigits2 (Z.pos p) + 0 - (Zdigits2 (Z.pos q) + 0))). rewrite fe_spec.
  set (dp := Zdigits2 (Z.pos p)) in *. set (dq := Zdigits2 (Z.pos q)) in *.
  replace (Z.min (Z.max (dp + 0 - (dq + 0) - 53) (-1074)) (0 - 0)) with (- (53 - (dp - dq))) by lia.
  set (s := 53 - (dp - dq)) in *. replace (0 - 0 - - s) with s by lia.
  assert (Hm : (match s with Z.pos _ => Z.shiftl (Z.pos p) s | Z0 => Z.pos p | Z.neg _ => 0 end) = n)
    by (unfold n; rewrite <- Z.shiftl_mul_pow2 by lia; destruct s; [done|done|lia]).
  rewrite Hm. unfold Z.div, Z.modulo. by destruct (Z.div_eucl n (Z.pos q)).
Qed.

(** A quotient of positive integers, in the normal range and below [2^52]: 53 bits, half a unit off. *)
Lemma ratio_value p q : 0 < p → 0 < q → p <= 2 ^ 52 * q → q <= p * 2 ^ 100 →
  exists A k, 0 <= k <= 155 ∧ 2 ^ 52 <= A < 2 ^ 53 ∧ has_value (f_of_ratio p q) A (- k) ∧ 2 * Z.abs (A * q - p * 2 ^ k) <= q.
Proof.
  intros Hp Hq Hhi Hlo. destruct (ratio_scale_spec p q Hp Hq Hhi Hlo) as [Hs HQ].
  rewrite (ratio_unfold p q Hp Hq) by lia. cbv zeta. set (s := ratio_scale p q) in *. set (n := p * 2 ^ s) in *.
  assert (0 <= n) by (unfold n; assert (0 < 2 ^ s) by (apply Z.pow_pos_nonneg; lia); nia).
  assert (Hsh : shift_of (n / q) (- s) = 0 ∨ (shift_of (n / q) (- s) = 1 ∧ 2 ^ 53 <= n / q)).
  { unfold shift_of. rewrite fe_spec. destruct (Z.lt_ge_cases (n / q) (2 ^ 53)).
    - rewrite (Zdigits_unique _ 53) by lia. lia.
    - rewrite (Zdigits_unique _ 54) by lia. lia. }
  pose proof (location_rep n q ltac:(lia) Hq) as Hr.
  destruct (round_aux_spec false (n / q) (- s) _ n q ltac:(lia) Hr ltac:(lia)) as [HM Hsc].
  set (sh := shift_of (n / q) (- s)) in *. apply scaled_value in Hsc; [|lia]. set (M := rne n (q * 2 ^ sh)) in *.
  cbn [sgn] in Hsc. replace (- s + sh) with (- (s - sh)) in Hsc by lia.
  assert (HM52 : 2 ^ 52 <= M)
    by (apply rne_lower; destruct Hsh as [->|[-> ?]]; try lia; pose proof (Z.mul_div_le n q Hq); nia).
  pose proof (rne_error n (q * 2 ^ sh) ltac:(destruct Hsh as [->|[-> _]]; lia)) as Herr. fold M in Herr.
  assert (En : n = p * 2 ^ (s - sh) * 2 ^ sh)
    by (unfold n; rewrite <- Z.mul_assoc, <- Z.pow_add_r by lia; do 2 f_equal; lia).
  rewrite En in Herr.
  assert (Herr' : 2 * Z.abs (M * q - p * 2 ^ (s - sh)) <= q)
    by (destruct Hsh as [Es|[Es _]]; rewrite Es in Herr |- *; lia).
  destruct (Z.eq_dec M (2 ^ 53)) as [EM|]; [|by exists M, (s - sh); split_and!; lia || done].
  assert (s - sh ≠ 0) by (intros E0; rewrite E0, EM in Herr'; lia).
  exists (2 ^ 52), (s - sh - 1). rewrite EM in *. split; [lia|]. split; [lia|]. split.
  - replace (- (s - sh - 1)) with (- (s - sh) + 1) by lia. apply (has_value_shift _ _ _ 1); [lia|].
    replace (- (s - sh) + 1 - 1) with (- (s - sh)) by lia. exact Hsc.
  - replace (s - sh) with (Z.succ (s - sh - 1)) in Herr' by lia. rewrite Z.pow_succ_r in Herr' by lia. lia.
Qed.

Lemma value_zero x e : has_value x 0 e → exists s, x = S754_zero s.
Proof.
  intros [[Hf _] Hv]. cbv zeta in Hv. rewrite Z.mul_0_l in Hv. destruct x as [s|s| |s m e0]; try done; [eauto|exfalso].
  apply Z.mul_eq_0 in Hv as [Hv|Hv]; [by destruct s|].
  assert (0 < 2 ^ (f_exp (S754_finite s m e0) - Z.min (f_exp (S754_finite s m e0)) e)) by (apply Z.pow_pos_nonneg; lia). lia.
Qed.

Lemma zero_value s e : has_value (S754_zero s) 0 e.
Proof. split; [by split|done]. Qed.

Lemma value_pos x a e : has_value x a e → 0 < a → exists m e', x = S754_finite false m e'.
Proof.
  intros Hv Ha. pose proof (value_sign x a e Hv ltac:(lia)) as Hs. destruct Hv as [[Hf _] Hv]. cbv zeta in Hv.
  assert (0 < 2 ^ (e - Z.min (f_exp x) e)) by (apply Z.pow_pos_nonneg; lia).
  destruct x as [s|s| |[] m e']; try done; [cbn in Hv; lia|eauto].
Qed.

(** The mantissa of a product, at a common exponent. *)
Lemma product_value mx ex my ey a b k :
  has_value (S754_finite false mx ex) a (- k) → has_value (S754_finite false my ey) b 0 → 0 <= k →
  let J := Z.max k (- (ex + ey)) in Z.pos (mx * my) * 2 ^ (ex + ey + J) = a * b * 2 ^ (J - k).
Proof.
  intros Hx Hy Hk J. set (c := Z.min ex (- k)). set (c' := Z.min ey 0).
  apply (has_value_at _ _ _ c) in Hx as [_ Hx]; [|cbn; lia..]. apply (has_value_at _ _ _ c') in Hy as [_ Hy]; [|cbn; lia..].
  cbn [f_mant f_exp] in Hx, Hy. set (e := ex + ey) in *.
  assert (Hprod : Z.pos (mx * my) * 2 ^ (e - (c + c')) = a * b * 2 ^ (- k - (c + c'))).
  { replace (e - (c + c')) with ((ex - c) + (ey - c')) by lia. replace (- k - (c + c')) with ((- k - c) + (0 - c')) by lia.
    rewrite !Z.pow_add_r, Pos2Z.inj_mul by lia.
    transitivity ((Z.pos mx * 2 ^ (ex - c)) * (Z.pos my * 2 ^ (ey - c'))); [ring|].
    etransitivity; [exact (f_equal2 Z.mul Hx Hy)|]. fold c c'. ring. }
  apply common_exponent in Hprod; [|lia..]. apply (common_exponent _ _ _ _ (- J)) in Hprod; [|lia..].
  replace (e + J) with (e - - J) by lia. replace (J - k) with (- k - - J) by lia. exact Hprod.
Qed.

(** The digits of a mantissa whose value is below [2^B]. *)
Lemma magnitude B n e v k J : 0 <= B → 0 < n → n * 2 ^ (e + J) = v * 2 ^ (J - k) → v < 2 ^ (B + k) → 0 <= k <= J → 0 <= e + J →
  Zdigits2 n + e <= B.
Proof.
  intros HB Hpos Hn Hv Hk He. destruct (Zdigits_spec n Hpos) as [Hd [Hl _]]. apply Z.le_ngt. intros Hgt.
  assert (Hlo : 2 ^ (B + J) <= 2 ^ (Zdigits2 n - 1) * 2 ^ (e + J))
    by (rewrite <- Z.pow_add_r by lia; apply Z.pow_le_mono_r; lia).
  replace (B + J) with ((B + k) + (J - k)) in Hlo by lia. rewrite Z.pow_add_r in Hlo by lia.
  assert (0 < 2 ^ (J - k)) by (apply Z.pow_pos_nonneg; lia).
  assert (0 < 2 ^ (e + J)) by (apply Z.pow_pos_nonneg; lia). nia.
Qed.

(** A product below [2^B] is within [2^(B - 54)] of the exact one. *)
Lemma fmul_near B x y a b k : 0 <= B <= 53 → has_value x a (- k) → has_value y b 0 → 0 <= a → 0 <= b → 0 <= k → a * b < 2 ^ (B + k) →
  exists R J, k <= J ∧ has_value (fmul x y) R (- J) ∧ 2 * Z.abs (R - a * b * 2 ^ (J - k)) * 2 ^ (53 - B) <= 2 ^ J.
Proof.
  intros HB Hx Hy Ha Hb Hk Hab. destruct (Z.eq_dec (a * b) 0) as [E0|Hne].
  { exists 0, k. split; [lia|]. rewrite E0, Z.mul_0_l. split; [|change (Z.abs (0 - 0)) with 0; assert (0 < 2 ^ k) by (apply Z.pow_pos_nonneg; lia); lia].
    assert (Hz : a = 0 ∨ b = 0) by nia. destruct Hz as [->| ->].
    - apply value_zero in Hx as [s ->]. destruct Hy as [[Hf _] _]. destruct y; try done; apply zero_value.
    - apply value_zero in Hy as [s ->]. destruct Hx as [[Hf _] _]. destruct x; try done; apply zero_value. }
  destruct (value_pos _ _ _ Hx ltac:(nia)) as (mx & ex & ->). destruct (value_pos _ _ _ Hy ltac:(nia)) as (my & ey & ->).
  set (e := ex + ey). set (n := Z.pos (mx * my)). set (J := Z.max k (- e)).
  assert (Hn : n * 2 ^ (e + J) = a * b * 2 ^ (J - k)) by (by apply product_value).
  assert (He : Zdigits2 n + e <= B) by (apply (magnitude B n e (a * b) k J); [lia|lia|done|done|lia|lia]).
  assert (Hdn : 0 < Zdigits2 n) by (apply Zdigits_spec; lia).
  assert (Hsh : shift_of n e = 0 ∨ (0 < shift_of n e ∧ e + shift_of n e <= B - 53)) by (unfold shift_of; rewrite fe_spec; lia).
  destruct (round_aux_spec false n e loc_Exact n 1 ltac:(lia) (exact_rep n ltac:(lia)) ltac:(lia)) as [_ Hsc].
  rewrite Z.mul_1_l in Hsc. set (sh := shift_of n e) in *.
  assert (HE : -1074 <= e + sh) by (unfold sh, shift_of; rewrite fe_spec; lia).
  apply scaled_value in Hsc; [|done]. cbn [sgn] in Hsc. set (M := rne n (2 ^ sh)) in *.
  exists (M * 2 ^ (e + sh + J)), J. split; [lia|]. split.
  { replace (- J) with (e + sh - (e + sh + J)) by lia. by apply has_value_shift; [lia|]. }
  rewrite <- Hn. replace (e + sh + J) with (sh + (e + J)) by lia. rewrite Z.pow_add_r, Z.mul_assoc by lia.
  rewrite <- Z.mul_sub_distr_r, Z.abs_mul, (Z.abs_eq (2 ^ (e + J))) by (apply Z.pow_nonneg; lia).
  pose proof (rne_error n (2 ^ sh) ltac:(apply Z.pow_pos_nonneg; lia)) as Herr. fold M in Herr.
  destruct Hsh as [E0|[Hsh0 Hsh]].
  - rewrite E0 in *. assert (0 < 2 ^ J) by (apply Z.pow_pos_nonneg; lia). change (2 ^ 0) with 1 in *.
    assert (Z.abs (M * 1 - n) = 0) as -> by lia. rewrite !Z.mul_0_l. lia.
  - assert (Hp : 2 ^ sh * 2 ^ (e + J) * 2 ^ (53 - B) <= 2 ^ J) by (rewrite <- !Z.pow_add_r by lia; apply Z.pow_le_mono_r; lia).
    assert (0 < 2 ^ (e + J)) by (apply Z.pow_pos_nonneg; lia). nia.
Qed.
