(* ===== verification/FloatOrder.v ===== *)
(** * The order of rounded results

    What an operation of binary64 returns is a number of the format written canonically, so that
    comparing two results compares their values; and rounding is monotone: a result is at most any
    number of the format the exact value is at most, and at least any the exact value is at least. *)

From Stdlib Require Import SpecFloat.
From S2P Require Import Prelude PyDecimal PyFloat FloatRound.

#[local] Open Scope Z_scope.

(** The one representation of a number: 53 bits, or the smallest exponent. *)
Definition canonical (x : float) : Prop :=
  match x with S754_finite _ m e => fe (Z.pos (digits2_pos m) + e) = e ∧ e <= 971 | S754_zero _ => True | _ => False end.

Lemma canonical_valid x : canonical x ↔ f_isfinite x = true ∧ valid_binary fprec femax x = true.
Proof.
  destruct x as [s|s| |s m e]; cbn; try tauto; try (by split; [|intros []]).
  unfold bounded, canonical_mantissa. fold (fe (Z.pos (digits2_pos m) + e)). rewrite andb_true_iff, Z.eqb_eq, Z.leb_le.
  unfold femax, fprec. tauto.
Qed.

(** Every number of the format is an integer multiple of [2^-1074]. *)
Definition fint (x : float) : Z := f_mant x * 2 ^ (f_exp x + 1074).

Lemma canonical_bounds s m e : canonical (S754_finite s m e) → -1074 <= e <= 971 ∧ Z.pos m < 2 ^ 53 ∧ (e = -1074 ∨ 2 ^ 52 <= Z.pos m).
Proof.
  intros [Hc He]. rewrite fe_spec in Hc. destruct (digits_spec m) as [Hl Hh].
  assert (2 ^ Z.pos (digits2_pos m) <= 2 ^ 53) by (apply Z.pow_le_mono_r; lia).
  split; [lia|]. split; [lia|]. destruct (Z.eq_dec e (-1074)) as [|Hne]; [by left|right].
  replace 52 with (Z.pos (digits2_pos m) - 1) by lia. done.
Qed.

(** At a smaller exponent the same value has more bits to spend: the larger exponent wins. *)
Lemma exponent_wins m1 e1 m2 e2 : 0 < m1 < 2 ^ 53 → 2 ^ 52 <= m2 → -1074 <= e1 < e2 →
  m1 * 2 ^ (e1 + 1074) < m2 * 2 ^ (e2 + 1074).
Proof.
  intros H1 H2 He. replace (e2 + 1074) with ((e2 - e1 - 1) + 1 + (e1 + 1074)) by lia.
  rewrite (Z.pow_add_r 2 (e2 - e1 - 1 + 1)), (Z.pow_add_r 2 (e2 - e1 - 1)) by lia.
  assert (0 < 2 ^ (e1 + 1074)) by (apply Z.pow_pos_nonneg; lia).
  assert (0 < 2 ^ (e2 - e1 - 1)) by (apply Z.pow_pos_nonneg; lia).
  assert (2 ^ 52 * 1 <= m2 * 2 ^ (e2 - e1 - 1)) by (apply Z.mul_le_mono_nonneg; lia).
  assert (2 ^ 53 <= m2 * (2 ^ (e2 - e1 - 1) * 2 ^ 1)) by lia.
  rewrite (Z.mul_assoc m2). apply Z.mul_lt_mono_pos_r; lia.
Qed.

Lemma fint_sign s m e : canonical (S754_finite s m e) → if s then fint (S754_finite s m e) < 0 else 0 < fint (S754_finite s m e).
Proof.
  intros Hc. apply canonical_bounds in Hc as (He & _). assert (0 < 2 ^ (e + 1074)) by (apply Z.pow_pos_nonneg; lia).
  destruct s; unfold fint; cbn [f_mant f_exp]; lia.
Qed.

Lemma compare_same e1 m1 e2 m2 s1 s2 : canonical (S754_finite s1 m1 e1) → canonical (S754_finite s2 m2 e2) →
  match Z.compare e1 e2 with Eq => Pos.compare m1 m2 | c => c end
  = Z.compare (Z.pos m1 * 2 ^ (e1 + 1074)) (Z.pos m2 * 2 ^ (e2 + 1074)).
Proof.
  intros (H1 & L1 & W1)%canonical_bounds (H2 & L2 & W2)%canonical_bounds.
  destruct (Z.compare_spec e1 e2) as [->|Hlt|Hgt].
  - assert (0 < 2 ^ (e2 + 1074)) by (apply Z.pow_pos_nonneg; lia).
    destruct (Pos.compare_spec m1 m2); symmetry; [subst; apply Z.compare_refl|apply Z.compare_lt_iff|apply Z.compare_gt_iff]; nia.
  - symmetry. apply Z.compare_lt_iff. apply exponent_wins; lia.
  - symmetry. apply Z.compare_gt_iff. apply exponent_wins; lia.
Qed.

(** Comparing numbers compares their values. *)
Lemma compare_fint x y : canonical x → canonical y → SFcompare x y = Some (Z.compare (fint x) (fint y)).
Proof.
  intros Hx Hy. destruct x as [s1|s1| |s1 m1 e1], y as [s2|s2| |s2 m2 e2]; try done.
  - apply fint_sign in Hy. change (fint (S754_zero s1)) with 0. cbn [SFcompare]. f_equal.
    destruct s2; symmetry; [by apply Z.compare_gt_iff|by apply Z.compare_lt_iff].
  - apply fint_sign in Hx. change (fint (S754_zero s2)) with 0. cbn [SFcompare]. f_equal.
    destruct s1; symmetry; [by apply Z.compare_lt_iff|by apply Z.compare_gt_iff].
  - pose proof (fint_sign _ _ _ Hx). pose proof (fint_sign _ _ _ Hy). pose proof (compare_same _ _ _ _ _ _ Hx Hy) as Hs.
    destruct s1, s2; cbn [SFcompare]; f_equal; [|symmetry; apply Z.compare_lt_iff; lia|symmetry; apply Z.compare_gt_iff; lia|].
    + unfold fint. cbn [f_mant f_exp].
      change (Z.neg m1) with (- Z.pos m1). change (Z.neg m2) with (- Z.pos m2).
      rewrite !Z.mul_opp_l, Z.compare_opp, (Z.compare_antisym (Z.pos m1 * 2 ^ (e1 + 1074))), <- Hs.
      change (Pos.compare_cont Eq m1 m2) with (Pos.compare m1 m2). by destruct (e1 ?= e2), (Pos.compare m1 m2).
    + unfold fint. cbn [f_mant f_exp]. rewrite <- Hs. change (Pos.compare_cont Eq m1 m2) with (Pos.compare m1 m2). by destruct (e1 ?= e2).
Qed.

Lemma fleb_fint x y : canonical x → canonical y → fleb x y = true ↔ fint x <= fint y.
Proof.
  intros Hx Hy. unfold fleb, SFleb. rewrite (compare_fint x y Hx Hy). unfold Z.le. destruct (fint x ?= fint y); split; congruence || done.
Qed.

Lemma fltb_fint x y : canonical x → canonical y → fltb x y = true ↔ fint x < fint y.
Proof.
  intros Hx Hy. unfold fltb, SFltb. rewrite (compare_fint x y Hx Hy). unfold Z.lt. destruct (fint x ?= fint y); split; congruence || done.
Qed.

Lemma feqb_fint x y : canonical x → canonical y → feqb x y = true ↔ fint x = fint y.
Proof.
  intros Hx Hy. unfold feqb, SFeqb. rewrite (compare_fint x y Hx Hy). rewrite <- Z.compare_eq_iff. by destruct (fint x ?= fint y).
Qed.

(** ** The result of a rounding

    The mantissa rounded at the exponent its size calls for; a carry moves to the next one, and past
    the largest exponent there is only the infinity. *)
Definition make (s : bool) (M E : Z) : float :=
  if M =? 0 then S754_zero s
  else if M =? 2 ^ 53 then (if E <=? 970 then S754_finite s (Z.to_pos (2 ^ 52)) (E + 1) else S754_infinity s)
  else (if E <=? 971 then S754_finite s (Z.to_pos M) E else S754_infinity s).

Lemma renormalize_make s M E : 0 <= M <= 2 ^ 53 → -1074 <= E →
  (let '(mrs, e') := shr_fexp fprec femax M E loc_Exact in
   match shr_m mrs with
   | Z0 => S754_zero s
   | Z.pos m => if e' <=? femax - fprec then S754_finite s m e' else S754_infinity s
   | Z.neg _ => S754_nan
   end) = make s M E.
Proof.
  intros HM He. unfold make, shr_fexp. fold (fe (Zdigits2 M + E)). rewrite fe_spec.
  destruct (Z.eqb_spec M 0) as [->|H0]; [rewrite shr_nonpos by (cbn; lia); done|].
  destruct (Z.eqb_spec M (2 ^ 53)) as [->|Hne].
  - replace (Z.max (Zdigits2 (2 ^ 53) + E - 53) (-1074) - E) with 1 by (change (Zdigits2 (2 ^ 53)) with 54; lia).
    cbn -[Z.leb]. replace (E + 1 <=? femax - fprec) with (E <=? 970); [done|].
    apply eq_true_iff_eq. rewrite !Z.leb_le. unfold femax, fprec. lia.
  - pose proof (Zdigits_le M 53 ltac:(lia) ltac:(lia)). rewrite shr_nonpos by lia. cbn [shr_record_of_loc shr_m].
    destruct M as [|m|m]; [done| |lia]. reflexivity.
Qed.

Lemma digits_above m : 0 <= m → 0 <= Zdigits2 m ∧ m < 2 ^ Zdigits2 m.
Proof. intros Hm. destruct (Z.eq_dec m 0) as [->|]; [done|]. destruct (Zdigits_spec m) as (? & ? & ?); lia. Qed.

(** The exponent a mantissa of [m] is rounded at, and the rounded mantissa. *)
Lemma round_aux_make s m e l n d : 0 <= m → rep (shr_record_of_loc m l) n d → e <= fe (Zdigits2 m + e) →
  let E := fe (Zdigits2 m + e) in
  let M := rne n (d * 2 ^ (E - e)) in
  binary_round_aux fprec femax s m e l = make s M E ∧ 0 <= M <= 2 ^ 53 ∧ -1074 <= E ∧ (E = -1074 ∨ 2 ^ 52 <= M).
Proof.
  intros Hm Hr He E M. destruct (shr_fexp_rep m e l n d Hr) as [Hr' He'].
  assert (Hs : shift_of m e = E - e) by (unfold shift_of, E; lia). rewrite Hs in Hr', He'.
  unfold binary_round_aux. destruct (shr_fexp fprec femax m e l) as [mrs e'] eqn:Es. cbn [fst snd] in *.
  rewrite (round_rep _ _ _ Hr'). replace e' with E by lia. fold M.
  destruct Hr as (Hd & Hn & Hq & _). pose proof (digits_above m Hm) as [Hg Hhi].
  assert (Hmq : n / d = m) by (rewrite <- Hq; by destruct l as [|[]]).
  assert (HE : E = Z.max (Zdigits2 m + e - 53) (-1074)) by apply fe_spec.
  assert (0 < 2 ^ (E - e)) by (apply Z.pow_pos_nonneg; lia).
  assert (HM : 0 <= M <= 2 ^ 53).
  { split; [apply rne_lower; nia|]. apply rne_upper; [nia|].
    assert (n < (m + 1) * d) by (pose proof (Z.mul_succ_div_gt n d Hd); nia).
    assert (2 ^ Zdigits2 m <= 2 ^ 53 * 2 ^ (E - e)) by (rewrite <- Z.pow_add_r by lia; apply Z.pow_le_mono_r; lia). nia. }
  split; [apply renormalize_make; lia|]. split; [done|]. split; [lia|].
  destruct (Z.eq_dec E (-1074)) as [|Hne]; [by left|right]. apply rne_lower; [nia|].
  destruct (Zdigits_spec m) as [_ [Hlo _]]; [destruct (Z.eq_dec m 0) as [->|]; [cbn in HE; lia|lia]|].
  assert (2 ^ 52 * 2 ^ (E - e) = 2 ^ (Zdigits2 m - 1)) as Hp by (rewrite <- Z.pow_add_r by lia; f_equal; lia).
  assert (m * d <= n) by (pose proof (Z.mul_div_le n d Hd); nia).
  rewrite (Z.mul_comm d), Z.mul_assoc, Hp. nia.
Qed.

Lemma make_finite s M E : 0 <= M <= 2 ^ 53 → E <= 970 ∨ E = 971 ∧ M < 2 ^ 53 → -1074 <= E → E = -1074 ∨ 2 ^ 52 <= M →
  canonical (make s M E) ∧ fint (make s M E) = sgn s M * 2 ^ (E + 1074).
Proof.
  intros HM HE HE1 Hw. unfold make. destruct (Z.eqb_spec M 0) as [->|H0]; [by destruct s|].
  destruct (Z.eqb_spec M (2 ^ 53)) as [->|Hne].
  - rewrite (proj2 (Z.leb_le _ _)) by lia. change (Z.to_pos (2 ^ 52)) with 4503599627370496%positive. split.
    + cbn [canonical]. change (digits2_pos 4503599627370496) with 53%positive. rewrite fe_spec. lia.
    + unfold fint. cbn [f_mant f_exp]. replace (E + 1 + 1074) with (Z.succ (E + 1074)) by lia. rewrite Z.pow_succ_r by lia.
      destruct s; cbn [sgn]; lia.
  - rewrite (proj2 (Z.leb_le _ _)) by lia. assert (HMp : Z.pos (Z.to_pos M) = M) by (apply Z2Pos.id; lia). split.
    + cbn [canonical]. split; [|lia]. change (Z.pos (digits2_pos (Z.to_pos M))) with (Zdigits2 (Z.pos (Z.to_pos M))).
      rewrite HMp, fe_spec. pose proof (Zdigits_le M 53 ltac:(lia) ltac:(lia)). destruct Hw as [->|Hw]; [lia|].
      rewrite (Zdigits_unique M 53) by lia. lia.
    + unfold fint. cbn [f_mant f_exp]. destruct s; cbn [sgn]; lia.
Qed.

Lemma make_infinite s M E : 0 <= M <= 2 ^ 53 → E = -1074 ∨ 2 ^ 52 <= M → ~ (E <= 970 ∨ E = 971 ∧ M < 2 ^ 53) → make s M E = S754_infinity s.
Proof.
  intros HM Hw HE. unfold make. rewrite (proj2 (Z.eqb_neq M 0)) by lia.
  destruct (Z.eqb_spec M (2 ^ 53)); rewrite (proj2 (Z.leb_gt _ _)) by lia; done.
Qed.

(** *** Rounding is monotone

    [n / d * 2^e] is the exact value and [mc * 2^ec] a number of the format, both read at [b]. *)
Section Monotone.
Variables (m e : Z) (l : location) (n d : Z) (mc : positive) (ec b : Z).
Hypothesis Hm : 0 <= m.
Hypothesis Hrep : rep (shr_record_of_loc m l) n d.
Hypothesis Hprec : e <= fe (Zdigits2 m + e).
Hypothesis Hc : canonical (S754_finite false mc ec).
Hypothesis Hb : b <= e ∧ b <= ec.

Lemma mantissa_of_exact : d * m <= n < d * (m + 1) ∧ 0 < d.
Proof.
  destruct Hrep as (Hd & _ & Hq & _). assert (Hmq : n / d = m) by (rewrite <- Hq; by destruct l as [|[]]).
  pose proof (Z.mul_div_le n d Hd). pose proof (Z.mul_succ_div_gt n d Hd). nia.
Qed.

Lemma pow_split x y z : x <= y → y <= z → 2 ^ (z - x) = 2 ^ (z - y) * 2 ^ (y - x).
Proof. intros. rewrite <- Z.pow_add_r by lia. f_equal. lia. Qed.

Lemma exponent_le : n * 2 ^ (e - b) <= d * (Z.pos mc * 2 ^ (ec - b)) → fe (Zdigits2 m + e) <= ec.
Proof.
  intros Hle. destruct mantissa_of_exact as [[Hlo _] Hd]. pose proof (canonical_bounds _ _ _ Hc) as ([Hec _] & _).
  destruct (Z.eq_dec m 0) as [E0|Hm0].
  { rewrite E0 in Hprec |- *. cbn in Hprec |- *. rewrite fe_spec in *. lia. }
  destruct Hc as [Hce _]. rewrite <- Hce. rewrite !fe_spec.
  destruct (Zdigits_spec m) as [Hg [Hl _]]; [lia|]. destruct (digits_spec mc) as [_ Hh]. set (dm := Zdigits2 m) in *.
  set (dc := Z.pos (digits2_pos mc)) in *. enough (dm + e <= dc + ec) by lia. apply Z.le_ngt. intros Hgt.
  assert (P1 : 0 < 2 ^ (e - b)) by (apply Z.pow_pos_nonneg; lia). assert (P2 : 0 < 2 ^ (ec - b)) by (apply Z.pow_pos_nonneg; lia).
  assert (H0 : d * 2 ^ (dm - 1) <= n) by nia.
  assert (H1 : d * (2 ^ (dm - 1) * 2 ^ (e - b)) <= d * (Z.pos mc * 2 ^ (ec - b)))
    by (rewrite Z.mul_assoc; etransitivity; [apply Z.mul_le_mono_nonneg_r; [lia|exact H0]|done]).
  apply Z.mul_le_mono_pos_l in H1; [|done].
  assert (H2 : 2 ^ dc * 2 ^ (ec - b) <= 2 ^ (dm - 1) * 2 ^ (e - b)) by (rewrite <- !Z.pow_add_r by lia; apply Z.pow_le_mono_r; lia).
  nia.
Qed.

Lemma round_le : n * 2 ^ (e - b) <= d * (Z.pos mc * 2 ^ (ec - b)) →
  let r := binary_round_aux fprec femax false m e l in canonical r ∧ 0 <= fint r <= fint (S754_finite false mc ec).
Proof.
  intros Hle r. destruct (round_aux_make false m e l n d Hm Hrep Hprec) as (Hr & HM & HE & Hw).
  pose proof (exponent_le Hle) as HEc. destruct mantissa_of_exact as [_ Hd]. pose proof (canonical_bounds _ _ _ Hc) as (Hec & Hmc & _).
  set (E := fe (Zdigits2 m + e)) in *. set (M := rne n (d * 2 ^ (E - e))) in *.
  assert (HMle : M <= Z.pos mc * 2 ^ (ec - E)).
  { assert (P : 0 < 2 ^ (E - e)) by (apply Z.pow_pos_nonneg; lia). apply rne_upper; [nia|].
    rewrite (pow_split b e ec), (pow_split e E ec) in Hle by lia.
    assert (P2 : 0 < 2 ^ (e - b)) by (apply Z.pow_pos_nonneg; lia). apply (Z.mul_le_mono_pos_r _ _ _ P2). lia. }
  assert (Hfin : E <= 970 ∨ E = 971 ∧ M < 2 ^ 53).
  { destruct (Z.eq_dec E 971) as [E1|]; [right; split; [done|]|left; lia]. replace (ec - E) with 0 in HMle by lia. lia. }
  unfold r. rewrite Hr. destruct (make_finite false M E HM Hfin HE Hw) as [Hcan ->]. split; [done|]. cbn [sgn].
  unfold fint. cbn [f_mant f_exp]. replace (ec + 1074) with ((ec - E) + (E + 1074)) by lia.
  assert (0 < 2 ^ (E + 1074)) by (apply Z.pow_pos_nonneg; lia).
  rewrite (Z.pow_add_r 2 (ec - E) (E + 1074)), Z.mul_assoc by lia. split; [nia|apply Z.mul_le_mono_nonneg_r; lia].
Qed.

Lemma exponent_ge : d * (Z.pos mc * 2 ^ (ec - b)) <= n * 2 ^ (e - b) → ec <= fe (Zdigits2 m + e).
Proof.
  intros Hle. destruct mantissa_of_exact as [[_ Hhi] Hd]. destruct Hc as [Hce _]. rewrite <- Hce. rewrite !fe_spec.
  destruct (digits_above m Hm) as [Hg Hh]. destruct (digits_spec mc) as [Hl _]. set (dm := Zdigits2 m) in *.
  set (dc := Z.pos (digits2_pos mc)) in *. enough (dc + ec <= dm + e) by lia. apply Z.le_ngt. intros Hgt.
  assert (P1 : 0 < 2 ^ (e - b)) by (apply Z.pow_pos_nonneg; lia). assert (P2 : 0 < 2 ^ (ec - b)) by (apply Z.pow_pos_nonneg; lia).
  assert (H0 : n < d * 2 ^ dm) by nia.
  assert (H1 : d * (Z.pos mc * 2 ^ (ec - b)) < d * (2 ^ dm * 2 ^ (e - b)))
    by (rewrite (Z.mul_assoc d (2 ^ dm)); eapply Z.le_lt_trans; [exact Hle|by apply Z.mul_lt_mono_pos_r]).
  apply Z.mul_lt_mono_pos_l in H1; [|done].
  assert (H2 : 2 ^ dm * 2 ^ (e - b) <= 2 ^ (dc - 1) * 2 ^ (ec - b)) by (rewrite <- !Z.pow_add_r by lia; apply Z.pow_le_mono_r; lia).
  nia.
Qed.

Lemma round_ge : d * (Z.pos mc * 2 ^ (ec - b)) <= n * 2 ^ (e - b) →
  fleb (S754_finite false mc ec) (binary_round_aux fprec femax false m e l) = true.
Proof.
  intros Hle. destruct (round_aux_make false m e l n d Hm Hrep Hprec) as (Hr & HM & HE & Hw).
  pose proof (exponent_ge Hle) as HEc. destruct mantissa_of_exact as [_ Hd]. pose proof (canonical_bounds _ _ _ Hc) as (Hec & Hmc & _).
  set (E := fe (Zdigits2 m + e)) in *. set (M := rne n (d * 2 ^ (E - e))) in *. rewrite Hr.
  destruct (decide (E <= 970 ∨ E = 971 ∧ M < 2 ^ 53)) as [Hfin|Hinf]; [|by rewrite make_infinite by done].
  destruct (make_finite false M E HM Hfin HE Hw) as [Hcan Hv]. apply fleb_fint; [done|done|]. rewrite Hv. cbn [sgn].
  unfold fint. cbn [f_mant f_exp]. destruct (Z.eq_dec ec E) as [->|Hne].
  - assert (HMge : Z.pos mc <= M).
    { assert (P : 0 < 2 ^ (E - e)) by (apply Z.pow_pos_nonneg; lia). apply rne_lower; [nia|].
      rewrite (pow_split b e E) in Hle by lia.
      assert (P2 : 0 < 2 ^ (e - b)) by (apply Z.pow_pos_nonneg; lia). apply (Z.mul_le_mono_pos_r _ _ _ P2). lia. }
    assert (0 < 2 ^ (E + 1074)) by (apply Z.pow_pos_nonneg; lia). nia.
  - destruct Hw as [|Hw]; [lia|]. apply Z.lt_le_incl, exponent_wins; lia.
Qed.
End Monotone.

Lemma make_number s M E : 0 <= M <= 2 ^ 53 → -1074 <= E → E = -1074 ∨ 2 ^ 52 <= M →
  canonical (make s M E) ∨ make s M E = S754_infinity s.
Proof.
  intros HM HE Hw. destruct (decide (E <= 970 ∨ E = 971 ∧ M < 2 ^ 53)) as [Hfin|Hinf].
  - left. by apply make_finite.
  - right. by apply make_infinite.
Qed.

(** ** Rounded values

    [r] is the rounding of the number [N / D], not negative, counted in units of [2^-1074]. *)
Definition rounds (r : float) (N D : Z) : Prop :=
  0 <= N ∧ 0 < D ∧ (canonical r ∨ r = S754_infinity false) ∧
  (forall c, canonical c → N <= D * fint c → canonical r ∧ 0 <= fint r <= fint c) ∧
  (forall c, canonical c → D * fint c <= N → fleb c r = true).

Lemma positive_form c : canonical c → 0 < fint c → exists mc ec, c = S754_finite false mc ec.
Proof.
  intros Hc Hp. destruct c as [s|s| |[] m e]; try done; [|by exists m, e]. pose proof (fint_sign _ _ _ Hc). cbn in *. lia.
Qed.

Lemma rounds_zero s D : 0 < D → rounds (S754_zero s) 0 D.
Proof.
  intros HD. unfold rounds. change (fint (S754_zero s)) with 0. split; [lia|]. split; [done|]. split; [by left|].
  split; intros c Hc Hle; [split; [done|]; nia|]. apply fleb_fint; [done|done|]. change (fint (S754_zero s)) with 0. nia.
Qed.

Lemma fleb_make c M E : canonical c → fint c <= 0 → 0 <= M <= 2 ^ 53 → -1074 <= E → E = -1074 ∨ 2 ^ 52 <= M →
  fleb c (make false M E) = true.
Proof.
  intros Hc Hn HM HE Hw. destruct (decide (E <= 970 ∨ E = 971 ∧ M < 2 ^ 53)) as [Hfin|Hinf].
  - destruct (make_finite false M E HM Hfin HE Hw) as [Hcan Hv]. apply fleb_fint; [done|done|]. rewrite Hv. cbn [sgn].
    assert (0 < 2 ^ (E + 1074)) by (apply Z.pow_pos_nonneg; lia). nia.
  - rewrite make_infinite by done. by destruct c as [| | |[]].
Qed.

(** The exact value [n / d * 2^e] as a number of units, at any base [b] below both exponents. *)
Definition units_at (n d e N D b : Z) : Prop := b <= e ∧ b <= -1074 ∧ n * 2 ^ (e - b) * D = N * 2 ^ (-1074 - b) * d.

Lemma units_compare n d e N D b mc ec : 0 < d → 0 < D → units_at n d e N D b → -1074 <= ec →
  (n * 2 ^ (e - b) <= d * (Z.pos mc * 2 ^ (ec - b)) ↔ N <= D * fint (S754_finite false mc ec)) ∧
  (d * (Z.pos mc * 2 ^ (ec - b)) <= n * 2 ^ (e - b) ↔ D * fint (S754_finite false mc ec) <= N).
Proof.
  intros Hd HD (Hbe & Hb & Heq) Hec. unfold fint. cbn [f_mant f_exp].
  assert (K : 0 < 2 ^ (-1074 - b)) by (apply Z.pow_pos_nonneg; lia).
  assert (Ec : 2 ^ (ec - b) = 2 ^ (ec + 1074) * 2 ^ (-1074 - b)) by (rewrite <- Z.pow_add_r by lia; f_equal; lia). rewrite Ec.
  set (P := 2 ^ (ec + 1074)) in *. set (Q := 2 ^ (-1074 - b)) in *. set (R := n * 2 ^ (e - b)) in *. clearbody P Q R.
  assert (HQd : 0 < Q * d) by nia.
  rewrite (Z.mul_le_mono_pos_r R _ D HD), (Z.mul_le_mono_pos_r _ R D HD), Heq.
  replace (N * Q * d) with (N * (Q * d)) by ring.
  replace (d * (Z.pos mc * (P * Q)) * D) with (D * (Z.pos mc * P) * (Q * d)) by ring.
  by rewrite <- !(Z.mul_le_mono_pos_r _ _ _ HQd).
Qed.

Lemma rounds_aux m e l n d N D b : 0 <= m → rep (shr_record_of_loc m l) n d → e <= fe (Zdigits2 m + e) →
  0 < N → 0 < D → units_at n d e N D b → rounds (binary_round_aux fprec femax false m e l) N D.
Proof.
  intros Hm Hr Hp HN HD Hu. pose proof (proj1 Hr) as Hd. split; [lia|]. split; [done|].
  split; [destruct (round_aux_make false m e l n d Hm Hr Hp) as (-> & ? & ? & ?); by apply make_number|].
  split; intros c Hc Hle.
  - destruct (positive_form c Hc ltac:(nia)) as (mc & ec & ->). pose proof (canonical_bounds _ _ _ Hc) as (Hec & _).
    destruct (units_compare n d e N D b mc ec Hd HD Hu ltac:(lia)) as [Hc1 _]. destruct Hu as (Hbe & Hb & _).
    apply (round_le m e l n d mc ec b); try done; [lia|by apply Hc1].
  - destruct (Z.lt_ge_cases 0 (fint c)) as [Hpos|Hneg].
    + destruct (positive_form c Hc Hpos) as (mc & ec & ->). pose proof (canonical_bounds _ _ _ Hc) as (Hec & _).
      destruct (units_compare n d e N D b mc ec Hd HD Hu ltac:(lia)) as [_ Hc1]. destruct Hu as (Hbe & Hb & _).
      apply (round_ge m e l n d mc ec b); try done; [lia|by apply Hc1].
    + destruct (round_aux_make false m e l n d Hm Hr Hp) as (-> & ? & ? & ?). by apply fleb_make.
Qed.

(** A number of the format is its own rounding. *)
Lemma rounds_exact r c D : rounds r (fint c * D) D → canonical c → canonical r ∧ fint r = fint c.
Proof.
  intros (HN & HD & _ & Hle & Hge) Hc. destruct (Hle c Hc ltac:(lia)) as [Hr Hb]. split; [done|].
  specialize (Hge c Hc ltac:(lia)). apply fleb_fint in Hge; [lia|done|done].
Qed.

(** A rounding below a number of the format is a number. *)
Lemma rounds_le r c N D : rounds r N D → canonical c → N <= D * fint c → canonical r ∧ 0 <= fint r <= fint c.
Proof. intros (_ & _ & _ & H & _). apply H. Qed.

Lemma rounds_ge r c N D : rounds r N D → canonical c → D * fint c <= N → fleb c r = true.
Proof. intros (_ & _ & _ & _ & H). apply H. Qed.

Lemma rounds_finite r N D : rounds r N D → f_isfinite r = true → canonical r.
Proof. by intros (_ & _ & [Hr| ->] & _). Qed.

(** *** The operations *)
Lemma aligned_digits m e ez : ez <= e → ez <= fe (Z.pos (digits2_pos m) + e) →
  ez <= fe (Zdigits2 (Z.pos m * 2 ^ (e - ez)) + ez).
Proof.
  intros Hle Hfe. destruct (digits_spec m) as [Hl Hh]. assert (0 < 2 ^ (e - ez)) by (apply Z.pow_pos_nonneg; lia).
  rewrite (Zdigits_unique _ (Z.pos (digits2_pos m) + (e - ez))); [by replace (_ + (e - ez) + ez) with (Z.pos (digits2_pos m) + e) by lia|lia|].
  replace (Z.pos (digits2_pos m) + (e - ez) - 1) with ((Z.pos (digits2_pos m) - 1) + (e - ez)) by lia.
  rewrite !(Z.pow_add_r 2 _ (e - ez)) by lia.
  split; [by apply Z.mul_le_mono_nonneg_r; lia|by apply Z.mul_lt_mono_pos_r].
Qed.

Lemma normalize_rounds n e N D b : 0 <= n → -1074 <= e → 0 < D → units_at n 1 e N D b → rounds (binary_normalize fprec femax n e false) N D.
Proof.
  intros Hn He HD Hu. destruct (Z.eq_dec n 0) as [->|Hne].
  { destruct Hu as (_ & Hb & Hu). assert (0 < 2 ^ (-1074 - b)) by (apply Z.pow_pos_nonneg; lia).
    assert (N = 0) as -> by nia. cbn. by apply rounds_zero. }
  destruct n as [|m|m]; [done| |lia]. cbn [binary_normalize]. unfold binary_round.
  fold (fe (Z.pos (digits2_pos m) + e)).
  destruct (shl_align_spec m e (fe (Z.pos (digits2_pos m) + e))) as [Hm Hs]. destruct (shl_align m e _) as [mz ez]. cbn [fst snd] in *.
  destruct Hu as (Hbe & Hb & Hu). assert (K : 0 < 2 ^ (-1074 - b)) by (apply Z.pow_pos_nonneg; lia).
  assert (Hez : -1074 <= ez <= e) by (rewrite fe_spec in Hs; lia). assert (K2 : 0 < 2 ^ (e - b)) by (apply Z.pow_pos_nonneg; lia).
  apply (rounds_aux (Z.pos mz) ez _ (Z.pos mz) 1 N D b); [lia|apply exact_rep; lia| |nia|done|].
  - rewrite Hm, <- Hs. apply (aligned_digits m e ez); lia.
  - split; [lia|]. split; [done|]. rewrite <- Hu, Hm, <- Hs. rewrite <- (Z.mul_assoc (Z.pos m)), <- Z.pow_add_r by lia.
    do 3 f_equal. lia.
Qed.

Lemma f_of_Z_rounds n : 0 <= n → rounds (f_of_Z n) (n * 2 ^ 1074) 1.
Proof.
  intros Hn. unfold f_of_Z. apply (normalize_rounds n 0 _ 1 (-1074)); [done|lia|lia|]. split; [lia|]. split; [lia|].
  change (0 - -1074) with 1074. change (-1074 - -1074) with 0. lia.
Qed.

Lemma aligned_fint s m e e' : canonical (S754_finite s m e) → e' <= e → -1074 <= e' →
  cond_Zopp s (Z.pos (fst (shl_align m e (Z.min e e')))) * 2 ^ (Z.min e e' + 1074) = fint (S754_finite s m e).
Proof.
  intros Hc He He'. destruct (shl_align_spec m e (Z.min e e')) as [-> _]. unfold fint. cbn [f_mant f_exp].
  replace (Z.min e (Z.min e e')) with e' by lia. replace (Z.min e e') with e' by lia.
  assert (E : 2 ^ (e + 1074) = 2 ^ (e - e') * 2 ^ (e' + 1074)) by (rewrite <- Z.pow_add_r by lia; f_equal; lia).
  rewrite E. destruct s; cbn [cond_Zopp]; lia.
Qed.

Lemma number_rounds x : canonical x → 0 <= fint x → rounds x (fint x) 1.
Proof.
  intros Hx Hp. unfold rounds. split; [done|]. split; [lia|]. split; [by left|]. split; intros c Hc Hle; [split; [done|lia]|].
  apply fleb_fint; [done|done|lia].
Qed.

(** Two aligned mantissas, added or subtracted, at the smaller exponent. *)
Lemma aligned_rounds op s1 m1 e1 s2 m2 e2 : (forall a b k, op a b * k = op (a * k) (b * k)) →
  canonical (S754_finite s1 m1 e1) → canonical (S754_finite s2 m2 e2) →
  let N := op (fint (S754_finite s1 m1 e1)) (fint (S754_finite s2 m2 e2)) in 0 <= N →
  let ez := Z.min e1 e2 in
  rounds (binary_normalize fprec femax (op (cond_Zopp s1 (Z.pos (fst (shl_align m1 e1 ez))))
    (cond_Zopp s2 (Z.pos (fst (shl_align m2 e2 ez))))) ez false) N 1.
Proof.
  intros Hop H1 H2 N HN ez. pose proof (canonical_bounds _ _ _ H1) as (B1 & _). pose proof (canonical_bounds _ _ _ H2) as (B2 & _).
  assert (K : 0 < 2 ^ (ez + 1074)) by (apply Z.pow_pos_nonneg; lia).
  set (n := op _ _) at 1. assert (Hn : n * 2 ^ (ez + 1074) = N).
  { unfold n, N. rewrite Hop. f_equal.
    - rewrite <- (aligned_fint s1 m1 e1 ez H1) by lia. by replace (Z.min e1 ez) with ez by lia.
    - rewrite <- (aligned_fint s2 m2 e2 ez H2) by lia. by replace (Z.min e2 ez) with ez by lia. }
  apply (normalize_rounds n ez N 1 (-1074)); [nia|lia|lia|]. split; [lia|]. split; [lia|].
  change (-1074 - -1074) with 0. replace (ez - -1074) with (ez + 1074) by lia. lia.
Qed.

Lemma fsub_rounds x y : canonical x → canonical y → fint y <= fint x → rounds (fsub x y) (fint x - fint y) 1.
Proof.
  intros Hx Hy Hle. destruct x as [s1|s1| |s1 m1 e1], y as [s2|s2| |s2 m2 e2]; try done.
  - destruct s1, s2; by apply rounds_zero.
  - cbn [fsub SFsub]. replace (fint (S754_zero s1) - _) with (fint (S754_finite (negb s2) m2 e2))
      by (unfold fint; destruct s2; cbn [f_mant f_exp negb]; lia).
    apply number_rounds; [done|]. change (fint (S754_zero s1)) with 0 in Hle. unfold fint in *. cbn [f_mant f_exp] in *. destruct s2; cbn [negb]; lia.
  - change (fint (S754_zero s2)) with 0 in *. rewrite Z.sub_0_r. by apply number_rounds.
  - cbn [fsub SFsub]. apply (aligned_rounds Z.sub); [intros; ring|done|done|lia].
Qed.

Lemma fadd_rounds x y : canonical x → canonical y → 0 <= fint x + fint y → rounds (fadd x y) (fint x + fint y) 1.
Proof.
  intros Hx Hy Hle. destruct x as [s1|s1| |s1 m1 e1], y as [s2|s2| |s2 m2 e2]; try done.
  - destruct s1, s2; by apply rounds_zero.
  - cbn [fadd SFadd]. change (fint (S754_zero s1)) with 0 in *. rewrite Z.add_0_l in *. by apply number_rounds.
  - cbn [fadd SFadd]. change (fint (S754_zero s2)) with 0 in *. rewrite Z.add_0_r in *. by apply number_rounds.
  - cbn [fadd SFadd]. apply (aligned_rounds Z.add); [intros; ring|done|done|lia].
Qed.

(** The exponent of a quotient. *)
Definition quotient_exp (m1 : positive) (e1 : Z) (m2 : positive) (e2 : Z) : Z :=
  Z.min (fe (Z.pos (digits2_pos m1) + e1 - (Z.pos (digits2_pos m2) + e2))) (e1 - e2).

Lemma div_unfold s1 m1 e1 s2 m2 e2 :
  let e := quotient_exp m1 e1 m2 e2 in
  let n := Z.pos m1 * 2 ^ (e1 - e2 - e) in
  SFdiv fprec femax (S754_finite s1 m1 e1) (S754_finite s2 m2 e2)
  = binary_round_aux fprec femax (xorb s1 s2) (n / Z.pos m2) e (new_location (Z.pos m2) (n mod Z.pos m2)).
Proof.
  intros e n. unfold SFdiv, SFdiv_core_binary. cbn [Zdigits2].
  fold (fe (Z.pos (digits2_pos m1) + e1 - (Z.pos (digits2_pos m2) + e2))). fold (quotient_exp m1 e1 m2 e2). fold e.
  assert (Hm : (match e1 - e2 - e with Z.pos _ => Z.shiftl (Z.pos m1) (e1 - e2 - e) | Z0 => Z.pos m1 | Z.neg _ => 0 end) = n).
  { assert (e <= e1 - e2) by (unfold e, quotient_exp; lia). unfold n. rewrite <- Z.shiftl_mul_pow2 by lia. destruct (e1 - e2 - e) eqn:Ed; [done|done|lia]. }
  rewrite Hm. unfold Z.div, Z.modulo. by destruct (Z.div_eucl n (Z.pos m2)).
Qed.

(** A quotient keeps at least the digits the rounding needs. *)
Lemma quotient_digits m1 e1 m2 e2 :
  let e := quotient_exp m1 e1 m2 e2 in
  e <= fe (Zdigits2 (Z.pos m1 * 2 ^ (e1 - e2 - e) / Z.pos m2) + e).
Proof.
  intros e. assert (He : e <= e1 - e2) by (unfold e, quotient_exp; lia). set (q := _ / _).
  set (k := Z.pos (digits2_pos m1) + e1 - (Z.pos (digits2_pos m2) + e2)).
  assert (Hk : e <= fe k) by (unfold e, quotient_exp; fold k; lia). rewrite fe_spec in *.
  destruct (digits_spec m1) as [L1 H1]. destruct (digits_spec m2) as [L2 H2].
  assert (Hq : 0 <= q) by (apply Z.div_pos; [|done]; apply Z.mul_nonneg_nonneg; [done|apply Z.pow_nonneg; lia]).
  destruct (Z.le_gt_cases e (-1074)) as [|Hgt]; [lia|]. enough (k <= Zdigits2 q + e) by lia.
  apply Z.le_ngt. intros Hlt. destruct (digits_above q Hq) as [Hd Hup].
  assert (Hm : Z.pos m1 * 2 ^ (e1 - e2 - e) < Z.pos m2 * (q + 1)) by (unfold q; rewrite Z.add_1_r; by apply Z.mul_succ_div_gt).
  assert (A : 2 ^ (Z.pos (digits2_pos m1) - 1) * 2 ^ (e1 - e2 - e) < 2 ^ Z.pos (digits2_pos m2) * 2 ^ Zdigits2 q).
  { eapply Z.le_lt_trans; [|eapply Z.lt_le_trans; [exact Hm|]].
    - apply Z.mul_le_mono_nonneg_r; [apply Z.pow_nonneg; lia|done].
    - apply Z.mul_le_mono_nonneg; lia. }
  rewrite <- !Z.pow_add_r in A by lia. apply Z.pow_lt_mono_r_iff in A; [|lia|lia]. unfold k in Hlt. lia.
Qed.

Lemma div_rounds m1 e1 m2 e2 N D b : 0 < N → 0 < D → b <= quotient_exp m1 e1 m2 e2 → b <= -1074 →
  Z.pos m1 * 2 ^ (e1 - e2 - b) * D = N * 2 ^ (-1074 - b) * Z.pos m2 →
  rounds (SFdiv fprec femax (S754_finite false m1 e1) (S754_finite false m2 e2)) N D.
Proof.
  intros HN HD Hb Hb' Heq. rewrite div_unfold. cbv zeta. cbn [xorb]. pose proof (quotient_digits m1 e1 m2 e2) as Hq. cbv zeta in Hq.
  set (e := quotient_exp m1 e1 m2 e2) in *. assert (He : e <= e1 - e2) by (unfold e, quotient_exp; lia).
  set (n := Z.pos m1 * 2 ^ (e1 - e2 - e)) in *. assert (Hn : 0 <= n) by (apply Z.mul_nonneg_nonneg; [done|apply Z.pow_nonneg; lia]).
  apply (rounds_aux _ e _ n (Z.pos m2) N D b); [by apply Z.div_pos|by apply location_rep|done|done|done|].
  split; [done|]. split; [done|]. rewrite <- Heq. unfold n. rewrite <- (Z.mul_assoc (Z.pos m1)), <- Z.pow_add_r by lia.
  do 3 f_equal. lia.
Qed.

Lemma fdiv_rounds x y : canonical x → canonical y → 0 <= fint x → 0 < fint y → rounds (fdiv x y) (fint x * 2 ^ 1074) (fint y).
Proof.
  intros Hx Hy Hpx Hpy. destruct (positive_form y Hy Hpy) as (m2 & e2 & ->). pose proof (canonical_bounds _ _ _ Hy) as (B2 & _).
  destruct (Z.eq_dec (fint x) 0) as [E0|Hne].
  { rewrite E0, Z.mul_0_l. destruct x as [s|s| |s m e]; try done; [by apply rounds_zero|].
    pose proof (fint_sign _ _ _ Hx). destruct s; lia. }
  destruct (positive_form x Hx ltac:(lia)) as (m1 & e1 & ->). pose proof (canonical_bounds _ _ _ Hx) as (B1 & _).
  set (b := Z.min (quotient_exp m1 e1 m2 e2) (-1074)). assert (Hb : b <= e1 - e2) by (unfold b, quotient_exp; lia).
  apply (div_rounds m1 e1 m2 e2 _ _ b); [apply Z.mul_pos_pos; lia|done|lia|lia|].
  unfold fint. cbn [f_mant f_exp].
  transitivity (Z.pos m1 * Z.pos m2 * (2 ^ (e1 - e2 - b) * 2 ^ (e2 + 1074))); [ring|].
  transitivity (Z.pos m1 * Z.pos m2 * (2 ^ (e1 + 1074) * 2 ^ 1074 * 2 ^ (-1074 - b))); [|ring].
  rewrite <- !Z.pow_add_r by lia. do 2 f_equal. lia.
Qed.

Lemma ratio_rounds p q : 0 <= p → 0 < q → rounds (f_of_ratio p q) (p * 2 ^ 1074) q.
Proof.
  intros Hp Hq. destruct q as [|q|q]; [done| |done]. destruct p as [|p|p]; [cbn; by apply rounds_zero| |done]. cbn [f_of_ratio].
  set (b := Z.min (quotient_exp p 0 q 0) (-1074)).
  apply (div_rounds p 0 q 0 _ _ b); [apply Z.mul_pos_pos; [done|by apply Z.pow_pos_nonneg]|done|lia|lia|].
  assert (E : 2 ^ (0 - 0 - b) = 2 ^ 1074 * 2 ^ (-1074 - b)) by (rewrite <- Z.pow_add_r by lia; f_equal; lia). rewrite E. ring.
Qed.

(** ** Ratios in the unit interval *)
Lemma fint_one : canonical f_one ∧ fint f_one = 2 ^ 1074.
Proof. split; [split; [vm_compute; reflexivity|vm_compute; discriminate]|vm_compute; reflexivity]. Qed.

Lemma fint_zero : canonical f_zero ∧ fint f_zero = 0.
Proof. done. Qed.

Lemma ratio_unit p q : 0 <= p <= q → 0 < q → canonical (f_of_ratio p q) ∧ 0 <= fint (f_of_ratio p q) <= 2 ^ 1074.
Proof.
  intros Hp Hq. destruct fint_one as [H1 E1].
  destruct (rounds_le _ f_one _ _ (ratio_rounds p q (proj1 Hp) Hq) H1) as [Hc Hb]; [rewrite E1; apply Z.mul_le_mono_nonneg_r; [by apply Z.pow_nonneg|lia]|].
  rewrite E1 in Hb. done.
Qed.

Lemma unit_interval x : canonical x → 0 <= fint x <= 2 ^ 1074 → fleb f_zero x = true ∧ fleb x f_one = true.
Proof.
  intros Hx Hb. destruct fint_one as [H1 E1]. split; apply fleb_fint; try done; [exact (proj1 Hb)|rewrite E1; exact (proj2 Hb)].
Qed.

(** A part of a whole is a number between zero and one. *)
Lemma ratio_in_unit p q : 0 <= p <= q → 0 < q → fleb f_zero (f_of_ratio p q) = true ∧ fleb (f_of_ratio p q) f_one = true.
Proof. intros Hp Hq. destruct (ratio_unit p q Hp Hq). by apply unit_interval. Qed.

(** A part that is not nothing is a positive number, however small the share. *)
Lemma ratio_positive p q : 0 < p → 0 < q → q <= p * 2 ^ 1000 → fltb f_zero (f_of_ratio p q) = true.
Proof.
  intros Hp Hq Hs. pose proof (ratio_rounds p q ltac:(lia) Hq) as Hr.
  set (c := S754_finite false 1 (-1074)).
  assert (Hc : canonical c) by (split; [vm_compute; reflexivity|vm_compute; discriminate]).
  assert (Ec : fint c = 1) by reflexivity.
  assert (Hle : fleb c (f_of_ratio p q) = true).
  { apply (rounds_ge _ _ _ _ Hr Hc). rewrite Ec, Z.mul_1_r. etransitivity; [exact Hs|]. apply Z.mul_le_mono_nonneg_l; [lia|].
    apply Z.pow_le_mono_r; lia. }
  apply fltb_spec. split; [done|]. split; [by apply fleb_spec in Hle as (_ & ? & _)|].
  destruct (fleb (f_of_ratio p q) f_zero) eqn:E; [|done]. pose proof (fleb_trans c _ _ Hle E) as Hbad. by vm_compute in Hbad.
Qed.

(** A float made of a decimal is a number of the format unless it overflows. *)
Lemma normalize_number n e : -1074 <= e → f_isfinite (binary_normalize fprec femax n e false) = true →
  canonical (binary_normalize fprec femax n e false).
Proof.
  intros He. destruct (Z.le_gt_cases 0 n) as [Hn|Hn].
  - apply (rounds_finite _ (n * 2 ^ (e + 1074)) 1). apply (normalize_rounds n e _ 1 (-1074)); [done|done|lia|].
    split; [lia|]. split; [lia|]. change (-1074 - -1074) with 0. replace (e - -1074) with (e + 1074) by lia. lia.
  - destruct n as [|m|m]; [lia|lia|]. cbn [binary_normalize]. unfold binary_round. fold (fe (Z.pos (digits2_pos m) + e)).
    destruct (shl_align_spec m e (fe (Z.pos (digits2_pos m) + e))) as [Hm Hs]. destruct (shl_align m e _) as [mz ez]. cbn [fst snd] in *.
    assert (Hp : ez <= fe (Zdigits2 (Z.pos mz) + ez)) by (rewrite Hm, <- Hs; apply (aligned_digits m e ez); lia).
    destruct (round_aux_make true (Z.pos mz) ez loc_Exact (Z.pos mz) 1 ltac:(lia) (exact_rep (Z.pos mz) ltac:(lia)) Hp) as (-> & HM & HE & Hw).
    destruct (make_number true _ _ HM HE Hw) as [|Hi]; [done|]. by rewrite Hi.
Qed.

Lemma ratio_number p q : f_isfinite (f_of_ratio p q) = true → canonical (f_of_ratio p q).
Proof.
  destruct p as [|p|p], q as [|q|q]; try done; cbn [f_of_ratio]; rewrite div_unfold; cbv zeta;
    pose proof (quotient_digits p 0 q 0) as Hq; cbv zeta in Hq; set (e := quotient_exp p 0 q 0) in *;
    set (n := Z.pos p * 2 ^ (0 - 0 - e)) in *;
    assert (Hn : 0 <= n) by (apply Z.mul_nonneg_nonneg; [done|apply Z.pow_nonneg; lia]);
    match goal with |- context [binary_round_aux _ _ ?s] =>
      destruct (round_aux_make s _ e _ _ _ (Z.div_pos n (Z.pos q) Hn ltac:(done)) (location_rep n (Z.pos q) Hn ltac:(done)) Hq) as (-> & HM & HE & Hw);
      destruct (make_number s _ _ HM HE Hw) as [|Hi]; [done|by rewrite Hi] end.
Qed.

Lemma f_of_decimal_number d : f_isfinite (f_of_decimal d) = true → canonical (f_of_decimal d).
Proof. unfold f_of_decimal. destruct (0 <=? dexp d); [apply normalize_number; lia|apply ratio_number]. Qed.

(** The powers of two of the format. *)
Lemma power_of_two k : 0 <= k <= 2045 → exists c, canonical c ∧ fint c = 2 ^ k.
Proof.
  intros Hk. destruct (Z.le_gt_cases k 52) as [Hle|Hgt].
  - assert (HP : 0 < 2 ^ k) by (apply Z.pow_pos_nonneg; lia). exists (S754_finite false (Z.to_pos (2 ^ k)) (-1074)). split.
    + split; [|lia]. change (Z.pos (digits2_pos (Z.to_pos (2 ^ k)))) with (Zdigits2 (Z.pos (Z.to_pos (2 ^ k)))).
      rewrite Z2Pos.id by done. rewrite (Zdigits_unique _ (k + 1)); [rewrite fe_spec; lia|lia|].
      replace (k + 1 - 1) with k by lia. split; [done|apply Z.pow_lt_mono_r; lia].
    + unfold fint. cbn [f_mant f_exp]. rewrite Z2Pos.id by done. change (-1074 + 1074) with 0. lia.
  - exists (S754_finite false 4503599627370496 (k - 52 - 1074)). split.
    + cbn [canonical]. change (digits2_pos 4503599627370496) with 53%positive. rewrite fe_spec. lia.
    + unfold fint. cbn [f_mant f_exp]. change 4503599627370496 with (2 ^ 52). rewrite <- Z.pow_add_r by lia. f_equal. lia.
Qed.

(** Two numbers of the format are at least half a unit of the larger one's exponent apart. *)
Lemma exponent_gap m e m' e' : canonical (S754_finite false m e) → canonical (S754_finite false m' e') →
  Z.pos m' * 2 ^ (e' + 1074) < Z.pos m * 2 ^ (e + 1074) →
  2 ^ Z.max 0 (e + 1073) <= Z.pos m * 2 ^ (e + 1074) - Z.pos m' * 2 ^ (e' + 1074).
Proof.
  intros (He & Hm & Hw)%canonical_bounds (He' & Hm' & Hw')%canonical_bounds Hlt.
  destruct (Z.eq_dec e (-1074)) as [->|Hne]; [change (2 ^ Z.max 0 (-1074 + 1073)) with 1; lia|].
  replace (Z.max 0 (e + 1073)) with (e + 1073) by lia. replace (e + 1074) with (1 + (e + 1073)) in * by lia.
  rewrite (Z.pow_add_r 2 1 (e + 1073)) in * by lia. change (2 ^ 1) with 2 in *. assert (K : 0 < 2 ^ (e + 1073)) by (apply Z.pow_pos_nonneg; lia).
  destruct (Z.lt_trichotomy e' e) as [Hl|[->|Hg]].
  - assert (2 ^ (e' + 1074) <= 2 ^ (e + 1073)) by (apply Z.pow_le_mono_r; lia).
    assert (Z.pos m' * 2 ^ (e' + 1074) <= (2 ^ 53 - 1) * 2 ^ (e + 1073)) by (apply Z.mul_le_mono_nonneg; lia). nia.
  - replace (e + 1074) with (1 + (e + 1073)) in * by lia. rewrite (Z.pow_add_r 2 1 (e + 1073)) in * by lia. change (2 ^ 1) with 2 in *.
    assert (Z.pos m' < Z.pos m) by (apply (Z.mul_lt_mono_pos_r (2 * 2 ^ (e + 1073))); lia).
    assert (1 * 2 ^ (e + 1073) <= (Z.pos m - Z.pos m') * 2 ^ (e + 1073)) by (apply Z.mul_le_mono_nonneg_r; lia). lia.
  - exfalso. destruct Hw' as [|Hw']; [lia|].
    pose proof (exponent_wins (Z.pos m) e (Z.pos m') e' ltac:(lia) Hw' ltac:(lia)) as Hx.
    replace (e + 1074) with (1 + (e + 1073)) in Hx by lia. rewrite (Z.pow_add_r 2 1 (e + 1073)) in Hx by lia. change (2 ^ 1) with 2 in Hx. lia.
Qed.

(** An integer of 53 bits times a power of two, in the range. *)
Lemma dyadic n k : 0 <= n < 2 ^ 53 → 0 <= k <= 1900 → exists c, canonical c ∧ fint c = n * 2 ^ k.
Proof.
  intros Hn Hk. destruct (Z.eq_dec n 0) as [->|Hne]; [by exists (S754_zero false)|].
  destruct (Zdigits_spec n ltac:(lia)) as [Hd [Hl Hh]]. pose proof (Zdigits_le n 53 ltac:(lia) ltac:(lia)) as H53.
  set (d := Zdigits2 n) in *. set (j := Z.min k (53 - d)). assert (HP : 0 < 2 ^ j) by (apply Z.pow_pos_nonneg; lia).
  assert (HM : 0 < n * 2 ^ j) by nia. exists (S754_finite false (Z.to_pos (n * 2 ^ j)) (k - j - 1074)). split.
  - split; [|lia]. change (Z.pos (digits2_pos (Z.to_pos (n * 2 ^ j)))) with (Zdigits2 (Z.pos (Z.to_pos (n * 2 ^ j)))).
    rewrite Z2Pos.id by done. rewrite (Zdigits_unique _ (d + j)); [rewrite fe_spec; lia|lia|].
    replace (d + j - 1) with (d - 1 + j) by lia. rewrite !Z.pow_add_r by lia.
    split; [by apply Z.mul_le_mono_nonneg_r; lia|by apply Z.mul_lt_mono_pos_r].
  - unfold fint. cbn [f_mant f_exp]. rewrite Z2Pos.id, <- Z.mul_assoc, <- Z.pow_add_r by lia. do 2 f_equal. lia.
Qed.

(** An integer of 53 bits is itself. *)
Lemma f_of_Z_number n : 0 <= n < 2 ^ 53 → canonical (f_of_Z n) ∧ fint (f_of_Z n) = n * 2 ^ 1074.
Proof.
  intros Hn. destruct (dyadic n 1074 Hn ltac:(lia)) as (c & Hc & Ec). pose proof (f_of_Z_rounds n (proj1 Hn)) as Hr.
  rewrite <- Ec in *. apply (rounds_exact _ c 1); [by rewrite Z.mul_1_r|done].
Qed.

(** At least a positive number, and so positive. *)
Lemma flt_of_ge u x : canonical u → 0 < fint u → fleb u x = true → fltb f_zero x = true.
Proof.
  intros Hu Hp Hle. apply fltb_spec. split; [done|]. split; [by apply fleb_spec in Hle as (_ & ? & _)|].
  destruct (fleb x f_zero) eqn:E; [|done]. pose proof (fleb_trans u x f_zero Hle E) as Hbad.
  apply fleb_fint in Hbad; [|done|done]. change (fint f_zero) with 0 in Hbad. lia.
Qed.
