(* ===== verification/MultiTest.v ===== *)
(** * stats/: corrections for testing many strategies

    Module [Corrections] is multiple_testing.py; the rest is the family-wise gates over the stationary
    bootstrap: _multi_strategy.py, reality_check.py, spa_test.py and romano_wolf.py.  Floats are
    binary64; logarithms and powers are [Libm], the generator is [PyRandom].  The errors [math]
    functions raise on overflow are not modelled. *)

From S2P Require Import Prelude PyDecimal PyFloat.

#[local] Open Scope Z_scope.

Definition f_at (l : list float) (i : nat) : float := nth i l f_zero.

(** [range(n)] sorted by a key, ascending or with [reverse=True]: equal keys keep their order. *)
Definition argsort (key : nat -> float) (n : nat) : list nat := sort_by (fun i j => fleb (key i) (key j)) (seq 0 n).
Definition argsort_desc (key : nat -> float) (n : nat) : list nat := sort_by (fun i j => fleb (key j) (key i)) (seq 0 n).

Definition enumerate (l : list nat) : list (nat * nat) := combine (seq 0 (length l)) l.

(** A loop that updates a running value and stores it at each index it visits. *)
Fixpoint sweep (step : float -> nat -> nat -> float) (visits : list (nat * nat)) (running : float)
    (adjusted : list float) : list float :=
  match visits with
  | [] => adjusted
  | (rank, idx) :: visits =>
      let running := step running rank idx in
      sweep step visits running (<[idx := running]> adjusted)
  end.

(** ** multiple_testing.py *)
Module Corrections.
Definition _DEFAULT_ALPHA : float := f_of_decimal (Dec 5 (-2)).

Record MultipleTestResult := {
  mt_method : string;
  mt_level : float;
  mt_p_values : list float;
  mt_adjusted : list float;
  mt_reject : list bool;
  mt_n_reject : nat;
}.

Definition any_reject (r : MultipleTestResult) : bool := (0 <? mt_n_reject r)%nat.

Definition _validate (p : list float) (level : float) : result (list float) :=
  guard! negb (fltb f_zero level && fltb level f_one) else MultipleTestError in
  guard! match p with [] => true | _ => false end else MultipleTestError in
  guard! negb (forallb (fun v => f_isfinite v && (fleb f_zero v && fleb v f_one)) p) else MultipleTestError in
  Ok p.

Definition count_true (l : list bool) : nat := length (List.filter id l).

Definition _result (method : string) (level : float) (p adjusted : list float) (reject : list bool)
    : MultipleTestResult :=
  {| mt_method := method; mt_level := level; mt_p_values := p; mt_adjusted := adjusted; mt_reject := reject;
     mt_n_reject := count_true reject |}.

Definition bonferroni_correct (p_values : list float) (alpha : float) : result MultipleTestResult :=
  let! p := _validate p_values alpha in
  let n := f_of_Z (Z.of_nat (length p)) in
  let adjusted := map (fun pi => fmin f_one (fmul pi n)) p in
  Ok (_result "bonferroni" alpha p adjusted (map (fun a => fleb a alpha) adjusted)).

Definition holm_step (p : list float) (running : float) (rank idx : nat) : float :=
  fmax running (fmin f_one (fmul (f_of_Z (Z.of_nat (length p - rank))) (f_at p idx))).

Definition holm_bonferroni_correct (p_values : list float) (alpha : float) : result MultipleTestResult :=
  let! p := _validate p_values alpha in
  let order := argsort (f_at p) (length p) in
  let adjusted := sweep (holm_step p) (enumerate order) f_zero (repeat f_zero (length p)) in
  Ok (_result "holm" alpha p adjusted (map (fun a => fleb a alpha) adjusted)).

Definition bh_step (p : list float) (running : float) (rank idx : nat) : float :=
  fmin (fmin running f_one)
    (fdiv (fmul (f_at p idx) (f_of_Z (Z.of_nat (length p)))) (f_of_Z (Z.of_nat (rank + 1)))).

Definition bh_fdr_correct (p_values : list float) (q : float) : result MultipleTestResult :=
  let! p := _validate p_values q in
  let order := argsort (f_at p) (length p) in
  let adjusted := sweep (bh_step p) (rev (enumerate order)) f_one (repeat f_zero (length p)) in
  Ok (_result "bh_fdr" q p adjusted (map (fun a => fleb a q) adjusted)).
End Corrections.

(** ** _multi_strategy.py *)
Definition _MIN_OBS : nat := 2.
Definition _MIN_STRATEGIES : nat := 1.

(** [math.sqrt] of a number. *)
Definition py_sqrt (x : float) : result float := if fltb x f_zero then Err ValueError else Ok (fsqrt x).

Definition differential_row (bench s : list float) : result (list float) :=
  let row := zip_with fsub s bench in
  guard! negb (forallb f_isfinite row) else MultiStrategyError in Ok row.

(** The differentials, their means, and the two sizes. *)
Definition prepare_differentials (strategy_returns : list (list float)) (bench_returns : option (list float))
    : result (list (list float) * list float * nat * nat) :=
  let n_strategies := length strategy_returns in
  guard! (n_strategies <? _MIN_STRATEGIES)%nat else MultiStrategyError in
  let n_obs := length (nth 0 strategy_returns []) in
  guard! (n_obs <? _MIN_OBS)%nat else MultiStrategyError in
  guard! existsb (fun s => negb (length s =? n_obs)%nat) strategy_returns else MultiStrategyError in
  let! bench := match bench_returns with
                | None => Ok (repeat f_zero n_obs)
                | Some bench => guard! negb (length bench =? n_obs)%nat else MultiStrategyError in Ok bench
                end in
  let! d := rmap (differential_row bench) strategy_returns in
  Ok (d, map (fun row => fdiv (fsum row) (f_of_nat n_obs)) d, n_obs, n_strategies).

Section Bootstrap.
Context `{PyRandom}.

Fixpoint indices_from (steps : nat) (n : Z) (p : float) (last : Z) (g : rng) : rng * list Z :=
  match steps with
  | O => (g, [])
  | S steps =>
      let '(g, u) := random g in
      let '(g, i) := if fltb u p then randrange g n else (g, (last + 1) mod n) in
      let '(g, idx) := indices_from steps n p i g in
      (g, i :: idx)
  end.

Definition stationary_bootstrap_indices (n : nat) (block_length : Z) (g : rng) : rng * list Z :=
  let p := fdiv f_one (f_of_Z block_length) in
  let '(g, first) := randrange g (Z.of_nat n) in
  let '(g, idx) := indices_from (n - 1) (Z.of_nat n) p first g in
  (g, first :: idx).

Fixpoint bootstrap_rows (draws : nat) (d : list (list float)) (n_obs : nat) (block_length : Z) (g : rng)
    : list (list float) :=
  match draws with
  | O => []
  | S draws =>
      let '(g, idx) := stationary_bootstrap_indices n_obs block_length g in
      map (fun row => fdiv (fsum (map (fun i => f_at row (Z.to_nat i)) idx)) (f_of_nat n_obs)) d
      :: bootstrap_rows draws d n_obs block_length g
  end.

Definition bootstrap_differential_means (d : list (list float)) (n_obs : nat) (n_bootstrap block_length : Z)
    (seed : option Z) : list (list float) :=
  bootstrap_rows (Z.to_nat n_bootstrap) d n_obs block_length (rng_seed seed).
End Bootstrap.

(** [max(l)] of a list that is not empty, and [max(range(n), key=key)]: the first of the largest. *)
Definition max_float (l : list float) : float := match l with [] => f_zero | x :: xs => fold_left fmax xs x end.
Definition argmax (key : nat -> float) (n : nat) : nat :=
  fold_left (fun best k => if fltb (key best) (key k) then k else best) (seq 1 (n - 1)) 0%nat.

(** The share of draws at least as extreme as what was observed, never zero. *)
Definition bootstrap_p_value (count : nat) (n_bootstrap : Z) : float :=
  f_of_ratio (Z.of_nat count + 1) (n_bootstrap + 1).

Definition _MIN_BOOTSTRAP : Z := 1000.

(** ** reality_check.py *)
Definition WRC_ALPHA : float := f_of_decimal (Dec 5 (-2)).

Record RealityCheckResult := {
  wrc_p_value : float;
  wrc_max_strategy_idx : nat;
  wrc_max_differential : float;
  wrc_n_strategies : nat;
  wrc_n_obs : nat;
  wrc_block_length : Z;
  wrc_n_bootstrap : Z;
  wrc_seed : option Z;
}.

Definition wrc_reject_null_at (r : RealityCheckResult) (alpha : float) : bool := fltb (wrc_p_value r) alpha.
Definition wrc_significant (r : RealityCheckResult) : bool := wrc_reject_null_at r WRC_ALPHA.

Section RealityCheck.
Context `{PyRandom}.

Definition recentred_max (root_t : float) (dbar row : list float) : float :=
  max_float (map (fun k => fmul root_t (fsub (f_at row k) (f_at dbar k))) (seq 0 (length dbar))).

Definition reality_check (strategy_returns : list (list float)) (bench_returns : option (list float))
    (n_bootstrap block_length : Z) (seed : option Z) : result RealityCheckResult :=
  guard! n_bootstrap <? _MIN_BOOTSTRAP else RealityCheckError in
  guard! block_length <? 1 else RealityCheckError in
  let! '(d, dbar, n_obs, n_strategies) := prepare_differentials strategy_returns bench_returns in
  let root_t := fsqrt (f_of_nat n_obs) in
  let observed := fmul root_t (max_float dbar) in
  let max_idx := argmax (f_at dbar) n_strategies in
  let dstar := bootstrap_differential_means d n_obs n_bootstrap block_length seed in
  let count := length (List.filter (fun row => fleb observed (recentred_max root_t dbar row)) dstar) in
  Ok {| wrc_p_value := bootstrap_p_value count n_bootstrap; wrc_max_strategy_idx := max_idx;
        wrc_max_differential := f_at dbar max_idx; wrc_n_strategies := n_strategies; wrc_n_obs := n_obs;
        wrc_block_length := block_length; wrc_n_bootstrap := n_bootstrap; wrc_seed := seed |}.
End RealityCheck.

(** The bootstrap standard deviation of a strategy's scaled mean. *)
Definition omega_of `{Libm} (root_t : float) (dbar : list float) (dstar : list (list float)) (n_bootstrap : Z) (k : nat)
    : result float :=
  py_sqrt (fdiv (fsum (map (fun row => pow (fmul root_t (fsub (f_at row k) (f_at dbar k))) (f_of_Z 2)) dstar))
             (f_of_Z n_bootstrap)).

Definition t_stat (root_t : float) (dbar omega : list float) (k : nat) : float :=
  if fltb f_zero (f_at omega k) then fdiv (fmul root_t (f_at dbar k)) (f_at omega k) else f_zero.

(** ** spa_test.py *)
Definition SPA_ALPHA : float := f_of_decimal (Dec 5 (-2)).
Definition _MIN_OBS_FOR_TAU : nat := 3.

Record SPAResult := {
  spa_p_value : float;
  spa_test_statistic : float;
  spa_max_strategy_idx : nat;
  spa_max_t_stat : float;
  spa_n_strategies : nat;
  spa_n_obs : nat;
  spa_block_length : Z;
  spa_n_bootstrap : Z;
  spa_seed : option Z;
}.

Definition spa_reject_null_at (r : SPAResult) (alpha : float) : bool := fltb (spa_p_value r) alpha.
Definition spa_significant (r : SPAResult) : bool := spa_reject_null_at r SPA_ALPHA.

Section Spa.
Context `{PyRandom} `{Libm}.

(** The statistic of one draw: the largest recentred, studentized mean, at least zero. *)
Definition boot_stat (root_t : float) (omega g row : list float) : float :=
  fold_left (fun best k => if fltb f_zero (f_at omega k)
                           then fmax best (fdiv (fmul root_t (fsub (f_at row k) (f_at g k))) (f_at omega k))
                           else best) (seq 0 (length omega)) f_zero.

Definition spa_test (strategy_returns : list (list float)) (bench_returns : option (list float))
    (n_bootstrap block_length : Z) (seed : option Z) : result SPAResult :=
  guard! n_bootstrap <? _MIN_BOOTSTRAP else SPAError in
  guard! block_length <? 1 else SPAError in
  let! '(d, dbar, n_obs, n_strategies) := prepare_differentials strategy_returns bench_returns in
  let root_t := fsqrt (f_of_nat n_obs) in
  let dstar := bootstrap_differential_means d n_obs n_bootstrap block_length seed in
  let! omega := rmap (omega_of root_t dbar dstar n_bootstrap) (seq 0 n_strategies) in
  let t_stats := map (t_stat root_t dbar omega) (seq 0 n_strategies) in
  let max_idx := argmax (f_at t_stats) n_strategies in
  let observed := fmax f_zero (f_at t_stats max_idx) in
  let! tau := py_sqrt (fmul (f_of_Z 2) (log (log (f_of_nat (Nat.max n_obs _MIN_OBS_FOR_TAU))))) in
  let g := map (fun k => if fltb f_zero (f_at omega k) && fleb (fopp tau) (f_at t_stats k)
                         then f_at dbar k else f_zero) (seq 0 n_strategies) in
  let count := length (List.filter (fun row => fleb observed (boot_stat root_t omega g row)) dstar) in
  Ok {| spa_p_value := bootstrap_p_value count n_bootstrap; spa_test_statistic := observed;
        spa_max_strategy_idx := max_idx; spa_max_t_stat := f_at t_stats max_idx; spa_n_strategies := n_strategies;
        spa_n_obs := n_obs; spa_block_length := block_length; spa_n_bootstrap := n_bootstrap; spa_seed := seed |}.
End Spa.

(** ** romano_wolf.py *)
Definition FWER_ALPHA : float := f_of_decimal (Dec 5 (-2)).

Record RomanoWolfResult := {
  rw_alpha : float;
  rw_observed_stats : list float;
  rw_adjusted_pvalues : list float;
  rw_reject : list bool;
  rw_n_rejected : nat;
  rw_n_strategies : nat;
  rw_n_obs : nat;
  rw_block_length : Z;
  rw_n_bootstrap : Z;
  rw_seed : option Z;
}.

Definition any_significant (r : RomanoWolfResult) : bool := (0 <? rw_n_rejected r)%nat.
Definition passes_fwer (r : RomanoWolfResult) : bool := any_significant r.
Definition significant_indices (r : RomanoWolfResult) : list nat :=
  List.filter (fun i => nth i (rw_reject r) false) (seq 0 (length (rw_reject r))).

(** The largest statistic of a draw over the hypotheses that remain and have a variance. *)
Definition row_max (valid : list bool) (remaining : list nat) (row : list float) : float :=
  max_float (map (f_at row) (List.filter (fun k => nth k valid false) remaining)).

(** The stepdown, from the strongest hypothesis on: the adjusted values and the rejections. *)
Section Stepdown.
Variable valid : list bool.
Variable tstar : list (list float).
Variable t_obs : list float.
Variable n_bootstrap : Z.
Variable alpha : float.

Definition rw_step (remaining : list nat) (running : float) (idx : nat) : float :=
  let count := length (List.filter (fun row => fleb (f_at t_obs idx) (row_max valid remaining row)) tstar) in
  fmax running (bootstrap_p_value count n_bootstrap).

Fixpoint rw_loop (order remaining : list nat) (running : float) (adjusted : list float) (reject : list bool)
    : list float * list bool :=
  match order with
  | [] => (adjusted, reject)
  | idx :: order =>
      let running := rw_step remaining running idx in
      let adjusted := <[idx := running]> adjusted in
      if fleb running alpha
      then rw_loop order (List.filter (fun k => negb (k =? idx)%nat) remaining) running adjusted (<[idx := true]> reject)
      else (fold_left (fun adjusted k => <[k := running]> adjusted) remaining adjusted, reject)
  end.
End Stepdown.

Definition romano_wolf_stepdown `{PyRandom} `{Libm} (strategy_returns : list (list float))
    (bench_returns : option (list float)) (alpha : float) (n_bootstrap block_length : Z) (seed : option Z)
    : result RomanoWolfResult :=
  guard! negb (fltb f_zero alpha && fltb alpha f_one) else RomanoWolfError in
  guard! n_bootstrap <? _MIN_BOOTSTRAP else RomanoWolfError in
  guard! block_length <? 1 else RomanoWolfError in
  let! '(d, dbar, n_obs, n_strat) := prepare_differentials strategy_returns bench_returns in
  let root_t := fsqrt (f_of_nat n_obs) in
  let dstar := bootstrap_differential_means d n_obs n_bootstrap block_length seed in
  let! omega := rmap (omega_of root_t dbar dstar n_bootstrap) (seq 0 n_strat) in
  let valid := map (fltb f_zero) omega in
  let t_obs := map (t_stat root_t dbar omega) (seq 0 n_strat) in
  let tstar := map (fun row => map (fun k => if nth k valid false
                 then fdiv (fmul root_t (fsub (f_at row k) (f_at dbar k))) (f_at omega k) else f_zero)
                 (seq 0 n_strat)) dstar in
  let order := argsort_desc (f_at t_obs) n_strat in
  let '(adjusted, reject) := rw_loop valid tstar t_obs n_bootstrap alpha order (seq 0 n_strat) f_zero
                               (repeat f_one n_strat) (repeat false n_strat) in
  Ok {| rw_alpha := alpha; rw_observed_stats := t_obs; rw_adjusted_pvalues := adjusted; rw_reject := reject;
        rw_n_rejected := Corrections.count_true reject; rw_n_strategies := n_strat; rw_n_obs := n_obs;
        rw_block_length := block_length; rw_n_bootstrap := n_bootstrap; rw_seed := seed |}.

(** ** Facts *)

Lemma f_at_lookup l i x : l !! i = Some x → f_at l i = x.
Proof. intros Hl. unfold f_at. by apply nth_lookup_Some. Qed.

(** The permutation the loops walk through. *)
Section Order.
Variable key : nat -> float.
Hypothesis key_num : forall i, f_isnan (key i) = false.

Lemma argsort_In n i : In i (argsort key n) ↔ (i < n)%nat.
Proof. unfold argsort. rewrite sort_by_In, in_seq. lia. Qed.

Lemma argsort_NoDup n : List.NoDup (argsort key n).
Proof. eapply Permutation_NoDup; [apply sort_by_perm|apply seq_NoDup]. Qed.

Lemma sorted_before (l : list nat) (R : nat -> nat -> Prop) i j : StronglySorted R l → In i l → In j l → ~ R j i → i ≠ j →
  exists l1 l2 l3, l = l1 ++ i :: l2 ++ j :: l3.
Proof.
  intros Hs Hi Hj Hn Hne. apply in_split in Hi as (l1 & l2 & ->). apply in_app_iff in Hj as [Hj|[Hj|Hj]].
  - exfalso. apply Hn. clear Hn. induction l1 as [|x l1 IH]; [done|]. apply StronglySorted_inv in Hs as [Hs Hall].
    destruct Hj as [->|Hj]; [|by apply IH]. rewrite List.Forall_forall in Hall. apply Hall. apply in_app_iff. right. by left.
  - congruence.
  - apply in_split in Hj as (m1 & m2 & ->). by exists l1, m1, m2.
Qed.

Lemma argsort_before n i j : (i < n)%nat → (j < n)%nat → fltb (key i) (key j) = true →
  exists l1 l2 l3, argsort key n = l1 ++ i :: l2 ++ j :: l3.
Proof.
  intros Hi Hj Hlt. apply (sorted_before _ (fun x y => fleb (key x) (key y) = true)).
  - apply sort_by_sorted; [intros; by apply fleb_total|intros x y z; apply fleb_trans].
  - by apply argsort_In.
  - by apply argsort_In.
  - apply fltb_spec in Hlt as (_ & _ & ->). done.
  - intros ->. apply fltb_spec in Hlt as (Hk & _ & Hlt). by rewrite fleb_refl in Hlt.
Qed.

Lemma argsort_desc_before n i j : (i < n)%nat → (j < n)%nat → fltb (key j) (key i) = true →
  exists l1 l2 l3, argsort_desc key n = l1 ++ i :: l2 ++ j :: l3.
Proof.
  intros Hi Hj Hlt. apply (sorted_before _ (fun x y => fleb (key y) (key x) = true)).
  - apply sort_by_sorted; [intros; by apply fleb_total|intros x y z H1 H2; by eapply fleb_trans].
  - unfold argsort_desc. rewrite sort_by_In, in_seq. lia.
  - unfold argsort_desc. rewrite sort_by_In, in_seq. lia.
  - apply fltb_spec in Hlt as (_ & _ & ->). done.
  - intros ->. apply fltb_spec in Hlt as (Hk & _ & Hlt). by rewrite fleb_refl in Hlt.
Qed.
End Order.

Lemma enumerate_snd l : map snd (enumerate l) = l.
Proof.
  unfold enumerate. generalize 0%nat. induction l as [|x l IH]; intros s; [done|]. cbn. by rewrite IH.
Qed.

Section Stable.
Variable key : nat -> float.
Hypothesis key_num : forall i, f_isnan (key i) = false.
Notation leb := (fun i j => fleb (key i) (key j)).

(** The stable order: [k] comes before [i]. *)
Definition before (k i : nat) : bool := if (k <? i)%nat then fleb (key k) (key i) else fltb (key k) (key i).

(** The place of [i] among the first [n] indices. *)
Definition place (n i : nat) : nat := length (List.filter (fun k => before k i) (seq 0 n)).

Lemma before_fleb k i : before k i = true → fleb (key k) (key i) = true.
Proof. unfold before. destruct (_ <? _)%nat; [done|]. apply fltb_fleb. Qed.

Lemma before_asym k i : before k i = true → before i k = false.
Proof.
  unfold before. destruct (Nat.ltb_spec k i), (Nat.ltb_spec i k); try lia; intros Hb; apply not_true_iff_false; intros Hc.
  - apply fltb_spec in Hc as (_ & _ & Hc). congruence.
  - apply fltb_spec in Hb as (_ & _ & Hb). congruence.
  - apply fltb_fleb in Hb. apply fltb_spec in Hc as (_ & _ & Hc). congruence.
Qed.

Lemma insert_stable x l : StronglySorted (fun k i => before k i = true) l → (forall y, In y l → (x < y)%nat) →
  StronglySorted (fun k i => before k i = true) (insert_by leb x l).
Proof.
  induction 1 as [|y ys Hs IH Hall]; intros Hx; cbn [insert_by]; [repeat constructor|].
  rewrite List.Forall_forall in Hall. pose proof (Hx y (or_introl eq_refl)) as Hy.
  destruct (fleb (key x) (key y)) eqn:E.
  - constructor; [constructor; [done|by apply List.Forall_forall]|]. apply List.Forall_forall. intros z Hz.
    unfold before. rewrite (proj2 (Nat.ltb_lt x z)) by auto. destruct Hz as [<-|Hz]; [done|].
    eapply fleb_trans; [exact E|]. by apply before_fleb, Hall.
  - constructor; [apply IH; intros z Hz; apply Hx; by right|].
    apply List.Forall_forall. intros z Hz. eapply Permutation_in in Hz; [|symmetry; apply insert_by_perm].
    destruct Hz as [<-|Hz]; [|by apply Hall]. unfold before. rewrite (proj2 (Nat.ltb_ge y x)) by lia.
    apply fltb_spec. by rewrite !key_num.
Qed.

Lemma argsort_stable n : StronglySorted (fun k i => before k i = true) (argsort key n).
Proof.
  unfold argsort. generalize 0%nat. induction n as [|n IH]; intros s; [constructor|].
  cbn [seq sort_by foldr]. apply insert_stable; [apply IH|]. intros y Hy. fold (sort_by leb (seq (S s) n)) in Hy.
  apply sort_by_In, in_seq in Hy. lia.
Qed.

Lemma filter_length_perm {A} (f : A -> bool) l l' : Permutation l l' →
  length (List.filter f l) = length (List.filter f l').
Proof. induction 1; cbn; repeat case_match; cbn; lia. Qed.

(** An index stands at its place. *)
Lemma argsort_place n l1 i l2 : argsort key n = l1 ++ i :: l2 → place n i = length l1.
Proof.
  intros E. unfold place. rewrite (filter_length_perm _ _ (argsort key n)) by apply sort_by_perm.
  pose proof (argsort_stable n) as Hs. rewrite E in Hs |- *. rewrite List.filter_app, length_app. cbn [List.filter].
  assert (Hi : before i i = false).
  { unfold before. rewrite Nat.ltb_irrefl. apply not_true_iff_false. intros (_ & _ & Hf)%fltb_spec.
    by rewrite fleb_refl in Hf. }
  rewrite Hi.
  assert (H2 : List.filter (fun k => before k i) l2 = []).
  { clear E. induction l1 as [|x l1 IH]; cbn in Hs; apply StronglySorted_inv in Hs as [Hs Hall]; [|by apply IH].
    rewrite List.Forall_forall in Hall. clear -Hall. induction l2 as [|y l2 IH]; [done|]. cbn.
    rewrite before_asym by (apply Hall; by left). apply IH. intros z Hz. apply Hall. by right. }
  rewrite H2. cbn. rewrite Nat.add_0_r. clear -Hs. induction l1 as [|x l1 IH]; [done|]. cbn in *.
  apply StronglySorted_inv in Hs as [Hs Hall]. rewrite List.Forall_forall in Hall.
  rewrite Hall by (apply in_app_iff; right; by left). cbn. f_equal. by apply IH.
Qed.

(** Each index below [n] is visited once, with its place. *)
Lemma enumerate_place n r i : In (r, i) (enumerate (argsort key n)) ↔ (i < n)%nat ∧ place n i = r.
Proof.
  unfold enumerate. assert (Hn : forall (l : list nat) s, In (r, i) (combine (seq s (length l)) l) ↔
    exists l1 l2, l = l1 ++ i :: l2 ∧ r = (s + length l1)%nat).
  { induction l as [|x l IH]; intros s; cbn [length seq combine In].
    - split; [done|]. intros ([|? ?] & ? & ? & _); discriminate.
    - rewrite IH. split.
      + intros [[= -> ->]|(l1 & l2 & -> & ->)]; [exists [], l; cbn; lia || (split; [done|lia])|].
        exists (x :: l1), l2. cbn. split; [done|lia].
      + intros ([|y l1] & l2 & [= -> ->] & ->); cbn; [left; f_equal; lia|]. right. exists l1, l2. split; [done|lia]. }
  rewrite Hn. split.
  - intros (l1 & l2 & E & ->). rewrite (argsort_place _ _ _ _ E). split; [|done].
    apply argsort_In with (key := key). rewrite E. apply in_app_iff. right. by left.
  - intros [Hi <-]. apply (argsort_In key) in Hi. apply in_split in Hi as (l1 & l2 & E).
    exists l1, l2. split; [exact E|]. by rewrite (argsort_place _ _ _ _ E).
Qed.
End Stable.

Lemma seq_split_lt l1 x l2 s n y : l1 ++ x :: l2 = seq s n → In y l1 → (y < x)%nat.
Proof.
  revert s n. induction l1 as [|z l1 IH]; intros s n E Hy; [done|]. destruct n; [done|]. cbn in E.
  injection E as -> E. destruct Hy as [->|Hy]; [|by eapply IH].
  assert (Hx : In x (seq (S y) n)) by (rewrite <- E; apply in_app_iff; right; by left). apply in_seq in Hx. lia.
Qed.

Lemma seq_split_gt l1 x l2 s n y : l1 ++ x :: l2 = seq s n → In y l2 → (x < y)%nat.
Proof.
  revert s n. induction l1 as [|z l1 IH]; intros s n E Hy; (destruct n; [done|]); cbn in E; injection E as -> E.
  - rewrite E in Hy. apply in_seq in Hy. lia.
  - by eapply IH.
Qed.

Lemma map_fst_combine {A B} (l : list A) (m : list B) : length l = length m → map fst (combine l m) = l.
Proof. revert m. induction l as [|x l IH]; intros [|y m]; try done. cbn. intros [= H']. by rewrite IH. Qed.

(** A visit order is split where the ranked one is. *)
Lemma split_visits (visits : list (nat * nat)) l1 i l2 j l3 : map snd visits = l1 ++ i :: l2 ++ j :: l3 →
  exists v1 ri v2 rj v3, visits = v1 ++ (ri, i) :: v2 ++ (rj, j) :: v3.
Proof.
  intros E. apply map_eq_app in E as (v1 & w & -> & _ & E). apply map_eq_cons in E as ([ri i'] & w' & -> & Ei & E).
  apply map_eq_app in E as (v2 & u & -> & _ & E). apply map_eq_cons in E as ([rj j'] & v3 & -> & Ej & _).
  cbn in *. subst. by exists v1, ri, v2, rj, v3.
Qed.

Section Sweep.
Variable step : float -> nat -> nat -> float.
Variable R : float -> float -> Prop.
Hypothesis R_trans : forall x y z, R x y → R y z → R x z.
Hypothesis R_refl : forall x, f_isnan x = false → R x x.
Hypothesis step_R : forall x r i, f_isnan x = false → f_isnan (step x r i) = false ∧ R x (step x r i).

Definition run_after (visits : list (nat * nat)) (running : float) : float :=
  fold_left (fun r v => step r (fst v) (snd v)) visits running.

Lemma sweep_app v1 v2 running adj : sweep step (v1 ++ v2) running adj = sweep step v2 (run_after v1 running) (sweep step v1 running adj).
Proof. revert running adj. induction v1 as [|[r i] v1 IH]; intros running adj; [done|]. cbn. by rewrite IH. Qed.

Lemma sweep_length v running adj : length (sweep step v running adj) = length adj.
Proof. revert running adj. induction v as [|[r i] v IH]; intros running adj; [done|]. cbn. by rewrite IH, length_insert. Qed.

Lemma sweep_other v running adj k : ~ In k (map snd v) → sweep step v running adj !! k = adj !! k.
Proof.
  revert running adj. induction v as [|[r i] v IH]; intros running adj Hk; [done|]. cbn in *.
  rewrite IH by tauto. apply list_lookup_insert_ne. intros ->. tauto.
Qed.

Lemma run_after_R v running : f_isnan running = false → f_isnan (run_after v running) = false ∧ R running (run_after v running).
Proof.
  revert running. induction v as [|[r i] v IH]; intros running Hn; [by split; [|apply R_refl]|]. cbn.
  destruct (step_R running r i Hn) as [H1 H2]. destruct (IH _ H1) as [H3 H4]. split; [done|]. by eapply R_trans.
Qed.

(** Of two indices the sweep visits, the later one's value is past the earlier one's. *)
Lemma sweep_R v1 ri i v2 rj j v3 running adj : f_isnan running = false →
  let visits := v1 ++ (ri, i) :: v2 ++ (rj, j) :: v3 in
  List.NoDup (map snd visits) → (i < length adj)%nat → (j < length adj)%nat →
  R (f_at (sweep step visits running adj) i) (f_at (sweep step visits running adj) j).
Proof.
  intros Hn visits Hnd Hi Hj. subst visits.
  assert (Hi' : sweep step (v1 ++ (ri, i) :: v2 ++ (rj, j) :: v3) running adj !! i = Some (step (run_after v1 running) ri i)).
  { rewrite sweep_app. cbn [sweep]. rewrite sweep_other.
    - apply list_lookup_insert_eq. by rewrite sweep_length.
    - rewrite map_app in Hnd. apply List.NoDup_app_remove_l in Hnd. cbn in Hnd. by apply List.NoDup_cons_iff in Hnd as [Hnd _]. }
  assert (Hj' : sweep step (v1 ++ (ri, i) :: v2 ++ (rj, j) :: v3) running adj !! j
    = Some (step (run_after (v1 ++ (ri, i) :: v2) running) rj j)).
  { change (v1 ++ (ri, i) :: v2 ++ (rj, j) :: v3) with (v1 ++ ((ri, i) :: v2) ++ (rj, j) :: v3) in *.
    rewrite app_assoc in *. rewrite sweep_app. cbn [sweep]. rewrite sweep_other.
    - apply list_lookup_insert_eq. by rewrite sweep_length.
    - rewrite map_app in Hnd. apply List.NoDup_app_remove_l in Hnd. cbn in Hnd. by apply List.NoDup_cons_iff in Hnd as [Hnd _]. }
  rewrite (f_at_lookup _ _ _ Hi'), (f_at_lookup _ _ _ Hj').
  destruct (run_after_R v1 running Hn) as [H1 _]. destruct (step_R _ ri i H1) as [H2 _].
  destruct (run_after_R v2 _ H2) as [H3 H4]. destruct (step_R _ rj j H3) as [_ H5].
  unfold run_after in *. rewrite fold_left_app. cbn [fold_left fst snd]. by eapply R_trans.
Qed.
End Sweep.

(** The value a sweep stores at an index is the running value there. *)
Lemma sweep_value step v1 r i v2 running adj : List.NoDup (map snd (v1 ++ (r, i) :: v2)) → (i < length adj)%nat →
  f_at (sweep step (v1 ++ (r, i) :: v2) running adj) i = run_after step (v1 ++ [(r, i)]) running.
Proof.
  intros Hnd Hi. apply f_at_lookup. rewrite sweep_app. cbn [sweep]. rewrite sweep_other.
  - unfold run_after. rewrite fold_left_app. apply list_lookup_insert_eq. by rewrite sweep_length.
  - rewrite map_app in Hnd. apply List.NoDup_app_remove_l in Hnd. cbn in Hnd. by apply List.NoDup_cons_iff in Hnd as [Hnd _].
Qed.

(** A running value that is replaced by the better ones it meets ends as the best: the first value or
    one of those met, and none of them is better. *)
Lemma run_best (better : float -> float -> bool) (P : float -> Prop) step cand :
  (forall x, better x x = false) → (forall x y z, better x y = true → better y z = true → better x z = true) →
  (forall x r i, P x → step x r i = (if better (cand r i) x then cand r i else x) ∧ P (step x r i)) →
  forall visits x, P x → let m := run_after step visits x in
  (m = x ∨ exists r i, In (r, i) visits ∧ m = cand r i) ∧ (m = x ∨ better m x = true) ∧
  forall r i, In (r, i) visits → better (cand r i) m = false.
Proof.
  intros Hirr Htrans Hstep. cbv zeta. induction visits as [|[r i] v IH]; intros x Hx; [cbn; tauto|].
  destruct (Hstep x r i Hx) as [Es Hx']. cbn [run_after fold_left fst snd].
  specialize (IH _ Hx'). fold (run_after step v (step x r i)). set (m := run_after step v (step x r i)) in *.
  destruct IH as (Hin & Hbest & Hall).
  assert (Hnew : (step x r i = x ∨ better (step x r i) x = true) ∧ better (cand r i) (step x r i) = false).
  { rewrite Es. destruct (better (cand r i) x) eqn:E; [split; [by right|apply Hirr]|split; [by left|done]]. }
  destruct Hnew as [Hxs Hc]. split; [|split].
  - destruct Hin as [Hm|(r' & i' & Hin & Hm)]; [|right; exists r', i'; split; [by right|done]].
    rewrite Hm, Es. destruct (better _ x); [right; exists r, i; split; [by left|done]|by left].
  - destruct Hbest as [->|Hb]; [done|]. right. destruct Hxs as [<-|Hb']; [done|by eapply Htrans].
  - intros r' i' [[= <- <-]|Hin']; [|by apply Hall]. destruct Hbest as [->|Hb]; [done|].
    apply not_true_iff_false. intros Hcm. by rewrite (Htrans _ _ _ Hcm Hb) in Hc.
Qed.

Lemma fltb_irrefl x : fltb x x = false.
Proof. apply not_true_iff_false. intros (Hx & _ & Hf)%fltb_spec. by rewrite fleb_refl in Hf. Qed.

Lemma fltb_trans x y z : fltb x y = true → fltb y z = true → fltb x z = true.
Proof.
  intros Hxy Hyz. pose proof (fltb_fleb _ _ Hxy) as Hle. apply fltb_spec in Hxy as (Hx & _ & _).
  apply fltb_spec in Hyz as (_ & Hz & Hn). apply fltb_spec. split; [done|]. split; [done|].
  apply not_true_iff_false. intros Hzx. by rewrite (fleb_trans _ _ _ Hzx Hle) in Hn.
Qed.

Module CorrectionFacts.
Import Corrections.

Lemma validate_Ok p level p' : _validate p level = Ok p' → p' = p ∧ Forall (fun v => f_isnan v = false) p.
Proof.
  unfold _validate. intros (_ & _ & (_ & _ & (_ & Hf%reject_Ok & [= <-])%rbind_Ok)%rbind_Ok)%rbind_Ok. split; [done|].
  apply negb_false_iff in Hf. rewrite forallb_forall in Hf. apply List.Forall_forall. intros v [Hv _]%Hf%andb_true_iff.
  by destruct v.
Qed.

Lemma f_at_num p i : Forall (fun v => f_isnan v = false) p → f_isnan (f_at p i) = false.
Proof.
  intros Hp. unfold f_at. destruct (nth_in_or_default i p f_zero) as [Hin| ->]; [|done].
  rewrite List.Forall_forall in Hp. auto.
Qed.

Lemma holm_step_up p x r i : f_isnan x = false → f_isnan (holm_step p x r i) = false ∧ fleb x (holm_step p x r i) = true.
Proof. apply fmax_ge. Qed.

Lemma bh_step_down p x r i : f_isnan x = false → f_isnan (bh_step p x r i) = false ∧ fleb (bh_step p x r i) x = true.
Proof.
  intros Hx. unfold bh_step. destruct (fmin_le x f_one Hx) as [H1 H2].
  destruct (fmin_le (fmin x f_one) (fdiv (fmul (f_at p i) (f_of_Z (Z.of_nat (length p)))) (f_of_Z (Z.of_nat (r + 1)))) H1) as [H3 H4].
  split; [done|]. by eapply fleb_trans.
Qed.

Lemma holm_monotone p i j : Forall (fun v => f_isnan v = false) p → (i < length p)%nat → (j < length p)%nat →
  fltb (f_at p i) (f_at p j) = true →
  let adj := sweep (holm_step p) (enumerate (argsort (f_at p) (length p))) f_zero (repeat f_zero (length p)) in
  fleb (f_at adj i) (f_at adj j) = true.
Proof.
  intros Hp Hi Hj Hlt adj. subst adj.
  destruct (argsort_before (f_at p) (fun k => f_at_num p k Hp) _ _ _ Hi Hj Hlt) as (l1 & l2 & l3 & E).
  rewrite <- (enumerate_snd (argsort (f_at p) (length p))) in E. pose proof E as E0.
  apply split_visits in E as (v1 & ri & v2 & rj & v3 & E). rewrite E.
  apply (sweep_R (holm_step p) (fun x y => fleb x y = true) fleb_trans fleb_refl (holm_step_up p));
    [done| |by rewrite repeat_length|by rewrite repeat_length].
  rewrite <- E, enumerate_snd. by apply argsort_NoDup.
Qed.

Lemma bh_monotone p i j : Forall (fun v => f_isnan v = false) p → (i < length p)%nat → (j < length p)%nat →
  fltb (f_at p i) (f_at p j) = true →
  let adj := sweep (bh_step p) (rev (enumerate (argsort (f_at p) (length p)))) f_one (repeat f_zero (length p)) in
  fleb (f_at adj i) (f_at adj j) = true.
Proof.
  intros Hp Hi Hj Hlt adj. subst adj.
  destruct (argsort_before (f_at p) (fun k => f_at_num p k Hp) _ _ _ Hi Hj Hlt) as (l1 & l2 & l3 & E).
  rewrite <- (enumerate_snd (argsort (f_at p) (length p))) in E.
  apply split_visits in E as (v1 & ri & v2 & rj & v3 & E).
  assert (Er : rev (enumerate (argsort (f_at p) (length p))) = rev v3 ++ (rj, j) :: rev v2 ++ (ri, i) :: rev v1).
  { rewrite E, rev_app_distr. cbn [rev]. rewrite rev_app_distr. cbn [rev]. by rewrite <- !app_assoc. }
  rewrite Er.
  apply (sweep_R (bh_step p) (fun x y => fleb y x = true) (fun x y z H1 H2 => fleb_trans z y x H2 H1) fleb_refl (bh_step_down p));
    [done| |by rewrite repeat_length|by rewrite repeat_length].
  rewrite <- Er, map_rev, enumerate_snd. apply List.NoDup_rev. by apply argsort_NoDup.
Qed.

(** *** What the two corrections compute

    The p-values in ascending order, equal ones as they were given, number from 0; [place] is the
    number of a p-value in it. *)
Definition p_place (p : list float) (i : nat) : nat := place (f_at p) (length p) i.
Definition holm_value (p : list float) (k : nat) : float :=
  fmin f_one (fmul (f_of_Z (Z.of_nat (length p - p_place p k))) (f_at p k)).
Definition bh_value (p : list float) (k : nat) : float :=
  fdiv (fmul (f_at p k) (f_of_Z (Z.of_nat (length p)))) (f_of_Z (Z.of_nat (p_place p k + 1))).

Section Adjusted.
Variable p : list float.
Hypothesis p_num : Forall (fun v => f_isnan v = false) p.
Notation visits := (enumerate (argsort (f_at p) (length p))).

Lemma visits_place r i : In (r, i) visits ↔ (i < length p)%nat ∧ p_place p i = r.
Proof. apply enumerate_place. intros k. by apply f_at_num. Qed.

Lemma visits_NoDup : List.NoDup (map snd visits).
Proof. rewrite enumerate_snd. apply argsort_NoDup. Qed.

(** The visits before an index are those of smaller place. *)
Lemma visits_split i : (i < length p)%nat → exists v1 v2, visits = v1 ++ (p_place p i, i) :: v2 ∧
  (forall r k, In (r, k) (v1 ++ [(p_place p i, i)]) ↔ (k < length p)%nat ∧ p_place p k = r ∧ (r <= p_place p i)%nat) ∧
  (forall r k, In (r, k) ((p_place p i, i) :: v2) ↔ (k < length p)%nat ∧ p_place p k = r ∧ (p_place p i <= r)%nat).
Proof.
  intros Hi. pose proof (proj2 (visits_place (p_place p i) i) (conj Hi eq_refl)) as Hin.
  apply in_split in Hin as (v1 & v2 & E). exists v1, v2. split; [exact E|].
  assert (Hr : map fst visits = seq 0 (length (argsort (f_at p) (length p)))).
  { unfold enumerate. apply map_fst_combine. by rewrite length_seq. }
  rewrite E, map_app in Hr. cbn [map fst] in Hr.
  assert (H1 : forall r k, In (r, k) v1 → (r < p_place p i)%nat).
  { intros r k Hv. apply (in_map fst) in Hv. eapply seq_split_lt; [exact Hr|exact Hv]. }
  assert (H2 : forall r k, In (r, k) v2 → (p_place p i < r)%nat).
  { intros r k Hv. apply (in_map fst) in Hv. eapply seq_split_gt; [exact Hr|exact Hv]. }
  assert (Hall : forall r k, In (r, k) v1 ∨ (r, k) = (p_place p i, i) ∨ In (r, k) v2 ↔ (k < length p)%nat ∧ p_place p k = r).
  { intros r k. rewrite <- visits_place, E, in_app_iff. cbn [In]. naive_solver. }
  split; intros r k; rewrite ?in_app_iff; cbn [In]; split.
  - intros [Hv|[[= <- <-]|[]]].
    + pose proof (H1 _ _ Hv). destruct (proj1 (Hall r k)) as [? ?]; [tauto|]. split; [done|]. split; [done|lia].
    + done.
  - intros (Hk & Hp & Hle). destruct (proj2 (Hall r k) (conj Hk Hp)) as [Hv|[Hv|Hv%H2]]; [tauto|right; left; congruence|lia].
  - intros [[= <- <-]|Hv]; [done|].
    pose proof (H2 _ _ Hv). destruct (proj1 (Hall r k)) as [? ?]; [tauto|]. split; [done|]. split; [done|lia].
  - intros (Hk & Hp & Hle). destruct (proj2 (Hall r k) (conj Hk Hp)) as [Hv%H1|[Hv|Hv]]; [lia|left; congruence|tauto].
Qed.

Lemma holm_adjusted i : (i < length p)%nat →
  let a := f_at (sweep (holm_step p) visits f_zero (repeat f_zero (length p))) i in
  (a = f_zero ∨ exists k, (k < length p)%nat ∧ (p_place p k <= p_place p i)%nat ∧ a = holm_value p k) ∧
  forall k, (k < length p)%nat → (p_place p k <= p_place p i)%nat → fltb a (holm_value p k) = false.
Proof.
  intros Hi. destruct (visits_split i Hi) as (v1 & v2 & E & Hv & _). cbv zeta.
  pose proof visits_NoDup as Hnd. rewrite E in Hnd |- *. rewrite sweep_value by (rewrite ?repeat_length; done).
  destruct (run_best (fun c x => fltb x c) (fun _ => True) (holm_step p)
    (fun r k => fmin f_one (fmul (f_of_Z (Z.of_nat (length p - r))) (f_at p k))) fltb_irrefl
    (fun x y z H1 H2 => fltb_trans z y x H2 H1) ltac:(done) (v1 ++ [(p_place p i, i)]) f_zero I) as (Hin & _ & Hbest).
  split.
  - destruct Hin as [Hz|(r & k & (Hk & <- & Hle)%Hv & Ha)]; [by left|]. right. exists k. done.
  - intros k Hk Hle. apply (Hbest (p_place p k) k). by apply Hv.
Qed.

Lemma bh_adjusted i : (i < length p)%nat →
  let a := f_at (sweep (bh_step p) (rev visits) f_one (repeat f_zero (length p))) i in
  (a = f_one ∨ exists k, (k < length p)%nat ∧ (p_place p i <= p_place p k)%nat ∧ a = bh_value p k) ∧
  fltb f_one a = false ∧
  forall k, (k < length p)%nat → (p_place p i <= p_place p k)%nat → fltb (bh_value p k) a = false.
Proof.
  intros Hi. destruct (visits_split i Hi) as (v1 & v2 & E & _ & Hv). cbv zeta.
  pose proof visits_NoDup as Hnd. apply List.NoDup_rev in Hnd. rewrite <- map_rev in Hnd.
  rewrite E, rev_app_distr in Hnd |- *. cbn [rev] in Hnd |- *. rewrite <- app_assoc in Hnd |- *. cbn [app] in Hnd |- *.
  rewrite sweep_value by (rewrite ?repeat_length; done).
  destruct (run_best (fun c x => fltb c x) (fun x => fltb f_one x = false) (bh_step p)
    (fun r k => fdiv (fmul (f_at p k) (f_of_Z (Z.of_nat (length p)))) (f_of_Z (Z.of_nat (r + 1)))) fltb_irrefl fltb_trans)
    with (visits := rev v2 ++ [(p_place p i, i)]) (x := f_one) as (Hin & Hle & Hbest).
  { intros x r k Hx. unfold bh_step. assert (E1 : fmin x f_one = x) by (unfold fmin; by rewrite Hx). rewrite E1.
    split; [done|]. unfold fmin.
    match goal with |- context [fltb ?c x] => destruct (fltb c x) eqn:El end; [|exact Hx].
    apply not_true_iff_false. intros H1.
    by rewrite (fltb_trans _ _ _ H1 El) in Hx. }
  { apply fltb_irrefl. }
  assert (Hv' : forall r k, In (r, k) (rev v2 ++ [(p_place p i, i)]) ↔
    (k < length p)%nat ∧ p_place p k = r ∧ (p_place p i <= r)%nat).
  { intros r k. rewrite <- Hv. cbn [In]. rewrite in_app_iff, <- in_rev. cbn [In]. tauto. }
  split; [|split].
  - destruct Hin as [Hz|(r & k & (Hk & <- & Hr)%Hv' & Ha)]; [by left|]. right. exists k. done.
  - destruct Hle as [->|Hlt]; [apply fltb_irrefl|]. apply not_true_iff_false. intros H1.
    pose proof (fltb_trans _ _ _ H1 Hlt) as Hf. by rewrite fltb_irrefl in Hf.
  - intros k Hk Hle'. apply (Hbest (p_place p k) k). by apply Hv'.
Qed.
End Adjusted.

(** What both step corrections promise: one adjusted value per p-value, a rejection exactly where it is
    within the level, the count of them, and never a smaller p-value retained while a larger one is
    rejected. *)
Definition step_correction (p : list float) (level : float) (r : MultipleTestResult) : Prop :=
  mt_p_values r = p ∧ length (mt_adjusted r) = length p ∧ mt_level r = level ∧
  mt_reject r = map (fun a => fleb a level) (mt_adjusted r) ∧ mt_n_reject r = count_true (mt_reject r) ∧
  forall i j, (i < length p)%nat → (j < length p)%nat → fltb (f_at p i) (f_at p j) = true →
    fleb (f_at (mt_adjusted r) i) (f_at (mt_adjusted r) j) = true ∧
    (nth j (mt_reject r) false = true → nth i (mt_reject r) false = true).

Lemma step_correction_intro method p level adj : length adj = length p →
  (forall i j, (i < length p)%nat → (j < length p)%nat → fltb (f_at p i) (f_at p j) = true → fleb (f_at adj i) (f_at adj j) = true) →
  step_correction p level (_result method level p adj (map (fun a => fleb a level) adj)).
Proof.
  intros Hl Hm. unfold step_correction, _result. cbn. do 5 (split; [done|]). intros i j Hi Hj Hlt.
  specialize (Hm i j Hi Hj Hlt). split; [done|].
  rewrite !(nth_indep _ false (fleb f_zero level)) by (rewrite length_map; lia).
  rewrite !(map_nth (fun a => fleb a level)). fold (f_at adj j) (f_at adj i). intros Hr. by eapply fleb_trans.
Qed.

Lemma validate_iff p level :
  let valid := p ≠ [] ∧ fltb f_zero level = true ∧ fltb level f_one = true ∧
    forall v, In v p → f_isfinite v = true ∧ fleb f_zero v = true ∧ fleb v f_one = true in
  (valid → _validate p level = Ok p) ∧ (~ valid → _validate p level = Err MultipleTestError).
Proof.
  cbv zeta. unfold _validate. destruct (fltb f_zero level) eqn:E0, (fltb level f_one) eqn:E1; cbn [andb negb reject rbind];
    try (split; [by intros (_ & ? & ? & _)|done]).
  destruct p as [|v0 q] eqn:Ep; cbn [reject rbind]; [split; [by intros (? & _)|done]|]. rewrite <- Ep.
  assert (Hall : forallb (fun v => f_isfinite v && (fleb f_zero v && fleb v f_one)) p = true ↔
    forall v, In v p → f_isfinite v = true ∧ fleb f_zero v = true ∧ fleb v f_one = true).
  { rewrite forallb_forall. setoid_rewrite andb_true_iff. by setoid_rewrite andb_true_iff. }
  destruct (forallb _ p) eqn:Ef; cbn [negb reject rbind].
  - split; [done|]. intros Hno. destruct Hno. split; [congruence|]. split; [done|]. split; [done|]. by apply Hall.
  - split; [|done]. intros (_ & _ & _ & Hv). apply Hall in Hv. congruence.
Qed.

(** C29: the step-down and step-up corrections.  The p-values number from zero in ascending order, equal
    ones in the order given.  When there is a p-value, each is finite and in [0, 1] and the level is
    between 0 and 1, both corrections answer.  Holm's adjusted value is the largest of 0 and of
    min(1, (N - r) * p) over the p-values of number r up to its own; Benjamini and Hochberg's is the
    smallest of 1 and of p * N / (r + 1) over those from its own number on.  For both, whatever the
    input order and its ties, every p-value gets one adjusted value and is rejected exactly when that is
    within the level, the rejections are counted, and a strictly smaller p-value never has the larger
    adjusted value nor is retained while a larger one is rejected.  Any other input is refused. *)
Theorem corrections_spec p level :
  let n := length p in
  let ascending k i := if (k <? i)%nat then fleb (f_at p k) (f_at p i) else fltb (f_at p k) (f_at p i) in
  let number i := length (List.filter (fun k => ascending k i) (seq 0 n)) in
  let holm k := fmin f_one (fmul (f_of_Z (Z.of_nat (n - number k))) (f_at p k)) in
  let bh k := fdiv (fmul (f_at p k) (f_of_Z (Z.of_nat n))) (f_of_Z (Z.of_nat (number k + 1))) in
  let valid := p ≠ [] ∧ fltb f_zero level = true ∧ fltb level f_one = true ∧
    forall v, In v p → f_isfinite v = true ∧ fleb f_zero v = true ∧ fleb v f_one = true in
  (valid → exists r, holm_bonferroni_correct p level = Ok r ∧ step_correction p level r ∧
     forall i, (i < n)%nat → let a := f_at (mt_adjusted r) i in
       (a = f_zero ∨ exists k, (k < n)%nat ∧ (number k <= number i)%nat ∧ a = holm k) ∧
       forall k, (k < n)%nat → (number k <= number i)%nat → fltb a (holm k) = false) ∧
  (valid → exists r, bh_fdr_correct p level = Ok r ∧ step_correction p level r ∧
     forall i, (i < n)%nat → let a := f_at (mt_adjusted r) i in
       (a = f_one ∨ exists k, (k < n)%nat ∧ (number i <= number k)%nat ∧ a = bh k) ∧ fltb f_one a = false ∧
       forall k, (k < n)%nat → (number i <= number k)%nat → fltb (bh k) a = false) ∧
  (~ valid → holm_bonferroni_correct p level = Err MultipleTestError ∧
             bh_fdr_correct p level = Err MultipleTestError).
Proof.
  intros n ascending number holm bh valid. destruct (validate_iff p level) as [Hok Herr].
  fold valid in Hok, Herr. unfold holm_bonferroni_correct, bh_fdr_correct. split; [|split].
  3: { intros Hno. by rewrite (Herr Hno). }
  all: intros Hv; rewrite (Hok Hv); cbn [rbind]; destruct (validate_Ok _ _ _ (Hok Hv)) as [_ Hp];
    eexists; (split; [reflexivity|]); (split; [apply step_correction_intro; [by rewrite sweep_length, repeat_length|]|]).
  - intros i j. by apply holm_monotone.
  - intros i Hi. exact (holm_adjusted p Hp i Hi).
  - intros i j. by apply bh_monotone.
  - intros i Hi. exact (bh_adjusted p Hp i Hi).
Qed.

Lemma corrections_spec_witness :
  let p := map f_of_decimal [Dec 4 (-2); Dec 1 (-2); Dec 3 (-2)] in
  exists r, holm_bonferroni_correct p _DEFAULT_ALPHA = Ok r ∧ mt_reject r = [false; true; false] ∧
    step_correction p _DEFAULT_ALPHA r.
Proof.
  intros p. destruct (corrections_spec p _DEFAULT_ALPHA) as [Hholm _].
  destruct Hholm as (r & Hr & Hs & _).
  { split; [discriminate|]. split; [vm_compute; reflexivity|]. split; [vm_compute; reflexivity|].
    intros v [<-|[<-|[<-|[]]]]; vm_compute; repeat split. }
  exists r. split; [exact Hr|]. split; [|exact Hs]. vm_compute in Hr. injection Hr as <-. reflexivity.
Defined.

(** The level a value meets exactly is met: five percent of one test is a rejection. *)
Example at_the_level : exists r, bonferroni_correct [f_of_decimal (Dec 5 (-2))] (f_of_decimal (Dec 5 (-2))) = Ok r
  ∧ mt_reject r = [true].
Proof. eexists. split; vm_compute; reflexivity. Qed.

Example holm_three : exists r, holm_bonferroni_correct (map f_of_decimal [Dec 4 (-2); Dec 1 (-2); Dec 3 (-2)]) _DEFAULT_ALPHA = Ok r
  ∧ mt_reject r = [false; true; false].
Proof. eexists. split; vm_compute; reflexivity. Qed.

Example bh_three : exists r, bh_fdr_correct (map f_of_decimal [Dec 4 (-2); Dec 1 (-2); Dec 3 (-2)]) _DEFAULT_ALPHA = Ok r
  ∧ mt_reject r = [true; true; true].
Proof. eexists. split; vm_compute; reflexivity. Qed.
End CorrectionFacts.

(** ** The stepdown *)
Lemma filter_map_length {A B} (f : A -> B) (p : B -> bool) l : length (List.filter p (map f l)) = length (List.filter (fun x => p (f x)) l).
Proof. induction l as [|x l IH]; [done|]. cbn. destruct (p (f x)); cbn; by rewrite IH. Qed.

Lemma count_true_indices l : Corrections.count_true l = length (List.filter (fun i => nth i l false) (seq 0 (length l))).
Proof.
  unfold Corrections.count_true. induction l as [|b l IH]; [done|]. cbn [List.filter id length seq nth].
  rewrite <- seq_shift. destruct b; cbn [length]; by rewrite filter_map_length, IH.
Qed.

Section StepdownFacts.
Variable valid : list bool.
Variable tstar : list (list float).
Variable t_obs : list float.
Variable n_bootstrap : Z.
Variable alpha : float.

Notation stepdown_value := (rw_step valid tstar t_obs n_bootstrap).
Notation stepdown := (rw_loop valid tstar t_obs n_bootstrap alpha).

Lemma fold_insert_lookup v (ks : list nat) : forall (adj : list float) k, (k < length adj)%nat →
  fold_left (fun adj k => <[k := v]> adj) ks adj !! k = if bool_decide (k ∈ ks) then Some v else adj !! k.
Proof.
  induction ks as [|x ks IH]; intros adj k Hk; [done|]. cbn [fold_left]. rewrite IH by (by rewrite length_insert).
  destruct (decide (k = x)) as [->|Hne].
  - rewrite (bool_decide_eq_true_2 (x ∈ x :: ks)) by (by left). rewrite list_lookup_insert_eq by done. by destruct (bool_decide _).
  - rewrite list_lookup_insert_ne by done.
    destruct (bool_decide_reflect (k ∈ ks)) as [Hin|Hin].
    + rewrite bool_decide_eq_true_2; [done|by right].
    + rewrite bool_decide_eq_false_2; [done|]. intros [?|?]%elem_of_cons; congruence.
Qed.

Lemma fold_insert_length v (ks : list nat) : forall adj : list float, length (fold_left (fun adj k => <[k := v]> adj) ks adj) = length adj.
Proof. induction ks as [|x ks IH]; intros adj; [done|]. cbn. by rewrite IH, length_insert. Qed.

(** What the loop leaves: values that grow along the order, and rejections exactly where the value is
    within the level. *)
Lemma rw_loop_spec order : forall remaining running adj rej adj' rej',
  f_isnan running = false → List.NoDup order → (forall k, k ∈ remaining ↔ k ∈ order) →
  (forall k, k ∈ order → (k < length adj)%nat ∧ (k < length rej)%nat) →
  (forall k, k ∈ order → nth k rej false = false) →
  stepdown order remaining running adj rej = (adj', rej') →
  length adj' = length adj ∧ length rej' = length rej ∧
  (forall k, ~ k ∈ order → adj' !! k = adj !! k ∧ rej' !! k = rej !! k) ∧
  (forall k, k ∈ order → fleb running (f_at adj' k) = true ∧ nth k rej' false = fleb (f_at adj' k) alpha) ∧
  (forall l1 i l2 j l3, order = l1 ++ i :: l2 ++ j :: l3 → fleb (f_at adj' i) (f_at adj' j) = true).
Proof.
  induction order as [|idx order IH]; intros remaining running adj rej adj' rej' Hn Hnd Hrem Hlen Hrej E.
  - cbn in E. injection E as <- <-. split; [done|]. split; [done|]. split; [done|].
    split; [by intros k Hk%not_elem_of_nil|]. by intros [].
  - apply List.NoDup_cons_iff in Hnd as [Hidx Hnd]. rewrite <- list_elem_of_In in Hidx. cbn [rw_loop] in E.
    set (v := stepdown_value remaining running idx) in *. assert (Hv : f_isnan v = false ∧ fleb running v = true) by apply (fmax_ge _ _ Hn).
    destruct Hv as [Hvn Hvr]. destruct (Hlen idx) as [La Lr]; [by left|].
    destruct (fleb v alpha) eqn:Ea.
    + apply IH in E as (L1 & L2 & Hout & Hin & Hpair); [|done|done| | |].
      * rewrite length_insert in L1. rewrite length_insert in L2. split; [done|]. split; [done|].
        assert (Ev : adj' !! idx = Some v).
        { rewrite (proj1 (Hout idx Hidx)). by apply list_lookup_insert_eq. }
        assert (Er : rej' !! idx = Some true).
        { rewrite (proj2 (Hout idx Hidx)). by apply list_lookup_insert_eq. }
        split; [|split].
        -- intros k Hk. rewrite not_elem_of_cons in Hk. destruct Hk as [Hne Hk]. destruct (Hout k Hk) as [-> ->].
           by rewrite !list_lookup_insert_ne.
        -- intros k [->|Hk]%elem_of_cons.
           ++ rewrite (f_at_lookup _ _ _ Ev). split; [done|]. rewrite Ea. by apply nth_lookup_Some.
           ++ destruct (Hin k Hk) as [H1 H2]. split; [by eapply fleb_trans|done].
        -- intros [|x l1] i l2 j l3 Eo; injection Eo as <- Eo.
           ++ rewrite (f_at_lookup _ _ _ Ev). apply Hin. rewrite Eo. apply elem_of_app. right. by left.
           ++ by apply (Hpair l1 i l2 j l3).
      * intros k. rewrite list_elem_of_In, filter_In, <- list_elem_of_In, Hrem, elem_of_cons, negb_true_iff, Nat.eqb_neq.
        split; [naive_solver|]. intros Hk. split; [by right|]. by intros ->.
      * intros k Hk. rewrite !length_insert. apply Hlen. by right.
      * intros k Hk. rewrite nth_lookup, list_lookup_insert_ne by (by intros ->). rewrite <- nth_lookup. apply Hrej. by right.
    + injection E as <- <-. rewrite fold_insert_length, length_insert. split; [done|]. split; [done|].
      assert (Hval : forall k, k ∈ idx :: order → fold_left (fun adj k => <[k := v]> adj) remaining (<[idx := v]> adj) !! k = Some v).
      { intros k Hk. rewrite fold_insert_lookup by (rewrite length_insert; by apply Hlen).
        rewrite bool_decide_eq_true_2; [done|]. by apply Hrem. }
      split; [|split].
      * intros k Hk. split; [|done]. destruct (decide (k < length adj)%nat) as [Hlt|Hge].
        -- rewrite fold_insert_lookup by (by rewrite length_insert). rewrite bool_decide_eq_false_2 by (by rewrite Hrem).
           apply list_lookup_insert_ne. intros ->. apply Hk. by left.
        -- rewrite !lookup_ge_None_2; [done|lia|]. rewrite fold_insert_length, length_insert. lia.
      * intros k Hk. rewrite (f_at_lookup _ _ _ (Hval k Hk)). split; [done|]. rewrite Ea. by apply Hrej.
      * intros l1 i l2 j l3 Eo. rewrite !(f_at_lookup _ _ v); [by apply fleb_refl|apply Hval; rewrite Eo|apply Hval; rewrite Eo].
        -- apply elem_of_app. right. right. apply elem_of_app. right. by left.
        -- apply elem_of_app. right. by left.
Qed.
End StepdownFacts.

Section Gates.
Context `{PyRandom} `{Libm}.

(** the stepdown is consistent.  Whatever the returns, the generator and the mathematical library,
    a verdict gives every strategy one adjusted p-value and rejects its null exactly when that is
    within the level; a strategy with the strictly larger observed statistic never has the larger
    adjusted value nor is retained while a weaker one is rejected; and the count is the number of
    rejections. *)
Theorem romano_wolf_consistent strategy_returns bench alpha n_bootstrap block_length seed r :
  romano_wolf_stepdown strategy_returns bench alpha n_bootstrap block_length seed = Ok r →
  (forall k, f_isnan (f_at (rw_observed_stats r) k) = false) →
  let n := length strategy_returns in
  length (rw_adjusted_pvalues r) = n ∧ length (rw_reject r) = n ∧
  rw_n_rejected r = length (significant_indices r) ∧
  (forall k, (k < n)%nat → nth k (rw_reject r) false = fleb (f_at (rw_adjusted_pvalues r) k) alpha) ∧
  (forall i j, (i < n)%nat → (j < n)%nat → fltb (f_at (rw_observed_stats r) j) (f_at (rw_observed_stats r) i) = true →
     fleb (f_at (rw_adjusted_pvalues r) i) (f_at (rw_adjusted_pvalues r) j) = true ∧
     (nth j (rw_reject r) false = true → nth i (rw_reject r) false = true)).
Proof.
  intros E Hnum n. unfold romano_wolf_stepdown in E.
  apply rbind_Ok in E as (_ & _ & E).
  apply rbind_Ok in E as (_ & _ & E). apply rbind_Ok in E as (_ & _ & E).
  apply rbind_Ok in E as ([[[d dbar] n_obs] n_strat] & Hprep & E).
  assert (Hn : n_strat = n).
  { unfold prepare_differentials in Hprep. apply rbind_Ok in Hprep as (_ & _ & Hprep). apply rbind_Ok in Hprep as (_ & _ & Hprep).
    apply rbind_Ok in Hprep as (_ & _ & Hprep). apply rbind_Ok in Hprep as (? & _ & Hprep).
    apply rbind_Ok in Hprep as (? & _ & Hprep). by injection Hprep. }
  rewrite Hn in E. clear Hn Hprep n_strat. apply rbind_Ok in E as (omega & _ & E).
  set (t_obs := map (t_stat _ dbar omega) (seq 0 n)) in *.
  destruct (rw_loop _ _ _ _ _ _ _ _ _ _) as [adj rej] eqn:El. injection E as <-. cbn [rw_adjusted_pvalues rw_reject rw_n_rejected rw_observed_stats significant_indices] in *.
  apply rw_loop_spec in El as (L1 & L2 & _ & Hin & Hpair).
  - rewrite repeat_length in L1. rewrite repeat_length in L2. split; [done|]. split; [done|]. split; [|split].
    + apply count_true_indices.
    + intros k Hk. apply Hin. apply list_elem_of_In. unfold argsort_desc. rewrite sort_by_In, in_seq. lia.
    + intros i j Hi Hj Hlt. destruct (argsort_desc_before (f_at t_obs) Hnum n i j Hi Hj Hlt) as (l1 & l2 & l3 & Eo).
      assert (Hle : fleb (f_at adj i) (f_at adj j) = true) by (by eapply Hpair). split; [done|].
      assert (Hi' : i ∈ argsort_desc (f_at t_obs) n) by (apply list_elem_of_In; unfold argsort_desc; rewrite sort_by_In, in_seq; lia).
      assert (Hj' : j ∈ argsort_desc (f_at t_obs) n) by (apply list_elem_of_In; unfold argsort_desc; rewrite sort_by_In, in_seq; lia).
      destruct (Hin i Hi') as [_ ->]. destruct (Hin j Hj') as [_ ->]. intros Hj2. by eapply fleb_trans.
  - reflexivity.
  - eapply Permutation_NoDup; [apply sort_by_perm|apply seq_NoDup].
  - intros k. unfold argsort_desc. rewrite !list_elem_of_In, sort_by_In. reflexivity.
  - intros k Hk. rewrite !repeat_length. unfold argsort_desc in Hk. rewrite list_elem_of_In, sort_by_In, in_seq in Hk. lia.
  - intros k _. apply nth_repeat.
Qed.
End Gates.

(** ** The bootstrap and the reality check *)
Section Bootstraps.
Context `{PyRandomLaws}.

Lemma indices_from_range steps n p last g : 0 < n → 0 <= last < n →
  Forall (fun i => 0 <= i < n) (snd (indices_from steps n p last g)) ∧ length (snd (indices_from steps n p last g)) = steps.
Proof.
  intros Hn. revert last g. induction steps as [|steps IH]; intros last g Hl; cbn [indices_from]; [by split; [constructor|]|].
  destruct (random g) as [g1 u]. destruct (fltb u p).
  - pose proof (randrange_range g1 n Hn) as Hr. destruct (randrange g1 n) as [g2 i]. cbn [snd] in Hr.
    destruct (IH i g2 Hr) as [H1 H2]. destruct (indices_from steps n p i g2) as [g3 idx]. cbn in *. split; [by constructor|lia].
  - pose proof (Z.mod_pos_bound (last + 1) n Hn) as Hr. destruct (IH _ g1 Hr) as [H1 H2].
    destruct (indices_from steps n p ((last + 1) mod n) g1) as [g3 idx]. cbn in *. split; [by constructor|lia].
Qed.

(** A resample has the length of the series and stays inside it. *)
Lemma bootstrap_indices_range n block_length g : (0 < n)%nat →
  Forall (fun i => 0 <= i < Z.of_nat n) (snd (stationary_bootstrap_indices n block_length g)) ∧
  length (snd (stationary_bootstrap_indices n block_length g)) = n.
Proof.
  intros Hn. unfold stationary_bootstrap_indices. pose proof (randrange_range g (Z.of_nat n) ltac:(lia)) as Hr.
  destruct (randrange g (Z.of_nat n)) as [g1 first]. cbn [snd] in Hr.
  destruct (indices_from_range (n - 1) (Z.of_nat n) (fdiv f_one (f_of_Z block_length)) first g1 ltac:(lia) Hr) as [H1 H2].
  destruct (indices_from _ _ _ _ g1) as [g2 idx]. cbn in *. split; [by constructor|lia].
Qed.

Lemma bootstrap_rows_length draws d n_obs b g : length (bootstrap_rows draws d n_obs b g) = draws.
Proof.
  revert g. induction draws as [|draws IH]; intros g; [done|]. cbn [bootstrap_rows].
  destruct (stationary_bootstrap_indices n_obs b g). cbn. by rewrite IH.
Qed.
End Bootstraps.

(** [max(range(n), key=key)] picks a largest key. *)
Lemma argmax_spec key n : (0 < n)%nat → (forall k, f_isnan (key k) = false) →
  (argmax key n < n)%nat ∧ forall k, (k < n)%nat → fleb (key k) (key (argmax key n)) = true.
Proof.
  intros Hn Hk. unfold argmax.
  assert (Hgen : forall l b, (forall k, In k l → (k < n)%nat) → (b < n)%nat →
    let a := fold_left (fun best k => if fltb (key best) (key k) then k else best) l b in
    (a < n)%nat ∧ fleb (key b) (key a) = true ∧ forall k, In k l → fleb (key k) (key a) = true).
  { induction l as [|x l IH]; intros b Hl Hb; cbn [fold_left]; [split; [done|]; split; [by apply fleb_refl|done]|].
    destruct (fltb (key b) (key x)) eqn:E.
    - destruct (IH x) as (H1 & H2 & H3); [intros; apply Hl; by right|apply Hl; by left|]. split; [done|]. split.
      + eapply fleb_trans; [by apply fltb_fleb|done].
      + intros k [<-|Hin]; auto.
    - destruct (IH b) as (H1 & H2 & H3); [intros; apply Hl; by right|done|]. split; [done|]. split; [done|].
      intros k [<-|Hin]; [|auto]. eapply fleb_trans; [|done].
      destruct (fleb_total (key b) (key x)) as [Hle|Hle]; try done.
      destruct (fleb (key x) (key b)) eqn:E2; [done|]. rewrite fleb_false_fltb in E2 by done. congruence. }
  destruct (Hgen (seq 1 (n - 1)) 0%nat) as (H1 & H2 & H3); [intros k; rewrite in_seq; lia|done|].
  split; [done|]. intros [|k] Hlt; [done|]. apply H3. rewrite in_seq. lia.
Qed.

(** The reality check reports a best strategy and a share of draws, one of them being the observation
    itself. *)
Lemma reality_check_spec `{PyRandom} returns bench B L seed r : reality_check returns bench B L seed = Ok r →
  (exists d dbar n_obs, prepare_differentials returns bench = Ok (d, dbar, n_obs, wrc_n_strategies r) ∧
     wrc_max_differential r = f_at dbar (wrc_max_strategy_idx r) ∧
     ((forall k, f_isnan (f_at dbar k) = false) → (wrc_max_strategy_idx r < wrc_n_strategies r)%nat ∧
        forall k, (k < wrc_n_strategies r)%nat → fleb (f_at dbar k) (wrc_max_differential r) = true)) ∧
  exists count, (count <= Z.to_nat B)%nat ∧ wrc_p_value r = f_of_ratio (Z.of_nat count + 1) (B + 1).
Proof.
  unfold reality_check. intros E. apply rbind_Ok in E as (_ & _ & E). apply rbind_Ok in E as (_ & _ & E).
  apply rbind_Ok in E as ([[[d dbar] n_obs] n_strat] & Hp & [= <-]). cbn. split.
  - exists d, dbar, n_obs. split; [done|]. split; [done|]. intros Hk. apply argmax_spec; [|done].
    unfold prepare_differentials in Hp. apply rbind_Ok in Hp as (_ & Hl%reject_Ok%Nat.ltb_ge & Hp). unfold _MIN_STRATEGIES in Hl.
    apply rbind_Ok in Hp as (_ & _ & Hp). apply rbind_Ok in Hp as (_ & _ & Hp). apply rbind_Ok in Hp as (? & _ & Hp).
    apply rbind_Ok in Hp as (? & _ & Hp). injection Hp as <- <- <- <-. lia.
  - eexists. split; [|done]. etrans; [apply List.filter_length_le|]. unfold bootstrap_differential_means.
    by rewrite bootstrap_rows_length.
Qed.

(** ** A witness: one strategy with an edge, one without *)
Module TwoStrategies.
#[local] Instance counter : PyRandom := {
  rng := Z; rng_seed s := match s with Some n => n | None => 0 end;
  randrange g n := (g + 1, g * g mod n); random g := (g + 1, if g mod 3 =? 0 then f_zero else f_one);
}.
#[local] Instance libm : Libm := { log x := x; log10 x := x; pow x y := fmul x x }.

Definition cents (l : list Z) : list float := map (fun z => f_of_decimal (Dec z (-2))) l.
Definition returns : list (list float) := [cents [10; 11; 9; 10]; cents [1; -1; 2; -2]].

Lemma romano_wolf_consistent_witness : exists r, romano_wolf_stepdown returns None FWER_ALPHA 1000 2 (Some 7) = Ok r
  ∧ rw_reject r = [true; false] ∧ rw_n_rejected r = length (significant_indices r).
Proof.
  eexists. run_as E. split; [vm_compute; reflexivity|].
  apply (romano_wolf_consistent _ _ _ _ _ _ _ E).
  intros [|[|k]]; [vm_compute; reflexivity|vm_compute; reflexivity|by destruct k].
Defined.
End TwoStrategies.
