(* ===== verification/Survival.v ===== *)
(** * The leverage-survival bootstrap

    futur3/execution/survival.py, with the Politis-White block-length selector of
    futur3/cv/block_bootstrap.py it calls.  The generator is threaded through the paths as its
    state; floats are IEEE binary64. *)

From S2P Require Import Prelude PyDecimal PyFloat.

#[local] Open Scope Z_scope.

Definition flist_nth (l : list float) (i : Z) : float := nth (Z.to_nat i) l f_zero.

Section Survival.
Context `{Libm} `{PyRandom}.

(** ** cv/block_bootstrap.py: automatic block length *)
Definition _MIN_PW_DATA : Z := 8.
Definition _FLAT_TOP_HALF : float := f_of_decimal (Dec 5 (-1)).

(** [gamma(k)] for [k = 0 .. max_lag], divisor [n]. *)
Definition _autocovariances (centered : list float) (max_lag n : Z) : list float :=
  map (fun k => fdiv (fsum (zip_with fmul (firstn (Z.to_nat n - k) centered) (skipn k centered)))
                   (f_of_Z n))
    (seq 0 (Z.to_nat (max_lag + 1))).

Definition _flat_top (s : float) : float :=
  let a := fabs s in
  if fleb a _FLAT_TOP_HALF then f_one
  else if fleb a f_one then fmul (f_of_Z 2) (fsub f_one a)
  else f_zero.

(** The lag before the first run of [k_n] insignificant autocorrelations, from lag [kk] on. *)
Fixpoint first_quiet_run (rho : list float) (threshold : float) (k_n : nat) (kk : Z)
  (count : nat) : option Z :=
  match count with
  | O => None
  | S c => if forallb (fun j => fltb (fabs (flist_nth rho (kk + Z.of_nat j))) threshold)
                    (seq 0 k_n)
         then Some (kk - 1)
         else first_quiet_run rho threshold k_n (kk + 1) c
  end.

Definition zrange (a b : Z) : list Z := map (fun i => a + Z.of_nat i) (seq 0 (Z.to_nat (b - a))).

Definition optimal_block_length (data : list float) : Z :=
  let n := Z.of_nat (length data) in
  if n <? _MIN_PW_DATA then 1
  else
  let mean := fdiv (fsum data) (f_of_Z n) in
  let centered := map (fun v => fsub v mean) data in
  let k_n := Z.max 5 (f_ceil (fsqrt (log10 (f_of_Z n)))) in
  let m_max := f_ceil (fsqrt (f_of_Z n)) + k_n in
  let gamma := _autocovariances centered m_max n in
  let g0 := flist_nth gamma 0 in
  if fleb g0 f_zero then 1
  else
    let rho := map (fun g => fdiv g g0) gamma in
    let threshold := fmul (f_of_Z 2) (fsqrt (fdiv (log10 (f_of_Z n)) (f_of_Z n))) in
    let m_hat0 :=
      match first_quiet_run rho threshold (Z.to_nat k_n) 1 (Z.to_nat (m_max - k_n + 1)) with
      | Some m => m
      | None =>
          match filter (fun k => fleb threshold (fabs (flist_nth rho k)) = true)
                       (zrange 1 (m_max + 1)) with
          | [] => 1
          | k :: ks => foldl Z.max k ks
          end
      end in
    let m_hat := Z.max m_hat0 1 in
    let big_m := Z.min (2 * m_hat) m_max in
    let '(g_hat, d_inner) :=
      foldl (fun '(g, d) k =>
               let lam := _flat_top (fdiv (f_of_Z k) (f_of_Z big_m)) in
               let gk := flist_nth gamma (Z.abs k) in
               (fadd g (fmul (fmul lam (f_of_Z (Z.abs k))) gk), fadd d (fmul lam gk)))
            (f_zero, f_zero) (zrange (- big_m) (big_m + 1)) in
    let d_sb := fmul (f_of_Z 2) (pow d_inner (f_of_Z 2)) in
    if fleb d_sb f_zero || fleb g_hat f_zero then 1
    else
      let third := fdiv f_one (f_of_Z 3) in
      let b := fmul (pow (fdiv (fmul (f_of_Z 2) (pow g_hat (f_of_Z 2))) d_sb) third)
                    (pow (f_of_Z n) third) in
      let b_max := f_ceil (fmin (fmul (f_of_Z 3) (fsqrt (f_of_Z n)))
                                (fdiv (f_of_Z n) (f_of_Z 3))) in
      Z.max 1 (Z.min (f_trunc (fadd b (f_of_decimal (Dec 5 (-1))))) b_max).

(** ** execution/survival.py *)
Definition _MIN_RETURNS : Z := 2.

(** The rest of a path after its last index [i]. *)
Fixpoint path_from (steps : nat) (data_len : Z) (new_block_p : float) (i : Z) (g : rng)
  : list Z * rng :=
  match steps with
  | O => ([], g)
  | S k =>
    let '(g1, u) := random g in
    let '(i', g2) := if fltb u new_block_p
                     then let '(g2, j) := randrange g1 data_len in (j, g2)
                     else ((i + 1) mod data_len, g1) in
    let '(rest, g3) := path_from k data_len new_block_p i' g2 in
    (i' :: rest, g3)
  end.

Definition _stationary_path (output_len data_len : Z) (new_block_p : float) (g : rng)
  : list Z * rng :=
  let '(g1, i0) := randrange g data_len in
  let '(rest, g2) := path_from (Z.to_nat (output_len - 1)) data_len new_block_p i0 g1 in
  (i0 :: rest, g2).

(** One path survives iff the equity never reaches the kill floor or zero. *)
Fixpoint path_alive (rs : list float) (leverage kill_floor equity : float) (idx : list Z)
  : bool :=
  match idx with
  | [] => true
  | i :: idx' =>
    let equity := fmul equity (fadd f_one (fmul (flist_nth rs i) leverage)) in
    if fleb equity kill_floor || fleb equity f_zero then false
    else path_alive rs leverage kill_floor equity idx'
  end.

(** The number of surviving paths. *)
Fixpoint count_survived (n_paths : nat) (rs : list float) (leverage kill_floor new_block_p : float)
  (horizon : Z) (g : rng) : Z :=
  match n_paths with
  | O => 0
  | S k =>
    let '(idx, g') := _stationary_path horizon (Z.of_nat (length rs)) new_block_p g in
    (if path_alive rs leverage kill_floor f_one idx then 1 else 0)
    + count_survived k rs leverage kill_floor new_block_p horizon g'
  end.

Definition survival_probability (returns : list float) (leverage : float) (horizon n_paths : Z)
  (kill_switch_dd : float) (block_length : option Z) (seed : option Z) : result float :=
  guard! fltb leverage f_zero else SurvivalError in
  guard! horizon <? 1 else SurvivalError in
  guard! n_paths <? 1 else SurvivalError in
  guard! negb (fltb f_zero kill_switch_dd && fltb kill_switch_dd f_one) else SurvivalError in
  let n := Z.of_nat (length returns) in
  guard! n <? _MIN_RETURNS else SurvivalError in
  let bl := match block_length with Some b => b | None => optimal_block_length returns end in
  let bl := Z.max 1 (Z.min bl n) in
  let new_block_p := fdiv f_one (f_of_Z bl) in
  let kill_floor := fsub f_one kill_switch_dd in
  let survived := count_survived (Z.to_nat n_paths) returns leverage kill_floor new_block_p
                  horizon (rng_seed seed) in
  Ok (fdiv (f_of_Z survived) (f_of_Z n_paths)).

(** ** Facts *)
Lemma optimal_block_length_pos data : 1 <= optimal_block_length data.
Proof.
  unfold optimal_block_length. cbv zeta. repeat case_match; lia.
Qed.

Lemma count_survived_bounds k rs lev kf p h g :
  0 <= count_survived k rs lev kf p h g <= Z.of_nat k.
Proof.
  revert g. induction k as [|k IH]; intros g; [simpl; lia|].
  cbn [count_survived]. destruct (_stationary_path _ _ _ _) as [idx g'].
  specialize (IH g'). destruct (path_alive _ _ _ _ _); lia.
Qed.

(** A path stays inside the data: every resampled index is a position of the return series. *)
Lemma path_from_range `{!PyRandomLaws} k n p i g : 0 < n → 0 <= i < n →
  Forall (fun j => 0 <= j < n) (fst (path_from k n p i g)).
Proof.
  intros Hn. revert i g. induction k as [|k IH]; intros i g Hi; cbn [path_from]; [constructor|].
  destruct (random g) as [g1 u]. destruct (fltb u p).
  - pose proof (randrange_range g1 n Hn) as Hr. destruct (randrange g1 n) as [g2 j].
  simpl in Hr. specialize (IH j g2 Hr). destruct (path_from k n p j g2). by constructor.
  - pose proof (Z.mod_pos_bound (i + 1) n Hn) as Hr. specialize (IH _ g1 Hr).
  destruct (path_from k n p ((i + 1) mod n) g1). by constructor.
Qed.

Lemma path_from_length k n p i g : length (fst (path_from k n p i g)) = k.
Proof.
  revert i g. induction k as [|k IH]; intros i g; cbn [path_from]; [done|].
  destruct (random g) as [g1 u]. destruct (fltb u p).
  - destruct (randrange g1 n) as [g2 j]. specialize (IH j g2).
  destruct (path_from k n p j g2). simpl in *. by f_equal.
  - specialize (IH ((i + 1) mod n) g1). destruct (path_from k n p ((i + 1) mod n) g1).
  simpl in *. by f_equal.
Qed.
End Survival.
