(* ===== verification/Json.v ===== *)
(** * Python's [json]

    The values of a JSON document, [json.dumps] with the two separator styles and the key order the
    program uses, and [json.loads].  Text is one byte per character, as everywhere in the model: an
    escape of a code point above 255 is refused.  A number with a fraction or an exponent is a
    binary64; an object's repeated key keeps the last value. *)

From Stdlib Require Import SpecFloat DecimalString DecimalFacts DecimalZ DecimalPos.
From S2P Require Import Prelude PyDecimal PyText PyParse PyFloat.

#[local] Open Scope Z_scope.
#[local] Arguments String.append !_ _ / : simpl nomatch.

Inductive json :=
| JNull
| JBool (b : bool)
| JInt (n : Z)
| JFloat (x : float)
| JStr (s : string)
| JArr (items : list json)
| JObj (fields : list (string * json)).

(** ** Writing *)
Definition quote : ascii := "034".
Definition backslash : ascii := "092".

Definition json_char (c : ascii) : string :=
  let n := Z.of_N (N_of_ascii c) in
  let esc x := String backslash (String x EmptyString) in
  if n =? 34 then esc quote
  else if n =? 92 then esc backslash
  else if n =? 8 then esc "b"%char
  else if n =? 9 then esc "t"%char
  else if n =? 10 then esc "n"%char
  else if n =? 12 then esc "f"%char
  else if n =? 13 then esc "r"%char
  else if (n <? 32) || (126 <? n)
       then String backslash (String "u" (String "0" (String "0"
              (String (Sha256.hex_digit (n / 16)) (String (Sha256.hex_digit (n mod 16))
                 EmptyString)))))
       else String c EmptyString.

Fixpoint json_escape (s : string) : string :=
  match s with
  | EmptyString => EmptyString
  | String c s => String.append (json_char c) (json_escape s)
  end.

Definition json_str (s : string) : string :=
  String quote (String.append (json_escape s) (String quote EmptyString)).

Definition json_bool (b : bool) : string := if b then "true" else "false".

(** [float.__repr__]: the fewest significant digits that read back as the same number, the closest
    of the two neighbours first, written without an exponent between 1e-4 and 1e16. *)
Definition float_digits (x : float) (k : Z) : option decimal :=
  (* the value is m * 2^e; scale it to an integer with k digits *)
  let m := Z.abs (f_mant x) in
  let e := f_exp x in
  let num := if 0 <=? e then m * 2 ^ e else m in
  let den := if 0 <=? e then 1 else 2 ^ (- e) in
  let mag := ndigits num - ndigits den in
  let try s :=
    let scaled_num := if 0 <=? s then num else num * 10 ^ (- s) in
    let scaled_den := if 0 <=? s then den * 10 ^ s else den in
    let lo := scaled_num / scaled_den in
    let near := if 2 * (scaled_num mod scaled_den) <=? scaled_den then [lo; lo + 1] else [lo + 1; lo] in
    List.find (fun d => (ndigits (dcoef d) <=? k) && feqb (f_of_decimal d) (fabs x))
              (map (fun c => Dec c s) near) in
  match try (mag - k) with Some d => Some d | None => try (mag - k + 1) end.

Definition is_none_d (o : option decimal) : bool := match o with None => true | Some _ => false end.

Definition float_repr (x : float) : string :=
  match x with
  | S754_nan => "NaN"
  | S754_infinity s => if s then "-Infinity" else "Infinity"
  | S754_zero s => if s then "-0.0" else "0.0"
  | S754_finite s _ _ =>
      match List.find (fun o => negb (is_none_d o)) (map (float_digits x) (map Z.of_nat (seq 1 17))) with
      | Some (Some d) =>
          let digits := str_int (dcoef d) in
          let n := Z.of_nat (String.length digits) in
          let point := dexp d + n in (* digits before the point *)
          String.append (if s then "-" else "")
            (if (-4 <? point) && (point <=? 16)
             then if point <=? 0
                  then String.append "0." (String.append (str_repeat "0" (Z.to_nat (- point))) digits)
                  else if n <=? point
                  then String.append digits (String.append (str_repeat "0" (Z.to_nat (point - n))) ".0")
                  else String.append (String.substring 0 (Z.to_nat point) digits)
                         (String.append "." (String.substring (Z.to_nat point) (Z.to_nat (n - point)) digits))
             else let e := point - 1 in
                  String.append (String.substring 0 1 digits)
                    (String.append (if n =? 1 then "" else String.append "." (String.substring 1 (Z.to_nat (n - 1)) digits))
                       (String.append (if e <? 0 then "e-" else "e+") (str_pad 2 (Z.abs e)))))
      | _ => ""
      end
  end.

Example repr_1 : map float_repr [f_of_decimal (Dec 1 (-1)); f_of_Z 3; f_of_Z (-100); f_of_Z (10 ^ 22); f_of_Z 123456789012345680;
  f_of_decimal (Dec 1 (-4)); f_of_decimal (Dec 1 (-5)); fdiv f_one (f_of_Z 3);
  f_of_decimal (Dec 12345 (-2)); fadd (f_of_decimal (Dec 1 (-1))) (f_of_decimal (Dec 2 (-1))) ]
  = ["0.1"; "3.0"; "-100.0"; "1e+22"; "1.2345678901234568e+17"; "0.0001"; "1e-05"; "0.3333333333333333"; "123.45";
     "0.30000000000000004"]%string.
Proof. vm_compute. reflexivity. Qed.

(** The separators between items and after a key, and whether keys are written in sorted order. *)
Record style := { item_sep : string; key_sep : string; sort_keys : bool }.
Definition default_style : style := {| item_sep := ", "; key_sep := ": "; sort_keys := false |}.
Definition sorted_style : style := {| item_sep := ", "; key_sep := ": "; sort_keys := true |}.
Definition compact_style : style := {| item_sep := ","; key_sep := ":"; sort_keys := true |}.

Definition key_leb {A} (a b : string * A) : bool := String.leb (fst a) (fst b).

Fixpoint json_dumps (st : style) (j : json) : string :=
  match j with
  | JNull => "null"
  | JBool b => json_bool b
  | JInt n => str_int n
  | JFloat x => float_repr x
  | JStr s => json_str s
  | JArr l => String "[" (String.append (str_join (item_sep st) (map (json_dumps st) l)) "]")
  | JObj fs =>
      let fs := map (fun kv => (fst kv, json_dumps st (snd kv))) fs in
      let fs := if sort_keys st then sort_by key_leb fs else fs in
      String "{" (String.append
        (str_join (item_sep st)
           (map (fun kv => String.append (json_str (fst kv)) (String.append (key_sep st) (snd kv))) fs)) "}")
  end.

(** ** Reading *)
Definition json_space (c : ascii) : bool :=
  Ascii.eqb c " " || Ascii.eqb c "009" || Ascii.eqb c "010" || Ascii.eqb c "013".

Fixpoint skip_ws (s : string) : string :=
  match s with
  | EmptyString => EmptyString
  | String c s' => if json_space c then skip_ws s' else s
  end.

Definition hex_val (c : ascii) : option Z :=
  let n := Z.of_N (N_of_ascii c) in
  if (48 <=? n) && (n <=? 57) then Some (n - 48)
  else if (97 <=? n) && (n <=? 102) then Some (n - 87)
  else if (65 <=? n) && (n <=? 70) then Some (n - 55) else None.

Definition unescape (c : ascii) : option ascii :=
  if Ascii.eqb c quote || Ascii.eqb c backslash || Ascii.eqb c "/" then Some c
  else if Ascii.eqb c "b" then Some "008"%char
  else if Ascii.eqb c "t" then Some "009"%char
  else if Ascii.eqb c "n" then Some "010"%char
  else if Ascii.eqb c "f" then Some "012"%char
  else if Ascii.eqb c "r" then Some "013"%char else None.

(** The rest of a string after its opening quote; a control character is refused. *)
Fixpoint read_chars (s : string) : option (string * string) :=
  let cons c o := match o with Some (t, rest) => Some (String c t, rest) | None => None end in
  match s with
  | EmptyString => None
  | String c s' =>
      if Ascii.eqb c quote then Some (EmptyString, s')
      else if Ascii.eqb c backslash then
        match s' with
        | String e r =>
            if Ascii.eqb e "u" then
              match r with
              | String h1 (String h2 (String h3 (String h4 r'))) =>
                  match hex_val h1, hex_val h2, hex_val h3, hex_val h4 with
                  | Some 0, Some 0, Some a, Some b => cons (ascii_of_N (Z.to_N (16 * a + b))) (read_chars r')
                  | _, _, _, _ => None
                  end
              | _ => None
              end
            else match unescape e with Some x => cons x (read_chars r) | None => None end
        | EmptyString => None
        end
      else if Z.of_N (N_of_ascii c) <? 32 then None
      else cons c (read_chars s')
  end.

(** A number: an integer without leading zeros, perhaps a fraction, perhaps an exponent. *)
Definition read_number (s : string) : option (json * string) :=
  let '(neg, s) := match s with
                   | String c s' => if Ascii.eqb c "-" then (true, s') else (false, s)
                   | EmptyString => (false, s)
                   end in
  let '(i, r) := take_digits s in
  let lead := match i with String z (String _ _) => Ascii.eqb z "0" | _ => false end in
  let '(f, r) := match r with
                 | String c r' => if Ascii.eqb c "."
                                  then match take_digits r' with
                                       | (EmptyString, _) => (EmptyString, r)
                                       | fr => fr
                                       end
                                  else (EmptyString, r)
                 | EmptyString => (EmptyString, r)
                 end in
  let '(e, r) := match r with
                 | String c r' =>
                     if Ascii.eqb c "e" || Ascii.eqb c "E" then
                       let '(eneg, r'') := take_sign r' in
                       match take_digits r'' with
                       | (EmptyString, _) => (None, r)
                       | (ed, rest) => (option_map (signed eneg) (digits_val ed), rest)
                       end
                     else (None, r)
                 | EmptyString => (None, r)
                 end in
  match i with
  | EmptyString => None
  | _ =>
      if lead then None
      else match digits_val (String.append i f) with
           | None => None
           | Some c =>
               match f, e with
               | EmptyString, None => Some (JInt (signed neg c), r)
               | _, _ =>
                   let x := f_of_decimal (Dec c (match e with Some e => e | None => 0 end - Z.of_nat (String.length f))) in
                   Some (JFloat (if neg then SFopp x else x), r)
               end
           end
  end.

Fixpoint strip_prefix (p s : string) : option string :=
  match p, s with
  | EmptyString, _ => Some s
  | String a p', String b s' => if Ascii.eqb a b then strip_prefix p' s' else None
  | _, _ => None
  end.

(** The literals, in the order the scanner tries them. *)
Definition read_literal (s : string) : option (json * string) :=
  let try p v k := match strip_prefix p s with Some r => Some (v, r) | None => k end in
  try "null"%string JNull (try "true"%string (JBool true) (try "false"%string (JBool false)
    (try "NaN"%string (JFloat S754_nan) (try "Infinity"%string (JFloat (S754_infinity false))
      (try "-Infinity"%string (JFloat (S754_infinity true)) None))))).

Definition expect (c : ascii) (s : string) : option string :=
  match s with String c' s' => if Ascii.eqb c' c then Some s' else None | EmptyString => None end.

(** A value at the start of the text, the items of an array after its bracket or a comma, and the
    fields of an object likewise. *)
Fixpoint read_value (fuel : nat) (s : string) : option (json * string) :=
  match fuel, s with
  | O, _ | _, EmptyString => None
  | S fuel, String c r =>
      if Ascii.eqb c quote then
        match read_chars r with Some (t, r) => Some (JStr t, r) | None => None end
      else if Ascii.eqb c "[" then
        let r := skip_ws r in
        match expect "]" r with
        | Some r => Some (JArr [], r)
        | None => match read_items fuel r with Some (l, r) => Some (JArr l, r) | None => None end
        end
      else if Ascii.eqb c "{" then
        let r := skip_ws r in
        match expect "}" r with
        | Some r => Some (JObj [], r)
        | None => match read_fields fuel [] r with Some (l, r) => Some (JObj l, r) | None => None end
        end
      else match read_literal s with Some v => Some v | None => read_number s end
  end
with read_items (fuel : nat) (s : string) : option (list json * string) :=
  match fuel with
  | O => None
  | S fuel =>
      match read_value fuel s with
      | None => None
      | Some (v, r) =>
          let r := skip_ws r in
          match expect "," r with
          | Some r => match read_items fuel (skip_ws r) with
                      | Some (l, r) => Some (v :: l, r)
                      | None => None
                      end
          | None => match expect "]" r with Some r => Some ([v], r) | None => None end
          end
      end
  end
with read_fields (fuel : nat) (acc : dict string json) (s : string)
    : option (dict string json * string) :=
  match fuel with
  | O => None
  | S fuel =>
      match expect quote s with
      | None => None
      | Some r =>
          match read_chars r with
          | None => None
          | Some (k, r) =>
              match expect ":" (skip_ws r) with
              | None => None
              | Some r =>
                  match read_value fuel (skip_ws r) with
                  | None => None
                  | Some (v, r) =>
                      let acc := dset k v acc in
                      let r := skip_ws r in
                      match expect "," r with
                      | Some r => read_fields fuel acc (skip_ws r)
                      | None => match expect "}" r with Some r => Some (acc, r) | None => None end
                      end
                  end
              end
          end
      end
  end.

(** [json.loads]: two nested calls never stand at the same place of the text, so twice its length is
    enough fuel. *)
Definition json_loads (s : string) : result json :=
  of_option (match read_value (S (2 * String.length s)) (skip_ws s) with
             | Some (j, r) => match skip_ws r with EmptyString => Some j | _ => None end
             | None => None
             end) JSONDecodeError.

(** For examples: a text with single quotes in place of double ones. *)
Fixpoint dq (s : string) : string :=
  match s with
  | EmptyString => EmptyString
  | String c s => String (if Ascii.eqb c "'" then quote else c) (dq s)
  end.

Example loads_1 : json_loads (dq " {'a' : [1, -2, 1.5e1, 'x\u0041\n'], 'b':{}, 'a': null} ")
  = Ok (JObj [("a", JNull); ("b", JObj [])])%string.
Proof. vm_compute. reflexivity. Qed.
Example loads_2 : map (fun s => is_ok (json_loads (dq s)))
    ["[1,]"; "{'a':1,}"; "01"; "1.5"; "-0"; "1e5"; "'a"; "[1 2]"; "nul"; ""]%string
  = [false; false; false; true; true; true; false; false; false; false].
Proof. vm_compute. reflexivity. Qed.

(** ** [str], [bool] and [int] of a parsed value *)

(** [str(v)]; the text of a list or a dict starts with a bracket, which is all its readers see of it:
    none of them accepts such a text. *)
Definition py_str (v : json) : string :=
  match v with
  | JNull => "None"
  | JBool b => if b then "True" else "False"
  | JInt n => str_int n
  | JFloat x => match x with
                | S754_nan => "nan"
                | S754_infinity s => if s then "-inf" else "inf"
                | _ => float_repr x
                end
  | JStr s => s
  | JArr _ => "["
  | JObj _ => "{"
  end.

Definition py_bool (v : json) : bool :=
  match v with
  | JNull => false
  | JBool b => b
  | JInt n => negb (n =? 0)
  | JFloat x => negb (feqb x f_zero)
  | JStr s => negb (String.eqb s "")
  | JArr l => negb (length l =? 0)%nat
  | JObj fs => negb (length fs =? 0)%nat
  end.

Definition py_int (v : json) : result Z :=
  match v with
  | JBool b => Ok (if b then 1 else 0)
  | JInt n => Ok n
  | JFloat x => if f_isnan x then Err ValueError
                else if f_isfinite x then Ok (f_trunc x) else Err OverflowError
  | JStr s => int_of_str s
  | JNull | JArr _ | JObj _ => Err TypeError
  end.

(** ** What is written reads back *)

(** Values without floats, whose objects have distinct keys. *)
Fixpoint json_plain (j : json) : Prop :=
  match j with
  | JFloat _ => False
  | JArr l => (fix all l := match l with [] => True | x :: l => json_plain x ∧ all l end) l
  | JObj fs => List.NoDup (map fst fs)
      ∧ (fix all l := match l with [] => True | x :: l => json_plain (snd x) ∧ all l end) fs
  | _ => True
  end.

Fixpoint json_size (j : json) : nat :=
  match j with
  | JArr l => S (list_sum (map (fun x => S (json_size x)) l))
  | JObj fs => S (list_sum (map (fun kv => S (json_size (snd kv))) fs))
  | _ => 1
  end.

Lemma json_plain_arr l : json_plain (JArr l) ↔ Forall json_plain l.
Proof.
  cbn. induction l as [|x l IH]; [done|]. rewrite List.Forall_cons_iff, <- IH. done.
Qed.

Lemma json_plain_obj fs :
  json_plain (JObj fs) ↔ List.NoDup (map fst fs) ∧ Forall (fun kv => json_plain (snd kv)) fs.
Proof.
  cbn. apply and_iff_compat_l. clear. induction fs as [|x l IH]; [done|].
  rewrite List.Forall_cons_iff, <- IH. done.
Qed.

Lemma read_chars_char c rest :
  read_chars (String.append (json_char c) rest)
  = match read_chars rest with Some (t, r) => Some (String c t, r) | None => None end.
Proof. destruct c as [[] [] [] [] [] [] [] []]; cbv -[read_chars]; reflexivity. Qed.

Lemma read_chars_escape s rest :
  read_chars (String.append (json_escape s) (String quote rest)) = Some (s, rest).
Proof.
  induction s as [|c s IH]; [done|]. cbn [json_escape]. rewrite append_assoc, read_chars_char, IH. done.
Qed.

(** The first character of a written value, and what may follow a number. *)
Definition solid (s : string) : Prop :=
  match s with String c _ => json_space c = false ∧ c ≠ "]"%char ∧ c ≠ "}"%char | EmptyString => False end.
Definition delim (s : string) : Prop :=
  match s with String c _ => c = ","%char ∨ c = "]"%char ∨ c = "}"%char | EmptyString => True end.

Lemma skip_ws_solid s rest : solid s → skip_ws (String.append s rest) = String.append s rest.
Proof. destruct s as [|c s]; [done|]. intros [Hc _]. cbn. by rewrite Hc. Qed.

Lemma expect_solid c s rest : solid s → c = "]"%char ∨ c = "}"%char → expect c (String.append s rest) = None.
Proof.
  destruct s as [|x s]; [done|]. intros (_ & H1 & H2) Hc. cbn.
  destruct (Ascii.eqb_spec x c); [|done]. naive_solver.
Qed.

Lemma digit_solid c : ascii_isdigit c = true → json_space c = false ∧ c ≠ "]"%char ∧ c ≠ "}"%char.
Proof.
  intros Hc. destruct c as [[] [] [] [] [] [] [] []]; try discriminate Hc; (split; [done|split; discriminate]).
Qed.

(** A written integer: a sign and digits that do not start with a superfluous zero. *)
Definition lead_zero (i : string) : bool :=
  match i with String z (String _ _) => Ascii.eqb z "0" | _ => false end.

Lemma to_uint_lead p u : Pos.to_uint p = Decimal.D0 u → u = Decimal.Nil.
Proof.
  intros E. pose proof (DecimalPos.Unsigned.to_of (Pos.to_uint p)) as Hto.
  rewrite DecimalPos.Unsigned.of_to, E in Hto. cbn [N.to_uint] in Hto. rewrite E in Hto.
  unfold Decimal.unorm in Hto. cbn [Decimal.nzhead] in Hto.
  destruct (Decimal.nzhead u) eqn:En; try discriminate Hto; [congruence|].
  by apply nzhead_nonzero in En.
Qed.

Lemma str_int_lead n : 0 <= n → lead_zero (str_int n) = false.
Proof.
  intros Hn. unfold str_int. destruct n as [|p|p]; [done| |lia]. cbn [Z.to_int NilZero.string_of_int].
  destruct (Pos.to_uint p) as [|u|u|u|u|u|u|u|u|u|u] eqn:E; [done|apply to_uint_lead in E as ->; done|..];
    cbn; by destruct (NilEmpty.string_of_uint _).
Qed.

Lemma read_digits neg i n rest : str_all ascii_isdigit i = true → i ≠ ""%string → lead_zero i = false →
  digits_val i = Some n → delim rest →
  read_number (if neg : bool then String "-" (String.append i rest) else String.append i rest)
  = Some (JInt (signed neg n), rest).
Proof.
  intros Hi Hne Hl Hv Hd.
  assert (Hrest : not_digit_first rest) by (destruct rest as [|c r]; [done|]; destruct Hd as [->|[->| ->]]; done).
  assert (Hs : (match (if neg then String "-" (String.append i rest) else String.append i rest) with
                | String c s' => if Ascii.eqb c "-" then (true, s')
                                 else (false, if neg then String "-" (String.append i rest) else String.append i rest)
                | EmptyString => (false, if neg then String "-" (String.append i rest) else String.append i rest)
                end) = (neg, String.append i rest)).
  { destruct neg; [done|]. destruct i as [|x i]; [done|]. cbn. simpl in Hi.
    apply andb_true_iff in Hi as [Hx _]. by destruct (digit_not_sign x Hx) as [-> _]. }
  unfold read_number. rewrite Hs. clear Hs. rewrite take_digits_append by done.
  change (match i with String z (String _ _) => Ascii.eqb z "0" | _ => false end) with (lead_zero i).
  rewrite Hl. clear Hs || idtac.
  assert (E : (match rest with
               | String c r' => if Ascii.eqb c "." then match take_digits r' with
                                   | (EmptyString, _) => (EmptyString, rest) | fr => fr end
                                else (EmptyString, rest)
               | EmptyString => (EmptyString, rest) end) = (EmptyString, rest))
    by (destruct rest as [|c r]; [done|]; destruct Hd as [->|[->| ->]]; done).
  rewrite E. clear E. rewrite append_empty_r, Hv. destruct i as [|x i]; [done|].
  destruct rest as [|c r]; [done|]. destruct Hd as [->|[->| ->]]; done.
Qed.

Lemma read_number_int n rest : delim rest →
  read_number (String.append (str_int n) rest) = Some (JInt n, rest).
Proof.
  intros Hd. destruct (Z.lt_ge_cases n 0) as [Hn|Hn].
  - rewrite str_int_neg by done. destruct (str_int_digits (- n) ltac:(lia)) as [H1 H2].
    pose proof (read_digits true _ (- n) rest H1 H2 (str_int_lead (- n) ltac:(lia)) (digits_val_str_int (- n) ltac:(lia)) Hd) as E.
    cbn [signed] in E. rewrite Z.opp_involutive in E. exact E.
  - destruct (str_int_digits n Hn) as [H1 H2].
    exact (read_digits false _ n rest H1 H2 (str_int_lead _ Hn) (digits_val_str_int _ Hn) Hd).
Qed.

(** A written integer starts with a digit, or with a sign and a digit. *)
Lemma str_int_head n : exists c s, ascii_isdigit c = true ∧
  (str_int n = String c s ∨ str_int n = String "-" (String c s)).
Proof.
  assert (Hh : forall m, 0 <= m → exists c s, ascii_isdigit c = true ∧ str_int m = String c s).
  { intros m Hm. destruct (str_int_digits m Hm) as [H1 H2]. destruct (str_int m) as [|c s]; [done|].
    simpl in H1. apply andb_true_iff in H1 as [Hc _]. eauto. }
  destruct (Z.lt_ge_cases n 0) as [Hn|Hn].
  - rewrite str_int_neg by done. destruct (Hh (- n) ltac:(lia)) as (c & s & Hc & ->). eauto 6.
  - destruct (Hh n Hn) as (c & s & Hc & ->). eauto.
Qed.

Lemma read_value_int fuel n rest : delim rest →
  read_value (S fuel) (String.append (str_int n) rest) = Some (JInt n, rest).
Proof.
  intros Hd. pose proof (read_number_int n rest Hd) as Hr.
  destruct (str_int_head n) as (c & s & Hc & [E|E]); rewrite E in *;
    destruct c as [[] [] [] [] [] [] [] []]; try discriminate Hc; exact Hr.
Qed.

Lemma dumps_solid j : json_plain j → solid (json_dumps default_style j).
Proof.
  destruct j as [|b|n|x|s|l|fs]; cbn; try done; intros _.
  - by destruct b.
  - destruct (str_int_head n) as (c & s & Hc & [->| ->]); cbn; [by apply digit_solid|done].
Qed.

Lemma expect_here c s : expect c (String c s) = Some s.
Proof. cbn. by rewrite Ascii.eqb_refl. Qed.
Lemma skip_ws_here c s : json_space c = false → skip_ws (String c s) = String c s.
Proof. intros Hc. cbn. by rewrite Hc. Qed.
Lemma skip_ws_space s : skip_ws (String " " s) = skip_ws s.
Proof. done. Qed.

Notation dumps := (json_dumps default_style).

Definition reads (j : json) : Prop := forall fuel rest, delim rest → (json_size j <= fuel)%nat →
  read_value fuel (String.append (dumps j) rest) = Some (j, rest).

Lemma str_join_cons sep x y l : str_join sep (x :: y :: l) = String.append x (String.append sep (str_join sep (y :: l))).
Proof. done. Qed.

Lemma read_items_dumps l : forall fuel rest, l ≠ [] → Forall (fun j => json_plain j ∧ reads j) l →
  (list_sum (map (fun x => S (json_size x)) l) <= fuel)%nat →
  read_items fuel (String.append (str_join ", " (map dumps l)) (String "]" rest)) = Some (l, rest).
Proof.
  induction l as [|x l IH]; intros fuel rest Hne Hall Hf; [done|].
  inversion Hall as [|? ? [Hp Hx] Hl]; subst. cbn [map list_sum foldr] in Hf. fold (list_sum (map (fun x => S (json_size x)) l)) in Hf.
  destruct fuel as [|fuel]; [lia|]. cbn [read_items].
  destruct l as [|y l].
  - cbn [map str_join]. rewrite Hx; [done|by right; left|cbn in Hf; lia].
  - cbn [map]. rewrite str_join_cons, !append_assoc. rewrite Hx; [|by left|lia].
    cbn [String.append]. rewrite skip_ws_here, expect_here, skip_ws_space by done.
    assert (Hsol : solid (dumps y)) by (apply dumps_solid; inversion Hl; tauto).
    assert (Hs : solid (str_join ", " (map dumps (y :: l)))).
    { cbn [map]. destruct l as [|z l]; [done|]. cbn [map]. rewrite str_join_cons. by destruct (dumps y). }
    change (dumps y :: map dumps l) with (map dumps (y :: l)).
    rewrite skip_ws_solid by exact Hs. rewrite IH; [done|done|done|lia].
Qed.

Notation field kv := (String.append (json_str (fst kv)) (String.append ": " (dumps (snd kv)))).

Lemma read_fields_dumps fs : forall fuel acc rest, fs ≠ [] →
  Forall (fun kv => json_plain (snd kv) ∧ reads (snd kv)) fs → List.NoDup (map fst (acc ++ fs)) →
  (list_sum (map (fun kv => S (json_size (snd kv))) fs) <= fuel)%nat →
  read_fields fuel acc (String.append (str_join ", " (map (fun kv => field kv) fs)) (String "}" rest))
  = Some (acc ++ fs, rest).
Proof.
  induction fs as [|[k v] fs IH]; intros fuel acc rest Hne Hall Hnd Hf; [done|].
  inversion Hall as [|? ? [Hp Hx] Hl]; subst. cbn [snd] in Hp, Hx.
  cbn [map list_sum foldr snd] in Hf. fold (list_sum (map (fun kv => S (json_size (snd kv))) fs)) in Hf.
  destruct fuel as [|fuel]; [lia|]. cbn [read_fields].
  assert (Hfresh : dset k v acc = acc ++ [(k, v)]).
  { apply dset_fresh, dget_None. unfold dkeys. rewrite map_app in Hnd. cbn [map fst] in Hnd.
    apply NoDup_remove_2 in Hnd. rewrite in_app_iff in Hnd. tauto. }
  assert (Htext : forall tail, String.append (field (k, v)) tail
    = String quote (String.append (json_escape k) (String quote (String ":" (String " " (String.append (dumps v) tail)))))).
  { intros tail. cbn [fst snd]. unfold json_str. rewrite append_assoc. cbn [String.append].
    f_equal. by rewrite append_assoc. }
  assert (Hv : forall tail, delim tail → expect quote (String.append (field (k, v)) tail)
      = Some (String.append (json_escape k) (String quote (String ":" (String " " (String.append (dumps v) tail)))))
      ∧ skip_ws (String ":" (String " " (String.append (dumps v) tail))) = String ":" (String " " (String.append (dumps v) tail))
      ∧ read_value fuel (skip_ws (String " " (String.append (dumps v) tail))) = Some (v, tail)).
  { intros tail Ht. rewrite Htext, expect_here, skip_ws_here, skip_ws_space by done.
    rewrite skip_ws_solid by (by apply dumps_solid). rewrite Hx; [done|done|lia]. }
  destruct fs as [|[k2 v2] fs].
  - cbn [map str_join]. destruct (Hv (String "}" rest) ltac:(by right; right)) as (E1 & E2 & E3).
    rewrite E1, read_chars_escape, E2, expect_here, E3. cbn. by rewrite Hfresh.
  - cbn [map]. rewrite str_join_cons, (append_assoc (field (k, v))), (append_assoc ", ").
    destruct (Hv (String "," (String " " (String.append (str_join ", " (map (fun kv => field kv) ((k2, v2) :: fs))) (String "}" rest))))
      ltac:(by left)) as (E1 & E2 & E3).
    cbn [map] in E1, E2, E3.
    match goal with |- context [String.append ", " ?t] =>
      change (String.append ", " t) with (String "," (String " " t)) end.
    rewrite E1, read_chars_escape, E2, expect_here, E3. rewrite skip_ws_here, expect_here, skip_ws_space by done.
    change (field (k2, v2) :: map (fun kv => field kv) fs) with (map (fun kv => field kv) ((k2, v2) :: fs)).
    rewrite skip_ws_solid.
    + rewrite Hfresh. rewrite IH; [by rewrite <- app_assoc|done|done| |lia]. by rewrite <- app_assoc.
    + cbn [map]. by destruct fs.
Qed.

Lemma list_sum_In {A} (f : A -> nat) l x : In x l → (f x <= list_sum (map f l))%nat.
Proof.
  unfold list_sum. induction l as [|y l IHl]; [done|]. cbn. intros [->|Hx]; [lia|]. specialize (IHl Hx). lia.
Qed.

Lemma dumps_reads n : forall j, (json_size j <= n)%nat → json_plain j → reads j.
Proof.
  induction n as [|n IH]; intros j Hn Hp; [destruct j; cbn in Hn; lia|].
  intros fuel rest Hd Hf. destruct fuel as [|fuel]; [destruct j; cbn in Hf; lia|].
  destruct j as [|b|m|x|s|l|fs].
  - done.
  - by destruct b.
  - by apply read_value_int.
  - done.
  - cbn [json_dumps]. unfold json_str. cbn [String.append read_value].
    change (Ascii.eqb quote quote) with true. cbn iota. rewrite append_assoc. cbn [String.append].
    by rewrite read_chars_escape.
  - apply json_plain_arr in Hp. cbn [json_dumps item_sep default_style String.append read_value json_size] in *.
    change (Ascii.eqb "[" quote) with false. change (Ascii.eqb "[" "[") with true. cbn iota.
    rewrite append_assoc. cbn [String.append].
    destruct l as [|x l]; [done|].
    pose proof (list_sum_In (fun x => S (json_size x)) (x :: l)) as Hsz. cbn beta in Hsz.
    assert (Hsol : solid (str_join ", " (map dumps (x :: l)))).
    { assert (Hx : solid (dumps x)) by (apply dumps_solid; by inversion Hp).
      cbn [map]. destruct l as [|z l]; [done|]. cbn [map]. rewrite str_join_cons. by destruct (dumps x). }
    rewrite skip_ws_solid, expect_solid by auto. rewrite read_items_dumps; [done|done| |lia].
    apply List.Forall_forall. intros y Hy. rewrite List.Forall_forall in Hp. split; [by apply Hp|].
    apply IH; [specialize (Hsz _ Hy); lia|by apply Hp].
  - apply json_plain_obj in Hp as [Hnd Hp]. cbn [json_dumps item_sep key_sep sort_keys default_style String.append read_value json_size] in *.
    change (Ascii.eqb "{" quote) with false. change (Ascii.eqb "{" "[") with false.
    change (Ascii.eqb "{" "{") with true. cbn iota. rewrite append_assoc, map_map. cbn [String.append fst snd].
    destruct fs as [|kv fs]; [done|].
    pose proof (list_sum_In (fun kv => S (json_size (snd kv))) (kv :: fs)) as Hsz. cbn beta in Hsz.
    assert (Hsol : solid (str_join ", " (map (fun kv => field kv) (kv :: fs)))).
    { cbn [map]. by destruct fs. }
    rewrite skip_ws_solid, expect_solid by auto. rewrite read_fields_dumps; [done|done| |done|lia].
    apply List.Forall_forall. intros y Hy. rewrite List.Forall_forall in Hp. split; [by apply Hp|].
    apply IH; [specialize (Hsz _ Hy); lia|by apply Hp].
Qed.

(** The text is long enough to be its own fuel. *)
Lemma str_join_length l : (list_sum (map (fun s => S (String.length s)) l) <= S (String.length (str_join ", " l)))%nat.
Proof.
  induction l as [|x l IH]; [cbn; lia|]. destruct l as [|y l]; [cbn; lia|]. rewrite str_join_cons.
  rewrite !string_length_append. cbn [map list_sum foldr] in *. cbn [String.length]. lia.
Qed.

Lemma list_sum_le {A} (f g : A -> nat) l : (forall x, In x l → (f x <= 2 * g x)%nat) →
  (list_sum (map f l) <= 2 * list_sum (map g l))%nat.
Proof.
  induction l as [|x l IH]; intros Hfg; [done|]. cbn [map]. unfold list_sum in *. cbn [foldr].
  pose proof (Hfg x ltac:(by left)). specialize (IH ltac:(intros; apply Hfg; by right)). lia.
Qed.

Lemma json_size_length n : forall j, (json_size j <= n)%nat → json_plain j →
  (json_size j <= 2 * String.length (dumps j))%nat.
Proof.
  induction n as [|n IH]; intros j Hn Hp; [destruct j; cbn in Hn; lia|].
  assert (Hne : (1 <= String.length (dumps j))%nat)
    by (pose proof (dumps_solid j Hp); destruct (dumps j); [done|cbn; lia]).
  destruct j as [|b|m|x|s|l|fs]; try (cbn [json_size]; lia); cbn [json_size] in *.
  - apply json_plain_arr in Hp. rewrite List.Forall_forall in Hp.
    cbn [json_dumps item_sep default_style String.length]. rewrite string_length_append. cbn [String.length].
    pose proof (str_join_length (map dumps l)) as Hj. rewrite map_map in Hj.
    pose proof (list_sum_le (fun x => S (json_size x)) (fun x => S (String.length (dumps x))) l) as Hle.
    cut ((list_sum (map (fun x => S (json_size x)) l) <= 2 * list_sum (map (fun x => S (String.length (dumps x))) l))%nat); [lia|].
    apply Hle. intros x Hx. pose proof (list_sum_In (fun x => S (json_size x)) l x Hx). cbn beta in *.
    specialize (IH x ltac:(lia) ltac:(by apply Hp)). lia.
  - apply json_plain_obj in Hp as [_ Hp]. rewrite List.Forall_forall in Hp.
    cbn [json_dumps item_sep key_sep sort_keys default_style String.length]. rewrite map_map. cbn [fst snd].
    rewrite string_length_append. cbn [String.length].
    pose proof (str_join_length (map (fun kv => field kv) fs)) as Hj. rewrite map_map in Hj.
    pose proof (list_sum_le (fun kv => S (json_size (snd kv))) (fun kv => S (String.length (field kv))) fs) as Hle.
    cut ((list_sum (map (fun kv => S (json_size (snd kv))) fs)
          <= 2 * list_sum (map (fun kv : string * json => S (String.length (field kv))) fs))%nat); [lia|].
    apply Hle. intros kv Hx. pose proof (list_sum_In (fun kv => S (json_size (snd kv))) fs kv Hx). cbn beta in *.
    specialize (IH (snd kv) ltac:(lia) ltac:(by apply Hp)). rewrite !string_length_append. lia.
Qed.

Lemma loads_dumps j : json_plain j → json_loads (dumps j) = Ok j.
Proof.
  intros Hp. unfold json_loads. pose proof (dumps_solid j Hp) as Hs.
  pose proof (skip_ws_solid (dumps j) "" Hs) as E. rewrite append_empty_r in E. rewrite E. clear E.
  pose proof (dumps_reads (json_size j) j ltac:(lia) Hp (S (2 * String.length (dumps j))) ""%string I) as E.
  rewrite append_empty_r in E. rewrite E; [done|].
  pose proof (json_size_length (json_size j) j ltac:(lia) Hp). lia.
Qed.

(** A written value is printable text: one line. *)
Definition printable (c : ascii) : bool :=
  let n := Z.of_N (N_of_ascii c) in (32 <=? n) && (n <=? 126).

Lemma json_char_printable c : str_all printable (json_char c) = true.
Proof. destruct c as [[] [] [] [] [] [] [] []]; reflexivity. Qed.

Lemma json_str_printable s : str_all printable (json_str s) = true.
Proof.
  unfold json_str. cbn [str_all]. rewrite str_all_append. change (printable quote) with true. cbn [andb str_all].
  change (printable quote) with true. rewrite andb_true_r.
  induction s as [|c s IH]; [done|]. cbn [json_escape]. by rewrite str_all_append, json_char_printable, IH.
Qed.

Lemma digit_printable c : ascii_isdigit c = true → printable c = true.
Proof. intros Hc. destruct c as [[] [] [] [] [] [] [] []]; try discriminate Hc; reflexivity. Qed.

Lemma str_int_printable n : str_all printable (str_int n) = true.
Proof.
  destruct (Z.lt_ge_cases n 0) as [Hn|Hn].
  - rewrite str_int_neg by done. cbn. apply (str_all_impl _ _ _ digit_printable), str_int_digits. lia.
  - by apply (str_all_impl _ _ _ digit_printable), str_int_digits.
Qed.

Lemma str_join_printable sep l : str_all printable sep = true → Forall (fun s => str_all printable s = true) l →
  str_all printable (str_join sep l) = true.
Proof.
  intros Hs. induction 1 as [|x l Hx Hl IH]; [done|]. destruct l as [|y l]; [done|].
  by rewrite str_join_cons, !str_all_append, Hx, Hs, IH.
Qed.

Lemma dumps_printable n : forall j, (json_size j <= n)%nat → json_plain j → str_all printable (dumps j) = true.
Proof.
  induction n as [|n IH]; intros j Hn Hp; [destruct j; cbn in Hn; lia|].
  destruct j as [|b|m|x|s|l|fs]; cbn [json_size] in *.
  - done.
  - by destruct b.
  - apply str_int_printable.
  - done.
  - apply json_str_printable.
  - apply json_plain_arr in Hp. rewrite List.Forall_forall in Hp.
    cbn [json_dumps item_sep default_style str_all]. rewrite str_all_append. cbn [str_all].
    rewrite str_join_printable; [done|done|]. apply List.Forall_map, List.Forall_forall. intros x Hx.
    pose proof (list_sum_In (fun x => S (json_size x)) l x Hx). cbn beta in *. apply IH; [lia|by apply Hp].
  - apply json_plain_obj in Hp as [_ Hp]. rewrite List.Forall_forall in Hp.
    cbn [json_dumps item_sep key_sep sort_keys default_style str_all]. rewrite map_map, str_all_append.
    cbn [str_all fst snd]. rewrite str_join_printable; [done|done|]. apply List.Forall_map, List.Forall_forall.
    intros kv Hx. pose proof (list_sum_In (fun kv => S (json_size (snd kv))) fs kv Hx). cbn beta in *.
    rewrite !str_all_append, json_str_printable, IH; [done|lia|by apply Hp].
Qed.
