(* ===== verification/PyNumber.v ===== *)
(** * Numbers of either kind, and timestamps

    What vendor records hold where the code says [float]: an int or a binary64.  [Decimal(str(n))],
    [int(n)], true division, [datetime.fromtimestamp(t, tz=UTC)], [datetime.timestamp()] and the
    comparison of two datetimes, which raises when only one of them has an offset. *)

From Stdlib Require Import SpecFloat.
From S2P Require Import Prelude PyDecimal PyText PyTime PyParse PyFloat FloatRound Json.

#[local] Open Scope Z_scope.

Inductive number :=
| NInt (n : Z)
| NFloat (x : float).

Definition json_of_number (v : number) : json := match v with NInt n => JInt n | NFloat x => JFloat x end.

(** [Decimal(str(v))] *)
Definition decimal_of_number (v : number) : result decimal := decimal_of_str (py_str (json_of_number v)).

(** [float(v)]: an int past the largest float raises [OverflowError]. *)
Definition float_of_number (v : number) : result float :=
  match v with
  | NInt n => let x := f_of_Z n in guard! negb (f_isfinite x) else OverflowError in Ok x
  | NFloat x => Ok x
  end.

(** [int(v)] *)
Definition int_of_number (v : number) : result Z :=
  match v with
  | NInt n => Ok n
  | NFloat S754_nan => Err ValueError
  | NFloat (S754_infinity _) => Err OverflowError
  | NFloat x => Ok (f_trunc x)
  end.

(** [v / d] for an int [d > 0]: the quotient of two ints is rounded once. *)
Definition number_div (v : number) (d : Z) : result float :=
  match v with
  | NInt n => let x := f_of_ratio n d in guard! negb (f_isfinite x) else OverflowError in Ok x
  | NFloat x => Ok (fdiv x (f_of_Z d))
  end.

(** [round(x)] of a finite float. *)
Definition f_round (x : float) : Z :=
  match x with
  | S754_finite _ _ e => if 0 <=? e then f_mant x * 2 ^ e else rne (f_mant x) (2 ^ (- e))
  | _ => 0
  end.

(** ** Timestamps *)
Definition EPOCH : Z := mk_date 1970 1 1 * us_per_day.
Definition MIN_INSTANT : Z := mk_date 1 1 1 * us_per_day.
Definition MAX_INSTANT : Z := mk_date 9999 12 31 * us_per_day + us_per_day.

(** Whole seconds and the rounded microseconds of the fraction. *)
Definition us_of_seconds (x : float) : Z :=
  let whole := f_trunc x in
  whole * 1000000 + f_round (fmul (fsub x (f_of_Z whole)) (f_of_Z 1000000)).

(** [datetime.fromtimestamp(x, tz=UTC)]; an instant out of the calendar is refused. *)
Definition fromtimestamp (x : float) : result datetime :=
  guard! f_isnan x else ValueError in
  guard! negb (f_isfinite x) else OverflowError in
  let t := EPOCH + us_of_seconds x in
  guard! (t <? MIN_INSTANT) || (MAX_INSTANT <=? t) else ValueError in
  Ok (DT t (Some 0)).

(** [t.astimezone(UTC)] and [t.timestamp()] of an aware datetime. *)
Definition astimezone_utc (t : datetime) : datetime := DT (dt_instant t) (Some 0).
Definition timestamp (t : datetime) : float := f_of_ratio (dt_instant t - EPOCH) 1000000.

(** [a < b], [a <= b] and [a - b]: a naive and an aware datetime do not compare. *)
Definition dt_compatible (a b : datetime) : result unit := reject (xorb (dt_naive a) (dt_naive b)) TypeError.

Example fromtimestamp_1 : fromtimestamp (f_of_ratio 1747926000123 1000)
  = Ok (mk_datetime 2025 5 22 15 0 0 123000 (Some 0)).
Proof. vm_compute. reflexivity. Qed.
Example fromtimestamp_2 : map fromtimestamp [f_of_ratio (-1) 2; f_of_Z (10 ^ 12); S754_nan; S754_infinity true]
  = [Ok (mk_datetime 1969 12 31 23 59 59 500000 (Some 0)); Err ValueError; Err ValueError; Err OverflowError].
Proof. vm_compute. reflexivity. Qed.
Example timestamp_1 : timestamp (mk_datetime 2025 5 22 11 0 0 123000 (Some (-14400))) = f_of_ratio 1747926000123 1000.
Proof. vm_compute. reflexivity. Qed.
Example round_ties : map f_round [f_of_ratio 1 2; f_of_ratio 3 2; f_of_ratio (-1) 2; f_of_ratio (-3) 2; f_of_ratio 26 10]
  = [0; 2; 0; -2; 3].
Proof. vm_compute. reflexivity. Qed.
Example numbers_1 : map decimal_of_number [NInt (-12); NFloat (f_of_ratio 1 10); NFloat (f_of_Z 3)]
  = [Ok (Dec (-12) 0); Ok (Dec 1 (-1)); Ok (Dec 30 (-1))].
Proof. vm_compute. reflexivity. Qed.

(** ** Facts *)
Lemma fromtimestamp_utc x t : fromtimestamp x = Ok t → dt_off t = Some 0 ∧ dt_instant t = EPOCH + us_of_seconds x.
Proof. unfold fromtimestamp. intros E. inv_ok. split; [done|]. unfold dt_instant. cbn [dt_off dt_local]. lia. Qed.

Lemma astimezone_instant t : dt_instant (astimezone_utc t) = dt_instant t.
Proof. unfold astimezone_utc, dt_instant. cbn [dt_off dt_local]. lia. Qed.

(** ** A timestamp keeps its instant *)
Lemma f_round_value x a k : has_value x a (- k) → 0 <= k → f_round x = rne a (2 ^ k).
Proof.
  intros Hv Hk. set (c := Z.min (f_exp x) (Z.min 0 (- k))).
  apply (has_value_at _ _ _ c) in Hv as [[Hf _] Hv]; [|lia..].
  assert (Hp : 0 < 2 ^ (- k - c) ∧ 0 < 2 ^ k) by (split_and!; apply Z.pow_pos_nonneg; lia).
  assert (Hd : rne a (2 ^ k) = rne (f_mant x * 2 ^ (f_exp x - c)) (2 ^ (- c))).
  { rewrite Hv. replace (- c) with (k + (- k - c)) by lia. rewrite Z.pow_add_r by lia. by rewrite rne_scale by lia. }
  rewrite Hd. destruct x as [s|s| |s m e]; try done; cbn [f_mant f_exp f_round] in *.
  - rewrite Z.mul_0_l. symmetry. exact (rne_exact 0 (2 ^ (- c)) ltac:(apply Z.pow_pos_nonneg; lia)).
  - destruct (Z.leb_spec 0 e).
    + replace (e - c) with (e + - c) by lia. rewrite Z.pow_add_r, Z.mul_assoc by lia.
      by rewrite rne_exact by (apply Z.pow_pos_nonneg; lia).
    + replace (2 ^ (- c)) with (2 ^ (- e) * 2 ^ (e - c)) by (rewrite <- Z.pow_add_r by lia; f_equal; lia).
      by rewrite rne_scale by (apply Z.pow_pos_nonneg; lia).
Qed.

(** Two small errors are less than half a unit together. *)
Lemma near_twice D P x w R : 2 ^ 20 <= D → 0 < P → 2 * Z.abs (x - w * D) <= 1000000 →
  2 * Z.abs (R - x * P) * 2 ^ 33 <= D * P → 2 * Z.abs (w * (D * P) - R) < D * P.
Proof.
  intros HD HP Hx HR. assert (HDP : 2 ^ 20 * P <= D * P) by (apply Z.mul_le_mono_nonneg_r; lia).
  assert (HxP : 2 * Z.abs ((x - w * D) * P) <= 1000000 * P).
  { rewrite Z.abs_mul, (Z.abs_eq P), Z.mul_assoc by lia. apply Z.mul_le_mono_nonneg_r; lia. }
  replace (w * (D * P) - R) with (- ((x - w * D) * P) - (R - x * P)) by ring.
  revert HxP HR. generalize ((x - w * D) * P) (R - x * P). lia.
Qed.

(** Seconds up to [2^32] that are a whole number of microseconds, divided out once, come back exactly. *)
Lemma us_of_ratio p q us : 0 <= us < 2 ^ 32 * 1000000 → 0 < q <= 2 ^ 60 → p * 1000000 = us * q →
  us_of_seconds (f_of_ratio p q) = us.
Proof.
  intros Hus Hq Hp. destruct (Z.eq_dec us 0) as [->|Hne].
  { assert (p = 0) as -> by lia. by destruct q. }
  destruct (ratio_value p q) as (A & k & Hk & HA & Hv & Herr); [nia|lia|nia|nia|].
  assert (Hk20 : 2 ^ 20 <= 2 ^ k).
  { apply Z.pow_le_mono_r; [lia|]. apply Z.le_ngt. intros Hlt. assert (2 ^ k <= 2 ^ 19) by (apply Z.pow_le_mono_r; lia). nia. }
  assert (0 < 2 ^ k) by lia. set (whole := A / 2 ^ k). set (F := A mod 2 ^ k).
  pose proof (Z_div_mod_eq_full A (2 ^ k)) as EA. pose proof (Z.mod_pos_bound A (2 ^ k) ltac:(lia)) as HF.
  fold whole F in EA, HF. assert (Hw : 0 <= whole < 2 ^ 33) by nia.
  unfold us_of_seconds. rewrite (f_trunc_value _ _ _ Hv) by lia. fold whole.
  assert (Hwv : has_value (f_of_Z whole) (whole * 2 ^ k) (- k))
    by (replace (- k) with (0 - k) by lia; apply has_value_shift; [lia|]; apply f_of_Z_value; lia).
  assert (Hsub : has_value (fsub (f_of_ratio p q) (f_of_Z whole)) F (- k)).
  { replace F with (A - whole * 2 ^ k) by lia.
    apply fsub_exact; [done|done|lia|lia|eapply value_exp; [exact Hv|lia|lia]|].
    eapply (value_exp _ whole 0); [apply f_of_Z_value; lia|lia|lia]. }
  destruct (fmul_near 20 _ (f_of_Z 1000000) F 1000000 k ltac:(lia) Hsub (f_of_Z_value 1000000 ltac:(lia))) as (R & J & HJ & HR & HRe);
    [lia..| |].
  { rewrite Z.pow_add_r by lia. change (2 ^ 20) with 1048576 in *. nia. }
  rewrite (f_round_value _ _ _ HR) by lia.
  assert (HP : 0 < 2 ^ (J - k)) by (apply Z.pow_pos_nonneg; lia).
  assert (HJk : 2 ^ J = 2 ^ k * 2 ^ (J - k)) by (rewrite <- Z.pow_add_r by lia; f_equal; lia).
  assert (HX : 2 * Z.abs (F * 1000000 - (us - whole * 1000000) * 2 ^ k) <= 1000000).
  { replace (F * 1000000 - (us - whole * 1000000) * 2 ^ k) with (A * 1000000 - us * 2 ^ k) by (rewrite EA; ring).
    assert ((A * 1000000 - us * 2 ^ k) * q = 1000000 * (A * q - p * 2 ^ k)) by (rewrite !Z.mul_sub_distr_r, Z.mul_sub_distr_l; lia).
    nia. }
  rewrite (rne_unique R (2 ^ J) (us - whole * 1000000)); [lia|lia|].
  rewrite HJk in *. by apply (near_twice (2 ^ k) (2 ^ (J - k)) (F * 1000000)); [lia..| |].
Qed.

Lemma calendar_bounds : EPOCH = 62135683200000000 ∧ MIN_INSTANT = 86400000000 ∧ MAX_INSTANT = 315537984000000000.
Proof. vm_compute. done. Qed.

Lemma fromtimestamp_exact p q us : 0 <= us < 2 ^ 32 * 1000000 → 0 < q <= 2 ^ 60 → p * 1000000 = us * q →
  f_isfinite (f_of_ratio p q) = true ∧ fromtimestamp (f_of_ratio p q) = Ok (DT (EPOCH + us) (Some 0)).
Proof.
  intros Hus Hq Hp.
  assert (Hf : f_isfinite (f_of_ratio p q) = true ∧ f_isnan (f_of_ratio p q) = false).
  { destruct (Z.eq_dec us 0) as [->|Hne]; [assert (p = 0) as -> by lia; by destruct q|].
    destruct (ratio_value p q) as (A & k & _ & _ & [[Hf _] _] & _); [nia|lia|nia|nia|]. split; [done|].
    by destruct (f_of_ratio p q). }
  destruct Hf as [Hf Hn]. split; [done|]. unfold fromtimestamp. rewrite Hn, Hf, (us_of_ratio p q us) by done. cbn [negb reject rbind].
  replace (EPOCH + us <? MIN_INSTANT) with false; [replace (MAX_INSTANT <=? EPOCH + us) with false; [done|]|];
    symmetry; [apply Z.leb_gt|apply Z.ltb_ge]; destruct calendar_bounds as (E1 & E2 & E3); rewrite E1, ?E2, ?E3; lia.
Qed.

(** An aware datetime up to 2106 survives [timestamp] and [fromtimestamp]. *)
Lemma timestamp_roundtrip t : 0 <= dt_instant t - EPOCH < 2 ^ 32 * 1000000 → fromtimestamp (timestamp t) = Ok (astimezone_utc t).
Proof.
  intros Ht. unfold timestamp. destruct (fromtimestamp_exact (dt_instant t - EPOCH) 1000000 (dt_instant t - EPOCH)) as [_ ->];
    [done|lia|done|]. unfold astimezone_utc. do 2 f_equal. lia.
Qed.

Lemma near_milli D P A us R : 2 ^ 20 <= D → 0 < P → 2 * Z.abs (A * 1000000 - us * D) <= 1000000 →
  2 * Z.abs (R - A * 1000 * P) * 2 ^ 11 <= D * P → Z.abs (R * 1000 - us * (D * P)) < D * P.
Proof.
  intros HD HP Hx HR. assert (HDP : 2 ^ 20 * P <= D * P) by (apply Z.mul_le_mono_nonneg_r; lia).
  assert (HxP : 2 * Z.abs ((A * 1000000 - us * D) * P) <= 1000000 * P).
  { rewrite Z.abs_mul, (Z.abs_eq P), Z.mul_assoc by lia. apply Z.mul_le_mono_nonneg_r; lia. }
  replace (R * 1000 - us * (D * P)) with ((A * 1000000 - us * D) * P + 1000 * (R - A * 1000 * P)) by ring.
  revert HxP HR. generalize ((A * 1000000 - us * D) * P) (R - A * 1000 * P). lia.
Qed.

(** [int(seconds * 1000)] of an instant is its millisecond or the one before. *)
Lemma ms_of_timestamp us : 0 <= us < 2 ^ 32 * 1000000 →
  let ms := f_trunc (fmul (f_of_ratio us 1000000) (f_of_Z 1000)) in us - 2000 < ms * 1000 <= us.
Proof.
  intros Hus. cbv zeta. destruct (Z.eq_dec us 0) as [->|Hne]; [by vm_compute|].
  destruct (ratio_value us 1000000) as (A & k & Hk & HA & Hv & Herr); [lia..|].
  assert (Hk20 : 2 ^ 20 <= 2 ^ k).
  { apply Z.pow_le_mono_r; [lia|]. apply Z.le_ngt. intros Hlt. assert (2 ^ k <= 2 ^ 19) by (apply Z.pow_le_mono_r; lia). nia. }
  assert (Hab : A * 1000 < 2 ^ (42 + k)).
  { rewrite Z.pow_add_r by lia. change (2 ^ 42) with (2 ^ 32 * 1024). change (2 ^ 20) with 1048576 in *. nia. }
  destruct (fmul_near 42 _ (f_of_Z 1000) A 1000 k ltac:(lia) Hv (f_of_Z_value 1000 ltac:(lia))) as (R & J & HJ & HR & HRe);
    [lia..|exact Hab|].
  assert (HP : 0 < 2 ^ (J - k)) by (apply Z.pow_pos_nonneg; lia).
  assert (HJk : 2 ^ J = 2 ^ k * 2 ^ (J - k)) by (rewrite <- Z.pow_add_r by lia; f_equal; lia).
  assert (Hb : Z.abs (R * 1000 - us * 2 ^ J) < 2 ^ J) by (rewrite HJk in *; by apply (near_milli (2 ^ k) (2 ^ (J - k)) A)).
  rewrite (f_trunc_value _ _ _ HR) by nia. pose proof (Z.mul_div_le R (2 ^ J) ltac:(lia)).
  pose proof (Z.mul_succ_div_gt R (2 ^ J) ltac:(lia)). nia.
Qed.

(** [int(seconds)] of a span. *)
Lemma whole_seconds us : 0 <= us < 2 ^ 32 * 1000000 → f_trunc (f_of_ratio us 1000000) = us / 1000000.
Proof.
  intros Hus. destruct (Z.eq_dec us 0) as [->|Hne]; [by vm_compute|].
  destruct (ratio_value us 1000000) as (A & k & Hk & HA & Hv & Herr); [lia..|].
  assert (Hk20 : 2 ^ 20 <= 2 ^ k).
  { apply Z.pow_le_mono_r; [lia|]. apply Z.le_ngt. intros Hlt. assert (2 ^ k <= 2 ^ 19) by (apply Z.pow_le_mono_r; lia). nia. }
  rewrite (f_trunc_value _ _ _ Hv) by lia. change (2 ^ 20) with 1048576 in *. set (D := 2 ^ k) in *.
  pose proof (Z.div_mod us 1000000 ltac:(lia)) as E. pose proof (Z.mod_pos_bound us 1000000 ltac:(lia)).
  set (m := us / 1000000) in *. set (r := us mod 1000000) in *.
  assert (HmD : us * D = 1000000 * (m * D) + r * D) by (rewrite E; ring).
  assert (Hr : r = 0 ∨ 1048576 <= r * D <= 1000000 * D - 1048576) by nia.
  symmetry. apply (Z.div_unique _ _ _ (A - m * D)); [|lia]. left. destruct Hr as [Hr|Hr]; [rewrite Hr in *|]; lia.
Qed.
