(* ===== verification/PyStats.v ===== *)
(** * Python's [statistics] and the rest of [math] the statistics use

    [mean], [variance] and [stdev] work on exact fractions and round once; [fmean] divides a correctly
    rounded sum.  The normal distribution's two functions and [math.sumprod] have no exact definition to
    translate and are classes.  The inputs are finite floats, as every caller but [_sharpe_core]'s checks. *)

From S2P Require Import Prelude PyDecimal PyFloat FloatRound FloatOrder PyNumber.

#[local] Open Scope Z_scope.

Definition f_nan : float := SpecFloat.S754_nan.
Definition f_inf : float := SpecFloat.S754_infinity false.
Definition f_half : float := f_of_decimal (Dec 5 (-1)).
Definition f_two : float := f_of_Z 2.

(** [x / y] raises on a zero divisor. *)
Definition f_div (x y : float) : result float := if feqb y f_zero then Err DivisionByZero else Ok (fdiv x y).

(** [sorted(l)] and [sorted(l, reverse=True)]: equal elements keep their order. *)
Definition f_sorted (l : list float) : list float := sort_by fleb l.
Definition f_sorted_desc (l : list float) : list float := sort_by (fun x y => fleb y x) l.

(** [math.copysign] of a positive magnitude. *)
Definition f_sign (x : float) : bool :=
  match x with
  | SpecFloat.S754_zero s | SpecFloat.S754_infinity s | SpecFloat.S754_finite s _ _ => s
  | SpecFloat.S754_nan => false
  end.
Definition copysign (magnitude x : float) : float := if f_sign x then fopp (fabs magnitude) else fabs magnitude.

(** [math.isclose]. *)
Definition isclose (a b rel_tol abs_tol : float) : bool :=
  feqb a b ||
  (f_isfinite a && f_isfinite b &&
   let diff := fabs (fsub b a) in
   fleb diff (fabs (fmul rel_tol b)) || fleb diff (fabs (fmul rel_tol a)) || fleb diff abs_tol).

(** [l[i]] of a list, from the end for a negative index. *)
Definition at_index (l : list float) (i : Z) : result float :=
  let n := Z.of_nat (length l) in
  let i := if i <? 0 then i + n else i in
  if (0 <=? i) && (i <? n) then Ok (nth (Z.to_nat i) l f_zero) else Err IndexError.

(** [math.sqrt] of a number. *)
Definition math_sqrt (x : float) : result float := if fltb x f_zero then Err ValueError else Ok (fsqrt x).

(** [int()], [math.ceil] and [math.floor] of a float refuse what is not finite. *)
Definition int_of (x : float) : result Z :=
  match x with
  | SpecFloat.S754_nan => Err ValueError
  | SpecFloat.S754_infinity _ => Err OverflowError
  | _ => Ok (f_trunc x)
  end.
Definition ceil_of (x : float) : result Z :=
  match x with
  | SpecFloat.S754_nan => Err ValueError
  | SpecFloat.S754_infinity _ => Err OverflowError
  | _ => Ok (f_ceil x)
  end.
Definition floor_of (x : float) : result Z :=
  match x with
  | SpecFloat.S754_nan => Err ValueError
  | SpecFloat.S754_infinity _ => Err OverflowError
  | _ => Ok (f_floor x)
  end.
Definition round_of (x : float) : result Z :=
  match x with
  | SpecFloat.S754_nan => Err ValueError
  | SpecFloat.S754_infinity _ => Err OverflowError
  | _ => Ok (f_round x)
  end.

(** [round(x, n)] of a finite float: the nearest decimal of [n] places, half to even, as a float. *)
Definition f_round_places (x : float) (n : Z) : float :=
  let e := f_exp x in
  if 0 <=? e then x else f_of_ratio (rne (f_mant x * 10 ^ n) (2 ^ (- e))) (10 ^ n).

(** ** Exact sums: the common exponent of the terms, and their integers at it *)
Definition common_exp (l : list float) : Z := foldr (fun x acc => Z.min (f_exp x) acc) 0 l.
Definition term_at (e : Z) (x : float) : Z := f_mant x * 2 ^ (f_exp x - e).
Definition exact_terms (l : list float) : list Z := map (term_at (common_exp l)) l.

(** [n / d] of two integers, the denominator positive. *)
Definition int_div (n d : Z) : result float :=
  let x := f_of_ratio n d in if f_isfinite x then Ok x else Err OverflowError.

(** The fraction [p / q * 2^e], in lowest terms. *)
Definition fraction (p q e : Z) : Z * Z :=
  let '(n, d) := if 0 <=? e then (p * 2 ^ e, q) else (p, q * 2 ^ (- e)) in
  let g := Z.gcd n d in (n / g, d / g).

Definition mean (l : list float) : result float :=
  let n := Z.of_nat (length l) in
  guard! n <? 1 else StatisticsError in
  let '(p, q) := fraction (zsum (exact_terms l)) n (common_exp l) in int_div p q.

Definition fmean (l : list float) : result float :=
  let total := fsum l in
  guard! (length l =? 0)%nat else StatisticsError in
  Ok (fdiv total (f_of_nat (length l))).

(** The sample variance as a fraction: [(n * sum x^2 - (sum x)^2) / n / (n - 1)]. *)
Definition mss (l : list float) : Z * Z :=
  let n := Z.of_nat (length l) in
  let ts := exact_terms l in
  let sx := zsum ts in
  let sxx := zsum (map (fun t => t * t) ts) in
  fraction (n * sxx - sx * sx) (n * (n - 1)) (2 * common_exp l).

Definition variance (l : list float) : result float :=
  guard! (length l <? 2)%nat else StatisticsError in
  let '(p, q) := mss l in int_div p q.

(** The square root of a fraction, rounded to odd with enough bits to be rounded again. *)
Definition bit_length (n : Z) : Z := SpecFloat.Zdigits2 n.
Definition _sqrt_bit_width : Z := 109.

Definition _integer_sqrt_of_frac_rto (n m : Z) : Z :=
  let a := Z.sqrt (n / m) in Z.lor a (if a * a * m =? n then 0 else 1).

Definition _float_sqrt_of_frac (n m : Z) : result float :=
  let q := (bit_length n - bit_length m - _sqrt_bit_width) / 2 in
  if 0 <=? q then int_div (Z.shiftl (_integer_sqrt_of_frac_rto n (Z.shiftl m (2 * q))) q) 1
  else int_div (_integer_sqrt_of_frac_rto (Z.shiftl n (- (2 * q))) m) (Z.shiftl 1 (- q)).

Definition stdev (l : list float) : result float :=
  guard! (length l <? 2)%nat else StatisticsError in
  let '(p, q) := mss l in _float_sqrt_of_frac p q.

Definition median (l : list float) : result float :=
  let data := f_sorted l in
  let n := length data in
  guard! (n =? 0)%nat else StatisticsError in
  Ok (if Nat.odd n then nth (n / 2) data f_zero
      else fdiv (fadd (nth (n / 2 - 1) data f_zero) (nth (n / 2) data f_zero)) f_two).

(** [math.sumprod] of two lists of one length. *)
Class SumProd := { sumprod : list float -> list float -> float }.

Definition correlation `{SumProd} (x y : list float) : result float :=
  let n := length x in
  guard! negb (length y =? n)%nat else StatisticsError in
  guard! (n <? 2)%nat else StatisticsError in
  let xbar := fdiv (fsum x) (f_of_nat n) in
  let ybar := fdiv (fsum y) (f_of_nat n) in
  let x := map (fun xi => fsub xi xbar) x in
  let y := map (fun yi => fsub yi ybar) y in
  match f_div (sumprod x y) (fsqrt (fmul (sumprod x x) (sumprod y y))) with
  | Ok r => Ok r
  | Err _ => Err StatisticsError
  end.

(** [NormalDist()]: the distribution function and its inverse inside the unit interval. *)
Class NormalDist := { norm_cdf : float -> float; norm_quantile : float -> float }.

Definition inv_cdf `{NormalDist} (p : float) : result float :=
  guard! fleb p f_zero || fleb f_one p else StatisticsError in Ok (norm_quantile p).

Example mean_tenths : mean (repeat (f_of_decimal (Dec 1 (-1))) 3) = Ok (f_of_decimal (Dec 1 (-1))).
Proof. vm_compute. reflexivity. Qed.
Example stdev_1234 : stdev (map f_of_Z [1; 2; 3; 4]) = Ok (f_of_decimal (Dec 12909944487358056 (-16))).
Proof. vm_compute. reflexivity. Qed.
Example variance_1234 : variance (map f_of_Z [1; 2; 3; 4]) = Ok (f_of_decimal (Dec 16666666666666667 (-16))).
Proof. vm_compute. reflexivity. Qed.
Example median_even : median (map f_of_Z [4; 1; 3; 2]) = Ok (f_of_decimal (Dec 25 (-1))).
Proof. vm_compute. reflexivity. Qed.
Example round_nine : f_round_places (fmul (f_of_decimal (Dec 5 (-2))) (f_of_Z 2000)) 9 = f_of_Z 100.
Proof. vm_compute. reflexivity. Qed.
