(* ===== verification/Sharpe.v ===== *)
(** * stats/: the Sharpe-ratio gates

    The kernel of _sharpe_core.py, and the two gates over it: probabilistic_sharpe.py (PSR, with the
    minimum track record length) and deflated_sharpe.py (DSR).  Returns are floats; powers are [Libm]'s,
    the normal distribution is [NormalDist]. *)

From S2P Require Import Prelude PyDecimal PyFloat FloatRound FloatOrder PyNumber PyStats.

#[local] Open Scope Z_scope.

(** ** _sharpe_core.py *)
Definition EULER_GAMMA : float := f_of_decimal (Dec 5772156649015329 (-16)).
Definition _MIN_RETURNS : nat := 2.
Definition _MIN_TRIALS_FOR_MAX : Z := 2.
(** [math.e]. *)
Definition math_e : float := f_of_decimal (Dec 2718281828459045 (-15)).

Record SharpeMoments := {
  sm_n : nat;
  sm_sr_per_period : float;
  sm_skew : float;
  sm_kurt : float;
}.

Section Sharpe.
Context `{Libm} `{NormalDist}.

(** [fsum((x - mean) ** k for x in returns)]. *)
Definition power_sum (mean : float) (k : Z) (returns : list float) : float :=
  fsum (map (fun x => pow (fsub x mean) (f_of_Z k)) returns).

Definition compute_sharpe_moments (returns : list float) : result (option SharpeMoments) :=
  let n := length returns in
  if (n <? _MIN_RETURNS)%nat then Ok None
  else
    let! mean := fmean returns in
    let! sd := stdev returns in
    if fleb sd f_zero || negb (f_isfinite sd) then Ok None
    else
      let sr_per_period := fdiv mean sd in
      let m2 := fdiv (power_sum mean 2 returns) (f_of_nat n) in
      if fleb m2 f_zero then Ok None
      else
        let m3 := fdiv (power_sum mean 3 returns) (f_of_nat n) in
        let m4 := fdiv (power_sum mean 4 returns) (f_of_nat n) in
        let! skew := f_div m3 (pow m2 (f_of_decimal (Dec 15 (-1)))) in
        let! kurt := f_div m4 (pow m2 f_two) in
        Ok (Some {| sm_n := n; sm_sr_per_period := sr_per_period; sm_skew := skew; sm_kurt := kurt |}).

(** [1.0 - skew * sr + (kurt - 1.0) / 4.0 * sr**2]. *)
Definition variance_term (sr skew kurt : float) : float :=
  fadd (fsub f_one (fmul skew sr)) (fmul (fdiv (fsub kurt f_one) (f_of_Z 4)) (pow sr f_two)).

Definition psr_kernel (sr_per_period sr_star_per_period : float) (n : nat) (skew kurt : float)
    : result (option float) :=
  let denom_inner := variance_term sr_per_period skew kurt in
  if fleb denom_inner f_zero then Ok None
  else
    let! root := math_sqrt (f_of_Z (Z.of_nat n - 1)) in
    let! root_denom := math_sqrt denom_inner in
    let! z := f_div (fmul (fsub sr_per_period sr_star_per_period) root) root_denom in
    Ok (Some (norm_cdf z)).

Definition expected_max_sharpe (n_trials : Z) (var_sr_trials : float) : result float :=
  if (n_trials <? _MIN_TRIALS_FOR_MAX) || fleb var_sr_trials f_zero || negb (f_isfinite var_sr_trials) then Ok f_zero
  else
    let! sigma := math_sqrt var_sr_trials in
    let! q1 := inv_cdf (fsub f_one (fdiv f_one (f_of_Z n_trials))) in
    let term1 := fmul (fsub f_one EULER_GAMMA) q1 in
    let! q2 := inv_cdf (fsub f_one (fdiv f_one (fmul (f_of_Z n_trials) math_e))) in
    let term2 := fmul EULER_GAMMA q2 in
    Ok (fmul sigma (fadd term1 term2)).

Definition _newey_west_max_lag (n : nat) : result Z :=
  let! k := int_of (fmul (f_of_Z 4) (pow (fdiv (f_of_nat n) (f_of_Z 100)) (fdiv f_two (f_of_Z 9)))) in
  Ok (Z.max 1 k).

(** The weighted autocorrelations of lags [1 .. lag_cap]. *)
Definition weighted_lags (returns : list float) (mean var : float) (q : Z) (lag_cap : nat) : float :=
  let n := length returns in
  fold_left (fun weighted k =>
      let products := zip_with (fun x y => fmul (fsub x mean) (fsub y mean)) (skipn k returns) (firstn (n - k) returns) in
      let cov_k := fdiv (fsum products) (f_of_nat n) in
      fadd weighted (fmul (f_of_Z (q - Z.of_nat k)) (fdiv cov_k var)))
    (seq 1 lag_cap) f_zero.

Definition lo_autocorr_factor (returns : list float) (q : Z) (max_lag : option Z) : result (option float) :=
  let n := length returns in
  if (q <? 1) || (n <? _MIN_RETURNS)%nat then Ok None
  else
    let! mean := fmean returns in
    let var := fdiv (power_sum mean 2 returns) (f_of_nat n) in
    if fleb var f_zero || negb (f_isfinite var) then Ok None
    else
      let! cap := match max_lag with Some l => Ok l | None => _newey_west_max_lag n end in
      let lag_cap := Z.min (Z.min (q - 1) (Z.of_nat n - 1)) cap in
      if lag_cap <? 1 then let! root := math_sqrt (f_of_Z q) in let! eta := f_div (f_of_Z q) root in Ok (Some eta)
      else
        let weighted := weighted_lags returns mean var q (Z.to_nat lag_cap) in
        let denom := fadd (f_of_Z q) (fmul f_two weighted) in
        if fleb denom f_zero || negb (f_isfinite denom) then Ok None
        else let! root := math_sqrt denom in let! eta := f_div (f_of_Z q) root in Ok (Some eta).

(** ** probabilistic_sharpe.py *)
Definition PSR_THRESHOLD : float := f_of_decimal (Dec 95 (-2)).
Definition _MIN_OBS_RELIABLE : nat := 10.

Record PSRResult := {
  psr_psr : option float;
  psr_sr_annualized : option float;
  psr_sr_threshold : float;
  psr_skew : option float;
  psr_kurt : option float;
  psr_n : nat;
  psr_sufficient_n : bool;
  psr_reason : option string;
  psr_sr_annualized_lo : option float;
}.

Definition passes_psr (r : PSRResult) : bool :=
  match psr_psr r with Some p => fltb PSR_THRESHOLD p | None => false end.

(** The result when the moments are undefined. *)
Definition psr_undefined (sr_threshold : float) (n : nat) : PSRResult :=
  {| psr_psr := None; psr_sr_annualized := None; psr_sr_threshold := sr_threshold; psr_skew := None; psr_kurt := None;
     psr_n := n; psr_sufficient_n := false; psr_reason := Some "insufficient data (n<2 or zero variance)";
     psr_sr_annualized_lo := None |}.

Definition psr_of_moments (r : list float) (moments : SharpeMoments) (sr_threshold periods_per_year : float)
    : result PSRResult :=
  let n := length r in
  let! root := math_sqrt periods_per_year in
  let sr_ann := fmul (sm_sr_per_period moments) root in
  let! q := round_of periods_per_year in
  let! eta := lo_autocorr_factor r q None in
  let sr_ann_lo := match eta with Some eta => Some (fmul (sm_sr_per_period moments) eta) | None => None end in
  if (n <? _MIN_OBS_RELIABLE)%nat then
    Ok {| psr_psr := None; psr_sr_annualized := Some sr_ann; psr_sr_threshold := sr_threshold;
          psr_skew := Some (sm_skew moments); psr_kurt := Some (sm_kurt moments); psr_n := n; psr_sufficient_n := false;
          psr_reason := Some "n<10 (skew/kurtosis estimates unreliable)"; psr_sr_annualized_lo := sr_ann_lo |}
  else
    let! root := math_sqrt periods_per_year in
    let! sr_threshold_pp := f_div sr_threshold root in
    let! psr := psr_kernel (sm_sr_per_period moments) sr_threshold_pp (sm_n moments) (sm_skew moments) (sm_kurt moments) in
    let reason := match psr with Some _ => None | None => Some "variance term non-positive (extreme skew/kurtosis)" end in
    Ok {| psr_psr := psr; psr_sr_annualized := Some sr_ann; psr_sr_threshold := sr_threshold;
          psr_skew := Some (sm_skew moments); psr_kurt := Some (sm_kurt moments); psr_n := n; psr_sufficient_n := true;
          psr_reason := reason; psr_sr_annualized_lo := sr_ann_lo |}.

Definition probabilistic_sharpe (returns : list float) (sr_threshold periods_per_year : float) : result PSRResult :=
  guard! fleb periods_per_year f_zero else PSRError in
  guard! negb (forallb f_isfinite returns) else PSRError in
  let! moments := compute_sharpe_moments returns in
  match moments with
  | None => Ok (psr_undefined sr_threshold (length returns))
  | Some moments => psr_of_moments returns moments sr_threshold periods_per_year
  end.

Definition min_track_record_length (sr_per_period sr_star_per_period skew kurt alpha : float) : result (option float) :=
  if fleb sr_per_period sr_star_per_period then Ok None
  else
    let var_term := variance_term sr_per_period skew kurt in
    if fleb var_term f_zero then Ok None
    else
      let! z := inv_cdf (fsub f_one alpha) in
      let! ratio := f_div z (fsub sr_per_period sr_star_per_period) in
      Ok (Some (fadd f_one (fmul var_term (pow ratio f_two)))).

(** ** deflated_sharpe.py *)
Definition DSR_THRESHOLD : float := f_of_decimal (Dec 95 (-2)).
Definition _MIN_TRIALS : nat := 2.

Record DSRResult := {
  dsr_dsr : option float;
  dsr_psr_implied : option float;
  dsr_sr_observed : option float;
  dsr_sr_star : option float;
  dsr_n_trials : nat;
  dsr_var_sr_trials : option float;
  dsr_skew : option float;
  dsr_kurt : option float;
  dsr_n : nat;
  dsr_reason : option string;
  dsr_sr_observed_lo : option float;
}.

Definition passes_dsr (r : DSRResult) : bool :=
  match dsr_dsr r with Some p => fltb DSR_THRESHOLD p | None => false end.

Definition deflated_sharpe (returns sr_trials : list float) (periods_per_year : float) : result DSRResult :=
  guard! fleb periods_per_year f_zero else PSRError in
  let trials := List.filter f_isfinite sr_trials in
  let n_trials := length trials in
  let n_obs := length returns in
  let! psr0 := probabilistic_sharpe returns f_zero periods_per_year in
  if (n_trials <? _MIN_TRIALS)%nat then
    Ok {| dsr_dsr := None; dsr_psr_implied := psr_psr psr0; dsr_sr_observed := psr_sr_annualized psr0;
          dsr_sr_star := None; dsr_n_trials := n_trials; dsr_var_sr_trials := None; dsr_skew := psr_skew psr0;
          dsr_kurt := psr_kurt psr0; dsr_n := n_obs;
          dsr_reason := Some "n_trials<2 (cannot estimate trial-Sharpe variance)";
          dsr_sr_observed_lo := psr_sr_annualized_lo psr0 |}
  else
    let! var_sr_trials := variance trials in
    let! sr_star := expected_max_sharpe (Z.of_nat n_trials) var_sr_trials in
    let! psr_at_star := probabilistic_sharpe returns sr_star periods_per_year in
    Ok {| dsr_dsr := psr_psr psr_at_star; dsr_psr_implied := psr_psr psr0;
          dsr_sr_observed := psr_sr_annualized psr_at_star; dsr_sr_star := Some sr_star; dsr_n_trials := n_trials;
          dsr_var_sr_trials := Some var_sr_trials; dsr_skew := psr_skew psr_at_star; dsr_kurt := psr_kurt psr_at_star;
          dsr_n := n_obs; dsr_reason := psr_reason psr_at_star; dsr_sr_observed_lo := psr_sr_annualized_lo psr_at_star |}.
End Sharpe.

(** ** Facts: a constant series has no variance *)

(** All numbers of the series are equal. *)
Definition constant (l : list float) : Prop := exists x, f_isfinite x = true ∧ Forall (fun y => feqb y x = true) l.

Lemma feqb_term x y : f_isfinite x = true → feqb y x = true → f_mant y = f_mant x ∧ f_exp y = f_exp x.
Proof.
  unfold feqb, SpecFloat.SFeqb. destruct x as [s|s| |s m e], y as [s'|s'| |s' m' e']; try done; cbn [SpecFloat.SFcompare f_mant f_exp];
    try (by destruct s); try (by destruct s'). intros _.
  destruct s, s'; try done; destruct (Z.compare_spec e' e) as [->| |]; try done;
    change (Pos.compare_cont Eq m' m) with (Pos.compare m' m); destruct (Pos.compare_spec m' m) as [->| |]; done.
Qed.

Lemma constant_terms l x : f_isfinite x = true → Forall (fun y => feqb y x = true) l →
  exact_terms l = repeat (term_at (common_exp l) x) (length l).
Proof.
  intros Hx Hl. unfold exact_terms. generalize (common_exp l) as e. intros e.
  induction Hl as [|y l Hy _ IH]; [done|]. cbn [map length repeat]. rewrite IH. f_equal.
  unfold term_at. by destruct (feqb_term x y Hx Hy) as [-> ->].
Qed.

Lemma zsum_repeat t n : zsum (repeat t n) = Z.of_nat n * t.
Proof. induction n as [|n IH]; [done|]. change (zsum (repeat t (S n))) with (t + zsum (repeat t n)). rewrite IH. lia. Qed.

Lemma map_repeat' {A B} (f : A -> B) x n : map f (repeat x n) = repeat (f x) n.
Proof. induction n as [|n IH]; [done|]. cbn. by rewrite IH. Qed.

Lemma fraction_zero q e : 0 < q → fraction 0 q e = (0, 1).
Proof.
  intros Hq. unfold fraction. destruct (0 <=? e) eqn:E.
  - rewrite Z.mul_0_l, Z.gcd_0_l, Z.abs_eq, Z.div_same, Z.div_0_l by lia. done.
  - assert (0 < 2 ^ (- e)) by (apply Z.pow_pos_nonneg; lia). assert (0 < q * 2 ^ (- e)) by nia.
    rewrite Z.gcd_0_l, Z.abs_eq, Z.div_same, Z.div_0_l by lia. done.
Qed.

Lemma mss_constant l : constant l → (2 <= length l)%nat → mss l = (0, 1).
Proof.
  intros (x & Hx & Hl) Hn. unfold mss. rewrite (constant_terms l x Hx Hl), map_repeat', !zsum_repeat.
  set (t := term_at _ x). replace (_ - _) with 0 by ring. apply fraction_zero. nia.
Qed.

Lemma stdev_constant l : constant l → (2 <= length l)%nat → stdev l = Ok f_zero.
Proof.
  intros Hl Hn. unfold stdev. rewrite (proj2 (Nat.ltb_ge _ _)) by done. rewrite (mss_constant l Hl Hn).
  vm_compute. reflexivity.
Qed.

Lemma variance_constant l : constant l → (2 <= length l)%nat → variance l = Ok f_zero.
Proof.
  intros Hl Hn. unfold variance. rewrite (proj2 (Nat.ltb_ge _ _)) by done. rewrite (mss_constant l Hl Hn).
  vm_compute. reflexivity.
Qed.

Section SharpeFacts.
Context `{Libm} `{NormalDist}.

Lemma fmean_nonempty l : l ≠ [] → exists m, fmean l = Ok m.
Proof. destruct l; [done|]. unfold fmean. cbn. eauto. Qed.

(** Neither a short series nor a constant one has moments. *)
Lemma moments_defined l m : compute_sharpe_moments l = Ok (Some m) → sm_n m = length l ∧ (2 <= length l)%nat ∧ ~ constant l.
Proof.
  unfold compute_sharpe_moments, _MIN_RETURNS. destruct (Nat.ltb_spec (length l) 2) as [|Hn]; [done|].
  intros (mean & _ & (sd & Hsd & E)%rbind_Ok)%rbind_Ok.
  destruct (fleb sd f_zero || negb (f_isfinite sd)) eqn:Es; [done|].
  assert (Hnc : ~ constant l) by (intros Hc; rewrite (stdev_constant l Hc Hn) in Hsd; by injection Hsd as <-).
  split; [|done]. cbv zeta in E. destruct (fleb (fdiv _ _) f_zero); [done|].
  apply rbind_Ok in E as (? & _ & E). apply rbind_Ok in E as (? & _ & E). by injection E as <-.
Qed.

Lemma psr_fields returns thr ppy r : probabilistic_sharpe returns thr ppy = Ok r →
  psr_sr_threshold r = thr ∧ psr_n r = length returns ∧ forallb f_isfinite returns = true ∧
  (psr_reason r = None ↔ is_Some (psr_psr r)) ∧
  (is_Some (psr_psr r) → psr_sufficient_n r = true ∧ (_MIN_OBS_RELIABLE <= length returns)%nat ∧ ~ constant returns).
Proof.
  unfold probabilistic_sharpe. intros (_ & _ & (_ & Hf%reject_Ok%negb_false_iff & (m & Hm & E)%rbind_Ok)%rbind_Ok)%rbind_Ok.
  assert (Hnone : forall n (suff : bool) (reason : string), (Some reason = None ↔ is_Some (@None float)) ∧
    (is_Some (@None float) → suff = true ∧ (_MIN_OBS_RELIABLE <= n)%nat ∧ ~ constant returns)).
  { intros n suff reason. split; [split; [done|by intros []]|by intros []]. }
  destruct m as [m|]; [|injection E as <-; do 3 (split; [done|]); apply Hnone].
  unfold psr_of_moments in E. apply moments_defined in Hm as (_ & _ & Hc).
  apply rbind_Ok in E as (? & _ & E). apply rbind_Ok in E as (? & _ & E). apply rbind_Ok in E as (? & _ & E).
  destruct (Nat.ltb_spec (length returns) _MIN_OBS_RELIABLE) as [|Hn].
  - injection E as <-. do 3 (split; [done|]). apply Hnone.
  - apply rbind_Ok in E as (? & _ & E). apply rbind_Ok in E as (? & _ & E). apply rbind_Ok in E as (psr & _ & E).
    injection E as <-. do 3 (split; [done|]). split; [|done]. destruct psr; split; eauto; done || by intros [].
Qed.

Lemma psr_passes_some r : passes_psr r = true → is_Some (psr_psr r).
Proof. unfold passes_psr. destruct (psr_psr r); [eauto|done]. Qed.

Lemma dsr_passes_some r : passes_dsr r = true → is_Some (dsr_dsr r).
Proof. unfold passes_dsr. destruct (dsr_dsr r); [eauto|done]. Qed.

(** C39: the deflated Sharpe ratio is the probabilistic one at the level the trials set.  Trials that failed are not
    counted.  With fewer than two that did not, the ratio is undefined.  Otherwise it is the probabilistic Sharpe
    ratio of the same returns against the expected maximum of that many trials; when no trial differs from
    another there is no selection to correct for, the level is zero and the ratio is the one reported alongside.
    A ratio that passes its gate stands on at least two trials and on at least ten returns, not all equal. *)
Theorem deflated_sharpe_spec returns trials ppy r : deflated_sharpe returns trials ppy = Ok r →
  let finite := List.filter f_isfinite trials in
  dsr_n_trials r = length finite ∧ dsr_n r = length returns ∧
  (exists psr0, probabilistic_sharpe returns f_zero ppy = Ok psr0 ∧ dsr_psr_implied r = psr_psr psr0) ∧
  ((length finite < 2)%nat → dsr_dsr r = None ∧ dsr_sr_star r = None ∧ is_Some (dsr_reason r)) ∧
  ((2 <= length finite)%nat → exists v star psr,
     variance finite = Ok v ∧ expected_max_sharpe (Z.of_nat (length finite)) v = Ok star ∧
     probabilistic_sharpe returns star ppy = Ok psr ∧
     dsr_sr_star r = Some star ∧ dsr_dsr r = psr_psr psr ∧ dsr_reason r = psr_reason psr ∧
     (constant finite → star = f_zero ∧ dsr_dsr r = dsr_psr_implied r)) ∧
  (passes_dsr r = true → (2 <= length finite)%nat ∧ (10 <= length returns)%nat ∧ ~ constant returns).
Proof.
  intros E finite. unfold deflated_sharpe in E. fold finite in E. apply rbind_Ok in E as (_ & _ & E).
  apply rbind_Ok in E as (psr0 & E0 & E). unfold _MIN_TRIALS in E.
  destruct (Nat.ltb_spec (length finite) 2) as [Hlt|Hge].
  - injection E as <-. cbn. split; [done|]. split; [done|]. split; [by exists psr0|]. split; [by eauto|]. split; [lia|]. done.
  - apply rbind_Ok in E as (v & Ev & E). apply rbind_Ok in E as (star & Es & E). apply rbind_Ok in E as (psr & Ep & E).
    injection E as <-. cbn [dsr_n_trials dsr_n dsr_psr_implied dsr_dsr dsr_sr_star dsr_reason].
    split; [done|]. split; [done|]. split; [by exists psr0|]. split; [lia|]. split.
    + intros _. exists v, star, psr. do 6 (split; [done|]). intros Hc. rewrite (variance_constant _ Hc Hge) in Ev. injection Ev as <-.
      unfold expected_max_sharpe in Es. rewrite orb_true_r in Es. cbn in Es. injection Es as <-. split; [done|].
      rewrite E0 in Ep. by injection Ep as ->.
    + intros Hs%dsr_passes_some. cbn in Hs. apply psr_fields in Ep as (_ & _ & _ & _ & Hp). by destruct (Hp Hs) as (_ & ? & ?).
Qed.
End SharpeFacts.

(** ** A witness: ten returns, three trials *)
Module TenReturns.
#[local] Instance libm : Libm := { log x := x; log10 x := x; pow x y := if fltb y f_two then fmul x (fsqrt x) else fmul x x }.
#[local] Instance normal : NormalDist := { norm_cdf z := if fltb z f_zero then f_half else f_of_decimal (Dec 97 (-2)); norm_quantile p := p }.

Definition cents (l : list Z) : list float := map (fun z => f_of_decimal (Dec z (-2))) l.
Definition returns : list float := cents [1; 2; -1; 3; 1; 0; 2; 1; -1; 2].
Definition trials : list float := map f_of_Z [1; 2] ++ [f_nan; f_one].
Definition same_trials : list float := [f_one; f_one].

Lemma deflated_sharpe_spec_witness : exists r r', deflated_sharpe returns trials (f_of_Z 252) = Ok r
  ∧ deflated_sharpe returns same_trials (f_of_Z 252) = Ok r'
  ∧ dsr_n_trials r = 3%nat ∧ is_Some (dsr_dsr r) ∧ dsr_dsr r' = dsr_psr_implied r' ∧ passes_dsr r' = true
  ∧ (10 <= length returns)%nat.
Proof.
  eexists _, _. run_as E. run_as E'.
  pose proof (deflated_sharpe_spec returns trials (f_of_Z 252) _ E) as (Hn & _).
  pose proof (deflated_sharpe_spec returns same_trials (f_of_Z 252) _ E') as (_ & _ & _ & _ & Hs & Hp).
  split; [exact Hn|]. split; [eexists; vm_compute; reflexivity|].
  split; [|split; [vm_compute; reflexivity|apply (Hp ltac:(vm_compute; reflexivity))]].
  assert (H2 : (2 <= length (List.filter f_isfinite same_trials))%nat) by (vm_compute; lia).
  specialize (Hs H2). destruct Hs as (v & Hs). destruct Hs as (star & psr & _ & _ & _ & _ & _ & _ & Hc). apply Hc. exists f_one. split; [reflexivity|].
  repeat constructor.
Defined.
End TenReturns.
