(* ===== verification/Performance.v ===== *)
(** * stats/: what a run looks like

    performance.py (metrics of an equity curve and of closed trades), Module [Robustness] (robustness.py) and
    Module [TailRisk] (tail_risk.py).  Ratios are floats, money is [decimal]; what is undefined is [None]. *)

From Stdlib Require Import SpecFloat.
From S2P Require Import Prelude PyDecimal PyFloat FloatRound FloatOrder PyNumber PyStats MultiTest Sharpe.

#[local] Open Scope Z_scope.

(** ** performance.py *)
Definition _MIN_EQUITY_POINTS : nat := 2.
Definition _MIN_RETURNS_FOR_STDEV : nat := 2.
Definition _MIN_TRADES_FOR_SKEW : nat := 3.

Record PerformanceMetrics := {
  pm_n_periods : nat;
  pm_total_return : float;
  pm_annualized_return : float;
  pm_annualized_volatility : option float;
  pm_sharpe : option float;
  pm_max_drawdown : float;
  pm_calmar : option float;
}.

Record TradeMetrics := {
  tm_n_trades : nat;
  tm_n_wins : nat;
  tm_n_losses : nat;
  tm_n_scratch : nat;
  tm_win_rate : option float;
  tm_avg_win : option decimal;
  tm_avg_loss : option decimal;
  tm_payoff_ratio : option float;
  tm_expectancy : option decimal;
  tm_profit_factor : option float;
  tm_pnl_skew : option float;
}.

(** One point of the curve: the peak so far and the deepest fall from it. *)
Definition drawdown_step (acc : float * float) (x : float) : float * float :=
  let '(peak, mdd) := acc in
  let peak := fmax peak x in
  let dd := fdiv (fsub peak x) peak in
  (peak, fmax mdd dd).

Definition _max_drawdown (equity : list float) : float :=
  snd (fold_left drawdown_step equity (nth 0 equity f_zero, f_zero)).

(** [equity[i] / equity[i - 1] - 1.0] for every [i] after the first. *)
Definition simple_returns (equity : list float) : list float :=
  zip_with (fun cur prev => fsub (fdiv cur prev) f_one) (tail equity) equity.

(** The level above which returns are not one number repeated. *)
Definition effectively_constant (returns : list float) (mean_r : float) : bool :=
  forallb (fun r => isclose r mean_r (f_of_decimal (Dec 1 (-9))) (f_of_decimal (Dec 1 (-12)))) returns.

Section Performance.
Context `{Libm}.

Definition volatility_and_sharpe (returns : list float) (periods_per_year risk_free_rate : float)
    : result (option float * option float) :=
  if (length returns <? _MIN_RETURNS_FOR_STDEV)%nat then Ok (None, None)
  else
    let! mean_r := mean returns in
    if effectively_constant returns mean_r then Ok (Some f_zero, None)
    else
      let! sd := stdev returns in
      let! root := math_sqrt periods_per_year in
      let volatility := fmul sd root in
      let mean_excess := fsub mean_r (fdiv risk_free_rate periods_per_year) in
      let! ratio := f_div mean_excess sd in
      Ok (Some volatility, Some (fmul ratio root)).

Definition compute_metrics (equity_curve : list decimal) (periods_per_year risk_free_rate : float)
    : result PerformanceMetrics :=
  guard! fleb periods_per_year f_zero else StatsError in
  let n := length equity_curve in
  guard! (n <? _MIN_EQUITY_POINTS)%nat else StatsError in
  let equity := map f_of_decimal equity_curve in
  guard! existsb (fun x => fleb x f_zero) equity else StatsError in
  let returns := simple_returns equity in
  let n_returns := length returns in
  let growth := fdiv (f_at equity (n - 1)) (f_at equity 0) in
  let total_return := fsub growth f_one in
  let annualized_return := fsub (pow growth (fdiv periods_per_year (f_of_nat n_returns))) f_one in
  let max_dd := _max_drawdown equity in
  let! '(volatility, sharpe) := volatility_and_sharpe returns periods_per_year risk_free_rate in
  let calmar := if fltb f_zero max_dd then Some (fdiv annualized_return max_dd) else None in
  Ok {| pm_n_periods := n_returns; pm_total_return := total_return; pm_annualized_return := annualized_return;
        pm_annualized_volatility := volatility; pm_sharpe := sharpe; pm_max_drawdown := max_dd; pm_calmar := calmar |}.

Definition _pnl_skew (pnls : list float) : result (option float) :=
  let n := length pnls in
  if (n <? _MIN_TRADES_FOR_SKEW)%nat then Ok None
  else
    let mean := fdiv (fsum pnls) (f_of_nat n) in
    let m2 := fdiv (power_sum mean 2 pnls) (f_of_nat n) in
    if fleb m2 f_zero then Ok None
    else
      let m3 := fdiv (power_sum mean 3 pnls) (f_of_nat n) in
      let! skew := f_div m3 (pow m2 (f_of_decimal (Dec 15 (-1)))) in Ok (Some skew).

(** [total / n] when there is something to divide by. *)
Definition mean_money (total : decimal) (n : nat) : result (option decimal) :=
  if (0 <? n)%nat then let! q := ddiv total (dec_of_Z (Z.of_nat n)) in Ok (Some q) else Ok None.

(** [avg_win / avg_loss] when both are defined. *)
Definition payoff_of (avg_win avg_loss : option decimal) : result (option float) :=
  match avg_win, avg_loss with
  | Some w, Some l => let! q := ddiv w l in Ok (Some (f_of_decimal q))
  | _, _ => Ok None
  end.

(** [gross_win / gross_loss] when something was lost. *)
Definition profit_factor_of (gross_win gross_loss : decimal) : result (option float) :=
  if dltb d0 gross_loss then let! q := ddiv gross_win gross_loss in Ok (Some (f_of_decimal q)) else Ok None.

Definition compute_trade_metrics (trade_pnls : list decimal) : result TradeMetrics :=
  let n := length trade_pnls in
  let wins := List.filter (dltb d0) trade_pnls in
  let losses := List.filter (fun p => dltb p d0) trade_pnls in
  let n_wins := length wins in
  let n_losses := length losses in
  let win_rate := if (0 <? n)%nat then Some (f_of_ratio (Z.of_nat n_wins) (Z.of_nat n)) else None in
  let! avg_win := mean_money (dsum wins) n_wins in
  let! avg_loss := mean_money (dneg (dsum losses)) n_losses in
  let! payoff_ratio := payoff_of avg_win avg_loss in
  let! expectancy := mean_money (dsum trade_pnls) n in
  let gross_win := dsum wins in
  let gross_loss := dneg (dsum losses) in
  let! profit_factor := profit_factor_of gross_win gross_loss in
  let! pnl_skew := _pnl_skew (map f_of_decimal trade_pnls) in
  Ok {| tm_n_trades := n; tm_n_wins := n_wins; tm_n_losses := n_losses; tm_n_scratch := n - n_wins - n_losses;
        tm_win_rate := win_rate; tm_avg_win := avg_win; tm_avg_loss := avg_loss; tm_payoff_ratio := payoff_ratio;
        tm_expectancy := expectancy; tm_profit_factor := profit_factor; tm_pnl_skew := pnl_skew |}.
End Performance.

(** ** robustness.py *)
Module Robustness.
Definition _MAX_TRIM_FRAC : float := f_half.

Definition _annualized_sharpe (returns : list float) (periods_per_year : float) : result (option float) :=
  if (length returns <? _MIN_RETURNS)%nat then Ok None
  else
    let! sd := stdev returns in
    if feqb sd f_zero then Ok None
    else
      let! m := mean returns in
      let! root := math_sqrt periods_per_year in
      Ok (Some (fmul (fdiv m sd) root)).

Definition winsorized_sharpe (returns : list float) (trim_frac periods_per_year : float) : result (option float) :=
  guard! negb (fleb f_zero trim_frac && fltb trim_frac _MAX_TRIM_FRAC) else RobustnessError in
  guard! fleb periods_per_year f_zero else RobustnessError in
  if (length returns <? _MIN_RETURNS)%nat then Ok None
  else
    let ordered := f_sorted returns in
    let! k := int_of (fmul trim_frac (f_of_nat (length ordered))) in
    if k =? 0 then _annualized_sharpe returns periods_per_year
    else
      let! lo := at_index ordered k in
      let! hi := at_index ordered (Z.of_nat (length ordered) - 1 - k) in
      _annualized_sharpe (map (fun x => fmin (fmax x lo) hi) returns) periods_per_year.

Definition tail_contribution (returns : list float) (frac : float) : result float :=
  guard! negb (fltb f_zero frac && fltb frac f_one) else RobustnessError in
  let total := fsum (map fabs returns) in
  if feqb total f_zero then Ok f_zero
  else
    let! k := int_of (fmul frac (f_of_nat (length returns))) in
    let k := Z.max 1 k in
    let top := firstn (Z.to_nat k) (f_sorted_desc (map fabs returns)) in
    Ok (fdiv (fsum top) total).

Definition net_returns (returns : list float) (traded : list bool) (cost_per_trade : float) : result (list float) :=
  guard! negb (length returns =? length traded)%nat else RobustnessError in
  guard! fltb cost_per_trade f_zero else RobustnessError in
  Ok (zip_with (fun r (t : bool) => if t then fsub r cost_per_trade else r) returns traded).
End Robustness.

(** ** tail_risk.py *)
Module TailRisk.
Definition _MAX_TAIL : float := f_half.

Record TailMeans := {
  tail_left_mean : float;
  tail_right_mean : float;
  tail_n_tail : Z;
}.

Definition ratio (t : TailMeans) : float :=
  let denom := fabs (tail_left_mean t) in
  if feqb denom f_zero then (if fltb f_zero (tail_right_mean t) then f_inf else f_nan)
  else fdiv (tail_right_mean t) denom.

Section Skew.
Context `{Libm}.

Definition skewness (returns : list float) : result (option float) :=
  let! moments := compute_sharpe_moments returns in
  Ok (match moments with None => None | Some m => Some (sm_skew m) end).

Definition skewness_excluding_extremes (returns : list float) (n_drop : Z) : result (option float) :=
  guard! n_drop <? 0 else TailRiskError in
  if Z.of_nat (length returns) - n_drop <? Z.of_nat _MIN_RETURNS then Ok None
  else if n_drop =? 0 then skewness returns
  else
    let! mean := fmean returns in
    let by_extremity := argsort_desc (fun i => fabs (fsub (f_at returns i) mean)) (length returns) in
    let dropped := firstn (Z.to_nat n_drop) by_extremity in
    let kept := map (f_at returns) (List.filter (fun i => negb (existsb (Nat.eqb i) dropped)) (seq 0 (length returns))) in
    skewness kept.
End Skew.

Definition _quantile (ordered : list float) (p : float) : result float :=
  let n := Z.of_nat (length ordered) in
  if n =? 1 then at_index ordered 0
  else
    let h := fmul (f_of_Z (n - 1)) p in
    let! lo := floor_of h in
    let hi := Z.min (lo + 1) (n - 1) in
    let! a := at_index ordered lo in
    let! b := at_index ordered hi in
    Ok (fadd a (fmul (fsub h (f_of_Z lo)) (fsub b a))).

Definition quantile_skewness (returns : list float) (tail : float) : result (option float) :=
  guard! negb (fltb f_zero tail && fltb tail _MAX_TAIL) else TailRiskError in
  if (length returns <? _MIN_RETURNS)%nat then Ok None
  else
    let ordered := f_sorted returns in
    let! q_lo := _quantile ordered tail in
    let! q_mid := _quantile ordered f_half in
    let! q_hi := _quantile ordered (fsub f_one tail) in
    let spread := fsub q_hi q_lo in
    if fleb spread f_zero then Ok None
    else Ok (Some (fdiv (fsub (fadd q_hi q_lo) (fmul f_two q_mid)) spread)).

Definition tail_means (returns : list float) (tail : float) : result (option TailMeans) :=
  guard! negb (fltb f_zero tail && fltb tail _MAX_TAIL) else TailRiskError in
  let n := length returns in
  if (n <? _MIN_RETURNS)%nat then Ok None
  else
    let ordered := f_sorted returns in
    let! k := ceil_of (f_round_places (fmul tail (f_of_nat n)) 9) in
    let k := Z.max 1 k in
    let! left_mean := fmean (firstn (Z.to_nat k) ordered) in
    let! right_mean := fmean (skipn (n - Z.to_nat k) ordered) in
    Ok (Some {| tail_left_mean := left_mean; tail_right_mean := right_mean; tail_n_tail := k |}).
End TailRisk.

(** ** Facts: the drawdown *)

(** A positive number of the format. *)
Definition positive (x : float) : Prop := canonical x ∧ 0 < fint x.

(** A number of the format between zero and one. *)
Definition unit_number (x : float) : Prop := canonical x ∧ 0 <= fint x <= 2 ^ 1074.

Lemma fmax_canonical x y : canonical x → canonical y → canonical (fmax x y) ∧ fint (fmax x y) = Z.max (fint x) (fint y).
Proof.
  intros Hx Hy. unfold fmax. destruct (fltb x y) eqn:E.
  - apply fltb_fint in E; [|done|done]. split; [done|lia].
  - split; [done|]. enough (~ fint x < fint y) by lia. rewrite <- fltb_fint by done. by rewrite E.
Qed.

(** A fall from a peak is a share of it, and is noticed. *)
Lemma fall_of_peak peak x : positive peak → positive x → fint x <= fint peak →
  unit_number (fdiv (fsub peak x) peak) ∧ (0 < fint (fdiv (fsub peak x) peak) ↔ fint x < fint peak).
Proof.
  intros [Hp Pp] [Hx Px] Hle. destruct fint_one as [H1 E1].
  pose proof (fsub_rounds peak x Hp Hx Hle) as Hs. destruct (rounds_le _ peak _ _ Hs Hp ltac:(lia)) as [Hsc Hsb].
  pose proof (fdiv_rounds (fsub peak x) peak Hsc Hp ltac:(lia) Pp) as Hd.
  destruct (rounds_le _ f_one _ _ Hd H1) as [Hdc Hdb]; [rewrite E1; apply Z.mul_le_mono_nonneg_r; [by apply Z.pow_nonneg|lia]|].
  rewrite E1 in Hdb. split; [done|]. split.
  - intros Hpos. apply Z.lt_nge. intros Hge. assert (Heq : fint peak - fint x = 0) by lia. rewrite Heq in Hs.
    destruct (rounds_le _ f_zero _ _ Hs) as [_ Hz]; [done|done|]. change (fint f_zero) with 0 in Hz.
    assert (Es : fint (fsub peak x) = 0) by lia. rewrite Es in Hd.
    destruct (rounds_le _ f_zero _ _ Hd) as [_ Hz']; [done|change (fint f_zero) with 0; lia|]. change (fint f_zero) with 0 in Hz'. lia.
  - intros Hlt. destruct (positive_form peak Hp Pp) as (m & e & ->). destruct (positive_form x Hx Px) as (m' & e' & ->).
    pose proof (canonical_bounds _ _ _ Hp) as (He & Hm & Hw). pose proof (canonical_bounds _ _ _ Hx) as (He' & Hm' & _).
    unfold fint in Hlt, Hs. cbn [f_mant f_exp] in Hlt, Hs.
    set (k := Z.max 0 (e + 1073)) in *.
    assert (Hgap : 2 ^ k <= Z.pos m * 2 ^ (e + 1074) - Z.pos m' * 2 ^ (e' + 1074)) by (by apply exponent_gap).
    destruct (power_of_two k ltac:(lia)) as (c & Hc & Ec). destruct (power_of_two 0 ltac:(lia)) as (c1 & Hc1 & Ec1). change (2 ^ 0) with 1 in Ec1.
    pose proof (rounds_ge _ c _ _ Hs Hc ltac:(lia)) as Hge. apply fleb_fint in Hge; [|done|done].
    assert (Hk : 2 ^ (e + 1074) <= 2 ^ (k + 1)) by (apply Z.pow_le_mono_r; lia).
    assert (Hsmall : fint (S754_finite false m e) * fint c1 <= fint (fsub (S754_finite false m e) (S754_finite false m' e')) * 2 ^ 1074).
    { unfold fint at 1. cbn [f_mant f_exp]. rewrite Ec1, Z.mul_1_r.
      transitivity (2 ^ 53 * 2 ^ (k + 1)); [apply Z.mul_le_mono_nonneg; lia|].
      transitivity (2 ^ k * 2 ^ 1074); [rewrite <- !Z.pow_add_r by lia; apply Z.pow_le_mono_r; lia|].
      apply Z.mul_le_mono_nonneg_r; [by apply Z.pow_nonneg|lia]. }
    pose proof (rounds_ge _ c1 _ _ Hd Hc1 Hsmall) as Hpos. apply fleb_fint in Hpos; [|done|done]. lia.
Qed.

(** The curve goes below [p] or below one of its own earlier points. *)
Fixpoint falls (p : Z) (xs : list float) : Prop :=
  match xs with [] => False | x :: xs => fint x < p ∨ falls (Z.max p (fint x)) xs end.

Lemma falls_spec xs : forall p, falls p xs ↔
  exists j x, xs !! j = Some x ∧ (fint x < p ∨ exists i y, (i < j)%nat ∧ xs !! i = Some y ∧ fint x < fint y).
Proof.
  induction xs as [|x xs IH]; intros p; cbn [falls]; [split; [done|by intros (j & y & [=] & _)]|]. rewrite IH. split.
  - intros [Hx|(j & y & Hy & Hb)]; [by exists 0%nat, x; split; [|left]|]. exists (S j), y. split; [done|].
    destruct Hb as [Hb|(i & z & Hi & Hz & Hb)]; [|right; by exists (S i), z; split; [lia|]].
    destruct (Z.max_spec p (fint x)) as [[_ Em]|[_ Em]]; rewrite Em in Hb; [right|by left]. exists 0%nat, x. split; [lia|done].
  - intros ([|j] & y & Hy & Hb).
    + injection Hy as <-. left. destruct Hb as [|(i & z & Hi & _)]; [done|lia].
    + right. exists j, y. split; [done|]. destruct Hb as [Hb|([|i] & z & Hi & Hz & Hb)]; [left; lia|injection Hz as <-; left; lia|].
      right. exists i, z. split; [lia|done].
Qed.

Lemma drawdown_run xs : forall peak mdd, positive peak → unit_number mdd → Forall positive xs →
  let mdd' := snd (fold_left drawdown_step xs (peak, mdd)) in
  unit_number mdd' ∧ (0 < fint mdd' ↔ 0 < fint mdd ∨ falls (fint peak) xs).
Proof.
  induction xs as [|x xs IH]; intros peak mdd Hp Hm Hxs; cbn [fold_left falls snd]; [split; [done|tauto]|].
  apply List.Forall_cons_iff in Hxs as [Hx Hxs]. destruct (fmax_canonical peak x (proj1 Hp) (proj1 Hx)) as [Hc Hv].
  assert (Hp' : positive (fmax peak x)) by (split; [done|rewrite Hv; destruct Hp; lia]).
  destruct (fall_of_peak (fmax peak x) x Hp' Hx ltac:(lia)) as [[Hdc Hdb] Hd]. destruct Hm as [Hmc Hmb].
  destruct (fmax_canonical mdd (fdiv (fsub (fmax peak x) x) (fmax peak x)) Hmc Hdc) as [Hmc' Hmv].
  destruct (IH (fmax peak x) (fmax mdd (fdiv (fsub (fmax peak x) x) (fmax peak x))) Hp') as [Hu Hf]; [split; [done|lia]|done|].
  split; [exact Hu|]. cbv zeta. cbn [drawdown_step] in *. rewrite Hf, Hmv, Hv. clear Hf Hu IH. rewrite Hv in Hd.
  assert (Hpos : forall a b, 0 <= a → 0 <= b → 0 < Z.max a b ↔ 0 < a ∨ 0 < b) by lia. rewrite Hpos by lia. rewrite Hd.
  assert (He : fint x < Z.max (fint peak) (fint x) ↔ fint x < fint peak) by lia.
  rewrite He. tauto.
Qed.

Lemma existsb_false {A} (f : A -> bool) l : existsb f l = false ↔ Forall (fun x => f x = false) l.
Proof.
  induction l as [|x l IH]; [done|]. cbn. rewrite orb_false_iff, List.Forall_cons_iff, IH. done.
Qed.

Lemma positive_curve curve : Forall (fun d => f_isfinite (f_of_decimal d) = true) curve →
  existsb (fun x => fleb x f_zero) (map f_of_decimal curve) = false → Forall positive (map f_of_decimal curve).
Proof.
  rewrite existsb_false, !List.Forall_forall. intros Hf Hp x Hx. specialize (Hp x Hx). cbv beta in Hp.
  apply in_map_iff in Hx as (d & <- & Hd). specialize (Hf d Hd). apply f_of_decimal_number in Hf. split; [done|].
  enough (~ fint (f_of_decimal d) <= fint f_zero) by (change (fint f_zero) with 0 in *; lia).
  rewrite <- fleb_fint by done. by rewrite Hp.
Qed.

Lemma f_at_nth l i : (i < length l)%nat → l !! i = Some (f_at l i).
Proof. intros Hi. destruct (lookup_lt_is_Some_2 l i Hi) as [x Hx]. by rewrite Hx, (f_at_lookup l i x Hx). Qed.

Lemma falls_first xs : Forall positive xs → falls (fint (f_at xs 0)) xs ↔
  exists i j, (i < j < length xs)%nat ∧ fltb (f_at xs j) (f_at xs i) = true.
Proof.
  intros Hp. assert (Hc : forall i, (i < length xs)%nat → canonical (f_at xs i)).
  { intros i Hi. rewrite List.Forall_forall in Hp. apply Hp. apply list_elem_of_In, list_elem_of_lookup. exists i. by apply f_at_nth. }
  rewrite falls_spec. split.
  - intros (j & x & Hj & Hb). pose proof (lookup_lt_Some _ _ _ Hj) as Hlj. pose proof (f_at_lookup _ _ _ Hj) as <-.
    destruct Hb as [Hb|(i & y & Hi & Hy & Hb)].
    + exists 0%nat, j. destruct (Nat.eq_dec j 0%nat) as [->|]; [lia|]. split; [lia|]. apply fltb_fint; [apply Hc; lia..|done].
    + exists i, j. pose proof (f_at_lookup _ _ _ Hy) as <-. split; [lia|]. apply fltb_fint; [apply Hc; lia..|done].
  - intros (i & j & Hij & Hlt). apply fltb_fint in Hlt; [|apply Hc; lia..]. exists j, (f_at xs j).
    split; [apply f_at_nth; lia|]. right. exists i, (f_at xs i). split; [lia|]. split; [apply f_at_nth; lia|done].
Qed.

Lemma max_drawdown_unit xs : Forall positive xs → (0 < length xs)%nat → unit_number (_max_drawdown xs) ∧
  (fltb f_zero (_max_drawdown xs) = true ↔ exists i j, (i < j < length xs)%nat ∧ fltb (f_at xs j) (f_at xs i) = true).
Proof.
  intros Hp Hl. assert (H0 : positive (f_at xs 0)) by (rewrite List.Forall_forall in Hp; apply Hp, nth_In; done).
  destruct (drawdown_run xs (f_at xs 0) f_zero H0) as [Hu Hf]; [split; [done|split; [done|by apply Z.pow_nonneg]]|done|].
  fold (f_at xs 0) in *. unfold _max_drawdown. fold (f_at xs 0). split; [exact Hu|].
  rewrite fltb_fint by (done || apply Hu). change (fint f_zero) with 0 in *. rewrite Hf, <- falls_first by done.
  split; [intros [Hz|]; [by apply Z.lt_irrefl in Hz|done]|by right].
Qed.

Lemma simple_returns_length equity : length (simple_returns equity) = (length equity - 1)%nat.
Proof. unfold simple_returns. rewrite length_zip_with. destruct equity; cbn; lia. Qed.

(** C38: the metrics of an equity curve.  Over a curve whose points are numbers, metrics that are returned have one
    return per step; the maximum drawdown is a number between zero and one; and it is zero, with the Calmar
    ratio undefined, exactly when no point of the curve lies below an earlier one. *)
Theorem drawdown_bounds `{Libm} curve periods_per_year risk_free_rate m :
  compute_metrics curve periods_per_year risk_free_rate = Ok m →
  Forall (fun d => f_isfinite (f_of_decimal d) = true) curve →
  let equity := map f_of_decimal curve in
  let decline := exists i j, (i < j < length curve)%nat ∧ fltb (f_at equity j) (f_at equity i) = true in
  (2 <= length curve)%nat ∧ pm_n_periods m = (length curve - 1)%nat ∧
  fleb f_zero (pm_max_drawdown m) = true ∧ fleb (pm_max_drawdown m) f_one = true ∧
  (fltb f_zero (pm_max_drawdown m) = true ↔ decline) ∧ (is_Some (pm_calmar m) ↔ decline).
Proof.
  intros E Hfin equity decline. unfold compute_metrics in E. fold equity in E. apply rbind_Ok in E as (_ & _ & E).
  apply rbind_Ok in E as (_ & Hn%reject_Ok%Nat.ltb_ge & E). apply rbind_Ok in E as (_ & Hpos%reject_Ok & E).
  apply rbind_Ok in E as ([vol sharpe] & _ & [= <-]). cbn [pm_n_periods pm_max_drawdown pm_calmar].
  assert (Hl : length equity = length curve) by apply length_map. unfold _MIN_EQUITY_POINTS in Hn.
  destruct (max_drawdown_unit equity (positive_curve curve Hfin Hpos) ltac:(lia)) as [[Hc Hu] Hd]. rewrite Hl in Hd. fold decline in Hd.
  destruct (unit_interval _ Hc Hu) as [H0 H1]. split; [done|]. split; [by rewrite simple_returns_length, Hl|].
  split; [done|]. split; [done|]. split; [done|]. rewrite <- Hd. destruct (fltb f_zero (_max_drawdown equity)); [split; [done|by eexists]|split; [by intros []|done]].
Qed.

(** ** Facts: closed trades *)
Lemma dadd_same_sign s a b : Z.abs s = 1 → Z.sgn (dcoef a) = 0 ∨ Z.sgn (dcoef a) = s → Z.sgn (dcoef b) = s →
  Z.sgn (dcoef (dadd a b)) = s.
Proof.
  intros Hs Ha Hb. rewrite dadd_sgn. unfold dadd_exact, scale_to. cbn [dcoef]. set (e := Z.min (dexp a) (dexp b)).
  assert (P1 : 0 < 10 ^ (dexp a - e)) by (apply Z.pow_pos_nonneg; lia). assert (P2 : 0 < 10 ^ (dexp b - e)) by (apply Z.pow_pos_nonneg; lia).
  destruct (Z.lt_trichotomy 0 s) as [Hp|[|Hn]]; [|lia|].
  - assert (0 < dcoef b ∧ 0 <= dcoef a) as [? ?] by lia. assert (0 < dcoef b * 10 ^ (dexp b - e)) by nia. assert (0 <= dcoef a * 10 ^ (dexp a - e)) by nia. lia.
  - assert (dcoef b < 0 ∧ dcoef a <= 0) as [? ?] by lia. assert (dcoef b * 10 ^ (dexp b - e) < 0) by nia. assert (dcoef a * 10 ^ (dexp a - e) <= 0) by nia. lia.
Qed.

Lemma dsum_run s l : Z.abs s = 1 → Forall (fun p => Z.sgn (dcoef p) = s) l →
  forall a, Z.sgn (dcoef a) = s → Z.sgn (dcoef (foldl dadd a l)) = s.
Proof.
  intros Hs Hl. induction Hl as [|p l Hp _ IH]; intros a Ha; [done|]. cbn. apply IH. apply dadd_same_sign; auto.
Qed.

Lemma dsum_sign s l : Z.abs s = 1 → Forall (fun p => Z.sgn (dcoef p) = s) l →
  Z.sgn (dcoef (dsum l)) = if (0 <? length l)%nat then s else 0.
Proof.
  intros Hs Hl. destruct Hl as [|p l Hp Hl]; [done|]. unfold dsum. cbn [foldl length Nat.ltb Nat.leb].
  apply (dsum_run s l Hs Hl). apply dadd_same_sign; auto.
Qed.

Lemma mean_money_spec total n q : mean_money total n = Ok q →
  (q = None ↔ n = 0%nat) ∧ (forall a, q = Some a → Z.sgn (dcoef a) = Z.sgn (dcoef total)).
Proof.
  unfold mean_money. destruct (Nat.ltb_spec 0 n).
  - intros (a & Ha & [= <-])%rbind_Ok. split; [split; [done|lia]|]. intros a' [= <-]. apply ddiv_sgn in Ha. rewrite Ha. cbn [dcoef dec_of_Z].
    assert (Z.sgn (Z.of_nat n) = 1) by lia. lia.
  - intros [= <-]. split; [split; [lia|done]|done].
Qed.

Lemma mean_money_total total n : exists q, mean_money total n = Ok q.
Proof.
  unfold mean_money. destruct (Nat.ltb_spec 0 n); [|eauto].
  destruct (ddiv_ok total (dec_of_Z (Z.of_nat n))) as [q ->]; [cbn; lia|]. cbn. eauto.
Qed.

Lemma wins_positive l : Forall (fun p => Z.sgn (dcoef p) = 1) (List.filter (dltb d0) l).
Proof. apply List.Forall_forall. intros p [_ Hp]%filter_In. rewrite dltb_0_l in Hp. lia. Qed.

Lemma losses_negative l : Forall (fun p => Z.sgn (dcoef p) = -1) (List.filter (fun p => dltb p d0) l).
Proof. apply List.Forall_forall. intros p [_ Hp]%filter_In. rewrite dltb_0_r in Hp. lia. Qed.

Lemma trichotomy_length l : (length (List.filter (dltb d0) l) + length (List.filter (fun p => dltb p d0) l)
  + length (List.filter (fun p => Z.eqb (dcoef p) 0) l) = length l)%nat.
Proof.
  induction l as [|p l IH]; [done|]. cbn [List.filter length]. rewrite dltb_0_l, dltb_0_r.
  destruct (Z.ltb_spec 0 (dcoef p)), (Z.ltb_spec (dcoef p) 0), (Z.eqb_spec (dcoef p) 0); cbn [length]; lia.
Qed.

Lemma dneg_sign d : Z.sgn (dcoef (dneg d)) = - Z.sgn (dcoef d).
Proof. unfold dneg. rewrite dfix_sgn. unfold dneg_exact. cbn [dcoef]. lia. Qed.

Lemma f_of_decimal_zero d : dcoef d = 0 → f_of_decimal d = f_zero.
Proof. intros Hd. unfold f_of_decimal. rewrite Hd. by destruct (0 <=? dexp d). Qed.

(** The mean of a total of one sign: defined when something is counted, and of that sign. *)
Lemma mean_money_positive total n q : Z.sgn (dcoef total) = (if (0 <? n)%nat then 1 else 0) → mean_money total n = Ok q →
  (q = None ↔ n = 0%nat) ∧ (forall a, q = Some a → 0 < dcoef a).
Proof.
  intros Hs Hq. destruct (mean_money_spec total n q Hq) as [Hn Hp]. split; [done|]. intros a Ha. specialize (Hp a Ha).
  rewrite Hs in Hp. destruct (Nat.ltb_spec 0 n); [lia|]. assert (n = 0%nat) as Hz%Hn by lia. congruence.
Qed.

Lemma payoff_total avg_win avg_loss : (forall l, avg_loss = Some l → 0 < dcoef l) →
  exists p, payoff_of avg_win avg_loss = Ok p ∧ (is_Some p ↔ is_Some avg_win ∧ is_Some avg_loss).
Proof.
  intros Hl. unfold payoff_of. destruct avg_win as [w|]; [destruct avg_loss as [l|]|].
  - destruct (ddiv_ok w l) as [q ->]; [specialize (Hl l eq_refl); lia|]. eexists. split; [done|]. by split; eauto.
  - exists None. split; [done|]. split; [by intros []|by intros [_ []]].
  - exists None. split; [done|]. split; [by intros []|by intros [[] _]].
Qed.

Lemma profit_factor_total win loss : 0 <= Z.sgn (dcoef loss) → exists p, profit_factor_of win loss = Ok p ∧
  (is_Some p ↔ 0 < dcoef loss) ∧ (forall f, p = Some f → dcoef win = 0 → f = f_zero).
Proof.
  intros Hl. unfold profit_factor_of. rewrite dltb_0_l. destruct (Z.ltb_spec 0 (dcoef loss)).
  - destruct (ddiv_ok win loss) as [q Hq]; [lia|]. rewrite Hq. eexists. split; [done|]. split; [by split; eauto|].
    intros f [= <-] Hw. apply f_of_decimal_zero. apply ddiv_sgn in Hq. rewrite Hw in Hq. cbn in Hq. lia.
  - exists None. split; [done|]. split; [split; [by intros []|lia]|done].
Qed.

Lemma none_some {A} (o : option A) n : o = None ↔ n = 0%nat → is_Some o ↔ (0 < n)%nat.
Proof. intros Ho. rewrite <- not_eq_None_Some, Ho. lia. Qed.

(** the summary of closed trades.  As long as the skew of the PnLs is computed, it is always returned; its wins,
    losses and scratches partition the trades by the exact sign of the PnL; the win rate is defined when there
    is a trade, and lies between zero and one; the average win is defined when there is one and is positive,
    the average loss when there is one and is a positive magnitude; the profit factor is defined exactly when
    something was lost, and is zero when nothing was won. *)
Theorem trade_metrics_spec `{Libm} trade_pnls skew : _pnl_skew (map f_of_decimal trade_pnls) = Ok skew →
  exists m, compute_trade_metrics trade_pnls = Ok m ∧ tm_pnl_skew m = skew ∧
  tm_n_trades m = length trade_pnls ∧ tm_n_wins m = length (List.filter (dltb d0) trade_pnls) ∧
  tm_n_losses m = length (List.filter (fun p => dltb p d0) trade_pnls) ∧
  tm_n_scratch m = length (List.filter (fun p => dcoef p =? 0) trade_pnls) ∧
  (tm_n_wins m + tm_n_losses m + tm_n_scratch m = tm_n_trades m)%nat ∧
  (tm_win_rate m = None ↔ trade_pnls = []) ∧
  (forall w, tm_win_rate m = Some w → fleb f_zero w = true ∧ fleb w f_one = true) ∧
  (tm_avg_win m = None ↔ tm_n_wins m = 0%nat) ∧ (forall a, tm_avg_win m = Some a → 0 < dcoef a) ∧
  (tm_avg_loss m = None ↔ tm_n_losses m = 0%nat) ∧ (forall a, tm_avg_loss m = Some a → 0 < dcoef a) ∧
  (is_Some (tm_payoff_ratio m) ↔ (0 < tm_n_wins m ∧ 0 < tm_n_losses m)%nat) ∧
  (is_Some (tm_profit_factor m) ↔ (0 < tm_n_losses m)%nat) ∧
  (forall f, tm_profit_factor m = Some f → tm_n_wins m = 0%nat → f = f_zero).
Proof.
  intros Hskew. pose proof (trichotomy_length trade_pnls) as Htri.
  set (wins := List.filter (dltb d0) trade_pnls) in *. set (losses := List.filter (fun p => dltb p d0) trade_pnls) in *.
  pose proof (dsum_sign 1 wins eq_refl (wins_positive _)) as Sw.
  assert (Sn : Z.sgn (dcoef (dneg (dsum losses))) = if (0 <? length losses)%nat then 1 else 0)
    by (rewrite dneg_sign, (dsum_sign (-1) losses eq_refl (losses_negative _)); by destruct (0 <? length losses)%nat).
  destruct (mean_money_total (dsum wins) (length wins)) as [avg_win Ew]. destruct (mean_money_positive _ _ _ Sw Ew) as [Nw Pw].
  destruct (mean_money_total (dneg (dsum losses)) (length losses)) as [avg_loss El]. destruct (mean_money_positive _ _ _ Sn El) as [Nl Pl].
  destruct (mean_money_total (dsum trade_pnls) (length trade_pnls)) as [expectancy Ee].
  destruct (payoff_total avg_win avg_loss Pl) as (payoff & Epay & Hpay). rewrite (none_some _ _ Nw), (none_some _ _ Nl) in Hpay.
  destruct (profit_factor_total (dsum wins) (dneg (dsum losses))) as (pf & Epf & Hpf & Hpf0); [rewrite Sn; destruct (0 <? length losses)%nat; lia|].
  exists {| tm_n_trades := length trade_pnls; tm_n_wins := length wins; tm_n_losses := length losses;
    tm_n_scratch := length trade_pnls - length wins - length losses;
    tm_win_rate := if (0 <? length trade_pnls)%nat then Some (f_of_ratio (Z.of_nat (length wins)) (Z.of_nat (length trade_pnls))) else None;
    tm_avg_win := avg_win; tm_avg_loss := avg_loss; tm_payoff_ratio := payoff; tm_expectancy := expectancy;
    tm_profit_factor := pf; tm_pnl_skew := skew |}. split.
  { unfold compute_trade_metrics. fold wins losses. rewrite Ew, El. cbn [rbind]. rewrite Epay. cbn [rbind]. rewrite Ee. cbn [rbind].
    rewrite Epf. cbn [rbind]. rewrite Hskew. reflexivity. }
  cbn [tm_n_trades tm_n_wins tm_n_losses tm_n_scratch tm_win_rate tm_avg_win tm_avg_loss tm_payoff_ratio tm_profit_factor tm_pnl_skew].
  do 4 (split; [done|]). split; [lia|]. split; [lia|]. split; [by destruct trade_pnls|]. split.
  { intros w. destruct (Nat.ltb_spec 0 (length trade_pnls)); [|done]. intros [= <-]. apply ratio_in_unit; lia. }
  do 5 (split; [done|]). split.
  - rewrite Hpf. destruct (Nat.ltb_spec 0 (length losses)); lia.
  - intros f Hf Hw. apply (Hpf0 f Hf). rewrite Hw in Sw. cbn in Sw. lia.
Qed.

(** ** Witnesses: a curve that falls once, and four trades *)
Module SmallRun.
#[local] Instance libm : Libm := { log x := x; log10 x := x; pow x y := if fltb y f_two then fmul x (fsqrt x) else fmul x x }.

Definition curve : list decimal := map dec_of_Z [100; 110; 99; 120].
Definition pnls : list decimal := map dec_of_Z [50; -20; 0; 30].

Lemma drawdown_bounds_witness : exists m, compute_metrics curve (f_of_Z 252) f_zero = Ok m
  ∧ pm_n_periods m = 3%nat ∧ pm_max_drawdown m = f_of_decimal (Dec 1 (-1)) ∧ is_Some (pm_calmar m)
  ∧ fleb (pm_max_drawdown m) f_one = true.
Proof.
  eexists. run_as E.
  assert (Hf : Forall (fun d => f_isfinite (f_of_decimal d) = true) curve)
    by (apply List.Forall_forall, forallb_forall; vm_compute; reflexivity).
  pose proof (drawdown_bounds curve (f_of_Z 252) f_zero _ E Hf) as (_ & Hn & _ & H1 & _).
  split; [exact Hn|]. split; [vm_compute; reflexivity|]. split; [by eexists|exact H1].
Defined.

Lemma trade_metrics_spec_witness : exists m, compute_trade_metrics pnls = Ok m
  ∧ (tm_n_wins m, tm_n_losses m, tm_n_scratch m) = (2, 1, 1)%nat
  ∧ tm_profit_factor m = Some (f_of_Z 4) ∧ tm_avg_loss m = Some (dec_of_Z 20).
Proof.
  assert (Es : exists s, _pnl_skew (map f_of_decimal pnls) = Ok s) by (eexists; vm_compute; reflexivity). destruct Es as [s Es].
  pose proof (trade_metrics_spec pnls s Es) as (m & E & _). exists m. split; [exact E|].
  vm_compute in E. injection E as <-. split; [reflexivity|]. split; vm_compute; reflexivity.
Defined.

(** The documented asymmetries: a wide right tail, and the count of a tail on an exact boundary. *)
Example tail_count : exists t, TailRisk.tail_means (map f_of_Z (map Z.of_nat (seq 1 40))) (f_of_decimal (Dec 5 (-2))) = Ok (Some t)
  ∧ TailRisk.tail_n_tail t = 2.
Proof. eexists. split; vm_compute; reflexivity. Qed.

Example winsorized_flat : Robustness.winsorized_sharpe (map f_of_Z [1; 1; 1]) f_zero (f_of_Z 252) = Ok None.
Proof. vm_compute. reflexivity. Qed.
End SmallRun.
