(* ===== verification/Resample.v ===== *)
(** * Resampling tests

    Module [Bca] is stats/bootstrap_ci.py, Module [Permutation_test] is stats/permutation.py, Module
    [BlockBootstrap] is cv/block_bootstrap.py (the stationary indices are [MultiTest]'s, the automatic block
    length [Survival]'s, as the source imports them).  The generator is threaded as its state; a statistic
    may raise. *)

From S2P Require Import Prelude PyDecimal PyText PyFloat FloatRound FloatOrder PyNumber PyStats MultiTest Survival Sharpe.

#[local] Open Scope Z_scope.

Definition statistic := list float -> result float.

(** [f"...{n}..."] of the reasons. *)
Definition degenerate_reason (n_bad n_resamples : Z) : string :=
  ("too many degenerate resamples (" ++ str_int n_bad ++ " of " ++ str_int n_resamples ++ " were NaN)")%string.
Definition point_reason : string := "point statistic is not finite (e.g. profit factor with no losses)".

Definition count (p : float -> bool) (l : list float) : Z := Z.of_nat (length (List.filter p l)).

(** ** stats/bootstrap_ci.py *)
Module Bca.
Definition PF_LOWER_THRESHOLD : float := f_one.
Definition _MIN_DATA : Z := 2.
Definition _MIN_RESAMPLES : Z := 1000.
Definition _DENOM_FLOOR : float := f_of_decimal (Dec 1 (-12)).

Record BCaResult := {
  bca_point : float;
  bca_lower : float;
  bca_upper : float;
  bca_z0 : float;
  bca_accel : float;
  bca_confidence : float;
  bca_n_resamples : Z;
  bca_n : Z;
  bca_seed : option Z;
  bca_reason : option string;
}.

Definition lower_exceeds (r : BCaResult) (threshold : float) : bool :=
  f_isfinite (bca_lower r) && fltb threshold (bca_lower r).

Definition profit_factor (returns : list float) : float :=
  let gains := fsum (List.filter (fltb f_zero) returns) in
  let losses := fsum (map fopp (List.filter (fun r => fltb r f_zero) returns)) in
  if feqb losses f_zero then (if fltb f_zero gains then f_inf else f_nan) else fdiv gains losses.

Definition _quantile (sorted_vals : list float) (p : float) : result float :=
  let n := Z.of_nat (length sorted_vals) in
  if n =? 1 then at_index sorted_vals 0
  else
    let h := fmul (f_of_Z (n - 1)) p in
    let! lo := floor_of h in
    let hi := Z.min (lo + 1) (n - 1) in
    let frac := fsub h (f_of_Z lo) in
    let! a := at_index sorted_vals lo in
    let! b := at_index sorted_vals hi in
    Ok (fadd a (fmul frac (fsub b a))).

Definition _undefined (point confidence : float) (n_resamples n : Z) (seed : option Z) (reason : string) : BCaResult :=
  {| bca_point := point; bca_lower := f_nan; bca_upper := f_nan; bca_z0 := f_nan; bca_accel := f_nan;
     bca_confidence := confidence; bca_n_resamples := n_resamples; bca_n := n; bca_seed := seed;
     bca_reason := Some reason |}.

Section Bootstrap.
Context `{PyRandom} `{Libm} `{NormalDist}.

(** [[x[rng.randrange(n)] for _ in range(n)]]. *)
Fixpoint resample (k : nat) (x : list float) (g : rng) : rng * list float :=
  match k with
  | O => (g, [])
  | S k =>
      let '(g, i) := randrange g (Z.of_nat (length x)) in
      let '(g, rest) := resample k x g in
      (g, nth (Z.to_nat i) x f_zero :: rest)
  end.

(** The statistics of the resamples, without the NaN. *)
Fixpoint boot_draws (draws : nat) (stat : statistic) (x : list float) (g : rng) : result (list float) :=
  match draws with
  | O => Ok []
  | S draws =>
      let '(g, sample) := resample (length x) x g in
      let! theta := stat sample in
      let! rest := boot_draws draws stat x g in
      Ok (if f_isnan theta then rest else theta :: rest)
  end.

(** The share of draws below the point, ties by half, kept off zero and one. *)
Definition below_share (boot : list float) (point : float) : float :=
  let n_boot := f_of_Z (Z.of_nat (length boot)) in
  let n_less := count (fun t => fltb t point) boot in
  let n_eq := count (fun t => feqb t point) boot in
  let prop := fdiv (fadd (f_of_Z n_less) (fmul f_half (f_of_Z n_eq))) n_boot in
  fmin (fmax prop (fdiv f_half n_boot)) (fsub f_one (fdiv f_half n_boot)).

(** The acceleration, from the leave-one-out estimates. *)
Definition acceleration (stat : statistic) (x : list float) : result float :=
  let! jack := rmap (fun i => stat (firstn i x ++ skipn (i + 1) x)) (seq 0 (length x)) in
  if forallb f_isfinite jack then
    let! j_bar := fmean jack in
    let diffs := map (fun j => fsub j_bar j) jack in
    let denom := fsum (map (fun d => fmul d d) diffs) in
    if fltb f_zero denom
    then f_div (fsum (map (fun d => pow d (f_of_Z 3)) diffs)) (fmul (f_of_Z 6) (pow denom (f_of_decimal (Dec 15 (-1)))))
    else Ok f_zero
  else Ok f_zero.

Definition _adjusted (accel z0 z_q : float) : result float :=
  let denom := fsub f_one (fmul accel (fadd z0 z_q)) in
  let denom := if fltb (fabs denom) _DENOM_FLOOR
               then (if negb (feqb denom f_zero) then copysign _DENOM_FLOOR denom else _DENOM_FLOOR)
               else denom in
  let! ratio := f_div (fadd z0 z_q) denom in
  Ok (norm_cdf (fadd z0 ratio)).

(** The interval from the draws. *)
Definition bca_interval (stat : statistic) (x boot : list float) (point confidence : float) (n_resamples : Z)
    (seed : option Z) : result BCaResult :=
  let! z0 := inv_cdf (below_share boot point) in
  let! accel := acceleration stat x in
  let alpha := fsub f_one confidence in
  let boot_sorted := f_sorted boot in
  let! q_lo := inv_cdf (fdiv alpha f_two) in
  let! p_lo := _adjusted accel z0 q_lo in
  let! lower := _quantile boot_sorted p_lo in
  let! q_hi := inv_cdf (fsub f_one (fdiv alpha f_two)) in
  let! p_hi := _adjusted accel z0 q_hi in
  let! upper := _quantile boot_sorted p_hi in
  Ok {| bca_point := point; bca_lower := lower; bca_upper := upper; bca_z0 := z0; bca_accel := accel;
        bca_confidence := confidence; bca_n_resamples := n_resamples; bca_n := Z.of_nat (length x); bca_seed := seed;
        bca_reason := None |}.

Definition bca_bootstrap (x : list float) (stat : statistic) (n_resamples : Z) (confidence : float) (seed : option Z)
    : result BCaResult :=
  guard! negb (fltb f_zero confidence && fltb confidence f_one) else BCaError in
  guard! n_resamples <? _MIN_RESAMPLES else BCaError in
  let n := Z.of_nat (length x) in
  guard! n <? _MIN_DATA else BCaError in
  guard! negb (forallb f_isfinite x) else BCaError in
  let! point := stat x in
  if negb (f_isfinite point) then Ok (_undefined point confidence n_resamples n seed point_reason)
  else
    let! boot := boot_draws (Z.to_nat n_resamples) stat x (rng_seed seed) in
    let n_boot := Z.of_nat (length boot) in
    if n_boot <? n_resamples / 2
    then Ok (_undefined point confidence n_resamples n seed (degenerate_reason (n_resamples - n_boot) n_resamples))
    else bca_interval stat x boot point confidence n_resamples seed.
End Bootstrap.
End Bca.

(** ** stats/permutation.py *)
Module Permutation_test.
Definition PERMUTATION_P_THRESHOLD : float := f_of_decimal (Dec 5 (-2)).
Definition _MIN_PERMUTATIONS : Z := 1000.
Definition _MIN_AUTOCORR_OBS : nat := 3.
Definition _DEFAULT_BLOCK_LENGTH : Z := 5.
Definition _FAIR_COIN_P : float := f_half.
Definition _MAX_NAN_FRACTION : float := f_of_decimal (Dec 1 (-1)).
Definition _VALID_MODES : list string := ["sign_flip"; "block_shuffle"; "shuffle"]%string.

Record PermutationResult := {
  perm_p_value : option float;
  perm_observed : float;
  perm_n_permutations : Z;
  perm_n_valid : Z;
  perm_mode : string;
  perm_one_sided : bool;
  perm_block_length : Z;
  perm_lag1_autocorr : option float;
  perm_autocorr_warning : bool;
  perm_seed : option Z;
  perm_reason : option string;
  perm_null_distribution : list float;
}.

Definition passes_permutation (r : PermutationResult) : bool :=
  match perm_p_value r with Some p => fltb p PERMUTATION_P_THRESHOLD | None => false end.

Definition mean_return : statistic := fmean.

Section Shuffle.
Context `{PyRandom}.

(** [x[i], x[j] = x[j], x[i]]. *)
Definition swap {A} (i j : nat) (x : list A) : list A :=
  match x !! i, x !! j with Some a, Some b => <[j := a]> (<[i := b]> x) | _, _ => x end.

(** [rng.shuffle(x)]: from the last place down, each takes what stands at a random place up to it. *)
Fixpoint shuffle_from {A} (i : nat) (x : list A) (g : rng) : rng * list A :=
  match i with
  | O => (g, x)
  | S i' => let '(g, j) := randrange g (Z.of_nat i + 1) in shuffle_from i' (swap i (Z.to_nat j) x) g
  end.
Definition shuffle {A} (x : list A) (g : rng) : rng * list A := shuffle_from (length x - 1) x g.

Fixpoint sign_flip (returns : list float) (g : rng) : rng * list float :=
  match returns with
  | [] => (g, [])
  | r :: returns =>
      let '(g, u) := random g in
      let '(g, rest) := sign_flip returns g in
      (g, (if fltb u _FAIR_COIN_P then r else fopp r) :: rest)
  end.

(** [[returns[i : i + block_length] for i in range(0, n, block_length)]]. *)
Fixpoint blocks_of (fuel : nat) (block_length : nat) (l : list float) : list (list float) :=
  match fuel, l with
  | O, _ | _, [] => []
  | S fuel, _ => firstn block_length l :: blocks_of fuel block_length (skipn block_length l)
  end.

Definition _permute (returns : list float) (mode : string) (block_length : Z) (g : rng) : rng * list float :=
  if bool_decide (mode = "sign_flip"%string) then sign_flip returns g
  else if bool_decide (mode = "shuffle"%string) then shuffle returns g
  else
    let '(g, blocks) := shuffle (blocks_of (length returns) (Z.to_nat block_length) returns) g in
    (g, concat blocks).

(** The statistics of the permuted series that are finite. *)
Fixpoint null_draws (draws : nat) (stat : statistic) (r : list float) (mode : string) (block_length : Z) (g : rng)
    : result (list float) :=
  match draws with
  | O => Ok []
  | S draws =>
      let '(g, permuted) := _permute r mode block_length g in
      let! s := stat permuted in
      let! rest := null_draws draws stat r mode block_length g in
      Ok (if f_isfinite s then s :: rest else rest)
  end.
End Shuffle.

Definition _lag1_autocorr `{Libm} (returns : list float) : result (option float) :=
  let n := length returns in
  if (n <? _MIN_AUTOCORR_OBS)%nat then Ok None
  else
    let! mean := fmean returns in
    let var := power_sum mean 2 returns in
    if fleb var f_zero then Ok None
    else
      let cov := fsum (zip_with (fun x y => fmul (fsub x mean) (fsub y mean)) (tail returns) returns) in
      Ok (Some (fdiv cov var)).

(** How many draws are at least as extreme as what was observed. *)
Definition at_least_as_extreme (one_sided : bool) (observed : float) (null : list float) : Z :=
  if one_sided then count (fun s => fleb observed s) null
  else count (fun s => fleb (fabs observed) (fabs s)) null.

Definition permutation_test `{PyRandom} `{Libm} (r : list float) (stat : statistic) (n_permutations : Z) (mode : string)
    (block_length : Z) (one_sided : bool) (seed : option Z) : result PermutationResult :=
  guard! negb (bool_decide (mode ∈ _VALID_MODES)) else PermutationError in
  guard! n_permutations <? _MIN_PERMUTATIONS else PermutationError in
  guard! block_length <? 1 else PermutationError in
  let n := length r in
  guard! (n <? _MIN_RETURNS)%nat else PermutationError in
  guard! negb (forallb f_isfinite r) else PermutationError in
  let! lag1 := _lag1_autocorr r in
  let autocorr_warning :=
    match lag1 with
    | Some lag1 => bool_decide (mode ∈ ["sign_flip"; "shuffle"]%string) && fltb (fdiv f_two (fsqrt (f_of_nat n))) (fabs lag1)
    | None => false
    end in
  let! observed := stat r in
  let _result p_value n_valid null reason :=
    {| perm_p_value := p_value; perm_observed := observed; perm_n_permutations := n_permutations; perm_n_valid := n_valid;
       perm_mode := mode; perm_one_sided := one_sided; perm_block_length := block_length; perm_lag1_autocorr := lag1;
       perm_autocorr_warning := autocorr_warning; perm_seed := seed; perm_reason := reason;
       perm_null_distribution := null |} in
  if negb (f_isfinite observed) then Ok (_result None 0 [] (Some "observed statistic is not finite"%string))
  else
    let! null := null_draws (Z.to_nat n_permutations) stat r mode block_length (rng_seed seed) in
    let n_valid := Z.of_nat (length null) in
    let n_nan := n_permutations - n_valid in
    guard! fltb (fmul _MAX_NAN_FRACTION (f_of_Z n_permutations)) (f_of_Z n_nan) else PermutationError in
    let n_ge := at_least_as_extreme one_sided observed null in
    Ok (_result (Some (f_of_ratio (n_ge + 1) (n_valid + 1))) n_valid null None).
End Permutation_test.

(** ** cv/block_bootstrap.py *)
Module BlockBootstrap.
Definition _VALID_MODES : list string := ["stationary"; "moving"; "fixed"]%string.
Definition _MIN_DATA : nat := 2.
Definition _MIN_RESAMPLES : Z := 1000.

Record BlockBootstrapResult := {
  bb_point : float;
  bb_lower : float;
  bb_upper : float;
  bb_confidence : float;
  bb_block_mean : Z;
  bb_block_mean_estimated : bool;
  bb_mode : string;
  bb_n_resamples : Z;
  bb_n : nat;
  bb_seed : option Z;
  bb_bootstrap_distribution : list float;
  bb_reason : option string;
}.

Definition bb_lower_exceeds (r : BlockBootstrapResult) (threshold : float) : bool :=
  f_isfinite (bb_lower r) && fltb threshold (bb_lower r).

Section Blocks.
Context `{PyRandom}.

(** [while len(idx) < n: idx.extend(a block)], for a block drawn by the generator. *)
Fixpoint extend_blocks (fuel : nat) (n : nat) (block : rng -> rng * list Z) (idx : list Z) (g : rng) : rng * list Z :=
  match fuel with
  | O => (g, idx)
  | S fuel =>
      if (length idx <? n)%nat then
        let '(g, b) := block g in extend_blocks fuel n block (idx ++ b) g
      else (g, idx)
  end.

Definition moving_block (n block_len : Z) (g : rng) : rng * list Z :=
  let '(g, start) := randrange g n in
  (g, map (fun j => (start + Z.of_nat j) mod n) (seq 0 (Z.to_nat block_len))).

Definition _moving_block_indices (n : nat) (block_len : Z) (g : rng) : rng * list Z :=
  let '(g, idx) := extend_blocks n n (moving_block (Z.of_nat n) block_len) [] g in (g, firstn n idx).

(** [range(0, n, block_len)]. *)
Definition block_starts (n block_len : Z) : list Z :=
  map (fun k => Z.of_nat k * block_len) (seq 0 (Z.to_nat ((n + block_len - 1) / block_len))).

Definition fixed_block (n block_len : Z) (g : rng) : rng * list Z :=
  let starts := block_starts n block_len in
  let '(g, k) := randrange g (Z.of_nat (length starts)) in
  let s := nth (Z.to_nat k) starts 0 in
  (g, zrange s (Z.min (s + block_len) n)).

Definition _fixed_block_indices (n : nat) (block_len : Z) (g : rng) : rng * list Z :=
  let '(g, idx) := extend_blocks n n (fixed_block (Z.of_nat n) block_len) [] g in (g, firstn n idx).

Definition _block_indices (mode : string) (n : nat) (block_len : Z) (g : rng) : rng * list Z :=
  if bool_decide (mode = "stationary"%string) then stationary_bootstrap_indices n block_len g
  else if bool_decide (mode = "moving"%string) then _moving_block_indices n block_len g
  else _fixed_block_indices n block_len g.

Fixpoint block_draws (draws : nat) (stat : statistic) (x : list float) (mode : string) (block_len : Z) (g : rng)
    : result (list float) :=
  match draws with
  | O => Ok []
  | S draws =>
      let '(g, idx) := _block_indices mode (length x) block_len g in
      let! theta := stat (map (fun i => f_at x (Z.to_nat i)) idx) in
      let! rest := block_draws draws stat x mode block_len g in
      Ok (if f_isnan theta then rest else theta :: rest)
  end.
End Blocks.

Definition block_bootstrap `{PyRandom} `{Libm} (x : list float) (stat : statistic) (n_resamples : Z)
    (block_mean : option Z) (mode : string) (confidence : float) (seed : option Z) : result BlockBootstrapResult :=
  guard! negb (fltb f_zero confidence && fltb confidence f_one) else BlockBootstrapError in
  guard! negb (bool_decide (mode ∈ _VALID_MODES)) else BlockBootstrapError in
  guard! n_resamples <? _MIN_RESAMPLES else BlockBootstrapError in
  let n := length x in
  guard! (n <? _MIN_DATA)%nat else BlockBootstrapError in
  guard! negb (forallb f_isfinite x) else BlockBootstrapError in
  let '(block_len, estimated) :=
    match block_mean with None => (optimal_block_length x, true) | Some b => (b, false) end in
  guard! (block_len <? 1) || (Z.of_nat n <? block_len) else BlockBootstrapError in
  let! point := stat x in
  let _result lower upper boot reason :=
    {| bb_point := point; bb_lower := lower; bb_upper := upper; bb_confidence := confidence; bb_block_mean := block_len;
       bb_block_mean_estimated := estimated; bb_mode := mode; bb_n_resamples := n_resamples; bb_n := n; bb_seed := seed;
       bb_bootstrap_distribution := boot; bb_reason := reason |} in
  if negb (f_isfinite point) then Ok (_result f_nan f_nan [] (Some point_reason))
  else
    let! boot := block_draws (Z.to_nat n_resamples) stat x mode block_len (rng_seed seed) in
    let n_boot := Z.of_nat (length boot) in
    if n_boot <? n_resamples / 2
    then Ok (_result f_nan f_nan boot (Some (degenerate_reason (n_resamples - n_boot) n_resamples)))
    else
      let alpha := fsub f_one confidence in
      let boot_sorted := f_sorted boot in
      let! lower := Bca._quantile boot_sorted (fdiv alpha f_two) in
      let! upper := Bca._quantile boot_sorted (fsub f_one (fdiv alpha f_two)) in
      Ok (_result lower upper boot None).
End BlockBootstrap.

(** ** Facts: block indices *)
Module BlockFacts.
Import BlockBootstrap.

Lemma zrange_nth a b k : (k < Z.to_nat (b - a))%nat → nth k (zrange a b) 0 = a + Z.of_nat k.
Proof.
  intros Hk. unfold zrange. rewrite (nth_indep _ 0 (a + Z.of_nat 0)) by (by rewrite length_map, length_seq).
  rewrite (map_nth (fun i => a + Z.of_nat i)), seq_nth by done. done.
Qed.

Lemma zrange_length a b : length (zrange a b) = Z.to_nat (b - a).
Proof. unfold zrange. by rewrite length_map, length_seq. Qed.

(** The element of a concatenation of blocks of one length. *)
Lemma concat_nth {A} (d : A) L bs : (0 < L)%nat → Forall (fun b => length b = L) bs → forall k, (k < length (concat bs))%nat →
  nth k (concat bs) d = nth (k mod L) (nth (k / L) bs []) d ∧ (k / L < length bs)%nat.
Proof.
  intros HL Hbs. induction Hbs as [|b bs Hb _ IH]; intros k Hk; [cbn in Hk; lia|].
  cbn [concat] in *. rewrite length_app in Hk. destruct (Nat.lt_ge_cases k L) as [Hlt|Hge].
  - rewrite Nat.mod_small, Nat.div_small, app_nth1 by lia. cbn. split; [done|lia].
  - rewrite app_nth2, Hb by lia. destruct (IH (k - L)%nat ltac:(lia)) as [E Hq].
    replace k with (k - L + 1 * L)%nat at 2 3 4 by lia. rewrite Nat.Div0.mod_add, Nat.div_add by lia.
    rewrite E, Nat.add_1_r. cbn [nth length]. split; [done|lia].
Qed.

Section BlockLaws.
Context `{PyRandomLaws}.

(** Drawing blocks that are never empty until there are [n] indices: the loop ends within [n] rounds. *)
Lemma extend_blocks_spec n block (P : list Z -> Prop) : (forall g, P (snd (block g)) ∧ (0 < length (snd (block g)))%nat) →
  forall fuel idx g, (n <= length idx + fuel)%nat → exists bs,
    snd (extend_blocks fuel n block idx g) = idx ++ concat bs ∧ Forall P bs ∧ (n <= length (idx ++ concat bs))%nat.
Proof.
  intros Hblock. induction fuel as [|fuel IH]; intros idx g Hn; cbn [extend_blocks].
  - exists []. cbn. rewrite app_nil_r. split; [done|]. split; [constructor|lia].
  - destruct (Nat.ltb_spec (length idx) n) as [Hlt|Hge].
    + destruct (Hblock g) as [Hb Hl]. destruct (block g) as [g' b]. cbn [snd] in Hb, Hl.
      destruct (IH (idx ++ b) g') as (bs & E & Hbs & Hlen); [rewrite length_app; lia|].
      exists (b :: bs). cbn [concat]. rewrite <- app_assoc in *. split; [done|]. split; [by constructor|done].
    + exists []. cbn. rewrite app_nil_r. split; [done|]. split; [constructor|done].
Qed.

(** A run of [L] consecutive indices, around the end. *)
Definition circular_run (n L : Z) (b : list Z) : Prop :=
  length b = Z.to_nat L ∧ exists s, 0 <= s < n ∧ forall k, (k < length b)%nat → nth k b 0 = (s + Z.of_nat k) mod n.

Lemma moving_block_spec n L g : 0 < n → 1 <= L →
  circular_run n L (snd (moving_block n L g)) ∧ (0 < length (snd (moving_block n L g)))%nat.
Proof.
  intros Hn HL. unfold moving_block. pose proof (randrange_range g n Hn) as Hr. destruct (randrange g n) as [g' s]. cbn [snd] in *.
  unfold circular_run. rewrite length_map, length_seq. split; [|lia]. split; [done|]. exists s. split; [done|]. intros k Hk.
  rewrite (nth_indep _ 0 ((s + Z.of_nat 0) mod n)) by (by rewrite length_map, length_seq).
  by rewrite (map_nth (fun j => (s + Z.of_nat j) mod n)), seq_nth.
Qed.

(** One of the disjoint blocks: it runs from a multiple of [L] to the next, or to the end of the series. *)
Definition disjoint_run (n L : Z) (b : list Z) : Prop :=
  exists s, 0 <= s < n ∧ (L | s) ∧ ((L | s + Z.of_nat (length b)) ∨ s + Z.of_nat (length b) = n) ∧
    forall k, (k < length b)%nat → nth k b 0 = s + Z.of_nat k ∧ s + Z.of_nat k < n.

Lemma fixed_block_spec n L g : 0 < n → 1 <= L →
  disjoint_run n L (snd (fixed_block n L g)) ∧ (0 < length (snd (fixed_block n L g)))%nat.
Proof.
  intros Hn HL. unfold fixed_block. set (starts := block_starts n L).
  assert (Hlen : length starts = Z.to_nat ((n + L - 1) / L)) by (unfold starts, block_starts; by rewrite length_map, length_seq).
  assert (Hdiv : 1 <= (n + L - 1) / L) by (apply Z.div_le_lower_bound; lia).
  pose proof (randrange_range g (Z.of_nat (length starts)) ltac:(lia)) as Hr.
  destruct (randrange g (Z.of_nat (length starts))) as [g' k]. cbn [snd] in *.
  assert (Hs : nth (Z.to_nat k) starts 0 = k * L).
  { unfold starts, block_starts. rewrite (nth_indep _ 0 (Z.of_nat 0 * L)) by (rewrite length_map, length_seq; lia).
    rewrite (map_nth (fun k => Z.of_nat k * L)), seq_nth by lia. cbn. by rewrite Z2Nat.id by lia. }
  assert (Hk : 0 <= k * L < n).
  { split; [nia|]. assert (k + 1 <= (n + L - 1) / L) by lia. pose proof (Z.mul_div_le (n + L - 1) L ltac:(lia)). nia. }
  rewrite Hs, zrange_length. split; [|lia]. exists (k * L). split; [done|]. split; [by exists k|].
  rewrite zrange_length. split; [destruct (Z.le_gt_cases (k * L + L) n); [left; exists (k + 1)|right]; lia|]. intros j Hj. rewrite zrange_nth by done. split; [done|lia].
Qed.

Lemma next_in_block k l : (0 < l)%nat → (S k mod l ≠ 0)%nat → (S k / l = k / l ∧ S k mod l = S (k mod l))%nat.
Proof.
  intros Hl Hm. pose proof (Nat.div_mod_eq k l) as E. pose proof (Nat.mod_upper_bound k l ltac:(lia)) as Hb.
  assert (Hlt : (S (k mod l) < l)%nat).
  { destruct (Nat.eq_dec (S (k mod l)) l) as [He|]; [|lia]. exfalso. apply Hm.
    replace (S k) with (S (k / l) * l)%nat by lia. apply Nat.Div0.mod_mul. }
  split; [symmetry; apply (Nat.div_unique _ _ _ (S (k mod l))); lia|symmetry; apply (Nat.mod_unique _ _ (k / l)); lia].
Qed.

Lemma moving_concat n L bs : 0 < n → 1 <= L → Forall (circular_run n L) bs → forall k, (k < length (concat bs))%nat →
  0 <= nth k (concat bs) 0 < n ∧
  ((S k < length (concat bs))%nat → (S k mod Z.to_nat L ≠ 0)%nat → nth (S k) (concat bs) 0 = (nth k (concat bs) 0 + 1) mod n).
Proof.
  intros Hn HL Hbs k Hk. assert (Hlen : Forall (fun b => length b = Z.to_nat L) bs) by (eapply List.Forall_impl; [|exact Hbs]; by intros b [? _]).
  assert (Hrun : forall j, (j < length (concat bs))%nat → exists s, circular_run n L (nth (j / Z.to_nat L) bs []) ∧ 0 <= s < n ∧
    nth j (concat bs) 0 = (s + Z.of_nat (j mod Z.to_nat L)) mod n ∧
    forall i, (i < Z.to_nat L)%nat → nth i (nth (j / Z.to_nat L) bs []) 0 = (s + Z.of_nat i) mod n).
  { intros j Hj. destruct (concat_nth 0 (Z.to_nat L) bs ltac:(lia) Hlen j Hj) as [E Hq].
    assert (Hb : circular_run n L (nth (j / Z.to_nat L) bs [])) by (rewrite List.Forall_forall in Hbs; apply Hbs, nth_In, Hq).
    pose proof Hb as (Hlb & s & Hs & Hr). exists s. rewrite Hlb in Hr. split; [done|]. split; [done|]. split; [|done].
    rewrite E. apply Hr. apply Nat.mod_upper_bound. lia. }
  destruct (Hrun k Hk) as (s & _ & Hs & E & Hr). split; [rewrite E; by apply Z.mod_pos_bound|]. intros Hk' Hmod.
  destruct (Hrun (S k) Hk') as (s' & _ & _ & E' & Hr').
  assert (Hdm : (S k / Z.to_nat L = k / Z.to_nat L ∧ S k mod Z.to_nat L = S (k mod Z.to_nat L))%nat).
  { by apply next_in_block; [lia|]. }
  destruct Hdm as [Hq Hm]. pose proof (Nat.mod_upper_bound (S k) (Z.to_nat L) ltac:(lia)).
  rewrite E', <- (Hr' (S k mod Z.to_nat L)%nat), Hq, Hr, E by lia. rewrite Zplus_mod_idemp_l. f_equal. lia.
Qed.

Lemma fixed_concat n L bs : Forall (disjoint_run n L) bs → forall k, (k < length (concat bs))%nat →
  0 <= nth k (concat bs) 0 < n ∧
  ((L | nth k (concat bs) 0) ∨ (0 < k)%nat ∧ nth k (concat bs) 0 = nth (k - 1) (concat bs) 0 + 1).
Proof.
  induction 1 as [|b bs (s & Hs & Hd & _ & Hb) _ IH]; intros k Hk; [cbn in Hk; lia|]. cbn [concat] in *. rewrite length_app in Hk.
  destruct (Nat.lt_ge_cases k (length b)) as [Hlt|Hge].
  - rewrite !app_nth1 by lia. destruct (Hb k Hlt) as [E Hn]. rewrite E. split; [lia|].
    destruct k as [|k]; [left; by rewrite Z.add_0_r|right]. split; [lia|]. replace (S k - 1)%nat with k by lia.
    destruct (Hb k ltac:(lia)) as [-> _]. lia.
  - rewrite (app_nth2 b _ _ Hge). destruct (IH (k - length b)%nat ltac:(lia)) as [Hr [Hl|[Hp Hl]]]; (split; [done|]); [by left|right].
    split; [lia|]. rewrite app_nth2 by lia. by replace (k - 1 - length b)%nat with (k - length b - 1)%nat by lia.
Qed.

(** A block once begun goes on to its end. *)
Lemma fixed_whole n L bs : Forall (disjoint_run n L) bs → forall k, (S k < length (concat bs))%nat →
  let i := nth k (concat bs) 0 in (L | i + 1) ∨ i + 1 = n ∨ nth (S k) (concat bs) 0 = i + 1.
Proof.
  induction 1 as [|b bs (s & Hs & Hd & Hend & Hb) _ IH]; intros k Hk; cbv zeta in *; [cbn in Hk; lia|]. cbn [concat] in *. rewrite length_app in Hk.
  destruct (Nat.lt_ge_cases k (length b)) as [Hlt|Hge].
  - rewrite (app_nth1 b _ _ Hlt). destruct (Hb k Hlt) as [-> Hn]. destruct (Nat.eq_dec (S k) (length b)) as [El|].
    { replace (s + Z.of_nat k + 1) with (s + Z.of_nat (length b)) by lia. tauto. }
    rewrite app_nth1 by lia. destruct (Hb (S k) ltac:(lia)) as [-> _]. right. right. lia.
  - rewrite (app_nth2 b _ _ Hge), (app_nth2 b) by lia. replace (S k - length b)%nat with (S (k - length b)) by lia. apply IH. lia.
Qed.

Lemma firstn_nth_all (n : nat) (l : list Z) (P : Z -> Prop) : (n <= length l)%nat → (forall k, (k < length l)%nat → P (nth k l 0)) →
  length (firstn n l) = n ∧ Forall P (firstn n l).
Proof.
  intros Hn HP. split; [by apply firstn_length_le|]. apply List.Forall_forall. intros x Hx.
  apply (In_nth _ _ 0) in Hx as (k & Hk & <-). rewrite firstn_length_le in Hk by done. rewrite nth_firstn. rewrite (proj2 (Nat.ltb_lt _ _)) by done.
  apply HP. lia.
Qed.

Lemma nth_firstn_lt (n k : nat) (l : list Z) : (k < n)%nat → nth k (firstn n l) 0 = nth k l 0.
Proof. intros Hk. rewrite nth_firstn. by rewrite (proj2 (Nat.ltb_lt _ _)). Qed.

(** C37: what a block resample is made of.  For a generator that draws within its range, a series that is not empty and
    a positive block length, each scheme ends and gives as many indices as the series has observations, all of
    them inside it.  The moving scheme is made of circular runs of exactly the block length: inside a block
    every index follows the one before it, the first after the last.  The fixed scheme resamples the disjoint
    blocks whole: every index starts one of them, at a multiple of the block length, or follows the one before
    it; and every index but the last is followed by the next of its block, unless it is the last of its block -
    the one before a multiple of the block length, or the last of the series.  So only the last block drawn can
    be cut short, where the resample is full. *)
Theorem block_indices_spec mode (n : nat) L g : (0 < n)%nat → 1 <= L → mode ∈ _VALID_MODES →
  let idx := snd (_block_indices mode n L g) in
  length idx = n ∧ Forall (fun i => 0 <= i < Z.of_nat n) idx ∧
  (mode = "moving"%string → forall k, (S k < n)%nat → (S k mod Z.to_nat L ≠ 0)%nat →
     nth (S k) idx 0 = (nth k idx 0 + 1) mod Z.of_nat n) ∧
  (mode = "fixed"%string → forall k, (k < n)%nat →
     ((L | nth k idx 0) ∨ (0 < k)%nat ∧ nth k idx 0 = nth (k - 1) idx 0 + 1) ∧
     ((S k < n)%nat → (L | nth k idx 0 + 1) ∨ nth k idx 0 + 1 = Z.of_nat n ∨ nth (S k) idx 0 = nth k idx 0 + 1)).
Proof.
  intros Hn HL Hmode idx. unfold idx, _block_indices.
  destruct (bool_decide_reflect (mode = "stationary"%string)) as [->|Hns].
  { destruct (bootstrap_indices_range n L g Hn). split; [done|]. split; [done|]. by split; intros [=]. }
  destruct (bool_decide_reflect (mode = "moving"%string)) as [->|Hnm].
  - unfold _moving_block_indices.
    destruct (extend_blocks_spec n (moving_block (Z.of_nat n) L) (circular_run (Z.of_nat n) L)
      (fun g => moving_block_spec (Z.of_nat n) L g ltac:(lia) HL) n [] g ltac:(cbn; lia)) as (bs & E & Hbs & Hlen).
    destruct (extend_blocks _ _ _ _ g) as [g' l]. cbn [snd app] in *. subst l.
    pose proof (moving_concat (Z.of_nat n) L bs ltac:(lia) HL Hbs) as Hc.
    destruct (firstn_nth_all n (concat bs) (fun i => 0 <= i < Z.of_nat n) Hlen) as [Hl Hr]; [intros k Hk; apply (Hc k Hk)|].
    split; [done|]. split; [done|]. split; [|by intros [=]]. intros _ k Hk Hm. rewrite !nth_firstn_lt by lia. apply Hc; lia.
  - assert (mode = "fixed"%string) as -> by (apply list_elem_of_In in Hmode; destruct Hmode as [<-|[<-|[<-|[]]]]; done). unfold _fixed_block_indices.
    destruct (extend_blocks_spec n (fixed_block (Z.of_nat n) L) (disjoint_run (Z.of_nat n) L)
      (fun g => fixed_block_spec (Z.of_nat n) L g ltac:(lia) HL) n [] g ltac:(cbn; lia)) as (bs & E & Hbs & Hlen).
    destruct (extend_blocks _ _ _ _ g) as [g' l]. cbn [snd app] in *. subst l.
    pose proof (fixed_concat (Z.of_nat n) L bs Hbs) as Hc.
    destruct (firstn_nth_all n (concat bs) (fun i => 0 <= i < Z.of_nat n) Hlen) as [Hl Hr]; [intros k Hk; apply (Hc k Hk)|].
    split; [done|]. split; [done|]. split; [by intros [=]|]. intros _ k Hk.
    split; [rewrite !nth_firstn_lt by lia; apply Hc; lia|]. intros Hk'. rewrite !nth_firstn_lt by lia.
    apply (fixed_whole (Z.of_nat n) L bs Hbs). lia.
Qed.
End BlockLaws.
End BlockFacts.

(** ** Facts: permutations *)
Module PermutationFacts.
Import Permutation_test.

Lemma swap_perm {A} i j (x : list A) : Permutation (swap i j x) x.
Proof.
  unfold swap. destruct (x !! i) as [a|] eqn:Ei; [|done]. destruct (x !! j) as [b|] eqn:Ej; [|done].
  by apply Permutation_insert_swap.
Qed.

Section ShuffleLaws.
Context `{PyRandom}.

Lemma shuffle_perm {A} (x : list A) g : Permutation (snd (shuffle x g)) x.
Proof.
  unfold shuffle. generalize (length x - 1)%nat as i. intros i. revert x g. induction i as [|i IH]; intros x g; [done|]. cbn [shuffle_from].
  destruct (randrange g (Z.of_nat (S i) + 1)) as [g' j]. etrans; [apply IH|apply swap_perm].
Qed.

Lemma sign_flip_spec returns : forall g, Forall2 (fun x y => y = x ∨ y = fopp x) returns (snd (sign_flip returns g)).
Proof.
  induction returns as [|r returns IH]; intros g; [constructor|]. cbn [sign_flip]. destruct (random g) as [g1 u].
  specialize (IH g1). destruct (sign_flip returns g1) as [g2 rest]. cbn [snd] in *. constructor; [|done].
  cbv beta. destruct (fltb u _FAIR_COIN_P); [left|right]; done.
Qed.
End ShuffleLaws.

(** A series cut into blocks of one length, the last one possibly shorter. *)
Definition cut_into (L : nat) (bs : list (list float)) : Prop :=
  Forall (fun b => (0 < length b <= L)%nat) bs ∧ forall i, (S i < length bs)%nat → length (nth i bs []) = L.

(** What each mode may turn the returns into. *)
Definition rearranged (mode : string) (L : nat) (r r' : list float) : Prop :=
  if bool_decide (mode = "sign_flip"%string) then Forall2 (fun x y => y = x ∨ y = fopp x) r r'
  else if bool_decide (mode = "shuffle"%string) then Permutation r r'
  else exists bs bs', concat bs = r ∧ cut_into L bs ∧ Permutation bs bs' ∧ r' = concat bs'.

Lemma blocks_of_spec L fuel : (0 < L)%nat → forall l : list float, (length l <= fuel)%nat →
  concat (blocks_of fuel L l) = l ∧ cut_into L (blocks_of fuel L l).
Proof.
  intros HL. induction fuel as [|fuel IH]; intros l Hl.
  { destruct l; [|cbn in Hl; lia]. split; [done|]. split; [constructor|cbn; lia]. }
  destruct l as [|x l]; [split; [done|]; split; [constructor|cbn; lia]|].
  change (blocks_of (S fuel) L (x :: l)) with (firstn L (x :: l) :: blocks_of fuel L (skipn L (x :: l))).
  assert (Hs : (length (skipn L (x :: l)) <= fuel)%nat) by (rewrite length_skipn; cbn in *; lia).
  destruct (IH _ Hs) as (Hc & Hf & Hn). cbn [concat]. split; [by rewrite Hc, firstn_skipn|]. split.
  - constructor; [rewrite length_firstn; cbn; lia|done].
  - intros [|i] Hi; [|apply Hn; cbn in Hi; lia]. cbn [nth]. rewrite length_firstn.
    assert (skipn L (x :: l) ≠ []) as Hne by (intros E; rewrite E in Hi; destruct fuel; cbn in Hi; lia).
    assert (0 < length (skipn L (x :: l)))%nat by (destruct (skipn L (x :: l)); [done|cbn; lia]). rewrite length_skipn in *. lia.
Qed.

Lemma permute_rearranges `{PyRandom} r mode L g : 1 <= L → rearranged mode (Z.to_nat L) r (snd (_permute r mode L g)).
Proof.
  intros HL. unfold rearranged, _permute. destruct (bool_decide (mode = "sign_flip"%string)); [apply sign_flip_spec|].
  destruct (bool_decide (mode = "shuffle"%string)); [symmetry; apply shuffle_perm|].
  destruct (blocks_of_spec (Z.to_nat L) (length r) ltac:(lia) r ltac:(done)) as [Hc Hb].
  pose proof (shuffle_perm (blocks_of (length r) (Z.to_nat L) r) g) as Hp. destruct (shuffle _ g) as [g' bs']. cbn [snd] in *.
  exists (blocks_of (length r) (Z.to_nat L) r), bs'. by split_and!.
Qed.

Lemma null_draws_spec `{PyRandom} stat r mode L : 1 <= L → forall draws g null, null_draws draws stat r mode L g = Ok null →
  (length null <= draws)%nat ∧
  Forall (fun s => f_isfinite s = true ∧ exists r', rearranged mode (Z.to_nat L) r r' ∧ stat r' = Ok s) null.
Proof.
  intros HL. induction draws as [|draws IH]; intros g null; cbn [null_draws]; [intros [= <-]; by split; [|constructor]|].
  pose proof (permute_rearranges r mode L g HL) as Hp. destruct (_permute r mode L g) as [g' r']. cbn [snd] in Hp.
  intros (s & Hs & (rest & Hr & [= <-])%rbind_Ok)%rbind_Ok. destruct (IH g' rest Hr) as [Hl Hf].
  destruct (f_isfinite s) eqn:E; [|by split; [lia|]]. split; [cbn; lia|]. constructor; [|done]. split; [done|]. by exists r'.
Qed.

Lemma count_bounds p l : 0 <= count p l <= Z.of_nat (length l).
Proof. unfold count. pose proof (List.filter_length_le p l). lia. Qed.

Lemma extreme_bounds one_sided observed null : 0 <= at_least_as_extreme one_sided observed null <= Z.of_nat (length null).
Proof. unfold at_least_as_extreme. destruct one_sided; apply count_bounds. Qed.

Lemma extreme_count (one_sided : bool) observed null : at_least_as_extreme one_sided observed null =
  Z.of_nat (length (List.filter (fun s => if one_sided then fleb observed s else fleb (fabs observed) (fabs s)) null)).
Proof. by destruct one_sided. Qed.

(** C36: the permutation test.  A test that answers has the statistic of the returns themselves as what was observed, and a
    p-value exactly when that is a finite number.  Every value of its null distribution is the finite statistic
    of a rearrangement of the returns the mode allows: each return with its sign kept or flipped, a permutation
    of the returns, or a permutation of the blocks of the given length they are cut into; there are no more of
    them than permutations asked for, and where there is a p-value no more than a tenth are missing.  The p-value
    is one more than the number of values at least as extreme as what was observed - not below it one-sided, not
    nearer to zero than it two-sided - over one more than the number of values: the observation is counted in.  For
    at most 2^60 permutations it is above zero and at most one: never exactly zero. *)
Theorem permutation_p_value `{PyRandom} `{Libm} r stat n_permutations mode L one_sided seed res :
  permutation_test r stat n_permutations mode L one_sided seed = Ok res → n_permutations <= 2 ^ 60 →
  stat r = Ok (perm_observed res) ∧ mode ∈ _VALID_MODES ∧ 1000 <= n_permutations ∧
  (is_Some (perm_p_value res) ↔ f_isfinite (perm_observed res) = true) ∧
  Forall (fun s => f_isfinite s = true ∧ exists r', rearranged mode (Z.to_nat L) r r' ∧ stat r' = Ok s) (perm_null_distribution res) ∧
  (Z.of_nat (length (perm_null_distribution res)) <= n_permutations) ∧
  forall p, perm_p_value res = Some p →
    let observed := perm_observed res in
    let null := perm_null_distribution res in
    let extreme s := if one_sided then fleb observed s else fleb (fabs observed) (fabs s) in
    p = f_of_ratio (Z.of_nat (length (List.filter extreme null)) + 1) (Z.of_nat (length null) + 1) ∧
    fltb (fmul (f_of_decimal (Dec 1 (-1))) (f_of_Z n_permutations)) (f_of_Z (n_permutations - Z.of_nat (length null))) = false ∧
    fltb f_zero p = true ∧ fleb p f_one = true.
Proof.
  intros E Hmax. unfold permutation_test in E. apply rbind_Ok in E as (_ & Hm%reject_Ok%negb_false_iff%bool_decide_eq_true & E).
  apply rbind_Ok in E as (_ & Hn%reject_Ok%Z.ltb_ge & E). apply rbind_Ok in E as (_ & HL%reject_Ok%Z.ltb_ge & E).
  apply rbind_Ok in E as (_ & _ & E). apply rbind_Ok in E as (_ & _ & E). apply rbind_Ok in E as (lag1 & _ & E).
  apply rbind_Ok in E as (observed & Ho & E). unfold _MIN_PERMUTATIONS in Hn.
  destruct (f_isfinite observed) eqn:Ef; cbn [negb] in E.
  - apply rbind_Ok in E as (null & Hnull & E). apply rbind_Ok in E as (_ & Hnan%reject_Ok & [= <-]).
    destruct (null_draws_spec stat r mode L HL _ _ _ Hnull) as [Hlen Hf].
    cbn [perm_observed perm_p_value perm_null_distribution]. pose proof (extreme_bounds one_sided observed null) as Hx.
    split; [done|]. split; [done|]. split; [lia|]. split; [by split; [|eexists]|]. split; [done|]. split; [lia|]. intros p [= <-].
    split; [by rewrite extreme_count|]. split; [exact Hnan|]. split; [|apply ratio_in_unit; lia]. apply ratio_positive; [lia|lia|].
    assert (2 ^ 61 <= 2 ^ 1000) by (apply Z.pow_le_mono_r; lia).
    transitivity (1 * 2 ^ 1000); [lia|]. apply Z.mul_le_mono_nonneg_r; [by apply Z.pow_nonneg|lia].
  - injection E as <-. cbn [perm_observed perm_p_value perm_null_distribution]. split; [done|]. split; [done|]. split; [lia|].
    split; [by rewrite Ef; split; [intros []|]|]. split; [constructor|]. split; [cbn; lia|]. by intros p [=].
Qed.
End PermutationFacts.

(** ** Facts: the BCa interval *)
Module BcaFacts.
Import Bca.

(** A finite profit factor divides by what was lost. *)
Lemma profit_factor_finite l : f_isfinite (profit_factor l) = true → exists r, In r l ∧ fltb r f_zero = true.
Proof.
  unfold profit_factor. destruct (List.filter (fun r => fltb r f_zero) l) as [|r rest] eqn:E.
  - change (fsum (map fopp [])) with f_zero. cbn [feqb f_zero]. destruct (fltb _ _); done.
  - intros _. exists r. apply (proj1 (filter_In (fun r => fltb r f_zero) r l)). rewrite E. by left.
Qed.

(** A bound that exceeds anything is a number, so the interval was defined. *)
Lemma bca_defined `{PyRandom} `{Libm} `{NormalDist} x stat n confidence seed r t :
  bca_bootstrap x stat n confidence seed = Ok r → lower_exceeds r t = true →
  stat x = Ok (bca_point r) ∧ f_isfinite (bca_point r) = true ∧ bca_reason r = None.
Proof.
  unfold bca_bootstrap. intros E Hex. apply rbind_Ok in E as (_ & _ & E). apply rbind_Ok in E as (_ & _ & E).
  apply rbind_Ok in E as (_ & _ & E). apply rbind_Ok in E as (_ & _ & E). apply rbind_Ok in E as (point & Hp & E).
  destruct (f_isfinite point) eqn:Ef; cbn [negb] in E; [|by injection E as <-].
  apply rbind_Ok in E as (boot & _ & E). destruct (_ <? _); [by injection E as <-|]. unfold bca_interval in E.
  do 8 (apply rbind_Ok in E as (? & _ & E)). by injection E as <-.
Qed.
End BcaFacts.

(** ** Witnesses: a counting generator *)
Module Counting.
#[local] Instance counter : PyRandom := {
  rng := Z; rng_seed s := match s with Some n => n | None => 0 end;
  randrange g n := (g + 1, g mod n); random g := (g + 1, if g mod 3 =? 0 then f_zero else f_one);
}.
#[local] Instance counter_laws : PyRandomLaws.
Proof. split. intros g n Hn. by apply Z.mod_pos_bound. Qed.
#[local] Instance libm : Libm := { log x := x; log10 x := x; pow x y := if fltb y f_two then fmul x (fsqrt x) else fmul x x }.
#[local] Instance normal : NormalDist := { norm_cdf z := if fltb z f_zero then f_of_decimal (Dec 1 (-1)) else f_of_decimal (Dec 9 (-1)); norm_quantile p := fsub p f_half }.

Definition returns : list float := map f_of_Z [1; 2; 3; 2].

Lemma block_indices_spec_witness :
  snd (BlockBootstrap._block_indices "moving" 5 2 (rng_seed (Some 3))) = [3; 4; 4; 0; 0]
  ∧ snd (BlockBootstrap._block_indices "fixed" 5 2 (rng_seed (Some 1))) = [2; 3; 4; 0; 1]
  ∧ length (snd (BlockBootstrap._block_indices "moving" 5 2 (rng_seed (Some 3)))) = 5%nat.
Proof.
  split; [vm_compute; reflexivity|]. split; [vm_compute; reflexivity|].
  apply (BlockFacts.block_indices_spec "moving" 5%nat 2 (rng_seed (Some 3))); [lia|lia|right; left].
Defined.

Lemma permutation_p_value_witness : exists res p,
  Permutation_test.permutation_test returns fmean 1000 "block_shuffle" 3 true (Some 5) = Ok res
  ∧ Permutation_test.perm_p_value res = Some p ∧ fltb f_zero p = true ∧ fleb p f_one = true.
Proof.
  eexists _, _. run_as E. split; [reflexivity|].
  pose proof (PermutationFacts.permutation_p_value returns fmean 1000 "block_shuffle" 3 true (Some 5) _ E ltac:(lia)) as (_ & _ & _ & _ & _ & _ & Hp).
  destruct (Hp _ eq_refl) as (_ & _ & H0 & H1). split; assumption.
Defined.

(** The interval of a series with gains and losses. *)
Example bca_defined_example : exists r, Bca.bca_bootstrap (map f_of_Z [3; -1; 2; -1; 4]) (fun x => Ok (Bca.profit_factor x)) 1000
    (f_of_decimal (Dec 9 (-1))) (Some 1) = Ok r ∧ Bca.bca_reason r = None ∧ Bca.lower_exceeds r f_one = true.
Proof. eexists. run_as E. split; vm_compute; reflexivity. Qed.
End Counting.
