(* ===== verification/Facts.v ===== *)
(** * tools/verify_facts.py: the markers of the documents

    The walk over the Markdown files of a directory, the markers on their lines and the counts of a report.
    What lies under the directory is an argument: the entries in some order, with the text that reading one
    gives, or none when it cannot be read.  The command line is not modelled. *)

From Stdlib Require Import Sorting.Sorted.
From S2P Require Import Prelude PyDecimal PyText PyPath.

#[local] Open Scope Z_scope.

Definition _HYPOTHESIS_PATTERN : regex := word_pattern "HYPOTHESIS".

Definition is_digit_char : ascii -> bool := ascii_isdigit.
Definition word_or_dash (c : ascii) : bool := is_word c || Ascii.eqb c "-".

(** [XX-\d+] for one family. *)
Definition numbered (family : string) : regex := ReCat (ReLit (String.append family "-")) (RePlus is_digit_char).

Definition _PREFIX_PATTERN : regex :=
  ReCat ReBound (ReCat
    (foldr ReAlt (ReCat (ReLit "A33-") (RePlus word_or_dash)) (map numbered ["BB"; "BC"; "BA"; "BD"; "TS"; "H"; "VS"]%string))
    ReBound).

Definition _SKIP_DIRS : list string :=
  [".venv"; ".git"; ".pytest_cache"; ".mypy_cache"; ".ruff_cache"; ".hypothesis"; "__pycache__"; "node_modules";
   "build"; "dist"]%string.

Record HypothesisMarker := {
  hm_file_path : path;
  hm_line_num : Z;
  hm_line_text : string;
  hm_prefix_codes : list string;
}.

Record WalkReport := {
  wr_markers : list HypothesisMarker;
  wr_root : path;
}.

Definition total (r : WalkReport) : Z := Z.of_nat (length (wr_markers r)).

(** [counts[key] = counts.get(key, 0) + 1] *)
Definition tally_step (counts : dict string Z) (key : string) : dict string Z := dset key (dget_or key 0 counts + 1) counts.
Definition tally (keys : list string) : dict string Z := fold_left tally_step keys [].

(** [dict(sorted(counts.items()))] *)
Definition item_leb (a b : string * Z) : bool :=
  match String.compare (fst a) (fst b) with Lt => true | Eq => snd a <=? snd b | Gt => false end.
Definition sorted_items (counts : dict string Z) : dict string Z := sort_by item_leb counts.

Definition by_file (r : WalkReport) : result (dict string Z) :=
  let! keys := rmap (fun m => let! p := relative_to (hm_file_path m) (wr_root r) in Ok (path_str p)) (wr_markers r) in
  Ok (sorted_items (tally keys)).

(** [prefix.split("-")[0]] *)
Fixpoint before_dash (s : string) : string :=
  match s with
  | EmptyString => EmptyString
  | String c s => if Ascii.eqb c "-" then EmptyString else String c (before_dash s)
  end.

Definition by_prefix (r : WalkReport) : dict string Z :=
  sorted_items (tally (map before_dash (concat (map hm_prefix_codes (wr_markers r))))).

Definition no_codes (m : HypothesisMarker) : bool := match hm_prefix_codes m with [] => true | _ => false end.
Definition unprefixed_count (r : WalkReport) : Z := Z.of_nat (length (List.filter no_codes (wr_markers r))).

Definition count_line (kv : string * Z) : string := str_concat ["    "; fst kv; ": "; str_int (snd kv)]%string.

Definition em_dash : string := String "226" (String "128" (String "148" EmptyString)).

Definition summary (r : WalkReport) : result string :=
  let! files := by_file r in
  Ok (str_join (String "010" EmptyString)
    ([str_concat ["HYPOTHESIS walker "; em_dash; " root="; path_str (wr_root r)];
      str_concat ["  Total markers: "; str_int (total r)];
      str_concat ["  Unprefixed (free-text):   "; str_int (unprefixed_count r)];
      ""; "  By file:"] ++ map count_line files ++
     [""; "  By prefix family:"] ++ map count_line (by_prefix r)))%string.

Definition _is_skipped_dir (p : path) : bool := existsb (fun part => bool_decide (part ∈ _SKIP_DIRS)) p.

(** The codes in the order they appear, each once. *)
Definition add_code (seen : list string) (code : string) : list string :=
  if bool_decide (code ∈ seen) then seen else seen ++ [code].
Definition _extract_prefix_codes (line : string) : list string :=
  fold_left add_code (re_finditer (S (String.length line)) _PREFIX_PATTERN None line) [].

(** What lies under a directory: every entry below it, and what reading it gives. *)
Definition tree : Type := list (path * option string).

(** [rglob("*.md")] matches the last part. *)
Definition is_markdown (p : path) : bool :=
  match List.last p EmptyString with s => (3 <=? String.length s)%nat && String.eqb (str_take_last 3 s) ".md" end.

Definition _iter_markdown_files (root : path) (t : tree) : result (list (path * option string)) :=
  let found := sort_by (fun a b => path_leb (fst a) (fst b))
                 (map (fun e => (root ++ fst e, snd e)) (List.filter (fun e => is_markdown (fst e)) t)) in
  let! keep := rmap (fun e => let! p := relative_to (fst e) root in Ok (e, _is_skipped_dir p)) found in
  Ok (map fst (List.filter (fun e => negb (snd e)) keep)).

Definition marker_at (md_path : path) (line_num : Z) (raw : string) : HypothesisMarker :=
  {| hm_file_path := md_path; hm_line_num := line_num; hm_line_text := str_strip raw;
     hm_prefix_codes := _extract_prefix_codes raw |}.

(** The lines from [line_num] on. *)
Fixpoint scan_lines (md_path : path) (line_num : Z) (lines : list string) : list HypothesisMarker :=
  match lines with
  | [] => []
  | raw :: lines =>
      let rest := scan_lines md_path (line_num + 1) lines in
      if negb (re_search _HYPOTHESIS_PATTERN None raw) then rest else marker_at md_path line_num raw :: rest
  end.

Definition _scan_file (md_path : path) (content : option string) : list HypothesisMarker :=
  match content with
  | None => []
  | Some text => scan_lines md_path 1 (splitlines text)
  end.

(** [None]: the root is not a directory. *)
Definition walk_hypothesis (root : path) (disk : option tree) : result WalkReport :=
  match disk with
  | None => Ok {| wr_markers := []; wr_root := root |}
  | Some t =>
      let! files := _iter_markdown_files root t in
      Ok {| wr_markers := concat (map (fun e => _scan_file (fst e) (snd e)) files); wr_root := root |}
  end.

(** ** Facts: counting *)
Definition occurrences (key : string) (keys : list string) : Z := Z.of_nat (length (List.filter (String.eqb key) keys)).

Lemma dset_sum k v (d : dict string Z) : zsum (dvalues (dset k v d)) = zsum (dvalues d) + v - dget_or k 0 d.
Proof.
  unfold dvalues, dget_or. induction d as [|[k' v'] d IH]; [cbn; lia|]. cbn [dset dget].
  destruct (decide _); cbn [map snd zsum foldr] in *; [lia|]. unfold zsum in IH. rewrite IH. lia.
Qed.

Lemma tally_from keys : forall d, List.NoDup (dkeys d) → let t := fold_left tally_step keys d in
  List.NoDup (dkeys t) ∧ zsum (dvalues t) = zsum (dvalues d) + Z.of_nat (length keys) ∧
  forall k, dget_or k 0 t = dget_or k 0 d + occurrences k keys.
Proof.
  induction keys as [|key keys IH]; intros d Hd; cbn [fold_left length].
  - split; [done|]. split; [lia|]. intros k. unfold occurrences. cbn. lia.
  - destruct (IH (tally_step d key) (dkeys_dset_NoDup _ _ _ Hd)) as (Hn & Hs & Hk). split; [done|]. split.
    + rewrite Hs. unfold tally_step. rewrite dset_sum. lia.
    + intros k. rewrite Hk. unfold occurrences, tally_step, dget_or at 1. cbn [List.filter]. rewrite dget_dset.
      destruct (decide (k = key)) as [->|Hne]; [rewrite String.eqb_refl; cbn [length]; lia|].
      rewrite (proj2 (String.eqb_neq _ _) Hne). fold (dget_or k 0 d). lia.
Qed.

Lemma item_leb_total a b : item_leb a b = true ∨ item_leb b a = true.
Proof.
  unfold item_leb. rewrite (String.compare_antisym (fst b) (fst a)). destruct (String.compare _ _); cbn; [|auto..].
  destruct (Z.le_ge_cases (snd a) (snd b)); [left|right]; by apply Z.leb_le.
Qed.

Lemma item_leb_trans a b c : item_leb a b = true → item_leb b c = true → item_leb a c = true.
Proof.
  unfold item_leb. destruct (String.compare (fst a) (fst b)) eqn:E1; [apply String.compare_eq_iff in E1 as ->| |done].
  - destruct (String.compare (fst b) (fst c)); [rewrite !Z.leb_le; lia|done..].
  - intros _. destruct (String.compare (fst b) (fst c)) eqn:E2; [apply String.compare_eq_iff in E2 as <-; by rewrite E1| |done].
    by rewrite (string_compare_trans_lt _ _ _ E1 E2).
Qed.

(** The keys go up: no key stands twice. *)
Definition key_lt (a b : string * Z) : Prop := String.compare (fst a) (fst b) = Lt.

Lemma items_increasing (d : dict string Z) : List.NoDup (dkeys d) → StronglySorted (fun a b => item_leb a b = true) d → StronglySorted key_lt d.
Proof.
  intros Hn Hs. induction Hs as [|a d Hs IH Ha]; [constructor|]. apply List.NoDup_cons_iff in Hn as [Hna Hn]. constructor; [by apply IH|].
  apply List.Forall_forall. intros b Hb. apply List.Forall_forall with (x := b) in Ha; [|done].
  unfold item_leb in Ha. unfold key_lt. destruct (String.compare _ _) eqn:E; try done. apply String.compare_eq_iff in E.
  destruct Hna. rewrite E. unfold dkeys. by apply in_map.
Qed.

(** A report's table: the sorted counts of its keys. *)
Lemma table_spec keys : let t := sorted_items (tally keys) in
  zsum (dvalues t) = Z.of_nat (length keys) ∧ StronglySorted key_lt t ∧ forall k, dget_or k 0 t = occurrences k keys.
Proof.
  intros t. destruct (tally_from keys [] (List.NoDup_nil _)) as (Hn & Hs & Hk). fold (tally keys) in *.
  pose proof (sort_by_perm item_leb (tally keys)) as Hp. fold (sorted_items (tally keys)) in Hp. fold t in Hp.
  assert (Hn' : List.NoDup (dkeys t)) by (apply (Permutation_NoDup (l := dkeys (tally keys))); [by apply Permutation_map|done]). split; [|split].
  - change (zsum (dvalues [])) with 0 in Hs. rewrite Z.add_0_l in Hs. rewrite <- Hs. symmetry. unfold dvalues, zsum.
    clear -Hp. induction Hp; cbn [map foldr] in *; lia.
  - apply items_increasing; [done|]. apply sort_by_sorted; [apply item_leb_total|intros ? ? ?; apply item_leb_trans].
  - intros k. rewrite <- (Z.add_0_l (occurrences k keys)). change 0 with (dget_or k 0 []) at 2. rewrite <- Hk. unfold dget_or.
    destruct (dget k (tally keys)) as [v|] eqn:E.
    + rewrite (In_dget k v t Hn'); [done|]. apply (Permutation_in _ Hp). by apply dget_In.
    + enough (Ek : dget k t = None) by (by rewrite Ek). apply dget_None. apply dget_None in E. intros Hin. apply E. by apply (Permutation_in k (Permutation_map fst (Permutation_sym Hp))).
Qed.

(** ** Facts: the walk *)
Lemma add_code_spec codes : forall seen, List.NoDup seen →
  List.NoDup (fold_left add_code codes seen) ∧ forall c, In c (fold_left add_code codes seen) ↔ In c seen ∨ In c codes.
Proof.
  induction codes as [|c codes IH]; intros seen Hs; cbn [fold_left]; [split; [done|]; intros; cbn; tauto|].
  unfold add_code at 2 4. destruct (bool_decide_reflect (c ∈ seen)) as [Hc|Hc]; rewrite list_elem_of_In in Hc.
  - destruct (IH seen Hs) as [Hn Hi]. split; [done|]. intros c'. rewrite Hi. cbn. intuition (subst; auto).
  - destruct (IH (seen ++ [c])) as [Hn Hi].
    { apply List.NoDup_app; [done|repeat constructor; by intros []|]. by intros x Hx [->|[]]. }
    split; [done|]. intros c'. rewrite Hi, in_app_iff. cbn. tauto.
Qed.

Lemma scan_lines_In p lines : forall n m, In m (scan_lines p n lines) ↔
  exists k raw, nth_error lines k = Some raw ∧ whole_word "HYPOTHESIS" None raw ∧ m = marker_at p (n + Z.of_nat k) raw.
Proof.
  assert (Hw : proper_word "HYPOTHESIS") by done.
  induction lines as [|raw lines IH]; intros n m; cbn [scan_lines]; [split; [done|]; by intros ([|k] & raw & [=] & _)|].
  assert (Hrest : In m (scan_lines p (n + 1) lines) ↔ exists k raw', nth_error (raw :: lines) (S k) = Some raw' ∧
    whole_word "HYPOTHESIS" None raw' ∧ m = marker_at p (n + Z.of_nat (S k)) raw').
  { rewrite IH. cbn [nth_error]. by setoid_rewrite (ltac:(lia) : forall k, n + 1 + Z.of_nat k = n + Z.of_nat (S k)). }
  pose proof (search_word _ Hw raw None) as Hs. fold _HYPOTHESIS_PATTERN in Hs. destruct (re_search _ None raw); cbn [negb In].
  - rewrite Hrest. split.
    + intros [<-|(k & raw' & H)]; [exists 0%nat, raw|by exists (S k), raw']. rewrite Z.add_0_r. split; [done|]. by split; [apply Hs|].
    + intros ([|k] & raw' & E & Hr & ->); [left; injection E as ->; by rewrite Z.add_0_r|right; eauto].
  - rewrite Hrest. split; [intros (k & H); by exists (S k)|]. intros ([|k] & raw' & E & Hr & ->); [injection E as ->; by apply Hs in Hr|eauto].
Qed.

Lemma markdown_files_spec root t : exists files, _iter_markdown_files root t = Ok files ∧
  forall p c, In (p, c) files ↔ exists rel, p = root ++ rel ∧ In (rel, c) t ∧ is_markdown rel = true ∧ _is_skipped_dir rel = false.
Proof.
  unfold _iter_markdown_files. set (found := sort_by _ _).
  assert (Hf : forall p c, In (p, c) found ↔ exists rel, p = root ++ rel ∧ In (rel, c) t ∧ is_markdown rel = true).
  { intros p c. unfold found. rewrite sort_by_In, in_map_iff. setoid_rewrite filter_In. split.
    - intros ([rel c'] & [= <- <-] & Hin & Hm). eauto.
    - intros (rel & -> & Hin & Hm). exists (rel, c). eauto. }
  set (f := fun e : path * option string => let! p := relative_to (fst e) root in Ok (e, _is_skipped_dir p)).
  destruct (rmap_total f found) as (keep & E & _).
  { intros [p c] He. apply Hf in He as (rel & -> & _). unfold f. cbn [fst]. rewrite relative_to_app. eauto. }
  rewrite E. cbn [rbind]. exists (map fst (List.filter (fun e => negb (snd e)) keep)). split; [done|]. intros p c. rewrite in_map_iff.
  setoid_rewrite filter_In. setoid_rewrite (rmap_In_Ok f found keep E). split.
  - intros ([[p' c'] b] & [= -> ->] & (e & He & Hr) & Hb). unfold f in Hr. apply rbind_Ok in Hr as (rel & Hr & [= -> <-]).
    apply Hf in He as (rel' & -> & Hin & Hm). cbn [fst] in Hr. rewrite relative_to_app in Hr. injection Hr as ->. apply negb_true_iff in Hb. eauto 6.
  - intros (rel & -> & Hin & Hm & Hs). exists (root ++ rel, c, false). split; [done|]. split; [|done].
    exists (root ++ rel, c). split; [apply Hf; eauto|]. unfold f. cbn [fst]. rewrite relative_to_app. cbn [rbind]. by rewrite Hs.
Qed.

(** what a report holds and counts.  The walk of a directory always gives a report.  Its markers are exactly the
    lines of its readable Markdown files, outside the skipped directories, on which HYPOTHESIS stands as a word of
    its own: each with its file, its number from one, its stripped text and its codes, none of them twice.  The
    table by file is sorted with each file once, its counts are the markers of that file and add up to the total;
    the table by prefix is sorted likewise, and its counts add up to the codes of all markers. *)
Theorem walk_spec root t : exists r, walk_hypothesis root (Some t) = Ok r ∧ wr_root r = root ∧
  (forall m, In m (wr_markers r) ↔ exists rel text k raw, In (rel, Some text) t ∧ is_markdown rel = true ∧
     _is_skipped_dir rel = false ∧ nth_error (splitlines text) k = Some raw ∧ whole_word "HYPOTHESIS" None raw ∧
     m = marker_at (root ++ rel) (Z.of_nat k + 1) raw) ∧
  (forall m, In m (wr_markers r) → List.NoDup (hm_prefix_codes m)) ∧
  (exists files, by_file r = Ok files ∧ StronglySorted key_lt files ∧ zsum (dvalues files) = total r ∧
     forall rel, dget_or (path_str rel) 0 files =
       Z.of_nat (length (List.filter (fun m => match relative_to (hm_file_path m) root with
                                               | Ok p => String.eqb (path_str rel) (path_str p) | Err _ => false end) (wr_markers r)))) ∧
  StronglySorted key_lt (by_prefix r) ∧
  zsum (dvalues (by_prefix r)) = Z.of_nat (length (concat (map hm_prefix_codes (wr_markers r)))).
Proof.
  destruct (markdown_files_spec root t) as (files & Ef & Hf). unfold walk_hypothesis. rewrite Ef. cbn [rbind].
  set (ms := concat _). exists {| wr_markers := ms; wr_root := root |}. cbn [wr_markers wr_root]. split; [done|]. split; [done|].
  assert (Hms : forall m, In m ms ↔ exists rel text k raw, In (rel, Some text) t ∧ is_markdown rel = true ∧
     _is_skipped_dir rel = false ∧ nth_error (splitlines text) k = Some raw ∧ whole_word "HYPOTHESIS" None raw ∧
     m = marker_at (root ++ rel) (Z.of_nat k + 1) raw).
  { intros m. unfold ms. rewrite in_concat. setoid_rewrite in_map_iff. split.
    - intros (l & ([p c] & <- & Hp) & Hm). apply Hf in Hp as (rel & -> & Ht & Hmd & Hs). destruct c as [text|]; [|done].
      apply scan_lines_In in Hm as (k & raw & Hk & Hr & ->). exists rel, text, k, raw. by rewrite Z.add_comm.
    - intros (rel & text & k & raw & Ht & Hmd & Hs & Hk & Hr & ->). exists (_scan_file (root ++ rel) (Some text)).
      split; [exists (root ++ rel, Some text); split; [done|]; apply Hf; eauto|]. apply scan_lines_In. exists k, raw. by rewrite Z.add_comm. }
  split; [done|]. split.
  { intros m Hm. apply Hms in Hm as (rel & text & k & raw & _ & _ & _ & _ & _ & ->). by apply add_code_spec; constructor. }
  split; [|destruct (table_spec (map before_dash (concat (map hm_prefix_codes ms)))) as (Hs & Ho & _);
    split; [done|]; etrans; [apply Hs|]; by rewrite length_map].
  unfold by_file. cbn [wr_markers wr_root]. set (f := fun m => let! p := relative_to (hm_file_path m) root in Ok (path_str p)).
  destruct (rmap_total f ms) as (keys & Ek & Hl).
  { intros m Hm. apply Hms in Hm as (rel & text & k & raw & _ & _ & _ & _ & _ & ->). exists (path_str rel). unfold f. cbn [hm_file_path marker_at]. by rewrite relative_to_app. }
  rewrite Ek. cbn [rbind]. destruct (table_spec keys) as (Hs & Ho & Hk). eexists. split; [done|]. split; [done|].
  split; [unfold total; cbn [wr_markers]; by rewrite <- Hl|]. intros rel. rewrite Hk. unfold occurrences. f_equal. apply rmap_Ok in Ek.
  clear -Ek. induction Ek as [|m key ms keys E _ IH]; [done|]. cbn [List.filter]. unfold f in E. apply rbind_Ok in E as (p & -> & [= <-]).
  destruct (String.eqb _ _); cbn [length]; by rewrite IH.
Qed.

(** ** A small repository *)
Module Notes.
Definition notes : tree :=
  [(["b.md"], Some (String.append "x HYPOTHESIS BB-1, BB-1" (String "010" "HYPOTHESES HYPOTHESIS_2")));
   (["docs"; "a.md"], None);
   ([".claude"; "n.md"], Some "HYPOTHESIS H-2x A33-q-");
   (["build"; "z.md"], Some "HYPOTHESIS")]%string.

Definition root : path := ["/"; "r"]%string.

(** A directory whose name starts with a dot is walked unless it is one of the listed ones. *)
Example hidden_directory_walked :
  walk_hypothesis root (Some notes) =
    Ok {| wr_markers := [{| hm_file_path := ["/"; "r"; ".claude"; "n.md"]; hm_line_num := 1;
                            hm_line_text := "HYPOTHESIS H-2x A33-q-"; hm_prefix_codes := ["A33-q"] |};
                         {| hm_file_path := ["/"; "r"; "b.md"]; hm_line_num := 1;
                            hm_line_text := "x HYPOTHESIS BB-1, BB-1"; hm_prefix_codes := ["BB-1"] |}];
          wr_root := root |}%string.
Proof. vm_compute. reflexivity. Qed.

Example counts : by_prefix {| wr_markers := [marker_at root 1 "HYPOTHESIS BB-1 TS-2 BB-3"]; wr_root := [] |} = [("BB", 2); ("TS", 1)]%string.
Proof. vm_compute. reflexivity. Qed.
End Notes.
