(* ===== verification/SqlArchive.v ===== *)
(** * storage/duckdb_query.py: SQL over the archive

    The query engine beside the stores.  The data base is the [duckdb] package's: the class [DuckDB] has the
    connection, what executing a statement gives and the frames it gives.  The files under the base directory
    are an argument, as they are when a method looks. *)

From Stdlib Require Import Sorting.Sorted.
From S2P Require Import Prelude PyDecimal PyText PyPath.

#[local] Open Scope Z_scope.
#[local] Open Scope py_scope.

(** [execute(sql, params).pl()]: the connection afterwards, and the frame or [duckdb.Error]. *)
Class DuckDB := {
  duck_value : Type;
  duck_frame : Type;
  duck_conn : Type;
  duck_connect : duck_conn;
  duck_execute : duck_conn -> string -> list duck_value -> duck_conn * option duck_frame;
  duck_close : duck_conn -> duck_conn;
  pl_empty : duck_frame;
}.

Definition quote : ascii := "'".
Definition quote_str : string := String quote EmptyString.

(** [s.replace("'", "''")] *)
Fixpoint doubled_quotes (s : string) : string :=
  match s with
  | EmptyString => EmptyString
  | String c s => if Ascii.eqb c quote then String quote (String quote (doubled_quotes s)) else String c (doubled_quotes s)
  end.

Definition file_literal (f : path) : string := str_concat [quote_str; doubled_quotes (path_str f); quote_str].

Definition _files_sql (files : list path) : string := str_concat ["["; str_join ", " (map file_literal files); "]"]%string.

Definition BACKEND_ID : string := "duckdb_query".

(** The paths below [base] that [(base / dir).glob("**/data.parquet")] finds, for the files under [base]. *)
Definition data_file (dir rel : path) : bool :=
  match relative_to rel dir with
  | Ok ((_ :: _) as below) => String.eqb (List.last below EmptyString) "data.parquet"
  | _ => false
  end.
Definition data_files (base dir : path) (files : list path) : list path :=
  sort_by path_leb (map (fun rel => base ++ rel) (List.filter (data_file dir) files)).

Section Engine.
Context `{DuckDB}.

Record DuckDbQueryEngine := {
  _base : path;
  _conn : duck_conn;
}.

Definition new_DuckDbQueryEngine (base_path : path) : DuckDbQueryEngine :=
  {| _base := base_path; _conn := duck_connect |}.

Definition set_conn (c : duck_conn) (e : DuckDbQueryEngine) : DuckDbQueryEngine := {| _base := _base e; _conn := c |}.

(** One statement on the connection. *)
Definition execute (sql : string) (params : list duck_value) : M DuckDbQueryEngine (option duck_frame) :=
  e <- get ;;
  let '(c, r) := duck_execute (_conn e) sql params in
  modify (set_conn c) ;;
  ret r.

Definition healthcheck : M DuckDbQueryEngine bool :=
  r <- execute "SELECT 1" [] ;;
  ret (match r with Some _ => true | None => false end).

Definition bar_files (e : DuckDbQueryEngine) (files : list path) : list path :=
  data_files (_base e) ["futures"; "bars"]%string files.
Definition settle_files (e : DuckDbQueryEngine) (files : list path) : list path :=
  data_files (_base e) ["futures"; "settles"]%string files.

Definition query (sql : string) (params : option (list duck_value)) : M DuckDbQueryEngine duck_frame :=
  r <- execute sql (default [] params) ;;
  match r with Some f => ret f | None => raise StorageError end.

(** [if where:] *)
Definition where_clause (where_ : option string) : string :=
  match where_ with
  | None | Some EmptyString => EmptyString
  | Some w => String.append " WHERE " w
  end.

Definition archive_sql (files : list path) (select : string) (where_ : option string) : string :=
  String.append (str_concat ["SELECT "; select; " FROM read_parquet("; _files_sql files; ", hive_partitioning = true)"]%string)
    (where_clause where_).

Definition _query_archive (files : list path) (select : string) (where_ : option string)
    (params : option (list duck_value)) : M DuckDbQueryEngine duck_frame :=
  match files with
  | [] => ret pl_empty
  | _ => query (archive_sql files select where_) params
  end.

Definition query_bars (files : list path) (select : string) (where_ : option string)
    (params : option (list duck_value)) : M DuckDbQueryEngine duck_frame :=
  e <- get ;; _query_archive (bar_files e files) select where_ params.

Definition query_settles (files : list path) (select : string) (where_ : option string)
    (params : option (list duck_value)) : M DuckDbQueryEngine duck_frame :=
  e <- get ;; _query_archive (settle_files e files) select where_ params.

Definition close : M DuckDbQueryEngine unit := modify (fun e => set_conn (duck_close (_conn e)) e).

(** The context manager: the engine itself, closed at the end. *)
Definition __enter__ : M DuckDbQueryEngine DuckDbQueryEngine := get.
Definition __exit__ : M DuckDbQueryEngine unit := close.
End Engine.

(** ** Facts: reading a statement back *)
#[local] Arguments String.append : simpl nomatch.

(** A quoted text, after its opening quote: its value and what follows. *)
Fixpoint read_quoted (s : string) : option (string * string) :=
  match s with
  | EmptyString => None
  | String c s =>
      if Ascii.eqb c quote then
        match s with
        | String d s' => if Ascii.eqb d quote
                         then match read_quoted s' with Some (v, rest) => Some (String quote v, rest) | None => None end
                         else Some (EmptyString, s)
        | EmptyString => Some (EmptyString, s)
        end
      else match read_quoted s with Some (v, rest) => Some (String c v, rest) | None => None end
  end.

(** The values of a list, after its opening bracket or a comma. *)
Fixpoint read_values (fuel : nat) (s : string) : option (list string * string) :=
  match fuel, s with
  | S fuel, String c s =>
      if Ascii.eqb c quote then
        match read_quoted s with
        | Some (v, String d rest) =>
            if Ascii.eqb d "]" then Some ([v], rest)
            else if Ascii.eqb d "," then
              match rest with
              | String " " rest => match read_values fuel rest with Some (vs, rest) => Some (v :: vs, rest) | None => None end
              | _ => None
              end
            else None
        | _ => None
        end
      else None
  | _, _ => None
  end.

Definition read_list (s : string) : option (list string * string) :=
  match s with
  | String "[" (String "]" rest) => Some ([], rest)
  | String "[" s => read_values (String.length s) s
  | _ => None
  end.

Lemma read_quoted_doubled s rest : (forall r, rest ≠ String quote r) →
  read_quoted (String.append (doubled_quotes s) (String quote rest)) = Some (s, rest).
Proof.
  intros Hr. induction s as [|c s IH].
  - cbn [doubled_quotes String.append read_quoted]. rewrite Ascii.eqb_refl. destruct rest as [|d r]; [done|].
    destruct (Ascii.eqb_spec d quote) as [->|]; [by destruct (Hr r)|done].
  - cbn [doubled_quotes]. destruct (Ascii.eqb_spec c quote) as [->|Hn]; cbn [String.append read_quoted].
    + by rewrite !Ascii.eqb_refl, IH.
    + apply Ascii.eqb_neq in Hn. by rewrite Hn, IH.
Qed.

Lemma file_literal_app f rest : String.append (file_literal f) rest =
  String quote (String.append (doubled_quotes (path_str f)) (String quote rest)).
Proof. unfold file_literal, str_concat, quote_str. cbn. by rewrite append_assoc. Qed.

Lemma read_values_files files rest : forall f fuel, (length files < fuel)%nat →
  read_values fuel (String.append (str_join ", " (map file_literal (f :: files))) (String "]" rest)) =
    Some (map path_str (f :: files), rest).
Proof.
  induction files as [|g files IH]; intros f [|fuel] Hf; try (cbn in Hf; lia).
  - cbn [map str_join]. rewrite file_literal_app. cbn [read_values]. rewrite Ascii.eqb_refl, read_quoted_doubled by done. done.
  - change (str_join ", " (map file_literal (f :: g :: files))) with
      (String.append (file_literal f) (String.append ", " (str_join ", " (map file_literal (g :: files))))).
    rewrite append_assoc, file_literal_app, append_assoc. cbn [read_values]. rewrite Ascii.eqb_refl, read_quoted_doubled by done.
    cbn [String.append]. rewrite IH by (cbn in Hf; lia). done.
Qed.

Lemma join_length f files : (length files < String.length (str_join ", " (map file_literal (f :: files))))%nat.
Proof.
  revert f. induction files as [|g files IH]; intros f; [cbn; lia|].
  change (str_join ", " (map file_literal (f :: g :: files))) with
    (String.append (file_literal f) (String.append ", " (str_join ", " (map file_literal (g :: files))))).
  rewrite !string_length_append. specialize (IH g). cbn [length String.length]. lia.
Qed.

Lemma read_list_values s : (forall r, s ≠ String "]" r) → read_list (String "[" s) = read_values (String.length s) s.
Proof.
  intros Hs. unfold read_list. destruct s as [|c r]; [done|]. destruct (Ascii.eqb_spec c "]") as [->|Hn]; [by destruct (Hs r)|].
  destruct c as [[] [] [] [] [] [] [] []]; done.
Qed.

(** The list a statement names reads back as the files, whatever their names: no name ends its literal. *)
Lemma files_sql_reads files rest : read_list (String.append (_files_sql files) rest) = Some (map path_str files, rest).
Proof.
  unfold _files_sql, str_concat. cbn [str_join]. rewrite !append_assoc. cbn [String.append].
  destruct files as [|f files]; [done|]. rewrite read_list_values.
  - apply read_values_files. rewrite string_length_append. pose proof (join_length f files). lia.
  - intros r E. cbn [map] in E. destruct files; cbn in E; done.
Qed.

(** ** Facts: what a query asks for *)
Lemma data_file_spec dir rel : data_file dir rel = true ↔
  exists below, rel = dir ++ below ∧ below ≠ [] ∧ List.last below EmptyString = "data.parquet"%string.
Proof.
  unfold data_file. destruct (relative_to rel dir) as [below|e] eqn:E.
  - apply relative_to_Ok in E as ->. destruct below as [|x below].
    + split; [done|]. intros (b & E & Hb & _). apply app_inv_head in E. by subst.
    + rewrite String.eqb_eq. split; [intros Hl; by exists (x :: below)|]. intros (b & E & _ & Hl). apply app_inv_head in E. by subst.
  - split; [done|]. intros (b & Hr & _). apply relative_to_Ok in Hr. congruence.
Qed.

Lemma data_files_In base dir files p : In p (data_files base dir files) ↔
  exists below, p = base ++ dir ++ below ∧ In (dir ++ below) files ∧ below ≠ [] ∧ List.last below EmptyString = "data.parquet"%string.
Proof.
  unfold data_files. rewrite sort_by_In, in_map_iff. setoid_rewrite filter_In. setoid_rewrite data_file_spec. split.
  - intros (rel & <- & Hin & below & -> & Hb & Hl). eauto.
  - intros (below & -> & Hin & Hb & Hl). eauto 8.
Qed.

Section Asked.
Context `{DuckDB}.

(** What [query] does with a statement: the connection runs it once, and its error becomes the storage layer's. *)
Lemma query_once sql params e : query sql params e =
  let '(c, r) := duck_execute (_conn e) sql (default [] params) in
  (set_conn c e, match r with Some f => Ok f | None => Err StorageError end).
Proof.
  unfold query, execute, bind, get, modify, ret, raise. destruct (duck_execute _ _ _) as [c [f|]]; done.
Qed.

(** [q], on an engine [e], asks for the data files below [dir]: all of them, in order, and no others. *)
Definition asks_for (e : DuckDbQueryEngine) (files : list path) (dir : path) (select : string) (where_ : option string)
    (params : option (list duck_value)) (run : DuckDbQueryEngine * result duck_frame) : Prop :=
  let wanted := data_files (_base e) dir files in
  StronglySorted (fun a b => path_leb a b = true) wanted ∧
  (forall p, In p wanted ↔ exists below, p = _base e ++ dir ++ below ∧ In (dir ++ below) files ∧ below ≠ [] ∧
     List.last below EmptyString = "data.parquet"%string) ∧
  (wanted = [] → run = (e, Ok pl_empty)) ∧
  (wanted ≠ [] → exists sql literals, run = (let '(c, r) := duck_execute (_conn e) sql (default [] params) in
       (set_conn c e, match r with Some f => Ok f | None => Err StorageError end)) ∧
     sql = String.append "SELECT " (String.append select (String.append " FROM read_parquet(" literals)) ∧
     read_list literals = Some (map path_str wanted, String.append ", hive_partitioning = true)" (where_clause where_))).

Lemma query_archive_asks e files dir select where_ params :
  asks_for e files dir select where_ params (_query_archive (data_files (_base e) dir files) select where_ params e).
Proof.
  unfold asks_for. set (wanted := data_files _ _ _). split; [|split; [|split]].
  - apply sort_by_sorted; [apply path_leb_total|intros x y z; apply path_leb_trans].
  - apply data_files_In.
  - by intros ->.
  - intros Hw. exists (archive_sql wanted select where_).
    exists (String.append (_files_sql wanted) (String.append ", hive_partitioning = true)" (where_clause where_))).
    split; [destruct wanted; [done|]; apply query_once|]. split; [|apply files_sql_reads].
    unfold archive_sql, str_concat. cbn [str_join]. rewrite !append_assoc. done.
Qed.

(** a query of the archive reads the archive, whole and nothing else.  The files it asks for are the data files of
    the bars, or of the settles, below the base directory, in order.  When there is none yet, no statement reaches
    the data base and the answer is the empty frame.  Otherwise the connection runs exactly one statement, whose
    list of files reads back by the quoting rules of SQL as those very paths, whatever characters they have - no
    name can end its literal; an error of the data base comes back as the storage layer's error.  Under a query
    the engine keeps its base. *)
Theorem archive_queries_spec e files select where_ params :
  asks_for e files ["futures"; "bars"]%string select where_ params (query_bars files select where_ params e) ∧
  asks_for e files ["futures"; "settles"]%string select where_ params (query_settles files select where_ params e) ∧
  _base (fst (query_bars files select where_ params e)) = _base e ∧ _base (fst (query_settles files select where_ params e)) = _base e.
Proof.
  assert (Hb : forall l, _base (fst (_query_archive l select where_ params e)) = _base e).
  { intros [|f l]; [done|]. unfold _query_archive. rewrite query_once. by destruct (duck_execute _ _ _). }
  split; [apply query_archive_asks|]. split; [apply query_archive_asks|]. split; apply Hb.
Qed.

Lemma healthcheck_once e : healthcheck e =
  let '(c, r) := duck_execute (_conn e) "SELECT 1" [] in (set_conn c e, Ok (bool_decide (is_Some r))).
Proof. unfold healthcheck, execute, bind, get, modify, ret. by destruct (duck_execute _ _ _) as [c [f|]]. Qed.
End Asked.

(** ** A data base that keeps the statements it was given *)
Module Recorder.
Definition recorder : DuckDB := {|
  duck_value := unit; duck_frame := list string; duck_conn := list string; duck_connect := [];
  duck_execute := fun log sql _ => (log ++ [sql], if String.eqb sql "SELECT" then None else Some [sql]);
  duck_close := fun _ => []; pl_empty := [] |}.
#[local] Existing Instance recorder.

Definition files : list path :=
  [["futures"; "bars"; "ES"; "it's"; "data.parquet"]; ["futures"; "settles"; "data.parquet"]; ["futures"; "bars"; "note.txt"];
   ["futures"; "bars"; "CL"; "data.parquet"]]%string.

Example bars_asked : query_bars files "*" (Some "close > '1'"%string) None (new_DuckDbQueryEngine ["/"; "a"]%string) =
  let sql := "SELECT * FROM read_parquet(['/a/futures/bars/CL/data.parquet', '/a/futures/bars/ES/it''s/data.parquet'], hive_partitioning = true) WHERE close > '1'"%string in
  ({| _base := ["/"; "a"]%string; _conn := [sql] |}, Ok [sql]).
Proof. vm_compute. reflexivity. Qed.

Example query_error : query "SELECT" None (new_DuckDbQueryEngine []) = ({| _base := []; _conn := ["SELECT"%string] |}, Err StorageError).
Proof. vm_compute. reflexivity. Qed.
End Recorder.
