(* ===== verification/Ledger.v ===== *)
(** * execution/paper_ledger.py: the append-only profit-and-loss ledger

    A [PaperSession] with its JSON form, and the ledger over the text of its file: [None] when the
    file does not exist.  The path, the creation of its parent directory and failures of the file
    system are not modelled.  The theorems relate the text to the list of the sessions recorded. *)

From S2P Require Import Prelude PyDecimal PyText PyTime PyParse PyFloat Json.

#[local] Open Scope Z_scope.
#[local] Arguments String.append !_ _ / : simpl nomatch.

Definition _SCHEMA : string := "futur3.paper_ledger.v1".

Record PaperSession := {
  session_date : date;
  qualified : bool;
  contracts : Z;
  entry_price : option decimal;
  exit_price : option decimal;
  session_pnl : decimal;
  cost : decimal;
  ps_cumulative_pnl : decimal;
}.

Definition json_price (p : option decimal) : json :=
  match p with None => JNull | Some p => JStr (str_decimal p) end.

Definition to_json (s : PaperSession) : json := JObj [
  ("schema", JStr _SCHEMA);
  ("session_date", JStr (date_iso (session_date s)));
  ("qualified", JBool (qualified s));
  ("contracts", JInt (contracts s));
  ("entry_price", json_price (entry_price s));
  ("exit_price", json_price (exit_price s));
  ("session_pnl", JStr (str_decimal (session_pnl s)));
  ("cost", JStr (str_decimal (cost s)));
  ("cumulative_pnl", JStr (str_decimal (ps_cumulative_pnl s))) ]%string.

(** [d[key]]: only a dict has string keys. *)
Definition field (key : string) (d : json) : result json :=
  match d with
  | JObj fs => of_option (dget key fs) KeyError
  | _ => Err TypeError
  end.

Definition price_of_json (v : json) : result (option decimal) :=
  match v with
  | JNull => Ok None
  | v => let! p := decimal_of_str (py_str v) in Ok (Some p)
  end.

Definition from_json (d : json) : result PaperSession :=
  let! ep := field "entry_price" d in
  let! xp := field "exit_price" d in
  let! day_text := field "session_date" d in
  let! day := date_fromisoformat (py_str day_text) in
  let! q := field "qualified" d in
  let! c := field "contracts" d in
  let! n := py_int c in
  let! entry := price_of_json ep in
  let! exit := price_of_json xp in
  let! pnl_text := field "session_pnl" d in
  let! pnl := decimal_of_str (py_str pnl_text) in
  let! cost_text := field "cost" d in
  let! cost := decimal_of_str (py_str cost_text) in
  let! cum_text := field "cumulative_pnl" d in
  let! cum := decimal_of_str (py_str cum_text) in
  Ok {| session_date := day; qualified := py_bool q; contracts := n; entry_price := entry;
        exit_price := exit; session_pnl := pnl; cost := cost; ps_cumulative_pnl := cum |}.

(** ** The ledger *)

(** The file: its text, or nothing yet. *)
Definition PaperLedger : Type := option string.

Definition blank (line : string) : bool := String.eqb (str_strip line) "".

Definition parse_line (line : string) : result PaperSession :=
  let! d := json_loads line in from_json d.

Definition ledger_read (file : PaperLedger) : result (list PaperSession) :=
  match file with
  | None => Ok []
  | Some text => rmap parse_line (List.filter (fun line => negb (blank line)) (splitlines text))
  end.

Definition newline : string := String "010" EmptyString.

Definition ledger_line (s : PaperSession) : string :=
  String.append (json_dumps default_style (to_json s)) newline.

(** Opening with mode "a" creates the file. *)
Definition ledger_append (s : PaperSession) : M PaperLedger unit :=
  modify (fun file => Some (String.append (match file with Some t => t | None => ""%string end) (ledger_line s))).

(** The arguments of [record]: a session without its running total. *)
Record entry := {
  e_session_date : date;
  e_qualified : bool;
  e_contracts : Z;
  e_entry_price : option decimal;
  e_exit_price : option decimal;
  e_session_pnl : decimal;
  e_cost : decimal;
}.

Definition session_of (e : entry) (cumulative : decimal) : PaperSession := {|
  session_date := e_session_date e; qualified := e_qualified e; contracts := e_contracts e;
  entry_price := e_entry_price e; exit_price := e_exit_price e; session_pnl := e_session_pnl e;
  cost := e_cost e; ps_cumulative_pnl := cumulative |}.

Definition record (e : entry) : M PaperLedger PaperSession :=
  file <- get ;;
  prior <- lift (ledger_read file) ;;
  _ <- lift (reject (match list.last prior with
                     | Some s => e_session_date e <=? session_date s
                     | None => false
                     end) PaperLedgerError) ;;
  let cumulative := dadd (match list.last prior with Some s => ps_cumulative_pnl s | None => d0 end) (e_session_pnl e) in
  let session := session_of e cumulative in
  ledger_append session ;;
  ret session.

Definition pnl_series (file : PaperLedger) : result (list decimal) :=
  let! rows := ledger_read file in Ok (map session_pnl rows).

Definition cumulative_pnl (file : PaperLedger) : result decimal :=
  let! rows := ledger_read file in
  Ok (match list.last rows with Some s => ps_cumulative_pnl s | None => d0 end).

(** ** A session survives its text *)
Lemma json_price_plain p : json_plain (json_price p).
Proof. by destruct p. Qed.

Lemma price_roundtrip p : price_of_json (json_price p) = Ok p.
Proof. destruct p as [p|]; [|done]. cbn. by rewrite decimal_roundtrip. Qed.

Lemma to_json_plain s : json_plain (to_json s).
Proof.
  apply json_plain_obj. split.
  - cbn. repeat (constructor; [intros Hin; cbn in Hin; repeat destruct Hin as [Hin|Hin]; discriminate Hin || done|]).
    constructor.
  - repeat (constructor; [first [exact I|apply json_price_plain]|]). constructor.
Qed.

Lemma to_json_fields s :
  field "session_date" (to_json s) = Ok (JStr (date_iso (session_date s))) ∧
  field "qualified" (to_json s) = Ok (JBool (qualified s)) ∧
  field "contracts" (to_json s) = Ok (JInt (contracts s)) ∧
  field "entry_price" (to_json s) = Ok (json_price (entry_price s)) ∧
  field "exit_price" (to_json s) = Ok (json_price (exit_price s)) ∧
  field "session_pnl" (to_json s) = Ok (JStr (str_decimal (session_pnl s))) ∧
  field "cost" (to_json s) = Ok (JStr (str_decimal (cost s))) ∧
  field "cumulative_pnl" (to_json s) = Ok (JStr (str_decimal (ps_cumulative_pnl s))).
Proof. repeat (split; [reflexivity|]). reflexivity. Qed.

Lemma read_line s : real_date (session_date s) →
  parse_line (json_dumps default_style (to_json s)) = Ok s.
Proof.
  intros (y & m & dd & Hy & Hv & Hd). unfold parse_line. rewrite loads_dumps by apply to_json_plain.
  destruct (to_json_fields s) as (F1 & F2 & F3 & F4 & F5 & F6 & F7 & F8).
  cbn [rbind]. unfold from_json. rewrite F1, F2, F3, F4, F5, F6, F7, F8. cbn [rbind py_str py_bool py_int].
  rewrite Hd, date_roundtrip by done. cbn [rbind]. rewrite !price_roundtrip. cbn [rbind].
  rewrite !decimal_roundtrip. cbn [rbind]. rewrite <- Hd. by destruct s.
Qed.

(** a ledger row loses nothing: writing a session as a line of JSON text and reading the line back
    gives the same session, with every decimal digit and exponent, for any date the calendar can
    write. *)
Theorem session_roundtrip s : real_date (session_date s) →
  parse_line (json_dumps default_style (to_json s)) = Ok s.
Proof. apply read_line. Qed.

(** ** The text and the sessions *)
Definition text_of (rows : list PaperSession) : string := foldr String.append ""%string (map ledger_line rows).
Definition file_of (rows : list PaperSession) : PaperLedger :=
  match rows with [] => None | _ => Some (text_of rows) end.
Definition dated (rows : list PaperSession) : Prop := Forall (fun s => real_date (session_date s)) rows.

Lemma splitlines_line l rest : str_all printable l = true →
  splitlines (String.append l (String.append newline rest)) = l :: splitlines rest.
Proof.
  intros Hl. induction l as [|c l IH]; [destruct rest; reflexivity|]. simpl in Hl.
  apply andb_true_iff in Hl as [Hc Hl]. cbn [String.append splitlines].
  assert (line_break c = false) as ->
    by (destruct c as [[] [] [] [] [] [] [] []]; try discriminate Hc; reflexivity).
  by rewrite IH.
Qed.

Lemma dumps_not_blank s : blank (json_dumps default_style (to_json s)) = false.
Proof.
  unfold blank. cbn [json_dumps to_json]. unfold str_strip. cbn [str_lstrip].
  change (ascii_isspace "{") with false. cbn iota. cbn [str_rstrip].
  by destruct (str_rstrip _).
Qed.

Lemma read_text rows : dated rows → ledger_read (Some (text_of rows)) = Ok rows.
Proof.
  intros Hd. unfold ledger_read, text_of. induction Hd as [|s rows Hs Hd IH]; [done|].
  cbn [map foldr]. unfold ledger_line at 1. rewrite append_assoc, splitlines_line.
  - cbn [List.filter]. rewrite dumps_not_blank. cbn [negb rmap]. rewrite read_line by done.
    cbn [rbind]. by rewrite IH.
  - apply (dumps_printable (json_size (to_json s))); [done|apply to_json_plain].
Qed.

Lemma read_file rows : dated rows → ledger_read (file_of rows) = Ok rows.
Proof. destruct rows; [done|]. apply read_text. Qed.

Lemma append_file rows s : fst (ledger_append s (file_of rows)) = file_of (rows ++ [s]).
Proof.
  unfold ledger_append, modify. cbn [fst]. assert (E : String.append (text_of rows) (ledger_line s) = text_of (rows ++ [s])).
  { unfold text_of. induction rows as [|r rows IH]; [symmetry; apply append_empty_r|].
    cbn [map foldr app]. by rewrite append_assoc, IH. }
  destruct rows as [|r rows]; cbn [file_of app] in *; f_equal; exact E.
Qed.

(** What the ledger promises: a list of sessions to which [record] adds one, later than the last. *)
Definition too_early (rows : list PaperSession) (e : entry) : bool :=
  match list.last rows with Some s => e_session_date e <=? session_date s | None => false end.
Definition running_total (rows : list PaperSession) : decimal :=
  match list.last rows with Some s => ps_cumulative_pnl s | None => d0 end.
Definition spec_record (e : entry) (rows : list PaperSession) : list PaperSession * result PaperSession :=
  if too_early rows e then (rows, Err PaperLedgerError)
  else let s := session_of e (dadd (running_total rows) (e_session_pnl e)) in (rows ++ [s], Ok s).

Lemma record_refines rows e : dated rows →
  record e (file_of rows) = (file_of (fst (spec_record e rows)), snd (spec_record e rows)).
Proof.
  intros Hd. unfold record, bind, get, lift. rewrite read_file by done. unfold spec_record, too_early, running_total.
  destruct (match list.last rows with Some s => _ | None => _ end); [done|]. cbn [reject].
  pose proof (append_file rows (session_of e (dadd (running_total rows) (e_session_pnl e)))) as Ha.
  unfold running_total in Ha. unfold ledger_append, modify in *. cbn [fst] in Ha. by rewrite Ha.
Qed.

Lemma spec_record_dated rows e : dated rows → real_date (e_session_date e) → dated (fst (spec_record e rows)).
Proof.
  intros Hd He. unfold spec_record. destruct (too_early rows e); [done|]. apply Forall_app. split; [done|].
  by repeat constructor.
Qed.

(** Recording a sequence of sessions; a refused one leaves the file as it was. *)
Definition record_all (es : list entry) (file : PaperLedger) : PaperLedger :=
  fold_left (fun file e => fst (record e file)) es file.

Definition accepted (es : list entry) (rows : list PaperSession) : list PaperSession :=
  fold_left (fun rows e => fst (spec_record e rows)) es rows.

(** Every row's date is after the row's before it, and its total is that row's plus its own result. *)
Fixpoint chained (total : decimal) (rows : list PaperSession) : Prop :=
  match rows with
  | [] => True
  | s :: rows => ps_cumulative_pnl s = dadd total (session_pnl s)
                 ∧ Forall (fun r => session_date s < session_date r) rows
                 ∧ chained (ps_cumulative_pnl s) rows
  end.

Lemma chained_snoc rows : forall total s, chained total rows →
  match list.last rows with Some r => session_date r < session_date s | None => True end →
  ps_cumulative_pnl s = dadd (match list.last rows with Some r => ps_cumulative_pnl r | None => total end) (session_pnl s) →
  chained total (rows ++ [s]).
Proof.
  induction rows as [|r rows IH]; intros total s Hc Hl Hcum; [cbn; by repeat constructor|].
  destruct Hc as (H1 & H2 & H3). cbn [app chained].
  assert (Hlt : session_date r < session_date s).
  { destruct rows as [|r2 rows]; [exact Hl|]. rewrite list.last_cons_cons in Hl.
    destruct (list.last (r2 :: rows)) as [z|] eqn:Ez; [|by apply list.last_None in Ez].
    rewrite List.Forall_forall in H2. assert (Hin : In z (r2 :: rows)).
    { apply list.last_Some in Ez as [l' ->]. apply in_app_iff. right. by left. }
    specialize (H2 _ Hin). unfold date in *. lia. }
  split; [done|]. split; [apply Forall_app; split; [done|by repeat constructor]|].
  apply IH; [done| |].
  - destruct rows as [|r2 rows]; [done|]. by rewrite list.last_cons_cons in Hl.
  - destruct rows as [|r2 rows]; [exact Hcum|]. rewrite list.last_cons_cons in Hcum.
    destruct (list.last (r2 :: rows)) eqn:Ez; [exact Hcum|by apply list.last_None in Ez].
Qed.

Lemma spec_record_chained rows e : chained d0 rows → chained d0 (fst (spec_record e rows)).
Proof.
  intros Hc. unfold spec_record, too_early. destruct (list.last rows) as [r|] eqn:El.
  - destruct (Z.leb_spec (e_session_date e) (session_date r)) as [|Hlt]; [done|]. cbn [fst].
    apply chained_snoc; [done|by rewrite El|]. unfold running_total. by rewrite El.
  - cbn [fst]. apply chained_snoc; [done|by rewrite El|]. unfold running_total. by rewrite El.
Qed.

Lemma chained_total rows : forall total, chained total rows →
  match list.last rows with Some s => ps_cumulative_pnl s | None => total end
  = foldl dadd total (map session_pnl rows).
Proof.
  induction rows as [|r rows IH]; intros total Hc; [done|]. destruct Hc as (H1 & _ & H3). cbn [map foldl].
  rewrite <- H1, <- (IH _ H3). destruct rows as [|r2 rows]; [done|]. rewrite list.last_cons_cons.
  destruct (list.last (r2 :: rows)) eqn:Ez; [done|by apply list.last_None in Ez].
Qed.

Lemma record_all_accepted es : forall rows, dated rows → Forall (fun e => real_date (e_session_date e)) es →
  record_all es (file_of rows) = file_of (accepted es rows) ∧ dated (accepted es rows).
Proof.
  induction es as [|e es IH]; intros rows Hd Hes; [done|]. inversion Hes as [|? ? He Hrest]; subst.
  unfold record_all, accepted. cbn [fold_left]. rewrite record_refines by done. cbn [fst].
  apply IH; [by apply spec_record_dated|done].
Qed.

Lemma accepted_chained es : forall rows, chained d0 rows → chained d0 (accepted es rows).
Proof.
  induction es as [|e es IH]; intros rows Hc; [done|]. cbn [accepted fold_left]. by apply IH, spec_record_chained.
Qed.

(** the ledger file is a faithful, chronological record.  Whatever sessions are recorded, starting
    without a file, the text on disk reads back as exactly the accepted sessions: each is later than
    all before it, so a session run twice is never counted twice, and each total is the previous total
    plus the session's own result.  The profit-and-loss series and the total the decay monitor reads
    are those of the accepted sessions, the total being the [Decimal] sum of the series.  A session
    that is not later than the last raises [PaperLedgerError] and leaves the file untouched; any other
    is appended. *)
Theorem paper_ledger_faithful es e : Forall (fun e => real_date (e_session_date e)) es →
  let file := record_all es None in
  exists rows, ledger_read file = Ok rows ∧ chained d0 rows ∧ rows = accepted es [] ∧
    pnl_series file = Ok (map session_pnl rows) ∧
    cumulative_pnl file = Ok (dsum (map session_pnl rows)) ∧
    record e file = (if too_early rows e then (file, Err PaperLedgerError)
                     else let s := session_of e (dadd (dsum (map session_pnl rows)) (e_session_pnl e)) in
                          (file_of (rows ++ [s]), Ok s)).
Proof.
  intros Hes. destruct (record_all_accepted es [] ltac:(constructor) Hes) as [E Hd].
  change (file_of []) with (@None string) in E. cbn zeta. rewrite E.
  pose proof (accepted_chained es [] I) as Hc. pose proof (chained_total _ _ Hc) as Ht.
  exists (accepted es []). pose proof (read_file _ Hd) as Hr.
  split; [done|]. split; [done|]. split; [done|]. split; [by unfold pnl_series; rewrite Hr|].
  split; [unfold cumulative_pnl; rewrite Hr; cbn [rbind]; by rewrite Ht|].
  rewrite record_refines by done. unfold spec_record. destruct (too_early _ e); [done|]. cbn [fst snd].
  unfold running_total, dsum. by rewrite Ht.
Qed.

(** ** Witnesses: three nights, the second run twice *)
Definition wit_entry (day pnl : Z) : entry := {|
  e_session_date := mk_date 2026 6 day; e_qualified := true; e_contracts := 1;
  e_entry_price := Some (Dec 601225 (-2)); e_exit_price := None; e_session_pnl := Dec pnl (-2);
  e_cost := Dec 420 (-2) |}.

Lemma wit_date day : 1 <= day <= 30 → real_date (mk_date 2026 6 day).
Proof. intros. exists 2026, 6, day. unfold valid_ymd. cbn. lia. Qed.

Definition wit_session : PaperSession := session_of (wit_entry 1 12550) (Dec 12550 (-2)).

Lemma session_roundtrip_witness :
  json_dumps compact_style (to_json wit_session)
    = dq "{'contracts':1,'cost':'4.20','cumulative_pnl':'125.50','entry_price':'6012.25','exit_price':null,'qualified':true,'schema':'futur3.paper_ledger.v1','session_date':'2026-06-01','session_pnl':'125.50'}"
  ∧ parse_line (json_dumps default_style (to_json wit_session)) = Ok wit_session.
Proof.
  split; [vm_compute; reflexivity|]. apply (session_roundtrip wit_session). apply wit_date. lia.
Defined.

Lemma paper_ledger_faithful_witness :
  exists rows, ledger_read (record_all [wit_entry 1 12550; wit_entry 2 (-300); wit_entry 2 (-300)] None) = Ok rows
    ∧ map ps_cumulative_pnl rows = [Dec 12550 (-2); Dec 12250 (-2)].
Proof.
  assert (Hes : Forall (fun e => real_date (e_session_date e)) [wit_entry 1 12550; wit_entry 2 (-300); wit_entry 2 (-300)])
    by (repeat (constructor; [apply wit_date; lia|]); constructor).
  destruct (paper_ledger_faithful _ (wit_entry 3 100) Hes) as (rows & Hr & _ & E & _).
  exists rows. split; [exact Hr|]. rewrite E. vm_compute. reflexivity.
Defined.
