(* ===== verification/Decay.v ===== *)
(** * execution/decay_monitor.py: the forward-paper decay monitor

    Sharpe ratios in binary64, with the built-in compensated [sum]; the drawdown and the total in
    [Decimal]; the verdict.  [x ** 2] on floats is the C library's [pow], a parameter.  The reason
    text is left out. *)

From Stdlib Require Import QArith Lqa.
From S2P Require Import Prelude PyDecimal PyFloat.

#[local] Open Scope Z_scope.

Definition _DEFAULT_PPY : float := f_of_Z 252.
Definition _DEFAULT_ROLLING_WINDOW : Z := 63.
Definition _DEFAULT_MIN_SESSIONS : Z := 21.
Definition _MIN_FOR_SHARPE : nat := 2.

Inductive DecayVerdict := WARMING_UP | HEALTHY | DECAYED.

#[global] Instance DecayVerdict_eq_dec : EqDecision DecayVerdict.
Proof. solve_decision. Defined.

Record DecayStatus := {
  n_sessions : Z;
  ds_cumulative_pnl : decimal;
  full_sharpe : option float;
  rolling_sharpe : option float;
  ds_rolling_window : Z;
  max_drawdown : decimal;
  verdict : DecayVerdict;
}.

Definition healthy (s : DecayStatus) : bool := bool_decide (verdict s = HEALTHY).

(** [math.sqrt] of a float: negative arguments are refused. *)
Definition math_sqrt (x : float) : result float := if fltb x f_zero then Err ValueError else Ok (fsqrt x).

(** [pnl[-w:]] *)
Definition last_slice {A} (w : Z) (l : list A) : list A :=
  if 0 <? w then skipn (length l - Z.to_nat w) l else skipn (Z.to_nat (- w)) l.

Section Monitor.
Context `{Libm}.

Definition _sharpe (pnl : list float) (periods_per_year : float) : result (option float) :=
  let n := length pnl in
  if (n <? _MIN_FOR_SHARPE)%nat then Ok None
  else
    let mean := fdiv (f_sum pnl) (f_of_Z (Z.of_nat n)) in
    let var := fdiv (f_sum (map (fun x => pow (fsub x mean) (f_of_Z 2)) pnl)) (f_of_Z (Z.of_nat n - 1)) in
    if fleb var f_zero then Ok None
    else
      let! sd := math_sqrt var in
      let! ann := math_sqrt periods_per_year in
      Ok (Some (fmul (fdiv mean sd) ann)).

(** The loop of [_max_drawdown]: the peak, the running total and the worst drop so far. *)
Definition drawdown_step (s : decimal * decimal * decimal) (x : decimal) : decimal * decimal * decimal :=
  let '(peak, cum, mdd) := s in
  let cum := dadd cum x in
  let peak := dmax peak cum in
  (peak, cum, dmax mdd (dsub peak cum)).

Definition _max_drawdown (pnl : list decimal) : decimal := snd (fold_left drawdown_step pnl (d0, d0, d0)).

Definition assess_decay (pnl : list decimal) (periods_per_year : float) (rolling_window min_sessions : Z)
    : result DecayStatus :=
  let n := Z.of_nat (length pnl) in
  let cumulative := dsum pnl in
  let! full_sr := _sharpe (map f_of_decimal pnl) periods_per_year in
  let recent := last_slice rolling_window pnl in
  let! rolling_sr := _sharpe (map f_of_decimal recent) periods_per_year in
  let mdd := _max_drawdown pnl in
  let v := if n <? min_sessions then WARMING_UP
           else if dleb cumulative d0
                   || match rolling_sr with Some sr => fleb sr f_zero | None => false end
           then DECAYED else HEALTHY in
  Ok {| n_sessions := n; ds_cumulative_pnl := cumulative; full_sharpe := full_sr;
        rolling_sharpe := rolling_sr; ds_rolling_window := rolling_window; max_drawdown := mdd;
        verdict := v |}.
End Monitor.

(** ** The drawdown *)

(** The running totals, starting with zero. *)
Fixpoint curve (cum : decimal) (pnl : list decimal) : list decimal :=
  cum :: match pnl with [] => [] | x :: pnl => curve (dadd cum x) pnl end.

(** The highest of a non-empty curve. *)
Fixpoint peak_of (peak : decimal) (cs : list decimal) : decimal :=
  match cs with [] => peak | c :: cs => peak_of (dmax peak c) cs end.

(** The drop at session [k]: from the highest total so far to the total after it. *)
Definition drop (pnl : list decimal) (k : nat) : decimal :=
  dsub (peak_of d0 (curve d0 (firstn k pnl))) (dsum (firstn k pnl)).

Lemma curve_snoc pnl x : forall cum, curve cum (pnl ++ [x]) = curve cum pnl ++ [dadd (foldl dadd cum pnl) x].
Proof. induction pnl as [|y pnl IH]; intros cum; [done|]. cbn [app curve foldl]. by rewrite IH. Qed.

Lemma peak_of_snoc cs c : forall peak, peak_of peak (cs ++ [c]) = dmax (peak_of peak cs) c.
Proof. induction cs as [|y cs IH]; intros peak; [done|]. cbn [app peak_of]. by rewrite IH. Qed.

Lemma drawdown_state pnl : exists mdd,
  fold_left drawdown_step pnl (d0, d0, d0) = (peak_of d0 (curve d0 pnl), dsum pnl, mdd).
Proof.
  induction pnl as [|x pnl [mdd IH]] using rev_ind; [by exists d0|].
  rewrite fold_left_app, IH. cbn [fold_left drawdown_step]. unfold dsum.
  rewrite curve_snoc, peak_of_snoc, foldl_snoc. by eexists.
Qed.

Lemma drawdown_snoc pnl x :
  _max_drawdown (pnl ++ [x]) = dmax (_max_drawdown pnl) (drop (pnl ++ [x]) (length (pnl ++ [x]))).
Proof.
  unfold _max_drawdown, drop. rewrite fold_left_app, firstn_all. destruct (drawdown_state pnl) as [mdd E].
  rewrite E. cbn [fold_left drawdown_step snd]. unfold dsum.
  by rewrite curve_snoc, peak_of_snoc, foldl_snoc.
Qed.

Lemma drop_prefix pnl x k : (k <= length pnl)%nat → drop (pnl ++ [x]) k = drop pnl k.
Proof.
  intros Hk. unfold drop. rewrite firstn_app. replace (k - length pnl)%nat with 0%nat by lia.
  by rewrite app_nil_r.
Qed.

Lemma max_drawdown_spec pnl :
  (0 <= dval (_max_drawdown pnl))%Q ∧
  (forall k, (1 <= k <= length pnl)%nat → (dval (drop pnl k) <= dval (_max_drawdown pnl))%Q) ∧
  (_max_drawdown pnl = d0 ∨ exists k, (1 <= k <= length pnl)%nat ∧ _max_drawdown pnl = drop pnl k).
Proof.
  induction pnl as [|x pnl (H0 & Hall & Hat)] using rev_ind.
  - split; [vm_compute; discriminate|]. split; [intros k Hk; cbn in Hk; lia|by left].
  - rewrite drawdown_snoc. destruct (dval_dmax (_max_drawdown pnl) (drop (pnl ++ [x]) (length (pnl ++ [x])))) as [M1 M2].
    rewrite length_app in *. cbn [length] in *. split; [lra|]. split.
    + intros k Hk. destruct (decide (k <= length pnl)%nat) as [Hle|Hgt].
      * rewrite drop_prefix by done. specialize (Hall k ltac:(lia)). lra.
      * assert (k = length pnl + 1)%nat as -> by lia. exact M2.
    + destruct (dmax_cases (_max_drawdown pnl) (drop (pnl ++ [x]) (length pnl + 1))) as [E|E]; rewrite E.
      * destruct Hat as [->|(k & Hk & Ek)]; [by left|]. right. exists k. split; [lia|].
        by rewrite Ek, drop_prefix by lia.
      * right. exists (length pnl + 1)%nat. split; [lia|done].
Qed.

(** what the pre-live health check reports.  Over any recorded series: the total is the ledger's
    running total and the drawdown is the largest drop from a running peak, never negative and never
    smaller than the drop at any session; fewer sessions than the minimum always give WARMING_UP; past
    it, a total that is not positive, or a trailing ratio that is defined and not positive, gives
    DECAYED and nothing else does.  The assessment fails, with [ValueError], only when a ratio is
    defined and the annualisation factor is negative. *)
Theorem assess_decay_spec `{Libm} pnl ppy w m :
  match assess_decay pnl ppy w m with
  | Ok s =>
      ds_cumulative_pnl s = dsum pnl ∧
      (0 <= dval (max_drawdown s))%Q ∧
      (forall k, (1 <= k <= length pnl)%nat → (dval (drop pnl k) <= dval (max_drawdown s))%Q) ∧
      (max_drawdown s = d0 ∨ exists k, (1 <= k <= length pnl)%nat ∧ max_drawdown s = drop pnl k) ∧
      (verdict s = WARMING_UP ↔ Z.of_nat (length pnl) < m) ∧
      (verdict s = DECAYED ↔ m <= Z.of_nat (length pnl)
        ∧ (dcoef (dsum pnl) <= 0 ∨ exists r, rolling_sharpe s = Some r ∧ fleb r f_zero = true)) ∧
      _sharpe (map f_of_decimal (last_slice w pnl)) ppy = Ok (rolling_sharpe s)
  | Err e => e = ValueError ∧ fltb ppy f_zero = true
  end.
Proof.
  assert (Hs : forall l, match _sharpe l ppy with Ok _ => True | Err e => e = ValueError ∧ fltb ppy f_zero = true end).
  { intros l. unfold _sharpe. destruct (_ <? _)%nat; [done|]. destruct (fleb _ f_zero) eqn:Hv; [done|].
    unfold math_sqrt at 1. match goal with |- context [fltb ?v f_zero] => destruct (fltb v f_zero) eqn:Hn end.
    - unfold fltb, fleb, SpecFloat.SFltb, SpecFloat.SFleb in *. destruct (SpecFloat.SFcompare _ f_zero) as [[]|]; done.
    - cbn [rbind]. unfold math_sqrt. destruct (fltb ppy f_zero); done. }
  unfold assess_decay. pose proof (Hs (map f_of_decimal pnl)) as H1.
  pose proof (Hs (map f_of_decimal (last_slice w pnl))) as H2.
  destruct (_sharpe (map f_of_decimal pnl) ppy) as [full|e]; [|exact H1]. cbn [rbind].
  destruct (_sharpe (map f_of_decimal (last_slice w pnl)) ppy) as [roll|e] eqn:Er; [|exact H2].
  cbn [rbind ds_cumulative_pnl max_drawdown verdict rolling_sharpe]. clear H1 H2.
  destruct (max_drawdown_spec pnl) as (D1 & D2 & D3). do 4 (split; [done|]).
  rewrite dleb_0_r. destruct (Z.ltb_spec (Z.of_nat (length pnl)) m) as [Hlt|Hge].
  { split; [done|]. split; [|done]. split; [done|]. intros [? _]. lia. }
  assert (Hb : (dcoef (dsum pnl) <=? 0) || match roll with Some sr => fleb sr f_zero | None => false end = true
    ↔ dcoef (dsum pnl) <= 0 ∨ exists r, roll = Some r ∧ fleb r f_zero = true).
  { rewrite orb_true_iff, Z.leb_le. apply or_iff_compat_l. destruct roll as [r|]; [|naive_solver]. naive_solver. }
  destruct (_ || _).
  - split; [split; [done|lia]|]. split; [|done]. split; [intros _; split; [done|by apply Hb]|done].
  - split; [split; [done|lia]|]. split; [|done]. split; [done|]. intros [_ Hx%Hb]. done.
Qed.

(** A trailing ratio that is undefined does not count against the sleeve: a constant gain is HEALTHY. *)
Module SquareLibm.
#[local] Instance libm : Libm := { log x := x; log10 x := x; pow x y := fmul x x }.

Example undefined_ratio_is_healthy :
  match assess_decay (repeat (Dec 5 0) 21) _DEFAULT_PPY _DEFAULT_ROLLING_WINDOW _DEFAULT_MIN_SESSIONS with
  | Ok s => rolling_sharpe s = None ∧ healthy s = true
  | Err _ => False
  end.
Proof. vm_compute. done. Qed.

Example trailing_loss_is_decayed :
  match assess_decay (repeat (Dec 50 0) 21 ++ [Dec (-1) 0; Dec (-3) 0]) _DEFAULT_PPY 2 _DEFAULT_MIN_SESSIONS with
  | Ok s => verdict s = DECAYED ∧ max_drawdown s = Dec 4 0
  | Err _ => False
  end.
Proof. vm_compute. done. Qed.
End SquareLibm.
