(* ===== verification/Backoff.v ===== *)
(** * futur3/data/sources/backoff_queue.py: the rate-limit gate

    The queue's state is a record; the injected clock and sleep function are an environment [E]
    behind the class [Clock], read and advanced in the order the code does, so that a clock may move
    between two reads.  Times are binary64 floats.  The loop [while True] of [_wait_for_slot] runs
    for a number of iterations given as fuel and says whether it was left; [acquire] as a context
    manager is [with_acquire], around any body. *)

From Stdlib Require Import SpecFloat.
From S2P Require Import Prelude PyDecimal PyText PyFloat.

#[local] Open Scope Z_scope.

(** A [timedelta] is its number of microseconds. *)
Definition timedelta : Type := Z.
Definition total_seconds (t : timedelta) : float := f_of_ratio t 1000000.

Definition DEFAULT_GLOBAL_LIMIT : Z := 60.
Definition DEFAULT_GLOBAL_WINDOW : timedelta := 10 * 60 * 1000000.
Definition DEFAULT_PER_CONTRACT_LIMIT : Z := 5.
Definition DEFAULT_PER_CONTRACT_WINDOW : timedelta := 2 * 1000000.
Definition DEFAULT_CONCURRENT_LIMIT : Z := 50.
Definition DEFAULT_ACQUIRE_TIMEOUT_SECONDS : float := f_of_Z 60.

Record BackoffQueueConfig := {
  global_limit : Z;
  global_window : timedelta;
  per_contract_limit : Z;
  per_contract_window : timedelta;
  concurrent_limit : Z;
  acquire_timeout_seconds : float;
}.

Definition default_config : BackoffQueueConfig := {|
  global_limit := DEFAULT_GLOBAL_LIMIT; global_window := DEFAULT_GLOBAL_WINDOW;
  per_contract_limit := DEFAULT_PER_CONTRACT_LIMIT;
  per_contract_window := DEFAULT_PER_CONTRACT_WINDOW;
  concurrent_limit := DEFAULT_CONCURRENT_LIMIT;
  acquire_timeout_seconds := DEFAULT_ACQUIRE_TIMEOUT_SECONDS |}.

Definition BackoffQueueConfig_post_init (c : BackoffQueueConfig) : result BackoffQueueConfig :=
  guard! global_limit c <=? 0 else ValueError in
  guard! per_contract_limit c <=? 0 else ValueError in
  guard! concurrent_limit c <=? 0 else ValueError in
  guard! fleb (total_seconds (global_window c)) f_zero else ValueError in
  guard! fleb (total_seconds (per_contract_window c)) f_zero else ValueError in
  guard! fleb (acquire_timeout_seconds c) f_zero else ValueError in
  Ok c.

Record BackoffQueue := {
  _config : BackoffQueueConfig;
  _global_log : list float;
  _per_contract_log : dict string (list float);
  _concurrent_count : Z;
}.

Definition new_BackoffQueue (config : option BackoffQueueConfig) : BackoffQueue := {|
  _config := match config with Some c => c | None => default_config end;
  _global_log := []; _per_contract_log := []; _concurrent_count := 0 |}.

(** [MonotonicClock] and [SleepFn]. *)
Class Clock (E : Type) := {
  monotonic : M E float;
  sleep_fn : float -> M E unit;
}.

Section Queue.
Context {E : Type} `{Clock E}.

Definition QState : Type := BackoffQueue * E.

Definition on_env {A} (m : M E A) : M QState A :=
  fun s => let '(e, r) := m (snd s) in ((fst s, e), r).
Definition update (f : BackoffQueue -> BackoffQueue) : M QState unit :=
  modify (fun s => (f (fst s), snd s)).

Definition set_queue (glog : list float) (clog : dict string (list float)) (n : Z) (q : BackoffQueue)
    : BackoffQueue := {|
  _config := _config q; _global_log := glog; _per_contract_log := clog; _concurrent_count := n |}.

(** [while log and log[0] < cutoff: log.popleft()] *)
Fixpoint popleft_before (cutoff : float) (log : list float) : list float :=
  match log with
  | t :: rest => if fltb t cutoff then popleft_before cutoff rest else log
  | [] => []
  end.

(** [self._per_contract_log[contract_key]] of a [defaultdict]. *)
Definition log_of (contract_key : string) (q : BackoffQueue) : list float :=
  dget_or contract_key [] (_per_contract_log q).

Definition _prune_global : M QState unit :=
  now <- on_env monotonic ;;
  update (fun q =>
    set_queue (popleft_before (fsub now (total_seconds (global_window (_config q)))) (_global_log q))
      (_per_contract_log q) (_concurrent_count q) q).

Definition _prune_per_contract (contract_key : string) : M QState unit :=
  now <- on_env monotonic ;;
  update (fun q =>
    set_queue (_global_log q)
      (dset contract_key
         (popleft_before (fsub now (total_seconds (per_contract_window (_config q)))) (log_of contract_key q))
         (_per_contract_log q))
      (_concurrent_count q) q).

(** The wait until the oldest entry of a full log leaves its window. *)
Definition window_candidate (log : list float) (limit : Z) (window : timedelta) (now : float)
    : list float :=
  if limit <=? Z.of_nat (length log)
  then match log with
       | oldest :: _ => [fmax (fsub (fadd oldest (total_seconds window)) now) f_zero]
       | [] => []
       end
  else [].

(** [log[0]] of an empty deque: [IndexError], out of reach when the limit is positive. *)
Definition window_check (log : list float) (limit : Z) : M QState unit :=
  if (limit <=? Z.of_nat (length log)) && match log with [] => true | _ => false end
  then raise IndexError else ret tt.

Definition fifty_ms : float := f_of_ratio 5 100.

Definition _compute_required_sleep (contract_key : string) : M QState float :=
  now <- on_env monotonic ;;
  s <- get ;;
  let q := fst s in
  let c := _config q in
  window_check (_global_log q) (global_limit c) ;;
  window_check (log_of contract_key q) (per_contract_limit c) ;;
  let candidates :=
    window_candidate (_global_log q) (global_limit c) (global_window c) now
    ++ window_candidate (log_of contract_key q) (per_contract_limit c) (per_contract_window c) now
    ++ (if concurrent_limit c <=? _concurrent_count q then [fifty_ms] else []) in
  ret (match candidates with [] => f_zero | x :: rest => max_by fltb x rest end).

(** One iteration of the loop: [true] when the slot is granted. *)
Definition wait_iteration (contract_key : string) (deadline : float) : M QState bool :=
  _prune_global ;;
  _prune_per_contract contract_key ;;
  sleep_secs <- _compute_required_sleep contract_key ;;
  if fleb sleep_secs f_zero then ret true
  else
    now <- on_env monotonic ;;
    if fltb deadline (fadd now sleep_secs) then raise BackoffQueueTimeout
    else on_env (sleep_fn sleep_secs) ;; ret false.

(** [fuel] iterations of [while True]: [false] when the loop was not left. *)
Fixpoint wait_loop (fuel : nat) (contract_key : string) (deadline : float) : M QState bool :=
  match fuel with
  | O => ret false
  | S f =>
      granted <- wait_iteration contract_key deadline ;;
      if granted : bool then ret true else wait_loop f contract_key deadline
  end.

Definition _wait_for_slot (fuel : nat) (contract_key : string) : M QState bool :=
  now <- on_env monotonic ;;
  s <- get ;;
  wait_loop fuel contract_key (fadd now (acquire_timeout_seconds (_config (fst s)))).

Definition _record_acquire (contract_key : string) : M QState unit :=
  now <- on_env monotonic ;;
  update (fun q =>
    set_queue (_global_log q ++ [now])
      (dset contract_key (log_of contract_key q ++ [now]) (_per_contract_log q))
      (_concurrent_count q + 1) q).

Definition _release : M QState unit :=
  update (fun q =>
    if _concurrent_count q <=? 0 then q
    else set_queue (_global_log q) (_per_contract_log q) (_concurrent_count q - 1) q).

(** [try: body finally: finalizer]: the body's outcome stands, a finalizer's error replaces it. *)
Definition try_finally {A} (body : M QState A) (finalizer : M QState unit) : M QState A :=
  fun s => let '(s1, r) := body s in
           let '(s2, f) := finalizer s1 in
           (s2, match f with Ok _ => r | Err e => Err e end).

(** Entering [acquire]: [false] when the loop is still waiting. *)
Definition enter (fuel : nat) (contract_key : string) : M QState bool :=
  lift (reject (String.eqb contract_key "") ValueError) ;;
  granted <- _wait_for_slot fuel contract_key ;;
  if granted : bool then _record_acquire contract_key ;; ret true else ret false.

(** [with queue.acquire(contract_key): body] *)
Definition with_acquire {A} (fuel : nat) (contract_key : string) (body : M QState A)
    : M QState (option A) :=
  granted <- enter fuel contract_key ;;
  if granted : bool then a <- try_finally body _release ;; ret (Some a) else ret None.

Definition global_count : M QState Z :=
  _prune_global ;;
  s <- get ;;
  ret (Z.of_nat (length (_global_log (fst s)))).

Definition per_contract_count (contract_key : string) : M QState Z :=
  _prune_per_contract contract_key ;;
  s <- get ;;
  ret (Z.of_nat (length (log_of contract_key (fst s)))).
End Queue.

(** ** Facts about floats *)
Lemma fltb_trans_0 x y : fltb f_zero x = true → fltb x y = true → fltb f_zero y = true.
Proof.
  unfold fltb, SFltb, f_zero.
  destruct x as [[]|[]| |[] mx ex]; simpl; try done; destruct y as [[]|[]| |[] my ey]; done.
Qed.

Lemma fle_lt_0 x y : fleb x f_zero = true → fltb f_zero y = true → fltb x y = true.
Proof.
  unfold fleb, fltb, SFleb, SFltb, f_zero.
  destruct x as [[]|[]| |[] mx ex]; simpl; try done; destruct y as [[]|[]| |[] my ey]; done.
Qed.

Lemma fleb_not_ltb x : fleb x f_zero = true → fltb f_zero x = false.
Proof.
  unfold fleb, fltb, SFleb, SFltb, f_zero. by destruct x as [[]|[]| |[] mx ex].
Qed.

(** A sign, no sign, or not a number. *)
Lemma fsign_cases x : x = S754_nan ∨ fltb f_zero x = true ∨ fleb x f_zero = true.
Proof. unfold fleb, fltb, SFleb, SFltb, f_zero. destruct x as [[]|[]| |[] mx ex]; auto. Qed.

Lemma max_by_nan l : max_by fltb S754_nan l = S754_nan.
Proof. induction l as [|y l IH]; [done|]. exact IH. Qed.

(** The longest of some waits is not positive: none is. *)
Lemma max_nonpos x l : fleb (max_by fltb x l) f_zero = true →
  Forall (fun c => fltb f_zero c = false) (x :: l).
Proof.
  revert x. induction l as [|y l IH]; intros x Hm.
  { constructor; [|constructor]. by apply fleb_not_ltb. }
  cbn [max_by] in Hm. destruct (fltb x y) eqn:Exy; specialize (IH _ Hm); inversion IH as [|? ? E Hr]; subst.
  - constructor; [|done]. destruct (fltb f_zero x) eqn:Ex; [|done].
    by rewrite (fltb_trans_0 _ _ Ex Exy) in E.
  - constructor; [done|]. constructor; [|done]. destruct (fltb f_zero y) eqn:Ey; [|done].
    destruct (fsign_cases x) as [->|[Hx|Hx]]; [by rewrite max_by_nan in Hm|congruence|].
    by rewrite (fle_lt_0 _ _ Hx Ey) in Exy.
Qed.

(** ** Facts about the gate *)
Section QueueFacts.
Context {E : Type} `{Clock E}.

Definition limits_positive (c : BackoffQueueConfig) : Prop :=
  0 < global_limit c ∧ 0 < per_contract_limit c ∧ 0 < concurrent_limit c.

Lemma post_init_limits c c' : BackoffQueueConfig_post_init c = Ok c' → c' = c ∧ limits_positive c.
Proof.
  unfold BackoffQueueConfig_post_init. intros Hc. inv_ok. unfold limits_positive.
  repeat match goal with Hx : (_ <=? 0) = false |- _ => apply Z.leb_gt in Hx end. done.
Qed.

(** The clock, in state [e], reads [now]. *)
Definition reads (e : E) (now : float) (e' : E) : Prop := monotonic e = (e', Ok now).

Lemma reads_env s now (s' : QState (E := E)) : on_env monotonic s = (s', Ok now) →
  fst s' = fst s ∧ reads (snd s) now (snd s').
Proof.
  unfold on_env, reads. destruct (monotonic (snd s)) as [e r] eqn:Em. by intros [= <- ->].
Qed.

(** [log'] is what is left of [log] at [now]: the entries older than the window are dropped from its
    front, up to the first that is not. *)
Definition live_part (window : timedelta) (now : float) (log log' : list float) : Prop :=
  exists dropped, log = dropped ++ log'
    ∧ (forall t, In t dropped → fltb t (fsub now (total_seconds window)) = true)
    ∧ match log' with
      | [] => True
      | oldest :: _ => fltb oldest (fsub now (total_seconds window)) = false
      end.

Lemma popleft_live w now log : live_part w now log (popleft_before (fsub now (total_seconds w)) log).
Proof.
  induction log as [|t log IH]; [by exists []|]. cbn [popleft_before].
  destruct (fltb t _) eqn:Et; [|by exists []]. destruct IH as (d & Hd & F & Hh). exists (t :: d).
  split; [simpl; by f_equal|]. split; [|done]. intros u [<-|Hu]; auto.
Qed.

Lemma live_suffix w now log log' : live_part w now log log' → log' `suffix_of` log.
Proof. intros (d & -> & _). by exists d. Qed.

(** What waiting does to the queue: the logs lose entries at the front. *)
Definition waits (key : string) (q q' : BackoffQueue) : Prop :=
  _config q' = _config q ∧ _concurrent_count q' = _concurrent_count q
  ∧ _global_log q' `suffix_of` _global_log q ∧ log_of key q' `suffix_of` log_of key q
  ∧ forall k, k ≠ key → log_of k q' = log_of k q.

Definition waiting (key : string) (s s' : QState (E := E)) : Prop := waits key (fst s) (fst s').

#[local] Instance waiting_preorder key : PreOrder (waiting key).
Proof.
  split; [intros s; repeat split; reflexivity|].
  intros a b c (C1 & N1 & G1 & P1 & O1) (C2 & N2 & G2 & P2 & O2). unfold waiting, waits.
  rewrite C1 in *. split_and!; try congruence; [by etrans..|].
  intros k Hk. rewrite O2, O1; done.
Qed.

Lemma on_env_waiting key {A} (m : M E A) : steps (waiting key) (on_env m).
Proof.
  intros s. unfold on_env. destruct (m (snd s)) as [e r]. repeat split; reflexivity.
Qed.

Lemma prune_global_waiting key : steps (waiting key) _prune_global.
Proof.
  unfold _prune_global. apply (steps_bind (waiting key)); [apply on_env_waiting|]. intros now s.
  repeat split; cbn; [eapply live_suffix, popleft_live|reflexivity].
Qed.

Lemma log_of_dset key k l q :
  log_of k (set_queue (_global_log q) (dset key l (_per_contract_log q)) (_concurrent_count q) q)
  = if decide (k = key) then l else log_of k q.
Proof. unfold log_of, dget_or. cbn. rewrite dget_dset. by case_decide. Qed.

Lemma prune_contract_waiting key : steps (waiting key) (_prune_per_contract key).
Proof.
  unfold _prune_per_contract. apply (steps_bind (waiting key)); [apply on_env_waiting|]. intros now s.
  unfold waiting, waits, update, modify. cbn [fst]. split_and!; try reflexivity.
  - rewrite log_of_dset, decide_True by done. eapply live_suffix, popleft_live.
  - intros k Hk. by rewrite log_of_dset, decide_False.
Qed.

(** Room in a window: the log is short, or its oldest entry's window is over at [now]. *)
Definition room (log : list float) (limit : Z) (window : timedelta) (now : float) : Prop :=
  Z.of_nat (length log) < limit ∨
  exists oldest rest, log = oldest :: rest ∧
    fltb f_zero (fsub (fadd oldest (total_seconds window)) now) = false.

Definition slot_free (key : string) (q : BackoffQueue) (now : float) : Prop :=
  let c := _config q in
  room (_global_log q) (global_limit c) (global_window c) now
  ∧ room (log_of key q) (per_contract_limit c) (per_contract_window c) now
  ∧ _concurrent_count q < concurrent_limit c.

Lemma fmax_nonpos x : fltb f_zero (fmax x f_zero) = false → fltb f_zero x = false.
Proof.
  unfold fmax. destruct (fltb x f_zero) eqn:Ex; [|done]. intros _.
  revert Ex. unfold fltb, SFltb, f_zero. by destruct x as [[]|[]| |[] mx ex].
Qed.

Lemma window_candidate_room log limit w now : 0 < limit →
  Forall (fun c => fltb f_zero c = false) (window_candidate log limit w now) → room log limit w now.
Proof.
  intros Hl. unfold window_candidate, room. destruct (Z.leb_spec limit (Z.of_nat (length log))); [|by left].
  destruct log as [|t log]; [simpl in *; lia|]. intros Hf. right. exists t, log. split; [done|].
  inversion Hf. by apply fmax_nonpos.
Qed.

Lemma window_check_Ok l n (s s' : QState (E := E)) u : window_check l n s = (s', Ok u) → s' = s.
Proof. unfold window_check, ret, raise. destruct (_ && _); [done|]. by intros [= <-]. Qed.

(** The required sleep only reads, and a sleep of nothing means a free slot. *)
Lemma required_sleep_spec key s s' x : limits_positive (_config (fst s)) →
  _compute_required_sleep key s = (s', Ok x) →
  fst s' = fst s ∧ exists now, reads (snd s) now (snd s')
    ∧ (fleb x f_zero = true → slot_free key (fst s) now).
Proof.
  intros (Hg & Hp & Hc) Hrun. unfold _compute_required_sleep in Hrun.
  apply bind_Ok in Hrun as (s1 & now & [Es1 Hnow]%reads_env & Hrun).
  apply bind_Ok in Hrun as (s2 & s3 & [= <- <-] & Hrun). rewrite Es1 in Hrun.
  apply bind_Ok in Hrun as (s4 & [] & W1 & Hrun). apply bind_Ok in Hrun as (s5 & [] & W2 & Hrun).
  apply window_check_Ok in W1, W2.
  injection Hrun as <- Hx. subst s5 s4. split; [done|]. exists now. split; [done|]. intros Hle.
  set (q := fst s) in *. unfold slot_free. cbv zeta.
  assert (Hall : Forall (fun c => fltb f_zero c = false)
    (window_candidate (_global_log q) (global_limit (_config q)) (global_window (_config q)) now
     ++ window_candidate (log_of key q) (per_contract_limit (_config q)) (per_contract_window (_config q)) now
     ++ (if concurrent_limit (_config q) <=? _concurrent_count q then [fifty_ms] else []))).
  { subst x. destruct (_ ++ _) as [|y l]; [constructor|]. by apply max_nonpos. }
  apply Forall_app in Hall as [F1 [F2 F3]%Forall_app].
  split_and!; [by apply window_candidate_room..|].
  destruct (Z.leb_spec (concurrent_limit (_config q)) (_concurrent_count q)); [|done].
  inversion F3 as [|? ? F]. by vm_compute in F.
Qed.

Lemma required_sleep_same key : steps (waiting key) (_compute_required_sleep key).
Proof.
  unfold _compute_required_sleep. apply (steps_bind (waiting key)); [apply on_env_waiting|]. intros now.
  apply (steps_bind (waiting key)); [apply (steps_get (waiting key))|]. intros s. cbv zeta.
  assert (Hw : forall l n, steps (waiting key) (window_check l n)).
  { intros l n. unfold window_check. case_match; [apply (steps_raise (waiting key))|apply (steps_ret (waiting key))]. }
  apply (steps_bind (waiting key)); [apply Hw|]. intros _.
  apply (steps_bind (waiting key)); [apply Hw|]. intros _. apply (steps_ret (waiting key)).
Qed.

Lemma iteration_waiting key d : steps (waiting key) (wait_iteration key d).
Proof.
  unfold wait_iteration. apply (steps_bind (waiting key)); [apply prune_global_waiting|]. intros _.
  apply (steps_bind (waiting key)); [apply prune_contract_waiting|]. intros _.
  apply (steps_bind (waiting key)); [apply required_sleep_same|]. intros x.
  destruct (fleb x f_zero); [apply (steps_ret (waiting key))|].
  apply (steps_bind (waiting key)); [apply on_env_waiting|]. intros now.
  destruct (fltb d _); [apply (steps_raise (waiting key))|].
  apply (steps_bind (waiting key)); [apply on_env_waiting|]. intros _. apply (steps_ret (waiting key)).
Qed.

(** The first half of an iteration: with three readings, the two logs lose exactly their expired
    entries, and nothing else changes. *)
Definition scanned (key : string) (s s' : QState (E := E)) (n1 n2 n3 : float) : Prop :=
  let q := fst s in let q' := fst s' in
  (exists e1 e2, reads (snd s) n1 e1 ∧ reads e1 n2 e2 ∧ reads e2 n3 (snd s'))
  ∧ _config q' = _config q ∧ _concurrent_count q' = _concurrent_count q
  ∧ live_part (global_window (_config q)) n1 (_global_log q) (_global_log q')
  ∧ live_part (per_contract_window (_config q)) n2 (log_of key q) (log_of key q')
  ∧ forall k, k ≠ key → log_of k q' = log_of k q.

(** The iterations that sleep: each scans, finds time to wait that ends by the deadline, and sleeps. *)
Inductive sleeps (key : string) (deadline : float) : QState (E := E) → QState (E := E) → Prop :=
| sleeps_none s : sleeps key deadline s s
| sleeps_once s s1 n1 n2 n3 n4 x e4 e5 s' :
    scanned key s s1 n1 n2 n3 → fleb x f_zero = false →
    reads (snd s1) n4 e4 → fltb deadline (fadd n4 x) = false → sleep_fn x e4 = (e5, Ok tt) →
    sleeps key deadline (fst s1, e5) s' → sleeps key deadline s s'.

Lemma sleeps_config key d s s' : sleeps key d s s' → _config (fst s') = _config (fst s).
Proof. induction 1 as [|s0 s1 n1 n2 n3 n4 x e4 e5 s2 (_ & Hc & _) _ _ _ _ _ IH]; [done|]. by rewrite IH. Qed.

Lemma prune_global_run (s s' : QState (E := E)) : _prune_global s = (s', Ok tt) →
  exists n, reads (snd s) n (snd s') ∧
    live_part (global_window (_config (fst s))) n (_global_log (fst s)) (_global_log (fst s'))
    ∧ _per_contract_log (fst s') = _per_contract_log (fst s)
    ∧ _config (fst s') = _config (fst s) ∧ _concurrent_count (fst s') = _concurrent_count (fst s).
Proof.
  intros (s1 & n & [Es Hn]%reads_env & [= <-])%bind_Ok. exists n. cbn. rewrite Es.
  split; [done|]. split; [apply popleft_live|done].
Qed.

Lemma prune_contract_run key (s s' : QState (E := E)) : _prune_per_contract key s = (s', Ok tt) →
  exists n, reads (snd s) n (snd s') ∧
    live_part (per_contract_window (_config (fst s))) n (log_of key (fst s)) (log_of key (fst s'))
    ∧ (forall k, k ≠ key → log_of k (fst s') = log_of k (fst s))
    ∧ _global_log (fst s') = _global_log (fst s)
    ∧ _config (fst s') = _config (fst s) ∧ _concurrent_count (fst s') = _concurrent_count (fst s).
Proof.
  intros (s1 & n & [Es Hn]%reads_env & Hrun)%bind_Ok. injection Hrun as <-. exists n. cbn [fst snd].
  rewrite Es. split; [done|]. split; [|split; [|done]].
  - rewrite log_of_dset, decide_True by done. apply popleft_live.
  - intros k Hk. by rewrite log_of_dset, decide_False.
Qed.

Lemma iteration_run key d s s' g : limits_positive (_config (fst s)) →
  wait_iteration key d s = (s', Ok g) →
  exists s1 n1 n2 n3, scanned key s s1 n1 n2 n3 ∧
  if g then s' = s1 ∧ slot_free key (fst s1) n3
  else fst s' = fst s1 ∧ exists x n4 e4, fleb x f_zero = false ∧ reads (snd s1) n4 e4
         ∧ fltb d (fadd n4 x) = false ∧ sleep_fn x e4 = (snd s', Ok tt).
Proof.
  intros Hl Hrun. unfold wait_iteration in Hrun. apply bind_Ok in Hrun as (s1 & [] & E1 & Hrun).
  apply bind_Ok in Hrun as (s2 & [] & E2 & Hrun). apply bind_Ok in Hrun as (s3 & x & E3 & Hrun).
  apply prune_global_run in E1 as (n1 & R1 & G1 & L1 & C1 & K1).
  apply prune_contract_run in E2 as (n2 & R2 & P2 & O2 & G2 & C2 & K2).
  apply required_sleep_spec in E3 as (Es & n3 & R3 & Hx); [|by rewrite C2, C1].
  assert (El : forall k, log_of k (fst s1) = log_of k (fst s)) by (intros k; unfold log_of; by rewrite L1).
  exists s3, n1, n2, n3. split.
  { unfold scanned. rewrite Es, G2, C2, C1, K2, K1 in *. rewrite El in P2.
    split; [by eauto|]. do 4 (split; [done|]). intros k Hk. rewrite O2 by done. apply El. }
  destruct (fleb x f_zero) eqn:Ex.
  - injection Hrun as <- <-. split; [done|]. rewrite Es. by apply Hx.
  - apply bind_Ok in Hrun as (s4 & n4 & [E4 R4]%reads_env & Hrun). destruct (fltb d _) eqn:Ed; [done|].
    apply bind_Ok in Hrun as (s5 & [] & E5 & Hrun). injection Hrun as <- <-.
    unfold on_env in E5. destruct (sleep_fn x (snd s4)) as [e5 r5] eqn:Esl. injection E5 as <- ->.
    cbn [fst snd]. split; [done|]. by exists x, n4, (snd s4).
Qed.

Lemma loop_waiting key d fuel : steps (waiting key) (wait_loop fuel key d).
Proof.
  induction fuel as [|f IH]; cbn [wait_loop]; [apply (steps_ret (waiting key))|].
  apply (steps_bind (waiting key)); [apply iteration_waiting|]. intros [|]; [apply (steps_ret (waiting key))|exact IH].
Qed.

Lemma loop_granted key d fuel : forall s s', limits_positive (_config (fst s)) →
  wait_loop fuel key d s = (s', Ok true) →
  exists s1 n1 n2 n3, sleeps key d s s1 ∧ scanned key s1 s' n1 n2 n3 ∧ slot_free key (fst s') n3.
Proof.
  induction fuel as [|f IH]; intros s s' Hl; cbn [wait_loop]; [done|].
  intros (s1 & g & (s2 & n1 & n2 & n3 & Hsc & Hg)%iteration_run & Hrun)%bind_Ok; [|done]. destruct g.
  - injection Hrun as <-. destruct Hg as [-> Hfree]. exists s, n1, n2, n3. split; [constructor|done].
  - destruct Hg as (Es & x & n4 & e4 & Hx & Hr & Hd & Hsl). pose proof Hsc as (_ & Hc & _).
    apply IH in Hrun as (s3 & m1 & m2 & m3 & Hs3 & Hrest); [|by rewrite Es, Hc].
    exists s3, m1, m2, m3. split; [|done]. eapply sleeps_once; [done..|].
    rewrite <- Es. by destruct s1.
Qed.

(** ** Theorems *)

Lemma enter_spec fuel key s s' r : enter fuel key s = (s', r) →
  exists q, waits key (fst s) q ∧
  match r with
  | Ok true => exists t, fst s' = set_queue (_global_log q ++ [t])
                           (dset key (log_of key q ++ [t]) (_per_contract_log q))
                           (_concurrent_count q + 1) q
  | _ => fst s' = q
  end.
Proof.
  unfold enter, bind at 1, lift. destruct (String.eqb key ""); cbn [reject].
  { intros [= <- <-]. exists (fst s). split; [|done]. exact (reflexivity (R := waiting key) s). }
  unfold _wait_for_slot, bind, get.
  pose proof (on_env_waiting key monotonic s) as W0.
  destruct (on_env monotonic s) as [s0 [now|e]]; cbn [fst] in W0;
    [|intros [= <- <-]; by exists (fst s0)].
  cbn beta iota zeta.
  set (d := fadd now (acquire_timeout_seconds (_config (fst s0)))).
  pose proof (loop_waiting key d fuel s0) as W1.
  destruct (wait_loop fuel key d s0) as [s1 [granted|e]]; cbn [fst] in W1;
    assert (W : waits key (fst s) (fst s1)) by (exact (transitivity W0 W1));
    [|intros [= <- <-]; by exists (fst s1)].
  destruct granted; [|intros [= <- <-]; by exists (fst s1)].
  unfold _record_acquire, bind, on_env. destruct (monotonic (snd s1)) as [e2 [t|err]].
  - cbn. intros [= <- <-]. exists (fst s1). split; [done|]. by exists t.
  - intros [= <- <-]. by exists (fst s1).
Qed.

(** The oldest entry of the log is on the edge of its window: not older than the window at the
    reading of the pruning, with nothing left of it at the reading of the decision. *)
Definition on_edge (window : timedelta) (n_prune n_decide : float) (log : list float) : Prop :=
  exists oldest rest, log = oldest :: rest
    ∧ fltb oldest (fsub n_prune (total_seconds window)) = false
    ∧ fltb f_zero (fsub (fadd oldest (total_seconds window)) n_decide) = false.

Lemma room_on_edge log0 log limit w n1 n3 : live_part w n1 log0 log → room log limit w n3 →
  Z.of_nat (length log) < limit ∨ on_edge w n1 n3 log.
Proof.
  intros (d & _ & _ & Hh) [Hlt|(t & rest & -> & Hr)]; [by left|]. right. by exists t, rest.
Qed.

(** How [acquire] grants a slot: it reads the clock for its deadline, sleeps through some iterations,
    and in a last one prunes the two logs and finds room under the three limits; then it records the
    time it reads last. *)
Definition granted (key : string) (s s' : QState (E := E)) : Prop :=
  let c := _config (fst s) in
  exists n0 e0 s1 s2 n1 n2 n3 t,
    reads (snd s) n0 e0 ∧ sleeps key (fadd n0 (acquire_timeout_seconds c)) (fst s, e0) s1
    ∧ scanned key s1 s2 n1 n2 n3
    ∧ let q := fst s2 in
      _concurrent_count q < concurrent_limit c
      ∧ (Z.of_nat (length (_global_log q)) < global_limit c
         ∨ on_edge (global_window c) n1 n3 (_global_log q))
      ∧ (Z.of_nat (length (log_of key q)) < per_contract_limit c
         ∨ on_edge (per_contract_window c) n2 n3 (log_of key q))
      ∧ reads (snd s2) t (snd s')
      ∧ fst s' = set_queue (_global_log q ++ [t])
                   (dset key (log_of key q ++ [t]) (_per_contract_log q)) (_concurrent_count q + 1) q.

Lemma enter_granted fuel key s s' : limits_positive (_config (fst s)) → enter fuel key s = (s', Ok true) →
  key ≠ ""%string ∧ granted key s s'.
Proof.
  intros Hl Hrun. unfold enter, bind at 1, lift in Hrun.
  destruct (String.eqb_spec key "") as [|Hk]; cbn [reject] in Hrun; [done|]. split; [done|].
  unfold _wait_for_slot in Hrun. apply bind_Ok in Hrun as (s2 & g & Hw & Hrun).
  apply bind_Ok in Hw as (s0 & n0 & [E0 R0]%reads_env & Hw).
  apply bind_Ok in Hw as (s0' & s0'' & [= <- <-] & Hw). destruct g; [|done].
  apply loop_granted in Hw as (s1 & n1 & n2 & n3 & Hsl & Hsc & Hg & Hp & Hc); [|by rewrite E0].
  apply bind_Ok in Hrun as (s3 & [] & Hrec & [= <-]).
  apply bind_Ok in Hrec as (s4 & t & [E4 R4]%reads_env & Hup). injection Hup as <-.
  assert (Hcfg : _config (fst s2) = _config (fst s)).
  { destruct Hsc as (_ & -> & _). rewrite <- E0. by eapply sleeps_config. }
  exists n0, (snd s0), s1, s2, n1, n2, n3, t. split; [done|].
  split. { rewrite <- E0. by destruct s0. }
  split; [done|].
  destruct Hsc as (_ & Hc1 & _ & G1 & P1 & _). rewrite Hcfg in *. rewrite <- Hc1 in *.
  cbv zeta. split; [done|]. split; [by eapply room_on_edge|]. split; [by eapply room_on_edge|].
  cbn [fst snd]. by rewrite E4.
Qed.

(** A grant takes one place among those in flight, and keeps the limits. *)
Lemma granted_count key s s' : granted key s s' →
  _config (fst s') = _config (fst s) ∧ _concurrent_count (fst s') = _concurrent_count (fst s) + 1.
Proof.
  intros (n0 & e0 & s1 & s2 & n1 & n2 & n3 & t & _ & Hsl & (_ & Hc & Hn & _) & _ & _ & _ & _ & ->). cbn.
  rewrite Hc, Hn. enough (_config (fst s1) = _config (fst s) ∧ _concurrent_count (fst s1) = _concurrent_count (fst s)) as [-> ->] by done.
  clear -Hsl. change (fst s) with (fst (fst s, e0)). set (s0 := (fst s, e0)) in *.
  induction Hsl as [|a b m1 m2 m3 m4 x e4 e5 c (_ & C & N & _) _ _ _ _ _ [IH1 IH2]]; [done|].
  cbn [fst] in IH1, IH2. by rewrite IH1, IH2, C, N.
Qed.

(** C22: what a granted slot guarantees.  Entering [acquire] reads the clock for its deadline, then
    goes through iterations that sleep by the deadline.  Every iteration reads the clock before each
    of its steps and drops from the front of the global log, and of this contract's log, exactly the
    entries older than their window at that reading.  A slot is granted after such a pruning with
    the in-flight count below its limit and each log either shorter than its limit or with its
    oldest entry on the edge of the window (the documented at-most-N in any window can fail there,
    and only there: [Virtual.boundary_burst]); both logs then gain one entry, the time read last, and
    the count goes up by one.  When [acquire] raises or still waits, it has taken nothing: the count
    and the other contracts' logs are as before, and the two logs are what is left of them. *)
Theorem acquire_grants fuel key s s' r :
  limits_positive (_config (fst s)) → enter fuel key s = (s', r) →
  match r with
  | Ok true => key ≠ ""%string ∧ granted key s s'
  | _ => waits key (fst s) (fst s')
  end.
Proof.
  intros Hl Hrun. pose proof (enter_spec _ _ _ _ _ Hrun) as (q0 & W & Hq0).
  destruct r as [[|]|e]; [by eapply enter_granted|by rewrite Hq0..].
Qed.

(** the in-flight count is balanced.  Around any body that gives back what it acquires, a
    [with queue.acquire(key)] leaves the in-flight count as it found it: when the body returns, when
    it raises, when the wait times out, when the key is empty and when the loop is still waiting.
    Inside the body the count is one higher. *)
Theorem acquire_balanced {A} fuel key (body : M (QState (E := E)) A) s s' r :
  (forall s0 s1 o, body s0 = (s1, o) → _concurrent_count (fst s1) = _concurrent_count (fst s0)) →
  limits_positive (_config (fst s)) → 0 <= _concurrent_count (fst s) →
  with_acquire fuel key body s = (s', r) →
  _concurrent_count (fst s') = _concurrent_count (fst s).
Proof.
  intros Hbody Hl Hn. unfold with_acquire, bind at 1.
  destruct (enter fuel key s) as [s1 o] eqn:Ee.
  destruct (enter_spec fuel key s s1 o Ee) as (q & (_ & Hq & _) & Ho).
  destruct o as [[|]|e]; try (intros [= <- <-]; by rewrite Ho, Hq).
  destruct Ho as (t & Hs1). unfold bind, try_finally, _release, update, modify.
  destruct (body s1) as [s2 o2] eqn:Eb. specialize (Hbody _ _ _ Eb). rewrite Hs1 in Hbody. cbn in Hbody.
  assert (Hs2 : forall r2, (match r2 with Ok a => ret (Some a) | Err e => raise e end : M QState (option A))
    (if _concurrent_count (fst s2) <=? 0 then fst s2 else
       set_queue (_global_log (fst s2)) (_per_contract_log (fst s2)) (_concurrent_count (fst s2) - 1) (fst s2),
     snd s2) = (s', r) → _concurrent_count (fst s') = _concurrent_count (fst s)).
  { intros r2. rewrite (proj2 (Z.leb_gt _ 0)) by lia.
    destruct r2; intros [= <- <-]; cbn; lia. }
  destruct o2 as [a|e]; [apply (Hs2 (Ok a))|intros Hx; by apply (Hs2 (Err e))].
Qed.

(** The limits are those of before. *)
Lemma acquire_config {A} fuel key (body : M (QState (E := E)) A) s s' r :
  (forall s0, _config (fst (fst (body s0))) = _config (fst s0)) → limits_positive (_config (fst s)) →
  with_acquire fuel key body s = (s', r) → _config (fst s') = _config (fst s).
Proof.
  intros Hbody Hl. unfold with_acquire, bind at 1. destruct (enter fuel key s) as [s1 o] eqn:Ee.
  destruct (enter_spec fuel key s s1 o Ee) as (q & (Hq & _) & Ho).
  destruct o as [[|]|e]; try (intros [= <- <-]; by rewrite Ho).
  destruct Ho as (t & Hs1). unfold bind, try_finally. specialize (Hbody s1).
  destruct (body s1) as [s2 o2]. rewrite Hs1 in Hbody. cbn in Hbody. rewrite Hq in Hbody.
  unfold _release, update, modify. cbn beta iota zeta.
  destruct o2 as [a|e]; intros [= <- <-]; cbn [fst]; case_match; done.
Qed.

(** C23: acquiring ends.  When time passes - a reading never takes any away, a sleep of a number always
    does, and once none is left any further wait is past the deadline - the loop of [_wait_for_slot] is
    left after at most one iteration more than the time left, with a slot or an exception. *)
Theorem acquire_terminates (left : E -> nat) key deadline s :
  (forall e e' r, monotonic e = (e', r) → (left e' <= left e)%nat) →
  (forall x e e', sleep_fn x e = (e', Ok tt) → (left e' < left e)%nat ∨ left e = 0%nat) →
  (forall e e', sleep_fn S754_nan e ≠ (e', Ok tt)) →
  (forall e e' now x, monotonic e = (e', Ok now) → left e' = 0%nat → fltb f_zero x = true →
     fltb deadline (fadd now x) = true) →
  forall fuel, (left (snd s) < fuel)%nat → snd (wait_loop fuel key deadline s) ≠ Ok false.
Proof.
  intros Hread Hsleep Hnan Hlast.
  assert (Henv : forall k (s s' : QState (E := E)) r, _prune_global s = (s', r) ∨ _prune_per_contract k s = (s', r)
            ∨ (exists x, _compute_required_sleep k s = (s', x)) → (left (snd s') <= left (snd s))%nat).
  { intros k s0 s1 r Hrun.
    destruct (monotonic (snd s0)) as [e m] eqn:Em. pose proof (Hread _ _ _ Em) as Hle.
    destruct Hrun as [Hrun|[Hrun|[x Hrun]]]; revert Hrun;
      unfold _prune_global, _prune_per_contract, _compute_required_sleep, bind, on_env, window_check,
        update, modify, get, ret, raise; rewrite Em; destruct m as [now|er]; cbn;
      repeat (match goal with |- context [if ?b then _ else _] => destruct b end; cbn);
      intros [= <- <-]; done. }
  intros fuel. revert s. induction fuel as [|f IH]; intros s Hf; [lia|]. cbn [wait_loop]. unfold bind at 1.
  destruct (wait_iteration key deadline s) as [s' [[|]|e]] eqn:Ei; [done| |done].
  apply IH. unfold wait_iteration in Ei. apply bind_Ok in Ei as (s1 & [] & E1 & Ei).
  apply bind_Ok in Ei as (s2 & [] & E2 & Ei). apply bind_Ok in Ei as (s3 & x & E3 & Ei).
  pose proof (Henv key s s1 (Ok tt) (or_introl E1)) as L1.
  pose proof (Henv key s1 s2 (Ok tt) (or_intror (or_introl E2))) as L2.
  pose proof (Henv key s2 s3 (Ok tt) (or_intror (or_intror (ex_intro _ _ E3)))) as L3.
  destruct (fleb x f_zero) eqn:Ex; [done|]. apply bind_Ok in Ei as (s4 & now & E4 & Ei).
  unfold on_env in E4. destruct (monotonic (snd s3)) as [e4 m] eqn:Em. injection E4 as <- ->.
  pose proof (Hread _ _ _ Em) as L4. destruct (fltb deadline (fadd now x)) eqn:Ed; [done|].
  apply bind_Ok in Ei as (s5 & [] & E5 & [= <-]). unfold on_env in E5. cbn [snd fst] in E5.
  destruct (sleep_fn x e4) as [e5 m5] eqn:Es. injection E5 as <- ->. cbn [snd].
  destruct (Hsleep _ _ _ Es) as [Hlt|Hz]; [lia|].
  destruct (fsign_cases x) as [->|[Hx|Hx]]; [by apply Hnan in Es| |congruence].
  by rewrite (Hlast _ _ _ _ Em Hz Hx) in Ed.
Qed.
End QueueFacts.

(** ** Witnesses

    A virtual clock, as the tests use: reading leaves it alone, sleeping advances it. *)
Module Virtual.
#[local] Instance clock : Clock float := {
  monotonic := fun t => (t, Ok t);
  sleep_fn := fun seconds t => (fadd t seconds, Ok tt) }.

Definition small_config : BackoffQueueConfig := {|
  global_limit := 60; global_window := DEFAULT_GLOBAL_WINDOW; per_contract_limit := 2;
  per_contract_window := DEFAULT_PER_CONTRACT_WINDOW; concurrent_limit := 50;
  acquire_timeout_seconds := DEFAULT_ACQUIRE_TIMEOUT_SECONDS |}.

Definition start : QState (E := float) := (new_BackoffQueue (Some small_config), f_zero).

(** Three acquisitions in a row: the third waits for the window of the first to be over. *)
Fixpoint acquires (n : nat) (s : QState (E := float)) : QState (E := float) :=
  match n with O => s | S n => acquires n (fst (with_acquire 5 "ESM26" (ret tt) s)) end.

Lemma acquire_grants_witness : exists s',
  enter 5 "ESM26" (acquires 2 start) = (s', Ok true) ∧ snd s' = f_of_Z 2 ∧
  exists q n2 n3 t, _global_log (fst s') = _global_log q ++ [t]
    ∧ (Z.of_nat (length (log_of "ESM26" q)) < 2
       ∨ on_edge DEFAULT_PER_CONTRACT_WINDOW n2 n3 (log_of "ESM26" q)).
Proof.
  eexists. run_as Hrun. split; [vm_compute; reflexivity|].
  destruct (acquire_grants 5 "ESM26" (acquires 2 start) _ _
              ltac:(vm_compute; repeat split; reflexivity) Hrun)
    as (_ & n0 & e0 & s1 & s2 & n1 & n2 & n3 & t & _ & _ & _ & _ & _ & Hroom & _ & Hs').
  exists (fst s2), n2, n3, t. split; [rewrite Hs'; reflexivity|exact Hroom].
Defined.

Lemma acquire_balanced_witness : exists s',
  with_acquire 5 "ESM26" (raise (A := unit) ValueError) (acquires 2 start) = (s', Err ValueError) ∧
  _concurrent_count (fst s') = 0.
Proof.
  eexists. run_as Hrun.
  rewrite (acquire_balanced 5 "ESM26" (raise (A := unit) ValueError) (acquires 2 start) _ _
             ltac:(intros s0 s1 o [= <- <-]; reflexivity)
             ltac:(vm_compute; repeat split; reflexivity) ltac:(vm_compute; discriminate) Hrun).
  vm_compute. reflexivity.
Defined.

(** At the very end of a window the limit does not hold: the oldest entry is not yet dropped but no
    longer makes a caller wait, so any number of requests is granted at that instant, which is
    where a virtual clock's own sleep lands. *)
Lemma boundary_burst :
  let s := acquires 12 start in
  snd s = f_of_Z 2 ∧ length (log_of "ESM26" (fst s)) = 12%nat ∧ per_contract_limit small_config = 2.
Proof. vm_compute. repeat split. Qed.
End Virtual.

(** A clock that counts its sleeps and stops at the end of time. *)
Module Counting.
#[local] Instance clock : Clock nat := {
  monotonic := fun n => (n, Ok (if (n <? 100)%nat then f_of_Z (Z.of_nat n) else S754_infinity false));
  sleep_fn := fun seconds n => if f_isnan seconds then (n, Err ValueError) else (S n, Ok tt) }.

Lemma acquire_terminates_witness :
  snd (wait_loop 101 "ESM26" (f_of_Z 60) (new_BackoffQueue None, 0%nat)) ≠ Ok false.
Proof.
  apply (acquire_terminates (fun n => (100 - n)%nat)).
  - intros e e' r [= <- <-]. reflexivity.
  - intros x e e'. cbn. destruct (f_isnan x); [done|]. intros [= <-]. lia.
  - done.
  - intros e e' now x [= <- <-] Hz. destruct (Nat.ltb_spec e 100); [lia|].
    by destruct x as [[]|[]| |[] mx ex].
  - cbn. lia.
Defined.
End Counting.
