(* ===== verification/Macro.v ===== *)
(** * futur3/data/macro_types.py, data/macro_source.py, events/severity.py: macro events

    The records of scheduled releases and of published values, the point-in-time gate, the guard for
    voided releases, the schedule-drift record and the calendar-only size gate.  Publishers are
    behind the class [MacroEventSource].  A non-finite [Decimal] is not a value of the model, so the
    [is_finite] check of [MacroValue] has nothing to reject. *)

From Stdlib Require Import QArith.
From S2P Require Import Prelude PyDecimal PyText PyTime Types PyFloat.

#[local] Open Scope Z_scope.

Inductive MacroSeries :=
| NFP | CPI | PPI | GDP_ADVANCE | GDP_SECOND | GDP_THIRD | PCE | RETAIL_SALES | HOUSING_STARTS
| JOBLESS_CLAIMS | ISM_MFG | ISM_SERVICES | JOLTS | CONSUMER_CONF | FOMC_STATEMENT
| FOMC_PRESS_CONF | FOMC_MINUTES | BEIGE_BOOK.

#[global] Instance MacroSeries_eq_dec : EqDecision MacroSeries.
Proof. solve_decision. Defined.

(** The enumeration in its order, and the text of its members. *)
Definition all_series : list MacroSeries :=
  [NFP; CPI; PPI; GDP_ADVANCE; GDP_SECOND; GDP_THIRD; PCE; RETAIL_SALES; HOUSING_STARTS;
   JOBLESS_CLAIMS; ISM_MFG; ISM_SERVICES; JOLTS; CONSUMER_CONF; FOMC_STATEMENT; FOMC_PRESS_CONF;
   FOMC_MINUTES; BEIGE_BOOK].

Definition MacroSeries_value (s : MacroSeries) : string :=
  match s with
  | NFP => "NFP"
  | CPI => "CPI"
  | PPI => "PPI"
  | GDP_ADVANCE => "GDP_ADVANCE"
  | GDP_SECOND => "GDP_SECOND"
  | GDP_THIRD => "GDP_THIRD"
  | PCE => "PCE"
  | RETAIL_SALES => "RETAIL_SALES"
  | HOUSING_STARTS => "HOUSING_STARTS"
  | JOBLESS_CLAIMS => "JOBLESS_CLAIMS"
  | ISM_MFG => "ISM_MFG"
  | ISM_SERVICES => "ISM_SERVICES"
  | JOLTS => "JOLTS"
  | CONSUMER_CONF => "CONSUMER_CONF"
  | FOMC_STATEMENT => "FOMC_STATEMENT"
  | FOMC_PRESS_CONF => "FOMC_PRESS_CONF"
  | FOMC_MINUTES => "FOMC_MINUTES"
  | BEIGE_BOOK => "BEIGE_BOOK"
  end.

Inductive MacroPublisher := BLS | BEA | CENSUS | DOL | FED | ISM | CONFERENCE_BOARD | FRED.

(** [time(h, m)] as microseconds of the day. *)
Definition time_of (h m : Z) : Z := (h * 60 + m) * 60 * 1000000.

(** The time-zone database's New York: the offset from UTC, in seconds, of a wall-clock time and of an
    instant.  The zone has had two offsets since 1967. *)
Class EasternTime := {
  et_offset : Z -> Z;
  et_utc_offset : Z -> Z;
}.
Class EasternTimeLaws `{EasternTime} := {
  et_offset_range : forall t, et_offset t = -18000 ∨ et_offset t = -14400;
  et_utc_offset_range : forall t, et_utc_offset t = -18000 ∨ et_utc_offset t = -14400;
}.

(** [datetime.combine(d, t, tzinfo=ET)] and [t.astimezone(ET).date()]. *)
Definition et_combine `{EasternTime} (d : date) (t : Z) : datetime :=
  DT (d * us_per_day + t) (Some (et_offset (d * us_per_day + t))).
Definition et_date `{EasternTime} (t : datetime) : date :=
  (dt_instant t + et_utc_offset (dt_instant t) * 1000000) / us_per_day.

Definition RELEASE_TIME_ET (s : MacroSeries) : Z :=
  match s with
  | NFP | CPI | PPI | GDP_ADVANCE | GDP_SECOND | GDP_THIRD | PCE | RETAIL_SALES | HOUSING_STARTS
  | JOBLESS_CLAIMS => time_of 8 30
  | ISM_MFG | ISM_SERVICES | JOLTS | CONSUMER_CONF => time_of 10 0
  | FOMC_STATEMENT | FOMC_MINUTES | BEIGE_BOOK => time_of 14 0
  | FOMC_PRESS_CONF => time_of 14 30
  end.

Record MacroEvent := {
  me_event_id : string;
  me_series : MacroSeries;
  me_publisher : MacroPublisher;
  me_release_date : date;
  me_release_time_et : datetime;
  me_source_url : string;
  me_originally_scheduled : datetime;
  me_content_bytes_sha : string;
  me_embargo_window_min : Z;
  me_actual_publication_iso : option datetime;
}.

(** [if x is not None: _assert_tz_aware(x, ...)] *)
Definition aware_if_set (t : option datetime) : result unit :=
  match t with Some t => _assert_tz_aware t | None => Ok tt end.

Definition MacroEvent_post_init (e : MacroEvent) : result MacroEvent :=
  let! _ := _assert_tz_aware (me_release_time_et e) in
  let! _ := _assert_tz_aware (me_originally_scheduled e) in
  let! _ := aware_if_set (me_actual_publication_iso e) in
  guard! String.eqb (me_event_id e) "" else ValueError in
  guard! String.eqb (me_source_url e) "" else ValueError in
  guard! me_embargo_window_min e <? 0 else ValueError in
  guard! hex_length_bad (me_content_bytes_sha e) else ValueError in
  Ok e.

Definition is_published (e : MacroEvent) : bool :=
  match me_actual_publication_iso e with Some _ => true | None => false end.

Record MacroValue := {
  mv_event_id : string;
  mv_series : MacroSeries;
  mv_as_of_date : date;
  mv_value_known_at_iso : datetime;
  mv_source_id : string;
  mv_as_of_iso : datetime;
  mv_content_bytes_sha : string;
  mv_value : option decimal;
  mv_is_shutdown_void : bool;
  mv_vintage_as_of : option date;
}.

Definition MacroValue_post_init (v : MacroValue) : result MacroValue :=
  let! _ := _assert_tz_aware (mv_value_known_at_iso v) in
  let! _ := _assert_tz_aware (mv_as_of_iso v) in
  guard! String.eqb (mv_event_id v) "" else ValueError in
  let! _ := (if mv_is_shutdown_void v
             then reject (match mv_value v with Some _ => true | None => false end) ValueError
             else reject (match mv_value v with Some _ => false | None => true end) ValueError) in
  guard! hex_length_bad (mv_content_bytes_sha v) else ValueError in
  Ok v.

(** ** Schedule drift *)
Inductive DriftKind := MOVED | CANCELLED | ADDED.

#[global] Instance DriftKind_eq_dec : EqDecision DriftKind.
Proof. solve_decision. Defined.

Record ScheduleDrift := {
  sd_series : MacroSeries;
  sd_event_id : string;
  sd_kind : DriftKind;
  sd_stored_release_time_et : option datetime;
  sd_current_release_time_et : option datetime;
}.

Definition is_set {A} (o : option A) : bool := match o with Some _ => true | None => false end.

Definition ScheduleDrift_post_init (d : ScheduleDrift) : result ScheduleDrift :=
  guard! String.eqb (sd_event_id d) "" else ValueError in
  let! _ := aware_if_set (sd_stored_release_time_et d) in
  let! _ := aware_if_set (sd_current_release_time_et d) in
  guard! bool_decide (sd_kind d = CANCELLED) && is_set (sd_current_release_time_et d) else ValueError in
  guard! bool_decide (sd_kind d = ADDED) && is_set (sd_stored_release_time_et d) else ValueError in
  guard! bool_decide (sd_kind d = MOVED)
         && (negb (is_set (sd_stored_release_time_et d)) || negb (is_set (sd_current_release_time_et d)))
    else ValueError in
  Ok d.

(** ** The point-in-time gate and the void guard *)
Definition enforce_pit_gate (value : option MacroValue) (as_of_iso : datetime)
    : result (option MacroValue) :=
  let! _ := _assert_tz_aware as_of_iso in
  match value with
  | None => Ok None
  | Some v => if dt_ltb as_of_iso (mv_value_known_at_iso v) then Ok None else Ok value
  end.

Definition require_value (mv : MacroValue) : result decimal :=
  if mv_is_shutdown_void mv then Err ShutdownVoidError
  else match mv_value mv with None => Err ShutdownVoidError | Some x => Ok x end.

(** The publisher seam, with the defaults of the base class as ordinary values. *)
Class MacroEventSource (S : Type) := {
  ms_source_id : S -> string;
  ms_tier : S -> SourceTier;
  upcoming_events : S -> datetime -> datetime -> result (list MacroEvent);
  fetch_value : S -> string -> datetime -> result (option MacroValue);
  schedule_drift_check : S -> result (list ScheduleDrift);
  ms_healthcheck : S -> bool;
}.

Definition default_schedule_drift_check : result (list ScheduleDrift) := Ok [].
Definition default_healthcheck : bool := true.

(** What [fetch_value] documents: it answers through the gate, with constructed values. *)
Class MacroEventSourceLaws (S : Type) `{MacroEventSource S} := {
  fetch_gated : forall s id as_of v, fetch_value s id as_of = Ok (Some v) →
    enforce_pit_gate (Some v) as_of = Ok (Some v);
  fetch_constructed : forall s id as_of v, fetch_value s id as_of = Ok (Some v) →
    MacroValue_post_init v = Ok v;
}.

(** ** Severity and the size gate *)
Inductive EventSeverity := RELEASED | LOW | MEDIUM | HIGH | CRITICAL.

#[global] Instance EventSeverity_eq_dec : EqDecision EventSeverity.
Proof. solve_decision. Defined.

Definition SERIES_SEVERITY (s : MacroSeries) : option EventSeverity :=
  match s with
  | FOMC_STATEMENT => Some CRITICAL
  | CPI | NFP => Some HIGH
  | JOBLESS_CLAIMS => Some MEDIUM
  | _ => None
  end.

Definition f_half : float := f_of_ratio 1 2.

Definition TIER_MULTIPLIER (s : EventSeverity) : float :=
  match s with CRITICAL | HIGH => f_half | MEDIUM | LOW | RELEASED => f_one end.

Definition calendar_severity (series : MacroSeries) : EventSeverity :=
  match SERIES_SEVERITY series with Some s => s | None => LOW end.

Definition severity_multiplier (severity : EventSeverity) : float := TIER_MULTIPLIER severity.

Record CalendarEvent := { ce_series : MacroSeries; ce_release_date : date }.
Definition EventCalendar : Type := list CalendarEvent.

(** Is the event one the window of [ref_date] looks at? *)
Definition in_gate (ref_date : date) (days_lo days_hi : Z) (exclude : list MacroSeries)
    (e : CalendarEvent) : bool :=
  negb (bool_decide (ce_series e ∈ exclude))
  && (days_lo <=? ce_release_date e - ref_date) && (ce_release_date e - ref_date <=? days_hi).

Definition multiplier (calendar : EventCalendar) (ref_date : date) (days_lo days_hi : Z)
    (exclude : list MacroSeries) : float :=
  fold_left (fun mult e =>
    if in_gate ref_date days_lo days_hi exclude e
    then fmin mult (severity_multiplier (calendar_severity (ce_series e)))
    else mult) calendar f_one.

Definition apply_gate (returns : dict date float) (calendar : EventCalendar) (days_lo days_hi : Z)
    (exclude : list MacroSeries) : dict date float :=
  map (fun dr => (fst dr, fmul (snd dr) (multiplier calendar (fst dr) days_lo days_hi exclude))) returns.

(** ** Facts *)
Definition MacroValue_wf (v : MacroValue) : Prop :=
  dt_naive (mv_value_known_at_iso v) = false ∧ dt_naive (mv_as_of_iso v) = false
  ∧ (mv_is_shutdown_void v = true ↔ mv_value v = None)
  ∧ String.length (mv_content_bytes_sha v) = SHA256_HEX_LENGTH.

Lemma MacroValue_post_init_Ok v v' : MacroValue_post_init v = Ok v' → v' = v ∧ MacroValue_wf v.
Proof.
  unfold MacroValue_post_init, _assert_tz_aware.
  intros ([] & Hk%reject_Ok & ([] & Ha%reject_Ok & ([] & _ & ([] & Hv & ([] & Hh%reject_Ok & [= <-])
    %rbind_Ok)%rbind_Ok)%rbind_Ok)%rbind_Ok)%rbind_Ok.
  split; [done|]. do 2 (split; [done|]). split.
  - destruct (mv_is_shutdown_void v), (mv_value v); apply reject_Ok in Hv; first [discriminate|split; intros; congruence].
  - unfold hex_length_bad in Hh. apply negb_false_iff, Nat.eqb_eq in Hh. exact Hh.
Qed.

(** no macro value is seen before it is published, and a release that does not exist is never
    read as a number.  Whatever a publisher that answers through the gate returns for an instant was
    known at or before it; a naive instant is refused; and reading the value raises
    [ShutdownVoidError] exactly when the release was voided, and returns the published number
    otherwise. *)
Theorem macro_pit_safe {S} `{MacroEventSourceLaws S} (src : S) id as_of v :
  fetch_value src id as_of = Ok (Some v) →
  dt_leb (mv_value_known_at_iso v) as_of = true ∧ dt_naive as_of = false ∧
  (if mv_is_shutdown_void v then require_value v = Err ShutdownVoidError
   else exists x, mv_value v = Some x ∧ require_value v = Ok x).
Proof.
  intros Hf. pose proof (fetch_gated _ _ _ _ Hf) as Hg. pose proof (fetch_constructed _ _ _ _ Hf) as Hc.
  apply MacroValue_post_init_Ok in Hc as [_ (_ & _ & Hv & _)].
  unfold enforce_pit_gate, _assert_tz_aware in Hg. apply rbind_Ok in Hg as ([] & Hn%reject_Ok & Hg).
  split; [|split; [done|]].
  - unfold dt_ltb in Hg. unfold dt_leb. destruct (Z.ltb_spec (dt_instant as_of) (dt_instant (mv_value_known_at_iso v))); [done|].
    by apply Z.leb_le.
  - unfold require_value. destruct (mv_is_shutdown_void v); [done|].
    destruct (mv_value v) as [x|]; [by exists x|]. discriminate (proj2 Hv eq_refl).
Qed.

(** Is it one of the series that halve the size? *)
Definition tier1 (s : MacroSeries) : bool :=
  match s with FOMC_STATEMENT | CPI | NFP => true | _ => false end.

Lemma multiplier_step s : severity_multiplier (calendar_severity s) = if tier1 s then f_half else f_one.
Proof. by destruct s. Qed.

Lemma multiplier_cases (calendar : EventCalendar) ref lo hi exclude :
  multiplier calendar ref lo hi exclude
  = if existsb (fun e => in_gate ref lo hi exclude e && tier1 (ce_series e)) calendar
    then f_half else f_one.
Proof.
  unfold multiplier.
  assert (Hg : forall b, fold_left (fun mult e =>
      if in_gate ref lo hi exclude e
      then fmin mult (severity_multiplier (calendar_severity (ce_series e))) else mult)
      calendar (if b : bool then f_half else f_one)
    = if b || existsb (fun e => in_gate ref lo hi exclude e && tier1 (ce_series e)) calendar
      then f_half else f_one).
  { induction calendar as [|e l IH]; intros b; cbn [fold_left existsb]; [by rewrite orb_false_r|].
    rewrite multiplier_step. destruct (in_gate ref lo hi exclude e); cbn [andb]; [|apply IH].
    assert (E : fmin (if b then f_half else f_one) (if tier1 (ce_series e) then f_half else f_one)
                = if b || tier1 (ce_series e) then f_half else f_one).
    { destruct b, (tier1 (ce_series e)); vm_compute; reflexivity. }
    rewrite E. clear E. rewrite !IH. by rewrite orb_assoc. }
  apply (Hg false).
Qed.

(** the calendar gate halves exactly the returns of event days.  The gate keeps every date; the
    return of a date is multiplied by one half when some event that is not excluded, of a series
    ranked HIGH or CRITICAL, is released between [days_lo] and [days_hi] days from it, and by one
    otherwise, so the size is never raised and never cut to nothing. *)
Theorem apply_gate_spec returns calendar lo hi exclude :
  dkeys (apply_gate returns calendar lo hi exclude) = dkeys returns ∧
  forall d r, dget d returns = Some r →
  exists m, dget d (apply_gate returns calendar lo hi exclude) = Some (fmul r m) ∧
  (m = f_half ∧ (exists e, In e calendar ∧ tier1 (ce_series e) = true ∧ ce_series e ∉ exclude
                  ∧ lo <= ce_release_date e - d <= hi)
   ∨ m = f_one ∧ forall e, In e calendar → ce_series e ∉ exclude →
                  lo <= ce_release_date e - d <= hi → tier1 (ce_series e) = false).
Proof.
  split; [unfold dkeys, apply_gate; by rewrite map_map|]. intros d r Hr.
  exists (multiplier calendar d lo hi exclude). split.
  { induction returns as [|[d' r'] returns IH]; [done|]. cbn in Hr |- *.
    repeat case_decide; [congruence|by apply IH]. }
  rewrite multiplier_cases.
  destruct (existsb _ calendar) eqn:Ex; [left|right]; (split; [done|]).
  - apply existsb_exists in Ex as (e & Hin & [Hg Ht]%andb_true_iff). exists e.
    unfold in_gate in Hg. apply andb_true_iff in Hg as [[Hx Hlo%Z.leb_le]%andb_true_iff Hhi%Z.leb_le].
    apply negb_true_iff, bool_decide_eq_false in Hx. split_and!; done.
  - intros e Hin Hx Hw. destruct (tier1 (ce_series e)) eqn:Ht; [|done].
    rewrite <- Ex. symmetry. apply existsb_exists. exists e. split; [done|].
    unfold in_gate. rewrite Ht, andb_true_r, bool_decide_eq_false_2 by done. cbn [negb andb].
    apply andb_true_iff. rewrite !Z.leb_le. lia.
Qed.

(** ** Witnesses *)
Definition wit_sha : string := String.concat "" (repeat "0123456789abcdef"%string 4).

Definition wit_nfp (void : bool) : MacroValue := {|
  mv_event_id := "NFP_2025_10"; mv_series := NFP; mv_as_of_date := mk_date 2025 10 1;
  mv_value_known_at_iso := mk_datetime 2025 11 7 13 30 0 0 (Some 0); mv_source_id := "bls";
  mv_as_of_iso := mk_datetime 2025 11 8 0 0 0 0 (Some 0); mv_content_bytes_sha := wit_sha;
  mv_value := if void then None else Some (Dec 150 0); mv_is_shutdown_void := void;
  mv_vintage_as_of := None |}.

(** A publisher of one release. *)
Module OneRelease.
#[local] Instance source : MacroEventSource bool := {
  ms_source_id s := "bls"; ms_tier s := T2_MACRO; upcoming_events s a b := Ok [];
  fetch_value s id as_of := enforce_pit_gate (Some (wit_nfp s)) as_of;
  schedule_drift_check s := default_schedule_drift_check; ms_healthcheck s := default_healthcheck }.

#[local] Instance source_laws : MacroEventSourceLaws bool.
Proof.
  constructor; cbn; intros s id as_of v; unfold enforce_pit_gate;
    (destruct (_assert_tz_aware as_of); cbn [rbind]; [|done]);
    destruct (dt_ltb as_of _) eqn:E; try done; intros [= <-]; [by rewrite E|by destruct s].
Qed.

Lemma macro_pit_safe_witness :
  require_value (wit_nfp true) = Err ShutdownVoidError ∧
  fetch_value true "NFP_2025_10" (mk_datetime 2025 11 7 13 29 59 0 (Some 0)) = Ok None.
Proof.
  split; [|vm_compute; reflexivity].
  assert (E : fetch_value true "NFP_2025_10" (mk_datetime 2025 11 7 13 30 0 0 (Some 0))
              = Ok (Some (wit_nfp true))) by (vm_compute; reflexivity).
  destruct (macro_pit_safe true _ _ _ E) as (_ & _ & Hv). exact Hv.
Defined.
End OneRelease.
