(* ===== verification/Sessions.v ===== *)
(** * timeframe.py and intraday_session.py: sampling frequencies and the cash session

    The annualization factor of a bar resolution, in binary64 arithmetic, and the wall-clock windows
    of New York, whose offset from UTC is the class [EasternTime].  A time of day is a number of
    microseconds. *)

From S2P Require Import Prelude PyDecimal PyText PyTime PyFloat Types Macro.

#[local] Open Scope Z_scope.

(** ** timeframe.py *)
Definition RTH_HOURS : float := f_of_decimal (Dec 65 (-1)).
Definition GLOBEX_EQUITY_HOURS : float := f_of_Z 23.
Definition GLOBEX_ENERGY_HOURS : float := f_of_Z 22.
Definition CRYPTO_HOURS : float := f_of_Z 24.
Definition TRADING_DAYS_PER_YEAR : Z := 252.
Definition CRYPTO_DAYS_PER_YEAR : Z := 365.

Definition _BARS_PER_HOUR : dict BarResolution float :=
  [ (SEC_1, f_of_Z 3600); (SEC_5, f_of_Z 720); (MIN_1, f_of_Z 60); (MIN_5, f_of_Z 12); (MIN_15, f_of_Z 4);
    (HOUR_1, f_of_Z 1) ].

Definition resolve_ppy (resolution : BarResolution) (hours_per_session sessions_per_year : float) : result float :=
  guard! fleb hours_per_session f_zero else ValueError in
  guard! fleb sessions_per_year f_zero else ValueError in
  if bool_decide (resolution ∈ [DAY_1; SETTLE]) then Ok sessions_per_year
  else
    let! bars_per_hour := of_option (dget resolution _BARS_PER_HOUR) ValueError in
    Ok (fmul (fmul sessions_per_year hours_per_session) bars_per_hour).

(** ** intraday_session.py *)
Definition RTH_OPEN : Z := time_of 9 30.
Definition RTH_CLOSE : Z := time_of 16 0.

Section Session.
Context `{EasternTime}.

Definition to_et (ts : datetime) : result datetime :=
  guard! dt_naive ts else IntradaySessionError in
  let off := et_utc_offset (dt_instant ts) in
  Ok (DT (dt_instant ts + off * 1000000) (Some off)).

Definition et_time (ts : datetime) : result Z := let! t := to_et ts in Ok (dt_time t).
Definition session_date (ts : datetime) : result date := let! t := to_et ts in Ok (dt_date t).

Definition in_window (ts : datetime) (start end_ : Z) : result bool :=
  let! t := et_time ts in
  Ok (if start <=? end_ then (start <=? t) && (t <? end_) else (start <=? t) || (t <? end_)).

Definition is_rth (ts : datetime) : result bool := in_window ts RTH_OPEN RTH_CLOSE.
End Session.

(** ** Facts *)
Section Facts.
Context `{EasternTime}.

(** The same instant, written in any zone, is in the same session. *)
Lemma to_et_instant ts t : to_et ts = Ok t → dt_instant t = dt_instant ts ∧ dt_naive t = false.
Proof.
  unfold to_et. intros (_ & _ & [= <-])%rbind_Ok. split; [|done]. unfold dt_instant at 1. cbn [dt_local dt_off]. lia.
Qed.

(** A window and the one from its end to its start split the day: every instant is in exactly one of
    the two, and an empty window has no complement. *)
Lemma window_complement ts start end_ : start ≠ end_ → 
  in_window ts end_ start = (let! b := in_window ts start end_ in Ok (negb b)).
Proof.
  intros Hne. unfold in_window. destruct (et_time ts) as [t|e]; [|done]. cbn [rbind]. f_equal.
  destruct (Z.leb_spec start end_), (Z.leb_spec end_ start); try lia;
    destruct (Z.leb_spec start t), (Z.ltb_spec t end_), (Z.leb_spec end_ t), (Z.ltb_spec t start); cbn; try done; lia.
Qed.

(** the cash session.  A naive instant is refused; an aware one is in the regular session of a day
    exactly when its New York wall clock lies from 09:30 up to, and not including, 16:00 of that day;
    a window and the one from its end back to its start split the day between them; and over a year of
    sessions the annualization factor of every resolution that divides the session is the number of
    its bars. *)
Theorem cash_session ts day :
  (dt_naive ts = true → is_rth ts = Err IntradaySessionError ∧ session_date ts = Err IntradaySessionError) ∧
  (dt_naive ts = false →
     let wall := dt_instant ts + et_utc_offset (dt_instant ts) * 1000000 in
     (is_rth ts = Ok true ∧ session_date ts = Ok day ↔
        day * us_per_day + RTH_OPEN <= wall < day * us_per_day + RTH_CLOSE)) ∧
  (forall start end_, start ≠ end_ → in_window ts end_ start = (let! b := in_window ts start end_ in Ok (negb b))) ∧
  (forall r step, In (r, step) [(SEC_1, 1); (SEC_5, 5); (MIN_1, 60); (MIN_5, 300); (MIN_15, 900)] →
     resolve_ppy r RTH_HOURS (f_of_Z TRADING_DAYS_PER_YEAR)
       = Ok (f_of_Z (TRADING_DAYS_PER_YEAR * ((RTH_CLOSE - RTH_OPEN) / (step * 1000000))))).
Proof.
  split; [|split; [|split]].
  - intros Hn. unfold is_rth, in_window, session_date, et_time, to_et. by rewrite Hn.
  - intros Hn wall. unfold is_rth, in_window, session_date, et_time, to_et. rewrite Hn. cbn [reject rbind].
    unfold dt_time, dt_date. cbn [dt_local]. fold wall. clearbody wall.
    change (RTH_OPEN <=? RTH_CLOSE) with true. cbn iota. unfold us_per_day.
    change RTH_OPEN with 34200000000. change RTH_CLOSE with 57600000000.
    assert (Hok : forall A (a b : A), Ok a = Ok b ↔ a = b) by (split; congruence).
    rewrite !Hok, andb_true_iff, Z.leb_le, Z.ltb_lt. Z.to_euclidean_division_equations. lia.
  - intros start end_. apply window_complement.
  - intros r step [[= <- <-]|[[= <- <-]|[[= <- <-]|[[= <- <-]|[[= <- <-]|[]]]]]]; vm_compute; reflexivity.
Qed.
End Facts.

(** The resolutions of a session or longer, and the checks. *)
Example ppy_daily : resolve_ppy DAY_1 RTH_HOURS (f_of_Z 252) = Ok (f_of_Z 252).
Proof. vm_compute. reflexivity. Qed.
Example ppy_hourly : resolve_ppy HOUR_1 RTH_HOURS (f_of_Z 252) = Ok (f_of_Z 1638).
Proof. vm_compute. reflexivity. Qed.
Example ppy_no_hours : resolve_ppy MIN_5 f_zero (f_of_Z 252) = Err ValueError.
Proof. vm_compute. reflexivity. Qed.
