(* ===== verification/Cot.v ===== *)
(** * futur3/data/cot_types.py and data/cot_source.py: Commitment-of-Traders reports

    The weekly report with its checks, the publication moment of a snapshot, the point-in-time gate
    and the concrete accessor [reports_known_at] over any source's [fetch_reports].  The UTC offset
    of New York at a wall-clock time comes from the time-zone database: it is the class
    [EasternTime] of [Macro]. *)

From S2P Require Import Prelude PyDecimal PyText PyTime Types Macro.

#[local] Open Scope Z_scope.

Inductive COTReportFlavor := LEGACY | DISAGGREGATED | TFF | SUPPLEMENTAL.

#[global] Instance COTReportFlavor_eq_dec : EqDecision COTReportFlavor.
Proof. solve_decision. Defined.

Record COTContractSpec := {
  cs_root : string;
  cs_flavor : COTReportFlavor;
  cs_market_code : string;
  cs_crypto_thin : bool;
}.

Definition COTContractSpec_post_init (s : COTContractSpec) : result COTContractSpec :=
  guard! String.eqb (cs_root s) "" else ValueError in
  guard! String.eqb (cs_market_code s) "" else ValueError in
  Ok s.

Definition COT_CONTRACT_SPECS : dict string COTContractSpec :=
  let spec root flavor code thin := (root, {|
    cs_root := root; cs_flavor := flavor; cs_market_code := code; cs_crypto_thin := thin |}) in
  [ spec "ES" TFF "13874A" false; spec "NQ" TFF "209742" false;
    spec "CL" DISAGGREGATED "067651" false; spec "GC" DISAGGREGATED "088691" false;
    spec "MBT" TFF "133741" true; spec "MET" TFF "146021" true ]%string.

Record COTReport := {
  cr_market_code : string;
  cr_flavor : COTReportFlavor;
  cr_report_date : date;
  cr_value_known_at_iso : datetime;
  cr_open_interest_all : Z;
  cr_spec_long : Z;
  cr_spec_short : Z;
  cr_comm_long : Z;
  cr_comm_short : Z;
  cr_source_id : string;
  cr_as_of_iso : datetime;
  cr_content_bytes_sha : string;
  cr_total_traders : option Z;
}.

Definition COTReport_post_init (r : COTReport) : result COTReport :=
  let! _ := _assert_tz_aware (cr_value_known_at_iso r) in
  let! _ := _assert_tz_aware (cr_as_of_iso r) in
  guard! String.eqb (cr_market_code r) "" else ValueError in
  guard! existsb (fun count => count <? 0)
         [cr_open_interest_all r; cr_spec_long r; cr_spec_short r; cr_comm_long r; cr_comm_short r]
    else ValueError in
  guard! match cr_total_traders r with Some n => n <? 0 | None => false end else ValueError in
  guard! hex_length_bad (cr_content_bytes_sha r) else ValueError in
  Ok r.

Definition spec_net (r : COTReport) : Z := cr_spec_long r - cr_spec_short r.
Definition comm_net (r : COTReport) : Z := cr_comm_long r - cr_comm_short r.

(** ** Publication time *)
Definition COT_RELEASE_TIME_ET : Z := time_of 15 30.
Definition _FRIDAY_WEEKDAY : Z := 4.

Section Source.
Context `{EasternTime}.

Definition value_known_at_for_report (report_date : date) : result datetime :=
  let weekday := weekday report_date in
  guard! _FRIDAY_WEEKDAY <? weekday else ValueError in
  let friday := report_date + (_FRIDAY_WEEKDAY - weekday) in
  Ok (et_combine friday COT_RELEASE_TIME_ET).
End Source.

Definition enforce_cot_pit_gate (report : option COTReport) (as_of_iso : datetime)
    : result (option COTReport) :=
  let! _ := _assert_tz_aware as_of_iso in
  match report with
  | None => Ok None
  | Some r => if dt_ltb as_of_iso (cr_value_known_at_iso r) then Ok None else Ok report
  end.

(** ** The source seam *)
Class COTSource (S : Type) := {
  cot_source_id : S -> string;
  cot_tier : S -> SourceTier;
  fetch_reports : S -> string -> COTReportFlavor -> date -> date -> result (list COTReport);
  cot_healthcheck : S -> bool;
}.

Definition cot_default_healthcheck : bool := true.

Section Accessor.
Context {S : Type} `{COTSource S}.

(** [[r for r in raw if enforce_cot_pit_gate(r, as_of_iso) is not None]] *)
Fixpoint known_reports (raw : list COTReport) (as_of_iso : datetime) : result (list COTReport) :=
  match raw with
  | [] => Ok []
  | r :: rest =>
      let! gated := enforce_cot_pit_gate (Some r) as_of_iso in
      let! known := known_reports rest as_of_iso in
      Ok (match gated with Some _ => r :: known | None => known end)
  end.

Definition report_date_leb (a b : COTReport) : bool := cr_report_date a <=? cr_report_date b.

Definition reports_known_at (src : S) (market_code : string) (flavor : COTReportFlavor)
    (as_of_iso : datetime) (since : date) : result (list COTReport) :=
  let! _ := _assert_tz_aware as_of_iso in
  let! raw := fetch_reports src market_code flavor since (dt_date as_of_iso) in
  let! known := known_reports raw as_of_iso in
  Ok (sort_by report_date_leb known).
End Accessor.

(** ** Facts *)
Definition known_by (as_of_iso : datetime) (r : COTReport) : bool :=
  dt_leb (cr_value_known_at_iso r) as_of_iso.

Lemma known_reports_filter raw as_of : dt_naive as_of = false →
  known_reports raw as_of = Ok (List.filter (known_by as_of) raw).
Proof.
  intros Hn. induction raw as [|r raw IH]; [done|]. cbn [known_reports List.filter].
  unfold enforce_cot_pit_gate, _assert_tz_aware. rewrite Hn. cbn [reject rbind]. rewrite IH.
  unfold known_by, dt_leb, dt_ltb. rewrite Z.ltb_antisym.
  destruct (dt_instant (cr_value_known_at_iso r) <=? dt_instant as_of); done.
Qed.

(** A weekday snapshot is published on the Friday of its own week, at a fixed wall-clock time. *)
Lemma value_known_at_spec `{EasternTime} d :
  weekday d <= 4 → exists t, value_known_at_for_report d = Ok t ∧
    dt_local t = (d + (4 - weekday d)) * us_per_day + COT_RELEASE_TIME_ET ∧
    weekday (dt_date t) = 4 ∧ dt_off t = Some (et_offset (dt_local t)).
Proof.
  intros Hw. unfold value_known_at_for_report, _FRIDAY_WEEKDAY.
  rewrite (proj2 (Z.ltb_ge _ _)) by lia. cbn [reject rbind]. eexists. split; [reflexivity|].
  unfold et_combine. cbn [dt_local dt_off]. split; [done|]. split; [|done]. unfold dt_date. cbn [dt_local].
  rewrite Z.div_add_l by done.
  assert (E0 : COT_RELEASE_TIME_ET / us_per_day = 0) by reflexivity. rewrite E0, Z.add_0_r.
  unfold weekday in *. replace (d + (4 - (d + 6) mod 7) + 6) with ((d + 6) - (d + 6) mod 7 + 4) by lia.
  pose proof (Z.div_mod (d + 6) 7 ltac:(done)) as Hd.
  replace (d + 6 - (d + 6) mod 7 + 4) with (4 + (d + 6) / 7 * 7) by lia.
  by rewrite Z.mod_add.
Qed.

(** A source that stamps its reports with the normal-week publication moment. *)
Definition stamped `{EasternTime} (r : COTReport) : Prop :=
  value_known_at_for_report (cr_report_date r) = Ok (cr_value_known_at_iso r).

(** the look-ahead guard is structural.  For any source, what a consumer reads at an instant is
    exactly the fetched reports published at or before it, sorted by report date; a naive instant
    raises [ValueError] before anything is fetched and a source's own error is passed on. *)
Theorem reports_known_at_spec {S} `{COTSource S} (src : S) code flavor as_of since :
  reports_known_at src code flavor as_of since
  = (if dt_naive as_of then Err ValueError
     else match fetch_reports src code flavor since (dt_date as_of) with
          | Err e => Err e
          | Ok raw => Ok (sort_by report_date_leb (List.filter (known_by as_of) raw))
          end)
  ∧ forall rs, reports_known_at src code flavor as_of since = Ok rs →
      StronglySorted (fun a b => cr_report_date a <= cr_report_date b) rs ∧
      Forall (fun r => dt_leb (cr_value_known_at_iso r) as_of = true) rs.
Proof.
  assert (E : reports_known_at src code flavor as_of since
    = if dt_naive as_of then Err ValueError
      else match fetch_reports src code flavor since (dt_date as_of) with
           | Err e => Err e
           | Ok raw => Ok (sort_by report_date_leb (List.filter (known_by as_of) raw))
           end).
  { unfold reports_known_at, _assert_tz_aware. destruct (dt_naive as_of) eqn:En; [done|]. cbn [reject rbind].
    destruct (fetch_reports _ _ _ _ _) as [raw|e]; [|done]. cbn [rbind].
    by rewrite known_reports_filter. }
  split; [exact E|]. intros rs Hrs. rewrite E in Hrs. destruct (dt_naive as_of); [done|].
  destruct (fetch_reports _ _ _ _ _) as [raw|e]; [|done]. injection Hrs as <-. split.
  - assert (Hs : StronglySorted (fun x y => report_date_leb x y = true)
                   (sort_by report_date_leb (List.filter (known_by as_of) raw))).
    { apply sort_by_sorted; unfold report_date_leb.
      - intros x y. rewrite !Z.leb_le. lia.
      - intros x y z. rewrite !Z.leb_le. lia. }
    revert Hs. generalize (sort_by report_date_leb (List.filter (known_by as_of) raw)). intros l Hs.
    induction Hs as [|x xs Hs IH Hall]; constructor; [done|].
    eapply List.Forall_impl; [|exact Hall]. intros y Hy. by apply Z.leb_le.
  - apply List.Forall_forall. intros r Hr. apply sort_by_In, filter_In in Hr. apply Hr.
Qed.

(** the blackout.  When a source stamps its reports with the normal-week publication moment, a
    report a consumer reads at an instant was snapshot on a weekday, and the instant is at or after
    15:30 New York time on the Friday of that week: a Tuesday snapshot is invisible for the three
    full days that follow its date, whatever the daylight-saving offset. *)
Theorem cot_blackout {S} `{COTSource S} `{EasternTimeLaws} (src : S) code flavor as_of since rs r :
  reports_known_at src code flavor as_of since = Ok rs → In r rs → stamped r →
  weekday (cr_report_date r) <= 4 ∧
  (cr_report_date r + (4 - weekday (cr_report_date r))) * us_per_day + time_of 19 30 <= dt_instant as_of ∧
  (weekday (cr_report_date r) = 1 → (cr_report_date r + 3) * us_per_day <= dt_instant as_of).
Proof.
  intros Hrs Hin Hst. destruct (reports_known_at_spec src code flavor as_of since) as [_ Hall].
  apply Hall in Hrs as [_ Hk]. rewrite List.Forall_forall in Hk. specialize (Hk _ Hin).
  unfold dt_leb in Hk. apply Z.leb_le in Hk. unfold stamped in Hst.
  assert (Hw : weekday (cr_report_date r) <= 4).
  { unfold value_known_at_for_report, _FRIDAY_WEEKDAY in Hst.
    destruct (Z.ltb_spec 4 (weekday (cr_report_date r))); [done|lia]. }
  destruct (value_known_at_spec _ Hw) as (t & Et & Hl & _ & Ho). rewrite Et in Hst. injection Hst as Hst.
  rewrite <- Hst in Hk. unfold dt_instant in Hk at 1. rewrite Ho, Hl in Hk.
  assert (Hr : COT_RELEASE_TIME_ET + 4 * 3600000000 = time_of 19 30) by reflexivity.
  assert (Hd : 0 < us_per_day) by reflexivity.
  assert (H24 : 0 <= time_of 19 30) by (vm_compute; discriminate).
  split; [done|].
  assert (Hle : (cr_report_date r + (4 - weekday (cr_report_date r))) * us_per_day + time_of 19 30 <= dt_instant as_of).
  { destruct (et_offset_range ((cr_report_date r + (4 - weekday (cr_report_date r))) * us_per_day + COT_RELEASE_TIME_ET))
      as [E|E]; rewrite E in Hk; lia. }
  split; [exact Hle|]. intros E1. rewrite E1 in Hle. lia.
Qed.

(** ** Witness: a source with one report, New York on standard time *)
Module OneReport.
#[local] Instance standard_time : EasternTime := { et_offset t := -18000; et_utc_offset t := -18000 }.
#[local] Instance standard_time_laws : EasternTimeLaws.
Proof. constructor; intros t; by left. Qed.

Definition tuesday : date := mk_date 2026 1 6.
Definition friday_release : datetime := mk_datetime 2026 1 9 15 30 0 0 (Some (-18000)).
Definition report : COTReport := {|
  cr_market_code := "067651"; cr_flavor := DISAGGREGATED; cr_report_date := tuesday;
  cr_value_known_at_iso := friday_release; cr_open_interest_all := 100; cr_spec_long := 40;
  cr_spec_short := 10; cr_comm_long := 20; cr_comm_short := 50; cr_source_id := "cftc";
  cr_as_of_iso := friday_release; cr_content_bytes_sha := wit_sha; cr_total_traders := None |}.

#[local] Instance source : COTSource unit := {
  cot_source_id s := "cftc"; cot_tier s := T2_MACRO; fetch_reports s code flavor a b := Ok [report];
  cot_healthcheck s := cot_default_healthcheck }.

Lemma cot_blackout_witness :
  reports_known_at tt "067651" DISAGGREGATED (mk_datetime 2026 1 9 20 29 59 0 (Some 0)) 0 = Ok []
  ∧ (tuesday + 3) * us_per_day <= dt_instant friday_release.
Proof.
  split; [vm_compute; reflexivity|].
  assert (E : reports_known_at tt "067651" DISAGGREGATED friday_release 0 = Ok [report]) by (vm_compute; reflexivity).
  assert (Hst : stamped report) by (vm_compute; reflexivity).
  destruct (cot_blackout tt _ _ _ _ _ report E (or_introl eq_refl) Hst) as (_ & _ & H3).
  apply H3. vm_compute. reflexivity.
Defined.
End OneReport.
