(* ===== verification/MacroSources.v ===== *)
(** * data/sources/fred_macro.py and bls_macro.py: the macro publishers over HTTP

    Module [Fred]: values by release vintage and the release calendar; module [Bls]: the latest
    prints.  The transport is a class: a client answers a request with bytes or raises.  The default
    clients are modelled over [Requests], the one call of the [requests] package they make.  Both
    sources are instances of [MacroEventSource] and discharge its laws. *)

From S2P Require Import Prelude PyDecimal PyText PyTime PyParse PyFloat Json Types Macro.

#[local] Open Scope Z_scope.

(** [requests.get(url, params=..., timeout=...)]: the status code and the body. *)
Class Requests := { requests_get : string -> dict string string -> float -> result (Z * string) }.

Definition HTTP_OK : Z := 200.

(** ** Shape guards

    Each source has its own copy, raising its own error [e]. *)
Section Guards.
Variable e : exn.

Definition json_of_bytes (raw : string) : result json :=
  match json_loads raw with Ok j => Ok j | Err _ => Err e end.
Definition guard_list (j : json) : result (list json) :=
  match j with JArr l => Ok l | _ => Err e end.
Definition guard_dict (j : json) : result (dict string json) :=
  match j with JObj fs => Ok fs | _ => Err e end.
Definition guard_str (j : json) : result string :=
  match j with JStr s => Ok s | _ => Err e end.
Definition guard_obj (raw : string) : result (dict string json) :=
  let! data := json_of_bytes raw in guard_dict data.
Definition guard_decimal (raw_value : string) : result decimal :=
  match decimal_of_str raw_value with Ok d => Ok d | Err _ => Err e end.
Definition guard_date (raw_date : string) : result date :=
  match date_fromisoformat raw_date with Ok d => Ok d | Err _ => Err e end.
End Guards.

(** [d.get(key)]: a missing key reads as [None]. *)
Definition jget (key : string) (d : dict string json) : json :=
  match dget key d with Some v => v | None => JNull end.

(** Series with the longest names first; equal lengths keep their order. *)
Definition _SERIES_BY_LENGTH : list MacroSeries :=
  sort_by (fun a b => (String.length (MacroSeries_value b) <=? String.length (MacroSeries_value a))%nat)
    all_series.

Definition _series_from_event_id (event_id : string) : option MacroSeries :=
  List.find (fun series => String.eqb event_id (MacroSeries_value series)
                           || String.prefix (String.append (MacroSeries_value series) "_") event_id)
    _SERIES_BY_LENGTH.

(** ** FRED *)
Module Fred.
Definition FRED_API_BASE : string := "https://api.stlouisfed.org/fred/".
Definition FRED_MISSING_VALUE : string := ".".
Definition _OBS_LOOKBACK_LIMIT : Z := 12.

Definition FRED_SERIES_MAP : dict MacroSeries string :=
  [ (NFP, "PAYEMS"); (CPI, "CPIAUCSL"); (PPI, "PPIFIS"); (GDP_ADVANCE, "GDPC1"); (PCE, "PCEPI");
    (RETAIL_SALES, "RSAFS"); (HOUSING_STARTS, "HOUST"); (JOBLESS_CLAIMS, "ICSA");
    (JOLTS, "JTSJOL") ]%string.

Definition SERIES_PUBLISHER : dict MacroSeries MacroPublisher :=
  [ (NFP, BLS); (CPI, BLS); (PPI, BLS); (GDP_ADVANCE, BEA); (PCE, BEA); (RETAIL_SALES, CENSUS);
    (HOUSING_STARTS, CENSUS); (JOBLESS_CLAIMS, DOL); (JOLTS, BLS) ].

Class FredHTTPClient (C : Type) := { fred_get : C -> string -> dict string string -> result string }.

(** *** The default client *)
Record DefaultFredHTTPClient := { fc_api_key : string; fc_timeout_s : float }.

Definition new_DefaultFredHTTPClient (api_key : string) (timeout_s : float) : result DefaultFredHTTPClient :=
  guard! String.eqb api_key "" else ValueError in
  guard! fleb timeout_s f_zero else ValueError in
  Ok {| fc_api_key := api_key; fc_timeout_s := timeout_s |}.

#[global] Instance DefaultFred_client `{Requests} : FredHTTPClient DefaultFredHTTPClient := {
  fred_get c endpoint params :=
    let merged := dset "file_type"%string "json"%string (dset "api_key"%string (fc_api_key c) params) in
    let! '(status, content) := requests_get (String.append FRED_API_BASE endpoint) merged (fc_timeout_s c) in
    guard! negb (status =? HTTP_OK) else FredMacroError in
    Ok content;
}.

(** *** The source *)
Definition SOURCE_ID : string := "fred_alfred".

Record FredMacroSource (C : Type) := { f_http : C }.
Arguments f_http {C} _.

Section Source.
Context {C : Type} `{FredHTTPClient C} `{EasternTime}.

Definition observation_params (series_id : string) (as_of_date : date) : dict string string :=
  [ ("series_id", series_id); ("realtime_start", date_iso as_of_date);
    ("realtime_end", date_iso as_of_date); ("sort_order", "desc");
    ("limit", str_int _OBS_LOOKBACK_LIMIT) ]%string.

(** The first observation with a value. *)
Fixpoint choose_observation (observations : list json) : result (option (dict string json)) :=
  match observations with
  | [] => Ok None
  | o :: rest =>
      let! obs := guard_dict FredMacroError o in
      match jget "value" obs with
      | JNull => choose_observation rest
      | JStr s => if String.eqb s FRED_MISSING_VALUE then choose_observation rest else Ok (Some obs)
      | _ => Ok (Some obs)
      end
  end.

Definition value_of_observation (event_id : string) (series : MacroSeries) (as_of_iso : datetime)
    (raw : string) (chosen : dict string json) : result MacroValue :=
  let! value_text := guard_str FredMacroError (jget "value" chosen) in
  let! value := guard_decimal FredMacroError value_text in
  let! date_text := guard_str FredMacroError (jget "date" chosen) in
  let! ref_date := guard_date FredMacroError date_text in
  let! start_text := guard_str FredMacroError (jget "realtime_start" chosen) in
  let! published := guard_date FredMacroError start_text in
  MacroValue_post_init {|
    mv_event_id := event_id; mv_series := series; mv_as_of_date := ref_date;
    mv_value_known_at_iso := et_combine published (RELEASE_TIME_ET series);
    mv_source_id := SOURCE_ID; mv_as_of_iso := as_of_iso;
    mv_content_bytes_sha := content_sha256 raw; mv_value := Some value;
    mv_is_shutdown_void := false; mv_vintage_as_of := Some (et_date as_of_iso) |}.

Definition Fred_fetch_value (src : FredMacroSource C) (event_id : string) (as_of_iso : datetime)
    : result (option MacroValue) :=
  let! _ := _assert_tz_aware as_of_iso in
  match _series_from_event_id event_id with
  | None => Ok None
  | Some series =>
      match dget series FRED_SERIES_MAP with
      | None => Ok None
      | Some series_id =>
          let! raw := fred_get (f_http src) "series/observations" (observation_params series_id (et_date as_of_iso)) in
          let! page := guard_obj FredMacroError raw in
          let! observations := guard_list FredMacroError (jget "observations" page) in
          let! chosen := choose_observation observations in
          match chosen with
          | None => Ok None
          | Some chosen =>
              let! mv := value_of_observation event_id series as_of_iso raw chosen in
              enforce_pit_gate (Some mv) as_of_iso
          end
      end
  end.

(** The release a series belongs to, as it is written in a request, and its page. *)
Definition _resolve_release (src : FredMacroSource C) (fred_series_id : string)
    : result (string * option string) :=
  let! raw := fred_get (f_http src) "series/release" [("series_id"%string, fred_series_id)] in
  let! page := guard_obj FredMacroError raw in
  let! releases := guard_list FredMacroError (jget "releases" page) in
  match releases with
  | [] => Err FredMacroError
  | r :: _ =>
      let! first := guard_dict FredMacroError r in
      (* a JSON boolean is an int to [isinstance] *)
      let! rid := match jget "id" first with
                  | JInt n => Ok (str_int n)
                  | JBool b => Ok (if b then "True" else "False")%string
                  | _ => Err FredMacroError
                  end in
      Ok (rid, match jget "link" first with JStr s => Some s | _ => None end)
  end.

Definition release_params (release_id : string) (start_date end_date : date) : dict string string :=
  [ ("release_id", release_id); ("realtime_start", date_iso start_date);
    ("realtime_end", date_iso end_date); ("include_release_dates_with_no_data", "true");
    ("sort_order", "asc") ]%string.

Definition event_id_of (series : MacroSeries) (d : date) : string :=
  str_concat [MacroSeries_value series; "_"%string; str_int (year_of d); "_"%string; str_pad 2 (month_of d)].

(** One release date of a page: an event when it falls in the half-open window. *)
Definition event_of_date (series : MacroSeries) (release_id : string) (link : option string)
    (page_sha : string) (start end_ : datetime) (rd : json) : result (option MacroEvent) :=
  let! rd := guard_dict FredMacroError rd in
  let! date_text := guard_str FredMacroError (jget "date" rd) in
  let! rd_date := guard_date FredMacroError date_text in
  let release_dt := et_combine rd_date (RELEASE_TIME_ET series) in
  if negb (dt_leb start release_dt && dt_ltb release_dt end_) then Ok None
  else
    let event_id := event_id_of series rd_date in
    let! publisher := of_option (dget series SERIES_PUBLISHER) KeyError in
    let! ev := MacroEvent_post_init {|
      me_event_id := event_id; me_series := series; me_publisher := publisher;
      me_release_date := rd_date; me_release_time_et := release_dt;
      me_source_url := match link with
                       | Some l => if String.eqb l "" then
                           str_concat [FRED_API_BASE; "release/dates?release_id="%string; release_id] else l
                       | None => str_concat [FRED_API_BASE; "release/dates?release_id="%string; release_id]
                       end;
      me_originally_scheduled := release_dt;
      me_content_bytes_sha := content_sha256 (str_concat [page_sha; "||"%string; event_id]);
      me_embargo_window_min := 5; me_actual_publication_iso := None |} in
    Ok (Some ev).

Definition series_events (src : FredMacroSource C) (start end_ : datetime) (kv : MacroSeries * string)
    : result (list MacroEvent) :=
  let '(series, fred_series_id) := kv in
  let! '(release_id, link) := _resolve_release src fred_series_id in
  let! raw := fred_get (f_http src) "release/dates" (release_params release_id (et_date start) (et_date end_)) in
  let page_sha := content_sha256 raw in
  let! page := guard_obj FredMacroError raw in
  let! release_dates := guard_list FredMacroError (jget "release_dates" page) in
  let! events := rmap (event_of_date series release_id link page_sha start end_) release_dates in
  Ok (somes events).

(** All release times carry the same [tzinfo]: Python then compares the wall clocks. *)
Definition event_leb (a b : MacroEvent) : bool :=
  let ta := dt_local (me_release_time_et a) in
  let tb := dt_local (me_release_time_et b) in
  (ta <? tb) || ((ta =? tb) && String.leb (MacroSeries_value (me_series a)) (MacroSeries_value (me_series b))).

Definition Fred_upcoming_events (src : FredMacroSource C) (start end_ : datetime)
    : result (list MacroEvent) :=
  let! _ := _assert_tz_aware start in
  let! _ := _assert_tz_aware end_ in
  guard! dt_leb end_ start else ValueError in
  let! events := rmap (series_events src start end_) FRED_SERIES_MAP in
  Ok (sort_by event_leb (concat events)).

#[global] Instance Fred_source : MacroEventSource (FredMacroSource C) := {
  ms_source_id s := SOURCE_ID;
  ms_tier s := T3_AGGREGATOR;
  upcoming_events := Fred_upcoming_events;
  fetch_value := Fred_fetch_value;
  schedule_drift_check s := default_schedule_drift_check;
  ms_healthcheck s := default_healthcheck;
}.
End Source.
End Fred.

(** ** BLS *)
Module Bls.
Definition BLS_API_BASE : string := "https://api.bls.gov/publicAPI/v2/".
Definition _BLS_SUCCESS : string := "REQUEST_SUCCEEDED".
Definition _MONTHLY_PERIOD_LEN : nat := 3.
Definition _MONTHS_IN_YEAR : Z := 12.

Definition BLS_SERIES_MAP : dict MacroSeries string :=
  [ (NFP, "CES0000000001"); (CPI, "CUUR0000SA0"); (PPI, "WPSFD4") ]%string.

(** The release moment of a reference month, or [None] when it is not known. *)
Definition ReleaseLookup : Type := MacroSeries -> date -> option datetime.

Class BlsHTTPClient (C : Type) := { get_series : C -> string -> result string }.

(** *** The default client *)
Record DefaultBlsHTTPClient := { bc_key : option string; bc_timeout_s : float }.

Definition new_DefaultBlsHTTPClient (registration_key : option string) (timeout_s : float)
    : result DefaultBlsHTTPClient :=
  guard! fleb timeout_s f_zero else ValueError in
  Ok {| bc_key := registration_key; bc_timeout_s := timeout_s |}.

#[global] Instance DefaultBls_client `{Requests} : BlsHTTPClient DefaultBlsHTTPClient := {
  get_series c series_id :=
    let params := match bc_key c with
                  | Some k => if String.eqb k "" then [] else [("registrationkey"%string, k)]
                  | None => []
                  end in
    let! '(status, content) :=
      requests_get (str_concat [BLS_API_BASE; "timeseries/data/"%string; series_id]) params (bc_timeout_s c) in
    guard! negb (status =? HTTP_OK) else BlsMacroError in
    Ok content;
}.

(** *** Periods and values *)
Definition period_month (period : string) : option Z :=
  let digits := str_drop 1 period in if str_isdigit digits then digits_val digits else None.

Definition _is_monthly_period (period : string) : bool :=
  if (String.length period =? _MONTHLY_PERIOD_LEN)%nat && String.eqb (String.substring 0 1 period) "M"
  then match period_month period with Some m => (1 <=? m) && (m <=? _MONTHS_IN_YEAR) | None => false end
  else false.

Definition _is_blank_value (v : json) : bool :=
  match v with
  | JNull => true
  | JStr s => let t := str_strip s in String.eqb t "" || String.eqb t "-" || String.eqb t "."
  | _ => false
  end.

(** [date(y, m, d)]: an invalid triple raises [ValueError]. *)
Definition date_of (y m d : Z) : result date := if valid_ymdb y m d then Ok (mk_date y m d) else Err ValueError.

(** *** The source *)
Definition SOURCE_ID : string := "bls_api_v2".

Record BlsMacroSource (C : Type) := { b_http : C; b_release_lookup : option ReleaseLookup }.
Arguments b_http {C} _.
Arguments b_release_lookup {C} _.

Definition _extract_data_points (payload : dict string json) : result (list json) :=
  let points (results_obj : json) :=
    let! results := guard_dict BlsMacroError results_obj in
    let! series_list := guard_list BlsMacroError (jget "series" results) in
    match series_list with
    | [] => Ok []
    | s :: _ => let! first := guard_dict BlsMacroError s in guard_list BlsMacroError (jget "data" first)
    end in
  match jget "Results" payload with
  | JArr [] => Ok []
  | JArr (r :: _) => points r
  | r => points r
  end.

Fixpoint _latest_monthly_point (data : list json) : result (option (dict string json)) :=
  match data with
  | [] => Ok None
  | dp_obj :: rest =>
      let! dp := guard_dict BlsMacroError dp_obj in
      let! period := guard_str BlsMacroError (jget "period" dp) in
      if negb (_is_monthly_period period) || _is_blank_value (jget "value" dp)
      then _latest_monthly_point rest else Ok (Some dp)
  end.

Section Source.
Context {C : Type} `{BlsHTTPClient C} `{EasternTime}.

Definition _conservative_publication_bound (series : MacroSeries) (ref_date : date) : result datetime :=
  let '(pub_year, pub_month) :=
    if month_of ref_date =? _MONTHS_IN_YEAR then (year_of ref_date + 1, 1)
    else (year_of ref_date, month_of ref_date + 1) in
  let last_day := days_in_month pub_year pub_month in
  let! d := date_of pub_year pub_month last_day in
  Ok (et_combine d (RELEASE_TIME_ET series)).

Definition value_of_point (src : BlsMacroSource C) (event_id : string) (series : MacroSeries)
    (as_of_iso : datetime) (raw : string) (chosen : dict string json) : result MacroValue :=
  let! year_str := guard_str BlsMacroError (jget "year" chosen) in
  guard! negb (str_isdigit year_str) else BlsMacroError in
  let! period := guard_str BlsMacroError (jget "period" chosen) in
  let! year := int_of_str year_str in
  let! month := int_of_str (str_drop 1 period) in
  let! ref_date := date_of year month 1 in
  let! value_text := guard_str BlsMacroError (jget "value" chosen) in
  let! value := guard_decimal BlsMacroError value_text in
  let release_dt := match b_release_lookup src with Some lookup => lookup series ref_date | None => None end in
  let! value_known_at := match release_dt with
                         | Some t => Ok t
                         | None => _conservative_publication_bound series ref_date
                         end in
  MacroValue_post_init {|
    mv_event_id := event_id; mv_series := series; mv_as_of_date := ref_date;
    mv_value_known_at_iso := value_known_at; mv_source_id := SOURCE_ID; mv_as_of_iso := as_of_iso;
    mv_content_bytes_sha := content_sha256 raw; mv_value := Some value;
    mv_is_shutdown_void := false; mv_vintage_as_of := None |}.

Definition Bls_fetch_value (src : BlsMacroSource C) (event_id : string) (as_of_iso : datetime)
    : result (option MacroValue) :=
  let! _ := _assert_tz_aware as_of_iso in
  match _series_from_event_id event_id with
  | None => Ok None
  | Some series =>
      match dget series BLS_SERIES_MAP with
      | None => Ok None
      | Some series_id =>
          let! raw := get_series (b_http src) series_id in
          let! payload := guard_obj BlsMacroError raw in
          guard! match jget "status" payload with JStr s => negb (String.eqb s _BLS_SUCCESS) | _ => true end
            else BlsMacroError in
          let! data := _extract_data_points payload in
          let! chosen := _latest_monthly_point data in
          match chosen with
          | None => Ok None
          | Some chosen =>
              let! mv := value_of_point src event_id series as_of_iso raw chosen in
              enforce_pit_gate (Some mv) as_of_iso
          end
      end
  end.

Definition Bls_upcoming_events (src : BlsMacroSource C) (start end_ : datetime) : result (list MacroEvent) :=
  let! _ := _assert_tz_aware start in
  let! _ := _assert_tz_aware end_ in
  guard! dt_leb end_ start else ValueError in
  Ok [].

#[global] Instance Bls_source : MacroEventSource (BlsMacroSource C) := {
  ms_source_id s := SOURCE_ID;
  ms_tier s := T2_MACRO;
  upcoming_events := Bls_upcoming_events;
  fetch_value := Bls_fetch_value;
  schedule_drift_check s := default_schedule_drift_check;
  ms_healthcheck s := default_healthcheck;
}.
End Source.
End Bls.

(** ** Facts *)

Create HintDb guards.
Lemma json_of_bytes_fails e raw : fails_only (eq e) (json_of_bytes e raw).
Proof. unfold json_of_bytes. by destruct (json_loads raw). Qed.
Lemma guard_list_fails e j : fails_only (eq e) (guard_list e j).
Proof. by destruct j. Qed.
Lemma guard_dict_fails e j : fails_only (eq e) (guard_dict e j).
Proof. by destruct j. Qed.
Lemma guard_str_fails e j : fails_only (eq e) (guard_str e j).
Proof. by destruct j. Qed.
Lemma guard_obj_fails e raw : fails_only (eq e) (guard_obj e raw).
Proof. apply fails_bind; [apply json_of_bytes_fails|]. intros. apply guard_dict_fails. Qed.
Lemma guard_decimal_fails e s : fails_only (eq e) (guard_decimal e s).
Proof. unfold guard_decimal. by destruct (decimal_of_str s). Qed.
Lemma guard_date_fails e s : fails_only (eq e) (guard_date e s).
Proof. unfold guard_date. by destruct (date_fromisoformat s). Qed.
#[export] Hint Resolve json_of_bytes_fails guard_list_fails guard_dict_fails guard_str_fails
  guard_obj_fails guard_decimal_fails guard_date_fails : guards.

Lemma series_of_empty_id : _series_from_event_id "" = None.
Proof. vm_compute. reflexivity. Qed.

(** A value the sources build passes its construction checks. *)
Lemma value_constructs v x : dt_naive (mv_value_known_at_iso v) = false → dt_naive (mv_as_of_iso v) = false →
  mv_event_id v ≠ ""%string → mv_value v = Some x → mv_is_shutdown_void v = false →
  (exists s, mv_content_bytes_sha v = content_sha256 s) → MacroValue_post_init v = Ok v.
Proof.
  intros H1 H2 H3 H4 H5 [s H6]. unfold MacroValue_post_init, _assert_tz_aware.
  rewrite H1, H2, H4, H5, H6. cbn [reject rbind]. apply String.eqb_neq in H3. rewrite H3. cbn [reject rbind].
  unfold content_sha256. by rewrite hex_length_sha.
Qed.

(** What passes the gate was known. *)
Lemma gate_Ok v as_of o : enforce_pit_gate (Some v) as_of = Ok o →
  dt_naive as_of = false ∧ (o = None ∨ o = Some v ∧ dt_leb (mv_value_known_at_iso v) as_of = true).
Proof.
  unfold enforce_pit_gate, _assert_tz_aware. intros ([] & Hn%reject_Ok & Hg)%rbind_Ok. split; [done|].
  unfold dt_ltb in Hg. unfold dt_leb. destruct (Z.ltb_spec (dt_instant as_of) (dt_instant (mv_value_known_at_iso v))).
  - left. congruence.
  - right. split; [congruence|]. by apply Z.leb_le.
Qed.

Lemma gate_id v as_of : enforce_pit_gate (Some v) as_of = Ok (Some v) ↔
  dt_naive as_of = false ∧ dt_leb (mv_value_known_at_iso v) as_of = true.
Proof.
  split.
  - intros [Hn [?|[_ Hl]]]%gate_Ok; [congruence|done].
  - intros [Hn Hl]. unfold enforce_pit_gate, _assert_tz_aware. rewrite Hn. cbn [reject rbind].
    unfold dt_ltb. unfold dt_leb in Hl. apply Z.leb_le in Hl. by rewrite (proj2 (Z.ltb_ge _ _) Hl).
Qed.

(** *** FRED *)
Section FredFacts.
Context {C : Type} `{Fred.FredHTTPClient C} `{EasternTime}.
Import Fred.

Lemma observation_value id series as_of raw obs : dt_naive as_of = false → id ≠ ""%string →
  match value_of_observation id series as_of raw obs with
  | Err e => e = FredMacroError
  | Ok v => MacroValue_post_init v = Ok v ∧ mv_as_of_iso v = as_of ∧ mv_event_id v = id ∧ mv_series v = series
            ∧ mv_vintage_as_of v = Some (et_date as_of) ∧ mv_content_bytes_sha v = content_sha256 raw
            ∧ exists text x, jget "value" obs = JStr text ∧ decimal_of_str text = Ok x ∧ mv_value v = Some x
  end.
Proof.
  intros Hn Hid. unfold value_of_observation.
  destruct (jget "value" obs) as [| | | |text| |] eqn:Hv; try done. cbn [guard_str rbind].
  unfold guard_decimal. destruct (decimal_of_str text) as [x|] eqn:Hx; [|done]. cbn [rbind].
  destruct (guard_str FredMacroError (jget "date" obs)) as [dt|e] eqn:E1; cbn [rbind];
    [|pose proof (guard_str_fails FredMacroError (jget "date" obs)) as G; rewrite E1 in G; by symmetry].
  destruct (guard_date FredMacroError dt) as [rd|e] eqn:E2; cbn [rbind];
    [|pose proof (guard_date_fails FredMacroError dt) as G; rewrite E2 in G; by symmetry].
  destruct (guard_str FredMacroError (jget "realtime_start" obs)) as [st|e] eqn:E3; cbn [rbind];
    [|pose proof (guard_str_fails FredMacroError (jget "realtime_start" obs)) as G; rewrite E3 in G; by symmetry].
  destruct (guard_date FredMacroError st) as [pd|e] eqn:E4; cbn [rbind];
    [|pose proof (guard_date_fails FredMacroError st) as G; rewrite E4 in G; by symmetry].
  erewrite value_constructs; [|done|done|done|reflexivity|done|by eexists].
  split; [by eapply value_constructs; eauto|]. do 5 (split; [done|]). eauto.
Qed.

Lemma choose_observation_fails l : fails_only (eq FredMacroError) (choose_observation l).
Proof.
  induction l as [|o l IH]; [done|]. cbn [choose_observation]. apply fails_bind; [auto with guards|].
  intros obs _. destruct (jget "value" obs); try done. by destruct (String.eqb _ _).
Qed.

(** a FRED value is a vintage that existed.  Whenever the source answers with a value, the page it
    came from is the transport's answer to one request, for the vintage in force on the New York date
    of the asking instant; the value is the decimal written in the page's first observation that is
    not missing, hashed with the page; it was published at or before the instant; and it passes its
    own construction checks.  Every failure is the naive instant's [ValueError], the transport's own
    error, or [FredMacroError]: a malformed page never leaks another exception nor a made-up value. *)
Theorem fred_fetch_sound (src : FredMacroSource C) id as_of :
  match fetch_value src id as_of with
  | Ok None => dt_naive as_of = false
  | Ok (Some v) => exists series_id raw page l obs text x,
      dget (mv_series v) FRED_SERIES_MAP = Some series_id ∧ _series_from_event_id id = Some (mv_series v) ∧
      fred_get (f_http src) "series/observations" (observation_params series_id (et_date as_of)) = Ok raw ∧
      guard_obj FredMacroError raw = Ok page ∧ jget "observations" page = JArr l ∧
      choose_observation l = Ok (Some obs) ∧ jget "value" obs = JStr text ∧ decimal_of_str text = Ok x ∧
      mv_value v = Some x ∧ mv_content_bytes_sha v = content_sha256 raw ∧
      mv_vintage_as_of v = Some (et_date as_of) ∧ dt_leb (mv_value_known_at_iso v) as_of = true ∧
      MacroValue_post_init v = Ok v
  | Err e => (e = ValueError ∧ dt_naive as_of = true) ∨ e = FredMacroError
             ∨ exists endpoint params, fred_get (f_http src) endpoint params = Err e
  end.
Proof.
  cbn [fetch_value Fred_source]. unfold Fred_fetch_value, _assert_tz_aware.
  destruct (dt_naive as_of) eqn:Hn; cbn [reject rbind]; [by left|].
  destruct (_series_from_event_id id) as [series|] eqn:Hs; [|done].
  destruct (dget series FRED_SERIES_MAP) as [series_id|] eqn:Hm; [|done].
  destruct (fred_get _ _ _) as [raw|e] eqn:Hg; cbn [rbind]; [|eauto].
  pose proof (guard_obj_fails FredMacroError raw) as G1.
  destruct (guard_obj FredMacroError raw) as [page|e] eqn:Hp; cbn [rbind]; [|right; left; by symmetry].
  destruct (jget "observations" page) as [| | | | |l|] eqn:Hl; cbn [guard_list rbind]; try (by right; left).
  pose proof (choose_observation_fails l) as G2.
  destruct (choose_observation l) as [[obs|]|e] eqn:Ho; cbn [rbind]; [|done|right; left; by symmetry].
  assert (Hid : id ≠ ""%string) by (intros ->; by rewrite series_of_empty_id in Hs).
  pose proof (observation_value id series as_of raw obs Hn Hid) as Hv.
  destruct (value_of_observation id series as_of raw obs) as [v|e]; cbn [rbind]; [|by right; left].
  destruct Hv as (V1 & V2 & V3 & V4 & V5 & V6 & text & x & V7 & V8 & V9).
  destruct (enforce_pit_gate (Some v) as_of) as [o|e] eqn:Hgate.
  - apply gate_Ok in Hgate as [_ [->|[-> Hle]]]; [done|]. rewrite V4. subst series.
    exists series_id, raw, page, l, obs, text, x. split_and!; done.
  - unfold enforce_pit_gate, _assert_tz_aware in Hgate. rewrite Hn in Hgate. cbn [reject rbind] in Hgate.
    by destruct (dt_ltb _ _).
Qed.
End FredFacts.

(** The laws every publisher promises, discharged by the two sources. *)
#[global] Instance Fred_laws {C} `{Fred.FredHTTPClient C} `{EasternTime} :
  MacroEventSourceLaws (Fred.FredMacroSource C).
Proof.
  assert (Hall : forall (s : Fred.FredMacroSource C) id as_of v, fetch_value s id as_of = Ok (Some v) →
    enforce_pit_gate (Some v) as_of = Ok (Some v) ∧ MacroValue_post_init v = Ok v).
  { intros s id as_of v E. cbn [fetch_value Fred.Fred_source] in E. unfold Fred.Fred_fetch_value, _assert_tz_aware in E.
    apply rbind_Ok in E as ([] & Hn%reject_Ok & E). destruct (_series_from_event_id id) as [series|] eqn:Hs; [|done].
    destruct (dget series _); [|done]. apply rbind_Ok in E as (raw & _ & E). apply rbind_Ok in E as (page & _ & E).
    apply rbind_Ok in E as (l & _ & E). apply rbind_Ok in E as ([obs|] & _ & E); [|done].
    apply rbind_Ok in E as (mv & Hmv & E).
    assert (Hid : id ≠ ""%string) by (intros ->; by rewrite series_of_empty_id in Hs).
    pose proof (observation_value id series as_of raw obs Hn Hid) as Hv. rewrite Hmv in Hv.
    pose proof E as [_ [?|[[= <-] _]]]%gate_Ok; [done|]. split; [exact E|apply Hv]. }
  constructor; intros s id as_of v E; by apply (Hall s id as_of v).
Qed.

(** asking FRED about the past never sees the future.  Two transports that answer alike every
    request whose realtime window ends on or before the New York date of an instant give the same
    value, the same absence and the same error at that instant, however they differ on later
    vintages: revisions published afterwards cannot reach a backtest. *)
Theorem fred_vintage_only {C1 C2} `{Fred.FredHTTPClient C1} `{Fred.FredHTTPClient C2} `{EasternTime}
    (c1 : C1) (c2 : C2) id as_of :
  real_date (et_date as_of) →
  (forall endpoint params t d, dget "realtime_end"%string params = Some t → date_fromisoformat t = Ok d →
     d <= et_date as_of → Fred.fred_get c1 endpoint params = Fred.fred_get c2 endpoint params) →
  fetch_value (Fred.Build_FredMacroSource C1 c1) id as_of = fetch_value (Fred.Build_FredMacroSource C2 c2) id as_of.
Proof.
  intros Hreal Heq. cbn [fetch_value Fred.Fred_source]. unfold Fred.Fred_fetch_value. cbn [Fred.f_http].
  destruct (_assert_tz_aware as_of); [|done]. cbn [rbind].
  destruct (_series_from_event_id id) as [series|]; [|done]. destruct (dget series Fred.FRED_SERIES_MAP) as [sid|]; [|done].
  rewrite (Heq _ _ (date_iso (et_date as_of)) (et_date as_of)); [done|done|by apply real_date_roundtrip|].
  unfold date. lia.
Qed.

(** *** BLS *)
Lemma days_before_year_succ y : days_before_year (y + 1) = days_before_year y + 365 + (if is_leap y then 1 else 0).
Proof.
  destruct (year_split y) as (a & b & c & e & -> & Hb & Hc & He).
  rewrite is_leap_split, days_before_year_split by done. unfold days_before_year.
  destruct (Z.eqb_spec e 3), (Z.ltb_spec c 24), (Z.eqb_spec b 3); cbn [andb orb]; Z.to_euclidean_division_equations; lia.
Qed.

Lemma next_month_first y m : 1 <= m <= 12 →
  mk_date (if m =? 12 then y + 1 else y) (if m =? 12 then 1 else m + 1) 1 = mk_date y m 1 + days_in_month y m.
Proof.
  intros Hm. unfold mk_date. destruct (Z.eqb_spec m 12) as [->|Hne].
  - rewrite days_before_year_succ. unfold days_before_month, days_in_month.
    change (cum_days 1) with 0. change (cum_days 12) with 334. cbn. destruct (is_leap y); lia.
  - rewrite days_before_month_succ by lia. lia.
Qed.

Section BlsFacts.
Context {C : Type} `{Bls.BlsHTTPClient C} `{EasternTimeLaws}.
Import Bls.

(** The conservative bound is at least 58 days after the first of the reference month. *)
Lemma conservative_bound_late series y m t : 1 <= m <= 12 →
  _conservative_publication_bound series (mk_date y m 1) = Ok t →
  dt_naive t = false ∧ (mk_date y m 1 + 58) * us_per_day + RELEASE_TIME_ET series + 4 * 3600000000 <= dt_instant t.
Proof.
  intros Hm E. unfold _conservative_publication_bound, month_of, year_of in E.
  rewrite ord2ymd_mk_date in E by (split; [done|]; unfold days_in_month; repeat case_match; lia). cbn [fst snd] in E.
  unfold _MONTHS_IN_YEAR in E.
  set (py := if m =? 12 then y + 1 else y) in *. set (pm := if m =? 12 then 1 else m + 1) in *.
  assert (Ep : (if m =? 12 then (y + 1, 1) else (y, m + 1)) = (py, pm)) by (subst py pm; by destruct (m =? 12)).
  rewrite Ep in E. apply rbind_Ok in E as (d & Hd & [= <-]). split; [done|].
  unfold date_of in Hd. destruct (valid_ymdb _ _ _); [|done]. injection Hd as <-.
  assert (Hdays : mk_date y m 1 + 58 <= mk_date py pm (days_in_month py pm)).
  { pose proof (next_month_first y m Hm) as Hn. fold py pm in Hn. unfold mk_date in *.
    assert (Hlen : 59 <= days_in_month y m + days_in_month py pm).
    { subst py pm. unfold days_in_month. destruct (Z.eqb_spec m 12) as [->|Hne]; [cbn; lia|].
      repeat case_match; lia. }
    unfold date in *. lia. }
  unfold et_combine, dt_instant. cbn [dt_off dt_local].
  assert (Hu : 0 < us_per_day) by reflexivity. unfold date in *.
  destruct (et_offset_range (mk_date py pm (days_in_month py pm) * us_per_day + RELEASE_TIME_ET series)) as [Eo|Eo];
    rewrite Eo; nia.
Qed.

Lemma point_value (src : BlsMacroSource C) id series as_of raw obs v : id ≠ ""%string →
  value_of_point src id series as_of raw obs = Ok v →
  MacroValue_post_init v = Ok v ∧ mv_series v = series ∧ mv_content_bytes_sha v = content_sha256 raw ∧
  exists y m, 1 <= m <= 12 ∧ mv_as_of_date v = mk_date y m 1 ∧
    match b_release_lookup src with
    | Some lookup => match lookup series (mk_date y m 1) with
                     | Some t => mv_value_known_at_iso v = t
                     | None => _conservative_publication_bound series (mk_date y m 1) = Ok (mv_value_known_at_iso v)
                     end
    | None => _conservative_publication_bound series (mk_date y m 1) = Ok (mv_value_known_at_iso v)
    end.
Proof.
  intros Hid E. unfold value_of_point in E.
  apply rbind_Ok in E as (ys & _ & E). apply rbind_Ok in E as ([] & _ & E). apply rbind_Ok in E as (p & _ & E).
  apply rbind_Ok in E as (y & _ & E). apply rbind_Ok in E as (m & _ & E). apply rbind_Ok in E as (rd & Hrd & E).
  apply rbind_Ok in E as (vt & _ & E). apply rbind_Ok in E as (x & _ & E). apply rbind_Ok in E as (k & Hk & E).
  pose proof (proj1 (MacroValue_post_init_Ok _ _ E)) as ->. unfold date_of, valid_ymdb in Hrd.
  split; [exact E|]. do 2 (split; [done|]). exists y, m. cbn [mv_as_of_date mv_value_known_at_iso].
  destruct ((1 <=? y) && (y <=? 9999) && (1 <=? m) && (m <=? 12)) eqn:Hm; cbn [andb] in Hrd; [|done].
  destruct ((1 <=? 1) && (1 <=? days_in_month y m)); [|by rewrite ?andb_false_r in Hrd].
  split; [rewrite !andb_true_iff, !Z.leb_le in Hm; lia|].
  injection Hrd as <-. split; [done|].
  destruct (b_release_lookup src) as [lookup|]; [|exact Hk].
  destruct (lookup series (mk_date y m 1)); [by injection Hk as <-|exact Hk].
Qed.
End BlsFacts.

Lemma bls_fetch_inv {C} `{Bls.BlsHTTPClient C} `{EasternTime} (src : Bls.BlsMacroSource C) id as_of v :
  fetch_value src id as_of = Ok (Some v) →
  dt_naive as_of = false ∧ dt_leb (mv_value_known_at_iso v) as_of = true ∧ id ≠ ""%string ∧
  exists series raw obs, Bls.value_of_point src id series as_of raw obs = Ok v.
Proof.
  intros E. cbn [fetch_value Bls.Bls_source] in E. unfold Bls.Bls_fetch_value, _assert_tz_aware in E.
  apply rbind_Ok in E as ([] & Hn%reject_Ok & E). destruct (_series_from_event_id id) as [series|] eqn:Hs; [|done].
  destruct (dget series _); [|done]. apply rbind_Ok in E as (raw & _ & E). apply rbind_Ok in E as (page & _ & E).
  apply rbind_Ok in E as (ok & _ & E). apply rbind_Ok in E as (l & _ & E). apply rbind_Ok in E as ([obs|] & _ & E); [|done].
  apply rbind_Ok in E as (mv & Hmv & E). apply gate_Ok in E as [_ [?|[[= <-] Hle]]]; [done|].
  do 2 (split; [done|]). split; [intros ->; by rewrite series_of_empty_id in Hs|eauto].
Qed.

#[global] Instance Bls_laws {C} `{Bls.BlsHTTPClient C} `{EasternTimeLaws} : MacroEventSourceLaws (Bls.BlsMacroSource C).
Proof.
  constructor; intros s id as_of v (Hn & Hle & Hid & series & raw & obs & Hp)%bls_fetch_inv.
  - by apply gate_id.
  - by apply point_value in Hp as [Hc _].
Qed.

(** without a release calendar the BLS source is late, never early.  A print for a reference month
    is answered only at instants at least 58 days after the first day of that month, at the series'
    release time in New York: the conservative bound, the last day of the following month, holds
    whatever the month, the leap years and the daylight-saving offset.  With a calendar, the moment it
    gives is the one enforced. *)
Theorem bls_value_late {C} `{Bls.BlsHTTPClient C} `{EasternTimeLaws} (src : Bls.BlsMacroSource C) id as_of v :
  fetch_value src id as_of = Ok (Some v) →
  exists y m, 1 <= m <= 12 ∧ mv_as_of_date v = mk_date y m 1 ∧
  match match Bls.b_release_lookup src with
        | Some lookup => lookup (mv_series v) (mk_date y m 1)
        | None => None
        end with
  | Some t => mv_value_known_at_iso v = t ∧ dt_leb t as_of = true
  | None => (mk_date y m 1 + 58) * us_per_day + RELEASE_TIME_ET (mv_series v) + 4 * 3600000000 <= dt_instant as_of
  end.
Proof.
  intros (_ & Hle & Hid & series & raw & obs & Hp)%bls_fetch_inv.
  destruct (point_value _ _ _ _ _ _ _ Hid Hp) as (_ & -> & _ & y & m & Hm & Hd & Hk).
  exists y, m. split; [done|]. split; [done|].
  assert (Hb : Bls._conservative_publication_bound series (mk_date y m 1) = Ok (mv_value_known_at_iso v) →
    (mk_date y m 1 + 58) * us_per_day + RELEASE_TIME_ET series + 4 * 3600000000 <= dt_instant as_of).
  { intros E. apply (conservative_bound_late series y m _ Hm) in E as [_ Hl]. unfold dt_leb in Hle. lia. }
  destruct (Bls.b_release_lookup src) as [lookup|]; [|by apply Hb].
  destruct (lookup series (mk_date y m 1)) as [t|]; [by subst t|by apply Hb].
Qed.

(** ** Witnesses: a transport of canned pages, New York on standard time *)
Module Canned.
#[local] Instance standard_time : EasternTime := { et_offset t := -18000; et_utc_offset t := -18000 }.
#[local] Instance standard_time_laws : EasternTimeLaws.
Proof. constructor; intros t; by left. Qed.

Definition fred_page : string :=
  dq "{'observations':[{'date':'2025-12-01','realtime_start':'2026-01-09','value':'.'},{'date':'2025-11-01','realtime_start':'2025-12-05','value':'159.5'}]}".

(** The first transport refuses windows that end after 2026, the second answers them with garbage. *)
#[local] Instance fred_client : Fred.FredHTTPClient bool := {
  fred_get later endpoint params :=
    match dget "realtime_end"%string params with
    | Some t => match date_fromisoformat t with
                | Ok d => if d <=? mk_date 2026 12 31 then Ok fred_page
                          else if later then Ok "garbage"%string else Err FredMacroError
                | Err e => Err e
                end
    | None => Err FredMacroError
    end }.

Definition bls_page (year : string) : string :=
  String.append (dq "{'status':'REQUEST_SUCCEEDED','Results':[{'series':[{'data':[{'period':'M13','value':'1'},{'period':'M11','value':'-'},{'period':'M10','value':'320.1','year':'")
    (String.append year (dq "'}]}]}]}")).

#[local] Instance bls_client : Bls.BlsHTTPClient string := { get_series year id := Ok (bls_page year) }.

Definition feb_1 : datetime := mk_datetime 2026 2 1 0 0 0 0 (Some 0).

Lemma fred_example : exists v,
  fetch_value (Fred.Build_FredMacroSource bool true) "NFP_2025_11" feb_1 = Ok (Some v)
  ∧ mv_value v = Some (Dec 1595 (-1)) ∧ mv_as_of_date v = mk_date 2025 11 1.
Proof. eexists. split; [vm_compute; reflexivity|split; reflexivity]. Qed.

Lemma fred_vintage_only_witness :
  fetch_value (Fred.Build_FredMacroSource bool true) "NFP_2025_11" feb_1
    = fetch_value (Fred.Build_FredMacroSource bool false) "NFP_2025_11" feb_1
  ∧ Fred.fred_get true "" [("realtime_end", "2027-01-01")]%string ≠ Fred.fred_get false "" [("realtime_end", "2027-01-01")]%string.
Proof.
  split; [|vm_compute; discriminate]. apply (fred_vintage_only true false).
  - exists 2026, 1, 31. vm_compute. repeat split; discriminate.
  - intros endpoint params t d Et Ed Hle. cbn [Fred.fred_get fred_client]. rewrite Et, Ed.
    assert (Hd : et_date feb_1 = mk_date 2026 1 31) by (vm_compute; reflexivity). rewrite Hd in Hle.
    assert (Hm : mk_date 2026 1 31 <= mk_date 2026 12 31) by (vm_compute; discriminate).
    unfold date in *. by rewrite (proj2 (Z.leb_le _ _)) by lia.
Defined.

Lemma bls_value_late_witness : exists v,
  fetch_value (Bls.Build_BlsMacroSource string "2025" None) "CPI_2025_10" feb_1 = Ok (Some v) ∧
  exists y m, mv_as_of_date v = mk_date y m 1 ∧ 1 <= m <= 12.
Proof.
  eexists. run_as E. destruct (bls_value_late _ _ _ _ E) as (y & m & Hm & Hd & _).
  exists y, m. split; [exact Hd|exact Hm].
Defined.

(** A year the calendar does not have leaves as [ValueError], not as the source's own error. *)
Example bls_year_zero :
  fetch_value (Bls.Build_BlsMacroSource string "0000" None) "CPI_2025_10" feb_1 = Err ValueError.
Proof. vm_compute. reflexivity. Qed.
End Canned.
