(* ===== verification/Cftc.v ===== *)
(** * data/sources/cftc.py: Commitment-of-Traders reports from the CFTC

    The Socrata source over a transport class, with its per-flavor columns and its guards, and the
    in-memory replay.  The default client is modelled over [Requests].  The instant the source's
    clock reads is a field of the source.  Both are instances of [COTSource]; the point-in-time
    accessor over the live source is what the last theorem is about. *)

From S2P Require Import Prelude PyDecimal PyText PyTime PyParse PyFloat Json Types Macro Cot MacroSources.

#[local] Open Scope Z_scope.

Record _FlavorSchema := { spec_long : string; spec_short : string; comm_long : string; comm_short : string }.

Definition CFTC_SOCRATA_BASE : string := "https://publicreporting.cftc.gov/resource/".
Definition _DEFAULT_LIMIT : Z := 5000.
Definition _DATE_COL : string := "report_date_as_yyyy_mm_dd".
Definition _OI_COL : string := "open_interest_all".
Definition _CODE_COL : string := "cftc_contract_market_code".
Definition _TRADERS_COL : string := "traders_tot_all".

Definition _DATASET_IDS : dict COTReportFlavor string :=
  [ (LEGACY, "6dca-aqww"); (DISAGGREGATED, "72hh-3qpy"); (TFF, "gpe5-46if") ]%string.

Definition _FLAVOR_SCHEMAS : dict COTReportFlavor _FlavorSchema := [
  (DISAGGREGATED, {| spec_long := "m_money_positions_long_all"; spec_short := "m_money_positions_short_all";
                     comm_long := "prod_merc_positions_long"; comm_short := "prod_merc_positions_short" |});
  (TFF, {| spec_long := "lev_money_positions_long"; spec_short := "lev_money_positions_short";
           comm_long := "dealer_positions_long_all"; comm_short := "dealer_positions_short_all" |});
  (LEGACY, {| spec_long := "noncomm_positions_long_all"; spec_short := "noncomm_positions_short_all";
              comm_long := "comm_positions_long_all"; comm_short := "comm_positions_short_all" |}) ].

(** ** Transport *)
Class CFTCHTTPClient (C : Type) := { cftc_get : C -> string -> dict string string -> result string }.

Record DefaultCFTCHTTPClient := { cc_app_token : option string; cc_timeout_s : float }.

Definition new_DefaultCFTCHTTPClient (app_token : option string) (timeout_s : float)
    : result DefaultCFTCHTTPClient :=
  guard! fleb timeout_s f_zero else ValueError in
  Ok {| cc_app_token := app_token; cc_timeout_s := timeout_s |}.

#[global] Instance DefaultCFTC_client `{Requests} : CFTCHTTPClient DefaultCFTCHTTPClient := {
  cftc_get c url params :=
    let merged := match cc_app_token c with
                  | Some t => if String.eqb t "" then params else dset "$$app_token"%string t params
                  | None => params
                  end in
    let! '(status, content) := requests_get url merged (cc_timeout_s c) in
    guard! negb (status =? HTTP_OK) else CftcSocrataError in
    Ok content;
}.

(** ** Guards *)
Definition _loads (raw : string) : result json := json_of_bytes CftcSocrataError raw.
Definition _as_list (j : json) : result (list json) := guard_list CftcSocrataError j.
Definition _as_dict (j : json) : result (dict string json) := guard_dict CftcSocrataError j.
Definition _as_str (j : json) : result string := guard_str CftcSocrataError j.

(** [int(Decimal(text))], with [InvalidOperation] and [ValueError] turned into the source's error:
    [int] of a NaN is a [ValueError], of an infinity an [OverflowError], which is not caught. *)
Definition int_of_decimal_text (text : string) : result Z :=
  match decimal_value_of_str text with
  | Ok (Finite d) => Ok (dtrunc d)
  | Ok (Infinity _) => Err OverflowError
  | Ok NaN | Err _ => Err CftcSocrataError
  end.

Definition _to_int (raw : json) : result Z :=
  match raw with
  | JBool _ => Err CftcSocrataError
  | JInt n => Ok n
  | JStr _ | JFloat _ => int_of_decimal_text (py_str raw)
  | _ => Err CftcSocrataError
  end.

Definition str_has (c : ascii) (s : string) : bool := match str_find c s with Some _ => true | None => false end.

Definition _parse_socrata_date (raw : json) : result date :=
  let! text := _as_str raw in
  match (if str_has "T" text
         then let! t := datetime_fromisoformat text in Ok (dt_date t)
         else date_fromisoformat text) with
  | Ok d => Ok d
  | Err _ => Err CftcSocrataError
  end.

(** ** The live source *)
Definition CFTC_SOURCE_ID : string := "cftc_socrata".

Record CFTCSocrataSource (C : Type) := { c_http : C; c_now : datetime }.
Arguments c_http {C} _.
Arguments c_now {C} _.

Definition fetch_params (code : string) (start end_ : date) : dict string string :=
  [ ("$where", str_concat [_CODE_COL; "='"; code; "' AND "; _DATE_COL; " >= '"; date_iso start;
                           "' AND "; _DATE_COL; " <= '"; date_iso end_; "'"]);
    ("$order", String.append _DATE_COL " ASC"); ("$limit", str_int _DEFAULT_LIMIT) ]%string.

Definition required_columns (schema : _FlavorSchema) : list string :=
  [_DATE_COL; _OI_COL; _CODE_COL; spec_long schema; spec_short schema; comm_long schema; comm_short schema].

Section Live.
Context {C : Type} `{CFTCHTTPClient C} `{EasternTime}.

Definition _parse_row (row : dict string json) (flavor : COTReportFlavor) (schema : _FlavorSchema)
    (now : datetime) : result COTReport :=
  let col name := jget name row in
  guard! existsb (fun name => negb (dmem name row)) (required_columns schema) else COTSchemaDriftError in
  let! report_date := _parse_socrata_date (col _DATE_COL) in
  let! traders := match dget _TRADERS_COL row with
                  | Some v => let! n := _to_int v in Ok (Some n)
                  | None => Ok None
                  end in
  let sha := content_sha256 (json_dumps compact_style (JObj row)) in
  let! code := _as_str (col _CODE_COL) in
  let! known_at := value_known_at_for_report report_date in
  let! oi := _to_int (col _OI_COL) in
  let! sl := _to_int (col (spec_long schema)) in
  let! ss := _to_int (col (spec_short schema)) in
  let! cl := _to_int (col (comm_long schema)) in
  let! cs := _to_int (col (comm_short schema)) in
  COTReport_post_init {|
    cr_market_code := code; cr_flavor := flavor; cr_report_date := report_date;
    cr_value_known_at_iso := known_at; cr_open_interest_all := oi; cr_spec_long := sl;
    cr_spec_short := ss; cr_comm_long := cl; cr_comm_short := cs; cr_source_id := CFTC_SOURCE_ID;
    cr_as_of_iso := now; cr_content_bytes_sha := sha; cr_total_traders := traders |}.

Definition Cftc_fetch_reports (src : CFTCSocrataSource C) (code : string) (flavor : COTReportFlavor)
    (start end_ : date) : result (list COTReport) :=
  match dget flavor _DATASET_IDS with
  | None => Err COTSourceError
  | Some dataset =>
      guard! end_ <? start else ValueError in
      let! schema := of_option (dget flavor _FLAVOR_SCHEMAS) KeyError in
      let url := str_concat [CFTC_SOCRATA_BASE; dataset; ".json"%string] in
      let! raw := cftc_get (c_http src) url (fetch_params code start end_) in
      let! page := _loads raw in
      let! rows := _as_list page in
      let! reports := rmap (fun row => let! row := _as_dict row in
                                       _parse_row row flavor schema (c_now src)) rows in
      Ok (sort_by report_date_leb reports)
  end.

#[global] Instance Cftc_source : COTSource (CFTCSocrataSource C) := {
  cot_source_id s := CFTC_SOURCE_ID;
  cot_tier s := T2_MACRO;
  fetch_reports := Cftc_fetch_reports;
  cot_healthcheck s := cot_default_healthcheck;
}.
End Live.

(** ** The replay *)
Record InMemoryCOTSource := { im_reports : list COTReport; im_source_id : string }.

Definition new_InMemoryCOTSource (reports : list COTReport) (source_id : string) : result InMemoryCOTSource :=
  guard! String.eqb source_id "" else ValueError in
  Ok {| im_reports := reports; im_source_id := source_id |}.

Definition in_query (code : string) (flavor : COTReportFlavor) (start end_ : date) (r : COTReport) : bool :=
  String.eqb (cr_market_code r) code && bool_decide (cr_flavor r = flavor)
  && (start <=? cr_report_date r) && (cr_report_date r <=? end_).

#[global] Instance InMemory_source : COTSource InMemoryCOTSource := {
  cot_source_id := im_source_id;
  cot_tier s := T4_DERIVED;
  fetch_reports s code flavor start end_ :=
    Ok (sort_by report_date_leb (List.filter (in_query code flavor start end_) (im_reports s)));
  cot_healthcheck s := cot_default_healthcheck;
}.

(** ** Facts *)
Definition report_sorted (rs : list COTReport) : Prop :=
  StronglySorted (fun a b => cr_report_date a <= cr_report_date b) rs.

Lemma sorted_by_date l : report_sorted (sort_by report_date_leb l).
Proof.
  assert (Hs : StronglySorted (fun x y => report_date_leb x y = true) (sort_by report_date_leb l)).
  { apply sort_by_sorted; unfold report_date_leb.
    - intros x y. rewrite !Z.leb_le. lia.
    - intros x y z. rewrite !Z.leb_le. lia. }
  unfold report_sorted. induction Hs as [|x xs Hs IH Hall]; constructor; [done|].
  eapply List.Forall_impl; [|exact Hall]. intros y Hy. by apply Z.leb_le.
Qed.

(** The exceptions a malformed page can raise. *)
Definition cftc_error (e : exn) : Prop :=
  e ∈ [CftcSocrataError; COTSchemaDriftError; COTSourceError; ValueError; OverflowError].

Ltac known_error := cbn; apply list_elem_of_In; cbn; tauto.

Lemma to_int_fails raw : fails_only cftc_error (_to_int raw).
Proof.
  assert (Ht : forall t, fails_only cftc_error (int_of_decimal_text t)).
  { intros t. unfold int_of_decimal_text. destruct (decimal_value_of_str t) as [[| |]|]; done || known_error. }
  destruct raw; cbn [_to_int]; try apply Ht; try done; known_error.
Qed.

Lemma as_str_fails j : fails_only cftc_error (_as_str j).
Proof. unfold _as_str. destruct j; cbn; try done; known_error. Qed.

Lemma as_dict_fails j : fails_only cftc_error (_as_dict j).
Proof. unfold _as_dict. destruct j; cbn; try done; known_error. Qed.

Lemma parse_date_fails j : fails_only cftc_error (_parse_socrata_date j).
Proof.
  unfold _parse_socrata_date. apply fails_bind; [apply as_str_fails|]. intros t _.
  destruct (if str_has "T" t then _ else _); [done|]. known_error.
Qed.

Lemma report_constructs_fails r : fails_only cftc_error (COTReport_post_init r).
Proof.
  unfold COTReport_post_init, _assert_tz_aware, reject.
  repeat match goal with |- context [if ?b then _ else _] => destruct b; cbn [rbind] end;
    try done; known_error.
Qed.

Section Facts.
Context {C : Type} `{CFTCHTTPClient C} `{EasternTime}.

Lemma known_at_fails d : fails_only cftc_error (value_known_at_for_report d).
Proof.
  unfold value_known_at_for_report. destruct (_ <? _); cbn; [known_error|done].
Qed.

Lemma parse_row_fails row flavor schema now : fails_only cftc_error (_parse_row row flavor schema now).
Proof.
  unfold _parse_row. apply fails_bind.
  { unfold reject. destruct (existsb _ _); [known_error|done]. }
  intros _ _. apply fails_bind; [apply parse_date_fails|]. intros d _.
  apply fails_bind.
  { destruct (dget _TRADERS_COL row); [|done]. apply fails_bind; [apply to_int_fails|done]. }
  intros tr _. apply fails_bind; [apply as_str_fails|]. intros code _.
  apply fails_bind; [apply known_at_fails|]. intros k _.
  do 5 (apply fails_bind; [apply to_int_fails|]; intros ? _). apply report_constructs_fails.
Qed.

Lemma COTReport_post_init_id r r' : COTReport_post_init r = Ok r' → r' = r.
Proof. unfold COTReport_post_init. intros E. by inv_ok. Qed.

Lemma parse_row_Ok row flavor schema now r : _parse_row row flavor schema now = Ok r →
  COTReport_post_init r = Ok r ∧ stamped r ∧ cr_flavor r = flavor ∧ cr_source_id r = CFTC_SOURCE_ID
  ∧ cr_content_bytes_sha r = content_sha256 (json_dumps compact_style (JObj row)).
Proof.
  intros E. unfold _parse_row in E.
  apply rbind_Ok in E as (? & _ & E). apply rbind_Ok in E as (d & _ & E). apply rbind_Ok in E as (? & _ & E).
  apply rbind_Ok in E as (? & _ & E). apply rbind_Ok in E as (k & Hk & E).
  do 5 (apply rbind_Ok in E as (? & _ & E)). pose proof (COTReport_post_init_id _ _ E) as ->.
  split; [exact E|]. split; [exact Hk|done].
Qed.

Lemma cftc_fetch_reports_inv (src : CFTCSocrataSource C) code flavor start end_ rs :
  fetch_reports src code flavor start end_ = Ok rs →
  report_sorted rs ∧ Forall (fun r => COTReport_post_init r = Ok r ∧ stamped r ∧ cr_flavor r = flavor
    ∧ exists row, cr_content_bytes_sha r = content_sha256 (json_dumps compact_style (JObj row))) rs
  ∧ start <= end_ ∧ flavor ≠ SUPPLEMENTAL.
Proof.
  intros E. cbn [fetch_reports Cftc_source] in E. unfold Cftc_fetch_reports in E.
  destruct (dget flavor _DATASET_IDS) as [ds|] eqn:Hds; [|done].
  apply rbind_Ok in E as (? & Hse%reject_Ok & E). apply rbind_Ok in E as (schema & _ & E).
  apply rbind_Ok in E as (raw & _ & E). apply rbind_Ok in E as (page & _ & E). apply rbind_Ok in E as (rows & _ & E).
  apply rbind_Ok in E as (reports & Hr & [= <-]). apply Z.ltb_ge in Hse.
  split; [apply sorted_by_date|]. split; [|split; [exact Hse|by intros ->]].
  apply List.Forall_forall. intros r Hin%sort_by_In. apply rmap_Ok in Hr.
  assert (Hx : exists x, (let! row := _as_dict x in _parse_row row flavor schema (c_now src)) = Ok r).
  { clear -Hr Hin. induction Hr as [|u w us ws Huw Hr IH]; [done|]. destruct Hin as [->|Hin]; [by exists u|auto]. }
  destruct Hx as (j & (row & _ & Hp)%rbind_Ok). apply parse_row_Ok in Hp as (P1 & P2 & P3 & _ & P5). eauto 6.
Qed.

(** the CFTC source fails closed.  A fetch that succeeds was asked for a flavor the source carries
    and a window that is not inverted, and returns reports in date order that all pass their
    construction checks, carry the requested flavor, the publication moment of their own week and the
    hash of their own row.  A fetch that fails raises the transport's error or one of a closed list:
    a row missing a column is schema drift, a value of the wrong shape is the source's error, and the
    two built-in errors are those of a report that cannot exist (a weekend or negative counts) and of
    a count written as an infinity. *)
Theorem cftc_fetch_closed (src : CFTCSocrataSource C) code flavor start end_ :
  match fetch_reports src code flavor start end_ with
  | Ok rs => report_sorted rs ∧ Forall (fun r => COTReport_post_init r = Ok r ∧ stamped r ∧ cr_flavor r = flavor
               ∧ exists row, cr_content_bytes_sha r = content_sha256 (json_dumps compact_style (JObj row))) rs
             ∧ start <= end_ ∧ flavor ≠ SUPPLEMENTAL
  | Err e => cftc_error e ∨ exists url params, cftc_get (c_http src) url params = Err e
  end.
Proof.
  destruct (fetch_reports src code flavor start end_) as [rs|e] eqn:E; [by eapply cftc_fetch_reports_inv|].
  cbn [fetch_reports Cftc_source] in E. unfold Cftc_fetch_reports in E.
  destruct (dget flavor _DATASET_IDS) as [ds|] eqn:Hds; [|injection E as <-; left; known_error].
  unfold reject in E. destruct (end_ <? start); cbn [rbind] in E; [injection E as <-; left; known_error|].
  assert (Hs : exists schema, dget flavor _FLAVOR_SCHEMAS = Some schema)
    by (destruct flavor; first [discriminate Hds|by eexists]).
  destruct Hs as [schema Hs]. rewrite Hs in E. cbn [of_option rbind] in E.
  destruct (cftc_get _ _ _) as [raw|e'] eqn:Hg; cbn [rbind] in E; [|injection E as <-; right; eauto].
  left. match type of E with ?m = _ => assert (Hf : fails_only cftc_error m) end; [|by rewrite E in Hf].
  apply fails_bind.
  { unfold _loads, json_of_bytes. destruct (json_loads raw); cbn; [done|known_error]. }
  intros page _. apply fails_bind.
  { unfold _as_list. destruct page; cbn; try done; known_error. }
  intros rows _. apply fails_bind; [|done]. apply rmap_fails. intros row.
  apply fails_bind; [apply as_dict_fails|]. intros fs _. apply parse_row_fails.
Qed.
End Facts.

(** the blackout, end to end.  What a strategy reads at an instant through the live CFTC source is
    sorted by snapshot date, and every report in it was snapshot on a weekday and published at 15:30
    New York time on the Friday of that week, at or before the instant: a Tuesday snapshot is
    invisible for the three full days after its date, whatever the daylight-saving offset and
    whatever the CFTC's answer holds. *)
Theorem cftc_blackout {C} `{CFTCHTTPClient C} `{EasternTimeLaws} (src : CFTCSocrataSource C) code flavor as_of since rs r :
  reports_known_at src code flavor as_of since = Ok rs → In r rs →
  report_sorted rs ∧ weekday (cr_report_date r) <= 4 ∧ cr_flavor r = flavor ∧
  (cr_report_date r + (4 - weekday (cr_report_date r))) * us_per_day + time_of 19 30 <= dt_instant as_of ∧
  (weekday (cr_report_date r) = 1 → (cr_report_date r + 3) * us_per_day <= dt_instant as_of).
Proof.
  intros Hrs Hin. destruct (reports_known_at_spec src code flavor as_of since) as [E Hall].
  split; [by apply Hall in Hrs as [? _]|].
  assert (Hst : stamped r ∧ cr_flavor r = flavor).
  { rewrite E in Hrs. destruct (dt_naive as_of); [done|].
    destruct (fetch_reports _ _ _ _ _) as [raw|] eqn:Ef; [|done]. injection Hrs as <-.
    apply sort_by_In, filter_In in Hin as [Hin _].
    apply cftc_fetch_reports_inv in Ef as (_ & Hf & _). rewrite List.Forall_forall in Hf.
    by destruct (Hf _ Hin) as (_ & ? & ? & _). }
  destruct Hst as [Hst Hfl]. destruct (cot_blackout src code flavor as_of since rs r Hrs Hin Hst) as (B1 & B2 & B3).
  split_and!; done.
Qed.

(** ** Witness: one canned page, New York on standard time *)
Module Page.
#[local] Instance standard_time : EasternTime := { et_offset t := -18000; et_utc_offset t := -18000 }.
#[local] Instance standard_time_laws : EasternTimeLaws.
Proof. constructor; intros t; by left. Qed.

Definition page (oi : string) : string :=
  String.append (dq "[{'report_date_as_yyyy_mm_dd':'2026-01-06T00:00:00.000','cftc_contract_market_code':'067651','m_money_positions_long_all':'250','m_money_positions_short_all':'40','prod_merc_positions_long':300,'prod_merc_positions_short':'500','open_interest_all':'")
    (String.append oi (dq "'}]")).

#[local] Instance client : CFTCHTTPClient string := { cftc_get oi url params := Ok (page oi) }.

Definition src (oi : string) : CFTCSocrataSource string := {| c_http := oi; c_now := mk_datetime 2026 1 12 0 0 0 0 (Some 0) |}.
Definition friday : datetime := mk_datetime 2026 1 9 20 30 0 0 (Some 0).

Lemma cftc_blackout_witness : exists r,
  reports_known_at (src "1500") "067651" DISAGGREGATED friday (mk_date 2026 1 1) = Ok [r] ∧
  cr_open_interest_all r = 1500 ∧ (cr_report_date r + 3) * us_per_day <= dt_instant friday ∧
  reports_known_at (src "1500") "067651" DISAGGREGATED (dt_add friday (-1)) (mk_date 2026 1 1) = Ok [].
Proof.
  eexists. run_as E. split; [vm_compute; reflexivity|].
  destruct (cftc_blackout _ _ _ _ _ _ _ E (or_introl eq_refl)) as (_ & _ & _ & _ & H3).
  split; [apply H3; vm_compute; reflexivity|vm_compute; reflexivity].
Defined.

(** A fraction is truncated without a word, and an infinity leaves as [OverflowError]. *)
Example fractional_count : exists r,
  fetch_reports (src "1500.9") "067651" DISAGGREGATED 0 1 = Ok [r] ∧ cr_open_interest_all r = 1500.
Proof. eexists. split; [vm_compute; reflexivity|reflexivity]. Qed.
Example infinite_count : fetch_reports (src "Infinity") "067651" DISAGGREGATED 0 1 = Err OverflowError.
Proof. vm_compute. reflexivity. Qed.
End Page.
