(* ===== verification/RiskManager.v ===== *)
(** * Position sizing

    futur3/execution/margin_source.py, futur3/execution/risk_manager.py and
    futur3/execution/fixed_size_risk_manager.py: the tighten-only sizing gate. The margin source
    is an interface; the survival bootstrap is the one of [Survival]. *)

From Stdlib Require Import QArith Qabs Lqa.
From S2P Require Import Prelude PyDecimal PyText PyFloat Types Survival.

#[local] Open Scope Z_scope.

(** ** margin_source.py *)

(** The [MarginSource] protocol: what the sizing gate asks of any margin provider. *)
Class MarginSource (S : Type) := {
  initial_margin : S -> string -> result decimal;
  known_roots : S -> list string;
}.

Record StaticMarginSource := { sms_margins : dict string decimal }.

#[global] Instance StaticMarginSource_source : MarginSource StaticMarginSource := {
  initial_margin s root := of_option (dget root (sms_margins s)) MarginSourceError;
  known_roots s := dkeys (sms_margins s);
}.

(** ** risk_manager.py: registries *)
Definition _SYMBOL_SUFFIX_LEN : nat := 3.
Definition _MIN_SURVIVAL_RETURNS : Z := 2.

Definition CONTRACT_INITIAL_MARGIN : dict string decimal :=
  [("ES", Dec 15400 0); ("MES", Dec 1540 0); ("NQ", Dec 22800 0); ("MNQ", Dec 2280 0);
   ("CL", Dec 7200 0); ("MCL", Dec 720 0); ("GC", Dec 26100 0); ("MGC", Dec 2610 0);
   ("MBT", Dec 2800 0); ("MET", Dec 1800 0); ("YM", Dec 1700 0); ("RTY", Dec 3000 0);
   ("6E", Dec 2600 0); ("6A", Dec 1800 0); ("ZN", Dec 2200 0); ("ZB", Dec 4000 0);
   ("6J", Dec 2860 0); ("6B", Dec 2090 0); ("6C", Dec 990 0); ("6S", Dec 4400 0);
   ("HG", Dec 13200 0); ("SI", Dec 46230 0); ("ZT", Dec 1320 0); ("ZF", Dec 1375 0);
   ("UB", Dec 5665 0); ("NKD", Dec 21874 0)].

Definition CONTRACT_MULTIPLIER : dict string decimal :=
  [("ES", Dec 50 0); ("MES", Dec 5 0); ("NQ", Dec 20 0); ("MNQ", Dec 2 0);
   ("CL", Dec 1000 0); ("MCL", Dec 100 0); ("GC", Dec 100 0); ("MGC", Dec 10 0);
   ("MBT", Dec 1 (-1)); ("MET", Dec 1 (-1)); ("YM", Dec 5 0); ("RTY", Dec 50 0);
   ("6E", Dec 125000 0); ("6A", Dec 100000 0); ("ZN", Dec 1000 0); ("ZB", Dec 1000 0);
   ("6J", Dec 12500000 0); ("6B", Dec 62500 0); ("6C", Dec 100000 0); ("6S", Dec 125000 0);
   ("HG", Dec 25000 0); ("SI", Dec 5000 0); ("ZT", Dec 2000 0); ("ZF", Dec 1000 0);
   ("UB", Dec 1000 0); ("NKD", Dec 5 0)].

Inductive BindingConstraint := kelly | margin | leverage | survival | no_edge.

#[global] Instance BindingConstraint_eq_dec : EqDecision BindingConstraint.
Proof. solve_decision. Defined.

Record RiskParams := {
  kelly_multiplier : decimal;
  margin_budget_pct : decimal;
  leverage_cap : decimal;
  survival_floor : decimal;
  kill_switch_dd : decimal;
  survival_horizon : Z;
  survival_paths : Z;
}.

Definition default_RiskParams : RiskParams := {|
  kelly_multiplier := Dec 25 (-2);
  margin_budget_pct := Dec 50 (-2);
  leverage_cap := Dec 3 0;
  survival_floor := Dec 995 (-3);
  kill_switch_dd := Dec 30 (-2);
  survival_horizon := 252;
  survival_paths := 10000;
|}.

Definition RiskParams_post_init (p : RiskParams) : result RiskParams :=
  guard! negb (dltb d0 (kelly_multiplier p) && dleb (kelly_multiplier p) d1) else ValueError in
  guard! negb (dltb d0 (margin_budget_pct p) && dleb (margin_budget_pct p) d1) else ValueError in
  guard! dleb (leverage_cap p) d0 else ValueError in
  guard! negb (dltb d0 (survival_floor p) && dltb (survival_floor p) d1) else ValueError in
  guard! negb (dltb d0 (kill_switch_dd p) && dltb (kill_switch_dd p) d1) else ValueError in
  guard! survival_horizon p <? 1 else ValueError in
  guard! survival_paths p <? 1 else ValueError in
  Ok p.

Record SizingDecision := {
  contracts : Z;
  binding_constraint : BindingConstraint;
  kelly_contracts : Z;
  margin_contracts : Z;
  leverage_contracts : Z;
  notional_per_contract : decimal;
  margin_per_contract : decimal;
  survival_contracts : option Z;
}.

Definition SizingDecision_post_init (d : SizingDecision) : result SizingDecision :=
  guard! contracts d <? 0 else ValueError in Ok d.

(** [s[:-3]] of a symbol such as ["ESM26"]; [err] is the module's own exception. *)
Definition symbol_root (err : exn) (contract : ContractSymbol) : result string :=
  guard! (String.length contract <=? _SYMBOL_SUFFIX_LEN)%nat else err in
  Ok (str_drop_last _SYMBOL_SUFFIX_LEN contract).

Definition _contract_root (contract : ContractSymbol) : result string :=
  symbol_root RiskManagerError contract.

Definition _lookup (registry : dict string decimal) (root : string) : result decimal :=
  of_option (dget root registry) RiskManagerError.

Definition _floor_to_int (value : decimal) : Z := dtrunc value.

Definition multiplier_for (contract : ContractSymbol) : result decimal :=
  let! root := _contract_root contract in
  _lookup CONTRACT_MULTIPLIER root.

Definition _binding (kelly_c margin_c leverage_c : Z) (survival_c : option Z) : BindingConstraint :=
  let caps := [(kelly, kelly_c); (margin, margin_c); (leverage, leverage_c)]
              ++ match survival_c with Some s => [(survival, s)] | None => [] end in
  let smallest := min_by Z.ltb kelly_c (map snd caps) in
  match List.find (fun nv => snd nv =? smallest) caps with
  | Some (name, _) => name
  | None => kelly
  end.

(** The binary search of [_survival_cap]; [hi - lo] steps are enough. *)
Fixpoint survival_search (survives : Z -> result bool) (fuel : nat) (lo hi : Z) : result Z :=
  match fuel with
  | O => Ok lo
  | S f =>
      if hi - lo <=? 1 then Ok lo
      else
        let mid := (lo + hi) / 2 in
        let! ok := survives mid in
        if ok : bool then survival_search survives f mid hi else survival_search survives f lo mid
  end.

Section RiskManager.
Context `{Libm} `{PyRandom}.
Context {MS : Type} `{MarginSource MS}.

Record RiskManager := { _params : RiskParams; _margin_source : MS }.

(** Does a position of [n] contracts pass the survival bootstrap? *)
Definition survives (p : RiskParams) (returns : list float) (notional account_equity : decimal)
  (seed : option Z) (n : Z) : result bool :=
  if n <=? 0 then Ok true
  else
  let! lev := ddiv (dmul (dec_of_Z n) notional) account_equity in
  let! prob := survival_probability returns (f_of_decimal lev) (survival_horizon p)
                 (survival_paths p) (f_of_decimal (kill_switch_dd p)) None seed in
  Ok (fleb (f_of_decimal (survival_floor p)) prob).

Definition _survival_cap (p : RiskParams) (returns : list float) (base : Z)
  (notional account_equity : decimal) (seed : option Z) : result Z :=
  if Z.of_nat (length returns) <? _MIN_SURVIVAL_RETURNS then Ok base
  else
  let! ok := survives p returns notional account_equity seed base in
  if ok : bool then Ok base
  else survival_search (survives p returns notional account_equity seed) (Z.to_nat base) 0 base.

Definition size_position (rm : RiskManager) (contract : ContractSymbol)
  (full_kelly_fraction account_equity price : decimal)
  (returns : option (list float)) (seed : option Z) : result SizingDecision :=
  let p := _params rm in
  guard! dleb account_equity d0 else ValueError in
  guard! dleb price d0 else ValueError in
  let! root := _contract_root contract in
  let! margin_amt := match initial_margin (_margin_source rm) root with
               | Err e => if exn_is e MarginSourceError then Err RiskManagerError else Err e
               | ok => ok
               end in
  let! mult := _lookup CONTRACT_MULTIPLIER root in
  let notional := dmul price mult in
  let! mq := ddiv (dmul account_equity (margin_budget_pct p)) margin_amt in
  let margin_c := _floor_to_int mq in
  let! lq := ddiv (dmul account_equity (leverage_cap p)) notional in
  let leverage_c := _floor_to_int lq in
  if dleb full_kelly_fraction d0
  then SizingDecision_post_init {|
       contracts := 0; binding_constraint := no_edge; kelly_contracts := 0;
       margin_contracts := margin_c; leverage_contracts := leverage_c;
       notional_per_contract := notional; margin_per_contract := margin_amt;
       survival_contracts := None |}
  else
  let kelly_capital := dmul (dmul full_kelly_fraction (kelly_multiplier p)) account_equity in
  let! kq := ddiv kelly_capital notional in
  let kelly_c := _floor_to_int kq in
  let base := Z.min (Z.min kelly_c margin_c) leverage_c in
  let! survival_c :=
    match returns with
    | Some rs => if 0 <? base
                 then let! c := _survival_cap p rs base notional account_equity seed in
                      Ok (Some c)
                 else Ok None
    | None => Ok None
    end in
  SizingDecision_post_init {|
    contracts := match survival_c with None => base | Some s => Z.min base s end;
    binding_constraint := _binding kelly_c margin_c leverage_c survival_c;
    kelly_contracts := kelly_c; margin_contracts := margin_c;
    leverage_contracts := leverage_c; notional_per_contract := notional;
    margin_per_contract := margin_amt; survival_contracts := survival_c |}.

(** ** fixed_size_risk_manager.py *)
Record FixedSizeRiskManager := { fs_base : RiskManager; _fixed : Z }.

Definition new_FixedSizeRiskManager (rm : RiskManager) (n : Z) : result FixedSizeRiskManager :=
  guard! n <? 1 else ValueError in Ok {| fs_base := rm; _fixed := n |}.

(** [dataclasses.replace(base, contracts=n)] constructs, and so checks, a new decision. *)
Definition replace_contracts (d : SizingDecision) (n : Z) : result SizingDecision :=
  SizingDecision_post_init {|
  contracts := n; binding_constraint := binding_constraint d;
  kelly_contracts := kelly_contracts d; margin_contracts := margin_contracts d;
  leverage_contracts := leverage_contracts d;
  notional_per_contract := notional_per_contract d;
  margin_per_contract := margin_per_contract d;
  survival_contracts := survival_contracts d |}.

Definition fixed_size_position (fm : FixedSizeRiskManager) (contract : ContractSymbol)
  (full_kelly_fraction account_equity price : decimal)
  (returns : option (list float)) (seed : option Z) : result SizingDecision :=
  let! base := size_position (fs_base fm) contract full_kelly_fraction account_equity price
               returns seed in
  if dleb full_kelly_fraction d0 then Ok base
  else
  let affordable := Z.min (margin_contracts base) (leverage_contracts base) in
  let affordable := match survival_contracts base with
                    | Some s => Z.min affordable s
                    | None => affordable
                    end in
  replace_contracts base (Z.min (_fixed fm) affordable).
End RiskManager.
Arguments RiskManager MS : clear implicits.
Arguments FixedSizeRiskManager MS : clear implicits.

Definition default_margin_source : StaticMarginSource :=
  {| sms_margins := CONTRACT_INITIAL_MARGIN |}.
Definition default_RiskManager : RiskManager StaticMarginSource :=
  {| _params := default_RiskParams; _margin_source := default_margin_source |}.

(** ** The tighten-only law *)

(** The cap a constraint name stands for. *)
Definition cap_of (d : SizingDecision) (b : BindingConstraint) : option Z :=
  match b with
  | kelly => Some (kelly_contracts d)
  | margin => Some (margin_contracts d)
  | leverage => Some (leverage_contracts d)
  | survival => survival_contracts d
  | no_edge => None
  end.

(** [c] is no more than each cap that was evaluated. *)
Definition under_caps (c : Z) (d : SizingDecision) : Prop :=
  forall b n, cap_of d b = Some n → c <= n.

Lemma SizingDecision_post_init_Ok d d' :
  SizingDecision_post_init d = Ok d' ↔ d' = d ∧ 0 <= contracts d.
Proof.
  unfold SizingDecision_post_init. split.
  - intros H. inv_ok. match goal with H : _ = false |- _ => apply Z.ltb_ge in H end. done.
  - intros [-> H]. apply Z.ltb_ge in H. by rewrite H.
Qed.

(** The name [_binding] reports is that of a smallest cap, the earliest one. *)
Lemma _binding_spec k m l s :
  let smallest := match s with Some n => Z.min (Z.min (Z.min k m) l) n
                             | None => Z.min (Z.min k m) l end in
  _binding k m l s =
    if k =? smallest then kelly else if m =? smallest then margin
    else if l =? smallest then leverage else survival.
Proof.
  unfold _binding. rewrite min_by_Z.
  destruct s as [s|]; cbn [app map snd fst foldl List.find]; rewrite Z.min_id;
    set (x := Z.min _ _); destruct (k =? x) eqn:E1; [done| |done|];
    (destruct (m =? x) eqn:E2; [done|]); (destruct (l =? x) eqn:E3; [done|]); [|lia].
  destruct (s =? x) eqn:E4; [done|lia].
Qed.

(** ** The binary search *)

(** From a bracket [lo] passing, [hi] failing, the search returns the last passing count before
    some failing one; [hi - lo] steps of fuel are enough. *)
Lemma survival_search_spec (sv : Z -> result bool) fuel lo hi r :
  lo < hi → hi - lo <= Z.of_nat fuel + 1 → sv lo = Ok true → sv hi = Ok false →
  survival_search sv fuel lo hi = Ok r →
  lo <= r < hi ∧ sv r = Ok true ∧ sv (r + 1) = Ok false.
Proof.
  revert lo hi. induction fuel as [|f IH]; intros lo hi Hlt Hf Hlo Hhi H; simpl in H.
  - injection H as <-. replace (lo + 1) with hi by lia. split; [lia|done].
  - destruct (hi - lo <=? 1) eqn:E; [apply Z.leb_le in E|apply Z.leb_gt in E].
    + injection H as <-. replace (lo + 1) with hi by lia. split; [lia|done].
    + inv_ok. rename x into ok.
      pose proof (mid_between lo hi ltac:(lia)) as Hm.
      destruct ok.
      * destruct (IH ((lo + hi) / 2) hi) as (? & ? & ?); [lia..|done|done|done|].
        split; [lia|done].
      * destruct (IH lo ((lo + hi) / 2)) as (? & ? & ?); [lia..|done|done|done|].
        split; [lia|done].
Qed.

Lemma survival_search_total (sv : Z -> result bool) fuel lo hi :
  (forall n, lo < n < hi → is_ok (sv n) = true) → is_ok (survival_search sv fuel lo hi) = true.
Proof.
  revert lo hi. induction fuel as [|f IH]; intros lo hi Hok; simpl; [done|].
  destruct (hi - lo <=? 1) eqn:E; [done|]. apply Z.leb_gt in E.
  pose proof (mid_between lo hi ltac:(lia)) as Hm.
  specialize (Hok ((lo + hi) / 2) Hm) as Hs. destruct (sv _) as [b|e]; [|done]. simpl.
  destruct b; apply IH; intros n Hn; apply Hok; lia.
Qed.

(** ** Rounding: a truncated decimal quotient bounds the product back *)
Definition size_slack : Q := ((1 + half_ulp) * (1 + div_ulp))%Q.

Lemma floor_cap_nonneg a b per q :
  ddiv (dmul a b) per = Ok q → 0 <= dcoef a → 0 <= dcoef b → 0 < dcoef per → 0 <= dtrunc q.
Proof.
  intros Hq Ha Hb Hp. apply dtrunc_nonneg. apply (ddiv_nonneg (dmul a b) per); auto with dec.
Qed.

Lemma floor_cap_bound equity pct per q n :
  0 <= dcoef equity → 0 <= dcoef pct → 0 < dcoef per →
  ddiv (dmul equity pct) per = Ok q → n <= dtrunc q →
  (inject_Z n * dval per <= dval equity * dval pct * size_slack)%Q.
Proof.
  intros He Hp Hper Hq Hn.
  assert (Hm : 0 <= dcoef (dmul equity pct)) by auto with dec.
  pose proof (ddiv_nonneg _ _ _ Hm Hper Hq) as Hqn.
  destruct (dtrunc_bounds q Hqn) as [Ht _].
  assert (Hn' : (inject_Z n <= dval q)%Q).
  { eapply Qle_trans; [|exact Ht]. by rewrite <- Zle_Qle. }
  apply dval_pos in Hper. apply dval_nonneg in Hm, He, Hp.
  assert (H1 : (inject_Z n * dval per <= dval q * dval per)%Q).
  { apply Qmult_le_compat_r; lra. }
  pose proof (ddiv_error _ _ _ Hq) as H2. rewrite (Qabs_pos (dval (dmul _ _))) in H2 by done.
  apply Qabs_Qle_condition in H2 as [_ H2].
  pose proof (dmul_error equity pct) as H3.
  assert (Hep : (0 <= dval equity * dval pct)%Q) by (by apply Qmult_le_0_compat).
  rewrite (Qabs_pos (dval equity * dval pct)) in H3 by done.
  apply Qabs_Qle_condition in H3 as [_ H3].
  set (m := dval (dmul equity pct)) in *. set (ep := (dval equity * dval pct)%Q) in *.
  assert (Hu : (0 <= div_ulp)%Q) by (by vm_compute).
  assert (H4 : (m * (1 + div_ulp) <= (ep * (1 + half_ulp)) * (1 + div_ulp))%Q).
  { apply Qmult_le_compat_r; lra. }
  unfold size_slack. rewrite Qmult_assoc. lra.
Qed.

(** Every multiplier of the registry is positive. *)
Lemma CONTRACT_MULTIPLIER_pos root m :
  dget root CONTRACT_MULTIPLIER = Some m → 0 < dcoef m.
Proof.
  intros H%dget_In.
  assert (Hall : forallb (fun kv => 0 <? dcoef (snd kv)) CONTRACT_MULTIPLIER = true)
    by reflexivity.
  rewrite forallb_forall in Hall. by apply Hall, Z.ltb_lt in H.
Qed.

Lemma RiskParams_post_init_Ok p p' :
  RiskParams_post_init p = Ok p' →
  p' = p ∧ 0 < dcoef (kelly_multiplier p) ∧ 0 < dcoef (margin_budget_pct p)
  ∧ 0 < dcoef (leverage_cap p) ∧ 1 <= survival_horizon p ∧ 1 <= survival_paths p.
Proof.
  unfold RiskParams_post_init. autorewrite with dec. intros H. inv_ok.
  repeat match goal with
  | H : negb _ = false |- _ => apply negb_false_iff, andb_true_iff in H as [? ?]
  end. split; [done|lia].
Qed.

Section RiskManagerTheorems.
Context `{Libm} `{PyRandom}.
Context {MS : Type} `{MarginSource MS}.
Implicit Types (rm : RiskManager MS) (fm : FixedSizeRiskManager MS).

(** What a returned decision says, branch by branch. *)
Lemma size_position_inv rm c k eq p rs seed d :
  size_position rm c k eq p rs seed = Ok d →
  exists root mg mult mq lq,
  0 < dcoef eq ∧ 0 < dcoef p ∧ symbol_root RiskManagerError c = Ok root
  ∧ initial_margin (_margin_source rm) root = Ok mg
  ∧ dget root CONTRACT_MULTIPLIER = Some mult
  ∧ ddiv (dmul eq (margin_budget_pct (_params rm))) mg = Ok mq
  ∧ ddiv (dmul eq (leverage_cap (_params rm))) (dmul p mult) = Ok lq
  ∧ notional_per_contract d = dmul p mult ∧ margin_per_contract d = mg
  ∧ margin_contracts d = dtrunc mq ∧ leverage_contracts d = dtrunc lq
  ∧ 0 <= contracts d
  ∧ if dleb k d0
    then contracts d = 0 ∧ binding_constraint d = no_edge ∧ survival_contracts d = None
    else
      binding_constraint d = _binding (kelly_contracts d) (margin_contracts d)
                               (leverage_contracts d) (survival_contracts d)
      ∧ let base := Z.min (Z.min (kelly_contracts d) (margin_contracts d))
                          (leverage_contracts d) in
        contracts d = match survival_contracts d with
                      | None => base
                      | Some s => Z.min base s
                      end.
Proof.
  unfold size_position, _contract_root, _lookup, _floor_to_int. autorewrite with dec.
  intros Hd. inv_ok. rename x1 into root, x2 into mg, x3 into mult, x4 into mq, x5 into lq.
  assert (Hmg : initial_margin (_margin_source rm) root = Ok mg).
  { destruct (initial_margin _ root) as [?|e]; [congruence|]. by destruct (exn_is e _). }
  assert (Hmu : dget root CONTRACT_MULTIPLIER = Some mult).
  { unfold of_option in *. destruct (dget root _); congruence. }
  exists root, mg, mult, mq, lq.
  do 2 (split; [lia|]). do 5 (split; [done|]).
  destruct (dcoef k <=? 0) eqn:Ek.
  - match goal with H : SizingDecision_post_init _ = _ |- _ =>
    apply SizingDecision_post_init_Ok in H as [-> Hc] end. done.
  - inv_ok. match goal with H : SizingDecision_post_init _ = _ |- _ =>
    apply SizingDecision_post_init_Ok in H as [-> Hc] end. done.
Qed.

(** C14: the sizing gate only tightens.  With an edge, the returned size is non-negative, no
larger than any cap that was evaluated (Kelly, margin, leverage and, when it ran, survival),
equal to the cap the reported binding constraint names, and survival is named only when it
is strictly below the other three.  Without an edge the size is zero. *)
Theorem size_position_tighten_only rm c k eq p rs seed d :
  size_position rm c k eq p rs seed = Ok d →
  0 <= contracts d
  ∧ if dleb k d0 then contracts d = 0 ∧ binding_constraint d = no_edge
  else under_caps (contracts d) d
       ∧ cap_of d (binding_constraint d) = Some (contracts d)
       ∧ (binding_constraint d = survival →
          contracts d < kelly_contracts d ∧ contracts d < margin_contracts d
          ∧ contracts d < leverage_contracts d).
Proof.
  intros (root & mg & mult & mq & lq & Hinv)%size_position_inv.
  destruct Hinv as (_&_&_&_&_&_&_&_&_&_&_& Hc & Hbr). split; [done|].
  destruct (dleb k d0); [naive_solver|]. destruct Hbr as [Hb Hbase].
  rewrite _binding_spec in Hb. destruct d as [n b kc mc lc nt pc sc]. simpl in *. subst b.
  split; [|split].
  - intros b v. destruct b; simpl; destruct sc; intros [= <-]; lia.
  - destruct sc as [s|]; rewrite Hbase; repeat (case_match; simpl); f_equal; lia.
  - destruct sc as [s|]; repeat (case_match; simpl); try discriminate; lia.
Qed.

(** the exposure bound.  With valid parameters and a positive margin per contract, the size
returned never ties up more initial margin than the margin budget, nor more notional than
the leverage cap allows, up to the rounding of two 28-digit decimal operations. *)
Theorem size_position_exposure rm c k eq p rs seed d :
  size_position rm c k eq p rs seed = Ok d →
  RiskParams_post_init (_params rm) = Ok (_params rm) →
  0 < dcoef (margin_per_contract d) →
  (inject_Z (contracts d) * dval (notional_per_contract d)
   <= dval eq * dval (leverage_cap (_params rm)) * size_slack)%Q
  ∧ (inject_Z (contracts d) * dval (margin_per_contract d)
     <= dval eq * dval (margin_budget_pct (_params rm)) * size_slack)%Q.
Proof.
  intros (root & mg & mult & mq & lq & Hinv)%size_position_inv Hp Hm.
  destruct Hinv as (He & Hpr &_&_& Hmu & Hmq & Hlq & Hn & Hmg & Hmc & Hlc & Hc & Hbr).
  apply RiskParams_post_init_Ok in Hp as (_ & _ & Hpct & Hlev & _).
  rewrite Hn, Hmg in *. apply CONTRACT_MULTIPLIER_pos in Hmu.
  assert (0 < dcoef (dmul p mult)) by (by apply dmul_pos).
  assert (contracts d <= Z.max 0 (dtrunc lq) ∧ contracts d <= Z.max 0 (dtrunc mq)) as [Hl' Hm'].
  { destruct (dleb k d0); [lia|]. destruct Hbr as [_ Hb]. cbv zeta in Hb.
  destruct (survival_contracts d); lia. }
  assert (0 <= dtrunc mq ∧ 0 <= dtrunc lq) as [].
  { split; eapply floor_cap_nonneg; try eassumption; lia. }
  split; (eapply floor_cap_bound; [..|eassumption|]; lia).
Qed.

(** the survival cap.  When there is enough history the binary search terminates with its
built-in step count on the boundary of the bootstrap: the returned count passes, one more
contract (if allowed by the base size) fails; if survival is monotone in the size, nothing
above the returned count passes. *)
Theorem survival_cap_boundary p rs base notional eq seed r :
  0 < base → _MIN_SURVIVAL_RETURNS <= Z.of_nat (length rs) →
  _survival_cap p rs base notional eq seed = Ok r →
  let sv := survives p rs notional eq seed in
  0 <= r <= base ∧ sv r = Ok true ∧ (r < base → sv (r + 1) = Ok false)
  ∧ ((forall m n, m <= n → sv n = Ok true → sv m = Ok true) →
   forall n, n <= base → sv n = Ok true → n <= r).
Proof.
  intros Hb Hlen. unfold _survival_cap. apply Z.ltb_ge in Hlen. rewrite Hlen.
  intros Hr. set (sv := survives p rs notional eq seed) in *. apply rbind_Ok in Hr as (ok & Hok & Hr).
  assert (Hmain : 0 <= r <= base ∧ sv r = Ok true ∧ (r < base → sv (r + 1) = Ok false)).
  { destruct ok; [injection Hr as <-; split; [lia|split; [done|lia]]|].
  assert (Hsv0 : sv 0 = Ok true) by done.
  destruct (survival_search_spec sv (Z.to_nat base) 0 base r) as (? & ? & ?);
    [lia..|done|done|done|]. split; [lia|done]. }
  destruct Hmain as (Hrange & Hr1 & Hr2). refine (conj Hrange (conj Hr1 (conj Hr2 _))).
  intros Hmono n Hn Hsv. destruct (decide (n <= r)); [done|].
  assert (sv (r + 1) = Ok true) by (apply (Hmono (r + 1) n); [lia|done]).
  rewrite Hr2 in * by lia. congruence.
Qed.

(** the sizing gate is total on valid inputs.  For valid parameters, a margin source that
answers a positive amount, a contract whose root has a multiplier, positive equity and price
and no survival check, a decision is returned: none of the divisions or the decision's own
check can raise. *)
Theorem size_position_total rm c k eq p seed root mg :
  RiskParams_post_init (_params rm) = Ok (_params rm) →
  symbol_root RiskManagerError c = Ok root →
  initial_margin (_margin_source rm) root = Ok mg → 0 < dcoef mg →
  dmem root CONTRACT_MULTIPLIER = true → 0 < dcoef eq → 0 < dcoef p →
  exists d, size_position rm c k eq p None seed = Ok d.
Proof.
  intros Hp Hroot Hmg Hpos Hmem He Hpr.
  apply RiskParams_post_init_Ok in Hp as (_ & Hkm & Hpct & Hlev & _).
  unfold dmem in Hmem. destruct (dget root CONTRACT_MULTIPLIER) as [mult|] eqn:Hmu; [|done].
  pose proof (CONTRACT_MULTIPLIER_pos _ _ Hmu) as Hmp.
  assert (Hn : 0 < dcoef (dmul p mult)) by (by apply dmul_pos).
  unfold size_position, _contract_root, _lookup, _floor_to_int. autorewrite with dec.
  replace (dcoef eq <=? 0) with false by lia. replace (dcoef p <=? 0) with false by lia.
  rewrite Hroot. cbn [reject rbind]. rewrite Hmg. cbn [rbind]. rewrite Hmu.
  cbn [rbind of_option].
  destruct (ddiv_ok (dmul eq (margin_budget_pct (_params rm))) mg) as [mq Hmq]; [lia|].
  destruct (ddiv_ok (dmul eq (leverage_cap (_params rm))) (dmul p mult)) as [lq Hlq]; [lia|].
  rewrite Hmq. cbn [rbind]. rewrite Hlq. cbn [rbind].
  destruct (Z.leb_spec (dcoef k) 0) as [Hk|Hk].
  { eexists. by apply SizingDecision_post_init_Ok. }
  destruct (ddiv_ok (dmul (dmul k (kelly_multiplier (_params rm))) eq) (dmul p mult))
  as [kq Hkq]; [lia|]. rewrite Hkq. cbn [rbind].
  eexists. apply SizingDecision_post_init_Ok. split; [done|]. cbn [contracts].
  assert (0 <= dtrunc mq ∧ 0 <= dtrunc lq ∧ 0 <= dtrunc kq) as (?&?&?); [|lia].
  repeat split; (eapply floor_cap_nonneg; [eassumption|..]; try apply dmul_nonneg; lia).
Qed.

(** the fixed-size sizer.  It returns a decision exactly when the base sizer does and the
caps are not negative; with an edge the size is the pinned count cut down to the margin,
leverage and survival caps - so it is never above what those caps allow, and it is exactly
the pinned count when they all allow it; without an edge it is the base decision. *)
Theorem fixed_size_position_spec fm c k eq p rs seed d :
  fixed_size_position fm c k eq p rs seed = Ok d →
  exists b, size_position (fs_base fm) c k eq p rs seed = Ok b
  ∧ if dleb k d0 then d = b ∧ contracts d = 0
  else 0 <= contracts d <= _fixed fm
       ∧ contracts d <= margin_contracts b ∧ contracts d <= leverage_contracts b
       ∧ (forall s, survival_contracts b = Some s → contracts d <= s)
       ∧ (_fixed fm <= margin_contracts b → _fixed fm <= leverage_contracts b →
          (forall s, survival_contracts b = Some s → _fixed fm <= s) →
          contracts d = _fixed fm)
       ∧ forall bc, cap_of d bc = cap_of b bc.
Proof.
  unfold fixed_size_position. intros (b & Hb & Hd)%rbind_Ok. exists b. split; [done|].
  destruct (dleb k d0) eqn:Ek.
  - injection Hd as <-. apply size_position_inv in Hb as (root & mg & mult & mq & lq & Hinv).
  destruct Hinv as (_&_&_&_&_&_&_&_&_&_&_&_& Hbr). rewrite Ek in Hbr. naive_solver.
  - unfold replace_contracts in Hd. apply SizingDecision_post_init_Ok in Hd as [-> Hc].
  cbn [contracts] in *. destruct (survival_contracts b) as [s|] eqn:Es.
  + repeat split; try lia.
    * by intros ? [= <-]; lia.
    * intros Hm Hl Hs. specialize (Hs s eq_refl). lia.
    * intros bc. destruct bc; simpl; congruence.
  + repeat split; try lia; try congruence. intros bc. destruct bc; simpl; congruence.
Qed.
End RiskManagerTheorems.

(** ** Witnesses

    The C library and the generator are parameters of the model; the witnesses use these. *)
#[local] Instance toy_libm : Libm := { log x := x; log10 x := x; pow x y := x }.
#[local] Instance toy_random : PyRandom := {
  rng := Z; rng_seed s := match s with Some n => n | None => 0 end;
  randrange g n := (g + 1, g mod n); random g := (g + 1, f_zero) }.

Definition wit_decision : result SizingDecision :=
  size_position default_RiskManager "MNQM26" (Dec 12 0) (Dec 50000 0) (Dec 15000 0) None None.

Lemma size_position_tighten_only_witness :
  exists d, wit_decision = Ok d ∧ 0 <= contracts d ∧ contracts d = 5.
Proof.
  eexists. split; [vm_compute; reflexivity|]. split; [|reflexivity].
  eapply (size_position_tighten_only default_RiskManager "MNQM26" (Dec 12 0) (Dec 50000 0)
            (Dec 15000 0) None None). vm_compute. reflexivity.
Defined.

Lemma size_position_exposure_witness :
  exists d, wit_decision = Ok d ∧
    (inject_Z (contracts d) * dval (margin_per_contract d)
       <= dval (Dec 50000 0) * dval (Dec 50 (-2)) * size_slack)%Q.
Proof.
  eexists. split; [vm_compute; reflexivity|].
  eapply (size_position_exposure default_RiskManager "MNQM26" (Dec 12 0) (Dec 50000 0)
            (Dec 15000 0) None None); [vm_compute; reflexivity|reflexivity|reflexivity].
Defined.

Definition wit_params : RiskParams := {|
  kelly_multiplier := Dec 25 (-2); margin_budget_pct := Dec 50 (-2); leverage_cap := Dec 3 0;
  survival_floor := Dec 995 (-3); kill_switch_dd := Dec 30 (-2);
  survival_horizon := 2; survival_paths := 2 |}.
Definition wit_returns : list float := repeat (f_of_decimal (Dec (-5) (-2))) 2.

(** Losing 5% a day for two days at leverage n: three contracts survive the 30% kill switch,
    four do not. *)
Lemma survival_cap_boundary_witness :
  _survival_cap wit_params wit_returns 8 (Dec 10000 0) (Dec 10000 0) None = Ok 3
  ∧ survives wit_params wit_returns (Dec 10000 0) (Dec 10000 0) None 4 = Ok false.
Proof.
  assert (E : _survival_cap wit_params wit_returns 8 (Dec 10000 0) (Dec 10000 0) None = Ok 3)
    by (vm_compute; reflexivity).
  split; [exact E|].
  apply (survival_cap_boundary wit_params wit_returns 8 (Dec 10000 0) (Dec 10000 0) None 3);
    [reflexivity|discriminate|exact E|reflexivity].
Defined.

Lemma size_position_total_witness :
  exists d, size_position default_RiskManager "ESH27" (Dec (-3) 0) (Dec 100 0) (Dec 1 0) None None
            = Ok d.
Proof.
  apply (size_position_total default_RiskManager "ESH27" (Dec (-3) 0) (Dec 100 0) (Dec 1 0) None
           "ES" (Dec 15400 0)); reflexivity.
Defined.

Lemma fixed_size_position_spec_witness :
  exists d, fixed_size_position {| fs_base := default_RiskManager; _fixed := 1 |} "MNQM26"
              (Dec 12 0) (Dec 50000 0) (Dec 15000 0) None None = Ok d ∧ contracts d = 1
            ∧ exists b, size_position default_RiskManager "MNQM26" (Dec 12 0) (Dec 50000 0)
                          (Dec 15000 0) None None = Ok b ∧ contracts b = 5.
Proof.
  eexists. split; [vm_compute; reflexivity|]. split; [reflexivity|].
  edestruct (fixed_size_position_spec {| fs_base := default_RiskManager; _fixed := 1 |} "MNQM26"
              (Dec 12 0) (Dec 50000 0) (Dec 15000 0) None None) as (b & Hb & _);
    [vm_compute; reflexivity|].
  exists b. split; [exact Hb|]. vm_compute in Hb. injection Hb as <-. reflexivity.
Defined.
