(* ===== verification/Slippage.v ===== *)
(** * futur3/execution/slippage.py

    The slippage seam of the backtest broker: the [SlippageModel] interface, its adverse-fill law,
    and the tick-haircut model with its band resolver. *)

From Stdlib Require Import QArith Qabs Lqa.
From S2P Require Import Prelude PyDecimal PyText PyTime Types Broker RiskManager.

#[local] Open Scope Z_scope.

(** A band is a string; [_BAND_TICKS_PER_SIDE] is the set of accepted ones. *)
Definition SlippageBand := string.
Definition SLIPPAGE_BAND_ENV_VAR : string := "FUTUR3_SLIPPAGE_BAND".
Definition DEFAULT_BAND : SlippageBand := "CONSERVATIVE".
Definition _BAND_TICKS_PER_SIDE : dict SlippageBand Z :=
  [("CONSERVATIVE", 2); ("REALISTIC", 1); ("PESSIMISTIC", 4)].

Definition CONTRACT_TICK_SIZE : dict string decimal :=
  [("ES", Dec 25 (-2)); ("MES", Dec 25 (-2)); ("NQ", Dec 25 (-2)); ("MNQ", Dec 25 (-2));
   ("CL", Dec 1 (-2)); ("MCL", Dec 1 (-2)); ("GC", Dec 10 (-2)); ("MGC", Dec 10 (-2));
   ("MBT", Dec 5 0); ("MET", Dec 5 (-1)); ("YM", Dec 1 0); ("RTY", Dec 10 (-2));
   ("6E", Dec 5 (-5)); ("6A", Dec 5 (-5)); ("ZN", Dec 15625 (-6)); ("ZB", Dec 3125 (-5));
   ("6J", Dec 5 (-7)); ("6B", Dec 1 (-4)); ("6C", Dec 5 (-5)); ("6S", Dec 1 (-4));
   ("HG", Dec 5 (-4)); ("SI", Dec 5 (-3)); ("ZT", Dec 390625 (-8)); ("ZF", Dec 78125 (-7));
   ("UB", Dec 3125 (-5)); ("NKD", Dec 5 0)].

Definition tick_size_for (contract : ContractSymbol) : result decimal :=
  let! root := symbol_root SlippageError contract in
  of_option (dget root CONTRACT_TICK_SIZE) SlippageError.

Definition resolve_slippage_band (env : dict string string) : result SlippageBand :=
  let raw := dget_or SLIPPAGE_BAND_ENV_VAR DEFAULT_BAND env in
  let normalized := str_upper (str_strip raw) in
  guard! negb (dmem normalized _BAND_TICKS_PER_SIDE) else UnknownSlippageBandError in
  Ok normalized.

(** The abstract class, and the convention its docstring states: a BUY fills no better than the
    intended price, a SELL no better. *)
Class SlippageModel (S : Type) := {
  apply_slippage : S -> decimal -> Side -> Z -> ContractSymbol -> datetime -> result decimal;
}.

Definition no_better (side : Side) (intended executed : decimal) : Prop :=
  match side with
  | BUY => (dval intended <= dval executed)%Q
  | SELL => (dval executed <= dval intended)%Q
  end.

Class SlippageLaws (S : Type) `{SlippageModel S} := {
  apply_slippage_adverse : forall m p side q c ts p',
    dcoef p < 10 ^ dprec → apply_slippage m p side q c ts = Ok p' → no_better side p p';
}.

(** The model object of the tick haircut: its band. *)
Record TickHaircutSlippageModel := { _band : SlippageBand }.

Definition new_TickHaircut (band : SlippageBand) : result TickHaircutSlippageModel :=
  guard! negb (dmem band _BAND_TICKS_PER_SIDE) else UnknownSlippageBandError in
  Ok {| _band := band |}.

Definition TickHaircut_from_env (env : dict string string) : result TickHaircutSlippageModel :=
  let! band := resolve_slippage_band env in new_TickHaircut band.

(** A band outside the table would be a [KeyError]; the constructor excludes it, so the lookup's
    default is never used. *)
Definition ticks_per_side (m : TickHaircutSlippageModel) : Z :=
  dget_or (_band m) 0 _BAND_TICKS_PER_SIDE.

Definition TickHaircut_apply (m : TickHaircutSlippageModel) (intended_price : decimal) (side : Side)
    (quantity : Z) (contract : ContractSymbol) (ts : datetime) : result decimal :=
  guard! dleb intended_price d0 else ValueError in
  guard! quantity <=? 0 else ValueError in
  let! _ := _assert_tz_aware ts in
  let! tick := tick_size_for contract in
  let adjustment := dmul tick (dec_of_Z (ticks_per_side m)) in
  Ok match side with
     | BUY => dadd intended_price adjustment
     | SELL => dsub intended_price adjustment
     end.

#[global] Instance TickHaircut_model : SlippageModel TickHaircutSlippageModel :=
  { apply_slippage := TickHaircut_apply }.

(** ** Facts *)
Lemma ticks_per_side_range m : 0 <= ticks_per_side m <= 4.
Proof. unfold ticks_per_side, dget_or. simpl. repeat case_decide; lia. Qed.

Lemma CONTRACT_TICK_SIZE_pos root t : dget root CONTRACT_TICK_SIZE = Some t → 0 < dcoef t < 10 ^ 6.
Proof.
  intros H%dget_In.
  assert (Hall : forallb (fun kv => (0 <? dcoef (snd kv)) && (dcoef (snd kv) <? 10 ^ 6))
                   CONTRACT_TICK_SIZE = true) by reflexivity.
  rewrite forallb_forall in Hall. apply Hall in H. simpl in H. lia.
Qed.

Lemma tick_size_for_pos c t : tick_size_for c = Ok t → 0 < dcoef t < 10 ^ 6.
Proof.
  unfold tick_size_for. intros (root & _ & H)%rbind_Ok.
  destruct (dget root CONTRACT_TICK_SIZE) as [t'|] eqn:E; [|done].
  injection H as <-. by eapply CONTRACT_TICK_SIZE_pos.
Qed.

Lemma no_better_adjust side p a :
  0 < dcoef p → dcoef p < 10 ^ dprec → 0 <= dcoef a →
  no_better side p (match side with BUY => dadd p a | SELL => dsub p a end).
Proof.
  intros Hp Hf Ha. apply dval_nonneg in Ha. unfold no_better, dsub, dadd. destruct side.
  - apply dfix_lower; [done|done|]. rewrite dval_dadd_exact. lra.
  - apply dfix_upper; [done|done|]. rewrite dval_dadd_exact, dval_dneg_exact. lra.
Qed.

(** The haircut obeys the interface's convention. *)
#[global] Instance TickHaircut_laws : SlippageLaws TickHaircutSlippageModel.
Proof.
  constructor. intros m p side q c ts p' Hf Hok. unfold apply_slippage, TickHaircut_model,
    TickHaircut_apply in Hok. rewrite dleb_0_r in Hok. inv_ok.
  match goal with H : tick_size_for _ = Ok _ |- _ => apply tick_size_for_pos in H end.
  apply no_better_adjust; [lia|done|]. apply dmul_nonneg; [lia|]. simpl.
  pose proof (ticks_per_side_range m). lia.
Qed.

Lemma dmul_tick_exact t n : 0 < dcoef t < 10 ^ 6 → 0 <= n <= 4 →
  (dval (dmul t (dec_of_Z n)) == inject_Z n * dval t)%Q.
Proof.
  intros Ht Hn. rewrite dval_dmul.
  - rewrite dval_Z. ring.
  - unfold fits, dmul_exact, dprec. simpl. nia.
Qed.

(** the tick-haircut model.  A model exists exactly for the three bands; on a valid fill it
    moves the price against the order by 1, 2 or 4 ticks of the contract: a BUY never fills below
    the intended price nor a SELL above it, and when the sum fits the 28-digit context the move is
    exactly that many ticks. *)
Theorem TickHaircut_apply_spec band m p side q c ts p' :
  new_TickHaircut band = Ok m → dcoef p < 10 ^ dprec →
  TickHaircut_apply m p side q c ts = Ok p' →
  exists tick n, tick_size_for c = Ok tick ∧ 0 < dcoef tick
    ∧ dget band _BAND_TICKS_PER_SIDE = Some n ∧ 1 <= n
    ∧ no_better side p p'
    ∧ let adj := dmul tick (dec_of_Z n) in
      (fits (dadd_exact p (match side with BUY => adj | SELL => dneg_exact adj end)) →
       (dval p' == dval p + inject_Z (signed_qty side n) * dval tick)%Q).
Proof.
  intros Hnew Hf Hok.
  pose proof (apply_slippage_adverse (S := TickHaircutSlippageModel) m p side q c ts p' Hf Hok) as Hadv.
  unfold new_TickHaircut, dmem in Hnew.
  destruct (dget band _BAND_TICKS_PER_SIDE) as [n|] eqn:Hn; cbn [negb reject rbind] in Hnew; [|done].
  injection Hnew as <-.
  unfold TickHaircut_apply in Hok. inv_ok. rename x2 into tick.
  assert (Hpos : 0 < dcoef tick < 10 ^ 6) by (by eapply tick_size_for_pos).
  pose proof (ticks_per_side_range {| _band := band |}) as Hr.
  unfold ticks_per_side, dget_or in *. cbn [_band] in *. rewrite Hn in *.
  assert (1 <= n) by (simpl in Hn; repeat case_decide; simplify_eq; lia).
  exists tick, n. split_and!; [done|lia|done|done|done|]. intros Hfits.
  destruct side; unfold dsub, signed_qty; rewrite dval_dadd by done.
  - by rewrite (dmul_tick_exact tick n Hpos Hr).
  - rewrite dval_dneg_exact, (dmul_tick_exact tick n Hpos Hr), inject_Z_opp. ring.
Qed.

Lemma TickHaircut_apply_spec_witness :
  TickHaircut_apply {| _band := DEFAULT_BAND |} (Dec 500000 (-2)) SELL 1 "ESM26" (DT 0 (Some 0))
    = Ok (Dec 499950 (-2))
  ∧ no_better SELL (Dec 500000 (-2)) (Dec 499950 (-2)).
Proof.
  split; [reflexivity|].
  edestruct (TickHaircut_apply_spec DEFAULT_BAND {| _band := DEFAULT_BAND |} (Dec 500000 (-2)) SELL
               1 "ESM26" (DT 0 (Some 0)) (Dec 499950 (-2))) as (t & n & _ & _ & _ & _ & Hno & _);
    [reflexivity|reflexivity|reflexivity|exact Hno].
Defined.
