(* ===== verification/Verifier.v ===== *)
(** * futur3/data/source.py and futur3/data/verifier.py

    The source seam and the cross-source consensus layer.  A data source is a record of its
    operations, each answering or raising; the clock is read once per verification and is an
    argument.  The verifier's only mutable state is its in-memory hash chain. *)

From Stdlib Require Import QArith.
From S2P Require Import Prelude PyDecimal PyText PyTime PyFloat Json Types.

#[local] Open Scope Z_scope.

(** ** source.py *)
Record DataSource := {
  source_id : string;
  tier : SourceTier;
  get_bars : ContractSymbol -> datetime -> datetime -> BarResolution -> result (list RawBar);
  get_ticks : ContractSymbol -> datetime -> datetime -> result (list RawTick);
  latest_settle : ContractSymbol -> datetime -> result (option Settle);
  healthcheck : bool;
}.

(** A subclass that overrides only [get_bars]. *)
Definition DataSource_defaults (id : string) (t : SourceTier)
    (bars : ContractSymbol -> datetime -> datetime -> BarResolution -> result (list RawBar))
    : DataSource := {|
  source_id := id; tier := t; get_bars := bars;
  get_ticks _ _ _ := Err TicksNotSupported;
  latest_settle _ _ := Err SettlesNotSupported;
  healthcheck := true |}.

(** ** verifier.py: constants and policy *)
Inductive PolicyKind := fail_closed | majority_vote | highest_tier.
Inductive ToleranceBand := TIGHT | NORMAL | WIDE.

#[global] Instance PolicyKind_eq_dec : EqDecision PolicyKind.
Proof. solve_decision. Defined.
#[global] Instance ToleranceBand_eq_dec : EqDecision ToleranceBand.
Proof. solve_decision. Defined.

Definition PolicyKind_str (k : PolicyKind) : string :=
  match k with
  | fail_closed => "fail_closed" | majority_vote => "majority_vote" | highest_tier => "highest_tier"
  end.
Definition ToleranceBand_str (b : ToleranceBand) : string :=
  match b with TIGHT => "TIGHT" | NORMAL => "NORMAL" | WIDE => "WIDE" end.

Definition T2_OR_BETTER_MAX_TIER : SourceTier := T2_MACRO.
Definition FIELD_SETTLE : string := "settle".
Definition FIELD_CLOSE : string := "close".
Definition FIELD_VOLUME : string := "volume".
Definition FIELD_OI : string := "oi".
Definition FIELD_TICK : string := "tick".
Definition FIELD_OHLC : string := "ohlc".

Definition _SETTLE_STATE_RANK (s : SettleState) : Z :=
  match s with live => 0 | preliminary => 1 | final => 2 end.

Definition _BAR_WINDOW_EPSILON : Z := 1000.
Definition WIDE_RELATIVE_TOLERANCE : decimal := Dec 5 (-2).

Inductive VerifierPolicy := Policy {
  policy_id : string;
  kind : PolicyKind;
  min_quorum : Z;
  tolerance_band : ToleranceBand;
  timeout_seconds : Z;
  require_tier_t2_or_better : bool;
  per_field_policy : list (string * VerifierPolicy);
}.

Definition resolve_for_field (p : VerifierPolicy) (field_name : string) : VerifierPolicy :=
  dget_or field_name p (per_field_policy p).

(** ** Verified records and diagnostic events *)
Record VerifiedSettle := {
  vs_contract : ContractSymbol;
  vs_as_of_date : date;
  vs_settle : decimal;
  vs_settle_state : SettleState;
  vs_n_sources_agreed : Z;
  vs_source_provenance_hashes : list string;
  vs_verifier_run_hash : string;
  vs_tier_used : SourceTier;
  vs_policy_id : string;
}.

Definition VerifiedSettle_post_init (v : VerifiedSettle) : result VerifiedSettle :=
  guard! hex_length_bad (vs_verifier_run_hash v) else ValueError in
  guard! existsb hex_length_bad (vs_source_provenance_hashes v) else ValueError in
  Ok v.

Record VerifiedBar := {
  vb_contract : ContractSymbol;
  vb_ts : datetime;
  vb_resolution : BarResolution;
  vb_open : decimal;
  vb_high : decimal;
  vb_low : decimal;
  vb_close : decimal;
  vb_volume : Z;
  vb_n_sources_agreed : Z;
  vb_source_provenance_hashes : list string;
  vb_verifier_run_hash : string;
  vb_prev_bar_hash : option string;
  vb_tier_used : SourceTier;
  vb_policy_id : string;
}.

Definition VerifiedBar_post_init (v : VerifiedBar) : result VerifiedBar :=
  guard! dt_naive (vb_ts v) else ValueError in
  guard! hex_length_bad (vb_verifier_run_hash v) else ValueError in
  guard! match vb_prev_bar_hash v with Some h => hex_length_bad h | None => false end
    else ValueError in
  Ok v.

Record DisagreementEvent := {
  de_contract : ContractSymbol;
  de_bar_ts : datetime;
  de_resolution : BarResolution;
  de_field : string;
  de_sources : list string;
  de_values : list string;
  de_diff_magnitude_max : string;
  de_tolerance_used : ToleranceBand;
  de_policy_kind : PolicyKind;
  de_quorum_required : Z;
  de_quorum_achieved : Z;
  de_detected_at : datetime;
  de_policy_id : string;
}.

Definition DisagreementEvent_post_init (d : DisagreementEvent) : result DisagreementEvent :=
  guard! dt_naive (de_detected_at d) else ValueError in
  guard! negb (length (de_sources d) =? length (de_values d))%nat else ValueError in
  Ok d.

Record IncompleteBar := {
  ib_contract : ContractSymbol;
  ib_bar_ts : datetime;
  ib_resolution : BarResolution;
  ib_n_sources_responded : Z;
  ib_n_sources_required : Z;
  ib_sources_pending : list string;
  ib_detected_at : datetime;
  ib_policy_id : string;
}.

Definition IncompleteBar_post_init (i : IncompleteBar) : result IncompleteBar :=
  guard! dt_naive (ib_detected_at i) else ValueError in Ok i.

(** The union a verification returns. *)
Inductive verdict (V : Type) :=
| Verified (v : V)
| Disagreement (d : DisagreementEvent)
| Incomplete (i : IncompleteBar).
Arguments Verified {V} v.
Arguments Disagreement {V} d.
Arguments Incomplete {V} i.

(** ** Hashes *)
Definition _source_provenance_hash (source_id : string) (as_of_iso : datetime)
    (content_bytes_sha : string) : string :=
  sha256_hex (str_join "||" [source_id; dt_iso as_of_iso; content_bytes_sha]).

Definition _tolerance_signature (p : VerifierPolicy) : string :=
  sha256_hex (json_dumps sorted_style (JObj
    [("policy_id", JStr (policy_id p));
     ("kind", JStr (PolicyKind_str (kind p)));
     ("min_quorum", JInt (min_quorum p));
     ("tolerance_band", JStr (ToleranceBand_str (tolerance_band p)));
     ("require_tier_t2_or_better", JBool (require_tier_t2_or_better p))]))%string.

Definition _compute_verifier_run_hash (resolved_policy : VerifierPolicy)
    (source_provenance_hashes : list string) (bar_identifier : string) : string :=
  let sorted_provenance := sort_by String.leb source_provenance_hashes in
  sha256_hex (str_join "||" [policy_id resolved_policy; str_join "||" sorted_provenance;
                             _tolerance_signature resolved_policy; bar_identifier]).

(** ** Consensus *)

(** [max(xs, key=rank)] of a non-empty list; the empty one is the [ValueError] of [max]. *)
Definition max_list {A} (ltb : A -> A -> bool) (l : list A) : result A :=
  match l with [] => Err ValueError | x :: xs => Ok (max_by ltb x xs) end.
Definition min_list {A} (ltb : A -> A -> bool) (l : list A) : result A :=
  match l with [] => Err ValueError | x :: xs => Ok (min_by ltb x xs) end.

Definition _settle_state_best (states : list SettleState) : result SettleState :=
  max_list (fun a b => _SETTLE_STATE_RANK a <? _SETTLE_STATE_RANK b) states.

(** [sorted(values)[len(values) // 2]] of a non-empty list. *)
Definition median (values : list decimal) : decimal :=
  nth (length values / 2) (sort_by dleb values) d0.

(** The WIDE band on the values [values], the shared part of both consensus checks. *)
Definition wide_consensus (values : list decimal) : result (bool * decimal * decimal) :=
  let m := median values in
  if deqb m d0 then
    let agreed := forallb (fun v => deqb v d0) values in
    if agreed then Ok (agreed, m, d0)
    else let! mx := max_list dltb (map dabs values) in Ok (agreed, m, mx)
  else
    let! rel := rmap (fun v => ddiv (dabs (dsub v m)) (dabs m)) values in
    let! max_relative := max_list dltb rel in
    Ok (dleb max_relative WIDE_RELATIVE_TOLERANCE, m, max_relative).

Definition _check_settle_consensus (settles : list Settle) (resolved_policy : VerifierPolicy)
    : result (bool * decimal * decimal) :=
  match map st_settle settles with
  | [] => Ok (false, d0, d0)
  | first :: rest =>
      let values := first :: rest in
      match tolerance_band resolved_policy with
      | WIDE => wide_consensus values
      | _ =>
          let! max_diff := max_list dltb (map (fun v => dabs (dsub v first)) values) in
          Ok (forallb (fun v => deqb v first) values, first, max_diff)
      end
  end.

Definition bars_equal (a b : RawBar) : bool :=
  deqb (rb_open a) (rb_open b) && deqb (rb_high a) (rb_high b) && deqb (rb_low a) (rb_low b)
  && deqb (rb_close a) (rb_close b) && (rb_volume a =? rb_volume b).

Definition _check_bar_consensus (bars : list RawBar) (resolved_policy : VerifierPolicy)
    : result (bool * RawBar * decimal) :=
  match bars with
  | [] => Err AssertionError
  | b0 :: rest =>
      let closes := map rb_close bars in
      let! ' (agreed, max_diff) :=
        match tolerance_band resolved_policy with
        | WIDE => let! ' (agreed, _, max_diff) := wide_consensus closes in Ok (agreed, max_diff)
        | _ =>
            let! max_diff :=
              max_list dltb (map (fun c => dabs (dsub c (rb_close b0))) closes) in
            Ok (forallb (fun b => bars_equal b b0) bars, max_diff)
        end in
      let representative := min_by (fun a b => String.ltb (rb_source_id a) (rb_source_id b)) b0 rest in
      Ok (agreed, representative, max_diff)
  end.

(** ** The verifier *)
Record MultiSourceVerifier := {
  _sources : list DataSource;
  _policy : VerifierPolicy;
  _prev_bar_hash : dict (ContractSymbol * BarResolution) string;
}.

Definition source_leb (a b : DataSource) : bool := String.leb (source_id a) (source_id b).

Definition new_MultiSourceVerifier (sources : list DataSource) (policy : VerifierPolicy)
    : result MultiSourceVerifier :=
  guard! match sources with [] => true | _ => false end else ValueError in
  Ok {| _sources := sort_by source_leb sources; _policy := policy; _prev_bar_hash := [] |}.

Definition SUPPORTED_BAR_RESOLUTIONS (r : BarResolution) : bool :=
  match r with SETTLE => false | _ => true end.

Definition tier_eligible (resolved : VerifierPolicy) (s : DataSource) : bool :=
  negb (require_tier_t2_or_better resolved)
  || (SourceTier_value (tier s) <=? SourceTier_value T2_OR_BETTER_MAX_TIER).

Definition _tier_filter (v : MultiSourceVerifier) (resolved : VerifierPolicy) : list DataSource :=
  List.filter (tier_eligible resolved) (_sources v).

(** The collection loop of both verifications: a source that answers [None] or raises a
    [DataSourceError] does not respond; any other exception propagates. *)
Fixpoint poll {A} (ask : DataSource -> result (option A)) (srcs : list DataSource)
    : result (list (DataSource * A) * list string) :=
  match srcs with
  | [] => Ok ([], [])
  | src :: rest =>
      match ask src with
      | Ok (Some a) =>
          let! ' (resp, pending) := poll ask rest in Ok ((src, a) :: resp, pending)
      | Ok None =>
          let! ' (resp, pending) := poll ask rest in Ok (resp, source_id src :: pending)
      | Err e =>
          if exn_is e DataSourceError
          then let! ' (resp, pending) := poll ask rest in Ok (resp, source_id src :: pending)
          else Err e
      end
  end.

Definition tier_ltb (a b : SourceTier) : bool := SourceTier_value a <? SourceTier_value b.

Definition settle_provenance (s : Settle) : result string :=
  let! ts := of_option (st_as_of_iso s) DataSourceError in
  Ok (_source_provenance_hash (st_source_id s) ts (st_content_bytes_sha s)).

Definition bar_provenance (b : RawBar) : string :=
  _source_provenance_hash (rb_source_id b) (rb_as_of_iso b) (rb_content_bytes_sha b).

Definition verify_settle (v : MultiSourceVerifier) (now : datetime) (contract : ContractSymbol)
    (as_of : datetime) : result (verdict VerifiedSettle) :=
  let resolved := resolve_for_field (_policy v) FIELD_SETTLE in
  let! ' (responding, not_responding) :=
    poll (fun src => latest_settle src contract as_of) (_tier_filter v resolved) in
  let n := Z.of_nat (length responding) in
  if n <? min_quorum resolved then
    let! i := IncompleteBar_post_init {|
      ib_contract := contract; ib_bar_ts := as_of; ib_resolution := SETTLE;
      ib_n_sources_responded := n; ib_n_sources_required := min_quorum resolved;
      ib_sources_pending := not_responding; ib_detected_at := now;
      ib_policy_id := policy_id resolved |} in
    Ok (Incomplete i)
  else
    let settles := map snd responding in
    let! ' (agreed, consensus, max_diff) := _check_settle_consensus settles resolved in
    if negb agreed then
      let! d := DisagreementEvent_post_init {|
        de_contract := contract; de_bar_ts := as_of; de_resolution := SETTLE;
        de_field := FIELD_SETTLE; de_sources := map (fun sv => source_id (fst sv)) responding;
        de_values := map (fun s => str_decimal (st_settle s)) settles;
        de_diff_magnitude_max := str_decimal max_diff;
        de_tolerance_used := tolerance_band resolved; de_policy_kind := kind resolved;
        de_quorum_required := min_quorum resolved; de_quorum_achieved := n;
        de_detected_at := now; de_policy_id := policy_id resolved |} in
      Ok (Disagreement d)
    else
      let! prov := rmap settle_provenance settles in
      let! as_of_date := of_option (head (map st_as_of_date settles)) ValueError in
      let bar_id := str_join "||" [contract; date_iso as_of_date; BarResolution_value SETTLE] in
      let run_hash := _compute_verifier_run_hash resolved prov bar_id in
      let! best_state := _settle_state_best (map st_settle_state settles) in
      let! best_tier := min_list tier_ltb (map (fun sv => tier (fst sv)) responding) in
      let! vs := VerifiedSettle_post_init {|
        vs_contract := contract; vs_as_of_date := as_of_date; vs_settle := consensus;
        vs_settle_state := best_state; vs_n_sources_agreed := n;
        vs_source_provenance_hashes := prov; vs_verifier_run_hash := run_hash;
        vs_tier_used := best_tier; vs_policy_id := policy_id resolved |} in
      Ok (Verified vs).

Definition set_prev_bar_hash (d : dict (ContractSymbol * BarResolution) string)
    (v : MultiSourceVerifier) : MultiSourceVerifier :=
  {| _sources := _sources v; _policy := _policy v; _prev_bar_hash := d |}.

(** What one source contributes to [verify_bar]: its first bar exactly at [bar_ts]. *)
Definition bar_at (contract : ContractSymbol) (bar_ts : datetime) (resolution : BarResolution)
    (src : DataSource) : result (option RawBar) :=
  let! bars := get_bars src contract bar_ts (dt_add bar_ts _BAR_WINDOW_EPSILON) resolution in
  Ok (List.find (fun b => dt_eqb (rb_ts b) bar_ts) bars).

Definition verify_bar (now : datetime) (contract : ContractSymbol) (bar_ts : datetime)
    (resolution : BarResolution) : M MultiSourceVerifier (verdict VerifiedBar) :=
  lift (reject (dt_naive bar_ts) ValueError) ;;
  lift (reject (negb (SUPPORTED_BAR_RESOLUTIONS resolution)) ValueError) ;;
  v <- get ;;
  let resolved := resolve_for_field (_policy v) FIELD_OHLC in
  do (responding, not_responding) <-
    lift (poll (bar_at contract bar_ts resolution) (_tier_filter v resolved)) ;;
  let n := Z.of_nat (length responding) in
  if n <? min_quorum resolved then
    i <- lift (IncompleteBar_post_init {|
      ib_contract := contract; ib_bar_ts := bar_ts; ib_resolution := resolution;
      ib_n_sources_responded := n; ib_n_sources_required := min_quorum resolved;
      ib_sources_pending := not_responding; ib_detected_at := now;
      ib_policy_id := policy_id resolved |}) ;;
    ret (Incomplete i)
  else
    let raw_bars := map snd responding in
    do (agreed, representative, max_diff) <- lift (_check_bar_consensus raw_bars resolved) ;;
    if negb agreed then
      d <- lift (DisagreementEvent_post_init {|
        de_contract := contract; de_bar_ts := bar_ts; de_resolution := resolution;
        de_field := FIELD_CLOSE; de_sources := map (fun sv => source_id (fst sv)) responding;
        de_values := map (fun b => str_decimal (rb_close b)) raw_bars;
        de_diff_magnitude_max := str_decimal max_diff;
        de_tolerance_used := tolerance_band resolved; de_policy_kind := kind resolved;
        de_quorum_required := min_quorum resolved; de_quorum_achieved := n;
        de_detected_at := now; de_policy_id := policy_id resolved |}) ;;
      ret (Disagreement d)
    else
      let prov := map bar_provenance raw_bars in
      let bar_id := str_join "||" [contract; dt_iso bar_ts; BarResolution_value resolution] in
      let run_hash := _compute_verifier_run_hash resolved prov bar_id in
      let prev_hash := dget (contract, resolution) (_prev_bar_hash v) in
      modify (set_prev_bar_hash (dset (contract, resolution) run_hash (_prev_bar_hash v))) ;;
      best_tier <- lift (min_list tier_ltb (map (fun sv => tier (fst sv)) responding)) ;;
      vb <- lift (VerifiedBar_post_init {|
        vb_contract := contract; vb_ts := bar_ts; vb_resolution := resolution;
        vb_open := rb_open representative; vb_high := rb_high representative;
        vb_low := rb_low representative; vb_close := rb_close representative;
        vb_volume := rb_volume representative; vb_n_sources_agreed := n;
        vb_source_provenance_hashes := prov; vb_verifier_run_hash := run_hash;
        vb_prev_bar_hash := prev_hash; vb_tier_used := best_tier;
        vb_policy_id := policy_id resolved |}) ;;
      ret (Verified vb).

(** ** Facts: orders, hashes, polling *)
Lemma source_leb_total a b : source_leb a b = true ∨ source_leb b a = true.
Proof. apply String.leb_total. Qed.
Lemma source_leb_trans a b c : source_leb a b = true → source_leb b c = true → source_leb a c = true.
Proof. apply string_leb_trans. Qed.

#[local] Arguments _compute_verifier_run_hash : simpl never.
#[local] Arguments hex_length_bad : simpl never.

Lemma run_hash_length p h i : hex_length_bad (_compute_verifier_run_hash p h i) = false.
Proof. apply hex_length_sha. Qed.

Lemma sort_strings_perm l1 l2 : Permutation l1 l2 → sort_by String.leb l1 = sort_by String.leb l2.
Proof.
  intros Hp. apply (sorted_unique (fun a b => String.leb a b = true)).
  - apply sort_by_sorted; [apply String.leb_total|apply string_leb_trans].
  - apply sort_by_sorted; [apply String.leb_total|apply string_leb_trans].
  - by rewrite <- !sort_by_perm.
  - intros x y _ _. apply String.leb_antisym.
Qed.

Lemma max_list_spec {A} (ltb : A -> A -> bool) l m : max_list ltb l = Ok m → In m l.
Proof. destruct l; [done|]. intros [= <-]. apply max_by_In. Qed.

Lemma max_list_Z {A} (rank : A -> Z) l m :
  max_list (fun a b => rank a <? rank b) l = Ok m → forall x, In x l → rank x <= rank m.
Proof.
  destruct l as [|y ys]; [done|]. intros [= <-] x Hx.
  apply (@max_by_ge _ _ (fun a b => rank a <= rank b)); try done.
  - intros a. lia.
  - intros a b c. lia.
  - intros a b. lia.
  - intros a b. lia.
Qed.

Lemma min_list_Z {A} (rank : A -> Z) l m :
  min_list (fun a b => rank a <? rank b) l = Ok m → In m l ∧ forall x, In x l → rank m <= rank x.
Proof.
  destruct l as [|y ys]; [done|]. intros [= <-]. split; [apply min_by_In|]. intros x Hx.
  apply (@min_by_le _ _ (fun a b => rank a <= rank b)); try done.
  - intros a. lia.
  - intros a b c. lia.
  - intros a b. lia.
  - intros a b. lia.
Qed.

Lemma max_list_dec l m :
  max_list dltb l = Ok m → forall x, In x l → (dval x <= dval m)%Q.
Proof.
  destruct l as [|y ys]; [done|]. intros [= <-] x Hx.
  apply (@max_by_ge _ _ (fun a b => (dval a <= dval b)%Q)); try done.
  - intros a. apply Qle_refl.
  - intros a b c. apply Qle_trans.
  - intros a b H%dltb_spec. by apply Qlt_le_weak.
  - intros a b H. by apply dltb_false.
Qed.

(** Every source polled either responds with a record or is listed as pending. *)
Lemma poll_spec {A} (ask : DataSource -> result (option A)) srcs resp pending :
  poll ask srcs = Ok (resp, pending) →
  (forall s a, In (s, a) resp ↔ In s srcs ∧ ask s = Ok (Some a))
  ∧ (length resp + length pending = length srcs)%nat
  ∧ forall s e, In s srcs → ask s = Err e → exn_is e DataSourceError = true.
Proof.
  revert resp pending. induction srcs as [|src srcs IH]; intros resp pending; simpl.
  { intros [= <- <-]. simpl. split_and!; [intros; tauto|done|done]. }
  destruct (ask src) as [[a|]|e] eqn:E; [..|destruct (exn_is e DataSourceError) eqn:Ee; [|done]];
    intros ([r p] & Hp & [= <- <-])%rbind_Ok; destruct (IH r p Hp) as (H1 & H2 & H3);
    (split; [|split; [simpl; lia|]]); simpl; intros s.
  all: try (intros e' [->|?] ?; [congruence|eauto]).
  all: intros a'; rewrite H1; split;
    [try intros [[= <- <-]|[? ?]]; try intros [? ?]; auto
    | intros [[<-|?] ?]; first [by auto | congruence | left; congruence]].
Qed.

(** The responders are some of the sources asked, each once. *)
Lemma poll_sublist {A} (ask : DataSource -> result (option A)) srcs resp pending :
  poll ask srcs = Ok (resp, pending) → map fst resp `sublist_of` srcs.
Proof.
  revert resp pending. induction srcs as [|src srcs IH]; intros resp pending; simpl; [by intros [= <- _]|].
  destruct (ask src) as [[a|]|e]; [..|destruct (exn_is e DataSourceError); [|done]];
    intros ([r p] & Hp%IH & [= <- _])%rbind_Ok; by constructor.
Qed.

Lemma poll_ok {A} (ask : DataSource -> result (option A)) srcs :
  (forall s e, In s srcs → ask s = Err e → exn_is e DataSourceError = true) →
  exists resp pending, poll ask srcs = Ok (resp, pending).
Proof.
  induction srcs as [|src srcs IH]; intros Hs; simpl; [eauto|].
  destruct IH as (r & p & ->); [naive_solver|].
  destruct (ask src) as [[a|]|e] eqn:E; simpl; eauto.
  rewrite (Hs src e) by (by left || done). eauto.
Qed.

(** ** Facts: consensus *)

(** Relative closeness in the WIDE band, as the code computes it. *)
Definition close_to (m v : decimal) : Prop :=
  deq v m
  ∨ exists q, ddiv (dabs (dsub v m)) (dabs m) = Ok q
              ∧ (dval q <= dval WIDE_RELATIVE_TOLERANCE)%Q.

Definition within_band (b : ToleranceBand) (m v : decimal) : Prop :=
  match b with WIDE => close_to m v | _ => deq v m end.

Lemma median_In l : l ≠ [] → In (median l) l.
Proof.
  intros Hl. apply (sort_by_In dleb). unfold median. apply nth_In. rewrite sort_by_length.
  apply Nat.div_lt; [destruct l; [done|simpl; lia]|lia].
Qed.

Lemma wide_consensus_sound l m diff :
  l ≠ [] → wide_consensus l = Ok (true, m, diff) → In m l ∧ forall v, In v l → close_to m v.
Proof.
  intros Hl. unfold wide_consensus. pose proof (median_In l Hl) as Hin.
  destruct (deqb (median l) d0) eqn:Em.
  - destruct (forallb _ l) eqn:Eall; intros H; [|inv_ok]. injection H as <- _.
    split; [done|]. intros v Hv. left. rewrite forallb_forall in Eall.
    apply deqb_spec in Em. apply Eall, deqb_spec in Hv. by rewrite Hv, Em.
  - intros (rel & Hrel & (mx & Hmx & H)%rbind_Ok)%rbind_Ok. injection H as Hle <- <-.
    split; [done|]. intros v Hv. right. destruct (rmap_In _ _ _ v Hrel Hv) as (q & Hq & Hin').
    apply dleb_spec in Hle. exists q. split; [done|]. eapply Qle_trans; [|exact Hle].
    by eapply max_list_dec.
Qed.

Lemma wide_consensus_ok l : l ≠ [] → exists r, wide_consensus l = Ok r.
Proof.
  intros Hl. unfold wide_consensus. destruct l as [|x xs]; [done|].
  destruct (deqb (median (x :: xs)) d0) eqn:Em.
  - destruct (forallb _ _); simpl; eauto.
  - assert (Hm : dcoef (dabs (median (x :: xs))) ≠ 0).
    { unfold dabs. rewrite dfix_zero. simpl. rewrite Z.abs_0_iff. intros H.
      assert (Hz : deqb (median (x :: xs)) d0 = true); [|congruence].
      apply deqb_spec. unfold deq, dval. by rewrite H. }
    set (m := median (x :: xs)) in *. clearbody m.
    destruct (rmap_total (fun v => ddiv (dabs (dsub v m)) (dabs m)) (x :: xs))
      as (rel & -> & Hlen); [intros; by apply ddiv_ok|]. simpl.
    destruct rel; [done|]. simpl. eauto.
Qed.

Lemma settle_consensus_sound l p m diff :
  _check_settle_consensus l p = Ok (true, m, diff) →
  l ≠ [] ∧ In m (map st_settle l)
  ∧ forall s, In s l → within_band (tolerance_band p) m (st_settle s).
Proof.
  unfold _check_settle_consensus. intros H. destruct l as [|s0 l]; [done|].
  cbn [map] in *. split; [done|].
  destruct (tolerance_band p) eqn:Eb.
  3: { apply wide_consensus_sound in H as [Hm Hall]; [|done]. split; [done|].
       intros s Hs. apply Hall. by apply (in_map st_settle (s0 :: l)). }
  all: apply rbind_Ok in H as (mx & _ & H); injection H as Hall <- _;
    split; [by left|]; intros s Hs; apply (in_map st_settle (s0 :: l)) in Hs;
    change (forallb (fun v => deqb v (st_settle s0)) (map st_settle (s0 :: l)) = true) in Hall;
    rewrite forallb_forall in Hall; by apply Hall, deqb_spec in Hs.
Qed.

Lemma settle_consensus_ok l p : exists r, _check_settle_consensus l p = Ok r.
Proof.
  unfold _check_settle_consensus. destruct (map st_settle l) as [|x xs]; [eauto|].
  destruct (tolerance_band p); simpl; eauto. by apply wide_consensus_ok.
Qed.

(** What agreement of bars means in each band. *)
Definition bars_agree (b : ToleranceBand) (m : decimal) (r a : RawBar) : Prop :=
  match b with
  | WIDE => close_to m (rb_close a)
  | _ => bars_equal a r = true
  end.

Lemma bars_equal_spec a b :
  bars_equal a b = true ↔
  deq (rb_open a) (rb_open b) ∧ deq (rb_high a) (rb_high b) ∧ deq (rb_low a) (rb_low b)
  ∧ deq (rb_close a) (rb_close b) ∧ rb_volume a = rb_volume b.
Proof. unfold bars_equal. rewrite !andb_true_iff, !deqb_spec, Z.eqb_eq. tauto. Qed.

Lemma bars_equal_join a b c :
  bars_equal a c = true → bars_equal b c = true → bars_equal a b = true.
Proof.
  rewrite !bars_equal_spec. intros (-> & -> & -> & -> & ->) (-> & -> & -> & -> & ->). done.
Qed.

Lemma bar_consensus_sound l p r diff :
  _check_bar_consensus l p = Ok (true, r, diff) →
  In r l ∧ (forall b, In b l → String.leb (rb_source_id r) (rb_source_id b) = true)
  ∧ exists m, In m (map rb_close l)
    ∧ forall b, In b l → bars_agree (tolerance_band p) m r b.
Proof.
  unfold _check_bar_consensus. intros H. destruct l as [|b0 l]; [done|].
  apply rbind_Ok in H as ([agreed mx] & Hag & H). injection H as -> Hr <-. subst.
  set (r := min_by _ b0 l). split; [apply min_by_In|]. split.
  { intros b Hb.
    apply (@min_by_le _ _ (fun a b => String.leb (rb_source_id a) (rb_source_id b) = true)); try done.
    - intros a. by destruct (String.leb_total (rb_source_id a) (rb_source_id a)).
    - intros x y z. apply string_leb_trans.
    - intros x y. unfold String.ltb, String.leb. by destruct (String.compare _ _).
    - intros x y Hlt. unfold String.ltb in Hlt. unfold String.leb.
      rewrite String.compare_antisym. by destruct (String.compare _ _). }
  assert (Hin : In r (b0 :: l)) by apply min_by_In.
  destruct (tolerance_band p).
  3: { apply rbind_Ok in Hag as ([[ag m] d] & Hw & Hag). injection Hag as -> ->.
       apply wide_consensus_sound in Hw as [Hm Hall]; [|done]. exists m. split; [done|].
       intros b Hb. apply Hall. by apply (in_map rb_close (b0 :: l)). }
  all: apply rbind_Ok in Hag as (d & _ & Hag); injection Hag as Hall ->;
    exists (rb_close b0); split; [by left|]; intros b Hb; simpl;
    change (forallb (fun b => bars_equal b b0) (b0 :: l) = true) in Hall;
    rewrite forallb_forall in Hall; apply (bars_equal_join _ _ b0); by apply Hall.
Qed.

Lemma bar_consensus_ok l p : l ≠ [] → exists r, _check_bar_consensus l p = Ok r.
Proof.
  unfold _check_bar_consensus. destruct l as [|b0 l]; [done|]. intros _.
  destruct (tolerance_band p); simpl; eauto.
  destruct (wide_consensus_ok (rb_close b0 :: map rb_close l)) as [[[a m] d] ->]; [done|].
  simpl. eauto.
Qed.

(** ** Facts: one verification *)
Lemma tier_filter_In v p s :
  In s (_tier_filter v p) ↔ In s (_sources v) ∧ tier_eligible p s = true.
Proof. unfold _tier_filter. apply filter_In. Qed.

Lemma map_length_pair {A B C D} (f : A * B -> C) (g : B -> D) (l : list (A * B)) :
  length (map f l) = length (map g (map snd l)).
Proof. by rewrite !length_map. Qed.

Definition verifier_wf (v : MultiSourceVerifier) : Prop :=
  forall k h, dget k (_prev_bar_hash v) = Some h → hex_length_bad h = false.

(** A returned [VerifiedBar]: who responded, what they agreed on, and the one state change. *)
Lemma verify_bar_verified now c t r v v' vb :
  verify_bar now c t r v = (v', Ok (Verified vb)) →
  let p := resolve_for_field (_policy v) FIELD_OHLC in
  exists resp pending rep diff,
    poll (bar_at c t r) (_tier_filter v p) = Ok (resp, pending)
    ∧ min_quorum p <= Z.of_nat (length resp)
    ∧ _check_bar_consensus (map snd resp) p = Ok (true, rep, diff)
    ∧ vb_contract vb = c ∧ vb_ts vb = t ∧ vb_resolution vb = r
    ∧ vb_open vb = rb_open rep ∧ vb_high vb = rb_high rep ∧ vb_low vb = rb_low rep
    ∧ vb_close vb = rb_close rep ∧ vb_volume vb = rb_volume rep
    ∧ vb_n_sources_agreed vb = Z.of_nat (length resp)
    ∧ vb_source_provenance_hashes vb = map bar_provenance (map snd resp)
    ∧ min_list tier_ltb (map (fun sv => tier (fst sv)) resp) = Ok (vb_tier_used vb)
    ∧ vb_prev_bar_hash vb = dget (c, r) (_prev_bar_hash v)
    ∧ vb_verifier_run_hash vb = _compute_verifier_run_hash p (vb_source_provenance_hashes vb)
        (str_join "||" [c; dt_iso t; BarResolution_value r])
    ∧ v' = set_prev_bar_hash (dset (c, r) (vb_verifier_run_hash vb) (_prev_bar_hash v)) v.
Proof.
  unfold verify_bar, lift. intros H. inv_ok.
  match goal with x : _ * _ |- _ => destruct x as [resp pending] end.
  cbv zeta in *. destruct (Z.of_nat (length resp) <? min_quorum _) eqn:Eq; inv_ok.
  match goal with x : _ * _ * _ |- _ => destruct x as [[agreed rep] diff] end.
  destruct agreed; cbn [negb] in *; inv_ok. apply Z.ltb_ge in Eq.
  match goal with H : VerifiedBar_post_init _ = _ |- _ => unfold VerifiedBar_post_init in H end.
  inv_ok. exists resp, pending, rep, diff. repeat split; done.
Qed.

Lemma VerifiedBar_post_init_ok vb :
  dt_naive (vb_ts vb) = false → hex_length_bad (vb_verifier_run_hash vb) = false →
  (forall h, vb_prev_bar_hash vb = Some h → hex_length_bad h = false) →
  VerifiedBar_post_init vb = Ok vb.
Proof.
  intros H1 H2 H3. unfold VerifiedBar_post_init. rewrite H1, H2. simpl.
  destruct (vb_prev_bar_hash vb) as [h|]; [|done]. by rewrite (H3 h).
Qed.

(** Every other outcome leaves the chain as it was; with hashes of the right length in the chain
    the verified record's own check cannot fail. *)
Lemma verify_bar_state now c t r v :
  verifier_wf v →
  verifier_wf (fst (verify_bar now c t r v))
  ∧ ((exists vb, snd (verify_bar now c t r v) = Ok (Verified vb))
     ∨ fst (verify_bar now c t r v) = v
       ∧ forall vb, snd (verify_bar now c t r v) ≠ Ok (Verified vb)).
Proof.
  intros Hwf. unfold verify_bar, bind, lift, get, reject.
  destruct (dt_naive t) eqn:Et; [by simpl; auto|].
  destruct (negb _); [by simpl; auto|]. cbv zeta.
  destruct (poll _ _) as [[resp pending]|e]; [|by simpl; auto].
  destruct (_ <? _); [by destruct (IncompleteBar_post_init _); simpl; auto|].
  destruct (_check_bar_consensus _ _) as [[[agreed rep] diff]|e] eqn:Ec; [|by simpl; auto].
  destruct agreed; cbn [negb]; [|by destruct (DisagreementEvent_post_init _); simpl; auto].
  assert (Hne : resp ≠ []) by (by intros ->). destruct resp as [|sv resp]; [done|].
  unfold modify, set_prev_bar_hash. cbn [min_list map].
  rewrite VerifiedBar_post_init_ok; [|done|apply run_hash_length|simpl; apply Hwf].
  simpl. split; [|eauto].
  intros k h. simpl. rewrite dget_dset. case_decide; [intros [= <-]; apply run_hash_length|apply Hwf].
Qed.

(** A returned [VerifiedSettle]: who responded and what they agreed on. *)
Lemma verify_settle_verified v now c t vs :
  verify_settle v now c t = Ok (Verified vs) →
  let p := resolve_for_field (_policy v) FIELD_SETTLE in
  exists resp pending diff,
    poll (fun src => latest_settle src c t) (_tier_filter v p) = Ok (resp, pending)
    ∧ min_quorum p <= Z.of_nat (length resp)
    ∧ _check_settle_consensus (map snd resp) p = Ok (true, vs_settle vs, diff)
    ∧ vs_n_sources_agreed vs = Z.of_nat (length resp)
    ∧ _settle_state_best (map st_settle_state (map snd resp)) = Ok (vs_settle_state vs)
    ∧ min_list tier_ltb (map (fun sv => tier (fst sv)) resp) = Ok (vs_tier_used vs)
    ∧ vs_policy_id vs = policy_id p.
Proof.
  intros H p. unfold verify_settle in H. fold p in H. apply rbind_Ok in H as ([resp pend] & Hpoll & H).
  cbv zeta in H. destruct (_ <? min_quorum p) eqn:Eq; [by inv_ok|]. apply Z.ltb_ge in Eq.
  apply rbind_Ok in H as ([[agreed m] diff] & Hc & H).
  destruct agreed; cbn [negb] in H; [|by inv_ok]. inv_ok.
  match goal with H : VerifiedSettle_post_init _ = _ |- _ => unfold VerifiedSettle_post_init in H end.
  inv_ok. exists resp, pend, diff. repeat split; done.
Qed.

(** ** Theorems *)

(** source-order independence.  Two verifiers built from the same sources listed in any order
    (with distinct source ids) are the same object, so every verdict, hash and chain that follows
    is the same. *)
Theorem new_verifier_order l1 l2 p :
  Permutation l1 l2 → List.NoDup (map source_id l1) →
  new_MultiSourceVerifier l1 p = new_MultiSourceVerifier l2 p.
Proof.
  intros Hp Hnd. unfold new_MultiSourceVerifier.
  assert (E : sort_by source_leb l1 = sort_by source_leb l2).
  { apply (sorted_unique (fun a b => source_leb a b = true)).
    - apply sort_by_sorted; [apply source_leb_total|apply source_leb_trans].
    - apply sort_by_sorted; [apply source_leb_total|apply source_leb_trans].
    - by rewrite <- !sort_by_perm.
    - intros x y Hx Hy H1 H2. apply sort_by_In in Hx, Hy.
      assert (Hid : source_id x = source_id y) by (by apply String.leb_antisym).
      clear - Hnd Hx Hy Hid. induction l1 as [|z zs IH]; [done|].
      simpl in Hnd. apply List.NoDup_cons_iff in Hnd as [Hni Hnd].
      destruct Hx as [<-|Hx], Hy as [<-|Hy]; [done|exfalso..|auto].
      + apply Hni. rewrite Hid. by apply in_map.
      + apply Hni. rewrite <- Hid. by apply in_map. }
  rewrite E. destruct l1, l2; try done; apply Permutation_length in Hp; done.
Qed.

(** the run hash depends on the set of provenance hashes, not on the order the sources
    answered in. *)
Theorem run_hash_order p h1 h2 bar_id :
  Permutation h1 h2 →
  _compute_verifier_run_hash p h1 bar_id = _compute_verifier_run_hash p h2 bar_id.
Proof. intros H. unfold _compute_verifier_run_hash. by rewrite (sort_strings_perm h1 h2). Qed.

(** fail-closed safety of settles.  A verified settle is backed by at least the quorum of
    eligible sources; every eligible source that answered agrees with the verified value - exactly
    in the TIGHT and NORMAL bands, within the relative tolerance in WIDE - whatever the policy's
    kind; the verified value is one of theirs, the tier is the best of theirs and the state the
    most final one. *)
Theorem verify_settle_safe v now c t vs :
  verify_settle v now c t = Ok (Verified vs) →
  let p := resolve_for_field (_policy v) FIELD_SETTLE in
  exists resp : list (DataSource * Settle),
    (forall s a, In (s, a) resp ↔
       In s (_sources v) ∧ tier_eligible p s = true ∧ latest_settle s c t = Ok (Some a))
    ∧ vs_n_sources_agreed vs = Z.of_nat (length resp)
    ∧ min_quorum p <= vs_n_sources_agreed vs
    ∧ (forall s a, In (s, a) resp →
         within_band (tolerance_band p) (vs_settle vs) (st_settle a)
         ∧ SourceTier_value (vs_tier_used vs) <= SourceTier_value (tier s)
         ∧ _SETTLE_STATE_RANK (st_settle_state a) <= _SETTLE_STATE_RANK (vs_settle_state vs))
    ∧ (exists s a, In (s, a) resp ∧ vs_settle vs = st_settle a)
    ∧ vs_policy_id vs = policy_id p.
Proof.
  intros H p. apply verify_settle_verified in H as (resp & pend & diff & H). fold p in H.
  destruct H as (Hpoll & Hq & Hc & Hn & Hst & Htier & Hid).
  apply poll_spec in Hpoll as (Hin & _ & _). apply settle_consensus_sound in Hc as (_ & Hm & Hall).
  exists resp. rewrite Hn. split; [|split; [done|split; [done|split; [|split; [|done]]]]].
  - intros s a. rewrite Hin, tier_filter_In. tauto.
  - intros s a Hsa. split; [apply Hall; by apply (in_map snd) in Hsa|]. split.
    + apply (min_list_Z SourceTier_value) in Htier as [_ Hmin].
      apply Hmin. by apply (in_map (fun sv => tier (fst sv))) in Hsa.
    + apply (max_list_Z _SETTLE_STATE_RANK) with (x := st_settle_state a) in Hst; [done|].
      apply in_map. by apply (in_map snd) in Hsa.
  - apply in_map_iff in Hm as (a & <- & Ha). apply in_map_iff in Ha as ([s a'] & <- & Hsa). eauto.
Qed.

(** How the documentation of [VerifierPolicy] combines the sources that answered: all of them, at
    least a quorum of them, or one of the highest tier must satisfy the predicate. *)
Definition kind_permits (p : VerifierPolicy) (resp : list (DataSource * RawBar))
    (agrees : RawBar -> Prop) : Prop :=
  match kind p with
  | fail_closed => forall s b, In (s, b) resp → agrees b
  | majority_vote => exists backers, backers `sublist_of` resp
      ∧ min_quorum p <= Z.of_nat (length backers) ∧ forall s b, In (s, b) backers → agrees b
  | highest_tier => exists s b, In (s, b) resp ∧ agrees b
      ∧ forall s' b', In (s', b') resp → SourceTier_value (tier s) <= SourceTier_value (tier s')
  end.

(** Unanimity satisfies every kind. *)
Lemma unanimous_permits p resp agrees best :
  min_quorum p <= Z.of_nat (length resp) →
  min_list tier_ltb (map (fun sv : DataSource * RawBar => tier (fst sv)) resp) = Ok best →
  (forall s b, In (s, b) resp → agrees b) → kind_permits p resp agrees.
Proof.
  intros Hq Hbest Hall. unfold kind_permits. destruct (kind p); [done|by exists resp|].
  apply (min_list_Z SourceTier_value) in Hbest as [Hin Hmin].
  apply in_map_iff in Hin as ([s b] & <- & Hsb). exists s, b. split; [done|]. split; [by eapply Hall|].
  intros s' b' Hsb'. apply Hmin. by apply (in_map (fun sv => tier (fst sv))) in Hsb'.
Qed.

(** C12: safety of verified bars.  A verified bar is backed by at least the quorum of distinct
    eligible sources, and its open, high, low, close and volume are those of one of them.  In the
    TIGHT and NORMAL bands the policy's documented kind permits these values: under [fail_closed]
    every eligible source that answered has them, under [majority_vote] at least a quorum of them
    has, and under [highest_tier] a source of the highest tier among them has.  In the WIDE band,
    except under [highest_tier], the same is true of closes within tolerance of one of the closes.
    (The code asks for unanimity under every kind, so it rejects more than the documented
    [majority_vote] and [highest_tier] do, and in the WIDE band it quotes the least source id where
    its docstring promises the highest tier: [majority_outlier_rejected] and
    [wide_quotes_least_id].) *)
Theorem verify_bar_safe now c t r v v' vb :
  verify_bar now c t r v = (v', Ok (Verified vb)) →
  let p := resolve_for_field (_policy v) FIELD_OHLC in
  exists resp : list (DataSource * RawBar),
    map fst resp `sublist_of` _sources v
    ∧ (forall s b, In (s, b) resp ↔
       In s (_sources v) ∧ tier_eligible p s = true ∧ bar_at c t r s = Ok (Some b))
    ∧ vb_n_sources_agreed vb = Z.of_nat (length resp)
    ∧ min_quorum p <= vb_n_sources_agreed vb
    ∧ (exists s b, In (s, b) resp
         ∧ (vb_open vb, vb_high vb, vb_low vb, vb_close vb, vb_volume vb)
           = (rb_open b, rb_high b, rb_low b, rb_close b, rb_volume b))
    ∧ match tolerance_band p with
      | WIDE => kind p = highest_tier
          ∨ exists m, In m (map (fun sb => rb_close (snd sb)) resp)
              ∧ kind_permits p resp (fun b => close_to m (rb_close b))
      | _ => kind_permits p resp (fun b =>
               deq (rb_open b) (vb_open vb) ∧ deq (rb_high b) (vb_high vb)
               ∧ deq (rb_low b) (vb_low vb) ∧ deq (rb_close b) (vb_close vb)
               ∧ rb_volume b = vb_volume vb)
      end.
Proof.
  intros H p. apply verify_bar_verified in H as (resp & pend & rep & diff & H). fold p in H.
  destruct H as (Hpoll & Hq & Hc & _ & _ & _ & Ho & Hh & Hl & Hcl & Hv & Hn & _ & Htier & _).
  exists resp. split.
  { etrans; [by eapply poll_sublist|]. unfold _tier_filter.
    induction (_sources v); simpl; [done|]. by case_match; constructor. }
  apply poll_spec in Hpoll as (Hin & _ & _).
  apply bar_consensus_sound in Hc as (Hrep & _ & m & Hm & Hall).
  split; [intros s b; rewrite Hin, tier_filter_In; tauto|].
  split; [done|]. split; [by rewrite Hn|]. split.
  - apply in_map_iff in Hrep as ([s b] & <- & Hsb).
    exists s, b. split; [done|]. by rewrite Ho, Hh, Hl, Hcl, Hv.
  - unfold bars_agree in Hall. destruct (tolerance_band p).
    3: { right. exists m. rewrite map_map in Hm. split; [done|].
         eapply unanimous_permits; [done..|]. intros s b Hsb. apply Hall. by apply (in_map snd) in Hsb. }
    all: eapply unanimous_permits; [done..|];
      intros s b Hsb; apply (in_map snd) in Hsb; apply Hall, bars_equal_spec in Hsb;
      rewrite Ho, Hh, Hl, Hcl, Hv; done.
Qed.

(** *** The hash chain *)

Record bar_request := { rq_now : datetime; rq_contract : ContractSymbol; rq_ts : datetime;
                        rq_resolution : BarResolution }.

(** A session of [verify_bar] calls on one verifier: the bars it verified, in order. *)
Fixpoint verified_bars (reqs : list bar_request) (v : MultiSourceVerifier) : list VerifiedBar :=
  match reqs with
  | [] => []
  | q :: qs =>
      let '(v', res) := verify_bar (rq_now q) (rq_contract q) (rq_ts q) (rq_resolution q) v in
      match res with
      | Ok (Verified vb) => vb :: verified_bars qs v'
      | _ => verified_bars qs v'
      end
  end.

Definition bar_key (vb : VerifiedBar) : ContractSymbol * BarResolution :=
  (vb_contract vb, vb_resolution vb).

(** Each bar's [prev_bar_hash] is the run hash of the one before it, [prev] for the first. *)
Fixpoint chained (prev : option string) (bars : list VerifiedBar) : Prop :=
  match bars with
  | [] => True
  | b :: bs => vb_prev_bar_hash b = prev ∧ chained (Some (vb_verifier_run_hash b)) bs
  end.

Lemma new_verifier_wf sources p v : new_MultiSourceVerifier sources p = Ok v → verifier_wf v.
Proof. unfold new_MultiSourceVerifier. intros H. inv_ok. intros k h. done. Qed.

Lemma verified_bars_chained reqs v k :
  verifier_wf v →
  chained (dget k (_prev_bar_hash v))
    (List.filter (fun vb => bool_decide (bar_key vb = k)) (verified_bars reqs v)).
Proof.
  revert v. induction reqs as [|q qs IH]; intros v Hwf; cbn [verified_bars]; [done|].
  pose proof (verify_bar_state (rq_now q) (rq_contract q) (rq_ts q) (rq_resolution q) v Hwf)
    as [Hwf' Hcase].
  destruct (verify_bar _ _ _ _ v) as [v' res] eqn:E. cbn [fst snd] in *.
  destruct Hcase as [[vb ->] | [-> Hno]].
  - apply verify_bar_verified in E as (resp & pend & rep & diff & H).
    destruct H as (_ & _ & _ & Hc & _ & Hr & _ & _ & _ & _ & _ & _ & _ & _ & Hprev & _ & Hv').
    specialize (IH v' Hwf'). rewrite Hv' in IH at 1. cbn [set_prev_bar_hash _prev_bar_hash] in IH.
    assert (Hk : bar_key vb = (rq_contract q, rq_resolution q)) by (unfold bar_key; by rewrite Hc, Hr).
    cbn [List.filter]. rewrite dget_dset in IH. case_bool_decide as Hd.
    + rewrite decide_True in IH by congruence. split; [by rewrite Hprev, <- Hk, Hd|done].
    + rewrite decide_False in IH by congruence. done.
  - destruct res as [[vb| |]|]; try by apply IH. by destruct (Hno vb).
Qed.

(** the hash chain.  In any session on a fresh verifier, whatever is interleaved - other
    contracts and resolutions, disagreements, incomplete bars, errors - the verified bars of one
    contract and resolution form a chain: the first has no predecessor and each later one carries
    the run hash of the one before it. *)
Theorem verify_bar_chain sources p v reqs k :
  new_MultiSourceVerifier sources p = Ok v →
  chained None (List.filter (fun vb => bool_decide (bar_key vb = k)) (verified_bars reqs v)).
Proof.
  intros Hnew. pose proof (new_verifier_wf _ _ _ Hnew) as Hwf.
  pose proof (verified_bars_chained reqs v k Hwf) as H.
  unfold new_MultiSourceVerifier in Hnew. inv_ok. exact H.
Qed.

(** The eligible sources that answer with a bar. *)
Definition responders (v : MultiSourceVerifier) c t r : list DataSource :=
  List.filter (fun s => match bar_at c t r s with Ok (Some _) => true | _ => false end)
    (_tier_filter v (resolve_for_field (_policy v) FIELD_OHLC)).

Lemma poll_length {A} (ask : DataSource -> result (option A)) srcs resp pending :
  poll ask srcs = Ok (resp, pending) →
  map fst resp
  = List.filter (fun s => match ask s with Ok (Some _) => true | _ => false end) srcs.
Proof.
  revert resp pending. induction srcs as [|src srcs IH]; intros resp pending; simpl;
    [by intros [= <- <-]|].
  destruct (ask src) as [[a|]|e]; [..|destruct (exn_is e DataSourceError); [|done]];
    intros ([r p] & Hp & [= <- <-])%rbind_Ok; simpl; rewrite (IH r p Hp); done.
Qed.

(** C13: bar verification is total and its verdict is decided by the responders.  With a positive
    quorum, aware timestamps, a supported resolution and sources that raise nothing but
    [DataSourceError]s, a call returns; fewer responders than the quorum give an incomplete bar,
    enough of them give a verified bar or a disagreement, and only a verified bar changes the
    verifier. *)
Theorem verify_bar_outcome now c t r v :
  let p := resolve_for_field (_policy v) FIELD_OHLC in
  let n := Z.of_nat (length (responders v c t r)) in
  verifier_wf v → 1 <= min_quorum p → dt_naive t = false → dt_naive now = false →
  SUPPORTED_BAR_RESOLUTIONS r = true →
  (forall s e, In s (_sources v) → bar_at c t r s = Err e → exn_is e DataSourceError = true) →
  exists v' o, verify_bar now c t r v = (v', Ok o)
  ∧ match o with
    | Incomplete i => n < min_quorum p ∧ v' = v
        ∧ ib_n_sources_responded i = n ∧ ib_n_sources_required i = min_quorum p
    | Disagreement d => min_quorum p <= n ∧ v' = v ∧ de_quorum_achieved d = n
        ∧ de_sources d = map source_id (responders v c t r)
    | Verified vb => min_quorum p <= n ∧ vb_n_sources_agreed vb = n
    end.
Proof.
  intros p n Hwf Hmq Ht Hnow Hr Herr.
  destruct (verify_bar now c t r v) as [v' res] eqn:E. pose proof E as E'.
  unfold verify_bar, bind, lift, get, reject in E. rewrite Ht, Hr in E. cbn [negb] in E. cbv zeta in E.
  fold p in E. destruct (poll_ok (bar_at c t r) (_tier_filter v p)) as (resp & pend & Hpoll).
  { intros s e [Hs _]%tier_filter_In. by apply Herr. }
  rewrite Hpoll in E. pose proof (poll_length _ _ _ _ Hpoll) as Hlen.
  change (map fst resp = responders v c t r) in Hlen.
  assert (Hn : Z.of_nat (length resp) = n) by (subst n; by rewrite <- Hlen, length_map).
  rewrite Hn in E. destruct (n <? min_quorum p) eqn:Eq;
    [apply Z.ltb_lt in Eq|apply Z.ltb_ge in Eq].
  { unfold IncompleteBar_post_init in E. simpl in E. rewrite Hnow in E. simpl in E.
    injection E as <- <-. eexists _, (Incomplete _). split; [done|]. by simpl. }
  destruct (bar_consensus_ok (map snd resp) p) as [[[agreed rep] diff] Hc].
  { intros Hnil. apply (f_equal length) in Hnil. rewrite length_map in Hnil. simpl in Hnil. lia. }
  rewrite Hc in E. destruct agreed; cbn [negb] in E.
  - destruct (verify_bar_state now c t r v Hwf) as [_ Hcase]. rewrite E' in Hcase.
    destruct Hcase as [[vb Hvb]|[_ Hno]]; cbn [snd] in *.
    + subst res. exists v', (Verified vb). split; [done|]. split; [done|].
      apply verify_bar_verified in E' as (resp' & pend' & rep' & diff' & H). fold p in H.
      destruct H as (Hp' & _ & _ & _ & _ & _ & _ & _ & _ & _ & _ & -> & _). congruence.
    + exfalso. destruct resp as [|sv resp]; [by simpl in Hn; lia|].
      unfold modify in E. cbn [min_list map] in E. rewrite VerifiedBar_post_init_ok in E;
        [|done|apply run_hash_length|simpl; apply Hwf].
      simpl in E. injection E as _ <-. by eapply Hno.
  - unfold DisagreementEvent_post_init in E. simpl in E. rewrite Hnow, !length_map in E.
    rewrite Nat.eqb_refl in E. simpl in E. injection E as <- <-.
    eexists _, _. split; [done|]. simpl. rewrite <- Hlen, map_map. done.
Qed.

(** ** Witnesses *)
Definition wit_sha : string := sha256_hex "".
Definition wit_bar (id : string) (close : decimal) (t : datetime) : RawBar := {|
  rb_contract := "ESM26"; rb_ts := t; rb_resolution := DAY_1; rb_open := Dec 5000 0;
  rb_high := Dec 5010 0; rb_low := Dec 4990 0; rb_close := close; rb_volume := 10;
  rb_oi := None; rb_source_id := id; rb_as_of_iso := DT 0 (Some 0);
  rb_content_bytes_sha := wit_sha |}.
Definition wit_settle (id : string) (px : decimal) : Settle := {|
  st_contract := "ESM26"; st_as_of_date := 1; st_settle := px; st_settle_state := final;
  st_open := px; st_high := px; st_low := px; st_last := px; st_change := d0; st_volume_est := 1;
  st_oi_prior := 1; st_source_id := id; st_as_of_iso := Some (DT 0 (Some 0));
  st_content_bytes_sha := wit_sha; st_cme_month_code := "M" |}.
Definition wit_source (id : string) (close : decimal) : DataSource := {|
  source_id := id; tier := T2_BROKER;
  get_bars _ t _ _ := Ok [wit_bar id close t];
  get_ticks _ _ _ := Err TicksNotSupported;
  latest_settle _ _ := Ok (Some (wit_settle id close)); healthcheck := true |}.
Definition wit_policy : VerifierPolicy := Policy "p" majority_vote 2 NORMAL 60 true [].
Definition wit_sources : list DataSource := [wit_source "b" (Dec 5000 0); wit_source "a" (Dec 50000 (-1))].
Definition wit_verifier : MultiSourceVerifier := {|
  _sources := [wit_source "a" (Dec 50000 (-1)); wit_source "b" (Dec 5000 0)];
  _policy := wit_policy; _prev_bar_hash := [] |}.
Definition wit_ts : datetime := DT us_per_day (Some 0).

Lemma new_verifier_order_witness :
  new_MultiSourceVerifier wit_sources wit_policy = new_MultiSourceVerifier (rev wit_sources) wit_policy.
Proof.
  apply (new_verifier_order wit_sources (rev wit_sources) wit_policy).
  - apply Permutation_rev.
  - simpl. repeat constructor; simpl; intros H; repeat destruct H as [H|H]; try discriminate H; exact H.
Defined.

Lemma run_hash_order_witness :
  _compute_verifier_run_hash wit_policy ["x"; "y"] "id"
  = _compute_verifier_run_hash wit_policy ["y"; "x"] "id".
Proof. apply (run_hash_order wit_policy ["x"; "y"] ["y"; "x"] "id"). apply perm_swap. Defined.

Lemma verify_settle_safe_witness :
  exists vs, verify_settle wit_verifier wit_ts "ESM26" wit_ts = Ok (Verified vs)
             ∧ 2 <= vs_n_sources_agreed vs.
Proof.
  eexists. run_as E.
  destruct (verify_settle_safe wit_verifier wit_ts "ESM26" wit_ts _ E) as (resp & _ & _ & Hq & _).
  exact Hq.
Defined.

Lemma verify_bar_safe_witness :
  exists v' vb, verify_bar wit_ts "ESM26" wit_ts DAY_1 wit_verifier = (v', Ok (Verified vb))
             ∧ 2 <= vb_n_sources_agreed vb.
Proof.
  eexists _, _. run_as E.
  destruct (verify_bar_safe wit_ts "ESM26" wit_ts DAY_1 wit_verifier _ _ E)
    as (resp & _ & _ & _ & Hq & _). exact Hq.
Defined.

Lemma verify_bar_chain_witness :
  let reqs := [{| rq_now := wit_ts; rq_contract := "ESM26"; rq_ts := wit_ts; rq_resolution := DAY_1 |};
               {| rq_now := wit_ts; rq_contract := "ESM26"; rq_ts := wit_ts; rq_resolution := MIN_1 |};
               {| rq_now := wit_ts; rq_contract := "ESM26"; rq_ts := wit_ts; rq_resolution := DAY_1 |}] in
  length (verified_bars reqs wit_verifier) = 3%nat
  ∧ chained None (List.filter (fun vb => bool_decide (bar_key vb = ("ESM26", DAY_1)%string))
                    (verified_bars reqs wit_verifier)).
Proof.
  intros reqs. split; [vm_compute; reflexivity|].
  apply (verify_bar_chain wit_sources wit_policy wit_verifier reqs ("ESM26", DAY_1)%string).
  vm_compute. reflexivity.
Defined.

(** Three sources where one differs: under the [majority_vote] policy the bar is a disagreement. *)
Definition wit_outlier : MultiSourceVerifier := {|
  _sources := [wit_source "a" (Dec 5000 0); wit_source "b" (Dec 5000 0); wit_source "c" (Dec 5001 0)];
  _policy := wit_policy; _prev_bar_hash := [] |}.

(** Two of three sources agree, which is a quorum of two: the documented [majority_vote] would take
    their value, the code reports a disagreement. *)
Lemma majority_outlier_rejected :
  match snd (verify_bar wit_ts "ESM26" wit_ts DAY_1 wit_outlier) with
  | Ok (Disagreement d) => de_policy_kind d = majority_vote ∧ de_quorum_achieved d = 3
  | _ => False
  end.
Proof. vm_compute. by split. Qed.

(** Two closes within the WIDE tolerance: the bar quoted is that of "a", a broker, although "b" is
    the exchange. *)
Definition wit_wide : MultiSourceVerifier := {|
  _sources := [wit_source "a" (Dec 50001 (-1));
               {| source_id := "b"; tier := T1_EXCHANGE_HISTORICAL;
                  get_bars _ t _ _ := Ok [wit_bar "b" (Dec 5000 0) t];
                  get_ticks _ _ _ := Err TicksNotSupported;
                  latest_settle _ _ := Ok None; healthcheck := true |}];
  _policy := Policy "w" highest_tier 2 WIDE 60 true []; _prev_bar_hash := [] |}.

Lemma wide_quotes_least_id :
  match snd (verify_bar wit_ts "ESM26" wit_ts DAY_1 wit_wide) with
  | Ok (Verified vb) => vb_close vb = Dec 50001 (-1)
  | _ => False
  end.
Proof. vm_compute. done. Qed.

Lemma verify_bar_outcome_witness :
  exists v' d, verify_bar wit_ts "ESM26" wit_ts DAY_1 wit_outlier = (v', Ok (Disagreement d))
               ∧ de_quorum_achieved d = 3 ∧ de_policy_kind d = majority_vote.
Proof.
  destruct (verify_bar_outcome wit_ts "ESM26" wit_ts DAY_1 wit_outlier) as (v' & o & E & Ho).
  - intros k h H. discriminate H.
  - vm_compute. discriminate.
  - reflexivity.
  - reflexivity.
  - reflexivity.
  - intros s e Hin He. simpl in Hin. repeat destruct Hin as [<-|Hin]; try discriminate He.
    destruct Hin.
  - vm_compute in E. injection E as <- <-. eexists _, _. split; [vm_compute; reflexivity|].
    split; reflexivity.
Defined.
