(* ===== verification/BarContract.v ===== *)
(** * What data/source.py promises of [get_bars]

    The contract the base class documents for every source: bars lie in the half-open window, their
    instants strictly increase, and each passes the checks of its record. *)

From S2P Require Import Prelude PyTime Types Verifier.

#[local] Open Scope Z_scope.

Definition bar_instant (b : RawBar) : Z := dt_instant (rb_ts b).

Definition in_window (ts_start ts_end : datetime) (b : RawBar) : Prop :=
  dt_instant ts_start <= bar_instant b < dt_instant ts_end.

Record bars_contract (ts_start ts_end : datetime) (bars : list RawBar) : Prop := {
  contract_window : Forall (in_window ts_start ts_end) bars;
  contract_increasing : StronglySorted Z.lt (map bar_instant bars);
  contract_checked : Forall RawBar_wf bars;
}.

(** A source keeps the contract on a query. *)
Definition keeps_contract (src : DataSource) (contract : ContractSymbol) (ts_start ts_end : datetime)
    (resolution : BarResolution) : Prop :=
  forall bars, get_bars src contract ts_start ts_end resolution = Ok bars → bars_contract ts_start ts_end bars.

Lemma in_window_iff ts_start ts_end b :
  dt_leb ts_start (rb_ts b) && dt_ltb (rb_ts b) ts_end = true ↔ in_window ts_start ts_end b.
Proof. unfold in_window, bar_instant, dt_leb, dt_ltb. by rewrite andb_true_iff, Z.leb_le, Z.ltb_lt. Qed.

(** A sublist of increasing instants increases; so does a weakly sorted list without repetition. *)
Lemma increasing_filter {A} (f : A -> Z) (p : A -> bool) l :
  StronglySorted Z.lt (map f l) → StronglySorted Z.lt (map f (List.filter p l)).
Proof.
  induction l as [|x l IH]; [done|]. cbn. intros H. apply StronglySorted_inv in H as [Hs Hx].
  destruct (p x); [|by apply IH]. cbn. constructor; [by apply IH|].
  apply List.Forall_forall. intros y (z & <- & [Hz _]%filter_In)%in_map_iff.
  rewrite List.Forall_forall in Hx. by apply Hx, in_map.
Qed.

Lemma sorted_distinct {A} (f : A -> Z) l :
  StronglySorted (fun x y => f x <= f y) l → List.NoDup (map f l) → StronglySorted Z.lt (map f l).
Proof.
  induction 1 as [|x l Hs IH Hx]; cbn; [constructor|]. intros [Hn Hnd]%List.NoDup_cons_iff.
  constructor; [by apply IH|]. apply List.Forall_forall. intros y (z & <- & Hz)%in_map_iff.
  rewrite List.Forall_forall in Hx. specialize (Hx z Hz).
  assert (f x ≠ f z) by (intros E; apply Hn; rewrite E; by apply in_map). lia.
Qed.
