(* ===== verification/CmeEod.v ===== *)
(** * data/sources/cme_eod.py: settlements scraped from the exchange's pages

    The page is read through [BeautifulSoup], whose calls are a class; the HTTP client and the
    [curl_cffi] session under the default one are classes as well.  A fetch checks the page against
    the known columns, builds one settle per row and merges them into the archive, a data frame per
    root and year with the rows of [Storage.SettleStore].  The instant the source's clock reads is a
    field of the source.  Logging, message texts and failures of the file system are left out. *)

From S2P Require Import Prelude PyDecimal PyText PyTime PyParse PyFloat Json Types Store Storage Verifier.

#[local] Open Scope Z_scope.
#[local] Arguments String.append !_ _ / : simpl nomatch.

Definition MIN_CONTRACT_SYMBOL_LENGTH : nat := 4.
Definition MONTH_DISPLAY_PARTS : nat := 2.
Definition YEAR_DIGIT_COUNT : nat := 2.

Definition HTTP_OK : Z := 200.

(** ** The pages *)

(** The calls made on a parsed page: [find] and [find_all] look through all descendants, by name and,
    for [find], by the given attributes; texts are stripped and joined with the separator. *)
Class BeautifulSoup := {
  Tag : Type;
  soup : string -> Tag;
  find : Tag -> string -> list (string * string) -> option Tag;
  find_all : Tag -> string -> list Tag;
  get_text : string -> Tag -> string;
}.

(** ** Transport *)
Class HTTPClient (C : Type) := {
  http_fetch : C -> string -> result (string * string); (* body and its hash *)
  http_healthcheck : C -> string -> result bool;
}.

(** The session of [curl_cffi]: status and body. *)
Class CurlSession (S : Type) := {
  session_get : S -> string -> result (Z * string);
  session_head : S -> string -> result Z;
}.

Record DefaultCMEHTTPClient (S : Type) := { _session : S }.
Arguments _session {S} _.

#[global] Instance DefaultCME_client {S} `{CurlSession S} : HTTPClient (DefaultCMEHTTPClient S) := {
  http_fetch c url :=
    match session_get (_session c) url with
    | Err _ => Err CMEScrapeError
    | Ok (status, body) =>
        guard! negb (status =? HTTP_OK) else CMEScrapeError in
        Ok (body, content_sha256 body)
    end;
  http_healthcheck c url :=
    match session_head (_session c) url with
    | Err _ => Ok false
    | Ok status => Ok (bool_decide (status ∈ [200; 301; 302]))
    end;
}.

(** ** Constants of the source *)
Definition SOURCE_ID : string := "cme_public_settlements".
Definition CME_URL_BASE : string := "https://www.cmegroup.com".

Definition URLS : dict string string := [
  ("ES", "/markets/equities/sp/e-mini-sandp500.settlements.html");
  ("NQ", "/markets/equities/nasdaq/e-mini-nasdaq-100.settlements.html");
  ("CL", "/markets/energy/crude-oil/light-sweet-crude.settlements.html");
  ("GC", "/markets/metals/precious/gold.settlements.html");
  ("MBT", "/markets/cryptocurrencies/bitcoin/micro-bitcoin.settlements.html");
  ("MET", "/markets/cryptocurrencies/ether/micro-ether.settlements.html");
  ("MES", "/markets/equities/sp/micro-e-mini-sandp-500.settlements.html");
  ("MNQ", "/markets/equities/nasdaq/micro-e-mini-nasdaq-100.settlements.html");
  ("MCL", "/markets/energy/crude-oil/micro-crude-oil.settlements.html");
  ("MGC", "/markets/metals/precious/micro-gold.settlements.html") ]%string.

Definition EXPECTED_COLUMN_HEADERS : list string :=
  ["Month"; "Open"; "High"; "Low"; "Last"; "Change"; "Settle"; "Est. Volume"; "Prior Day OI"]%string.

Definition MONTH_NAME_TO_CODE : dict string string := [
  ("JAN", "F"); ("FEB", "G"); ("MAR", "H"); ("APR", "J"); ("MAY", "K"); ("JUN", "M"); ("JUL", "N");
  ("AUG", "Q"); ("SEP", "U"); ("OCT", "V"); ("NOV", "X"); ("DEC", "Z") ]%string.

Definition VALID_MONTH_CODES : list string := map snd MONTH_NAME_TO_CODE.

Definition WAF_MARKERS : list string :=
  ["cf-please-wait"; "Checking if the site connection is secure"; "Just a moment..."; "_cf_chl_opt";
   "cf_chl_"]%string.

Definition PLACEHOLDER_VALUES : list string := ["---"; "--"; ""; "-"; "n/a"; "N/A"]%string.

(** ** Detection and parsing of cells *)
Definition _is_waf_block (content_bytes : string) : bool :=
  existsb (fun marker => str_contains marker content_bytes) WAF_MARKERS.

Definition _compute_schema_signature (headers : list string) : string :=
  sha256_hex (json_dumps sorted_style (JArr (map JStr headers))).

Definition _parse_contract_symbol (contract : ContractSymbol) : result (string * string * Z) :=
  guard! (String.length contract <? MIN_CONTRACT_SYMBOL_LENGTH)%nat else ContractNotConfigured in
  let year_str := str_take_last 2 contract in
  guard! negb (str_isdigit year_str) else ContractNotConfigured in
  let! year_2dig := int_of_str year_str in
  let month_code := String.substring (String.length contract - 3) 1 contract in
  guard! negb (bool_decide (month_code ∈ VALID_MONTH_CODES)) else ContractNotConfigured in
  let root := str_drop_last 3 contract in
  guard! negb (dmem root URLS) else ContractNotConfigured in
  Ok (root, month_code, year_2dig).

Definition _parse_month_display (display : string) : result (string * Z) :=
  match str_split (str_upper (str_strip display)) with
  | [month_name; year_str] =>
      let! code := of_option (dget month_name MONTH_NAME_TO_CODE) MalformedSettlementPage in
      guard! negb (str_isdigit year_str) || negb (String.length year_str =? YEAR_DIGIT_COUNT)%nat
        else MalformedSettlementPage in
      let! year := int_of_str year_str in
      Ok (code, year)
  | _ => Err MalformedSettlementPage
  end.

Definition is_placeholder (s : string) : bool := bool_decide (s ∈ PLACEHOLDER_VALUES).

Definition _parse_decimal (raw : string) : result (option decimal_value) :=
  let s := str_strip raw in
  if is_placeholder s then Ok None
  else
    let s := str_remove "," s in
    let s := match s with String "+" t => t | _ => s end in
    match decimal_value_of_str s with
    | Ok d => Ok (Some d)
    | Err _ => Err MalformedSettlementPage
    end.

Definition _parse_int (raw : string) : result (option Z) :=
  let s := str_strip raw in
  if is_placeholder s then Ok None
  else match int_of_str (str_remove "," s) with
       | Ok n => Ok (Some n)
       | Err _ => Err MalformedSettlementPage
       end.

Definition or_else {A} (o : option A) (default : A) : A := match o with Some a => a | None => default end.

(** [Settle(...)] of parsed prices.  When they are finite this is the constructor with its checks.  A
    special value goes through the same checks: ordering a NaN raises [InvalidOperation]; past them
    the code has a settle with a special price, which is outside the model. *)
Definition Settle_of_values (make : decimal → decimal → decimal → decimal → decimal → decimal → Settle)
    (settle open high low last change : decimal_value) (volume_est oi_prior : Z) (as_of_iso : datetime)
    : result Settle :=
  match finite_part settle, finite_part open, finite_part high, finite_part low, finite_part last,
        finite_part change with
  | Some settle, Some open, Some high, Some low, Some last, Some change =>
      Settle_post_init (make settle open high low last change)
  | _, _, _, _, _, _ =>
      let! _ := _assert_tz_aware as_of_iso in
      let! crossed := dv_ltb high low in
      guard! crossed else ValueError in
      guard! volume_est <? 0 else ValueError in
      guard! oi_prior <? 0 else ValueError in
      Err Unmodelled
  end.

(** A row of the table; [None] is the row that is skipped. *)
Definition _build_settle (cells : list string) (contract_root content_sha : string)
    (as_of_iso : datetime) (as_of_date : date) (settle_state : SettleState) : result (option Settle) :=
  match cells with
  | [month_disp; open_str; high_str; low_str; last_str; change_str; settle_str; volume_str; oi_prior_str] =>
      let! '(month_code, year_2dig) := _parse_month_display month_disp in
      let contract := str_concat [contract_root; month_code; str_pad 2 year_2dig] in
      let! settle_value := _parse_decimal settle_str in
      match settle_value with
      | None => Ok None
      | Some settle_value =>
          let! open_value := _parse_decimal open_str in
          let! high_value := _parse_decimal high_str in
          let! low_value := _parse_decimal low_str in
          let! last_value := _parse_decimal last_str in
          let! change_value := _parse_decimal change_str in
          let! volume_value := _parse_int volume_str in
          let! oi_prior_value := _parse_int oi_prior_str in
          let volume_est := or_else volume_value 0 in
          let oi_prior := or_else oi_prior_value 0 in
          let! s := Settle_of_values (fun settle open high low last change => {|
              st_contract := contract; st_as_of_date := as_of_date; st_settle := settle;
              st_settle_state := settle_state; st_open := open; st_high := high; st_low := low;
              st_last := last; st_change := change; st_volume_est := volume_est;
              st_oi_prior := oi_prior; st_source_id := SOURCE_ID; st_as_of_iso := Some as_of_iso;
              st_content_bytes_sha := content_sha256 (str_concat [content_sha; "||"%string; contract]);
              st_cme_month_code := month_code |})
            settle_value (or_else open_value settle_value) (or_else high_value settle_value)
            (or_else low_value settle_value) (or_else last_value settle_value)
            (or_else change_value (Finite d0)) volume_est oi_prior as_of_iso in
          Ok (Some s)
      end
  | _ => Err ValueError
  end.

(** [re.search(r"\bword\b", text)] for a word of letters. *)
Definition is_word_char (c : ascii) : bool :=
  let n := N_of_ascii c in
  ascii_isdigit c || ((65 <=? n) && (n <=? 90))%N || ((97 <=? n) && (n <=? 122))%N || Ascii.eqb c "_".

Fixpoint has_word (word : string) (after_word_char : bool) (text : string) : bool :=
  (negb after_word_char && String.prefix word text
   && match String.get (String.length word) text with Some c => negb (is_word_char c) | None => true end)
  || match text with EmptyString => false | String c rest => has_word word (is_word_char c) rest end.

(** ** The page *)
Section Page.
Context `{BeautifulSoup}.

(** The attributes of the fallback selectors, in order. *)
Definition table_selectors : list (list (string * string)) :=
  [[("id", "settlementsTable")]; [("class", "cmeTable")]; [("class", "main-table")]; []]%string.

Fixpoint first_match (page : Tag) (selectors : list (list (string * string))) : option Tag :=
  match selectors with
  | [] => None
  | attrs :: rest => match find page "table" attrs with Some t => Some t | None => first_match page rest end
  end.

Definition _find_settlement_table (page : Tag) : result Tag :=
  of_option (first_match page table_selectors) MalformedSettlementPage.

Definition _detect_settle_state (page : Tag) : SettleState :=
  let page_text := get_text " " page in
  let fallback := if has_word "Final" false page_text && negb (has_word "Preliminary" false page_text)
                  then final else preliminary in
  match find page "span" [("class", "status-value")]%string with
  | Some status_span =>
      let text := str_lower (get_text "" status_span) in
      if str_contains "final" text then final
      else if str_contains "preliminary" text then preliminary
      else fallback
  | None => fallback
  end.

Definition row_settle (contract_root content_sha : string) (as_of_iso : datetime) (as_of_date : date)
    (settle_state : SettleState) (tr : Tag) : result (option Settle) :=
  let cells := map (get_text "") (find_all tr "td") in
  guard! negb (length cells =? length EXPECTED_COLUMN_HEADERS)%nat else MalformedSettlementPage in
  _build_settle cells contract_root content_sha as_of_iso as_of_date settle_state.

Definition _parse_settlement_page (content_bytes contract_root content_sha : string)
    (as_of_iso : datetime) (as_of_date : date) : result (list Settle) :=
  let page := soup content_bytes in
  let! table := _find_settlement_table page in
  let! thead := of_option (find table "thead" []) MalformedSettlementPage in
  let! header_row := of_option (find thead "tr" []) MalformedSettlementPage in
  let headers := map (get_text "") (find_all header_row "th") in
  guard! negb (String.eqb (_compute_schema_signature headers) (_compute_schema_signature EXPECTED_COLUMN_HEADERS))
    else SchemaMismatch in
  let! tbody := of_option (find table "tbody" []) MalformedSettlementPage in
  let rows := find_all tbody "tr" in
  guard! match rows with [] => true | _ => false end else MalformedSettlementPage in
  let settle_state := _detect_settle_state page in
  let! results := rmap (row_settle contract_root content_sha as_of_iso as_of_date settle_state) rows in
  Ok (somes results).
End Page.

(** ** The archive

    [contract={root}/year={year}/data.parquet]; the rows are those of the settle store, whose dedupe
    key this archive shares. *)
Notation settle_row := SettleStore.settle_row.

(** [_settles_to_dataframe]: the snapshot instant is stored as it is. *)
Definition archive_row (s : Settle) : settle_row :=
  let r := SettleStore._settle_to_row s in
  {| SettleStore.sr_contract := SettleStore.sr_contract r; SettleStore.sr_as_of_date := SettleStore.sr_as_of_date r;
     SettleStore.sr_settle := SettleStore.sr_settle r; SettleStore.sr_settle_state := SettleStore.sr_settle_state r;
     SettleStore.sr_open := SettleStore.sr_open r; SettleStore.sr_high := SettleStore.sr_high r;
     SettleStore.sr_low := SettleStore.sr_low r; SettleStore.sr_last := SettleStore.sr_last r;
     SettleStore.sr_change := SettleStore.sr_change r; SettleStore.sr_volume_est := SettleStore.sr_volume_est r;
     SettleStore.sr_oi_prior := SettleStore.sr_oi_prior r; SettleStore.sr_source_id := SettleStore.sr_source_id r;
     SettleStore.sr_as_of_iso := st_as_of_iso s;
     SettleStore.sr_content_bytes_sha := SettleStore.sr_content_bytes_sha r;
     SettleStore.sr_cme_month_code := SettleStore.sr_cme_month_code r |}.

Section Archive.
Context `{Polars}.

Definition cme_archive : Type := dict (string * Z) (frame settle_row).

Definition merge_year (existing : option (frame settle_row)) (rows : list settle_row) : frame settle_row :=
  match existing with
  | Some existing_df => pl_unique SettleStore.settle_key (pl_concat [existing_df; pl_DataFrame rows])
  | None => pl_DataFrame rows
  end.

Definition write_year (contract_root : string) (a : cme_archive) (kv : Z * list settle_row) : cme_archive :=
  let k := (contract_root, fst kv) in dset k (merge_year (dget k a) (snd kv)) a.

Definition row_year (r : settle_row) : Z := year_of (SettleStore.sr_as_of_date r).

Definition _write_archive (contract_root : string) (settles : list Settle) (a : cme_archive) : cme_archive :=
  match settles with
  | [] => a
  | _ => fold_left (write_year contract_root) (group_rows row_year (map archive_row settles)) a
  end.

(** ** The source *)
Record CMEEODDataSource (C : Type) := { _http : C; _now_utc : datetime }.
Arguments _http {C} _.
Arguments _now_utc {C} _.

Context `{BeautifulSoup} {C : Type} `{HTTPClient C}.

Definition fetch_all_for_root (src : CMEEODDataSource C) (contract_root : string) (as_of : datetime)
    : M cme_archive (list Settle) :=
  path <- lift (of_option (dget contract_root URLS) ContractNotConfigured) ;;
  let url := String.append CME_URL_BASE path in
  page <- lift (http_fetch (_http src) url) ;;
  let '(content_bytes, content_sha) := page in
  _ <- lift (reject (_is_waf_block content_bytes) WAFBlockedError) ;;
  settles <- lift (_parse_settlement_page content_bytes contract_root content_sha (_now_utc src) (dt_date as_of)) ;;
  modify (_write_archive contract_root settles) ;;
  ret settles.

Definition cme_latest_settle (src : CMEEODDataSource C) (contract : ContractSymbol) (as_of : datetime)
    : M cme_archive (option Settle) :=
  parsed <- lift (_parse_contract_symbol contract) ;;
  let '(root, _, _) := parsed in
  settles <- fetch_all_for_root src root as_of ;;
  ret (List.find (fun s => String.eqb (st_contract s) contract) settles).

(** A probe that raises counts as a dark source. *)
Definition cme_healthcheck (src : CMEEODDataSource C) : bool :=
  match http_healthcheck (_http src) CME_URL_BASE with Ok b => b | Err _ => false end.

(** Bars are not published. *)
Definition cme_get_bars (src : CMEEODDataSource C) (contract : ContractSymbol) (ts_start ts_end : datetime)
    (resolution : BarResolution) : result (list RawBar) := Err BarsNotSupported.
End Archive.
Arguments _http {C} _.
Arguments _now_utc {C} _.

(** ** Facts *)

(** What a row of the page becomes. *)
Definition page_settle (contract_root content_sha : string) (as_of_iso : datetime) (as_of_date : date)
    (state : SettleState) (s : Settle) : Prop :=
  Settle_post_init s = Ok s ∧ st_as_of_date s = as_of_date ∧ st_as_of_iso s = Some as_of_iso ∧
  st_settle_state s = state ∧ st_source_id s = SOURCE_ID ∧
  st_content_bytes_sha s = content_sha256 (str_concat [content_sha; "||"%string; st_contract s]) ∧
  exists year, st_contract s = str_concat [contract_root; st_cme_month_code s; str_pad 2 year] ∧
    st_cme_month_code s ∈ VALID_MONTH_CODES ∧ 0 <= year < 100.

(** Two digits read as a number below a hundred. *)
Lemma two_digit_year s y : str_isdigit s = true → String.length s = 2%nat → int_of_str s = Ok y → 0 <= y < 100.
Proof.
  intros Hd Hl E. destruct (str_length_2 s Hl) as (a & b & ->). cbn in Hd.
  apply andb_true_iff in Hd as [Ha [Hb _]%andb_true_iff].
  destruct a as [[] [] [] [] [] [] [] []]; try discriminate Ha; destruct b as [[] [] [] [] [] [] [] []]; try discriminate Hb;
    vm_compute in E; injection E as <-; lia.
Qed.

Lemma month_display_sound display code y : _parse_month_display display = Ok (code, y) →
  code ∈ VALID_MONTH_CODES ∧ 0 <= y < 100.
Proof.
  unfold _parse_month_display. destruct (str_split _) as [|name [|year_str [|]]]; try done.
  intros (c & Hc & (_ & Hg%reject_Ok & (n & Hn & [= -> ->])%rbind_Ok)%rbind_Ok)%rbind_Ok.
  destruct (dget name MONTH_NAME_TO_CODE) as [c'|] eqn:E; [|done]. injection Hc as ->.
  apply orb_false_iff in Hg as [H1%negb_false_iff H2%negb_false_iff%Nat.eqb_eq]. split.
  - apply list_elem_of_In. apply dget_In in E. unfold VALID_MONTH_CODES. apply in_map_iff. by exists (name, code).
  - by eapply two_digit_year.
Qed.

(** A settle that is built has finite prices and passed its checks. *)
Lemma settle_of_values_Ok make a b c d e f volume oi t s : Settle_of_values make a b c d e f volume oi t = Ok s →
  exists a b c d e f, Settle_post_init (make a b c d e f) = Ok s.
Proof.
  unfold Settle_of_values. intros Hs.
  assert (Hno : (let! _ := _assert_tz_aware t in let! crossed := dv_ltb c d in guard! crossed else ValueError in
                 guard! volume <? 0 else ValueError in guard! oi <? 0 else ValueError in Err Unmodelled) ≠ Ok s).
  { intros E. inv_ok. }
  repeat (case_match; try (by destruct (Hno Hs))). eauto 10.
Qed.

Lemma build_settle_sound cells root sha t d state s :
  _build_settle cells root sha t d state = Ok (Some s) → page_settle root sha t d state s.
Proof.
  unfold _build_settle. do 9 (destruct cells as [|? cells]; [done|]). destruct cells; [|done].
  intros ([code y] & Hm & E)%rbind_Ok. apply month_display_sound in Hm as [Hc Hy].
  apply rbind_Ok in E as ([v|] & _ & E); [|done].
  do 7 (apply rbind_Ok in E as (? & _ & E)). cbv zeta in E. apply rbind_Ok in E as (s' & Hs & [= ->]).
  apply settle_of_values_Ok in Hs as (? & ? & ? & ? & ? & ? & Hs).
  pose proof (Settle_post_init_id _ _ Hs) as ->. split; [exact Hs|]. repeat (split; [done|]). exists y. done.
Qed.

Section PageFacts.
Context `{BeautifulSoup}.

Lemma page_sound body root sha t d settles : _parse_settlement_page body root sha t d = Ok settles →
  exists state, forall s, In s settles → page_settle root sha t d state s.
Proof.
  unfold _parse_settlement_page.
  intros (table & _ & (th & _ & (hr & _ & (_ & _ & (tb & _ & (_ & _ & (rs & Hrs & [= <-])%rbind_Ok)%rbind_Ok)%rbind_Ok)%rbind_Ok)%rbind_Ok)%rbind_Ok)%rbind_Ok.
  eexists. intros s Hs%somes_In. apply (rmap_In_Ok _ _ _ Hrs) in Hs as (tr & _ & E).
  unfold row_settle in E. apply rbind_Ok in E as (_ & _ & E). by eapply build_settle_sound.
Qed.
End PageFacts.

(** A symbol built from a known root is read back as it was built. *)
Definition symbol_ok (root code : string) (y : Z) : bool :=
  match _parse_contract_symbol (str_concat [root; code; str_pad 2 y]) with
  | Ok parsed => bool_decide (parsed = (root, code, y))
  | Err _ => false
  end.

Lemma symbols_ok : forallb (fun root => forallb (fun code => forallb (symbol_ok root code) (seqZ 0 100)) VALID_MONTH_CODES)
  (dkeys URLS) = true.
Proof. vm_compute. reflexivity. Qed.

Lemma symbol_roundtrip root code y : is_Some (dget root URLS) → code ∈ VALID_MONTH_CODES → 0 <= y < 100 →
  _parse_contract_symbol (str_concat [root; code; str_pad 2 y]) = Ok (root, code, y).
Proof.
  intros [p Hp] Hc Hy. pose proof symbols_ok as Hs. rewrite forallb_forall in Hs.
  assert (Hr : In root (dkeys URLS)) by (apply in_map_iff; exists (root, p); split; [done|by apply dget_In]).
  specialize (Hs _ Hr). rewrite forallb_forall in Hs. apply list_elem_of_In in Hc. specialize (Hs _ Hc).
  rewrite forallb_forall in Hs. assert (Hin : In y (seqZ 0 100)) by (apply list_elem_of_In, elem_of_seqZ; lia).
  specialize (Hs _ Hin). unfold symbol_ok in Hs.
  destruct (_parse_contract_symbol _); [|done]. apply bool_decide_eq_true in Hs. by rewrite Hs.
Qed.

Section FetchFacts.
Context `{Polars} `{BeautifulSoup} {C : Type} `{HTTPClient C}.

(** A fetch that succeeds parsed a page and wrote all of it; one that fails wrote nothing. *)
Lemma fetch_spec (src : CMEEODDataSource C) root as_of a a' r : fetch_all_for_root src root as_of a = (a', r) →
  match r with
  | Ok settles => exists path body sha, dget root URLS = Some path ∧
      http_fetch (_http src) (String.append CME_URL_BASE path) = Ok (body, sha) ∧ _is_waf_block body = false ∧
      _parse_settlement_page body root sha (_now_utc src) (dt_date as_of) = Ok settles ∧ a' = _write_archive root settles a
  | Err _ => a' = a
  end.
Proof.
  unfold fetch_all_for_root, bind, lift, modify, ret.
  destruct (dget root URLS) as [path|] eqn:Ep; cbn [of_option]; [|by intros [= <- <-]].
  destruct (http_fetch (_http src) _) as [[body sha]|e] eqn:Eh; [|by intros [= <- <-]].
  destruct (_is_waf_block body) eqn:Ew; cbn [reject]; [by intros [= <- <-]|].
  destruct (_parse_settlement_page body root sha _ _) as [settles|e] eqn:E; intros [= <- <-]; [|done].
  exists path, body, sha. done.
Qed.
End FetchFacts.

(** What the client promises: the body comes with its hash, and a failed fetch is a [CMEScrapeError]. *)
Class HTTPClientLaws (C : Type) `{HTTPClient C} := {
  http_fetch_hash : forall c url body sha, http_fetch c url = Ok (body, sha) → sha = content_sha256 body;
  http_fetch_fails : forall c url, fails_only (fun e => exn_is e CMEScrapeError = true) (http_fetch c url);
}.

#[global] Instance DefaultCME_laws {S} `{CurlSession S} : HTTPClientLaws (DefaultCMEHTTPClient S).
Proof.
  constructor; intros c url; cbn; destruct (session_get _ _) as [[status body]|e]; try done.
  - by intros b sha (_ & _ & [= <- <-])%rbind_Ok.
  - apply fails_bind; [by apply reject_fails|done].
Qed.


(** ** Errors *)


(** A source error, or one of a settle's own checks ([InvalidOperation] from ordering a NaN); the last
    one is where the model ends. *)
Definition cme_error (e : exn) : Prop :=
  exn_is e DataSourceError = true ∨ e = ValueError ∨ e = InvalidOperation ∨ e = Unmodelled.

Lemma parse_decimal_fails s : fails_only cme_error (_parse_decimal s).
Proof. unfold _parse_decimal. destruct (is_placeholder _); [done|]. destruct (decimal_value_of_str _); [done|]. by left. Qed.

Lemma parse_int_fails s : fails_only cme_error (_parse_int s).
Proof. unfold _parse_int. destruct (is_placeholder _); [done|]. destruct (int_of_str _); [done|]. by left. Qed.

Lemma int_of_str_fails s : fails_only cme_error (int_of_str s).
Proof. unfold int_of_str. apply of_option_fails. by right; left. Qed.

Lemma month_display_fails s : fails_only cme_error (_parse_month_display s).
Proof.
  unfold _parse_month_display. destruct (str_split _) as [|name [|y [|]]]; try by left.
  apply fails_bind; [apply of_option_fails; by left|]. intros c _.
  apply fails_bind; [apply reject_fails; by left|]. intros _ _.
  apply fails_bind; [apply int_of_str_fails|done].
Qed.

Lemma settle_fails s : fails_only cme_error (Settle_post_init s).
Proof.
  unfold Settle_post_init. apply fails_bind.
  { destruct (st_as_of_iso s); [|done]. unfold _assert_tz_aware. apply reject_fails. by right; left. }
  intros _ _. do 4 (apply fails_bind; [apply reject_fails; by right; left|]; intros _ _). done.
Qed.

Lemma settle_of_values_fails make a b c d e f volume oi t :
  fails_only cme_error (Settle_of_values make a b c d e f volume oi t).
Proof.
  unfold Settle_of_values.
  assert (Hf : fails_only cme_error (let! _ := _assert_tz_aware t in let! crossed := dv_ltb c d in
                 guard! crossed else ValueError in guard! volume <? 0 else ValueError in
                 guard! oi <? 0 else ValueError in Err (A := Settle) Unmodelled)).
  { apply fails_bind; [unfold _assert_tz_aware; apply reject_fails; by right; left|]. intros _ _.
    apply fails_bind; [unfold dv_ltb; repeat case_match; try done; by do 2 right; left|]. intros crossed _.
    do 3 (apply fails_bind; [apply reject_fails; by right; left|]; intros _ _). by do 3 right. }
  repeat (case_match; try done). apply settle_fails.
Qed.

Lemma build_settle_fails cells root sha t d state : fails_only cme_error (_build_settle cells root sha t d state).
Proof.
  unfold _build_settle. do 9 (destruct cells as [|? cells]; [by right; left|]). destruct cells; [|by right; left].
  apply fails_bind; [apply month_display_fails|]. intros [code y] _.
  apply fails_bind; [apply parse_decimal_fails|]. intros [v|] _; [|done].
  do 5 (apply fails_bind; [apply parse_decimal_fails|]; intros ? _).
  do 2 (apply fails_bind; [apply parse_int_fails|]; intros ? _).
  apply fails_bind; [apply settle_of_values_fails|done].
Qed.

Lemma page_fails `{BeautifulSoup} body root sha t d : fails_only cme_error (_parse_settlement_page body root sha t d).
Proof.
  unfold _parse_settlement_page, _find_settlement_table.
  do 3 (apply fails_bind; [apply of_option_fails; by left|]; intros ? _).
  apply fails_bind; [apply reject_fails; by left|]. intros _ _.
  apply fails_bind; [apply of_option_fails; by left|]. intros tb _.
  apply fails_bind; [apply reject_fails; by left|]. intros _ _.
  apply fails_bind; [|done]. apply rmap_fails. intros tr. unfold row_settle.
  apply fails_bind; [apply reject_fails; by left|]. intros _ _. apply build_settle_fails.
Qed.

Lemma scrape_is_source e : exn_is e CMEScrapeError = true → cme_error e.
Proof. by left; destruct e. Qed.

Lemma symbol_fails contract : fails_only cme_error (_parse_contract_symbol contract).
Proof.
  unfold _parse_contract_symbol. do 2 (apply fails_bind; [apply reject_fails; by left|]; intros _ _).
  apply fails_bind; [apply int_of_str_fails|]. intros n _.
  do 2 (apply fails_bind; [apply reject_fails; by left|]; intros _ _). done.
Qed.

(** A fetch that fails wrote nothing. *)
Lemma latest_fails `{Polars} `{BeautifulSoup} {C} `{HTTPClientLaws C} (src : CMEEODDataSource C) contract as_of a a' e :
  cme_latest_settle src contract as_of a = (a', Err e) → a' = a ∧ cme_error e.
Proof.
  unfold cme_latest_settle, bind, lift. pose proof (symbol_fails contract) as Hc.
  destruct (_parse_contract_symbol contract) as [[[root code] year]|e0]; [|by intros [= <- <-]].
  intros E. split.
  { destruct (fetch_all_for_root src root as_of a) as [a1 r] eqn:Ef. pose proof (fetch_spec _ _ _ _ _ _ Ef) as Hs.
    destruct r; [done|]. by injection E as <- <-. }
  unfold fetch_all_for_root, bind, lift, modify, ret in E. destruct (dget root URLS) as [path|]; cbn [of_option] in E.
  2:{ injection E as <- <-. by left. }
  pose proof (http_fetch_fails (_http src) (String.append CME_URL_BASE path)) as Hf.
  destruct (http_fetch _ _) as [[body sha]|e1]; [|injection E as <- <-; by apply scrape_is_source].
  destruct (_is_waf_block body); cbn [reject] in E; [injection E as <- <-; by left|].
  pose proof (page_fails body root sha (_now_utc src) (dt_date as_of)) as Hp.
  destruct (_parse_settlement_page _ _ _ _ _); [done|]. by injection E as <- <-.
Qed.

(** C27: a failed fetch is clean.  Over a client that reports its failures as [CMEScrapeError], as the
    default one does, asking for a contract's settle either answers or leaves the archive exactly as
    it was; what it raises is a source error, or the [ValueError] or [InvalidOperation] of a settle whose
    row breaks the settle's own checks or cannot be compared (its page has an infinite or NaN price;
    where such a settle passes its checks the model ends, as [Unmodelled], and nothing is claimed); a contract that does not parse, a challenge page, a page without its table
    and changed columns are told apart. *)
Theorem cme_fetch_clean `{Polars} `{BeautifulSoup} {C} `{HTTPClientLaws C} (src : CMEEODDataSource C) contract as_of a a' e :
  cme_latest_settle src contract as_of a = (a', Err e) → e ≠ Unmodelled →
    a' = a ∧ (exn_is e DataSourceError = true ∨ e = ValueError ∨ e = InvalidOperation) ∧
    (_parse_contract_symbol contract = Err ContractNotConfigured → e = ContractNotConfigured) ∧
    (forall root code year path body sha, _parse_contract_symbol contract = Ok (root, code, year) →
       dget root URLS = Some path → http_fetch (_http src) (String.append CME_URL_BASE path) = Ok (body, sha) →
       (_is_waf_block body = true → e = WAFBlockedError) ∧
       (_is_waf_block body = false → first_match (soup body) table_selectors = None → e = MalformedSettlementPage) ∧
       (forall table thead hr, _is_waf_block body = false → first_match (soup body) table_selectors = Some table →
          find table "thead" [] = Some thead → find thead "tr" [] = Some hr →
          _compute_schema_signature (map (get_text "") (find_all hr "th")) ≠ _compute_schema_signature EXPECTED_COLUMN_HEADERS →
          e = SchemaMismatch)).
Proof.
  intros E Hun. apply latest_fails in E as Hf. destruct Hf as [-> He]. split; [done|].
  split; [unfold cme_error in He; tauto|]. unfold cme_latest_settle, bind, lift in E.
  destruct (_parse_contract_symbol contract) as [[[root code] year]|e0] eqn:Ep;
    [|injection E as <-; split; [by intros [= ->]|done]].
  split; [done|]. intros root' code' year' path body sha [= <- <- <-] Hpath Hfetch.
  unfold fetch_all_for_root, bind, lift, modify, ret in E. rewrite Hpath in E. cbn [of_option] in E. rewrite Hfetch in E.
  split; [|split].
  - intros Hw. rewrite Hw in E. cbn [reject] in E. by injection E as <-.
  - intros Hw Ht. rewrite Hw in E. cbn [reject] in E. unfold _parse_settlement_page, _find_settlement_table in E.
    rewrite Ht in E. cbn [of_option rbind] in E. by injection E as <-.
  - intros table thead hr Hw Ht Hth Htr Hsig. rewrite Hw in E. cbn [reject] in E.
    unfold _parse_settlement_page, _find_settlement_table in E. rewrite Ht in E. cbn [of_option rbind] in E.
    rewrite Hth in E. cbn [of_option rbind] in E. rewrite Htr in E. cbn [of_option rbind] in E.
    apply String.eqb_neq in Hsig. rewrite Hsig in E. cbn [negb reject rbind] in E. by injection E as <-.
Qed.

(** ** The archive after a fetch *)
Section ArchiveFacts.
Context `{PolarsLaws}.

(** The rows of one page all go to one year. *)
Lemma group_rows_one {K R} `{EqDecision K} (part : R -> K) k rows : rows ≠ [] → (forall r, In r rows → part r = k) →
  group_rows part rows = [(k, rows)].
Proof.
  intros Hne Hk. induction rows as [|r rows IH] using rev_ind; [done|]. clear Hne.
  rewrite group_rows_snoc, (Hk r) by (apply in_app_iff; right; by left).
  destruct rows as [|x rows]; [done|]. rewrite IH by (try done; intros y Hy; apply Hk; rewrite in_app_iff; auto).
  cbn [dget dset]. unfold dget_or. cbn [dget]. by rewrite !decide_True.
Qed.

Lemma archive_row_date s : row_year (archive_row s) = year_of (st_as_of_date s).
Proof. done. Qed.

(** A page of settles for one day is merged into the frame of its year; the rest of the archive stays. *)
Lemma write_page_spec root settles a day : (forall s, In s settles → st_as_of_date s = day) → settles ≠ [] →
  _write_archive root settles a
    = dset (root, year_of day) (merge_year (dget (root, year_of day) a) (map archive_row settles)) a.
Proof.
  intros Hd Hne. unfold _write_archive. destruct settles as [|s settles]; [done|].
  rewrite (group_rows_one row_year (year_of day)); [done|done|].
  intros r (x & <- & Hx)%in_map_iff. rewrite archive_row_date. by rewrite Hd.
Qed.

(** The rows of a merged frame: the old ones and the new ones, of equal keys the newest. *)
Lemma merge_year_rows existing rows r : In r (pl_rows (merge_year existing rows)) →
  In r rows ∨ exists f, existing = Some f ∧ In r (pl_rows f).
Proof.
  unfold merge_year. destruct existing as [f|]; [|rewrite rows_DataFrame; auto].
  rewrite rows_unique, rows_concat. cbn [map concat]. rewrite app_nil_r. intros Hin%keep_last_sub%in_app_iff.
  rewrite rows_DataFrame in Hin. naive_solver.
Qed.

Lemma merge_year_new existing rows1 r rows2 : key_in SettleStore.settle_key rows2 r = false →
  In r (pl_rows (merge_year existing (rows1 ++ r :: rows2))).
Proof.
  intros Hk. unfold merge_year. destruct existing as [f|].
  - rewrite rows_unique, rows_concat. cbn [map concat]. rewrite app_nil_r, rows_DataFrame. apply keep_last_In.
    exists (pl_rows f ++ rows1), rows2. split; [by rewrite <- app_assoc|done].
  - rewrite rows_DataFrame. apply in_app_iff. right. by left.
Qed.

(** An archive the source has written: every row stands for a settle of its root and year. *)
Definition archive_ok (a : cme_archive) : Prop :=
  List.NoDup (dkeys a) ∧ forall root year f r, dget (root, year) a = Some f → In r (pl_rows f) →
    exists s, r = archive_row s ∧ Settle_post_init s = Ok s ∧ year_of (st_as_of_date s) = year ∧
      real_date (st_as_of_date s) ∧ 0 <= year.

Lemma real_year_pos d : real_date d → 0 <= year_of d.
Proof. intros (y & m & dd & Hy & Hv & ->). rewrite year_of_mk_date by done. lia. Qed.

Lemma write_page_ok root settles a day : archive_ok a → real_date day →
  (forall s, In s settles → st_as_of_date s = day ∧ Settle_post_init s = Ok s) → archive_ok (_write_archive root settles a).
Proof.
  intros [Hnd Ha] Hday Hs. destruct settles as [|s0 l] eqn:E; [done|]. rewrite <- E in *.
  rewrite (write_page_spec root settles a day) by (try (intros s Hin; by apply Hs); by rewrite E).
  split; [by apply dkeys_dset_NoDup|]. intros root' year' f r. rewrite dget_dset. case_decide as Ek; [|by apply Ha].
  injection Ek as -> ->. intros [= <-] [Hr|(f0 & Ef & Hr)]%merge_year_rows; [|by apply (Ha _ _ _ _ Ef)].
  apply in_map_iff in Hr as (s & <- & Hin). destruct (Hs s Hin) as [Hd Hp]. exists s. split; [done|]. split; [done|].
  rewrite Hd. split; [done|]. split; [done|]. by apply real_year_pos.
Qed.
End ArchiveFacts.

(** ** A canned page *)
Module Canned.
Inductive tree := Node (name : string) (attrs : list (string * string)) (children : list tree) | Text (s : string).

Fixpoint texts (t : tree) : list string :=
  match t with Text s => [s] | Node _ _ ts => concat (map texts ts) end.

Fixpoint descendants (t : tree) : list tree :=
  match t with
  | Text _ => []
  | Node _ _ ts => concat (map (fun u => u :: descendants u) ts)
  end.

Definition tag_is (name : string) (attrs : list (string * string)) (t : tree) : bool :=
  match t with
  | Node n a _ => String.eqb n name && forallb (fun kv => bool_decide (dget (fst kv) a = Some (snd kv))) attrs
  | Text _ => false
  end.

Definition el (name : string) (s : string) : tree := Node name [] [Text s].

Definition page : tree :=
  Node "html" [] [
    Node "span" [("class", "status-value")] [Text "Preliminary"];
    Node "table" [("class", "main-table")] [
      Node "thead" [] [Node "tr" [] (map (el "th") EXPECTED_COLUMN_HEADERS)];
      Node "tbody" [] [
        Node "tr" [] (map (el "td") ["JUN 26"; "6,000.25"; "6,100.00"; "5,990.00"; "6,010.50"; "+12.25"; "6,012.50"; "1,234,567"; "2,345"]);
        Node "tr" [] (map (el "td") ["SEP 26"; "---"; "---"; "---"; "---"; "-"; "6,050.75"; "0"; "17"]);
        Node "tr" [] (map (el "td") ["DEC 26"; "---"; "---"; "---"; "---"; "-"; "---"; "0"; "0"])]]]%string.

(** A page of one row with this high, a low of 2 and a settle of 1. *)
Definition one_row (high : string) : tree :=
  Node "html" [] [Node "table" [] [
    Node "thead" [] [Node "tr" [] (map (el "th") EXPECTED_COLUMN_HEADERS)];
    Node "tbody" [] [Node "tr" [] (map (el "td") ["JUN 26"; "1"; high; "2"; "1"; "0"; "1"; "0"; "0"])]]]%string.

#[local] Instance trees : BeautifulSoup := {
  Tag := tree;
  soup body := if String.eqb body "crossed" then one_row "1" else if String.eqb body "nan" then one_row "NaN" else page;
  find t name attrs := List.find (tag_is name attrs) (descendants t);
  find_all t name := List.filter (tag_is name []) (descendants t);
  get_text sep t := str_join sep (texts t);
}.

#[local] Instance fixed : HTTPClient string := {
  http_fetch body url := Ok (body, content_sha256 body);
  http_healthcheck body url := Ok true;
}.

#[local] Instance fixed_laws : HTTPClientLaws string.
Proof. constructor; [by intros ? ? ? ? [= <- <-]|done]. Qed.

#[local] Existing Instances ListFrames.list_frames ListFrames.list_frames_laws.

Definition src (body : string) : CMEEODDataSource string := {|
  _http := body; _now_utc := mk_datetime 2026 5 22 23 30 0 0 (Some 0) |}.

Definition day : datetime := mk_datetime 2026 5 22 12 0 0 0 (Some 0).


(** A row whose high is below its low raises the settle's [ValueError], which is not a source error:
    a verifier polling this source does not go on to the next one. *)
Example crossed_row : exists a', cme_latest_settle (src "crossed") "ESM26" day [] = (a', Err ValueError)
  ∧ exn_is ValueError DataSourceError = false.
Proof. eexists. split; vm_compute; reflexivity. Qed.

(** [Decimal] reads a cell "NaN", and the settle's check of its high raises [InvalidOperation], which
    is not a source error either. *)
Example nan_row : exists a', cme_latest_settle (src "nan") "ESM26" day [] = (a', Err InvalidOperation)
  ∧ exn_is InvalidOperation DataSourceError = false.
Proof. eexists. split; vm_compute; reflexivity. Qed.

Lemma cme_fetch_clean_witness : exists a', cme_latest_settle (src "Just a moment...") "ESM26" day [] = (a', Err WAFBlockedError)
  ∧ a' = [].
Proof.
  eexists. run_as E. by apply (cme_fetch_clean _ _ _ _ _ _ E).
Defined.
End Canned.
