(* ===== verification/Replay.v ===== *)
(** * data/sources/replay.py: settlements replayed from the archive

    The source reads the archive [CmeEod] writes.  A directory is the list of its entries, a name and,
    where there is one, the frame of its [data.parquet]; the frames' columns are typed, so the type
    tests on their cells cannot fail.  Logging and message texts are left out. *)

From Stdlib Require Import Sorting.Sorted.
From S2P Require Import Prelude PyDecimal PyText PyTime PyParse PyFloat Json Types Store Storage Verifier CmeEod.

#[local] Open Scope Z_scope.
#[local] Arguments String.append !_ _ / : simpl nomatch.

Definition _SETTLE_STATE_RANK (s : SettleState) : Z := match s with live => 0 | preliminary => 1 | final => 2 end.
Definition MIN_CONTRACT_SYMBOL_LENGTH : nat := 4.

Section Replay.
Context `{Polars}.

Record ReplayDataSource := {
  rp_root_exists : bool;
  rp_listing : string -> list (string * option (frame settle_row)); (* of [contract={root}] *)
  rp_source_id : string;
  rp_tier : SourceTier;
}.

Definition DEFAULT_SOURCE_ID : string := "replay".

(** The archive on disk; an absent or empty id gives the default one, an absent tier the derived one. *)
Definition new_ReplayDataSource (root_exists : bool) (listing : string -> list (string * option (frame settle_row)))
    (source_id : option string) (tier : option SourceTier) : ReplayDataSource := {|
  rp_root_exists := root_exists; rp_listing := listing;
  rp_source_id := match source_id with
                  | Some s => if String.eqb s "" then DEFAULT_SOURCE_ID else s
                  | None => DEFAULT_SOURCE_ID
                  end;
  rp_tier := match tier with Some t => t | None => T4_DERIVED end |}.

Definition _parse_contract_root (contract : ContractSymbol) : result string :=
  guard! (String.length contract <? MIN_CONTRACT_SYMBOL_LENGTH)%nat else ContractNotConfigured in
  Ok (str_drop_last 3 contract).

Definition _parse_year_dir (name : string) : option Z :=
  if String.prefix "year=" name
  then match int_of_str (str_drop 5 name) with Ok y => Some y | Err _ => None end
  else None.

Definition _row_to_settle (r : settle_row) : result Settle :=
  let! settle_state := of_option (SettleStore.settle_state_of (SettleStore.sr_settle_state r)) DataSourceError in
  let! as_of_iso := match SettleStore.sr_as_of_iso r with
                    | None => Ok None
                    | Some t => guard! dt_naive t else DataSourceError in Ok (Some (to_utc t))
                    end in
  let! settle := decimal_of_str (SettleStore.sr_settle r) in
  let! open := decimal_of_str (SettleStore.sr_open r) in
  let! high := decimal_of_str (SettleStore.sr_high r) in
  let! low := decimal_of_str (SettleStore.sr_low r) in
  let! last := decimal_of_str (SettleStore.sr_last r) in
  let! change := decimal_of_str (SettleStore.sr_change r) in
  Settle_post_init {|
    st_contract := SettleStore.sr_contract r; st_as_of_date := SettleStore.sr_as_of_date r;
    st_settle := settle; st_settle_state := settle_state; st_open := open; st_high := high; st_low := low;
    st_last := last; st_change := change; st_volume_est := SettleStore.sr_volume_est r;
    st_oi_prior := SettleStore.sr_oi_prior r; st_source_id := SettleStore.sr_source_id r;
    st_as_of_iso := as_of_iso; st_content_bytes_sha := SettleStore.sr_content_bytes_sha r;
    st_cme_month_code := SettleStore.sr_cme_month_code r |}.

Definition is_match (contract : ContractSymbol) (as_of_date : date) (r : settle_row) : bool :=
  String.eqb (SettleStore.sr_contract r) contract && (SettleStore.sr_as_of_date r <=? as_of_date).

(** The candidates of one year directory. *)
Definition dir_candidates (contract : ContractSymbol) (as_of_date : date)
    (year_dir : string * option (frame settle_row)) : result (list Settle) :=
  match _parse_year_dir (fst year_dir), snd year_dir with
  | Some year, Some df =>
      if year_of as_of_date <? year then Ok []
      else rmap _row_to_settle (pl_rows (pl_filter (is_match contract as_of_date) df))
  | _, _ => Ok []
  end.

(** Date, then state, then content hash. *)
Definition candidate_leb : Settle -> Settle -> bool :=
  lex_leb st_as_of_date (lex_leb (fun s => _SETTLE_STATE_RANK (st_settle_state s))
    (fun a b => String.leb (st_content_bytes_sha a) (st_content_bytes_sha b))).

Definition replay_latest_settle (src : ReplayDataSource) (contract : ContractSymbol) (as_of : datetime)
    : result (option Settle) :=
  let! root := _parse_contract_root contract in
  let as_of_date := dt_date as_of in
  let year_dirs := sort_by (fun a b => String.leb (fst a) (fst b))
                     (List.filter (fun d => String.prefix "year=" (fst d)) (rp_listing src root)) in
  let! candidates := rmap (dir_candidates contract as_of_date) year_dirs in
  Ok (list.last (sort_by candidate_leb (concat candidates))).

(** The source as the verifier sees it: bars and ticks are not replayed. *)
Definition Replay_source (src : ReplayDataSource) : DataSource := {|
  source_id := rp_source_id src; tier := rp_tier src;
  get_bars _ _ _ _ := Err BarsNotSupported; get_ticks _ _ _ := Err TicksNotSupported;
  latest_settle := replay_latest_settle src; healthcheck := rp_root_exists src |}.
End Replay.

(** ** Facts *)
Lemma candidate_leb_total a b : candidate_leb a b = true ∨ candidate_leb b a = true.
Proof. apply lex_total, lex_total. intros x y. apply string_leb_total. Qed.

Lemma candidate_leb_trans a b c : candidate_leb a b = true → candidate_leb b c = true → candidate_leb a c = true.
Proof. apply lex_trans, lex_trans. intros x y z. apply string_leb_trans. Qed.

(** The last of a sorted list bounds it. *)
Lemma last_sorted {A} (leb : A -> A -> bool) (l : list A) :
  (forall x y, leb x y = true ∨ leb y x = true) →
  (forall x y z, leb x y = true → leb y z = true → leb x z = true) →
  match list.last (sort_by leb l) with
  | None => l = []
  | Some m => In m l ∧ forall x, In x l → leb x m = true
  end.
Proof.
  intros Ht Htr. pose proof (sort_by_sorted leb Ht Htr l) as Hs.
  destruct (list.last (sort_by leb l)) as [m|] eqn:E.
  - apply last_Some in E as [l' E]. rewrite E in Hs. split.
    + apply (sort_by_In leb). rewrite E. apply in_app_iff. right. by left.
    + intros x Hx%(sort_by_In leb). rewrite E in Hx. apply in_app_iff in Hx as [Hx|[->|[]]].
      * clear E. induction l' as [|y l' IH]; [done|]. apply StronglySorted_inv in Hs as [Hs Hall].
        rewrite List.Forall_forall in Hall. destruct Hx as [->|Hx]; [|by apply IH].
        apply Hall. apply in_app_iff. right. by left.
      * by destruct (Ht x x).
  - apply last_None in E. pose proof (sort_by_length leb l) as Hl. rewrite E in Hl. by destruct l.
Qed.

Section Facts.
Context `{PolarsLaws}.

(** A row some year directory of the contract's root holds. *)
Definition archived (src : ReplayDataSource) (contract : ContractSymbol) (r : settle_row) : Prop :=
  SettleStore.sr_contract r = contract ∧
  exists name f, In (name, Some f) (rp_listing src (str_drop_last 3 contract)) ∧ In r (pl_rows f).

(** The rows of the contract lie in the directories of their years and can be read. *)
Definition filed (src : ReplayDataSource) (contract : ContractSymbol) : Prop :=
  forall name f r, In (name, Some f) (rp_listing src (str_drop_last 3 contract)) → In r (pl_rows f) →
    SettleStore.sr_contract r = contract →
    _parse_year_dir name = Some (year_of (SettleStore.sr_as_of_date r)) ∧ real_date (SettleStore.sr_as_of_date r) ∧
    exists s, _row_to_settle r = Ok s.

Lemma match_spec contract d r : is_match contract d r = true ↔ SettleStore.sr_contract r = contract ∧ SettleStore.sr_as_of_date r <= d.
Proof. unfold is_match. by rewrite andb_true_iff, String.eqb_eq, Z.leb_le. Qed.

Lemma parse_year_prefix name y : _parse_year_dir name = Some y → String.prefix "year=" name = true.
Proof. unfold _parse_year_dir. by destruct (String.prefix "year=" name). Qed.

(** Every directory is read, and the candidates are the rows of the contract up to the date. *)
Lemma candidates_spec src contract d : real_date d → filed src contract →
  let dirs := sort_by (fun a b => String.leb (fst a) (fst b))
    (List.filter (fun d => String.prefix "year=" (fst d)) (rp_listing src (str_drop_last 3 contract))) in
  exists cs, rmap (dir_candidates contract d) dirs = Ok cs ∧ forall s, In s (concat cs) ↔
    exists r, archived src contract r ∧ SettleStore.sr_as_of_date r <= d ∧ _row_to_settle r = Ok s.
Proof.
  intros Hd Hf dirs.
  assert (Hin : forall nd, In nd dirs ↔ String.prefix "year=" (fst nd) = true ∧ In nd (rp_listing src (str_drop_last 3 contract)))
    by (intros nd; unfold dirs; rewrite sort_by_In, filter_In; tauto).
  assert (Hdir : forall nd, In nd dirs → exists l, dir_candidates contract d nd = Ok l).
  { intros [name [f|]] Hnd; unfold dir_candidates; cbn [fst snd]; [|destruct (_parse_year_dir name); eauto].
    destruct (_parse_year_dir name) as [y|]; [|eauto]. destruct (_ <? y); [eauto|].
    destruct (rmap_total _row_to_settle (pl_rows (pl_filter (is_match contract d) f))) as (l & E & _); [|eauto].
    intros r Hr. rewrite rows_filter in Hr. apply filter_In in Hr as [Hr [Hc _]%match_spec].
    apply Hin in Hnd as [_ Hnd]. by destruct (Hf _ _ _ Hnd Hr Hc) as (_ & _ & Hs). }
  destruct (rmap_total _ _ Hdir) as (cs & Ecs & _). exists cs. split; [done|].
  intros s. rewrite in_concat. split.
  - intros (l & (nd & Hnd & El)%(rmap_In_Ok _ _ _ Ecs) & Hs). destruct nd as [name [f|]]; unfold dir_candidates in El; cbn [fst snd] in El.
    2:{ destruct (_parse_year_dir name); injection El as <-; done. }
    destruct (_parse_year_dir name) as [y|]; [|injection El as <-; done].
    destruct (_ <? y); [injection El as <-; done|].
    apply (rmap_In_Ok _ _ _ El) in Hs as (r & Hr & Es). rewrite rows_filter in Hr.
    apply filter_In in Hr as [Hr [Hc Hle]%match_spec]. apply Hin in Hnd as [_ Hnd]. exists r. split; [|done].
    split; [done|]. eauto.
  - intros (r & (Hc & name & f & Hnf & Hr) & Hle & Es). destruct (Hf _ _ _ Hnf Hr Hc) as (Hy & Hreal & _).
    assert (Hnd : In (name, Some f) dirs) by (apply Hin; split; [by eapply parse_year_prefix|done]).
    destruct (Hdir _ Hnd) as [l El]. exists l. split; [apply (rmap_In_Ok _ _ _ Ecs); eauto|].
    unfold dir_candidates in El. cbn [fst snd] in El. rewrite Hy in El.
    pose proof (real_year_mono _ _ Hreal Hd Hle) as Hyear. apply Z.ltb_ge in Hyear. rewrite Hyear in El.
    apply (rmap_In_Ok _ _ _ El). exists r. split; [|done]. rewrite rows_filter. apply filter_In.
    split; [done|]. by apply match_spec.
Qed.

Lemma replay_spec src contract as_of :
  (MIN_CONTRACT_SYMBOL_LENGTH <= String.length contract)%nat → real_date (dt_date as_of) → filed src contract →
  exists o, latest_settle (Replay_source src) contract as_of = Ok o ∧
    let known s := exists r, archived src contract r ∧ SettleStore.sr_as_of_date r <= dt_date as_of ∧ _row_to_settle r = Ok s in
    match o with
    | Some s => known s ∧ forall s', known s' → candidate_leb s' s = true
    | None => forall s, ~ known s
    end.
Proof.
  intros Hlen Hd Hf. cbn [latest_settle Replay_source]. unfold replay_latest_settle, _parse_contract_root.
  apply Nat.ltb_ge in Hlen. rewrite Hlen. cbn [reject rbind].
  destruct (candidates_spec src contract _ Hd Hf) as (cs & -> & Hin). cbn [rbind]. eexists. split; [done|].
  pose proof (last_sorted candidate_leb (concat cs) candidate_leb_total candidate_leb_trans) as Hl.
  destruct (list.last _) as [s|].
  - destruct Hl as [H1 H2]. split; [by apply Hin|]. intros s' Hs'. apply H2. by apply Hin.
  - intros s Hs. apply Hin in Hs. by rewrite Hl in Hs.
Qed.

(** the replayed settle is the freshest one the archive holds.  When the contract's rows lie in the
    directories of their years and can be read, the answer for an instant is one of the archived
    settles of the contract dated no later than that day, and no other such settle is later by date,
    then by state (final after preliminary after live), then by content hash; there is no answer only
    when nothing of the contract is dated by then.  Skipping the directories of later years loses
    nothing. *)
Theorem replay_latest_spec src contract as_of :
  (MIN_CONTRACT_SYMBOL_LENGTH <= String.length contract)%nat → real_date (dt_date as_of) → filed src contract →
  exists o, latest_settle (Replay_source src) contract as_of = Ok o ∧
    let known s := exists r, archived src contract r ∧ SettleStore.sr_as_of_date r <= dt_date as_of ∧ _row_to_settle r = Ok s in
    match o with
    | Some s => known s ∧ forall s', known s' → candidate_leb s' s = true
    | None => forall s, ~ known s
    end.
Proof. apply replay_spec. Qed.
End Facts.

(** ** Live, then replayed *)
Section Composition.
Context `{PolarsLaws} `{BeautifulSoup} {C : Type} `{HTTPClient C}.

(** The directories of an archive, as the replay finds them. *)
Definition listing_of (a : cme_archive) (root : string) : list (string * option (frame settle_row)) :=
  map (fun kf => (String.append "year=" (str_int (snd (fst kf))), Some (snd kf)))
    (List.filter (fun kf => String.eqb (fst (fst kf)) root) a).

Definition replay_of (a : cme_archive) : DataSource :=
  Replay_source (new_ReplayDataSource true (listing_of a) None None).

Lemma listing_In a root name f : List.NoDup (dkeys a) → In (name, Some f) (listing_of a root) ↔
  exists year, name = String.append "year=" (str_int year) ∧ dget (root, year) a = Some f.
Proof.
  intros Hnd. unfold listing_of. rewrite in_map_iff. split.
  - intros ([[r y] g] & [= <- <-] & [Hin Hr%String.eqb_eq]%filter_In). cbn in *. subst r. exists y.
    split; [done|]. by apply In_dget.
  - intros (y & -> & Hg). exists ((root, y), f). split; [done|]. apply filter_In. split; [by apply dget_In|].
    cbn. apply String.eqb_refl.
Qed.

Lemma parse_year_dir_str y : 0 <= y → _parse_year_dir (String.append "year=" (str_int y)) = Some y.
Proof.
  intros Hy. unfold _parse_year_dir.
  assert (Hp : forall s, String.prefix "year=" (String.append "year=" s) = true) by (intros []; done).
  rewrite Hp. assert (Hdrop : str_drop 5 (String.append "year=" (str_int y)) = str_int y).
  { unfold str_drop. cbn [String.append String.length]. cbn [Nat.sub]. rewrite Nat.sub_0_r. cbn [String.substring].
    apply substring_all. }
  rewrite Hdrop, int_of_str_int by done. done.
Qed.

(** The replay reads back what the source wrote. *)
Lemma replay_row s : Settle_post_init s = Ok s → _row_to_settle (archive_row s) = Ok (SettleStore.settle_utc s).
Proof.
  intros Hs. pose proof (SettleStore.row_roundtrip s Hs) as Hr. unfold _row_to_settle, archive_row.
  unfold SettleStore._row_to_settle in Hr. cbn in Hr |- *.
  destruct (SettleStore.settle_state_of _) as [st|]; [|done]. cbn [of_option rbind] in *.
  unfold Settle_post_init in Hs. destruct (st_as_of_iso s) as [t|] eqn:Et.
  - cbn [SettleStore.settle_utc option_map] in *. unfold _assert_tz_aware in Hs.
    destruct (dt_naive t); [done|]. cbn [reject rbind]. exact Hr.
  - exact Hr.
Qed.

Lemma ok_filed a contract : archive_ok a → filed (new_ReplayDataSource true (listing_of a) None None) contract.
Proof.
  intros [Hnd Ha] name f r Hin Hr Hc. cbn [rp_listing new_ReplayDataSource] in Hin.
  apply (listing_In _ _ _ _ Hnd) in Hin as (y & -> & Hg). destruct (Ha _ _ _ _ Hg Hr) as (s & -> & Hs & Hy & Hreal & Hpos).
  rewrite parse_year_dir_str by done. split; [|split; [done|]].
  - cbn. by rewrite Hy.
  - eexists. by apply replay_row.
Qed.

Lemma symbol_long contract root code year : _parse_contract_symbol contract = Ok (root, code, year) →
  (4 <= String.length contract)%nat ∧ root = str_drop_last 3 contract.
Proof.
  unfold _parse_contract_symbol. intros (_ & Hl%reject_Ok%Nat.ltb_ge & E)%rbind_Ok.
  apply rbind_Ok in E as (_ & _ & E). apply rbind_Ok in E as (n & _ & E).
  apply rbind_Ok in E as (_ & _ & E). apply rbind_Ok in E as (_ & _ & E). by injection E as <- _ _.
Qed.

(** The row of a settle the page has once is in the merged frame. *)
Lemma page_row_merged existing settles s : In s settles → (forall x, In x settles → st_contract x = st_contract s → x = s) →
  In (archive_row s) (pl_rows (merge_year existing (map archive_row settles))).
Proof.
  intros Hin Honce.
  assert (Hlast : exists l1 s' l2, settles = l1 ++ s' :: l2 ∧ st_contract s' = st_contract s ∧
    forall x, In x l2 → st_contract x ≠ st_contract s).
  { clear Honce. induction settles as [|x settles IH] using rev_ind; [done|].
    destruct (decide (st_contract x = st_contract s)) as [Ex|Ex]; [exists settles, x, []; done|].
    apply in_app_iff in Hin as [Hin|[->|[]]]; [|done]. destruct (IH Hin) as (l1 & s' & l2 & -> & Hca & Hcb).
    exists l1, s', (l2 ++ [x]). rewrite <- app_assoc. split; [done|]. split; [done|].
    intros y [Hy|[<-|[]]]%in_app_iff; auto. }
  destruct Hlast as (l1 & s' & l2 & El & Hc' & Hl2).
  assert (s' = s) as -> by (apply Honce; [rewrite El; apply in_app_iff; right; by left|done]).
  rewrite El, map_app. cbn [map]. apply merge_year_new. apply key_in_false.
  intros (r & Hk & (x & <- & Hx)%in_map_iff)%in_map_iff. apply (Hl2 x Hx). symmetry in Hk.
  unfold SettleStore.settle_key in Hk. by injection Hk.
Qed.

(** The row an archive answers with on a day it has a settle of is dated that day. *)
Lemma answer_dated a day s r y f : archive_ok a → st_as_of_date s = day → dget y a = Some f → In r (pl_rows f) →
  SettleStore.sr_as_of_date r <= day → forall x, _row_to_settle r = Ok x → candidate_leb (SettleStore.settle_utc s) x = true →
  SettleStore.sr_as_of_date r = day.
Proof.
  intros Hok Ed Hg Hr Hle x Ex Hmax. destruct y as [root year]. destruct (proj2 Hok _ _ _ _ Hg Hr) as (s2 & -> & Hp & _).
  rewrite replay_row in Ex by done. injection Ex as <-. unfold candidate_leb, lex_leb in Hmax. cbn [st_as_of_date SettleStore.settle_utc] in Hmax.
  rewrite Ed in Hmax. rewrite !orb_true_iff, !andb_true_iff, Z.ltb_lt, Z.eqb_eq in Hmax. cbn in Hle |- *. unfold date in *. lia.
Qed.

(** A page written to an archive that has nothing of a contract on its day is what a replay of that day answers from. *)
Lemma page_replayed a contract settles s as_of : let root := str_drop_last 3 contract in let a' := _write_archive root settles a in
  archive_ok a' → real_date (dt_date as_of) → (4 <= String.length contract)%nat →
  (forall x, In x settles → st_as_of_date x = dt_date as_of ∧ Settle_post_init x = Ok x) →
  In s settles → st_contract s = contract → (forall x, In x settles → st_contract x = contract → x = s) →
  (forall root year f r, dget (root, year) a = Some f → In r (pl_rows f) →
     ~ (SettleStore.sr_contract r = contract ∧ SettleStore.sr_as_of_date r = dt_date as_of)) →
  latest_settle (replay_of a') contract as_of = Ok (Some (SettleStore.settle_utc s)).
Proof.
  intros root a' Hok' Hday Hlen Hs Hin Hc Honce Hnew. set (key := (root, year_of (dt_date as_of))).
  destruct (replay_spec (new_ReplayDataSource true (listing_of a') None None) contract as_of) as (o & Eo & Ho); [done..|by apply ok_filed|].
  unfold replay_of. rewrite Eo. clear Eo. f_equal. cbv zeta in Ho.
  assert (Ea' : a' = dset key (merge_year (dget key a) (map archive_row settles)) a)
    by (apply write_page_spec; [intros x Hx; by apply Hs|by intros ->]).
  set (m := merge_year _ (map archive_row settles)) in *.
  assert (Hknown : exists r, archived (new_ReplayDataSource true (listing_of a') None None) contract r ∧
    SettleStore.sr_as_of_date r <= dt_date as_of ∧ _row_to_settle r = Ok (SettleStore.settle_utc s)).
  { exists (archive_row s). split; [split; [exact Hc|]|split; [cbn; destruct (Hs s Hin) as [-> _]; unfold date; lia|apply replay_row; by apply Hs]].
    exists (String.append "year=" (str_int (year_of (dt_date as_of)))), m. split.
    - cbn [rp_listing new_ReplayDataSource]. apply listing_In; [by destruct Hok'|]. eexists. split; [done|]. by rewrite Ea', dget_dset_eq.
    - apply page_row_merged; [done|]. intros x Hx Ex. apply (Honce _ Hx). congruence. }
  destruct o as [x|]; [|by destruct (Ho _ Hknown)]. f_equal. destruct Ho as [(r & (Hrc & name & f & Hnf & Hr) & Hle & Ex) Hmax].
  specialize (Hmax _ Hknown). cbn [rp_listing new_ReplayDataSource] in Hnf. apply (listing_In _ _ _ _ (proj1 Hok')) in Hnf as (y & -> & Hg).
  assert (Hdate : SettleStore.sr_as_of_date r = dt_date as_of) by (exact (answer_dated _ _ s r _ _ Hok' (proj1 (Hs s Hin)) Hg Hr Hle _ Ex Hmax)).
  rewrite Ea', dget_dset in Hg. case_decide as Ek; [|by exfalso; eapply (Hnew _ _ _ _ Hg Hr)].
  injection Hg as <-. apply merge_year_rows in Hr as [Hr|(f0 & Ef & Hr)]; [|by exfalso; eapply (Hnew _ _ _ _ Ef Hr)].
  apply in_map_iff in Hr as (x' & <- & Hx'). assert (x' = s) as -> by (apply (Honce _ Hx'); exact Hrc).
  rewrite replay_row in Ex by (by apply Hs). by injection Ex.
Qed.

(** C28: a backtest replays what the live source said.  From an archive this source has written, ask the
    live source for a contract on a day of which the archive has nothing for it yet: when the page has
    the contract once, replaying the archive for any instant of that day after the capture answers the
    very settle the live source returned, with its snapshot instant in UTC; the archive stays one this
    source has written.  (Only the dates are compared, so the code answers it for earlier instants of
    the day as well, which its doc excludes: [OneDay.captured_later].) *)
Theorem live_then_replay (src : CMEEODDataSource C) contract as_of as_of' a a' s :
  archive_ok a → real_date (dt_date as_of) →
  dt_date as_of' = dt_date as_of → dt_ltb (_now_utc src) as_of' = true →
  cme_latest_settle src contract as_of a = (a', Ok (Some s)) →
  (forall settles s', fetch_all_for_root src (str_drop_last 3 contract) as_of a = (a', Ok settles) →
     In s' settles → st_contract s' = contract → s' = s) →
  (forall root year f r, dget (root, year) a = Some f → In r (pl_rows f) →
     ~ (SettleStore.sr_contract r = contract ∧ SettleStore.sr_as_of_date r = dt_date as_of)) →
  latest_settle (replay_of a') contract as_of' = Ok (Some (SettleStore.settle_utc s)) ∧ archive_ok a'.
Proof.
  intros Hok Hday Hday' _ Hlive Honce Hnew. unfold cme_latest_settle in Hlive.
  apply bind_Ok in Hlive as (a1 & [[root code] year] & [<- Ep]%lift_Ok & Hlive).
  apply bind_Ok in Hlive as (a2 & settles & Hf & [= <- Hfind]).
  destruct (symbol_long _ _ _ _ Ep) as [Hlen ->].
  pose proof (fetch_spec _ _ _ _ _ _ Hf) as (path & body & sha & _ & _ & _ & Hpage & ->).
  destruct (page_sound _ _ _ _ _ _ Hpage) as [state Hall].
  assert (Hs : forall x, In x settles → st_as_of_date x = dt_date as_of ∧ Settle_post_init x = Ok x)
    by (intros x Hx; by destruct (Hall x Hx) as (? & ? & _)).
  apply List.find_some in Hfind as [Hin Hc%String.eqb_eq]. cbn in Hc.
  assert (Hok' : archive_ok (_write_archive (str_drop_last 3 contract) settles a)) by (by apply write_page_ok with (day := dt_date as_of)).
  split; [|exact Hok']. apply page_replayed; try rewrite Hday'; try done. intros x Hx Ex. by apply (Honce _ _ Hf Hx).
Qed.
End Composition.

(** ** Witnesses *)
Module OneDay.
#[local] Existing Instances ListFrames.list_frames ListFrames.list_frames_laws Canned.trees Canned.fixed.

Definition fetched : cme_archive := fst (cme_latest_settle (Canned.src "page") "ESU26" Canned.day []).
Definition morning : datetime := mk_datetime 2026 5 22 0 5 0 0 (Some 0).
Definition night : datetime := mk_datetime 2026 5 22 23 45 0 0 (Some 0).
Definition today : date := mk_date 2026 5 22.

Lemma real_today : real_date today.
Proof. exists 2026, 5, 22. split; [lia|]. split; [|reflexivity]. split; [lia|vm_compute; split; intros [=]]. Qed.

Lemma live_then_replay_witness : exists s, cme_latest_settle (Canned.src "page") "ESU26" Canned.day [] = (fetched, Ok (Some s)) ∧
  latest_settle (replay_of fetched) "ESU26" night = Ok (Some (SettleStore.settle_utc s)).
Proof.
  eexists. run_as E.
  refine (proj1 (live_then_replay (Canned.src "page") "ESU26" Canned.day night [] fetched _ _ _ _ _ E _ _)).
  - split; [constructor|]. intros root year f r [=].
  - exact real_today.
  - reflexivity.
  - vm_compute. reflexivity.
  - intros settles s' Hf Hin Hc. vm_compute in Hf. injection Hf as <-.
    destruct Hin as [<-|[<-|[]]]; [discriminate Hc|reflexivity].
  - intros root year f r [=].
Defined.

(** The settle was captured half an hour before midnight; a replay standing five minutes into the same
    day already sees it. *)
Example captured_later : exists s t, latest_settle (replay_of fetched) "ESU26" morning = Ok (Some s)
  ∧ st_as_of_iso s = Some t ∧ dt_ltb morning t = true.
Proof. do 2 eexists. split; [vm_compute; reflexivity|]. split; vm_compute; reflexivity. Qed.

Lemma replay_latest_spec_witness : exists s,
  latest_settle (Replay_source (new_ReplayDataSource true (listing_of fetched) None None)) "ESU26" morning = Ok (Some s)
  ∧ forall s', (exists r, archived (new_ReplayDataSource true (listing_of fetched) None None) "ESU26" r
      ∧ SettleStore.sr_as_of_date r <= today ∧ _row_to_settle r = Ok s') → candidate_leb s' s = true.
Proof.
  destruct (replay_latest_spec (new_ReplayDataSource true (listing_of fetched) None None) "ESU26" morning)
    as (o & Eo & Ho).
  - vm_compute. lia.
  - exact real_today.
  - assert (El : exists l, rp_listing (new_ReplayDataSource true (listing_of fetched) None None) (str_drop_last 3 "ESU26") = l
      ∧ forall name f r, In (name, Some f) l → In r (pl_rows f) → SettleStore.sr_contract r = "ESU26"%string →
          _parse_year_dir name = Some (year_of (SettleStore.sr_as_of_date r)) ∧ real_date (SettleStore.sr_as_of_date r)
          ∧ exists s, _row_to_settle r = Ok s).
    2:{ destruct El as (l & El & Hl). intros name f r Hin. rewrite El in Hin. exact (Hl name f r Hin). }
    eexists. split; [vm_compute; reflexivity|].
    intros name f r Hin Hr Hc. destruct Hin as [[= <- <-]|[]]. cbn in Hr.
    destruct Hr as [<-|[<-|[]]]; [discriminate Hc|]. split; [vm_compute; reflexivity|]. split; [exact real_today|].
    eexists. vm_compute. reflexivity.
  - assert (E2 : exists x, latest_settle (Replay_source (new_ReplayDataSource true (listing_of fetched) None None)) "ESU26" morning
      = Ok (Some x)) by (eexists; vm_compute; reflexivity).
    destruct E2 as [x E2]. exists x. split; [exact E2|]. rewrite E2 in Eo. injection Eo as <-. exact (proj2 Ho).
Defined.

(** A corrupt price raises [InvalidOperation], and a row that breaks the settle's checks raises
    [ValueError]: neither is the source error an unreadable row is said to raise. *)
Example corrupt_price : exists r, _row_to_settle r = Err InvalidOperation ∧ exn_is InvalidOperation DataSourceError = false.
Proof.
  exists {| SettleStore.sr_contract := "ESU26"; SettleStore.sr_as_of_date := today; SettleStore.sr_settle := "n/a";
    SettleStore.sr_settle_state := "final"; SettleStore.sr_open := "1"; SettleStore.sr_high := "1"; SettleStore.sr_low := "1";
    SettleStore.sr_last := "1"; SettleStore.sr_change := "0"; SettleStore.sr_volume_est := 0; SettleStore.sr_oi_prior := 0;
    SettleStore.sr_source_id := "cme"; SettleStore.sr_as_of_iso := None; SettleStore.sr_content_bytes_sha := "";
    SettleStore.sr_cme_month_code := "U" |}.
  split; vm_compute; reflexivity.
Qed.
End OneDay.
