(* ===== verification/Crypto.v ===== *)
(** * data/sources/crypto.py: spot venues behind ccxt

    A venue is the record of its class constants, the exchange a class, the [ccxt] package a class
    under the default one.  The instant [datetime.now(UTC)] reads is an argument.  Rows hold numbers
    of either kind.  Logging and message texts are left out. *)

From S2P Require Import Prelude PyDecimal PyText PyTime PyParse PyFloat Json PyNumber Types Verifier BarContract.

#[local] Open Scope Z_scope.

Definition MILLISECONDS_PER_SECOND : Z := 1000.
Definition _OHLCV_TS_IDX : nat := 0.
Definition _OHLCV_OPEN_IDX : nat := 1.
Definition _OHLCV_HIGH_IDX : nat := 2.
Definition _OHLCV_LOW_IDX : nat := 3.
Definition _OHLCV_CLOSE_IDX : nat := 4.
Definition _OHLCV_VOLUME_IDX : nat := 5.
Definition _OHLCV_EXPECTED_FIELDS : nat := 6.

Definition ohlcv_row : Type := list number.

(** ** The exchange *)
Class CcxtExchange (E : Type) := {
  fetch_ohlcv : E -> string -> string -> option Z -> option Z -> result (list ohlcv_row);
}.

(** The package: an exchange object by its name, when it has one. *)
Class Ccxt := {
  ccxt_object : Type;
  ccxt_getattr : string -> option ccxt_object;
  ccxt_fetch_ohlcv : ccxt_object -> string -> string -> option Z -> option Z -> result (list ohlcv_row);
}.

Record DefaultCcxtExchange `{Ccxt} := { default_exchange : ccxt_object }.

Definition new_DefaultCcxtExchange `{Ccxt} (venue_name : string) : result DefaultCcxtExchange :=
  let! o := of_option (ccxt_getattr venue_name) DataSourceError in
  Ok {| default_exchange := o |}.

#[global] Instance DefaultCcxt_exchange `{Ccxt} : CcxtExchange DefaultCcxtExchange := {
  fetch_ohlcv e symbol timeframe since limit := ccxt_fetch_ohlcv (default_exchange e) symbol timeframe since limit }.

(** ** Venues *)
Record CryptoVenue := {
  VENUE_NAME : string;
  CRYPTO_SOURCE_ID : string;
  SYMBOL_MAP : dict string string;
}.

Definition TIMEFRAME_MAP : dict BarResolution string :=
  [(MIN_1, "1m"); (MIN_5, "5m"); (MIN_15, "15m"); (HOUR_1, "1h"); (DAY_1, "1d")]%string.

Definition usd_pairs : dict string string := [("BTCUSD", "BTC/USD"); ("ETHUSD", "ETH/USD")]%string.

Definition CoinbaseCryptoDataSource : CryptoVenue :=
  {| VENUE_NAME := "coinbase"; CRYPTO_SOURCE_ID := "coinbase_advanced"; SYMBOL_MAP := usd_pairs |}.
Definition KrakenCryptoDataSource : CryptoVenue :=
  {| VENUE_NAME := "kraken"; CRYPTO_SOURCE_ID := "kraken_spot"; SYMBOL_MAP := usd_pairs |}.
Definition BitstampCryptoDataSource : CryptoVenue :=
  {| VENUE_NAME := "bitstamp"; CRYPTO_SOURCE_ID := "bitstamp_spot"; SYMBOL_MAP := usd_pairs |}.
Definition GeminiCryptoDataSource : CryptoVenue :=
  {| VENUE_NAME := "gemini"; CRYPTO_SOURCE_ID := "gemini_spot"; SYMBOL_MAP := usd_pairs |}.
Definition BinanceUSCryptoDataSource : CryptoVenue :=
  {| VENUE_NAME := "binanceus"; CRYPTO_SOURCE_ID := "binanceus_oracle"; SYMBOL_MAP := usd_pairs |}.

Record CcxtCryptoDataSource (E : Type) := { _venue : CryptoVenue; _exchange : E }.
Arguments _venue {E} _.
Arguments _exchange {E} _.

Definition check_venue (v : CryptoVenue) : result unit :=
  guard! String.eqb (VENUE_NAME v) "" else ContractNotConfigured in
  guard! String.eqb (CRYPTO_SOURCE_ID v) "" else ContractNotConfigured in
  guard! (length (SYMBOL_MAP v) =? 0)%nat else ContractNotConfigured in
  Ok tt.

Definition new_CcxtCryptoDataSource {E} (v : CryptoVenue) (exchange : E) : result (CcxtCryptoDataSource E) :=
  let! _ := check_venue v in
  Ok {| _venue := v; _exchange := exchange |}.

(** No exchange given: the default one, by the venue's name. *)
Definition default_CcxtCryptoDataSource `{Ccxt} (v : CryptoVenue) : result (CcxtCryptoDataSource DefaultCcxtExchange) :=
  let! _ := check_venue v in
  let! e := new_DefaultCcxtExchange (VENUE_NAME v) in
  Ok {| _venue := v; _exchange := e |}.

(** ** Rows *)
Definition _resolve_ccxt_symbol (v : CryptoVenue) (contract : ContractSymbol) : result string :=
  of_option (dget contract (SYMBOL_MAP v)) ContractNotConfigured.

Definition _resolve_ccxt_timeframe (resolution : BarResolution) : result string :=
  of_option (dget resolution TIMEFRAME_MAP) ValueError.

(** [int(timestamp * 1000)] *)
Definition _compute_since_ms (ts_start : datetime) : Z :=
  f_trunc (fmul (timestamp (astimezone_utc ts_start)) (f_of_Z MILLISECONDS_PER_SECOND)).

(** [row[i]] *)
Definition row_field (row : ohlcv_row) (i : nat) : result number := of_option (nth_error row i) IndexError.

Definition row_ts (row : ohlcv_row) : result datetime :=
  let! ts_ms := row_field row _OHLCV_TS_IDX in
  let! seconds := number_div ts_ms MILLISECONDS_PER_SECOND in
  fromtimestamp seconds.

Definition _row_in_window (row : ohlcv_row) (ts_start ts_end : datetime) : result bool :=
  let! bar_ts := row_ts row in
  Ok (dt_leb ts_start bar_ts && dt_ltb bar_ts ts_end).

Definition row_decimal (row : ohlcv_row) (i : nat) : result decimal :=
  let! v := row_field row i in decimal_of_number v.

Definition ohlcv_payload (v : CryptoVenue) (contract : ContractSymbol) (resolution : BarResolution)
    (ts_ms : number) (o h l c vol : decimal) : string :=
  json_dumps sorted_style (JObj [
    ("contract", JStr contract); ("resolution", JStr (BarResolution_value resolution));
    ("ts_ms", json_of_number ts_ms); ("open", JStr (str_decimal o)); ("high", JStr (str_decimal h));
    ("low", JStr (str_decimal l)); ("close", JStr (str_decimal c)); ("volume_decimal", JStr (str_decimal vol));
    ("venue", JStr (VENUE_NAME v)) ])%string.

Definition _ohlcv_row_to_raw_bar (v : CryptoVenue) (row : ohlcv_row) (contract : ContractSymbol)
    (resolution : BarResolution) (as_of_iso : datetime) : result RawBar :=
  guard! (length row <? _OHLCV_EXPECTED_FIELDS)%nat else DataSourceError in
  let! ts_ms := row_field row _OHLCV_TS_IDX in
  let! bar_ts := row_ts row in
  let! open_d := row_decimal row _OHLCV_OPEN_IDX in
  let! high_d := row_decimal row _OHLCV_HIGH_IDX in
  let! low_d := row_decimal row _OHLCV_LOW_IDX in
  let! close_d := row_decimal row _OHLCV_CLOSE_IDX in
  let! volume_d := row_decimal row _OHLCV_VOLUME_IDX in
  RawBar_post_init {|
    rb_contract := contract; rb_ts := bar_ts; rb_resolution := resolution;
    rb_open := open_d; rb_high := high_d; rb_low := low_d; rb_close := close_d;
    rb_volume := dtrunc volume_d; rb_oi := None; rb_source_id := CRYPTO_SOURCE_ID v;
    rb_as_of_iso := as_of_iso;
    rb_content_bytes_sha := sha256_hex (ohlcv_payload v contract resolution ts_ms open_d high_d low_d close_d volume_d) |}.

(** The comprehension: each row is tested, then converted, before the next one is looked at. *)
Fixpoint rows_to_bars (v : CryptoVenue) (contract : ContractSymbol) (ts_start ts_end : datetime)
    (resolution : BarResolution) (as_of_iso : datetime) (rows : list ohlcv_row) : result (list RawBar) :=
  match rows with
  | [] => Ok []
  | row :: rest =>
      let! keep := _row_in_window row ts_start ts_end in
      if keep : bool
      then let! b := _ohlcv_row_to_raw_bar v row contract resolution as_of_iso in
           let! bs := rows_to_bars v contract ts_start ts_end resolution as_of_iso rest in
           Ok (b :: bs)
      else rows_to_bars v contract ts_start ts_end resolution as_of_iso rest
  end.

Section Source.
Context {E : Type} `{CcxtExchange E}.

Definition crypto_get_bars (src : CcxtCryptoDataSource E) (now : datetime) (contract : ContractSymbol)
    (ts_start ts_end : datetime) (resolution : BarResolution) : result (list RawBar) :=
  guard! dt_naive ts_start else ValueError in
  guard! dt_naive ts_end else ValueError in
  guard! dt_leb ts_end ts_start else ValueError in
  let! ccxt_symbol := _resolve_ccxt_symbol (_venue src) contract in
  let! timeframe := _resolve_ccxt_timeframe resolution in
  let since_ms := _compute_since_ms ts_start in
  let! ohlcv_rows :=
    match fetch_ohlcv (_exchange src) ccxt_symbol timeframe (Some since_ms) None with
    | Ok rows => Ok rows
    | Err e => Err (if exn_is e DataSourceError then e else DataSourceError)
    end in
  rows_to_bars (_venue src) contract ts_start ts_end resolution now ohlcv_rows.

Definition crypto_source (src : CcxtCryptoDataSource E) (now : datetime) : DataSource :=
  DataSource_defaults (CRYPTO_SOURCE_ID (_venue src)) T2_EXCHANGE (crypto_get_bars src now).
End Source.

(** ** Facts *)

(** A row that belongs to the window. *)
Definition row_kept (ts_start ts_end : datetime) (row : ohlcv_row) : bool :=
  match _row_in_window row ts_start ts_end with Ok keep => keep | Err _ => false end.

(** The instant of a row, for rows that have one. *)
Definition row_instant (row : ohlcv_row) : Z := match row_ts row with Ok t => dt_instant t | Err _ => 0 end.

(** What a bar takes from its row; the volume when it is a whole number. *)
Definition row_gives (v : CryptoVenue) (row : ohlcv_row) (b : RawBar) : Prop :=
  exists ts o h l c vol rest, row = ts :: o :: h :: l :: c :: vol :: rest ∧
    row_ts row = Ok (rb_ts b) ∧ dt_off (rb_ts b) = Some 0 ∧
    decimal_of_number o = Ok (rb_open b) ∧ decimal_of_number h = Ok (rb_high b) ∧
    decimal_of_number l = Ok (rb_low b) ∧ decimal_of_number c = Ok (rb_close b) ∧
    (exists d, decimal_of_number vol = Ok d ∧ forall n, deq d (dec_of_Z n) → rb_volume b = n) ∧
    rb_source_id b = CRYPTO_SOURCE_ID v ∧ rb_oi b = None.

Lemma row_ts_utc row t : row_ts row = Ok t → dt_off t = Some 0.
Proof. unfold row_ts. intros E. inv_ok. by eapply fromtimestamp_utc. Qed.

Lemma row_bar_Ok v row contract resolution now b :
  _ohlcv_row_to_raw_bar v row contract resolution now = Ok b → RawBar_wf b ∧ row_gives v row b.
Proof.
  unfold _ohlcv_row_to_raw_bar, row_decimal. intros E.
  apply rbind_Ok in E as (? & Hlen%reject_Ok & E). unfold _OHLCV_EXPECTED_FIELDS in Hlen. apply Nat.ltb_ge in Hlen.
  destruct row as [|ts [|o [|h [|l [|c [|vol rest]]]]]]; cbn [length] in Hlen; try lia.
  apply rbind_Ok in E as (ts' & _ & E). apply rbind_Ok in E as (t & Ht & E).
  cbn [row_field nth_error of_option rbind] in E.
  apply rbind_Ok in E as (od & Ho & E). apply rbind_Ok in E as (hd & Hh & E). apply rbind_Ok in E as (ld & Hl & E).
  apply rbind_Ok in E as (cd & Hc & E). apply rbind_Ok in E as (vd & Hv & E).
  apply RawBar_post_init_Ok in E as [-> Hwf]. split; [done|].
  exists ts, o, h, l, c, vol, rest. repeat split; try done; [by eapply row_ts_utc|].
  exists vd. split; [done|]. intros n Hn. apply dtrunc_whole. etrans; [exact Hn|apply dval_Z].
Qed.

Lemma rows_to_bars_Ok v contract s e resolution now rows bars :
  rows_to_bars v contract s e resolution now rows = Ok bars →
  Forall2 (fun row b => _ohlcv_row_to_raw_bar v row contract resolution now = Ok b) (List.filter (row_kept s e) rows) bars
  ∧ Forall (fun row => is_ok (row_ts row) = true) rows.
Proof.
  revert bars. induction rows as [|row rest IH]; intros bars E; cbn [rows_to_bars] in E.
  { injection E as <-. split; constructor. }
  apply rbind_Ok in E as (keep & Hk & E). cbn [List.filter].
  assert (Hts : is_ok (row_ts row) = true) by (unfold _row_in_window in Hk; by destruct (row_ts row)).
  unfold row_kept at 1. rewrite Hk. destruct keep.
  - apply rbind_Ok in E as (b & Hb & E). apply rbind_Ok in E as (bs & Hbs & [= <-]).
    destruct (IH _ Hbs) as [F Hall]. split; by constructor.
  - destruct (IH _ E) as [F Hall]. split; [done|by constructor].
Qed.

Lemma row_kept_window s e row b : row_kept s e row = true → row_ts row = Ok (rb_ts b) → in_window s e b.
Proof. unfold row_kept, _row_in_window. intros Hk Ht. rewrite Ht in Hk. by apply in_window_iff. Qed.

Lemma rows_served v contract s e resolution now rows bars :
  Forall2 (fun row b => _ohlcv_row_to_raw_bar v row contract resolution now = Ok b) (List.filter (row_kept s e) rows) bars →
  Forall2 (fun row b => RawBar_wf b ∧ row_gives v row b ∧ in_window s e b ∧ row_instant row = bar_instant b)
    (List.filter (row_kept s e) rows) bars.
Proof.
  assert (Hk : Forall (fun row => row_kept s e row = true) (List.filter (row_kept s e) rows))
    by (apply List.Forall_forall; by intros row [_ Hrow]%filter_In).
  intros F. induction F as [|row b rows' bars' Hb F IH]; [constructor|].
  inversion Hk as [|? ? Hk1 Hk2]; subst. constructor; [|by apply IH].
  destruct (row_bar_Ok _ _ _ _ _ _ Hb) as [Hwf Hg]. pose proof Hg as (? & ? & ? & ? & ? & ? & ? & _ & Ht & _).
  split_and!; [done..|by eapply row_kept_window|by unfold row_instant, bar_instant; rewrite Ht].
Qed.

Section SourceFacts.
Context {E : Type} `{CcxtExchange E}.

(** Rows as the exchange library documents them, in increasing time, stamped with a whole number of
    milliseconds before the year 2106. *)
Definition stamped (rows : list ohlcv_row) : Prop :=
  exists stamps, Forall2 (fun row n => head row = Some (NInt n) ∧ 0 <= n < 2 ^ 32 * 1000) rows stamps ∧
    StronglySorted Z.lt stamps.

Definition stamp (row : ohlcv_row) : Z := match row with NInt n :: _ => EPOCH + n * 1000 | _ => 0 end.

(** The number goes through binary seconds and comes back exactly. *)
Lemma row_ts_exact n rest : 0 <= n < 2 ^ 32 * 1000 → row_ts (NInt n :: rest) = Ok (DT (EPOCH + n * 1000) (Some 0)).
Proof.
  intros Hn. destruct (fromtimestamp_exact n 1000 (n * 1000)) as [Hf Ht]; [lia..|].
  unfold row_ts. cbn [row_field nth_error of_option rbind _OHLCV_TS_IDX number_div]. unfold MILLISECONDS_PER_SECOND.
  rewrite Hf. cbn [negb reject rbind]. exact Ht.
Qed.

Lemma stamped_rows s e rows : stamped rows →
  Forall (fun row => row_ts row = Ok (DT (stamp row) (Some 0))) rows ∧ StronglySorted Z.lt (map row_instant rows) ∧
  List.filter (row_kept s e) rows
    = List.filter (fun row => (dt_instant s <=? stamp row) && (stamp row <? dt_instant e)) rows.
Proof.
  intros (stamps & F & Hs).
  assert (Hts : Forall2 (fun row n => row_ts row = Ok (DT (stamp row) (Some 0)) ∧ stamp row = EPOCH + n * 1000) rows stamps).
  { eapply Forall2_impl; [|exact F]. intros [|x rest] n [Hh Hn]; cbn in Hh; [done|]. injection Hh as ->.
    split; [by apply row_ts_exact|done]. }
  clear F. split; [clear Hs; induction Hts as [|? ? ? ? [Ht _] _ IH]; by constructor|].
  assert (Ei : forall k, dt_instant (DT k (Some 0)) = k) by (intros k; unfold dt_instant; cbn; lia). split.
  - revert Hs. induction Hts as [|row n rows stamps [Ht En] Hts IH]; intros Hs; [constructor|]. cbn.
    apply StronglySorted_inv in Hs as [Hs Hall]. constructor; [by apply IH|]. clear IH Hs.
    unfold row_instant at 1. rewrite Ht, Ei, En.
    induction Hts as [|row' n' rows stamps [Ht' En'] Hts IH]; constructor; inversion Hall; subst; [|by apply IH].
    unfold row_instant. rewrite Ht', Ei, En'. lia.
  - clear Hs. induction Hts as [|row n rows stamps [Ht En] Hts IH]; [done|]. cbn [List.filter].
    unfold row_kept at 1, _row_in_window. rewrite Ht. cbn [rbind]. unfold dt_leb, dt_ltb. rewrite Ei, IH. done.
Qed.

(** C30: what a spot venue serves.  A query that answers was for an aware start before its end, a contract
    and a resolution of the tables, and sent the venue one request.  When the venue answers as its
    library documents, rows in increasing time stamped with whole milliseconds before 2106, there is
    exactly one bar per row stamped in the half-open window, in their order, and they keep the contract
    of the source interface; each bar carries its row's instant in UTC, exactly the decimals its prices
    print as, and its volume when that is a whole number.  (The code drops the fraction of a volume and
    serves rows in the order they came, against its comment and the interface's contract:
    [CannedExchange.fractional_volume_dropped], [CannedExchange.unsorted_rows].) *)
Theorem crypto_bars_faithful src now contract s e resolution bars :
  crypto_get_bars src now contract s e resolution = Ok bars →
  dt_naive s = false ∧ dt_instant s < dt_instant e ∧
  exists symbol timeframe rows,
    dget contract (SYMBOL_MAP (_venue src)) = Some symbol ∧ dget resolution TIMEFRAME_MAP = Some timeframe ∧
    fetch_ohlcv (_exchange src) symbol timeframe (Some (_compute_since_ms s)) None = Ok rows ∧
    (stamped rows → bars_contract s e bars ∧
     Forall2 (fun row b => row_gives (_venue src) row b ∧ rb_ts b = DT (stamp row) (Some 0))
       (List.filter (fun row => (dt_instant s <=? stamp row) && (stamp row <? dt_instant e)) rows) bars).
Proof.
  unfold crypto_get_bars. intros Eb.
  apply rbind_Ok in Eb as (? & Hs%reject_Ok & Eb). apply rbind_Ok in Eb as (? & He%reject_Ok & Eb).
  apply rbind_Ok in Eb as (? & Hlt%reject_Ok & Eb). apply rbind_Ok in Eb as (symbol & Hsym & Eb).
  apply rbind_Ok in Eb as (timeframe & Htf & Eb). apply rbind_Ok in Eb as (rows & Hrows & Eb).
  split; [done|]. split; [by apply Z.leb_gt in Hlt|].
  exists symbol, timeframe, rows.
  split; [by apply of_option_Ok in Hsym|].
  split; [by apply of_option_Ok in Htf|].
  split; [destruct (fetch_ohlcv _ _ _ _ _); [by injection Hrows as ->|done]|].
  intros (Hts & Hinc & Hkept)%(stamped_rows s e).
  apply rows_to_bars_Ok in Eb as [F _].
  pose proof (rows_served _ _ _ _ _ _ _ _ F) as Hall. split.
  - constructor; [clear -Hall; induction Hall; constructor; naive_solver| |clear -Hall; induction Hall; constructor; naive_solver].
    apply (increasing_filter _ (row_kept s e)) in Hinc.
    assert (Eq : map row_instant (List.filter (row_kept s e) rows) = map bar_instant bars); [|by rewrite <- Eq].
    clear -Hall. induction Hall as [|? ? ? ? Hx]; [done|]. cbn. f_equal; [naive_solver|done].
  - rewrite <- Hkept. clear F. assert (Hts' : Forall (fun row => row_ts row = Ok (DT (stamp row) (Some 0)))
      (List.filter (row_kept s e) rows)).
    { apply List.Forall_forall. intros row [Hrow _]%filter_In. rewrite List.Forall_forall in Hts. auto. }
    clear -Hall Hts'. generalize dependent (List.filter (row_kept s e) rows). intros kept Hall Hts'.
    induction Hall as [|row b kept bars (_ & Hg & _) Hall IH]; [constructor|].
    inversion Hts' as [|? ? Ht Hts2]; subst. constructor; [|by apply IH]. split; [done|].
    destruct Hg as (? & ? & ? & ? & ? & ? & ? & _ & Hb & _). rewrite Ht in Hb. by injection Hb as <-.
Qed.
End SourceFacts.

(** ** Errors *)
Definition crypto_error (e : exn) : Prop :=
  exn_is e DataSourceError = true ∨ In e [ValueError; IndexError; OverflowError; InvalidOperation].

Ltac crypto_failure := first [right; cbn; tauto | left; reflexivity].

Lemma decimal_of_number_fails n : fails_only crypto_error (decimal_of_number n).
Proof. apply of_option_fails. crypto_failure. Qed.

Lemma row_field_fails row i : fails_only crypto_error (row_field row i).
Proof. apply of_option_fails. crypto_failure. Qed.

Lemma row_ts_fails row : fails_only crypto_error (row_ts row).
Proof.
  unfold row_ts. apply fails_bind; [apply row_field_fails|]. intros ts _. apply fails_bind.
  - destruct ts; cbn; [|done]. apply fails_bind; [apply reject_fails; crypto_failure|done].
  - intros x _. unfold fromtimestamp. repeat (apply fails_bind; [apply reject_fails; crypto_failure|intros _ _]). done.
Qed.

Lemma post_init_fails b : fails_only crypto_error (RawBar_post_init b).
Proof.
  unfold RawBar_post_init, _assert_tz_aware.
  repeat (apply fails_bind; [apply reject_fails; crypto_failure|intros _ _]). done.
Qed.

Lemma row_bar_fails v row contract resolution now :
  fails_only crypto_error (_ohlcv_row_to_raw_bar v row contract resolution now).
Proof.
  assert (Hd : forall i, fails_only crypto_error (row_decimal row i)).
  { intros i. apply fails_bind; [apply row_field_fails|]. intros n _. apply decimal_of_number_fails. }
  unfold _ohlcv_row_to_raw_bar. apply fails_bind; [apply reject_fails; crypto_failure|]. intros _ _.
  apply fails_bind; [apply row_field_fails|intros ts _]. apply fails_bind; [apply row_ts_fails|intros t _].
  do 5 (apply fails_bind; [apply Hd|intros ? ?]). apply post_init_fails.
Qed.

Lemma rows_to_bars_fails v contract s e resolution now rows :
  fails_only crypto_error (rows_to_bars v contract s e resolution now rows).
Proof.
  induction rows as [|row rest IH]; [done|]. cbn [rows_to_bars]. apply fails_bind.
  - apply fails_bind; [apply row_ts_fails|done].
  - intros [|] _; [|done]. apply fails_bind; [apply row_bar_fails|]. intros b _. by apply fails_bind.
Qed.

(** whatever exception the exchange raises, a query fails with an error of the data layer or
    with one of the four the parsing of rows raises. *)
Theorem crypto_errors {E} `{CcxtExchange E} (src : CcxtCryptoDataSource E) now contract s e resolution :
  fails_only crypto_error (crypto_get_bars src now contract s e resolution).
Proof.
  unfold crypto_get_bars. do 3 (apply fails_bind; [apply reject_fails; crypto_failure|intros _ _]).
  apply fails_bind; [apply of_option_fails; crypto_failure|]. intros symbol _.
  apply fails_bind; [apply of_option_fails; crypto_failure|]. intros timeframe _.
  apply fails_bind; [|intros rows _; apply rows_to_bars_fails].
  destruct (fetch_ohlcv _ _ _ _ _) as [rows|err]; [done|]. cbn.
  destruct (exn_is err DataSourceError) eqn:He; [by left|crypto_failure].
Qed.

(** ** Witnesses: a canned exchange *)
Module CannedExchange.
#[local] Instance canned : CcxtExchange (result (list ohlcv_row)) := { fetch_ohlcv rows _ _ _ _ := rows }.

Definition day (h m : Z) : datetime := mk_datetime 2026 1 15 h m 0 0 (Some 0).
Definition ms (h m : Z) : number := NInt ((dt_instant (day h m) - EPOCH) / 1000).
Definition row (h m : Z) (vol : number) : ohlcv_row :=
  [ms h m; NFloat (f_of_ratio 900001 10); NInt 90010; NInt 90000; NFloat (f_of_ratio 900057 10); vol].
Definition src (rows : result (list ohlcv_row)) : CcxtCryptoDataSource (result (list ohlcv_row)) :=
  {| _venue := KrakenCryptoDataSource; _exchange := rows |}.
Definition now : datetime := day 17 0.
Definition served (rows : result (list ohlcv_row)) : result (list RawBar) :=
  crypto_get_bars (src rows) now "BTCUSD" (day 15 0) (day 16 0) MIN_5.

Definition three_rows : list ohlcv_row := [row 14 55 (NInt 3); row 15 0 (NInt 3); row 15 5 (NInt 2)].

Lemma crypto_bars_faithful_witness : exists bars,
  crypto_get_bars (src (Ok three_rows)) now "BTCUSD" (day 15 0) (day 16 0) MIN_5 = Ok bars ∧
  map rb_close bars = [Dec 900057 (-1); Dec 900057 (-1)] ∧ bars_contract (day 15 0) (day 16 0) bars.
Proof.
  eexists. run_as E. split; [reflexivity|].
  destruct (crypto_bars_faithful (src (Ok three_rows)) now "BTCUSD" (day 15 0) (day 16 0) MIN_5 _ E) as (_ & _ & symbol & timeframe & rows & _ & _ & [= <-] & Hc).
  apply Hc. exists [1768488900000; 1768489200000; 1768489500000]. split.
  - repeat (constructor; [split; [vm_compute; reflexivity|lia]|]). constructor.
  - repeat (constructor; [|repeat (constructor; [lia|]); constructor]). constructor.
Defined.

(** A volume below one unit of the base asset reads as zero. *)
Lemma fractional_volume_dropped : exists b,
  served (Ok [row 15 0 (NFloat (f_of_ratio 3 4))]) = Ok [b] ∧ rb_volume b = 0.
Proof. eexists. split; [vm_compute; reflexivity|reflexivity]. Qed.

(** A short row inside the window is refused as malformed, an empty one with [IndexError]; a short
    one outside the window goes unnoticed. *)
Lemma malformed_rows :
  served (Ok [[ms 15 0]]) = Err DataSourceError ∧ served (Ok [[]]) = Err IndexError ∧ served (Ok [[ms 14 0]]) = Ok [].
Proof. vm_compute. done. Qed.

(** Rows are served in the order they came. *)
Lemma unsorted_rows : exists a b,
  served (Ok [row 15 5 (NInt 1); row 15 0 (NInt 1)]) = Ok [a; b] ∧ bar_instant b < bar_instant a.
Proof. eexists _, _. split; [vm_compute; reflexivity|vm_compute; reflexivity]. Qed.
End CannedExchange.

(** ** Time stamps *)

(** rounding of seconds loses no row and moves none.  Up to the year 2106, a row stamped with a whole
    number of milliseconds is dated that instant exactly although the number goes through binary
    seconds; and the start of the window, which goes through them too and is cut to a millisecond,
    never asks the venue for rows later than the first one of the window, nor two milliseconds too
    early. *)
Theorem crypto_no_row_missed start n rest :
  0 <= dt_instant start - EPOCH < 2 ^ 32 * 1000000 → 0 <= n < 2 ^ 32 * 1000 →
  exists t, row_ts (NInt n :: rest) = Ok t ∧ dt_off t = Some 0 ∧ dt_instant t = EPOCH + n * 1000 ∧
    (dt_leb start t = true → _compute_since_ms start <= n) ∧
    dt_instant start - 2000 < EPOCH + _compute_since_ms start * 1000.
Proof.
  intros Hs Hn. exists (DT (EPOCH + n * 1000) (Some 0)).
  assert (Ei : dt_instant (DT (EPOCH + n * 1000) (Some 0)) = EPOCH + n * 1000) by (unfold dt_instant; cbn; lia).
  assert (Hms : dt_instant start - EPOCH - 2000 < _compute_since_ms start * 1000 <= dt_instant start - EPOCH).
  { unfold _compute_since_ms, timestamp. rewrite astimezone_instant. by apply ms_of_timestamp. }
  split_and!; [|done|done| |lia].
  - by apply row_ts_exact.
  - unfold dt_leb. rewrite Z.leb_le, Ei. lia.
Qed.

Lemma crypto_no_row_missed_witness : exists t, row_ts [NInt 1079937285143] = Ok t ∧
  dt_instant t = EPOCH + 1079937285143000 ∧ _compute_since_ms t = 1079937285142.
Proof.
  destruct (crypto_no_row_missed (DT (EPOCH + 1079937285143000) (Some 0)) 1079937285143 []) as (t & Ht & Ho & Ei & _);
    [unfold dt_instant; cbn; lia|lia|].
  exists t. split; [exact Ht|]. split; [rewrite Ei; reflexivity|].
  assert (E : t = DT (EPOCH + 1079937285143000) (Some 0)).
  { destruct t as [l o]. cbn [dt_off] in Ho. subst o. unfold dt_instant in Ei. cbn [dt_local dt_off] in Ei. f_equal. lia. }
  rewrite E. vm_compute. reflexivity.
Defined.
