(* ===== verification/Databento.v ===== *)
(** * data/sources/databento_hist.py: daily bars of the exchange's history

    The client is a class, the [databento] package a class under the default one, with price columns
    of decimals as the call asks for.  The instant the source's clock reads is a field. *)

From S2P Require Import Prelude PyDecimal PyText PyTime PyParse PyNumber Types Verifier BarContract.

#[local] Open Scope Z_scope.

Definition _DATASET : string := "GLBX.MDP3".
Definition _OHLCV_1D_SCHEMA : string := "ohlcv-1d".
Definition _STYPE_CONTINUOUS : string := "continuous".
Definition _ROOT_SUFFIX_LEN : nat := 3.

Definition _CONTINUOUS_SYMBOLS : dict string string :=
  [("ES", "ES.c.0"); ("NQ", "NQ.c.0"); ("CL", "CL.c.0"); ("GC", "GC.c.0")]%string.

Record DatabentoBar := {
  db_ts : datetime;
  db_open : decimal;
  db_high : decimal;
  db_low : decimal;
  db_close : decimal;
  db_volume : Z;
}.

Class DatabentoClient (C : Type) := {
  fetch_ohlcv_1d : C -> string -> string -> string -> datetime -> datetime -> result (list DatabentoBar);
}.

(** The package: [Historical(key).timeseries.get_range(...).to_df(...)], the rows with their index. *)
Class DatabentoSDK := {
  timeseries_get_range : option string -> string -> list string -> string -> string -> string -> string ->
    result (list DatabentoBar);
}.

Record DefaultDatabentoClient := { _api_key : option string }.

Definition sdk_row_to_bar (row : DatabentoBar) : result DatabentoBar :=
  let! open := decimal_of_str (str_decimal (db_open row)) in
  let! high := decimal_of_str (str_decimal (db_high row)) in
  let! low := decimal_of_str (str_decimal (db_low row)) in
  let! close := decimal_of_str (str_decimal (db_close row)) in
  Ok {| db_ts := db_ts row; db_open := open; db_high := high; db_low := low; db_close := close;
        db_volume := db_volume row |}.

#[global] Instance DefaultDatabento_client `{DatabentoSDK} : DatabentoClient DefaultDatabentoClient := {
  fetch_ohlcv_1d c dataset symbol stype_in start end_ :=
    let key := match _api_key c with Some k => if String.eqb k "" then None else Some k | None => None end in
    let! rows := timeseries_get_range key dataset [symbol] _OHLCV_1D_SCHEMA stype_in (dt_iso start) (dt_iso end_) in
    rmap sdk_row_to_bar rows }.

Definition DATABENTO_SOURCE_ID : string := "databento_glbx_mdp3".

Record DatabentoHistoricalDataSource (C : Type) := {
  db_client : C;
  db_now : datetime;
  db_symbols : dict string string;
}.
Arguments db_client {C} _.
Arguments db_now {C} _.
Arguments db_symbols {C} _.

Definition new_Databento {C} (client : C) (now : datetime) (symbols : option (dict string string))
    : DatabentoHistoricalDataSource C := {|
  db_client := client; db_now := now;
  db_symbols := match symbols with Some s => s | None => _CONTINUOUS_SYMBOLS end |}.

Definition from_api_key (api_key : option string) (now : datetime) : DatabentoHistoricalDataSource DefaultDatabentoClient :=
  new_Databento {| _api_key := api_key |} now None.

Section Source.
Context {C : Type} `{DatabentoClient C}.

Definition _resolve_symbol (src : DatabentoHistoricalDataSource C) (contract : ContractSymbol) : result string :=
  let root := if dmem contract (db_symbols src) then contract else str_drop_last _ROOT_SUFFIX_LEN contract in
  of_option (dget root (db_symbols src)) ContractNotConfigured.

Definition record_payload (symbol : string) (rec : DatabentoBar) : string :=
  str_join "|" [symbol; dt_iso (db_ts rec); str_decimal (db_open rec); str_decimal (db_high rec);
                str_decimal (db_low rec); str_decimal (db_close rec); str_int (db_volume rec)].

Definition record_bar (contract : ContractSymbol) (symbol : string) (now : datetime) (rec : DatabentoBar) : RawBar := {|
  rb_contract := contract; rb_ts := db_ts rec; rb_resolution := DAY_1;
  rb_open := db_open rec; rb_high := db_high rec; rb_low := db_low rec; rb_close := db_close rec;
  rb_volume := db_volume rec; rb_oi := None; rb_source_id := DATABENTO_SOURCE_ID; rb_as_of_iso := now;
  rb_content_bytes_sha := content_sha256 (record_payload symbol rec) |}.

(** The loop over the records, [bars] accumulating. *)
Definition add_record (contract : ContractSymbol) (symbol : string) (now ts_start ts_end : datetime)
    (bars : list RawBar) (rec : DatabentoBar) : result (list RawBar) :=
  let! _ := dt_compatible (db_ts rec) now in
  guard! dt_ltb now (db_ts rec) else FutureDatedSourceError in
  let! _ := dt_compatible ts_start (db_ts rec) in
  if negb (dt_leb ts_start (db_ts rec) && dt_ltb (db_ts rec) ts_end) then Ok bars
  else let! b := RawBar_post_init (record_bar contract symbol now rec) in Ok (bars ++ [b]).

Definition bar_ts_leb (a b : RawBar) : bool := dt_leb (rb_ts a) (rb_ts b).

Definition databento_get_bars (src : DatabentoHistoricalDataSource C) (contract : ContractSymbol)
    (ts_start ts_end : datetime) (resolution : BarResolution) : result (list RawBar) :=
  guard! negb (bool_decide (resolution = DAY_1)) else BarsNotSupported in
  let! _ := _assert_tz_aware ts_start in
  let! _ := _assert_tz_aware ts_end in
  let! symbol := _resolve_symbol src contract in
  let now := db_now src in
  let! records := fetch_ohlcv_1d (db_client src) _DATASET symbol _STYPE_CONTINUOUS ts_start ts_end in
  let! bars := rfold (add_record contract symbol now ts_start ts_end) records [] in
  Ok (sort_by bar_ts_leb bars).

Definition Databento_source (src : DatabentoHistoricalDataSource C) : DataSource :=
  DataSource_defaults DATABENTO_SOURCE_ID T1_EXCHANGE_HISTORICAL (databento_get_bars src).
End Source.

(** ** Facts *)
Lemma bar_ts_leb_total a b : bar_ts_leb a b = true ∨ bar_ts_leb b a = true.
Proof. unfold bar_ts_leb, dt_leb. rewrite !Z.leb_le. lia. Qed.

Lemma bar_ts_leb_trans a b c : bar_ts_leb a b = true → bar_ts_leb b c = true → bar_ts_leb a c = true.
Proof. unfold bar_ts_leb, dt_leb. rewrite !Z.leb_le. lia. Qed.

Definition record_kept (ts_start ts_end : datetime) (rec : DatabentoBar) : bool :=
  dt_leb ts_start (db_ts rec) && dt_ltb (db_ts rec) ts_end.

(** The records that become bars, when the loop returns. *)
Lemma records_Ok contract symbol now s e records bars bars' :
  rfold (add_record contract symbol now s e) records bars = Ok bars' →
  bars' = bars ++ map (record_bar contract symbol now) (List.filter (record_kept s e) records)
  ∧ Forall (fun rec => dt_instant (db_ts rec) <= dt_instant now) records
  ∧ Forall (fun rec => RawBar_wf (record_bar contract symbol now rec)) (List.filter (record_kept s e) records).
Proof.
  revert bars. induction records as [|rec records IH]; intros bars E; cbn [rfold] in E.
  { injection E as <-. rewrite app_nil_r. done. }
  apply rbind_Ok in E as (acc & Hacc & E). unfold add_record in Hacc.
  apply rbind_Ok in Hacc as (? & _ & Hacc). apply rbind_Ok in Hacc as (? & Hnow%reject_Ok & Hacc).
  apply rbind_Ok in Hacc as (? & _ & Hacc). apply Z.ltb_ge in Hnow.
  fold (record_kept s e rec) in Hacc. cbn [List.filter]. destruct (record_kept s e rec); cbn [negb] in Hacc.
  - apply rbind_Ok in Hacc as (b & [-> Hwf]%RawBar_post_init_Ok & [= <-]).
    destruct (IH _ E) as (-> & F1 & F2). rewrite <- app_assoc. split; [done|]. split; by constructor.
  - injection Hacc as <-. destruct (IH _ E) as (-> & F1 & F2). split; [done|]. split; [by constructor|done].
Qed.

Section SourceFacts.
Context {C : Type} `{DatabentoClient C}.

(** what the vendor source serves.  A query that answers is for daily bars; the bars are the
    client's records inside the half-open window, one each, sorted by time; no record of the answer
    is later than the clock; and when no two records share an instant the answer keeps the contract
    of the source interface. *)
Theorem databento_bars_faithful src contract s e resolution bars :
  databento_get_bars src contract s e resolution = Ok bars →
  resolution = DAY_1 ∧ dt_naive s = false ∧ dt_naive e = false ∧
  exists symbol records,
    _resolve_symbol src contract = Ok symbol ∧
    fetch_ohlcv_1d (db_client src) _DATASET symbol _STYPE_CONTINUOUS s e = Ok records ∧
    Permutation bars (map (record_bar contract symbol (db_now src)) (List.filter (record_kept s e) records)) ∧
    StronglySorted (fun a b => bar_instant a <= bar_instant b) bars ∧
    Forall (fun rec => dt_instant (db_ts rec) <= dt_instant (db_now src)) records ∧
    Forall (in_window s e) bars ∧
    (List.NoDup (map (fun rec => dt_instant (db_ts rec)) records) → bars_contract s e bars).
Proof.
  unfold databento_get_bars, _assert_tz_aware. intros E.
  apply rbind_Ok in E as (? & Hres%reject_Ok & E). apply negb_false_iff, bool_decide_eq_true in Hres.
  apply rbind_Ok in E as (? & Hs%reject_Ok & E). apply rbind_Ok in E as (? & He%reject_Ok & E).
  apply rbind_Ok in E as (symbol & Hsym & E). apply rbind_Ok in E as (records & Hrec & E).
  apply rbind_Ok in E as (served & Hserved & [= <-]). apply records_Ok in Hserved as (Eserved & Hnow & Hwf).
  cbn [app] in Eserved. subst served. set (kept := List.filter (record_kept s e) records) in *.
  set (mk := record_bar contract symbol (db_now src)) in *.
  split_and!; [done..|]. exists symbol, records. split; [done|]. split; [done|].
  assert (Hp : Permutation (sort_by bar_ts_leb (map mk kept)) (map mk kept)) by (symmetry; apply sort_by_perm).
  assert (Hsort : StronglySorted (fun a b => bar_instant a <= bar_instant b) (sort_by bar_ts_leb (map mk kept))).
  { eapply StronglySorted_weaken; [|apply sort_by_sorted; [apply bar_ts_leb_total|apply bar_ts_leb_trans]].
    intros a b. by rewrite <- Z.leb_le. }
  assert (Hw : Forall (in_window s e) (sort_by bar_ts_leb (map mk kept))).
  { rewrite Hp. apply List.Forall_forall. intros b (rec & <- & [_ Hk]%filter_In)%in_map_iff.
    by apply in_window_iff. }
  split_and!; [done..|]. intros Hnd. constructor; [done| |].
  - apply sorted_distinct; [done|]. rewrite (Permutation_map bar_instant Hp), map_map.
    by apply NoDup_map_filter.
  - rewrite Hp. by apply List.Forall_map.
Qed.
End SourceFacts.

(** ** Witnesses: a canned client *)
Module CannedClient.
#[local] Instance canned : DatabentoClient (list DatabentoBar) := { fetch_ohlcv_1d records _ _ _ _ _ := Ok records }.

Definition day (d : Z) : datetime := mk_datetime 2026 1 d 0 0 0 0 (Some 0).
Definition rec (d price : Z) : DatabentoBar := {|
  db_ts := day d; db_open := dec_of_Z price; db_high := dec_of_Z (price + 2); db_low := dec_of_Z (price - 2);
  db_close := dec_of_Z (price + 1); db_volume := 10 |}.
Definition src (records : list DatabentoBar) : DatabentoHistoricalDataSource (list DatabentoBar) :=
  new_Databento records (day 20) None.
Definition week : list DatabentoBar := [rec 7 102; rec 5 100; rec 6 101; rec 12 105].

Lemma databento_bars_faithful_witness : exists bars,
  databento_get_bars (src week) "CLG26" (day 5) (day 10) DAY_1 = Ok bars ∧
  map rb_open bars = map dec_of_Z [100; 101; 102] ∧ bars_contract (day 5) (day 10) bars.
Proof.
  eexists. run_as E. split; [reflexivity|].
  destruct (databento_bars_faithful (src week) "CLG26" (day 5) (day 10) DAY_1 _ E)
    as (_ & _ & _ & symbol & records & _ & [= <-] & _ & _ & _ & _ & Hc).
  apply Hc. vm_compute. repeat constructor; cbn; lia.
Defined.

(** Two records of one instant are both served, so the instants do not strictly increase; a future
    record refuses the whole answer even when it lies outside the window. *)
Lemma repeated_records : exists a b,
  databento_get_bars (src [rec 5 100; rec 5 101]) "CLG26" (day 5) (day 10) DAY_1 = Ok [a; b] ∧ rb_ts a = rb_ts b.
Proof. eexists _, _. split; [vm_compute; reflexivity|reflexivity]. Qed.

Lemma future_record_refuses :
  databento_get_bars (src [rec 5 100; rec 21 101]) "CLG26" (day 5) (day 10) DAY_1 = Err FutureDatedSourceError.
Proof. vm_compute. reflexivity. Qed.
End CannedClient.
