(* ===== verification/Ibkr.v ===== *)
(** * data/sources/ibkr_historical.py: bars and settles of the broker's gateway

    The client is a class over its own state, as is the [ib_async] package under the default client;
    the clocks are classes over an environment.  A source runs on the rate-limit queue of [Backoff],
    the client and the environment together.  The zone of Chicago is a class.  Waiting for a slot takes
    fuel, and a run that is still waiting answers [None].  Logging and message texts are left out. *)

From S2P Require Import Prelude PyDecimal PyText PyTime PyParse PyFloat Json PyNumber Types Store Storage BarContract Backoff.

#[local] Open Scope Z_scope.

Definition IBKR_MIN_SYMBOL_LENGTH : nat := 4.
Definition SECONDS_PER_DAY : Z := 86400.
Definition SECONDS_PER_HOUR : Z := 3600.
Definition DEFAULT_HOST : string := "127.0.0.1".
Definition DEFAULT_PORT_PAPER : Z := 4002.
Definition DEFAULT_PORT_LIVE : Z := 4001.
Definition DEFAULT_CLIENT_ID : Z := 1.
Definition Y2K_CENTURY_PIVOT_YEAR : Z := 50.
Definition PRELIMINARY_PUBLISH_LAG_HOURS_WEEKDAY : Z := 18.
Definition PRELIMINARY_PUBLISH_LAG_HOURS_FRIDAY : Z := 42.
Definition FRIDAY_WEEKDAY_INDEX : Z := 4.
Definition IBKR_SOURCE_ID : string := "ibkr_tws_historical".

Definition EXCHANGE_BY_ROOT : dict string string :=
  [("ES", "CME"); ("MES", "CME"); ("NQ", "CME"); ("MNQ", "CME"); ("CL", "NYMEX"); ("MCL", "NYMEX");
   ("GC", "COMEX"); ("MGC", "COMEX"); ("MBT", "CME"); ("MET", "CME"); ("ZB", "CBOT")]%string.

Definition MONTH_CODE_TO_NUMBER : dict string Z :=
  [("F", 1); ("G", 2); ("H", 3); ("J", 4); ("K", 5); ("M", 6); ("N", 7); ("Q", 8); ("U", 9); ("V", 10);
   ("X", 11); ("Z", 12)]%string.

Definition BAR_SIZE_MAP : dict BarResolution string :=
  [(SEC_1, "1 secs"); (SEC_5, "5 secs"); (MIN_1, "1 min"); (MIN_5, "5 mins"); (MIN_15, "15 mins");
   (HOUR_1, "1 hour"); (DAY_1, "1 day")]%string.

(** The offset of Chicago from UTC, in seconds, at an instant. *)
Class ChicagoTime := { ct_utc_offset : Z -> Z }.
Definition ct_date `{ChicagoTime} (t : datetime) : date :=
  (dt_instant t + ct_utc_offset (dt_instant t) * 1000000) / us_per_day.

(** ** The client *)

(** [BarData.date]: whatever the library's version puts there. *)
Inductive bar_date :=
| BarDatetime (t : datetime)
| BarDay (d : date)
| BarEpoch (n : number)
| BarText (s : string)
| BarOther.

Record BarData := {
  ib_date : bar_date;
  ib_open : number;
  ib_high : number;
  ib_low : number;
  ib_close : number;
  ib_volume : option number;
}.

Class IBClient (I : Type) := {
  ib_contract : Type;
  ib_connect : string -> Z -> Z -> M I unit;
  ib_disconnect : M I unit;
  ib_is_connected : M I bool;
  build_future_contract : string -> string -> string -> result ib_contract;
  req_historical_data : ib_contract -> string -> string -> string -> string -> Z -> M I (list BarData);
}.

Class ClockProtocol (T : Type) := { now_utc : M T datetime }.

(** [try: m except Exception as e: raise f(e)] and [except Exception: return a]. *)
Definition reraise {S A} (f : exn -> exn) (m : M S A) : M S A :=
  fun s => let '(s', r) := m s in (s', match r with Ok a => Ok a | Err e => Err (f e) end).
Definition rescue {S A} (a : A) (m : M S A) : M S A :=
  fun s => let '(s', r) := m s in (s', match r with Ok b => Ok b | Err _ => Ok a end).

(** The package [ib_async]: an [IB] object and its calls. *)
Class IbAsync (O : Type) := {
  ib_future : Type;
  new_IB : O;
  async_Future : string -> string -> string -> result ib_future;
  async_connect : string -> Z -> Z -> M O unit;
  async_disconnect : M O unit;
  async_isConnected : M O bool;
  async_reqHistoricalData : ib_future -> string -> string -> string -> string -> Z -> Z -> M O (list BarData);
}.

(** [_DefaultIBClient]: no [IB] object until the first [connect]. *)
Definition DefaultIBClient (O : Type) : Type := option O.

Definition on_IB {O A} (m : M O A) (o : O) : M (DefaultIBClient O) A :=
  fun _ => let '(o', r) := m o in (Some o', r).

Section DefaultClient.
Context {O : Type} `{IbAsync O}.

Definition default_connect (host : string) (port client_id : Z) : M (DefaultIBClient O) unit :=
  c <- get ;;
  reraise (fun _ => IBKRConnectionError)
    (on_IB (async_connect host port client_id) match c with Some o => o | None => new_IB end).

Definition default_disconnect : M (DefaultIBClient O) unit :=
  c <- get ;;
  match c with Some o => rescue tt (on_IB async_disconnect o) | None => ret tt end.

Definition default_is_connected : M (DefaultIBClient O) bool :=
  c <- get ;;
  match c with Some o => rescue false (on_IB async_isConnected o) | None => ret false end.

Definition default_req_historical_data (contract : ib_future) (end_datetime duration bar_size what_to_show : string)
    (use_rth : Z) : M (DefaultIBClient O) (list BarData) :=
  c <- get ;;
  match c with
  | None => raise IBKRConnectionError
  | Some o => on_IB (async_reqHistoricalData contract end_datetime duration bar_size what_to_show use_rth 2) o
  end.

#[global] Instance Default_client : IBClient (DefaultIBClient O) := {
  ib_contract := ib_future;
  ib_connect := default_connect;
  ib_disconnect := default_disconnect;
  ib_is_connected := default_is_connected;
  build_future_contract := async_Future;
  req_historical_data := default_req_historical_data;
}.
End DefaultClient.

(** ** Translation of contracts, resolutions and windows *)
Definition _parse_contract_symbol (contract : ContractSymbol) : result (string * string * Z) :=
  guard! (String.length contract <? IBKR_MIN_SYMBOL_LENGTH)%nat else ContractNotConfigured in
  let year_str := str_take_last 2 contract in
  guard! negb (str_isdigit year_str) else ContractNotConfigured in
  let! year_2dig := int_of_str year_str in
  let month_code := String.substring (String.length contract - 3) 1 contract in
  guard! negb (dmem month_code MONTH_CODE_TO_NUMBER) else ContractNotConfigured in
  let root := str_drop_last 3 contract in
  guard! negb (dmem root EXCHANGE_BY_ROOT) else ContractNotConfigured in
  Ok (root, month_code, year_2dig).

(** The arguments [_build_ib_contract] hands the client: root, month as YYYYMM, exchange. *)
Definition future_terms (contract : ContractSymbol) : result (string * string * string) :=
  let! '(root, month_code, year_2dig) := _parse_contract_symbol contract in
  let! month_num := of_option (dget month_code MONTH_CODE_TO_NUMBER) KeyError in
  let century := if year_2dig <? Y2K_CENTURY_PIVOT_YEAR then 2000 else 1900 in
  let year_full := century + year_2dig in
  let! exchange := of_option (dget root EXCHANGE_BY_ROOT) KeyError in
  Ok (root, String.append (str_pad 4 year_full) (str_pad 2 month_num), exchange).

Definition _build_ib_contract {I} `{IBClient I} (contract : ContractSymbol) : result ib_contract :=
  let! '(symbol, last_trade_date, exchange) := future_terms contract in
  build_future_contract symbol last_trade_date exchange.

Definition _contract_key (contract : ContractSymbol) (what_to_show : string) : result string :=
  let! '(root, _, _) := _parse_contract_symbol contract in
  let! exchange := of_option (dget root EXCHANGE_BY_ROOT) KeyError in
  Ok (str_join "@" [contract; exchange; what_to_show]).

Definition _map_bar_size (resolution : BarResolution) : result string :=
  of_option (dget resolution BAR_SIZE_MAP) BarsNotSupported.

(** [int(delta.total_seconds())] *)
Definition delta_seconds (ts_start ts_end : datetime) : Z :=
  f_trunc (f_of_ratio (dt_instant ts_end - dt_instant ts_start) 1000000).

Definition _compute_duration_str (ts_start ts_end : datetime) : string :=
  let s := delta_seconds ts_start ts_end in
  if s <? SECONDS_PER_DAY then String.append (str_int s) " S"
  else String.append (str_int ((s + SECONDS_PER_DAY - 1) / SECONDS_PER_DAY)) " D".

(** [strftime("%Y%m%d %H:%M:%S UTC")] *)
Definition strftime_utc (t : datetime) : string :=
  let '(y, m, d) := ord2ymd (dt_date t) in
  let s := dt_time t / 1000000 in
  str_concat [str_pad 4 y; str_pad 2 m; str_pad 2 d; " "%string; str_pad 2 (s / 3600); ":"%string;
              str_pad 2 (s / 60 mod 60); ":"%string; str_pad 2 (s mod 60); " UTC"%string].

Definition _format_end_datetime (ts_end : datetime) : result string :=
  guard! dt_naive ts_end else ValueError in
  Ok (strftime_utc (astimezone_utc ts_end)).

(** ** Bars *)
Definition noon_utc (d : date) : datetime := DT (d * us_per_day + 12 * 3600 * 1000000) (Some 0).

Definition _coerce_ts_to_utc (raw_ts : bar_date) : result datetime :=
  match raw_ts with
  | BarDatetime t => guard! dt_naive t else IBKRReqError in Ok (astimezone_utc t)
  | BarDay d => Ok (noon_utc d)
  | BarEpoch n => let! x := float_of_number n in fromtimestamp x
  | BarText s =>
      let! parsed := datetime_fromisoformat s in
      guard! dt_naive parsed else IBKRReqError in Ok (astimezone_utc parsed)
  | BarOther => Err IBKRReqError
  end.

(** [int(bar.volume) if bar.volume is not None else 0] *)
Definition bar_volume (b : BarData) : result Z :=
  match ib_volume b with Some v => int_of_number v | None => Ok 0 end.

Definition ib_bar_payload (contract : ContractSymbol) (resolution : BarResolution) (ts : datetime)
    (o h l c : decimal) (volume : Z) : string :=
  json_dumps sorted_style (JObj [
    ("open", JStr (str_decimal o)); ("high", JStr (str_decimal h)); ("low", JStr (str_decimal l));
    ("close", JStr (str_decimal c)); ("volume", JInt volume); ("ts", JStr (dt_iso ts));
    ("contract", JStr contract); ("resolution", JStr (BarResolution_value resolution)) ])%string.

Definition _ib_bar_to_raw (contract : ContractSymbol) (resolution : BarResolution) (as_of_iso : datetime)
    (ib_bar : BarData) : result RawBar :=
  let! ts := _coerce_ts_to_utc (ib_date ib_bar) in
  let! open_d := decimal_of_number (ib_open ib_bar) in
  let! high_d := decimal_of_number (ib_high ib_bar) in
  let! low_d := decimal_of_number (ib_low ib_bar) in
  let! close_d := decimal_of_number (ib_close ib_bar) in
  let! volume := bar_volume ib_bar in
  RawBar_post_init {|
    rb_contract := contract; rb_ts := ts; rb_resolution := resolution;
    rb_open := open_d; rb_high := high_d; rb_low := low_d; rb_close := close_d; rb_volume := volume; rb_oi := None;
    rb_source_id := IBKR_SOURCE_ID; rb_as_of_iso := as_of_iso;
    rb_content_bytes_sha := sha256_hex (ib_bar_payload contract resolution ts open_d high_d low_d close_d volume) |}.

(** ** Settles *)
Section Settles.
Context `{ChicagoTime}.

Definition elapsed_hours (bar_ts_utc as_of_utc : datetime) : float :=
  fdiv (f_of_ratio (dt_instant as_of_utc - dt_instant bar_ts_utc) 1000000) (f_of_Z SECONDS_PER_HOUR).

Definition lag_hours (bar_ts_utc : datetime) : Z :=
  if weekday (ct_date bar_ts_utc) =? FRIDAY_WEEKDAY_INDEX then PRELIMINARY_PUBLISH_LAG_HOURS_FRIDAY
  else PRELIMINARY_PUBLISH_LAG_HOURS_WEEKDAY.

Definition _compute_settle_state (bar_ts_utc as_of_utc : datetime) : SettleState :=
  if fltb (elapsed_hours bar_ts_utc as_of_utc) (f_of_Z (lag_hours bar_ts_utc)) then preliminary else final.

Definition settle_payload (contract : ContractSymbol) (as_of_date : date) (state : SettleState)
    (settle o h l last change : decimal) (volume : Z) (bar_ts_utc : datetime) : string :=
  json_dumps sorted_style (JObj [
    ("contract", JStr contract); ("as_of_date", JStr (date_iso as_of_date)); ("settle", JStr (str_decimal settle));
    ("settle_state", JStr (SettleStore.SettleState_str state)); ("open", JStr (str_decimal o)); ("high", JStr (str_decimal h));
    ("low", JStr (str_decimal l)); ("last", JStr (str_decimal last)); ("change", JStr (str_decimal change));
    ("volume_est", JInt volume); ("bar_ts_utc", JStr (dt_iso bar_ts_utc)) ])%string.

(** The fields read from the bars, before the clock is read. *)
Definition settle_fields (ib_bar : BarData) (prior_bar : option BarData) (contract : ContractSymbol)
    (as_of_utc : datetime) : result (datetime -> Settle) :=
  let! bar_ts_utc := _coerce_ts_to_utc (ib_date ib_bar) in
  let! settle_d := decimal_of_number (ib_close ib_bar) in
  let! open_d := decimal_of_number (ib_open ib_bar) in
  let! high_d := decimal_of_number (ib_high ib_bar) in
  let! low_d := decimal_of_number (ib_low ib_bar) in
  let last_d := settle_d in
  let! change_d :=
    match prior_bar with
    | Some p => let! prior_close_d := decimal_of_number (ib_close p) in Ok (dsub settle_d prior_close_d)
    | None => Ok d0
    end in
  let! volume_est := bar_volume ib_bar in
  let settle_state := _compute_settle_state bar_ts_utc as_of_utc in
  let as_of_date_val := ct_date bar_ts_utc in
  let! '(_, month_code, _) := _parse_contract_symbol contract in
  Ok (fun now => {|
    st_contract := contract; st_as_of_date := as_of_date_val; st_settle := settle_d; st_settle_state := settle_state;
    st_open := open_d; st_high := high_d; st_low := low_d; st_last := last_d; st_change := change_d;
    st_volume_est := volume_est; st_oi_prior := 0; st_source_id := IBKR_SOURCE_ID; st_as_of_iso := Some now;
    st_content_bytes_sha :=
      sha256_hex (settle_payload contract as_of_date_val settle_state settle_d open_d high_d low_d last_d change_d
                    volume_est bar_ts_utc);
    st_cme_month_code := month_code |}).
End Settles.

(** ** The source *)
Record IBKRHistoricalDataSource := {
  _host : string;
  _port : Z;
  _client_id : Z;
  _use_rth : bool;
}.

Definition default_IBKR : IBKRHistoricalDataSource :=
  {| _host := DEFAULT_HOST; _port := DEFAULT_PORT_PAPER; _client_id := DEFAULT_CLIENT_ID; _use_rth := false |}.

Section Source.
Context {I T : Type} `{IBClient I} `{Clock T} `{ClockProtocol T} `{ChicagoTime}.

(** The client and the environment of the clocks; the queue waits on the latter. *)
Definition World : Type := I * T.

Definition on_world {A} (m : M T A) : M World A := fun w => let '(t, r) := m (snd w) in ((fst w, t), r).

#[global] Instance World_clock : Clock World := {
  monotonic := on_world monotonic;
  sleep_fn seconds := on_world (sleep_fn seconds);
}.

Definition IBState : Type := QState (E := World).

Definition on_client {A} (m : M I A) : M IBState A :=
  fun s => let '(i, r) := m (fst (snd s)) in ((fst s, (i, snd (snd s))), r).
Definition now : M IBState datetime := on_env (on_world now_utc).

Definition _ensure_connected (src : IBKRHistoricalDataSource) : M IBState unit :=
  connected <- on_client ib_is_connected ;;
  if connected : bool then ret tt
  else reraise (fun e => if exn_is e IBKRConnectionError then e else IBKRConnectionError)
         (on_client (ib_connect (_host src) (_port src) (_client_id src))).

(** The request inside the [with] block. *)
Definition request (src : IBKRHistoricalDataSource) (contract : ib_contract) (end_datetime duration bar_size : string)
    : M IBState (list BarData) :=
  reraise (fun e => if exn_is e IBKRConnectionError then e else IBKRReqError)
    (on_client (req_historical_data contract end_datetime duration bar_size "TRADES" (if _use_rth src then 1 else 0))).

Definition ibkr_get_bars (fuel : nat) (src : IBKRHistoricalDataSource) (contract : ContractSymbol)
    (ts_start ts_end : datetime) (resolution : BarResolution) : M IBState (option (list RawBar)) :=
  lift (dt_compatible ts_end ts_start) ;;
  lift (reject (dt_leb ts_end ts_start) ValueError) ;;
  bar_size <- lift (_map_bar_size resolution) ;;
  ib <- lift (_build_ib_contract contract) ;;
  let duration := _compute_duration_str ts_start ts_end in
  end_datetime <- lift (_format_end_datetime ts_end) ;;
  _ensure_connected src ;;
  contract_key <- lift (_contract_key contract "TRADES") ;;
  as_of_iso <- now ;;
  ib_bars <- with_acquire fuel contract_key (request src ib end_datetime duration bar_size) ;;
  match ib_bars with
  | None => ret None
  | Some ib_bars => bars <- lift (rmap (_ib_bar_to_raw contract resolution as_of_iso) ib_bars) ;; ret (Some bars)
  end.

(** [sorted(ib_bars, key=...)]: every key is computed first. *)
Definition keyed_bar (b : BarData) : result (datetime * BarData) :=
  let! ts := _coerce_ts_to_utc (ib_date b) in Ok (ts, b).
Definition keyed_leb (a b : datetime * BarData) : bool := dt_leb (fst a) (fst b).
Definition sorted_bars (ib_bars : list BarData) : result (list BarData) :=
  let! keyed := rmap keyed_bar ib_bars in Ok (map snd (sort_by keyed_leb keyed)).

(** [bars[-1]], and [bars[-2]] when there is one. *)
Definition latest_and_prior (bars : list BarData) : option (BarData * option BarData) :=
  match rev bars with
  | [] => None
  | [latest] => Some (latest, None)
  | latest :: prior :: _ => Some (latest, Some prior)
  end.

Definition _ib_bar_to_settle (ib_bar : BarData) (prior_bar : option BarData) (contract : ContractSymbol)
    (as_of_utc : datetime) : M IBState Settle :=
  mk <- lift (settle_fields ib_bar prior_bar contract as_of_utc) ;;
  t <- now ;;
  lift (Settle_post_init (mk t)).

(** [Some None]: the gateway has no bars. *)
Definition ibkr_latest_settle (fuel : nat) (src : IBKRHistoricalDataSource) (contract : ContractSymbol)
    (as_of : datetime) : M IBState (option (option Settle)) :=
  lift (reject (dt_naive as_of) ValueError) ;;
  let as_of_utc := astimezone_utc as_of in
  ib <- lift (_build_ib_contract contract) ;;
  end_dt_str <- lift (_format_end_datetime as_of_utc) ;;
  _ensure_connected src ;;
  contract_key <- lift (_contract_key contract "TRADES") ;;
  ib_bars <- with_acquire fuel contract_key (request src ib end_dt_str "2 D" "1 day") ;;
  match ib_bars with
  | None => ret None
  | Some [] => ret (Some None)
  | Some ib_bars =>
      sorted <- lift (sorted_bars ib_bars) ;;
      match latest_and_prior sorted with
      | None => raise IndexError (* out of reach: the list is not empty *)
      | Some (latest, prior) =>
          s <- _ib_bar_to_settle latest prior contract as_of_utc ;; ret (Some (Some s))
      end
  end.

Definition ibkr_healthcheck : M IBState bool := rescue false (on_client ib_is_connected).
Definition ibkr_disconnect : M IBState unit := on_client ib_disconnect.
Definition ibkr_get_ticks (contract : ContractSymbol) (ts_start ts_end : datetime) : M IBState (list RawTick) :=
  raise TicksNotSupported.
End Source.

(** The span asked for covers the window, up to a part of a second, and is less than a day too long. *)
Lemma duration_covers ts_start ts_end :
  let us := dt_instant ts_end - dt_instant ts_start in 0 < us < 2 ^ 32 * 1000000 →
  exists n, (_compute_duration_str ts_start ts_end = String.append (str_int n) " S" ∧ n = us / 1000000 ∧ n < SECONDS_PER_DAY) ∨
    (_compute_duration_str ts_start ts_end = String.append (str_int n) " D" ∧
     us / 1000000 <= n * SECONDS_PER_DAY < us / 1000000 + SECONDS_PER_DAY).
Proof.
  intros us Hus. unfold _compute_duration_str, delta_seconds. fold us. rewrite whole_seconds by lia.
  destruct (Z.ltb_spec (us / 1000000) SECONDS_PER_DAY).
  - exists (us / 1000000). by left.
  - exists ((us / 1000000 + SECONDS_PER_DAY - 1) / SECONDS_PER_DAY). right. split; [done|].
    unfold SECONDS_PER_DAY. generalize (us / 1000000). intros x. Z.to_euclidean_division_equations. lia.
Qed.

(** ** Facts: sorting by time *)
Definition dated (b : BarData) (t : datetime) : Prop := _coerce_ts_to_utc (ib_date b) = Ok t.
Definition no_later (a b : BarData) : Prop :=
  exists ta tb, dated a ta ∧ dated b tb ∧ dt_instant ta <= dt_instant tb.

Lemma keyed_leb_total a b : keyed_leb a b = true ∨ keyed_leb b a = true.
Proof. unfold keyed_leb, dt_leb. rewrite !Z.leb_le. lia. Qed.

Lemma keyed_leb_trans a b c : keyed_leb a b = true → keyed_leb b c = true → keyed_leb a c = true.
Proof. unfold keyed_leb, dt_leb. rewrite !Z.leb_le. lia. Qed.

Lemma sorted_bars_Ok bars l : sorted_bars bars = Ok l → Permutation bars l ∧ StronglySorted no_later l.
Proof.
  unfold sorted_bars. intros (keyed & Hk & [= <-])%rbind_Ok.
  assert (Hd : map snd keyed = bars ∧ Forall (fun k => dated (snd k) (fst k)) keyed).
  { apply rmap_Ok in Hk. induction Hk as [|b k bars keyed Hb Hk IH]; [done|].
    unfold keyed_bar in Hb. apply rbind_Ok in Hb as (t & Ht & [= <-]). destruct IH as [<- F]. by split; [|constructor]. }
  destruct Hd as [<- F]. split; [by rewrite <- sort_by_perm|].
  rewrite (sort_by_perm keyed_leb keyed) in F.
  pose proof (sort_by_sorted keyed_leb keyed_leb_total keyed_leb_trans keyed) as Hs.
  induction Hs as [|k ks Hs IH Hx]; [constructor|]. cbn. inversion F as [|? ? Fk Fks]; subst.
  constructor; [by apply IH|]. apply List.Forall_forall. intros b (k' & <- & Hin)%in_map_iff.
  rewrite List.Forall_forall in Hx, Fks. exists (fst k), (fst k'). split_and!; [done|by apply Fks|].
  specialize (Hx k' Hin). by apply Z.leb_le in Hx.
Qed.

Lemma latest_and_prior_spec l latest prior : latest_and_prior l = Some (latest, prior) →
  match prior with
  | None => l = [latest]
  | Some p => exists older, l = older ++ [p; latest]
  end.
Proof.
  unfold latest_and_prior. destruct (rev l) as [|x [|y older]] eqn:Er; [done| |]; intros [= <- <-];
    apply (f_equal (@rev _)) in Er; rewrite rev_involutive in Er; subst l; [done|].
  exists (rev older). cbn. by rewrite <- app_assoc.
Qed.

(** What [with_acquire] returns was computed by its body. *)
Lemma with_acquire_body {E A} `{Clock E} fuel key (body : M (QState (E := E)) A) s s' a :
  with_acquire fuel key body s = (s', Ok (Some a)) →
  exists s1 s2, enter fuel key s = (s1, Ok true) ∧ body s1 = (s2, Ok a).
Proof.
  unfold with_acquire. intros (s1 & [|] & He & Hr)%bind_Ok; [|done].
  apply bind_Ok in Hr as (s2 & a' & Hf & [= _ ->]). exists s1. unfold try_finally in Hf.
  destruct (body s1) as [s3 r]. destruct (_release s3) as [s4 [[]|e]]; [|done]. injection Hf as _ ->. eauto.
Qed.

(** ** Facts: what a settle is made of *)
Section SourceFacts.
Context {I T : Type} `{IBClient I} `{Clock T} `{ClockProtocol T} `{ChicagoTime}.

Lemma reraise_Ok {S A} f (m : M S A) s s' a : reraise f m s = (s', Ok a) → m s = (s', Ok a).
Proof. unfold reraise. destruct (m s) as [s1 [b|e]]; congruence. Qed.

Lemma on_client_Ok {A} (m : M I A) (s s' : IBState (I := I) (T := T)) a :
  on_client m s = (s', Ok a) → exists i', m (fst (snd s)) = (i', Ok a).
Proof. unfold on_client. destruct (m (fst (snd s))) as [i' r]. intros [= _ ->]. eauto. Qed.

(** The fields of a settle, from the bar and the one before it. *)
Definition settle_of (contract : ContractSymbol) (as_of : datetime) (latest : BarData) (prior : option BarData)
    (st : Settle) : Prop :=
  exists ts, dated latest ts ∧
    decimal_of_number (ib_close latest) = Ok (st_settle st) ∧ st_last st = st_settle st ∧
    decimal_of_number (ib_open latest) = Ok (st_open st) ∧ decimal_of_number (ib_high latest) = Ok (st_high st) ∧
    decimal_of_number (ib_low latest) = Ok (st_low st) ∧ bar_volume latest = Ok (st_volume_est st) ∧
    match prior with
    | None => st_change st = d0
    | Some p => exists c, decimal_of_number (ib_close p) = Ok c ∧ st_change st = dsub (st_settle st) c
    end ∧
    st_as_of_date st = ct_date ts ∧ st_settle_state st = _compute_settle_state ts (astimezone_utc as_of) ∧
    st_contract st = contract ∧
    exists root year, _parse_contract_symbol contract = Ok (root, st_cme_month_code st, year).

Lemma settle_fields_Ok latest prior contract as_of mk t st :
  settle_fields latest prior contract (astimezone_utc as_of) = Ok mk → Settle_post_init (mk t) = Ok st →
  settle_of contract as_of latest prior st.
Proof.
  unfold settle_fields. intros Em Est.
  apply rbind_Ok in Em as (ts & Hts & Em). apply rbind_Ok in Em as (c & Hc & Em). apply rbind_Ok in Em as (o & Ho & Em).
  apply rbind_Ok in Em as (h & Hh & Em). apply rbind_Ok in Em as (l & Hl & Em). apply rbind_Ok in Em as (ch & Hch & Em).
  apply rbind_Ok in Em as (v & Hv & Em). apply rbind_Ok in Em as ([[root code] year] & Hp & [= <-]).
  apply Settle_post_init_id in Est as ->.
  exists ts. cbn. repeat split; try done; [|eauto].
  destruct prior as [p|]; [|by injection Hch as <-]. apply rbind_Ok in Hch as (pc & Hpc & [= <-]). eauto.
Qed.

(** The queue and its clocks leave the client alone. *)
Definition same_client (s s' : IBState (I := I) (T := T)) : Prop := fst (snd s') = fst (snd s).
#[local] Instance same_client_preorder : PreOrder same_client.
Proof. split; [by intros s|]. intros a b c H12 H23. unfold same_client in *. congruence. Qed.

Lemma env_client {A} (m : M T A) : steps same_client (on_env (on_world m)).
Proof. intros s. unfold on_env, on_world, same_client. by destruct (m (snd (snd s))). Qed.

Lemma update_client f : steps same_client (update f).
Proof. by intros s. Qed.

#[local] Ltac client_steps :=
  repeat first
  [ apply env_client | apply update_client | apply (steps_ret same_client) | apply (steps_lift same_client)
  | apply (steps_get same_client) | apply (steps_raise same_client)
  | apply (steps_bind same_client); [|intros ?]
  | match goal with |- steps _ (if ?b then _ else _) => destruct b end ].

Lemma enter_client fuel key : steps same_client (enter fuel key : M (IBState (I := I) (T := T)) bool).
Proof.
  assert (Hit : forall d, steps same_client (wait_iteration (E := World (I := I) (T := T)) key d)).
  { intros d. unfold wait_iteration, _prune_global, _prune_per_contract, _compute_required_sleep, window_check.
    cbv zeta. cbn [monotonic sleep_fn World_clock]. client_steps. }
  assert (Hloop : forall d n, steps same_client (wait_loop (E := World (I := I) (T := T)) n key d)).
  { intros d n. induction n as [|n IH]; cbn [wait_loop]; [client_steps|].
    apply (steps_bind same_client); [apply Hit|]. intros [|]; [client_steps|apply IH]. }
  unfold enter, _record_acquire. cbn [monotonic World_clock].
  apply (steps_bind same_client); [client_steps|]. intros _.
  apply (steps_bind same_client); [|intros [|]; client_steps]. unfold _wait_for_slot. cbn [monotonic World_clock].
  apply (steps_bind same_client); [client_steps|]. intros n.
  apply (steps_bind same_client); [client_steps|]. intros st. apply Hloop.
Qed.

(** The code's choice: the last of the bars in order of time, and the one before it. *)
Lemma latest_settle_bars fuel src contract as_of (s s' : IBState (I := I) (T := T)) st :
  ibkr_latest_settle fuel src contract as_of s = (s', Ok (Some (Some st))) →
  dt_naive as_of = false ∧
  exists ib sc i' bars ordered latest prior,
    _build_ib_contract contract = Ok ib ∧ _ensure_connected src s = (sc, Ok tt) ∧
    req_historical_data ib (strftime_utc (astimezone_utc as_of)) "2 D" "1 day" "TRADES"
      (if _use_rth src then 1 else 0) (fst (snd sc)) = (i', Ok bars) ∧
    Permutation bars ordered ∧ StronglySorted no_later ordered ∧
    match prior with
    | None => ordered = [latest]
    | Some p => exists older, ordered = older ++ [p; latest]
    end ∧
    settle_of contract as_of latest prior st.
Proof.
  unfold ibkr_latest_settle. intros E.
  apply bind_Ok in E as (? & ? & [<- Hn%reject_Ok]%lift_Ok & E). split; [done|].
  apply bind_Ok in E as (? & ib & [<- Hib]%lift_Ok & E). apply bind_Ok in E as (? & ed & [<- Hed]%lift_Ok & E).
  apply rbind_Ok in Hed as (? & _ & [= <-]).
  apply bind_Ok in E as (s1 & [] & Hconn & E). apply bind_Ok in E as (? & key & [<- _]%lift_Ok & E).
  apply bind_Ok in E as (s2 & [bars|] & Hreq & E); [|done].
  apply with_acquire_body in Hreq as (s3 & s4 & Hent & (i' & Hreq)%reraise_Ok%on_client_Ok).
  pose proof (enter_client fuel key s1) as Hc. rewrite Hent in Hc. unfold same_client in Hc. cbn [fst] in Hc.
  rewrite Hc in Hreq.
  assert (astimezone_utc (astimezone_utc as_of) = astimezone_utc as_of) as Hu
    by (unfold astimezone_utc; f_equal; apply astimezone_instant).
  rewrite Hu in Hreq.
  assert (Hb : exists ordered latest prior mk t, sorted_bars bars = Ok ordered ∧
    latest_and_prior ordered = Some (latest, prior) ∧
    settle_fields latest prior contract (astimezone_utc as_of) = Ok mk ∧ Settle_post_init (mk t) = Ok st).
  { destruct bars as [|b bars]; [done|]. apply bind_Ok in E as (? & ordered & [<- Hs]%lift_Ok & E).
    destruct (latest_and_prior ordered) as [[latest prior]|] eqn:Hl; [|done].
    apply bind_Ok in E as (s5 & st' & Hst & [= <- <-]). unfold _ib_bar_to_settle in Hst.
    apply bind_Ok in Hst as (? & mk & [<- Hmk]%lift_Ok & Hst). apply bind_Ok in Hst as (? & t & _ & [<- Hst]%lift_Ok).
    by exists ordered, latest, prior, mk, t. }
  destruct Hb as (ordered & latest & prior & mk & t & Hs & Hl & Hmk & Hst).
  apply sorted_bars_Ok in Hs as [Hp Hs]. exists ib, s1, i', bars, ordered, latest, prior.
  split_and!; [done..|by apply latest_and_prior_spec|by eapply settle_fields_Ok].
Qed.

(** Of the bars in order of time, the last one is no earlier than any, the one before than the rest. *)
Lemma last_two_latest ordered latest prior : StronglySorted no_later ordered →
  match prior with
  | None => ordered = [latest]
  | Some p => exists older, ordered = older ++ [p; latest]
  end →
  match prior with
  | None => ordered = [latest]
  | Some p => exists older, Permutation ordered (latest :: p :: older) ∧ no_later p latest ∧
                forall b, In b older → no_later b p ∧ no_later b latest
  end.
Proof.
  intros Hs. destruct prior as [p|]; [|done]. intros (older & ->). exists older.
  split; [rewrite Permutation_app_comm; apply perm_swap|].
  induction older as [|x older IH]; apply StronglySorted_inv in Hs as [Hs Hall]; rewrite List.Forall_forall in Hall.
  { split; [apply Hall; by left|done]. }
  destruct (IH Hs) as [Hp Hb]. split; [done|]. intros b [<-|Hin]; [|by apply Hb].
  split; apply Hall, in_app_iff; right; [by left|right; by left].
Qed.

(** C32: what the gateway's settle is.  A settle that is returned is for an aware instant and comes from
    one request, on the connected client, for two daily bars up to it.  When no bar of the answer is dated after that instant,
    as the request asks, it is the settle of a latest bar at or before it: no other bar of the answer
    is later.  Its prices are that bar's, its last price its close, its date the bar's day in Chicago;
    its change is taken against the latest of the other bars and is zero when there is none.  (An
    answer with later bars is not cut, against the docstring: [Gateway.future_settle_served].) *)
Theorem ibkr_settle_faithful fuel src contract as_of (s s' : IBState (I := I) (T := T)) st :
  ibkr_latest_settle fuel src contract as_of s = (s', Ok (Some (Some st))) →
  dt_naive as_of = false ∧
  exists ib sc i' bars,
    _build_ib_contract contract = Ok ib ∧ _ensure_connected src s = (sc, Ok tt) ∧
    req_historical_data ib (strftime_utc (astimezone_utc as_of)) "2 D" "1 day" "TRADES"
      (if _use_rth src then 1 else 0) (fst (snd sc)) = (i', Ok bars) ∧
    ((forall b t, In b bars → dated b t → dt_instant t <= dt_instant as_of) →
     exists latest prior ts, dated latest ts ∧ dt_instant ts <= dt_instant as_of ∧
       match prior with
       | None => bars = [latest]
       | Some p => exists older, Permutation bars (latest :: p :: older) ∧ no_later p latest ∧
                     forall b, In b older → no_later b p ∧ no_later b latest
       end ∧
       settle_of contract as_of latest prior st).
Proof.
  intros (Hn & ib & sc & i' & bars & ordered & latest & prior & Hib & Hconn & Hreq & Hp & Hs & Hl & Hof)%latest_settle_bars.
  split; [done|]. exists ib, sc, i', bars. split; [done|]. split; [done|]. split; [done|]. intros Hbefore.
  apply (last_two_latest _ _ _ Hs) in Hl. pose proof Hof as (ts & Hts & _).
  assert (Hl' : match prior with
       | None => bars = [latest]
       | Some p => exists older, Permutation bars (latest :: p :: older) ∧ no_later p latest ∧
                     forall b, In b older → no_later b p ∧ no_later b latest
       end).
  { destruct prior as [p|]; [by setoid_rewrite Hp|]. subst ordered. by apply Permutation_length_1_inv, Permutation_sym. }
  exists latest, prior, ts. split; [done|]. split; [|by split]. apply (Hbefore latest); [|done].
  destruct prior as [p|]; [destruct Hl' as (older & -> & _)|rewrite Hl']; by left.
Qed.

(** ** Facts: pacing *)
Lemma on_client_queue {A} (m : M I A) (s : IBState (I := I) (T := T)) : fst (fst (on_client m s)) = fst s.
Proof. unfold on_client. by destruct (m (fst (snd s))). Qed.

Lemma reraise_fst {S A} f (m : M S A) s : fst (reraise f m s) = fst (m s).
Proof. unfold reraise. by destruct (m s). Qed.

Definition same_queue (s s' : IBState (I := I) (T := T)) : Prop := fst s' = fst s.
#[local] Instance same_queue_preorder : PreOrder same_queue.
Proof. split; [by intros s|]. intros a b c H12 H23. unfold same_queue in *. congruence. Qed.

Lemma ensure_connected_queue src : steps same_queue (_ensure_connected src).
Proof.
  unfold _ensure_connected. apply (steps_bind same_queue); [intros s; apply on_client_queue|].
  intros [|]; [apply (steps_ret same_queue)|]. intros s. unfold same_queue. rewrite reraise_fst. apply on_client_queue.
Qed.

Lemma now_queue : steps same_queue now.
Proof. intros s. unfold same_queue, now, on_env. by destruct (on_world now_utc (snd s)). Qed.

Lemma request_queue src ib e d b : steps same_queue (request src ib e d b).
Proof. intros s. unfold same_queue, request. rewrite reraise_fst. apply on_client_queue. Qed.

(** The in-flight count and the limits are those of before. *)
Definition queue_ok (s : IBState (I := I) (T := T)) : Prop :=
  limits_positive (_config (fst s)) ∧ 0 <= _concurrent_count (fst s).
Definition balanced (s s' : IBState (I := I) (T := T)) : Prop :=
  queue_ok s → queue_ok s' ∧ _config (fst s') = _config (fst s) ∧ _concurrent_count (fst s') = _concurrent_count (fst s).
#[local] Instance balanced_preorder : PreOrder balanced.
Proof.
  split; [by intros s|]. intros a b c Hab Hbc Ha. destruct (Hab Ha) as (Hb & C1 & N1).
  destruct (Hbc Hb) as (Hc & C2 & N2). split; [done|]. split; congruence.
Qed.

Lemma same_balanced {A} (m : M (IBState (I := I) (T := T)) A) : steps same_queue m → steps balanced m.
Proof. intros Hm s Hs. specialize (Hm s). unfold queue_ok. by rewrite Hm. Qed.

Lemma lift_balanced {A} (r : result A) : steps balanced (lift r).
Proof. apply (steps_lift balanced). Qed.

Lemma acquire_request_balanced fuel key src ib e d b :
  steps balanced (with_acquire fuel key (request src ib e d b)).
Proof.
  intros s [Hl Hn]. pose proof (request_queue src ib e d b) as Hq. unfold same_queue in Hq.
  destruct (with_acquire fuel key (request src ib e d b) s) as [s' r] eqn:E. cbn [fst].
  assert (Hc : _config (fst s') = _config (fst s)).
  { eapply acquire_config; [|exact Hl|exact E]. intros s0. by rewrite Hq. }
  assert (Hk : _concurrent_count (fst s') = _concurrent_count (fst s)).
  { eapply acquire_balanced; [|exact Hl|exact Hn|exact E]. intros s0 s1 o E0. specialize (Hq s0).
    rewrite E0 in Hq. cbn in Hq. by rewrite Hq. }
  unfold queue_ok. by rewrite Hc, Hk.
Qed.

Create HintDb paced.
#[local] Hint Resolve lift_balanced acquire_request_balanced : paced.
#[local] Hint Extern 1 (steps balanced (bind _ _)) => apply (steps_bind balanced) : paced.
#[local] Hint Extern 1 (steps balanced (ret _)) => apply (steps_ret balanced) : paced.
#[local] Hint Extern 1 (steps balanced (raise _)) => apply (steps_raise balanced) : paced.
#[local] Hint Extern 1 (steps balanced (_ensure_connected _)) => apply same_balanced, ensure_connected_queue : paced.
#[local] Hint Extern 1 (steps balanced now) => apply same_balanced, now_queue : paced.
#[local] Hint Extern 2 (steps balanced (match ?x with _ => _ end)) => destruct x : paced.

Lemma get_bars_balanced fuel src contract ts_start ts_end resolution :
  steps balanced (ibkr_get_bars fuel src contract ts_start ts_end resolution).
Proof. unfold ibkr_get_bars. cbv zeta. auto 30 with paced. Qed.

Lemma latest_settle_balanced fuel src contract as_of :
  steps balanced (ibkr_latest_settle fuel src contract as_of).
Proof. unfold ibkr_latest_settle, _ib_bar_to_settle. cbv zeta. auto 40 with paced. Qed.

(** The request was made while holding a slot of the contract's key, granted by the queue as it was. *)
Definition paced_request (src : IBKRHistoricalDataSource) (contract : ContractSymbol) (end_datetime duration size : string)
    (s : IBState (I := I) (T := T)) (raw : list BarData) : Prop :=
  exists key ib (s0 s1 s2 : IBState (I := I) (T := T)),
    _contract_key contract "TRADES" = Ok key ∧ _build_ib_contract contract = Ok ib ∧
    fst s0 = fst s ∧ granted key s0 s1 ∧ _concurrent_count (fst s1) = _concurrent_count (fst s) + 1 ∧
    request src ib end_datetime duration size s1 = (s2, Ok raw).

Lemma acquired_paced fuel src contract ed dur size key ib (s sb sc : IBState (I := I) (T := T)) raw :
  queue_ok s → fst sb = fst s → _contract_key contract "TRADES" = Ok key → _build_ib_contract contract = Ok ib →
  with_acquire fuel key (request src ib ed dur size) sb = (sc, Ok (Some raw)) →
  paced_request src contract ed dur size s raw.
Proof.
  intros Hq Eb Hkey Hib Hreq. apply with_acquire_body in Hreq as (s1 & s2 & He & Hreq).
  apply enter_granted in He as [_ Hg]; [|rewrite Eb; apply Hq].
  exists key, ib, sb, s1, s2. split_and!; try done. rewrite <- Eb. by apply (granted_count key).
Qed.

(** Bars dated in the window in increasing order keep the contract of the source interface. *)
Lemma raw_bars_contract contract resolution as_of ts_start ts_end raw times bars :
  rmap (_ib_bar_to_raw contract resolution as_of) raw = Ok bars → Forall2 dated raw times →
  Forall (fun t => dt_instant ts_start <= dt_instant t < dt_instant ts_end) times →
  StronglySorted Z.lt (map dt_instant times) → bars_contract ts_start ts_end bars.
Proof.
  intros Hr%rmap_Ok Hd Hw Hs.
  assert (Hb : Forall2 (fun t b => rb_ts b = t ∧ RawBar_wf b) times bars).
  { clear Hw Hs. revert times Hd. induction Hr as [|x b raw bars Hx Hr IH]; intros times Hd; inversion Hd as [|? t ? ts Ht Hts]; subst;
      constructor; [|by apply IH]. unfold _ib_bar_to_raw in Hx. unfold dated in Ht. rewrite Ht in Hx. cbn [rbind] in Hx.
    do 5 (apply rbind_Ok in Hx as (? & _ & Hx)). by apply RawBar_post_init_Ok in Hx as [-> Hwf]. }
  assert (Ei : map bar_instant bars = map dt_instant times).
  { clear -Hb. induction Hb as [|t b ts bs [Ht _] Hb IH]; [done|]. cbn. unfold bar_instant at 1. by rewrite Ht, IH. }
  constructor; [|by rewrite Ei|clear -Hb; induction Hb as [|? ? ? ? []]; by constructor].
  clear -Hb Hw. induction Hb as [|t b ts bs [Ht _] Hb IH]; [constructor|]. inversion Hw; subst.
  constructor; [|by apply IH]. done.
Qed.

(** The bars answered, and the settle answered, come from one paced request. *)
Lemma get_bars_paced fuel src contract ts_start ts_end resolution (s s' : IBState (I := I) (T := T)) bars :
  queue_ok s → ibkr_get_bars fuel src contract ts_start ts_end resolution s = (s', Ok (Some bars)) →
  exists size as_of raw, _map_bar_size resolution = Ok size ∧
    paced_request src contract (strftime_utc (astimezone_utc ts_end)) (_compute_duration_str ts_start ts_end) size s raw ∧
    rmap (_ib_bar_to_raw contract resolution as_of) raw = Ok bars.
Proof.
  intros Hq E. unfold ibkr_get_bars in E. cbv zeta in E.
  apply bind_Ok in E as (? & ? & [<- _]%lift_Ok & E). apply bind_Ok in E as (? & ? & [<- _]%lift_Ok & E).
  apply bind_Ok in E as (? & size & [<- Hsize]%lift_Ok & E). apply bind_Ok in E as (? & ib & [<- Hib]%lift_Ok & E).
  apply bind_Ok in E as (? & ed & [<- Hed]%lift_Ok & E). apply bind_Ok in E as (sa & [] & Ha & E).
  apply rbind_Ok in Hed as (? & _ & [= <-]).
  apply bind_Ok in E as (? & key & [<- Hkey]%lift_Ok & E). apply bind_Ok in E as (sb & as_of & Hb & E).
  apply bind_Ok in E as (sc & [raw|] & Hreq & E); [|done].
  apply bind_Ok in E as (? & bars' & [<- Hmap]%lift_Ok & [= _ ->]).
  pose proof (ensure_connected_queue src s) as Qa. rewrite Ha in Qa.
  pose proof (now_queue sa) as Qb. rewrite Hb in Qb. unfold same_queue in Qa, Qb. cbn [fst] in Qa, Qb.
  exists size, as_of, raw. split; [done|]. split; [|done].
  eapply (acquired_paced _ _ _ _ _ _ _ _ s sb); [exact Hq|congruence|exact Hkey|exact Hib|exact Hreq].
Qed.

Lemma latest_settle_paced fuel src contract as_of (s s' : IBState (I := I) (T := T)) o :
  queue_ok s → ibkr_latest_settle fuel src contract as_of s = (s', Ok (Some o)) →
  exists raw, paced_request src contract (strftime_utc (astimezone_utc as_of)) "2 D" "1 day" s raw ∧ (o = None ↔ raw = []).
Proof.
  intros Hq E. unfold ibkr_latest_settle in E. apply bind_Ok in E as (? & ? & [<- _]%lift_Ok & E).
  apply bind_Ok in E as (? & ib & [<- Hib]%lift_Ok & E). apply bind_Ok in E as (? & ed & [<- Hed]%lift_Ok & E).
  apply rbind_Ok in Hed as (? & _ & [= <-]).
  apply bind_Ok in E as (sa & [] & Ha & E). apply bind_Ok in E as (? & key & [<- Hkey]%lift_Ok & E).
  apply bind_Ok in E as (sc & [raw|] & Hreq & E); [|done].
  pose proof (ensure_connected_queue src s) as Qa. rewrite Ha in Qa. unfold same_queue in Qa. cbn [fst] in Qa.
  assert (Hu : astimezone_utc (astimezone_utc as_of) = astimezone_utc as_of)
    by (unfold astimezone_utc; f_equal; apply astimezone_instant).
  rewrite Hu in Hreq. exists raw. split; [by eapply (acquired_paced _ _ _ _ _ _ _ _ s sa)|].
  destruct raw as [|b raw]; [by injection E as _ <-|].
  apply bind_Ok in E as (? & ordered & _ & E). destruct (latest_and_prior ordered) as [[latest prior]|]; [|done].
  apply bind_Ok in E as (? & st & _ & [= _ <-]). done.
Qed.


(** A query whose arguments can be sent. *)
Definition valid_query (contract : ContractSymbol) (ts_start ts_end : datetime) (resolution : BarResolution) : bool :=
  negb (dt_naive ts_start) && negb (dt_naive ts_end) && dt_ltb ts_start ts_end && dmem resolution BAR_SIZE_MAP
  && is_ok (future_terms contract).

Lemma parse_fails contract :
  fails_only (fun e => e = ContractNotConfigured ∨ e = ValueError) (_parse_contract_symbol contract).
Proof.
  unfold _parse_contract_symbol. apply fails_bind; [apply reject_fails; by left|intros _ _].
  apply fails_bind; [apply reject_fails; by left|intros _ _].
  apply fails_bind; [apply of_option_fails; by right|intros y _].
  apply fails_bind; [apply reject_fails; by left|intros _ _].
  apply fails_bind; [apply reject_fails; by left|done].
Qed.

Lemma future_terms_fails contract :
  fails_only (fun e => e = ContractNotConfigured ∨ e = ValueError) (future_terms contract).
Proof.
  unfold future_terms. apply fails_bind; [apply parse_fails|]. intros [[root code] year] Hp.
  unfold _parse_contract_symbol in Hp. inv_ok.
  repeat match goal with Hd : negb (dmem _ _) = false |- _ => apply negb_false_iff in Hd; unfold dmem in Hd end.
  destruct (dget _ MONTH_CODE_TO_NUMBER); [|done]. by destruct (dget _ EXCHANGE_BY_ROOT).
Qed.

(** Such a query is refused before the gateway is asked for anything, when contracts can be built. *)
Lemma ibkr_invalid_untouched fuel src contract ts_start ts_end resolution (s : IBState (I := I) (T := T)) :
  (forall symbol month exchange, is_ok (build_future_contract symbol month exchange) = true) →
  valid_query contract ts_start ts_end resolution = false →
  exists e, ibkr_get_bars fuel src contract ts_start ts_end resolution s = (s, Err e) ∧
    In e [TypeError; ValueError; BarsNotSupported; ContractNotConfigured].
Proof.
  intros Hbuild Hv. unfold ibkr_get_bars, bind, lift, dt_compatible. cbv zeta.
  destruct (xorb _ _) eqn:Hx; cbn [reject]; [eexists; split; [done|]; cbn; tauto|].
  destruct (dt_leb ts_end ts_start) eqn:Hle; cbn [reject]; [eexists; split; [done|]; cbn; tauto|].
  unfold _map_bar_size. destruct (dget resolution BAR_SIZE_MAP) eqn:Hs; cbn [of_option];
    [|eexists; split; [done|]; cbn; tauto].
  unfold _build_ib_contract. pose proof (future_terms_fails contract) as Hf.
  destruct (future_terms contract) as [[[root month] exchange]|e] eqn:Ht; cbn [rbind];
    [|exists e; split; [done|]; cbn in *; destruct Hf; subst; tauto].
  specialize (Hbuild root month exchange). destruct (build_future_contract _ _ _); [|done].
  unfold _format_end_datetime. destruct (dt_naive ts_end) eqn:Hn; cbn [reject rbind];
    [eexists; split; [done|]; cbn; tauto|].
  exfalso. revert Hv. unfold valid_query, dmem, dt_ltb, dt_leb in *. rewrite Hn, Hs, Ht.
  destruct (dt_naive ts_start); [done|]. apply Z.leb_gt in Hle.
  by rewrite (proj2 (Z.ltb_lt _ _)).
Qed.
End SourceFacts.

(** ** Witnesses: a gateway with canned bars, a clock that advances by sleeping, winter in Chicago *)
Module Gateway.
Record gateway := { gw_connected : bool; gw_bars : list BarData }.

#[local] Instance client : IBClient gateway := {
  ib_contract := string * string * string;
  ib_connect _ _ _ := modify (fun g => {| gw_connected := true; gw_bars := gw_bars g |});
  ib_disconnect := modify (fun g => {| gw_connected := false; gw_bars := gw_bars g |});
  ib_is_connected g := (g, Ok (gw_connected g));
  build_future_contract symbol month exchange := Ok (symbol, month, exchange);
  req_historical_data _ _ _ _ _ _ g := (g, Ok (gw_bars g)) }.
#[local] Instance seconds : Clock float := {
  monotonic := fun t => (t, Ok t);
  sleep_fn := fun x t => (fadd t x, Ok tt) }.
Definition day (d h : Z) : datetime := mk_datetime 2026 1 d h 0 0 0 (Some 0).
#[local] Instance noon : ClockProtocol float := { now_utc t := (t, Ok (day 16 12)) }.
#[local] Instance winter : ChicagoTime := { ct_utc_offset t := -21600 }.

Definition bar (d price : Z) : BarData := {|
  ib_date := BarDay (mk_date 2026 1 d); ib_open := NInt price; ib_high := NFloat (f_of_ratio (2 * price + 5) 2);
  ib_low := NInt (price - 3); ib_close := NFloat (f_of_ratio (4 * price + 1) 4); ib_volume := Some (NInt 1200) |}.
Definition start (bars : list BarData) : IBState (I := gateway) (T := float) :=
  (new_BackoffQueue None, ({| gw_connected := false; gw_bars := bars |}, f_zero)).
Definition two_days : list BarData := [bar 15 6010; bar 14 6000].

Lemma ibkr_settle_faithful_witness : exists s' st,
  ibkr_latest_settle 5 default_IBKR "ESH26" (day 15 23) (start two_days) = (s', Ok (Some (Some st))) ∧
  st_settle st = Dec 601025 (-2) ∧ st_change st = Dec 1000 (-2) ∧ st_settle_state st = preliminary ∧
  st_last st = st_settle st.
Proof.
  eexists _, _. run_as E. split; [vm_compute; reflexivity|]. split; [vm_compute; reflexivity|].
  split; [vm_compute; reflexivity|].
  destruct (ibkr_settle_faithful 5 default_IBKR "ESH26" (day 15 23) (start two_days) _ _ E)
    as (_ & ib & sc & i' & bars & _ & Hconn & Hreq & H).
  assert (Hlate : forall b t, In b bars → dated b t → dt_instant t <= dt_instant (day 15 23)).
  { vm_compute in Hconn. injection Hconn as <-. injection Hreq as _ <-. intros b t Hb Ht.
    destruct Hb as [<-|[<-|[]]]; vm_compute in Ht; injection Ht as <-; vm_compute; discriminate. }
  destruct (H Hlate) as (latest & prior & ts & _ & _ & _ & ts' & _ & _ & Hlast & _). exact Hlast.
Defined.


(** The answer is not cut to the window: a day and a half asks for two days, and the bar of the day
    before the window is served. *)
Lemma outside_window_served : exists s' b,
  ibkr_get_bars 5 default_IBKR "ESH26" (day 14 18) (day 16 0) DAY_1 (start [bar 14 6000]) = (s', Ok (Some [b])) ∧
  dt_ltb (rb_ts b) (day 14 18) = true ∧ _compute_duration_str (day 14 18) (day 16 0) = "2 D"%string.
Proof. eexists _, _. split; [vm_compute; reflexivity|]. split; vm_compute; reflexivity. Qed.

(** A settle later than the instant asked for: the bar of the day is dated noon. *)
Lemma future_settle_served : exists s' st,
  ibkr_latest_settle 5 default_IBKR "ESH26" (day 15 6) (start two_days) = (s', Ok (Some (Some st))) ∧
  st_as_of_date st = mk_date 2026 1 15 ∧ dt_ltb (day 15 6) (noon_utc (st_as_of_date st)) = true.
Proof. eexists _, _. split; [vm_compute; reflexivity|]. split; vm_compute; reflexivity. Qed.

(** A window of less than a second asks for none. *)
Lemma no_duration : _compute_duration_str (day 14 0) (dt_add (day 14 0) 999999) = "0 S"%string.
Proof. vm_compute. reflexivity. Qed.
End Gateway.
