(* ===== verification/Brr.v ===== *)
(** * data/brr.py: the reconstructed Bitcoin reference rate

    The rate is rebuilt from the five-minute bars of several venues over the hour before 16:00 in
    London.  London's offset from UTC is a class; logging and message texts are left out. *)

From Stdlib Require Import QArith.
From S2P Require Import Prelude PyDecimal PyText PyTime PyFloat Json Types Verifier.

#[local] Open Scope Z_scope.

Definition _BRR_WINDOW_START_LONDON : Z := 15 * 3600 * 1000000.
Definition _BRR_WINDOW_END_LONDON : Z := 16 * 3600 * 1000000.
Definition _NUM_PARTITIONS : nat := 12.
Definition _PARTITION_MINUTES : Z := 5.
Definition _MIN_VENUES_PER_PARTITION : nat := 2.
Definition _SUPPORTED_CONTRACTS : list ContractSymbol := ["BTCUSD"; "ETHUSD"]%string.

(** The offset from UTC, in seconds, of a wall-clock time in London. *)
Class LondonTime := { london_offset : Z -> Z }.
Class LondonTimeLaws `{LondonTime} := {
  london_offset_range : forall t, london_offset t = 0 ∨ london_offset t = 3600;
  (* the clocks change at one in the morning: the offset is the same through the afternoon *)
  london_offset_afternoon : forall d,
    london_offset (d * us_per_day + _BRR_WINDOW_END_LONDON) = london_offset (d * us_per_day + _BRR_WINDOW_START_LONDON);
}.

Record BRRReconstruction := {
  br_contract : ContractSymbol;
  br_fix_date : date;
  br_reconstructed_value : decimal;
  br_partition_values : list (option decimal);
  br_num_partitions_valid : nat;
  br_venue_ids : list string;
  br_content_bytes_sha : string;
}.

Definition BRRReconstruction_post_init (r : BRRReconstruction) : result BRRReconstruction :=
  guard! negb (length (br_partition_values r) =? _NUM_PARTITIONS)%nat else ValueError in
  guard! (br_num_partitions_valid r <? 1)%nat || (_NUM_PARTITIONS <? br_num_partitions_valid r)%nat
    else ValueError in
  guard! dleb (br_reconstructed_value r) d0 else ValueError in
  guard! hex_length_bad (br_content_bytes_sha r) else ValueError in
  guard! (length (br_venue_ids r) <? _MIN_VENUES_PER_PARTITION)%nat else ValueError in
  Ok r.

(** The sources, sorted by id. *)
Definition BRRReconstructor : Type := list DataSource.

Definition source_id_leb (a b : DataSource) : bool := String.leb (source_id a) (source_id b).

Definition new_BRRReconstructor (sources : list DataSource) : result BRRReconstructor :=
  guard! (length sources <? _MIN_VENUES_PER_PARTITION)%nat else InsufficientVenues in
  Ok (sort_by source_id_leb sources).

Definition venue_ids (rec : BRRReconstructor) : list string := map source_id rec.

Definition _arithmetic_mean (values : list decimal) : result decimal :=
  match values with
  | [] => Err AssertionError
  | _ => ddiv (dsum values) (dec_of_Z (Z.of_nat (length values)))
  end.

(** [start <= b.ts < end] *)
Definition in_span (start end_ : datetime) (b : RawBar) : bool :=
  dt_leb start (rb_ts b) && dt_ltb (rb_ts b) end_.

Definition ts_leb (a b : RawBar) : bool := dt_leb (rb_ts a) (rb_ts b).

(** [max(hits, key=ts).close], or nothing when there is no hit. *)
Definition last_close (hits : list RawBar) : option decimal :=
  match hits with
  | [] => None
  | b :: bs => Some (rb_close (max_by (fun x y => dt_ltb (rb_ts x) (rb_ts y)) b bs))
  end.

Definition bar_json (b : RawBar) : json :=
  JObj [("ts", JStr (dt_iso (rb_ts b))); ("close", JStr (str_decimal (rb_close b)));
        ("volume", JInt (rb_volume b))]%string.

Definition _compute_content_sha (contract : ContractSymbol) (fix_date : date)
    (bars_per_venue : dict string (list RawBar)) : string :=
  let venues := sort_by (fun a b => String.leb (fst a) (fst b)) bars_per_venue in
  let venues_payload := map (fun vb => (fst vb, JArr (map bar_json (sort_by ts_leb (snd vb))))) venues in
  sha256_hex (json_dumps sorted_style
    (JObj [("contract", JStr contract); ("fix_date", JStr (date_iso fix_date)); ("venues", JObj venues_payload)]))%string.

Section Reconstruct.
Context `{LondonTime}.

Definition _london_window_utc (fix_date : date) : datetime * datetime :=
  let utc local := DT (local - london_offset local * 1000000) (Some 0) in
  (utc (fix_date * us_per_day + _BRR_WINDOW_START_LONDON), utc (fix_date * us_per_day + _BRR_WINDOW_END_LONDON)).

(** The bars of every venue inside the window, by source id. *)
Definition fetch_venues (rec : BRRReconstructor) (contract : ContractSymbol) (start end_ : datetime)
    : result (dict string (list RawBar)) :=
  rfold (fun venues src =>
    let! raw_bars := get_bars src contract start end_ MIN_5 in
    Ok (dset (source_id src) (List.filter (in_span start end_) raw_bars) venues)) rec [].

(** Partition [i] of the window. *)
Definition partition_span (start : datetime) (i : nat) : datetime * datetime :=
  let p_start := dt_add start (Z.of_nat i * _PARTITION_MINUTES * 60000000) in
  (p_start, dt_add p_start (_PARTITION_MINUTES * 60000000)).

Definition partition_closes (rec : BRRReconstructor) (venues : dict string (list RawBar))
    (start : datetime) (i : nat) : list decimal :=
  let '(p_start, p_end) := partition_span start i in
  somes (map (fun src => last_close (List.filter (in_span p_start p_end) (dget_or (source_id src) [] venues))) rec).

Definition partition_aggregate (closes : list decimal) : result (option decimal) :=
  if (length closes <? _MIN_VENUES_PER_PARTITION)%nat then Ok None
  else let! m := _arithmetic_mean closes in Ok (Some m).

Definition reconstruct (rec : BRRReconstructor) (contract : ContractSymbol) (fix_date : date)
    : result BRRReconstruction :=
  guard! negb (bool_decide (contract ∈ _SUPPORTED_CONTRACTS)) else DataSourceError in
  let '(ts_start_utc, ts_end_utc) := _london_window_utc fix_date in
  let! bars_per_venue := fetch_venues rec contract ts_start_utc ts_end_utc in
  let! partition_aggregates :=
    rmap (fun i => partition_aggregate (partition_closes rec bars_per_venue ts_start_utc i)) (seq 0 _NUM_PARTITIONS) in
  let valid_partitions := somes partition_aggregates in
  guard! (length valid_partitions =? 0)%nat else BRRWindowEmpty in
  let! brr_value := _arithmetic_mean valid_partitions in
  BRRReconstruction_post_init {|
    br_contract := contract; br_fix_date := fix_date; br_reconstructed_value := brr_value;
    br_partition_values := partition_aggregates;
    br_num_partitions_valid := length valid_partitions;
    br_venue_ids := venue_ids rec;
    br_content_bytes_sha := _compute_content_sha contract fix_date bars_per_venue |}.
End Reconstruct.

(** ** Facts *)
Lemma source_id_leb_total a b : source_id_leb a b = true ∨ source_id_leb b a = true.
Proof. unfold source_id_leb. apply orb_true_iff. destruct (String.leb_total (source_id a) (source_id b)) as [->| ->]; [done|]. by rewrite orb_true_r. Qed.

Lemma source_id_leb_trans a b c : source_id_leb a b = true → source_id_leb b c = true → source_id_leb a c = true.
Proof. apply string_leb_trans. Qed.

(** the rate does not depend on the order the venues are given in.  Two lists of the same venues,
    with distinct ids, build the same reconstructor, so every reconstruction, its partitions and its
    content hash agree; a list of fewer than two venues is refused however it is ordered. *)
Theorem brr_order_independent `{LondonTime} l1 l2 contract fix_date :
  Permutation l1 l2 → List.NoDup (map source_id l1) →
  (let! rec := new_BRRReconstructor l1 in reconstruct rec contract fix_date)
  = (let! rec := new_BRRReconstructor l2 in reconstruct rec contract fix_date).
Proof.
  intros Hp Hnd. unfold new_BRRReconstructor. rewrite (Permutation_length Hp).
  destruct (reject _ _); [|done]. cbn [rbind].
  assert (E : sort_by source_id_leb l1 = sort_by source_id_leb l2); [|by rewrite E].
  apply (sorted_unique (fun x y => source_id_leb x y = true)).
  - apply sort_by_sorted; [apply source_id_leb_total|apply source_id_leb_trans].
  - apply sort_by_sorted; [apply source_id_leb_total|apply source_id_leb_trans].
  - by rewrite <- !sort_by_perm.
  - intros x y Hx%sort_by_In Hy%sort_by_In Hxy Hyx.
    assert (Hid : source_id x = source_id y) by (by apply String.leb_antisym).
    clear -Hx Hy Hid Hnd. induction l1 as [|z l IH]; [done|]. cbn in Hnd. apply List.NoDup_cons_iff in Hnd as [Hz Hnd].
    destruct Hx as [->|Hx], Hy as [->|Hy]; [done| | |by apply IH].
    + exfalso. apply Hz. rewrite Hid. by apply in_map.
    + exfalso. apply Hz. rewrite <- Hid. by apply in_map.
Qed.

Section Facts.
Context `{LondonTime}.

Lemma fetch_venues_spec rec contract start end_ venues :
  fetch_venues rec contract start end_ = Ok venues → List.NoDup (map source_id rec) →
  forall src, In src rec → exists raw, get_bars src contract start end_ MIN_5 = Ok raw ∧
    dget_or (source_id src) [] venues = List.filter (in_span start end_) raw.
Proof.
  unfold fetch_venues, dget_or. generalize (@nil (string * list RawBar)). induction rec as [|s rec IH]; intros acc E Hnd src Hin; [done|].
  cbn [rfold] in E. apply rbind_Ok in E as (acc1 & (raw & Hraw & [= <-])%rbind_Ok & E).
  cbn in Hnd. apply List.NoDup_cons_iff in Hnd as [Hs Hnd]. destruct Hin as [->|Hin]; [|by eapply IH].
  exists raw. split; [done|].
  assert (Hkeep : forall (l : list DataSource) (d d' : dict string (list RawBar)) k, ~ In k (map source_id l) →
    rfold (fun venues src => let! raw_bars := get_bars src contract start end_ MIN_5 in
      Ok (dset (source_id src) (List.filter (in_span start end_) raw_bars) venues)) l d = Ok d' →
    dget k d' = dget k d).
  { clear. induction l as [|x l IH]; intros d d' k Hk E; [by injection E as <-|]. cbn [rfold] in E.
    apply rbind_Ok in E as (d1 & (raw & _ & [= <-])%rbind_Ok & E). cbn in Hk.
    rewrite (IH _ d' k (fun Hin => Hk (or_intror Hin)) E). apply dget_dset_ne. intros ->. tauto. }
  rewrite (Hkeep _ _ _ _ Hs E), dget_dset_eq. done.
Qed.

(** The bar a venue is quoted with, and the quotes of a partition: one per venue that has a bar. *)
Definition last_bar (hits : list RawBar) : option RawBar :=
  match hits with
  | [] => None
  | b :: bs => Some (max_by (fun x y => dt_ltb (rb_ts x) (rb_ts y)) b bs)
  end.

Lemma last_bar_spec hits b : last_bar hits = Some b →
  In b hits ∧ forall b', In b' hits → dt_instant (rb_ts b') <= dt_instant (rb_ts b).
Proof.
  destruct hits as [|b0 bs]; [done|]. intros [= <-]. split; [apply max_by_In|]. intros b' Hb'.
  apply (@max_by_ge _ _ (fun x y => dt_instant (rb_ts x) <= dt_instant (rb_ts y))); try done.
  - intros x. reflexivity.
  - intros x y z. lia.
  - intros x y. unfold dt_ltb. lia.
  - intros x y. unfold dt_ltb. lia.
Qed.

Fixpoint quotes_of (hits : DataSource -> list RawBar) (rec : list DataSource) : list (DataSource * RawBar) :=
  match rec with
  | [] => []
  | src :: rest => match last_bar (hits src) with
                   | Some b => (src, b) :: quotes_of hits rest
                   | None => quotes_of hits rest
                   end
  end.

Lemma quotes_closes hits rec :
  somes (map (fun src => last_close (hits src)) rec) = map (fun q => rb_close (snd q)) (quotes_of hits rec).
Proof.
  induction rec as [|src rec IH]; [done|]. cbn [map quotes_of]. unfold last_close at 1, last_bar at 1.
  destruct (hits src); [exact IH|]. cbn [somes map snd]. by f_equal.
Qed.

Lemma quotes_sources hits rec : map fst (quotes_of hits rec) `sublist_of` rec.
Proof.
  induction rec as [|src rec IH]; [done|]. cbn [quotes_of]. destruct (last_bar (hits src)); by constructor.
Qed.

Lemma quotes_In hits rec src b : In (src, b) (quotes_of hits rec) ↔ In src rec ∧ last_bar (hits src) = Some b.
Proof.
  induction rec as [|s rec IH]; cbn [quotes_of In]; [naive_solver|].
  destruct (last_bar (hits s)) eqn:El; cbn [In]; rewrite IH; naive_solver.
Qed.

(** The window is cut into its partitions: a bar inside it falls in exactly one of the twelve. *)
Lemma partitions_cover start b : dt_off start = Some 0 →
  in_span start (dt_add start (60 * 60000000)) b = true ↔
  exists! i, (i < _NUM_PARTITIONS)%nat ∧ in_span (fst (partition_span start i)) (snd (partition_span start i)) b = true.
Proof.
  intros Ho. unfold partition_span, in_span, dt_leb, dt_ltb, dt_add, dt_instant, _PARTITION_MINUTES, _NUM_PARTITIONS.
  cbn [fst snd dt_local dt_off]. rewrite Ho. set (t := dt_local (rb_ts b) - _). set (s := dt_local start).
  rewrite andb_true_iff, Z.leb_le, Z.ltb_lt. split.
  - intros Hw. exists (Z.to_nat ((t - s) / 300000000)). split.
    + rewrite andb_true_iff, Z.leb_le, Z.ltb_lt. rewrite Z2Nat.id by (apply Z.div_pos; lia).
      split; [|Z.to_euclidean_division_equations; lia].
      apply Nat2Z.inj_lt. rewrite Z2Nat.id by (apply Z.div_pos; lia). apply Z.div_lt_upper_bound; lia.
    + intros i [Hi [H1%Z.leb_le H2%Z.ltb_lt]%andb_true_iff].
      assert (E : (t - s) / 300000000 = Z.of_nat i) by (Z.to_euclidean_division_equations; lia).
      rewrite E. by rewrite Nat2Z.id.
  - intros (i & (Hi & [H1%Z.leb_le H2%Z.ltb_lt]%andb_true_iff) & _). lia.
Qed.

Lemma london_window `{!LondonTimeLaws} d : let '(s, e) := _london_window_utc d in
  e = dt_add s (60 * 60000000) ∧ dt_off s = Some 0.
Proof.
  unfold _london_window_utc. split; [|done]. unfold dt_add. cbn [dt_local dt_off]. f_equal.
  rewrite london_offset_afternoon. unfold _BRR_WINDOW_END_LONDON, _BRR_WINDOW_START_LONDON. lia.
Qed.

(** The bars of a partition, out of those of the window: the partition lies in the window. *)
Lemma span_In start i raw b : (i < _NUM_PARTITIONS)%nat → dt_off start = Some 0 →
  In b (List.filter (in_span (fst (partition_span start i)) (snd (partition_span start i)))
          (List.filter (in_span start (dt_add start (60 * 60000000))) raw))
  ↔ In b raw ∧ dt_local start + Z.of_nat i * 300000000 <= dt_instant (rb_ts b)
               < dt_local start + (Z.of_nat i + 1) * 300000000.
Proof.
  intros Hi Ho. rewrite !filter_In. unfold partition_span, in_span, dt_leb, dt_ltb, dt_add, _PARTITION_MINUTES.
  unfold _NUM_PARTITIONS in Hi. cbn [fst snd].
  assert (E : forall k, dt_instant {| dt_local := k; dt_off := dt_off start |} = k)
    by (intros k; unfold dt_instant; rewrite Ho; cbn; lia).
  cbn [dt_local dt_off]. rewrite !E. replace (dt_instant start) with (dt_local start)
    by (unfold dt_instant; rewrite Ho; lia).
  rewrite !andb_true_iff, !Z.leb_le, !Z.ltb_lt. split; [intros [[? ?] ?]|intros [? ?]]; split_and!; try done; lia.
Qed.

Lemma reconstruct_Ok rec contract d r : reconstruct rec contract d = Ok r →
  let '(s, e) := _london_window_utc d in
  contract ∈ _SUPPORTED_CONTRACTS ∧ 0 < dcoef (br_reconstructed_value r) ∧
  exists venues, fetch_venues rec contract s e = Ok venues ∧
  rmap (fun i => partition_aggregate (partition_closes rec venues s i)) (seq 0 _NUM_PARTITIONS)
    = Ok (br_partition_values r) ∧
  (1 <= br_num_partitions_valid r)%nat ∧ br_num_partitions_valid r = length (somes (br_partition_values r)) ∧
  _arithmetic_mean (somes (br_partition_values r)) = Ok (br_reconstructed_value r).
Proof.
  intros E. unfold reconstruct in E. destruct (_london_window_utc d) as [s e] eqn:Hw.
  apply rbind_Ok in E as (? & Hc%reject_Ok & E). apply negb_false_iff, bool_decide_eq_true in Hc.
  apply rbind_Ok in E as (venues & Hv & E). apply rbind_Ok in E as (aggs & Ha & E).
  apply rbind_Ok in E as (? & Hne%reject_Ok & E). apply rbind_Ok in E as (value & Hval & E).
  assert (Er : r = {| br_contract := contract; br_fix_date := d; br_reconstructed_value := value;
    br_partition_values := aggs; br_num_partitions_valid := length (somes aggs); br_venue_ids := venue_ids rec;
    br_content_bytes_sha := _compute_content_sha contract d venues |} ∧ 0 < dcoef value).
  { unfold BRRReconstruction_post_init in E. inv_ok. rewrite dleb_0_r in *. split; [done|].
    match goal with Hl : (_ <=? 0) = false |- _ => by apply Z.leb_gt in Hl end. }
  destruct Er as [-> Hpos]. cbn [br_reconstructed_value br_partition_values br_num_partitions_valid].
  apply Nat.eqb_neq in Hne. split; [done|]. split; [done|]. exists venues. split_and!; done || lia.
Qed.

Lemma rmap_nth {A B} (f : A -> result B) l l' i x y : rmap f l = Ok l' → nth_error l i = Some x →
  f x = Ok (nth i l' y).
Proof.
  intros Hf%rmap_Ok. revert i. induction Hf as [|a b l l' Ha Hf IH]; intros [|i]; cbn; try done.
  - by intros [= <-].
  - apply IH.
Qed.

Lemma mean_Ok l v : _arithmetic_mean l = Ok v → ddiv (dsum l) (dec_of_Z (Z.of_nat (length l))) = Ok v.
Proof. unfold _arithmetic_mean. by destruct l. Qed.

(** C25: what a published rate is made of.  A reconstruction that succeeds, of venues with distinct
    ids, is for a supported contract; it splits the hour from 15:00 London time into twelve spans of
    five minutes.  In each span every venue that answered a bar there is quoted once, with the close
    of a last such bar, and no other venue is; the span has a value exactly when at least two venues
    are quoted, and the value is the mean of the quotes.  The rate is the mean of the spans that have
    a value; there is at least one, and the rate is positive. *)
Theorem brr_made_of `{!LondonTimeLaws} rec contract d r : List.NoDup (map source_id rec) →
  reconstruct rec contract d = Ok r →
  let local := d * us_per_day + 15 * 3600 * 1000000 in
  let t0 := local - london_offset local * 1000000 in
  let values := br_partition_values r in
  contract ∈ _SUPPORTED_CONTRACTS ∧ 0 < dcoef (br_reconstructed_value r) ∧
  (1 <= br_num_partitions_valid r)%nat ∧ br_num_partitions_valid r = length (somes values) ∧
  ddiv (dsum (somes values)) (dec_of_Z (Z.of_nat (length (somes values)))) = Ok (br_reconstructed_value r) ∧
  length values = 12%nat ∧
  forall i, (i < 12)%nat → exists quotes : list (DataSource * RawBar),
    let inside b := t0 + Z.of_nat i * 300000000 <= dt_instant (rb_ts b) < t0 + (Z.of_nat i + 1) * 300000000 in
    List.NoDup (map fst quotes) ∧ (forall src b, In (src, b) quotes → In src rec) ∧
    match nth i values None with
    | None => (length quotes < 2)%nat
    | Some v => (2 <= length quotes)%nat
        ∧ ddiv (dsum (map (fun q => rb_close (snd q)) quotes)) (dec_of_Z (Z.of_nat (length quotes))) = Ok v
    end ∧
    forall src, In src rec → exists raw,
      get_bars src contract (DT t0 (Some 0)) (DT (t0 + 3600 * 1000000) (Some 0)) MIN_5 = Ok raw ∧
      (forall b, In (src, b) quotes → In b raw ∧ inside b ∧
         forall b', In b' raw → inside b' → dt_instant (rb_ts b') <= dt_instant (rb_ts b)) ∧
      ((exists b, In b raw ∧ inside b) → exists b, In (src, b) quotes).
Proof.
  intros Hnd E%reconstruct_Ok local t0 values. pose proof (london_window d) as Hwin.
  assert (Es : fst (_london_window_utc d) = DT t0 (Some 0)) by done.
  destruct (_london_window_utc d) as [s e]. cbn [fst] in Es. destruct Hwin as [He Ho].
  destruct E as (Hc & Hpos & venues & Hv & Ha & Hn1 & Hn & Hval). apply mean_Ok in Hval.
  pose proof (Forall2_length (proj1 (rmap_Ok _ _ _) Ha)) as Hlen. rewrite length_seq in Hlen.
  split_and!; try done. intros i Hi.
  set (hits src := List.filter (in_span (fst (partition_span s i)) (snd (partition_span s i)))
                     (dget_or (source_id src) [] venues)).
  exists (quotes_of hits rec). pose proof (quotes_sources hits rec) as Hsub.
  split. { apply NoDup_ListNoDup. eapply sublist_NoDup, Hsub. apply NoDup_ListNoDup. eapply NoDup_map_inv, Hnd. }
  split; [by intros src b [Hin _]%quotes_In|]. split.
  - assert (Hi' : partition_aggregate (partition_closes rec venues s i) = Ok (nth i values None)).
    { apply (rmap_nth _ _ _ _ _ _ Ha). unfold _NUM_PARTITIONS. rewrite nth_error_seq.
      by rewrite (proj2 (Nat.ltb_lt i 12)). }
    unfold partition_closes in Hi'. destruct (partition_span s i) as [ps pe] eqn:Esp. fold hits in Hi'.
    change (somes _) with (somes (map (fun src => last_close (hits src)) rec)) in Hi'.
    rewrite quotes_closes in Hi'. unfold partition_aggregate, _MIN_VENUES_PER_PARTITION in Hi'.
    rewrite length_map in Hi'. destruct (Nat.ltb_spec (length (quotes_of hits rec)) 2).
    + injection Hi' as <-. done.
    + apply rbind_Ok in Hi' as (m & Hm%mean_Ok & [= <-]). by rewrite length_map in Hm.
  - intros src Hsrc. destruct (fetch_venues_spec _ _ _ _ _ Hv Hnd src Hsrc) as (raw & Hraw & Hvs).
    exists raw. rewrite He, Es in Hraw. split; [exact Hraw|].
    assert (Hh : forall b, In b (hits src) ↔ In b raw ∧ t0 + Z.of_nat i * 300000000 <= dt_instant (rb_ts b)
                                                < t0 + (Z.of_nat i + 1) * 300000000).
    { intros b. unfold hits. rewrite Hvs, He. rewrite span_In by done. by rewrite Es. }
    split.
    + intros b [_ Hb]%quotes_In. apply last_bar_spec in Hb as [[H1 H2]%Hh Hmax].
      split; [done|]. split; [done|]. intros b' Hr' Hin'. by apply Hmax, Hh.
    + intros (b & Hb). apply Hh in Hb. destruct (last_bar (hits src)) as [b1|] eqn:El.
      * exists b1. by apply quotes_In.
      * destruct (hits src); [done|discriminate El].
Qed.
End Facts.

(** ** Witnesses: three venues, one of them quiet; London on winter time *)
Module Venues.
#[local] Instance winter : LondonTime := { london_offset t := 0 }.
#[local] Instance winter_laws : LondonTimeLaws.
Proof. constructor; intros; [by left|done]. Qed.

Definition bar (minute price : Z) : RawBar := {|
  rb_contract := "BTCUSD"; rb_ts := mk_datetime 2026 1 15 15 minute 0 0 (Some 0); rb_resolution := MIN_5;
  rb_open := dec_of_Z price; rb_high := dec_of_Z price; rb_low := dec_of_Z price;
  rb_close := dec_of_Z price; rb_volume := 1; rb_oi := None; rb_source_id := "venue";
  rb_as_of_iso := mk_datetime 2026 1 15 17 0 0 0 (Some 0); rb_content_bytes_sha := sha256_hex "" |}.

Definition venue (id : string) (bars : list RawBar) : DataSource :=
  DataSource_defaults id T3_AGGREGATOR (fun _ _ _ _ => Ok bars).
Definition kraken : DataSource := venue "kraken" [bar 0 90000; bar 5 90100; bar 50 91000].
Definition coinbase : DataSource := venue "coinbase" [bar 0 90010; bar 5 90300].
Definition gemini : DataSource := venue "gemini" [].
Definition fix_day : date := mk_date 2026 1 15.

Lemma distinct_venues : List.NoDup (map source_id [coinbase; gemini; kraken]).
Proof. cbn. repeat (constructor; [intros Hin; cbn in Hin; repeat destruct Hin as [Hin|Hin]; discriminate Hin || done|]). constructor. Qed.

Lemma brr_order_independent_witness :
  (let! rec := new_BRRReconstructor [kraken; gemini; coinbase] in reconstruct rec "BTCUSD" fix_day)
  = (let! rec := new_BRRReconstructor [coinbase; gemini; kraken] in reconstruct rec "BTCUSD" fix_day).
Proof.
  symmetry. apply (brr_order_independent [coinbase; gemini; kraken]); [|exact distinct_venues].
  apply (NoDup_Permutation_bis).
  - eapply NoDup_map_inv, distinct_venues.
  - simpl. lia.
  - intros x [<-|[<-|[<-|[]]]]; cbn; tauto.
Defined.

Lemma brr_made_of_witness : exists r,
  reconstruct [coinbase; gemini; kraken] "BTCUSD" fix_day = Ok r
  ∧ br_reconstructed_value r = Dec 901025 (-1) ∧ br_num_partitions_valid r = 2%nat
  ∧ 0 < dcoef (br_reconstructed_value r).
Proof.
  eexists. run_as E. split; [reflexivity|]. split; [reflexivity|].
  pose proof (brr_made_of [coinbase; gemini; kraken] "BTCUSD" fix_day _ distinct_venues E) as Hm.
  exact (proj1 (proj2 Hm)).
Defined.
End Venues.
