(* ===== verification/Policies.v ===== *)
(** * futur3/data/verifier_policies.py and futur3/runtime/context.py

    The verifier policy presets with their environment loader, and the runtime context that
    carries the resolved policy. *)

From S2P Require Import Prelude PyDecimal PyText PyTime Types Verifier.

#[local] Open Scope Z_scope.

(** ** verifier_policies.py *)
Definition _SETTLE_EXACT := Policy "settle_exact_v1" fail_closed 2 TIGHT 60 true [].
Definition _TICK_EXACT := Policy "tick_exact_v1" fail_closed 2 TIGHT 15 true [].
Definition _OHLC_MAJORITY_A1 := Policy "ohlc_majority_v1" majority_vote 3 NORMAL 60 true [].
Definition _VOLUME_MAJORITY_A1 := Policy "volume_majority_v1" majority_vote 3 WIDE 60 true [].
Definition _OI_TIER := Policy "oi_tier_v1" highest_tier 1 NORMAL 60 true [].
Definition _OHLC_MAJORITY_C := Policy "ohlc_majority_c_v1" majority_vote 3 NORMAL 60 true [].
Definition _VOLUME_MAJORITY_C := Policy "volume_majority_c_v1" majority_vote 3 WIDE 60 true [].

Definition _phase_a1_per_field : dict string VerifierPolicy :=
  [(FIELD_SETTLE, _SETTLE_EXACT); (FIELD_TICK, _TICK_EXACT); (FIELD_OHLC, _OHLC_MAJORITY_A1);
   (FIELD_VOLUME, _VOLUME_MAJORITY_A1); (FIELD_OI, _OI_TIER)].
Definition _phase_c_per_field : dict string VerifierPolicy :=
  [(FIELD_SETTLE, _SETTLE_EXACT); (FIELD_TICK, _TICK_EXACT); (FIELD_OHLC, _OHLC_MAJORITY_C);
   (FIELD_VOLUME, _VOLUME_MAJORITY_C); (FIELD_OI, _OI_TIER)].

Definition POLICY_PHASE_A1_DEFAULT :=
  Policy "phase_a1_default_v1" fail_closed 3 NORMAL 60 true _phase_a1_per_field.
Definition POLICY_PHASE_B1_SHADOW :=
  Policy "phase_b1_shadow_v1" fail_closed 3 NORMAL 60 true _phase_a1_per_field.
Definition POLICY_PHASE_C_LIVE :=
  Policy "phase_c_live_v1" majority_vote 3 NORMAL 60 true _phase_c_per_field.

Definition VALID_POLICY_NAMES : dict string VerifierPolicy :=
  [("PHASE_A1", POLICY_PHASE_A1_DEFAULT); ("PHASE_B1", POLICY_PHASE_B1_SHADOW);
   ("PHASE_C", POLICY_PHASE_C_LIVE)].
Definition DEFAULT_POLICY_NAME : string := "PHASE_A1".
Definition POLICY_ENV_VAR : string := "FUTUR3_VERIFIER_POLICY".

(** The environment, [os.environ] by default, is an argument. *)
Definition resolve_policy (env : dict string string) : result VerifierPolicy :=
  let raw := dget_or POLICY_ENV_VAR DEFAULT_POLICY_NAME env in
  of_option (dget (str_upper raw) VALID_POLICY_NAMES) UnknownPolicyError.

(** ** context.py *)
Inductive RuntimeMode := BACKTEST | LIVE_PAPER | LIVE_FUNDED.

#[global] Instance RuntimeMode_eq_dec : EqDecision RuntimeMode.
Proof. solve_decision. Defined.

Definition RuntimeMode_value (m : RuntimeMode) : string :=
  match m with
  | BACKTEST => "backtest" | LIVE_PAPER => "live_paper" | LIVE_FUNDED => "live_funded"
  end.

(** [SystemClock], the default clock, reads the time of day: it is the parameter [system_clock]. *)
Record RuntimeContext (Clock : Type) := {
  mode : RuntimeMode;
  verifier_policy : VerifierPolicy;
  clock : Clock;
  degraded_mode_allowed : bool;
}.
Arguments mode {Clock}.
Arguments verifier_policy {Clock}.
Arguments clock {Clock}.
Arguments degraded_mode_allowed {Clock}.

Definition is_backtest {C} (x : RuntimeContext C) : bool := bool_decide (mode x = BACKTEST).
Definition is_live {C} (x : RuntimeContext C) : bool :=
  bool_decide (mode x = LIVE_PAPER) || bool_decide (mode x = LIVE_FUNDED).
Definition is_paper {C} (x : RuntimeContext C) : bool := bool_decide (mode x = LIVE_PAPER).
Definition is_funded {C} (x : RuntimeContext C) : bool := bool_decide (mode x = LIVE_FUNDED).

Definition RuntimeContext_from_env {C} (system_clock : C) (m : RuntimeMode) (clk : option C)
    (env : dict string string) (degraded : bool) : result (RuntimeContext C) :=
  let! policy := resolve_policy env in
  Ok {| mode := m; verifier_policy := policy;
        clock := match clk with Some c => c | None => system_clock end;
        degraded_mode_allowed := degraded |}.

(** ** Facts *)
Lemma resolve_policy_presets env p :
  resolve_policy env = Ok p →
  p = POLICY_PHASE_A1_DEFAULT ∨ p = POLICY_PHASE_B1_SHADOW ∨ p = POLICY_PHASE_C_LIVE.
Proof.
  unfold resolve_policy, of_option. simpl. repeat case_decide; intros Hok; simplify_eq; auto.
Qed.

(** The mode predicates partition the modes. *)
Lemma mode_predicates {C} (x : RuntimeContext C) :
  is_live x = negb (is_backtest x) ∧ is_live x = xorb (is_paper x) (is_funded x).
Proof.
  unfold is_live, is_backtest, is_paper, is_funded. destruct (mode x); split; reflexivity.
Qed.

(** the anchor invariant, end to end.  For whatever policy the environment selects, and so in
    every mode, a settle verified by a verifier running that policy is backed by at least two
    sources of tier T2_MACRO or better, and every such source that answered gave exactly the
    verified value. *)
Theorem env_policy_settle_anchor env p sources v now c t vs :
  resolve_policy env = Ok p → new_MultiSourceVerifier sources p = Ok v →
  verify_settle v now c t = Ok (Verified vs) →
  2 <= vs_n_sources_agreed vs
  ∧ (SourceTier_value (vs_tier_used vs) <= SourceTier_value T2_MACRO)
  ∧ forall s a, In s sources → SourceTier_value (tier s) <= SourceTier_value T2_MACRO →
      latest_settle s c t = Ok (Some a) → deq (st_settle a) (vs_settle vs).
Proof.
  intros Hp Hnew Hv. unfold new_MultiSourceVerifier in Hnew. inv_ok.
  apply verify_settle_verified in Hv as (resp & pend & diff & Hvs). cbn [_policy] in Hvs.
  assert (Hres : resolve_for_field p FIELD_SETTLE = _SETTLE_EXACT).
  { by destruct (resolve_policy_presets _ _ Hp) as [-> | [-> | ->]]. }
  rewrite Hres in Hvs. destruct Hvs as (Hpoll & Hq & Hc & Hn & _ & Htier & _).
  apply poll_spec in Hpoll as (Hin & _ & _). apply settle_consensus_sound in Hc as (_ & _ & Hall).
  split; [by rewrite Hn|]. split.
  - apply (min_list_Z SourceTier_value) in Htier as [Ht _].
    apply in_map_iff in Ht as ([s a] & <- & Hsa). apply Hin, proj1, tier_filter_In in Hsa as [_ He].
    by apply Z.leb_le in He.
  - intros s a Hs Htr Ha. apply Hall. apply (in_map snd resp (s, a)). apply Hin. split; [|done].
    apply tier_filter_In. split; [by apply sort_by_In|]. by apply Z.leb_le.
Qed.

Lemma env_policy_settle_anchor_witness :
  let v := {| _sources := _sources wit_verifier; _policy := POLICY_PHASE_C_LIVE;
              _prev_bar_hash := [] |} in
  exists vs, verify_settle v wit_ts "ESM26" wit_ts = Ok (Verified vs) ∧ 2 <= vs_n_sources_agreed vs.
Proof.
  intros v. eexists. run_as E.
  apply (env_policy_settle_anchor [(POLICY_ENV_VAR, "phase_c"%string)] POLICY_PHASE_C_LIVE
           wit_sources v wit_ts "ESM26" wit_ts).
  - vm_compute. reflexivity.
  - vm_compute. reflexivity.
  - exact E.
Defined.
