(* ===== verification/MockBroker.v ===== *)
(** * futur3/execution/adapters/mock_broker.py: the backtest broker

    The in-memory broker as a state record and one method per operation; what a method changed
    before it raised stays changed.  The injected clock is a function of the number of times it was
    read.  Dicts keep insertion order, so [advance] visits the orders as the source does. *)

From Stdlib Require Import QArith Qabs Lqa.
From S2P Require Import Prelude PyDecimal PyText PyTime Types Broker PyFloat RiskManager Slippage Verifier.

#[local] Open Scope Z_scope.

Record MockBroker := {
  _starting_equity : decimal;
  _account_id : string;
  _block_all_trades : bool;
  _restrict_supported_to : option (list OrderType);
  _clock_now_fn : nat -> datetime;
  _clock_reads : nat;
  _orders : dict string Order;
  _cancelled : list string;
  _filled_qty : dict string Z;
  _events : list OrderEvent;
  _positions : dict ContractSymbol Position;
  _realized_pnl_today : decimal;
  _trade_pnls : list decimal;
  _open_trade_pnl : dict ContractSymbol decimal;
  _next_order_id_seq : Z;
}.

(** ** Assignments to the fields *)
Definition set_clock_reads n s := {|
  _starting_equity := _starting_equity s; _account_id := _account_id s;
  _block_all_trades := _block_all_trades s; _restrict_supported_to := _restrict_supported_to s;
  _clock_now_fn := _clock_now_fn s; _clock_reads := n; _orders := _orders s;
  _cancelled := _cancelled s; _filled_qty := _filled_qty s; _events := _events s;
  _positions := _positions s; _realized_pnl_today := _realized_pnl_today s;
  _trade_pnls := _trade_pnls s; _open_trade_pnl := _open_trade_pnl s;
  _next_order_id_seq := _next_order_id_seq s |}.
Definition set_book orders cancelled filled seq s := {|
  _starting_equity := _starting_equity s; _account_id := _account_id s;
  _block_all_trades := _block_all_trades s; _restrict_supported_to := _restrict_supported_to s;
  _clock_now_fn := _clock_now_fn s; _clock_reads := _clock_reads s; _orders := orders;
  _cancelled := cancelled; _filled_qty := filled; _events := _events s;
  _positions := _positions s; _realized_pnl_today := _realized_pnl_today s;
  _trade_pnls := _trade_pnls s; _open_trade_pnl := _open_trade_pnl s;
  _next_order_id_seq := seq |}.
Definition set_events evs s := {|
  _starting_equity := _starting_equity s; _account_id := _account_id s;
  _block_all_trades := _block_all_trades s; _restrict_supported_to := _restrict_supported_to s;
  _clock_now_fn := _clock_now_fn s; _clock_reads := _clock_reads s; _orders := _orders s;
  _cancelled := _cancelled s; _filled_qty := _filled_qty s; _events := evs;
  _positions := _positions s; _realized_pnl_today := _realized_pnl_today s;
  _trade_pnls := _trade_pnls s; _open_trade_pnl := _open_trade_pnl s;
  _next_order_id_seq := _next_order_id_seq s |}.
Definition set_ledger positions realized trades open_pnl s := {|
  _starting_equity := _starting_equity s; _account_id := _account_id s;
  _block_all_trades := _block_all_trades s; _restrict_supported_to := _restrict_supported_to s;
  _clock_now_fn := _clock_now_fn s; _clock_reads := _clock_reads s; _orders := _orders s;
  _cancelled := _cancelled s; _filled_qty := _filled_qty s; _events := _events s;
  _positions := positions; _realized_pnl_today := realized;
  _trade_pnls := trades; _open_trade_pnl := open_pnl;
  _next_order_id_seq := _next_order_id_seq s |}.

Definition set_orders d s := set_book d (_cancelled s) (_filled_qty s) (_next_order_id_seq s) s.
Definition set_cancelled l s := set_book (_orders s) l (_filled_qty s) (_next_order_id_seq s) s.
Definition set_filled_qty d s := set_book (_orders s) (_cancelled s) d (_next_order_id_seq s) s.
Definition set_positions d s :=
  set_ledger d (_realized_pnl_today s) (_trade_pnls s) (_open_trade_pnl s) s.
Definition set_realized r s := set_ledger (_positions s) r (_trade_pnls s) (_open_trade_pnl s) s.
Definition set_trade_pnls l s :=
  set_ledger (_positions s) (_realized_pnl_today s) l (_open_trade_pnl s) s.
Definition set_open_trade_pnl d s :=
  set_ledger (_positions s) (_realized_pnl_today s) (_trade_pnls s) d s.

Definition new_MockBroker (starting_equity : decimal) (account_id : string) (block_all_trades : bool)
    (restrict_supported_to : option (list OrderType)) (clock_now_fn : nat -> datetime)
    : result MockBroker :=
  guard! dleb starting_equity d0 else ValueError in
  guard! String.eqb account_id "" else ValueError in
  Ok {| _starting_equity := starting_equity; _account_id := account_id;
        _block_all_trades := block_all_trades; _restrict_supported_to := restrict_supported_to;
        _clock_now_fn := clock_now_fn; _clock_reads := 0; _orders := []; _cancelled := [];
        _filled_qty := []; _events := []; _positions := []; _realized_pnl_today := d0;
        _trade_pnls := []; _open_trade_pnl := []; _next_order_id_seq := 0 |}.

(** ** Sync interface *)
Definition order_count (s : MockBroker) : Z :=
  Z.of_nat (length (_orders s)) - Z.of_nat (length (_cancelled s)).

Definition Mock_supported_order_types (s : MockBroker) : list OrderType :=
  match _restrict_supported_to s with Some l => l | None => all_order_types end.

Definition Mock_is_trade_allowed (contract : ContractSymbol) (side : Side) (quantity : Z)
    : M MockBroker (bool * option string) :=
  s <- get ;;
  if quantity <=? 0 then ret (false, Some "MockBroker: quantity must be > 0"%string)
  else if _block_all_trades s
  then ret (false, Some "MockBroker: block_all_trades=True (test config)"%string)
  else ret (true, None).

(** [x or default] of an optional string: the empty string is false. *)
Definition or_default (o : option string) (dflt : string) : string :=
  match o with Some x => if String.eqb x "" then dflt else x | None => dflt end.

(** ** Events *)
Definition _now : M MockBroker datetime :=
  s <- get ;;
  modify (set_clock_reads (S (_clock_reads s))) ;;
  ret (_clock_now_fn s (_clock_reads s)).

Definition _emit_event (broker_order_id client_order_id : string) (contract : ContractSymbol)
    (event_type : OrderEventType) (fill_price : option decimal) (fill_quantity : option Z)
    (cumulative_filled remaining_quantity : Z) : M MockBroker OrderEvent :=
  ts <- _now ;;
  let payload := str_join "||" [broker_order_id; OrderEventType_str event_type;
                                str_opt str_decimal fill_price; str_opt str_int fill_quantity;
                                dt_iso ts] in
  event <- lift (OrderEvent_post_init {|
    ev_broker_order_id := broker_order_id; ev_client_order_id := client_order_id;
    ev_contract := contract; ev_event_type := event_type; ev_fill_price := fill_price;
    ev_fill_quantity := fill_quantity; ev_cumulative_filled := cumulative_filled;
    ev_remaining_quantity := remaining_quantity; ev_ts_utc := ts;
    ev_raw_broker_payload_sha := sha256_hex payload |}) ;;
  modify (fun s => set_events (_events s ++ [event]) s) ;;
  ret event.

(** ** Orders *)
Definition order_id (seq : Z) : string := String.append "mock-" (str_pad 6 seq).

Definition Mock_place_order (order : Order) : M MockBroker string :=
  s <- get ;;
  lift (reject (negb (ot_mem (o_order_type order) (Mock_supported_order_types s)))
          OrderTypeUnsupportedError) ;;
  let seq := _next_order_id_seq s + 1 in
  let id := order_id seq in
  modify (fun s => set_book (dset id order (_orders s)) (_cancelled s)
                     (dset id 0 (_filled_qty s)) seq s) ;;
  let client_id := or_default (o_client_order_id order) (String.append "anon-" (str_pad 6 seq)) in
  _emit_event id client_id (o_contract order) submitted None None 0 (o_quantity order) ;;
  _emit_event id client_id (o_contract order) ack None None 0 (o_quantity order) ;;
  ret id.

Definition str_mem (x : string) (l : list string) : bool := existsb (String.eqb x) l.

(** [self._orders[id]] and [self._filled_qty[id]]; a missing key is a [KeyError] in the source,
    which the callers' membership check excludes. *)
Definition order_of (id : string) (s : MockBroker) : result Order :=
  of_option (dget id (_orders s)) BrokerError.
Definition filled_of (id : string) (s : MockBroker) : Z := dget_or id 0 (_filled_qty s).

Definition Mock_cancel_order (id : string) : M MockBroker unit :=
  s <- get ;;
  order <- lift (order_of id s) ;;
  lift (reject (str_mem id (_cancelled s)) BrokerError) ;;
  let client_id := or_default (o_client_order_id order) "anon" in
  modify (fun s => set_cancelled (_cancelled s ++ [id]) s) ;;
  let filled := filled_of id s in
  _emit_event id client_id (o_contract order) cancelled None None filled
    (Z.max 0 (o_quantity order - filled)) ;;
  ret tt.

Definition opt_or {A} (o : option A) (dflt : A) : A := match o with Some x => x | None => dflt end.
Definition opt_orelse {A} (o dflt : option A) : option A :=
  match o with Some x => Some x | None => dflt end.

Definition Mock_modify_order (id : string) (new_limit_price new_stop_price : option decimal)
    (new_quantity : option Z) : M MockBroker unit :=
  lift (reject (is_none new_limit_price && is_none new_stop_price && is_none new_quantity)
          ValueError) ;;
  s <- get ;;
  order <- lift (order_of id s) ;;
  lift (reject (str_mem id (_cancelled s)) BrokerError) ;;
  new_order <- lift (Order_post_init {|
    o_contract := o_contract order; o_side := o_side order;
    o_quantity := opt_or new_quantity (o_quantity order);
    o_order_type := o_order_type order;
    o_limit_price := opt_orelse new_limit_price (o_limit_price order);
    o_stop_price := opt_orelse new_stop_price (o_stop_price order);
    o_duration := o_duration order; o_parent_order_id := o_parent_order_id order;
    o_oco_group_id := o_oco_group_id order; o_client_order_id := o_client_order_id order |}) ;;
  modify (fun s => set_orders (dset id new_order (_orders s)) s) ;;
  let filled := filled_of id s in
  let client_id := or_default (o_client_order_id order) "anon" in
  _emit_event id client_id (o_contract order) modified None None filled
    (Z.max 0 (o_quantity new_order - filled)) ;;
  ret tt.

(** ** Snapshots *)
Definition Mock_get_positions : M MockBroker (list Position) :=
  s <- get ;;
  ret (sort_by (fun p q => String.leb (p_contract p) (p_contract q)) (dvalues (_positions s))).

Definition Mock_get_account_metrics : M MockBroker AccountMetrics :=
  s <- get ;;
  let unrealized := dsum (map p_unrealized_pnl (dvalues (_positions s))) in
  let margin_used := dsum (map p_margin_used (dvalues (_positions s))) in
  let cash := dadd (_starting_equity s) (_realized_pnl_today s) in
  let equity := dadd cash unrealized in
  let margin_available := dmax d0 (dsub equity margin_used) in
  leverage_used <- lift (if dltb d0 equity then ddiv margin_used equity else Ok d0) ;;
  lift (AccountMetrics_post_init {|
    am_account_id := _account_id s; am_equity := equity; am_cash := cash;
    am_margin_used := margin_used; am_margin_available := margin_available;
    am_leverage_used := leverage_used; am_realized_pnl_today := _realized_pnl_today s;
    am_unrealized_pnl := unrealized; am_trailing_drawdown_remaining := None;
    am_consistency_rule_status := None; am_max_position_size_allowed := None |}).

(** ** Fills *)

(** [self._positions[contract] = Position(...)]. *)
Definition set_position (contract : ContractSymbol) (quantity : Z)
    (avg_entry_price realized_pnl_today margin_used : decimal) : M MockBroker unit :=
  p <- lift (Position_post_init {|
    p_contract := contract; p_quantity := quantity; p_avg_entry_price := avg_entry_price;
    p_unrealized_pnl := d0; p_realized_pnl_today := realized_pnl_today;
    p_margin_used := margin_used |}) ;;
  modify (fun s => set_positions (dset contract p (_positions s)) s).

(** Realised PnL per closed quantity, in account currency. *)
Definition realized_delta (old_qty closing_qty : Z) (avg fill_price mult : decimal) : decimal :=
  dmul (dmul (if 0 <? old_qty then dsub fill_price avg else dsub avg fill_price)
             (dec_of_Z closing_qty)) mult.

(** Book the open bet of [contract] as a closed trade. *)
Definition book_trade (contract : ContractSymbol) : M MockBroker unit :=
  modify (fun s => set_ledger (_positions s) (_realized_pnl_today s)
                     (_trade_pnls s ++ [dget_or contract d0 (_open_trade_pnl s)])
                     (dpop contract (_open_trade_pnl s)) s).

Definition _apply_fill_to_position (contract : ContractSymbol) (side : Side) (quantity : Z)
    (fill_price : decimal) (is_roll : bool) : M MockBroker unit :=
  let delta := match side with BUY => quantity | SELL => - quantity end in
  s <- get ;;
  match dget contract (_positions s) with
  | None => set_position contract delta fill_price d0 d0
  | Some existing =>
      if p_quantity existing =? 0
      then set_position contract delta fill_price (p_realized_pnl_today existing) d0
      else
        let old_qty := p_quantity existing in
        let new_qty := old_qty + delta in
        if ((0 <? old_qty) && (0 <? delta)) || ((old_qty <? 0) && (delta <? 0)) then
          let old_notional := dmul (p_avg_entry_price existing) (dec_of_Z (Z.abs old_qty)) in
          let new_notional := dmul fill_price (dec_of_Z (Z.abs delta)) in
          new_avg <- lift (ddiv (dadd old_notional new_notional) (dec_of_Z (Z.abs new_qty))) ;;
          set_position contract new_qty new_avg (p_realized_pnl_today existing)
            (p_margin_used existing)
        else
          let closing_qty := Z.min (Z.abs old_qty) (Z.abs delta) in
          mult <- lift (multiplier_for contract) ;;
          let rd := realized_delta old_qty closing_qty (p_avg_entry_price existing) fill_price mult in
          modify (fun s => set_realized (dadd (_realized_pnl_today s) rd) s) ;;
          let cumulative_realized := dadd (p_realized_pnl_today existing) rd in
          modify (fun s => set_open_trade_pnl
                    (dset contract (dadd (dget_or contract d0 (_open_trade_pnl s)) rd)
                       (_open_trade_pnl s)) s) ;;
          if new_qty =? 0 then
            (if is_roll then ret tt else book_trade contract) ;;
            set_position contract 0 d0 cumulative_realized d0
          else if negb (Bool.eqb (0 <? old_qty) (0 <? new_qty)) then
            book_trade contract ;;
            set_position contract new_qty fill_price cumulative_realized (p_margin_used existing)
          else
            set_position contract new_qty (p_avg_entry_price existing) cumulative_realized
              (p_margin_used existing)
  end.

Definition fill_order (id : string) (fill_price : decimal) (fill_quantity : option Z)
    : M MockBroker OrderEvent :=
  s <- get ;;
  order <- lift (order_of id s) ;;
  lift (reject (str_mem id (_cancelled s)) BrokerError) ;;
  lift (reject (dleb fill_price d0) ValueError) ;;
  let already_filled := filled_of id s in
  let remaining := o_quantity order - already_filled in
  lift (reject (remaining <=? 0) BrokerError) ;;
  let actual_fill_qty := opt_or fill_quantity remaining in
  lift (reject (actual_fill_qty <=? 0) ValueError) ;;
  lift (reject (remaining <? actual_fill_qty) BrokerError) ;;
  let new_filled := already_filled + actual_fill_qty in
  modify (fun s => set_filled_qty (dset id new_filled (_filled_qty s)) s) ;;
  let new_remaining := o_quantity order - new_filled in
  _apply_fill_to_position (o_contract order) (o_side order) actual_fill_qty fill_price false ;;
  let client_id := or_default (o_client_order_id order) "anon" in
  _emit_event id client_id (o_contract order)
    (if new_remaining =? 0 then filled else partial_fill) (Some fill_price) (Some actual_fill_qty)
    new_filled new_remaining.

(** ** Backtest auto-fill *)
Definition _backtest_fill_price (order : Order) (bar : VerifiedBar) : result (option decimal) :=
  match o_order_type order with
  | MKT => Ok (Some (vb_open bar))
  | LMT =>
      let! limit := of_option (o_limit_price order) AssertionError in
      let crossed := match o_side order with
                     | BUY => dleb (vb_low bar) limit
                     | SELL => dleb limit (vb_high bar)
                     end in
      Ok (if crossed then Some limit else None)
  | STP =>
      let! stop := of_option (o_stop_price order) AssertionError in
      let triggered := match o_side order with
                       | BUY => dleb stop (vb_high bar)
                       | SELL => dleb (vb_low bar) stop
                       end in
      Ok (if triggered then Some stop else None)
  | _ => Ok None
  end.

Section Advance.
Context {SM : Type} `{SlippageModel SM}.

(** The price an order executes at on a bar, slippage included; [None] when it does not fill. *)
Definition execution_price (slippage_model : option SM) (order : Order) (bar : VerifiedBar)
  : result (option decimal) :=
  let! fill_price := _backtest_fill_price order bar in
  match fill_price, slippage_model with
  | Some p, Some m =>
    if ot_mem (o_order_type order) [MKT; STP]
    then let! p' := apply_slippage m p (o_side order) (o_quantity order) (o_contract order)
                      (vb_ts bar) in Ok (Some p')
    else Ok (Some p)
  | p, _ => Ok p
  end.

(** One iteration of [advance]'s loop. *)
Definition advance_order (slippage_model : option SM) (bar : VerifiedBar)
  (events : list OrderEvent) (id : string) : M MockBroker (list OrderEvent) :=
  s <- get ;;
  if str_mem id (_cancelled s) then ret events
  else
  order <- lift (order_of id s) ;;
  if negb (String.eqb (o_contract order) (vb_contract bar)) then ret events
  else if o_quantity order <=? filled_of id s then ret events
  else
    fill_price <- lift (execution_price slippage_model order bar) ;;
    match fill_price with
    | None => ret events
    | Some p => e <- fill_order id p None ;; ret (events ++ [e])
    end.

Definition advance (bar : VerifiedBar) (slippage_model : option SM)
  : M MockBroker (list OrderEvent) :=
  s <- get ;;
  mfold (advance_order slippage_model bar) (dkeys (_orders s)) [].
End Advance.

Definition roll_position (front back : ContractSymbol) (front_fill back_fill : decimal)
    : M MockBroker Z :=
  s <- get ;;
  match dget front (_positions s) with
  | None => ret 0
  | Some existing =>
      if p_quantity existing =? 0 then ret 0
      else
        let qty := p_quantity existing in
        let close_side := if 0 <? qty then SELL else BUY in
        let open_side := if 0 <? qty then BUY else SELL in
        _apply_fill_to_position front close_side (Z.abs qty) front_fill true ;;
        _apply_fill_to_position back open_side (Z.abs qty) back_fill true ;;
        s <- get ;;
        let carried := dget_or front d0 (_open_trade_pnl s) in
        modify (fun s => set_open_trade_pnl (dpop front (_open_trade_pnl s)) s) ;;
        (if deqb carried d0 then ret tt
         else modify (fun s => set_open_trade_pnl
                       (dset back (dadd (dget_or back d0 (_open_trade_pnl s)) carried)
                          (_open_trade_pnl s)) s)) ;;
        ret qty
  end.

Definition reset : M MockBroker unit :=
  modify (fun s => {|
    _starting_equity := _starting_equity s; _account_id := _account_id s;
    _block_all_trades := _block_all_trades s; _restrict_supported_to := _restrict_supported_to s;
    _clock_now_fn := _clock_now_fn s; _clock_reads := _clock_reads s; _orders := [];
    _cancelled := []; _filled_qty := []; _events := []; _positions := [];
    _realized_pnl_today := d0; _trade_pnls := []; _open_trade_pnl := [];
    _next_order_id_seq := 0 |}).

#[global] Instance MockBroker_adapter : BrokerAdapter MockBroker := {
  place_order := Mock_place_order;
  cancel_order := Mock_cancel_order;
  modify_order := Mock_modify_order;
  get_positions := Mock_get_positions;
  get_account_metrics := Mock_get_account_metrics;
  is_trade_allowed := Mock_is_trade_allowed;
  supported_order_types := Mock_supported_order_types;
}.

#[global] Instance MockBroker_laws : BrokerLaws MockBroker.
Proof.
  constructor.
  - intros o b Hs. exists OrderTypeUnsupportedError. split; [|done].
    unfold place_order, MockBroker_adapter, Mock_place_order, bind, get, lift.
    change (supported_order_types b) with (Mock_supported_order_types b) in Hs. by rewrite Hs.
  - done.
  - intros c sd q b Hq. unfold is_trade_allowed, MockBroker_adapter, Mock_is_trade_allowed, bind, get.
    apply Z.leb_le in Hq. rewrite Hq. by eexists.
Qed.

(** ** Facts: the ledger *)

(** The signed net quantity held in a contract. *)
Definition net (s : MockBroker) (c : ContractSymbol) : Z :=
  match dget c (_positions s) with Some p => p_quantity p | None => 0 end.

Definition position_ok (c : ContractSymbol) (p : Position) : Prop :=
  p_contract p = c ∧ Position_wf p ∧ p_margin_used p = d0 ∧ p_unrealized_pnl p = d0.

Definition positions_wf (s : MockBroker) : Prop :=
  List.NoDup (dkeys (_positions s))
  ∧ (forall c p, dget c (_positions s) = Some p → position_ok c p)
  ∧ List.NoDup (dkeys (_open_trade_pnl s)).

(** Only ledger fields differ. *)
Definition ledger_of (s s' : MockBroker) : Prop :=
  s' = set_ledger (_positions s') (_realized_pnl_today s') (_trade_pnls s') (_open_trade_pnl s') s.

Lemma ledger_of_refl s : ledger_of s s.
Proof. by destruct s. Qed.
Lemma ledger_of_trans a b c : ledger_of a b → ledger_of b c → ledger_of a c.
Proof. unfold ledger_of. intros -> ->. reflexivity. Qed.

Lemma positions_wf_set s c p :
  positions_wf s → position_ok c p → positions_wf (set_positions (dset c p (_positions s)) s).
Proof.
  intros (Hnd & Hall & Hopen) Hp. split; simpl; [by apply dkeys_dset_NoDup|]. split; [|done].
  intros c' p'. rewrite dget_dset. case_decide; [intros [= <-]; by subst|apply Hall].
Qed.

Lemma positions_wf_open s s' :
  positions_wf s → _positions s' = _positions s → List.NoDup (dkeys (_open_trade_pnl s')) →
  positions_wf s'.
Proof. intros (Hnd & Hall & _) Hp Ho. unfold positions_wf. by rewrite Hp. Qed.

Lemma set_position_ok c q avg r s :
  (q ≠ 0 → 0 < dcoef avg) →
  exists p, set_position c q avg r d0 s = (set_positions (dset c p (_positions s)) s, Ok tt)
    ∧ position_ok c p ∧ p_quantity p = q ∧ p_avg_entry_price p = avg
    ∧ p_realized_pnl_today p = r.
Proof.
  intros Hq. set (p := {| p_contract := c; p_quantity := q; p_avg_entry_price := avg;
    p_unrealized_pnl := d0; p_realized_pnl_today := r; p_margin_used := d0 |}).
  assert (Hwf : Position_wf p) by (split; [by simpl|exact Hq]).
  exists p. unfold set_position, bind, lift. fold p.
  rewrite (proj2 (Position_post_init_Ok p p)) by done. done.
Qed.

(** The average entry price of an enlarged position is positive. *)
Lemma wac_ok avg price a b n :
  0 < dcoef avg → 0 < dcoef price → 0 < a → 0 < b → 0 < n →
  exists q, ddiv (dadd (dmul avg (dec_of_Z a)) (dmul price (dec_of_Z b))) (dec_of_Z n) = Ok q
            ∧ 0 < dcoef q.
Proof.
  intros Ha Hp Hza Hzb Hn.
  assert (Hs : 0 < dcoef (dadd (dmul avg (dec_of_Z a)) (dmul price (dec_of_Z b)))).
  { apply dadd_pos; [by apply dmul_pos|]. apply Z.lt_le_incl. by apply dmul_pos. }
  revert Hs. generalize (dadd (dmul avg (dec_of_Z a)) (dmul price (dec_of_Z b))). intros sum Hs.
  destruct (ddiv_ok sum (dec_of_Z n)) as [q Hq]; [simpl; lia|]. exists q. split; [exact Hq|].
  by apply (ddiv_pos sum (dec_of_Z n)).
Qed.

(** One fill either changes nothing but raises - the contract's multiplier is unknown - or moves
    the net quantity of its contract by the signed fill and touches the ledger only. *)
Lemma apply_fill_spec c side q price roll s :
  positions_wf s → 0 < q → 0 < dcoef price →
  let '(s', r) := _apply_fill_to_position c side q price roll s in
  match r with
  | Err e => s' = s ∧ multiplier_for c = Err e
  | Ok _ => ledger_of s s' ∧ positions_wf s'
            ∧ forall c', net s' c' = net s c' + (if decide (c' = c) then signed_qty side q else 0)
  end.
Proof.
  intros Hwf Hq Hprice. unfold _apply_fill_to_position, bind, get. cbv zeta.
  set (delta := match side with BUY => q | SELL => - q end).
  assert (Hd : delta = signed_qty side q) by done. rewrite <- Hd.
  assert (Hd0 : delta ≠ 0) by (rewrite Hd; destruct side; simpl; lia).
  assert (Hset : forall s1 q' avg r, ledger_of s s1 → positions_wf s1 →
            (forall c', net s1 c' = net s c') → q' = net s c + delta → (q' ≠ 0 → 0 < dcoef avg) →
            let '(s', r) := set_position c q' avg r d0 s1 in
            match r with
            | Err e => s' = s ∧ multiplier_for c = Err e
            | Ok _ => ledger_of s s' ∧ positions_wf s'
                ∧ forall c', net s' c' = net s c' + (if decide (c' = c) then delta else 0)
            end).
  { intros s1 q' avg r Hl Hwf1 Hnet Hq' Havg.
    destruct (set_position_ok c q' avg r s1 Havg) as (p & -> & Hp & Hpq & _).
    split; [eapply ledger_of_trans; [exact Hl|done]|]. split; [by apply positions_wf_set|].
    intros c'. unfold net at 1. simpl. rewrite dget_dset. case_decide; subst; [lia|].
    specialize (Hnet c'). unfold net in Hnet at 1. lia. }
  destruct (dget c (_positions s)) as [ex|] eqn:Ec.
  2: { apply Hset; [apply ledger_of_refl|done|done|unfold net; by rewrite Ec|done]. }
  destruct (proj1 (proj2 Hwf) _ _ Ec) as (_ & [_ Havg] & Hmu & _).
  assert (Hnet : net s c = p_quantity ex) by (unfold net; by rewrite Ec).
  rewrite Hmu.
  destruct (Z.eqb_spec (p_quantity ex) 0) as [E0|E0].
  { apply Hset; [apply ledger_of_refl|done|done|lia|done]. }
  specialize (Havg E0). pose proof (proj2 (proj2 Hwf)) as Hopen. destruct (_ || _) eqn:Edir.
  - destruct (wac_ok (p_avg_entry_price ex) price (Z.abs (p_quantity ex)) (Z.abs delta)
                (Z.abs (p_quantity ex + delta))) as (a & Ha & Hapos); [done|done|lia..|].
    unfold lift. rewrite Ha. apply Hset; [apply ledger_of_refl|done|done|lia|done].
  - unfold lift. destruct (multiplier_for c) as [mult|e]; [|done]. unfold modify.
    destruct (Z.eqb_spec (p_quantity ex + delta) 0) as [En|En].
    + destruct roll; unfold ret, book_trade, modify; cbv beta iota;
        (apply Hset; [done|by apply (positions_wf_open s); simpl; auto using dkeys_dset_NoDup, dkeys_dpop_NoDup
                     |done|lia|lia]).
    + destruct (negb _); unfold book_trade, modify; cbv beta iota;
        (apply Hset; [done|by apply (positions_wf_open s); simpl; auto using dkeys_dset_NoDup, dkeys_dpop_NoDup
                     |done|lia|done]).
Qed.

(** ** Facts: the invariant *)

Record mock_wf (s : MockBroker) : Prop := {
  wf_clock : forall n, dt_off (_clock_now_fn s n) = Some 0;
  wf_orders : List.NoDup (dkeys (_orders s));
  wf_order : forall id o, dget id (_orders s) = Some o → Order_wf o;
  wf_keys : dkeys (_filled_qty s) = dkeys (_orders s);
  wf_filled : forall id f, dget id (_filled_qty s) = Some f → 0 <= f;
  wf_cancelled : List.NoDup (_cancelled s) ∧ incl (_cancelled s) (dkeys (_orders s));
  wf_ids : forall id, In id (dkeys (_orders s)) →
             exists k, 1 <= k <= _next_order_id_seq s ∧ id = order_id k;
  wf_seq : 0 <= _next_order_id_seq s;
  wf_positions : positions_wf s;
}.

Lemma order_id_inj a b : 0 <= a → 0 <= b → order_id a = order_id b → a = b.
Proof. intros Ha Hb H. apply string_append_inj_r in H. by apply str_pad_inj in H. Qed.

(** The identifier of the next order is new. *)
Lemma next_id_fresh s : mock_wf s → dget (order_id (_next_order_id_seq s + 1)) (_orders s) = None.
Proof.
  intros Hwf. apply dget_None. intros (k & Hk & E)%(wf_ids _ Hwf).
  pose proof (wf_seq _ Hwf). apply order_id_inj in E; lia.
Qed.

Lemma filled_of_nonneg s id : mock_wf s → 0 <= filled_of id s.
Proof.
  intros Hwf. unfold filled_of, dget_or. destruct (dget id _) eqn:E; [|lia].
  by eapply (wf_filled _ Hwf).
Qed.

(** What an emitted event does to the state. *)
Definition with_event (e : OrderEvent) (s : MockBroker) : MockBroker :=
  set_events (_events s ++ [e]) (set_clock_reads (S (_clock_reads s)) s).

Lemma emit_ok id cid c t price qty cum rem s :
  (forall n, dt_off (_clock_now_fn s n) = Some 0) →
  0 <= cum → 0 <= rem → (forall q, qty = Some q → 0 <= q) →
  exists e, _emit_event id cid c t price qty cum rem s = (with_event e s, Ok e)
    ∧ ev_broker_order_id e = id ∧ ev_contract e = c ∧ ev_event_type e = t
    ∧ ev_fill_price e = price ∧ ev_fill_quantity e = qty
    ∧ ev_cumulative_filled e = cum ∧ ev_remaining_quantity e = rem.
Proof.
  intros Hclock Hcum Hrem Hq. unfold _emit_event, _now, bind, get, modify, ret, lift. cbv beta iota.
  unfold OrderEvent_post_init. cbn [ev_ts_utc ev_cumulative_filled ev_remaining_quantity
    ev_fill_quantity ev_raw_broker_payload_sha]. rewrite Hclock, hex_length_sha. simpl.
  rewrite (proj2 (Z.ltb_ge _ _) Hcum), (proj2 (Z.ltb_ge _ _) Hrem). simpl.
  replace (match qty with Some q => q <? 0 | None => false end) with false.
  2: { destruct qty as [q|]; [|done]. symmetry. apply Z.ltb_ge. auto. }
  simpl. eexists. split; [reflexivity|]. done.
Qed.

Lemma mock_wf_with_event e s : mock_wf s → mock_wf (with_event e s).
Proof. intros [? ? ? ? ? ? ? ? ?]. by constructor. Qed.

Lemma mock_wf_ledger s s' : mock_wf s → ledger_of s s' → positions_wf s' → mock_wf s'.
Proof. intros [? ? ? ? ? ? ? ? ?] E Hp. rewrite E in *. by constructor. Qed.

Lemma order_of_Ok id s o : order_of id s = Ok o ↔ dget id (_orders s) = Some o.
Proof. unfold order_of. destruct (dget id _); simpl; naive_solver. Qed.

Lemma dget_filled s id o : mock_wf s → dget id (_orders s) = Some o →
  dget id (_filled_qty s) = Some (filled_of id s).
Proof.
  intros Hwf Ho. unfold filled_of, dget_or. destruct (dget id (_filled_qty s)) eqn:E; [done|].
  apply dget_None in E. rewrite (wf_keys _ Hwf), dkeys_In, Ho in E. by destruct E.
Qed.

Lemma mock_wf_set_filled s id f o :
  mock_wf s → dget id (_orders s) = Some o → 0 <= f →
  mock_wf (set_filled_qty (dset id f (_filled_qty s)) s).
Proof.
  intros Hwf Ho Hf. pose proof (dget_filled _ _ _ Hwf Ho) as Hget.
  destruct Hwf as [? ? ? Hkeys Hfilled ? ? ? ?]. constructor; simpl; try done.
  - rewrite dkeys_dset_mem; [done|by eexists].
  - intros id' f'. rewrite dget_dset. case_decide; [intros [= <-]; done|apply Hfilled].
Qed.

(** A fill in full: what a returning [fill_order] did. *)
Lemma fill_order_spec id price qty s s' e :
  mock_wf s → fill_order id price qty s = (s', Ok e) →
  exists o s1, dget id (_orders s) = Some o ∧ str_mem id (_cancelled s) = false
    ∧ 0 < dcoef price
    ∧ let q := opt_or qty (o_quantity o - filled_of id s) in
      0 < q <= o_quantity o - filled_of id s
    ∧ ledger_of (set_filled_qty (dset id (filled_of id s + q) (_filled_qty s)) s) s1
    ∧ positions_wf s1
    ∧ (forall c, net s1 c = net s c + if decide (c = o_contract o)
                                      then signed_qty (o_side o) q else 0)
    ∧ s' = with_event e s1
    ∧ ev_broker_order_id e = id ∧ ev_contract e = o_contract o
    ∧ ev_event_type e = (if o_quantity o - (filled_of id s + q) =? 0 then filled else partial_fill)
    ∧ ev_fill_price e = Some price ∧ ev_fill_quantity e = Some q
    ∧ ev_cumulative_filled e = filled_of id s + q
    ∧ ev_remaining_quantity e = o_quantity o - (filled_of id s + q).
Proof.
  intros Hwf H. unfold fill_order in H. autorewrite with dec in H. inv_ok.
  match goal with H : order_of id _ = Ok ?x |- _ => rename x into o; apply order_of_Ok in H as Ho end.
  match goal with H : str_mem _ _ = false |- _ => rename H into Hc end.
  match goal with H : _apply_fill_to_position _ _ _ _ _ _ = _ |- _ => rename H into Hfill end.
  match goal with H : _emit_event _ _ _ _ _ _ _ _ _ = _ |- _ => rename H into Hemit end.
  match type of Hfill with _ = (?x, _) => rename x into s1 end.
  set (q := opt_or qty (o_quantity o - filled_of id _)) in *.
  match type of Hfill with _ ?t = _ => set (s0 := t) in *; pose proof (apply_fill_spec (o_contract o)
    (o_side o) q price false s0) as Hspec end.
  rewrite Hfill in Hspec. destruct Hspec as (Hl & Hp & Hnet); [apply (wf_positions _ Hwf)|lia|lia|].
  exists o, s1. fold q.
  pose proof (filled_of_nonneg _ id Hwf) as Hnn.
  match type of Hemit with _emit_event ?a ?b ?c ?d ?e ?f ?g ?h _ = _ =>
    destruct (emit_ok a b c d e f g h s1) as (e' & He & Hfields) end.
  { intros n. rewrite Hl. apply (wf_clock _ Hwf). }
  { lia. }
  { lia. }
  { intros ? [= <-]. lia. }
  rewrite He in Hemit. injection Hemit as <- <-.
  split; [done|]. split; [done|]. split; [lia|]. split; [lia|].
  split; [exact Hl|]. split; [exact Hp|]. split; [exact Hnet|]. split; [done|]. exact Hfields.
Qed.

(** A raising [fill_order] changed nothing, except that a closing fill in a contract whose
    multiplier is unknown has already advanced the filled quantity. *)
Lemma fill_order_err id price qty s s' err :
  mock_wf s → fill_order id price qty s = (s', Err err) →
  s' = s ∨ exists o q, dget id (_orders s) = Some o ∧ multiplier_for (o_contract o) = Err err
      ∧ 0 < q ∧ s' = set_filled_qty (dset id (filled_of id s + q) (_filled_qty s)) s.
Proof.
  intros Hwf H. unfold fill_order, bind, get, lift, reject in H. autorewrite with dec in H.
  destruct (order_of id s) as [o|e0] eqn:Ho; [apply order_of_Ok in Ho|left; congruence].
  destruct (str_mem id (_cancelled s)); [left; congruence|].
  destruct (Z.leb_spec (dcoef price) 0) as [|Hp]; [left; congruence|]. cbv zeta in H.
  set (q := opt_or qty _) in *.
  destruct (_ <=? 0); [left; congruence|].
  destruct (Z.leb_spec q 0) as [|Hq]; [left; congruence|].
  destruct (Z.ltb_spec (o_quantity o - filled_of id s) q) as [|Hle]; [left; congruence|].
  unfold modify in H. set (s0 := set_filled_qty _ s) in *.
  pose proof (apply_fill_spec (o_contract o) (o_side o) q price false s0 (wf_positions _ Hwf) Hq Hp)
    as Hspec.
  destruct (_apply_fill_to_position _ _ _ _ _ s0) as [s1 [[]|e1]].
  - destruct Hspec as (Hl & _ & _). pose proof (filled_of_nonneg _ id Hwf) as Hnn.
    match type of H with _emit_event ?a ?b ?c ?d ?e ?f ?g ?h _ = _ =>
      destruct (emit_ok a b c d e f g h s1) as (e' & He & _) end; [..|congruence].
    + intros n. rewrite Hl. apply (wf_clock _ Hwf).
    + lia.
    + lia.
    + intros ? [= <-]. lia.
  - destruct Hspec as [-> Hmul]. injection H as <- <-. right. exists o, q. done.
Qed.

Lemma fill_order_wf id price qty s : mock_wf s → mock_wf (fst (fill_order id price qty s)).
Proof.
  intros Hwf. destruct (fill_order id price qty s) as [s' [e|err]] eqn:E; simpl.
  - apply fill_order_spec in E as (o & s1 & Ho & _ & _ & Hq & Hl & Hp & _ & -> & _); [|done].
    apply mock_wf_with_event. eapply mock_wf_ledger; [|exact Hl|exact Hp].
    eapply mock_wf_set_filled; [done|done|]. pose proof (filled_of_nonneg _ id Hwf). lia.
  - apply fill_order_err in E as [-> | (o & q & Ho & _ & Hq & ->)]; [done| |done].
    eapply mock_wf_set_filled; [done|done|]. pose proof (filled_of_nonneg _ id Hwf). lia.
Qed.

(** The adapter's methods, as one kind of step. *)
Inductive broker_op :=
| OpPlace (o : Order)
| OpCancel (id : string)
| OpModify (id : string) (limit stop : option decimal) (q : option Z)
| OpFill (id : string) (price : decimal) (q : option Z)
| OpAdvance (bar : VerifiedBar)
| OpRoll (front back : ContractSymbol) (front_fill back_fill : decimal)
| OpReset.

(** An [Order] object passed its own check when it was built. *)
Definition op_valid (op : broker_op) : Prop :=
  match op with
  | OpPlace o => Order_wf o
  | _ => True
  end.

Section Ops.
Context {SM : Type} `{SlippageModel SM} (slippage : option SM).

Definition run_op (op : broker_op) : M MockBroker unit :=
  match op with
  | OpPlace o => Mock_place_order o ;; ret tt
  | OpCancel id => Mock_cancel_order id
  | OpModify id l st q => Mock_modify_order id l st q
  | OpFill id p q => fill_order id p q ;; ret tt
  | OpAdvance bar => advance bar slippage ;; ret tt
  | OpRoll f b pf pb => roll_position f b pf pb ;; ret tt
  | OpReset => reset
  end.

(** Run operations in order, carrying on after one that raised. *)
Fixpoint run_ops (ops : list broker_op) (s : MockBroker) : MockBroker :=
  match ops with [] => s | op :: rest => run_ops rest (fst (run_op op s)) end.

Lemma fst_bind_ret {S A B} (m : M S A) (f : A -> B) s :
  fst ((a <- m ;; ret (f a)) s) = fst (m s).
Proof. unfold bind. by destruct (m s) as [s' [a|e]]. Qed.

Lemma advance_order_wf bar evs id s :
  mock_wf s → mock_wf (fst (advance_order slippage bar evs id s)).
Proof.
  intros Hwf. unfold advance_order, bind at 1, get. destruct (str_mem _ _); [done|].
  unfold bind at 1, lift at 1. destruct (order_of id s) as [o|]; [|done].
  destruct (negb _); [done|]. destruct (_ <=? _); [done|].
  unfold bind at 1, lift. destruct (execution_price _ _ _) as [[p|]|]; [|done..].
  rewrite fst_bind_ret. by apply fill_order_wf.
Qed.

Lemma advance_wf bar s : mock_wf s → mock_wf (fst (advance bar slippage s)).
Proof.
  intros Hwf. unfold advance. apply (pres_bind mock_wf get); [apply pres_get| |done].
  intros a. apply pres_mfold. intros evs id s'. apply advance_order_wf.
Qed.

Lemma mock_wf_set_open d s :
  List.NoDup (dkeys d) → mock_wf s → mock_wf (set_open_trade_pnl d s).
Proof.
  intros Hd Hwf. apply (mock_wf_ledger s); [done|reflexivity|].
  by apply (positions_wf_open s); [apply (wf_positions _ Hwf)|..].
Qed.

Lemma wf_open_NoDup s : mock_wf s → List.NoDup (dkeys (_open_trade_pnl s)).
Proof. intros Hwf. apply (wf_positions _ Hwf). Qed.

(** A position is stored only once it passed its own check. *)
Lemma set_position_wf c q avg r : preserves mock_wf (set_position c q avg r d0).
Proof.
  intros s Hwf. unfold set_position, bind, lift. destruct (Position_post_init _) as [p|e] eqn:E; [|done].
  apply Position_post_init_Ok in E as [-> Hp]. apply (mock_wf_ledger s); [done|reflexivity|].
  apply positions_wf_set; [apply (wf_positions _ Hwf)|]. done.
Qed.

Lemma set_realized_wf r s : mock_wf s → mock_wf (set_realized r s).
Proof. intros Hwf. apply (mock_wf_ledger s); [done|reflexivity|apply (wf_positions _ Hwf)]. Qed.

Lemma book_trade_wf c : preserves mock_wf (book_trade c).
Proof.
  apply pres_modify. intros s Hwf. apply (mock_wf_ledger s); [done|reflexivity|].
  apply (positions_wf_open s); [apply (wf_positions _ Hwf)|done|]. by apply dkeys_dpop_NoDup, wf_open_NoDup.
Qed.

(** A fill keeps the invariant at any price, also when the position it leads to is refused half way. *)
Lemma apply_fill_wf c side q price roll : preserves mock_wf (_apply_fill_to_position c side q price roll).
Proof.
  intros s Hwf. unfold _apply_fill_to_position, bind at 1, get. cbv zeta.
  destruct (dget c (_positions s)) as [ex|] eqn:Ec; [|by apply set_position_wf].
  destruct (proj1 (proj2 (wf_positions _ Hwf)) _ _ Ec) as (_ & _ & -> & _).
  destruct (_ =? 0); [by apply set_position_wf|]. revert s Hwf Ec. intros s Hwf _. revert s Hwf.
  match goal with |- forall s, mock_wf s → mock_wf (fst (?m s)) => change (preserves mock_wf m) end.
  destruct (_ || _); [apply pres_bind; [apply pres_lift|]; intros ?; apply set_position_wf|].
  apply pres_bind; [apply pres_lift|]. intros mult.
  apply pres_bind; [apply pres_modify; intros ?; apply set_realized_wf|]. intros _.
  apply pres_bind; [apply pres_modify; intros s Hs; apply mock_wf_set_open; [by apply dkeys_dset_NoDup, wf_open_NoDup|done]|]. intros _.
  destruct (_ =? 0).
  - apply pres_bind; [|intros _; apply set_position_wf]. destruct roll; [apply pres_ret|apply book_trade_wf].
  - destruct (negb _); [apply pres_bind; [apply book_trade_wf|intros _]|]; apply set_position_wf.
Qed.

Lemma roll_wf f b pf pb : preserves mock_wf (roll_position f b pf pb).
Proof.
  unfold roll_position. apply pres_bind; [apply pres_get|]. intros s0.
  destruct (dget f (_positions s0)) as [ex|]; [|apply pres_ret]. destruct (_ =? 0); [apply pres_ret|]. cbv zeta.
  apply pres_bind; [apply apply_fill_wf|]. intros _. apply pres_bind; [apply apply_fill_wf|]. intros _.
  apply pres_bind; [apply pres_get|]. intros s1.
  apply pres_bind; [apply pres_modify; intros; apply mock_wf_set_open; [|done]; by apply dkeys_dpop_NoDup, wf_open_NoDup|]. intros _.
  apply pres_bind; [|intros; apply pres_ret]. destruct (deqb _ _); [apply pres_ret|].
  apply pres_modify. intros. apply mock_wf_set_open; [|done]. by apply dkeys_dset_NoDup, wf_open_NoDup.
Qed.
End Ops.

(** ** Facts: placing, cancelling, modifying *)

(** A placed order is stored under a fresh id, in last position, with nothing filled, and announced
    by two events. *)
Lemma place_order_spec o s :
  mock_wf s → Order_wf o → ot_mem (o_order_type o) (Mock_supported_order_types s) = true →
  let id := order_id (_next_order_id_seq s + 1) in
  exists e1 e2,
    Mock_place_order o s
    = (with_event e2 (with_event e1
         (set_book (_orders s ++ [(id, o)]) (_cancelled s) (_filled_qty s ++ [(id, 0)])
            (_next_order_id_seq s + 1) s)), Ok id)
    ∧ dget id (_orders s) = None
    ∧ ev_event_type e1 = submitted ∧ ev_event_type e2 = ack
    ∧ ev_broker_order_id e1 = id ∧ ev_broker_order_id e2 = id.
Proof.
  intros Hwf Ho Hs id. pose proof (next_id_fresh s Hwf) as Hfresh. fold id in Hfresh.
  assert (Hfresh' : dget id (_filled_qty s) = None).
  { apply dget_None. rewrite (wf_keys _ Hwf). by apply dget_None. }
  unfold Mock_place_order, bind at 1, get at 1. rewrite Hs. cbn [negb]. fold id.
  unfold bind at 1, lift at 1, reject. unfold bind at 1, modify at 1.
  rewrite !dset_fresh by done. set (s0 := set_book _ _ _ _ s). cbv zeta.
  destruct Ho as [Hq _].
  destruct (emit_ok id (or_default (o_client_order_id o)
    (String.append "anon-" (str_pad 6 (_next_order_id_seq s + 1)))) (o_contract o) submitted None
    None 0 (o_quantity o) s0) as (e1 & E1 & H1); [apply (wf_clock _ Hwf)|lia|lia|done|].
  destruct (emit_ok id (or_default (o_client_order_id o)
    (String.append "anon-" (str_pad 6 (_next_order_id_seq s + 1)))) (o_contract o) ack None
    None 0 (o_quantity o) (with_event e1 s0)) as (e2 & E2 & H2);
    [apply (wf_clock _ Hwf)|lia|lia|done|].
  exists e1, e2. unfold bind. rewrite E1, E2. split; [done|]. split; [done|]. tauto.
Qed.

Lemma place_order_wf o s : mock_wf s → Order_wf o → mock_wf (fst (Mock_place_order o s)).
Proof.
  intros Hwf Ho. destruct (ot_mem (o_order_type o) (Mock_supported_order_types s)) eqn:Es.
  - destruct (place_order_spec o s Hwf Ho Es) as (e1 & e2 & -> & Hfresh & _). simpl.
    do 2 apply mock_wf_with_event. destruct Hwf as [? Hnd Hord Hkeys Hfil [Hc1 Hc2] Hids Hseq ?].
    set (id := order_id _) in *. rewrite <- (dset_fresh id o) by done.
    assert (Hfresh' : dget id (_filled_qty s) = None).
    { apply dget_None. rewrite Hkeys. by apply dget_None. }
    rewrite <- (dset_fresh id 0) by done.
    constructor; simpl; try done; try lia.
    + by apply dkeys_dset_NoDup.
    + intros id' o'. rewrite dget_dset. case_decide; [by intros [= <-]|apply Hord].
    + rewrite !dkeys_dset_fresh by done. by rewrite Hkeys.
    + intros id' f. rewrite dget_dset. case_decide; [intros [= <-]; lia|apply Hfil].
    + split; [done|]. intros x Hx. apply dkeys_dset_In. auto.
    + intros id' [->|Hin]%dkeys_dset_In; [exists (_next_order_id_seq s + 1); split; [lia|done]|].
      destruct (Hids _ Hin) as (k & ? & ->). exists k. split; [lia|done].
  - unfold Mock_place_order, bind, get, lift. by rewrite Es.
Qed.

Lemma str_mem_In x l : str_mem x l = true ↔ In x l.
Proof.
  unfold str_mem. rewrite existsb_exists. split.
  - intros (y & Hy & ->%String.eqb_eq). done.
  - intros H. exists x. by rewrite String.eqb_refl.
Qed.

Lemma cancel_order_wf id s : mock_wf s → mock_wf (fst (Mock_cancel_order id s)).
Proof.
  intros Hwf. unfold Mock_cancel_order, bind at 1, get.
  unfold bind at 1, lift at 1. destruct (order_of id s) as [o|] eqn:Ho; [|done].
  unfold bind at 1, lift at 1, reject. destruct (str_mem id _) eqn:Hc; [done|].
  unfold bind at 1, modify. cbv zeta. rewrite fst_bind_ret with (f := fun _ => tt).
  pose proof (filled_of_nonneg _ id Hwf).
  match goal with |- context [_emit_event ?a ?b ?c ?d ?e ?f ?g ?h ?s0] =>
    destruct (emit_ok a b c d e f g h s0) as (ev & -> & _);
      [apply (wf_clock _ Hwf)|lia|lia|done|] end.
  apply mock_wf_with_event. apply order_of_Ok in Ho.
  destruct Hwf as [? ? ? ? ? [Hc1 Hc2] ? ? ?]. constructor; simpl; try done. split.
  - apply List.NoDup_app; [done|repeat constructor; by intros []|].
    intros x Hx [<-|[]]. apply str_mem_In in Hx. congruence.
  - intros x [Hx|[<-|[]]]%in_app_iff; [auto|]. apply dkeys_In. by eexists.
Qed.

Lemma modify_order_wf id l st q s : mock_wf s → mock_wf (fst (Mock_modify_order id l st q s)).
Proof.
  intros Hwf. unfold Mock_modify_order, bind at 1, lift at 1, reject at 1.
  destruct (_ && _); [done|]. unfold bind at 1, get.
  unfold bind at 1, lift at 1. destruct (order_of id s) as [o|] eqn:Ho; [|done].
  unfold bind at 1, lift at 1, reject. destruct (str_mem id _) eqn:Hc; [done|].
  unfold bind at 1, lift at 1. destruct (Order_post_init _) as [no|] eqn:Hno; [|done].
  apply Order_post_init_Ok in Hno as [-> Hno].
  set (no := {| o_contract := o_contract o |}) in *.
  unfold bind at 1, modify. cbv zeta. rewrite fst_bind_ret with (f := fun _ => tt).
  pose proof (filled_of_nonneg _ id Hwf).
  match goal with |- context [_emit_event ?a ?b ?c ?d ?e ?f ?g ?h ?s0] =>
    destruct (emit_ok a b c d e f g h s0) as (ev & -> & _);
      [apply (wf_clock _ Hwf)|lia|lia|done|] end.
  apply mock_wf_with_event. apply order_of_Ok in Ho.
  assert (Hmem : is_Some (dget id (_orders s))) by (by eexists).
  destruct Hwf as [? ? Hord ? ? ? ? ? ?]. constructor; simpl; rewrite ?dkeys_dset_mem by done; try done.
  intros id' o'. rewrite dget_dset. case_decide; [by intros [= <-]|apply Hord].
Qed.

Lemma run_op_wf {SM} `{SlippageModel SM} (slip : option SM) op s :
  op_valid op → mock_wf s → mock_wf (fst (run_op slip op s)).
Proof.
  intros Hv Hwf. destruct op; cbn [run_op op_valid] in *.
  - rewrite fst_bind_ret with (f := fun _ => tt). by apply place_order_wf.
  - by apply cancel_order_wf.
  - by apply modify_order_wf.
  - rewrite fst_bind_ret with (f := fun _ => tt). by apply fill_order_wf.
  - rewrite fst_bind_ret with (f := fun _ => tt). by apply advance_wf.
  - rewrite fst_bind_ret with (f := fun _ => tt). by apply roll_wf.
  - destruct Hwf. constructor; simpl; try done; try lia;
    repeat (first [apply List.NoDup_nil | split]); try done; by intros ?.
Qed.

(** ** Facts: reconciliation of positions with fill events *)
Definition is_fill (e : OrderEvent) : bool :=
  match ev_event_type e with filled | partial_fill => true | _ => false end.

Definition fill_qty (e : OrderEvent) : Z :=
  if is_fill e then opt_or (ev_fill_quantity e) 0 else 0.

(** The side of an event's order. *)
Definition side_of (orders : dict string Order) (e : OrderEvent) : Side :=
  match dget (ev_broker_order_id e) orders with Some o => o_side o | None => BUY end.

(** What the fill events of a contract add up to. *)
Definition event_net (s : MockBroker) (c : ContractSymbol) : Z :=
  zsum (map (fun e => if decide (c = ev_contract e)
                      then signed_qty (side_of (_orders s) e) (fill_qty e) else 0) (_events s)).

(** What the fill events of an order add up to. *)
Definition event_filled (s : MockBroker) (id : string) : Z :=
  zsum (map (fun e => if decide (id = ev_broker_order_id e) then fill_qty e else 0) (_events s)).

Record reconciled (s : MockBroker) : Prop := {
  rec_tradable : forall id o, dget id (_orders s) = Some o → is_ok (multiplier_for (o_contract o)) = true;
  rec_ids : forall e, In e (_events s) → is_Some (dget (ev_broker_order_id e) (_orders s));
  rec_net : forall c, net s c = event_net s c;
  rec_filled : forall id, filled_of id s = event_filled s id;
}.

(** Orders may be added, and replaced by orders of the same side and contract. *)
Definition orders_extend (d d' : dict string Order) : Prop :=
  forall id o, dget id d = Some o →
    exists o', dget id d' = Some o' ∧ o_side o' = o_side o ∧ o_contract o' = o_contract o.

Lemma side_of_extend d d' e :
  orders_extend d d' → is_Some (dget (ev_broker_order_id e) d) → side_of d' e = side_of d e.
Proof.
  intros Hext [o Ho]. unfold side_of. destruct (Hext _ _ Ho) as (o' & -> & -> & _). by rewrite Ho.
Qed.

(** One appended event: the sums grow by its fill, if it is one. *)
Lemma event_sums_step s s' e :
  orders_extend (_orders s) (_orders s') →
  (forall e, In e (_events s) → is_Some (dget (ev_broker_order_id e) (_orders s))) →
  _events s' = _events s ++ [e] →
  (forall c, event_net s' c
     = event_net s c + if decide (c = ev_contract e) then signed_qty (side_of (_orders s') e) (fill_qty e)
                       else 0)
  ∧ (forall id, event_filled s' id
     = event_filled s id + if decide (id = ev_broker_order_id e) then fill_qty e else 0).
Proof.
  intros Hext Hids Hev. unfold event_net, event_filled. split; intros x; rewrite Hev, map_app, zsum_app;
    simpl; [|lia].
  rewrite Z.add_0_r. f_equal. f_equal. apply map_ext_in. intros e' He'.
  by rewrite (side_of_extend _ _ e' Hext (Hids _ He')).
Qed.

(** An event that is not a fill, on unchanged positions and filled quantities. *)
Lemma reconciled_quiet s s' e :
  reconciled s → orders_extend (_orders s) (_orders s') →
  (forall id o, dget id (_orders s') = Some o → is_ok (multiplier_for (o_contract o)) = true) →
  (forall id, filled_of id s' = filled_of id s) → _positions s' = _positions s →
  _events s' = _events s ++ [e] → is_Some (dget (ev_broker_order_id e) (_orders s')) →
  is_fill e = false → reconciled s'.
Proof.
  intros [Htr Hids Hnet Hfil] Hext Htr' Hf Hp Hev Hid Hquiet.
  destruct (event_sums_step s s' e Hext Hids Hev) as [H1 H2].
  assert (Hz : fill_qty e = 0) by (unfold fill_qty; by rewrite Hquiet).
  constructor; [done| | |].
  - rewrite Hev. intros e' [He'|[<-|[]]]%in_app_iff; [|done].
    destruct (Hids _ He') as [o Ho]. destruct (Hext _ _ Ho) as (o' & -> & _). by eexists.
  - intros c. unfold net. rewrite Hp. fold (net s c). rewrite H1, Hz, Hnet.
    case_decide; [destruct (side_of _ e); simpl; lia|lia].
  - intros id. rewrite Hf, H2, Hz, Hfil. case_decide; lia.
Qed.

Lemma orders_extend_refl d : orders_extend d d.
Proof. intros id o Ho. eauto. Qed.

Lemma reconciled_fill id price qty s :
  mock_wf s → reconciled s → reconciled (fst (fill_order id price qty s)).
Proof.
  intros Hwf Hrec. destruct (fill_order id price qty s) as [s' [e|err]] eqn:E; simpl.
  - apply fill_order_spec in E as (o & s1 & Ho & _ & _ & H); [|done].
    set (q := opt_or qty (o_quantity o - filled_of id s)) in *. cbv zeta in H.
    destruct H as (Hq & Hl & Hp & Hnet1 & -> & Hid & Hc & Ht & _ & Hfq & _).
    destruct Hrec as [Htr Hids Hnet Hfil]. set (s2 := with_event e s1).
    assert (Horders : _orders s2 = _orders s) by (unfold s2; rewrite Hl; done).
    assert (Hevents : _events s2 = _events s ++ [e]) by (unfold s2; simpl; rewrite Hl; done).
    assert (Hext : orders_extend (_orders s) (_orders s2))
      by (rewrite Horders; apply orders_extend_refl).
    assert (Hfill : fill_qty e = q).
    { unfold fill_qty, is_fill. rewrite Ht, Hfq. by destruct (_ =? 0). }
    assert (Hside : side_of (_orders s2) e = o_side o).
    { unfold side_of. by rewrite Horders, Hid, Ho. }
    destruct (event_sums_step s s2 e Hext Hids Hevents) as [H1 H2].
    constructor.
    + rewrite Horders. done.
    + rewrite Horders, Hevents. intros e' [He'|[<-|[]]]%in_app_iff; [by apply Hids|].
      rewrite Hid. by eexists.
    + intros c. change (net s2 c) with (net s1 c). rewrite Hnet1, H1, Hnet, Hside, Hfill, Hc. done.
    + intros id'. rewrite H2, Hfill, Hid, <- Hfil.
      assert (Hf2 : filled_of id' s2 = if decide (id' = id) then filled_of id s + q
                                       else filled_of id' s).
      { unfold s2, filled_of at 1. simpl. rewrite Hl. simpl. unfold dget_or. rewrite dget_dset.
        by case_decide. }
      rewrite Hf2. case_decide; subst; lia.
  - apply fill_order_err in E as [-> | (o & q & Ho & Hmul & _)]; [done| |done].
    apply (rec_tradable _ Hrec) in Ho. by rewrite Hmul in Ho.
Qed.

(** A backtest operation: valid, on contracts with a known multiplier, and not a roll - a roll moves
    positions without order events. *)
Definition op_evented (op : broker_op) : Prop :=
  op_valid op ∧
  match op with
  | OpPlace o => is_ok (multiplier_for (o_contract o)) = true
  | OpRoll _ _ _ _ => False
  | _ => True
  end.

Lemma reconciled_place o s :
  mock_wf s → Order_wf o → is_ok (multiplier_for (o_contract o)) = true → reconciled s →
  reconciled (fst (Mock_place_order o s)).
Proof.
  intros Hwf Ho Hmul Hrec. destruct (ot_mem (o_order_type o) (Mock_supported_order_types s)) eqn:Es.
  2: { unfold Mock_place_order, bind, get, lift. by rewrite Es. }
  destruct (place_order_spec o s Hwf Ho Es) as (e1 & e2 & -> & Hfresh & Ht1 & Ht2 & Hi1 & Hi2).
  set (id := order_id _) in *. rewrite <- (dset_fresh id o) by done.
  assert (Hfresh' : dget id (_filled_qty s) = None).
  { apply dget_None. rewrite (wf_keys _ Hwf). by apply dget_None. }
  rewrite <- (dset_fresh id 0) by done. set (s0 := set_book _ _ _ _ s).
  assert (Hq : reconciled (with_event e1 s0)).
  { apply (reconciled_quiet s _ e1); try done.
    - intros id' o' Ho'. simpl. rewrite dget_dset. case_decide; [congruence|eauto].
    - intros id' o'. simpl. rewrite dget_dset. case_decide; [by intros [= <-]|].
      apply (rec_tradable _ Hrec).
    - intros id'. unfold filled_of, dget_or. simpl. rewrite dget_dset. case_decide; [|done].
      subst id'. by rewrite Hfresh'.
    - simpl. rewrite Hi1, dget_dset_eq. by eexists.
    - unfold is_fill. by rewrite Ht1. }
  apply (reconciled_quiet _ _ e2 Hq); try done.
  - apply orders_extend_refl.
  - apply (rec_tradable _ Hq).
  - simpl. rewrite Hi2, dget_dset_eq. by eexists.
  - unfold is_fill. by rewrite Ht2.
Qed.

Lemma reconciled_cancel id s : mock_wf s → reconciled s → reconciled (fst (Mock_cancel_order id s)).
Proof.
  intros Hwf Hrec. unfold Mock_cancel_order, bind at 1, get.
  unfold bind at 1, lift at 1. destruct (order_of id s) as [o|] eqn:Ho; [|done].
  unfold bind at 1, lift at 1, reject. destruct (str_mem id _) eqn:Hc; [done|].
  unfold bind at 1, modify. cbv zeta. rewrite fst_bind_ret with (f := fun _ => tt).
  pose proof (filled_of_nonneg _ id Hwf). apply order_of_Ok in Ho.
  match goal with |- context [_emit_event ?a ?b ?c ?d ?e ?f ?g ?h ?s0] =>
    destruct (emit_ok a b c d e f g h s0) as (ev & -> & Hid & _ & Ht & _);
      [apply (wf_clock _ Hwf)|lia|lia|done|] end.
  apply (reconciled_quiet s _ ev); try done.
  - apply orders_extend_refl.
  - apply (rec_tradable _ Hrec).
  - simpl. rewrite Hid, Ho. by eexists.
  - unfold is_fill. by rewrite Ht.
Qed.

Lemma reconciled_modify id l st q s :
  mock_wf s → reconciled s → reconciled (fst (Mock_modify_order id l st q s)).
Proof.
  intros Hwf Hrec. unfold Mock_modify_order, bind at 1, lift at 1, reject at 1.
  destruct (_ && _); [done|]. unfold bind at 1, get.
  unfold bind at 1, lift at 1. destruct (order_of id s) as [o|] eqn:Ho; [|done].
  unfold bind at 1, lift at 1, reject. destruct (str_mem id _) eqn:Hc; [done|].
  unfold bind at 1, lift at 1. destruct (Order_post_init _) as [no|] eqn:Hno; [|done].
  apply Order_post_init_Ok in Hno as [-> Hno].
  set (no := {| o_contract := o_contract o |}) in *.
  unfold bind at 1, modify. cbv zeta. rewrite fst_bind_ret with (f := fun _ => tt).
  pose proof (filled_of_nonneg _ id Hwf). apply order_of_Ok in Ho.
  match goal with |- context [_emit_event ?a ?b ?c ?d ?e ?f ?g ?h ?s0] =>
    destruct (emit_ok a b c d e f g h s0) as (ev & -> & Hid & _ & Ht & _);
      [apply (wf_clock _ Hwf)|lia|lia|done|] end.
  apply (reconciled_quiet s _ ev); try done.
  - intros id' o' Ho'. simpl. rewrite dget_dset. case_decide; [|eauto]. subst id'.
    exists no. simplify_eq. done.
  - intros id' o'. simpl. rewrite dget_dset. case_decide; [|apply (rec_tradable _ Hrec)].
    intros [= <-]. apply (rec_tradable _ Hrec _ _ Ho).
  - simpl. rewrite Hid, dget_dset_eq. by eexists.
  - unfold is_fill. by rewrite Ht.
Qed.

Section Reconcile.
Context {SM : Type} `{SlippageModel SM} (slip : option SM).

Lemma reconciled_advance bar s :
  mock_wf s → reconciled s → reconciled (fst (advance bar slip s)).
Proof.
  intros Hwf Hrec.
  assert (Hboth : mock_wf (fst (advance bar slip s)) ∧ reconciled (fst (advance bar slip s)));
  [|by destruct Hboth].
  unfold advance. apply (pres_bind (fun s => mock_wf s ∧ reconciled s) get); [apply pres_get| |done].
  intros a. apply pres_mfold. intros evs id s1 [Hwf1 Hrec1].
  split; [by apply advance_order_wf|].
  unfold advance_order, bind at 1, get. destruct (str_mem _ _); [done|].
  unfold bind at 1, lift at 1. destruct (order_of id s1) as [o|]; [|done].
  destruct (negb _); [done|]. destruct (_ <=? _); [done|].
  unfold bind at 1, lift. destruct (execution_price _ _ _) as [[p|]|]; [|done..].
  rewrite fst_bind_ret. by apply reconciled_fill.
Qed.

Lemma run_op_reconciled op s :
  op_evented op → mock_wf s → reconciled s → reconciled (fst (run_op slip op s)).
Proof.
  intros [Hv Hev] Hwf Hrec. destruct op; cbn [run_op op_valid] in *; [..|done|].
  - rewrite fst_bind_ret with (f := fun _ => tt). by apply reconciled_place.
  - by apply reconciled_cancel.
  - by apply reconciled_modify.
  - rewrite fst_bind_ret with (f := fun _ => tt). by apply reconciled_fill.
  - rewrite fst_bind_ret with (f := fun _ => tt). by apply reconciled_advance.
  - constructor; simpl; try done. 
Qed.
End Reconcile.

Lemma new_MockBroker_wf eq acct blk restrict clk s :
  new_MockBroker eq acct blk restrict clk = Ok s → (forall n, dt_off (clk n) = Some 0) →
  mock_wf s ∧ reconciled s.
Proof.
  unfold new_MockBroker. intros H Hclk. inv_ok.
  split; constructor; simpl; try done; try lia;
    repeat (first [apply List.NoDup_nil | split]); try done; by intros ?.
Qed.

(** ** Theorems *)

(** C5: the broker's invariant holds after every sequence of operations, returning or raising, on a
    broker whose clock reads UTC; of the operations only a placed order is constrained, to one that
    passes its own check.  Order ids are distinct and issued from the counter, the filled map has
    exactly the orders' keys with non-negative counts, cancelled ids are distinct known orders, stored
    orders are well formed, and every position is filed under its contract, carries no margin and -
    unless flat - a positive average price.  So no fill ever trips the [Position] check: wherever
    the operations lead, applying a fill of a positive quantity at a positive price, a roll's leg or
    not, can fail only because the contract's multiplier is unknown, and then changes nothing. *)
Theorem mock_invariant {SM} `{SlippageModel SM} (slip : option SM) eq acct blk restrict clk s ops :
  new_MockBroker eq acct blk restrict clk = Ok s → (forall n, dt_off (clk n) = Some 0) →
  Forall op_valid ops → let s' := run_ops slip ops s in
  mock_wf s' ∧
  forall c side q price roll s2 e, 0 < q → 0 < dcoef price →
    _apply_fill_to_position c side q price roll s' = (s2, Err e) → multiplier_for c = Err e ∧ s2 = s'.
Proof.
  intros Hnew Hclk Hops s'. assert (Hwf : mock_wf s').
  { apply new_MockBroker_wf in Hnew as [Hwf _]; [|done]. subst s'. revert s Hwf.
    induction Hops as [|op ops Hop Hops IH]; intros s Hwf; [done|]. apply IH. by apply run_op_wf. }
  split; [done|]. intros c side q price roll s2 e Hq Hp E.
  pose proof (apply_fill_spec c side q price roll s' (wf_positions _ Hwf) Hq Hp) as Hs. rewrite E in Hs. by destruct Hs.
Qed.

(** C4: positions reconcile with the event stream.  After any sequence of placements,
    cancellations, modifications, fills and bars - whatever they raised - on contracts with a known
    multiplier, the signed position in each contract is the sum of its fill events signed by their
    orders' sides, and each order's filled quantity is the sum of its own fill events. *)
Theorem mock_reconciliation {SM} `{SlippageModel SM} (slip : option SM) eq acct blk restrict clk s ops :
  new_MockBroker eq acct blk restrict clk = Ok s → (forall n, dt_off (clk n) = Some 0) →
  Forall op_evented ops →
  let s' := run_ops slip ops s in
  (forall c, net s' c = event_net s' c) ∧ (forall id, filled_of id s' = event_filled s' id).
Proof.
  intros Hnew Hclk Hops. apply new_MockBroker_wf in Hnew as [Hwf Hrec]; [|done].
  assert (Hfin : reconciled (run_ops slip ops s)); [|split; apply Hfin].
  revert s Hwf Hrec. induction Hops as [|op ops Hop Hops IH]; intros s Hwf Hrec; [done|].
  simpl. apply IH; [by apply run_op_wf; [destruct Hop|]|]. by apply run_op_reconciled.
Qed.

(** a fill succeeds exactly as asked.  On a known, uncancelled order of a contract with a known
    multiplier, a positive price and a quantity within what remains, [fill_order] returns: the
    order's filled quantity grows by the quantity, the contract's net position moves by it signed
    by the side, no other contract moves, and one event reports the fill, complete exactly when
    nothing remains. *)
Theorem fill_order_functional id price qty s o :
  mock_wf s → dget id (_orders s) = Some o → str_mem id (_cancelled s) = false →
  0 < dcoef price → is_ok (multiplier_for (o_contract o)) = true →
  let q := opt_or qty (o_quantity o - filled_of id s) in
  0 < q <= o_quantity o - filled_of id s →
  exists s' e, fill_order id price qty s = (s', Ok e)
    ∧ filled_of id s' = filled_of id s + q
    ∧ (forall c, net s' c = net s c + if decide (c = o_contract o)
                                      then signed_qty (o_side o) q else 0)
    ∧ _orders s' = _orders s ∧ _events s' = _events s ++ [e]
    ∧ ev_event_type e = (if o_quantity o - (filled_of id s + q) =? 0 then filled else partial_fill)
    ∧ ev_fill_price e = Some price ∧ ev_fill_quantity e = Some q
    ∧ ev_remaining_quantity e = o_quantity o - (filled_of id s + q).
Proof.
  intros Hwf Ho Hc Hp Hm q Hq. destruct (fill_order id price qty s) as [s' [e|err]] eqn:E.
  - exists s', e. split; [done|].
    apply fill_order_spec in E as (o' & s1 & Ho' & _ & _ & H); [|done]. rewrite Ho in Ho'.
    injection Ho' as <-. fold q in H.
    destruct H as (_ & Hl & _ & Hnet & -> & _ & _ & Ht & Hpr & Hfq & _ & Hr).
    split; [|split; [exact Hnet|]].
    + unfold filled_of at 1. simpl. rewrite Hl. simpl. unfold dget_or. by rewrite dget_dset_eq.
    + simpl. rewrite Hl. done.
  - exfalso. unfold fill_order, bind, get, lift, reject in E. autorewrite with dec in E.
    rewrite (proj2 (order_of_Ok id s o) Ho), Hc in E. fold q in E. cbv zeta in E.
    replace (dcoef price <=? 0) with false in E by lia.
    replace (o_quantity o - filled_of id s <=? 0) with false in E by lia. fold q in E.
    replace (q <=? 0) with false in E by lia.
    replace (o_quantity o - filled_of id s <? q) with false in E by lia.
    pose proof (fill_order_err id price qty s s' err Hwf) as Herr.
    unfold modify in E. set (s0 := set_filled_qty _ s) in *.
    pose proof (apply_fill_spec (o_contract o) (o_side o) q price false s0 (wf_positions _ Hwf)
                  ltac:(lia) Hp) as Hspec.
    destruct (_apply_fill_to_position _ _ _ _ _ s0) as [s1 [[]|e1]].
    + destruct Hspec as (Hl & _ & _). pose proof (filled_of_nonneg _ id Hwf) as Hnn.
      match type of E with _emit_event ?a ?b ?c ?d ?e ?f ?g ?h _ = _ =>
        destruct (emit_ok a b c d e f g h s1) as (e' & He & _) end; [..|congruence].
      * intros n. rewrite Hl. apply (wf_clock _ Hwf).
      * lia.
      * lia.
      * intros ? [= <-]. lia.
    + destruct Hspec as [_ Hmul]. by rewrite Hmul in Hm.
Qed.

(** *** The auto-fill of a bar *)
Section AdvanceSpec.
Context {SM : Type} `{SlippageModel SM} (slip : option SM) (bar : VerifiedBar).

(** The price at which the bar fills an order, [None] when it leaves it alone: a function of the
order, its status and the bar. *)
Definition decision (s : MockBroker) (id : string) : result (option decimal) :=
  if str_mem id (_cancelled s) then Ok None
  else
  let! o := order_of id s in
  if negb (String.eqb (o_contract o) (vb_contract bar)) then Ok None
  else if o_quantity o <=? filled_of id s then Ok None
  else execution_price slip o bar.

Definition order_qty (s : MockBroker) (id : string) : Z :=
  match dget id (_orders s) with Some o => o_quantity o | None => 0 end.

(** The event a bar fill produces for an order: full remaining quantity, nothing left. *)
Definition bar_fill (s : MockBroker) (id : string) : list (string * option decimal * option Z * Z) :=
  match decision s id with
  | Ok (Some p) => [(id, Some p, Some (order_qty s id - filled_of id s), 0)]
  | _ => []
  end.

Definition event_summary (e : OrderEvent) : string * option decimal * option Z * Z :=
  (ev_broker_order_id e, ev_fill_price e, ev_fill_quantity e, ev_remaining_quantity e).

(** The status [decision] reads. *)
Definition same_status (s s' : MockBroker) : Prop :=
  _orders s' = _orders s ∧ _cancelled s' = _cancelled s.

Lemma decision_same s s' id :
  same_status s s' → filled_of id s' = filled_of id s → decision s' id = decision s id.
Proof. intros [Ho Hc] Hf. unfold decision, order_of. by rewrite Ho, Hc, Hf. Qed.

Lemma advance_order_decision evs id s :
  advance_order slip bar evs id s =
  match decision s id with
  | Err e => (s, Err e)
  | Ok None => (s, Ok evs)
  | Ok (Some p) => bind (fill_order id p None) (fun e => ret (evs ++ [e])) s
  end.
Proof.
  unfold advance_order, decision, bind at 1, get. destruct (str_mem _ _); [done|].
  unfold bind at 1, lift at 1. destruct (order_of id s) as [o|]; [|done]. cbn [rbind].
  destruct (negb _); [done|]. destruct (_ <=? _); [done|].
  unfold bind at 1, lift. by destruct (execution_price _ _ _) as [[p|]|].
Qed.

(** After a bar fill of [id]: its order is complete and no other order's status moved. *)
Lemma bar_fill_step id p s s' e :
  mock_wf s → fill_order id p None s = (s', Ok e) →
  mock_wf s' ∧ same_status s s' ∧ filled_of id s' = order_qty s id
  ∧ (forall id', id' ≠ id → filled_of id' s' = filled_of id' s)
  ∧ event_summary e = (id, Some p, Some (order_qty s id - filled_of id s), 0).
Proof.
  intros Hwf E. split; [change s' with (fst (s', Ok e)); rewrite <- E; by apply fill_order_wf|].
  apply fill_order_spec in E as (o & s1 & Ho & _ & _ & Hf); [|done]. cbn [opt_or] in Hf. cbv zeta in Hf.
  destruct Hf as (Hq & Hl & _ & _ & -> & Hid & _ & _ & Hp & Hfq & _ & Hr).
  unfold order_qty. rewrite Ho. split_and!.
  - split; simpl; rewrite Hl; reflexivity.
  - unfold filled_of at 1. simpl. rewrite Hl. simpl. unfold dget_or. rewrite dget_dset_eq. lia.
  - intros id' Hne. unfold filled_of. simpl. rewrite Hl. simpl. unfold dget_or.
  by rewrite dget_dset_ne.
  - unfold event_summary. rewrite Hid, Hp, Hfq, Hr. repeat f_equal. lia.
Qed.

Lemma advance_fold ids evs s s' evs' :
  mock_wf s → List.NoDup ids →
  mfold (advance_order slip bar) ids evs s = (s', Ok evs') →
  same_status s s'
  ∧ (exists new, evs' = evs ++ new ∧ map event_summary new = concat (map (bar_fill s) ids))
  ∧ (forall id, In id ids → exists d, decision s id = Ok d
     ∧ filled_of id s' = match d with Some _ => order_qty s id | None => filled_of id s end)
  ∧ (forall id, ¬ In id ids → filled_of id s' = filled_of id s).
Proof.
  revert evs s. induction ids as [|id ids IH]; intros evs s Hwf Hnd Hrun.
  { injection Hrun as <- <-. split; [done|]. split; [exists []; by rewrite app_nil_r|]. done. }
  apply List.NoDup_cons_iff in Hnd as [Hni Hnd]. cbn [mfold] in Hrun. unfold bind at 1 in Hrun.
  rewrite advance_order_decision in Hrun. cbn [map concat]. unfold bar_fill at 1.
  destruct (decision s id) as [[p|]|err] eqn:Ed; [| |done].
  - unfold bind, ret in Hrun. destruct (fill_order id p None s) as [s1 [e|err]] eqn:Ef; [|done].
  apply bar_fill_step in Ef as (Hwf1 & Hst & Hfid & Hfo & Hsum); [|done].
  destruct (IH _ _ Hwf1 Hnd Hrun) as (Hst' & (new & -> & Hnew) & Hin & Hout).
  assert (Hdec : forall id', id' ≠ id → decision s1 id' = decision s id')
    by (intros; apply decision_same; auto).
  assert (Hqty : forall id', order_qty s1 id' = order_qty s id')
    by (intros; unfold order_qty; by rewrite (proj1 Hst)).
  split; [split; [by rewrite (proj1 Hst'), (proj1 Hst)|by rewrite (proj2 Hst'), (proj2 Hst)]|].
  split; [|split].
  + exists (e :: new). split; [by rewrite <- app_assoc|]. cbn [map]. rewrite Hsum. simpl. f_equal.
    rewrite Hnew. f_equal. apply map_ext_in. intros id' Hid'. assert (id' ≠ id) by (by intros ->).
    unfold bar_fill. rewrite Hdec, Hqty, Hfo by done. done.
  + intros id' [<-|Hid'].
    * exists (Some p). split; [done|]. by rewrite Hout, Hfid.
    * assert (id' ≠ id) by (by intros ->). destruct (Hin _ Hid') as (d & Hd & Hf).
      exists d. rewrite <- Hdec, Hf by done. split; [done|]. destruct d; [by rewrite Hqty|auto].
  + intros id' Hid'. simpl in Hid'. rewrite Hout by tauto. apply Hfo. intros ->. tauto.
  - destruct (IH _ _ Hwf Hnd Hrun) as (Hst & Hnew & Hin & Hout).
  split; [done|]. split; [done|]. split.
  + intros id' [<-|Hid']; [|auto]. exists None. split; [done|]. by apply Hout.
  + intros id' Hid'. simpl in Hid'. apply Hout. tauto.
Qed.

Lemma advance_quiet ids evs s :
  (forall id, In id ids → decision s id = Ok None) →
  mfold (advance_order slip bar) ids evs s = (s, Ok evs).
Proof.
  induction ids as [|id ids IH]; intros Hd; [done|]. cbn [mfold]. unfold bind at 1.
  rewrite advance_order_decision, Hd by (by left). apply IH. intros. apply Hd. by right.
Qed.

(** C6: the auto-fill of a bar.  When [advance] returns, its events are, in order-submission order,
exactly one complete fill of the remaining quantity for each order the bar decides to fill, at
the price decided from the order and this bar alone; those orders end completely filled and
every other order's status is unchanged.  Advancing by the same bar again fills nothing and
changes nothing. *)
Theorem advance_functional s s' evs :
  mock_wf s → advance bar slip s = (s', Ok evs) →
  map event_summary evs = concat (map (bar_fill s) (dkeys (_orders s)))
  ∧ same_status s s'
  ∧ (forall id, In id (dkeys (_orders s)) → exists d, decision s id = Ok d
     ∧ filled_of id s' = match d with Some _ => order_qty s id | None => filled_of id s end)
  ∧ advance bar slip s' = (s', Ok []).
Proof.
  intros Hwf Hrun. unfold advance, bind, get in *. pose proof (wf_orders _ Hwf) as Hnd.
  apply advance_fold in Hrun as (Hst & (new & -> & Hnew) & Hin & Hout); [|done..].
  split; [done|]. split; [done|]. split; [done|]. rewrite (proj1 Hst). apply advance_quiet.
  intros id Hid. destruct (Hin id Hid) as ([p|] & Hd & Hf); [|rewrite <- Hd; by apply decision_same].
  unfold decision in *. unfold order_of in *. rewrite (proj1 Hst), (proj2 Hst).
  destruct (str_mem id _); [done|]. unfold order_qty in Hf.
  destruct (dget id (_orders s)) as [o|]; [|done]. simpl in *.
  destruct (negb _); [done|]. rewrite Hf, Z.leb_refl. done.
Qed.
End AdvanceSpec.

(** *** The trade ledger and rolls *)

(** The PnL a fill realises: [None] when it opens or enlarges. *)
Definition closing_pnl (s : MockBroker) (c : ContractSymbol) (side : Side) (q : Z) (price : decimal)
    : option decimal :=
  match dget c (_positions s), multiplier_for c with
  | Some ex, Ok mult =>
      if (p_quantity ex =? 0) || Bool.eqb (0 <? p_quantity ex) (0 <? signed_qty side q) then None
      else Some (realized_delta (p_quantity ex) (Z.min (Z.abs (p_quantity ex)) q)
                   (p_avg_entry_price ex) price mult)
  | _, _ => None
  end.

(** Does a closing fill end the bet?  A roll's full close does not, a flip always does. *)
Definition bet_ends (is_roll : bool) (old_qty new_qty : Z) : bool :=
  if new_qty =? 0 then negb is_roll else negb (Bool.eqb (0 <? old_qty) (0 <? new_qty)).

(** The PnL of all bets, closed and open. *)
Definition ledger_total (s : MockBroker) : Q :=
  (qsum (_trade_pnls s) + qsum (dvalues (_open_trade_pnl s)))%Q.

Lemma set_position_ledger c q avg r m s s' :
  set_position c q avg r m s = (s', Ok tt) →
  exists p, s' = set_positions (dset c p (_positions s)) s ∧ p_quantity p = q
    ∧ p_avg_entry_price p = avg.
Proof.
  unfold set_position. intros H. inv_ok. match goal with H : Position_post_init _ = _ |- _ =>
    apply Position_post_init_Ok in H as [-> _] end. eexists. split_and!; reflexivity.
Qed.

Lemma apply_fill_ledger c side q price roll s s' u :
  0 < q → _apply_fill_to_position c side q price roll s = (s', Ok u) →
  match closing_pnl s c side q price with
  | None => _realized_pnl_today s' = _realized_pnl_today s ∧ _trade_pnls s' = _trade_pnls s
            ∧ _open_trade_pnl s' = _open_trade_pnl s
            ∧ (net s c = 0 → exists p, dget c (_positions s') = Some p ∧ p_avg_entry_price p = price)
  | Some rd =>
      let bet := dadd (dget_or c d0 (_open_trade_pnl s)) rd in
      _realized_pnl_today s' = dadd (_realized_pnl_today s) rd
      ∧ if bet_ends roll (net s c) (net s c + signed_qty side q)
        then _trade_pnls s' = _trade_pnls s ++ [bet] ∧ _open_trade_pnl s' = dpop c (_open_trade_pnl s)
        else _trade_pnls s' = _trade_pnls s ∧ _open_trade_pnl s' = dset c bet (_open_trade_pnl s)
  end.
Proof.
  intros Hq. destruct u. unfold _apply_fill_to_position, bind at 1, get. cbv zeta.
  change (match side with BUY => q | SELL => - q end) with (signed_qty side q).
  assert (Hd0 : signed_qty side q ≠ 0) by (destruct side; simpl; lia).
  set (delta := signed_qty side q) in *. unfold closing_pnl, net. fold delta.
  assert (Habs : Z.abs delta = q) by (subst delta; destruct side; simpl; lia).
  destruct (dget c (_positions s)) as [ex|] eqn:Ec.
  2: { intros (p & -> & _ & Hp)%set_position_ledger. cbn.
       repeat (split; [reflexivity|]). intros _. exists p. by rewrite dget_dset_eq. }
  destruct (Z.eqb_spec (p_quantity ex) 0) as [E0|E0].
  { intros (p & -> & _ & Hp)%set_position_ledger. destruct (multiplier_for c); cbn;
      repeat (split; [reflexivity|]); intros _; exists p; by rewrite dget_dset_eq. }
  cbn [orb].
  destruct ((0 <? p_quantity ex) && (0 <? delta) || (p_quantity ex <? 0) && (delta <? 0)) eqn:Edir.
  - assert (Hb : Bool.eqb (0 <? p_quantity ex) (0 <? delta) = true).
    { destruct (Z.ltb_spec 0 (p_quantity ex)), (Z.ltb_spec 0 delta); simpl in *; lia. }
    rewrite Hb. intros H. apply bind_Ok in H as (s1 & a & [-> _]%lift_Ok & H).
    apply set_position_ledger in H as (p & -> & _ & _).
    destruct (multiplier_for c); cbn; repeat (split; [reflexivity|]); intros ?; done.
  - assert (Hb : Bool.eqb (0 <? p_quantity ex) (0 <? delta) = false).
    { destruct (Z.ltb_spec 0 (p_quantity ex)), (Z.ltb_spec 0 delta); simpl in *; lia. }
    rewrite Hb. intros H. apply bind_Ok in H as (s1 & mult & [-> Hm]%lift_Ok & H). rewrite Hm.
    rewrite Habs in H. set (rd := realized_delta _ _ _ _ _) in *. unfold bet_ends.
    unfold bind at 1, modify at 1 in H. unfold bind at 1, modify at 1 in H.
    destruct (p_quantity ex + delta =? 0).
    + destruct roll; cbn [negb].
      * unfold bind at 1, ret in H. by apply set_position_ledger in H as (p & -> & _ & _).
      * unfold bind at 1, book_trade, modify in H.
        apply set_position_ledger in H as (p & -> & _ & _). cbn. unfold dget_or.
        by rewrite dget_dset_eq, dpop_dset.
    + destruct (negb _).
      * unfold bind at 1, book_trade, modify in H.
        apply set_position_ledger in H as (p & -> & _ & _). cbn. unfold dget_or.
        by rewrite dget_dset_eq, dpop_dset.
      * by apply set_position_ledger in H as (p & -> & _ & _).
Qed.

(** A closing fill that returns read a multiplier. *)
Lemma closing_fill_mult c side q price roll s s' u ex :
  0 < q → dget c (_positions s) = Some ex → p_quantity ex ≠ 0 →
  Bool.eqb (0 <? p_quantity ex) (0 <? signed_qty side q) = false →
  _apply_fill_to_position c side q price roll s = (s', Ok u) →
  exists mult, multiplier_for c = Ok mult.
Proof.
  intros Hq Hex H0 Hdir. unfold _apply_fill_to_position, bind at 1, get. rewrite Hex.
  apply Z.eqb_neq in H0. rewrite H0. apply Z.eqb_neq in H0. cbv zeta.
  change (match side with BUY => q | SELL => - q end) with (signed_qty side q).
  assert (Hd0 : signed_qty side q ≠ 0) by (destruct side; simpl; lia).
  destruct (_ || _) eqn:Edir.
  - exfalso. revert Edir Hdir.
    destruct (Z.ltb_spec 0 (p_quantity ex)), (Z.ltb_spec 0 (signed_qty side q)); simpl; lia.
  - intros (s1 & mult & [_ Hm]%lift_Ok & _)%bind_Ok. by exists mult.
Qed.

(** C7: the per-trade ledger.  A fill that opens a position or enlarges it realises nothing.  Any other
    fill closes the smaller of the two quantities and realises on it the price move in the
    position's favour - up for a long, down for a short - times the multiplier, rounded after each
    multiplication.  It adds that to the day's realised PnL and to the contract's open bet, and books
    the bet as one trade exactly when the position closes (not for a roll) or flips; when the two
    additions are exact, the day's realised PnL and the total over closed and open bets move by the
    same amount, so no realised dollar is lost or counted twice. *)
Theorem trade_ledger c side q price roll s s' u :
  0 < q → List.NoDup (dkeys (_open_trade_pnl s)) →
  _apply_fill_to_position c side q price roll s = (s', Ok u) →
  let held := net s c in
  let moved := signed_qty side q in
  if (held =? 0) || Bool.eqb (0 <? held) (0 <? moved)
  then _realized_pnl_today s' = _realized_pnl_today s ∧ _trade_pnls s' = _trade_pnls s
       ∧ _open_trade_pnl s' = _open_trade_pnl s
  else exists ex mult, dget c (_positions s) = Some ex ∧ multiplier_for c = Ok mult ∧
      let entry := p_avg_entry_price ex in
      let rd := dmul (dmul (if 0 <? held then dsub price entry else dsub entry price)
                        (dec_of_Z (Z.min (Z.abs held) q))) mult in
      let bet0 := dget_or c d0 (_open_trade_pnl s) in
      _realized_pnl_today s' = dadd (_realized_pnl_today s) rd
      ∧ (if (if held + moved =? 0 then negb roll else negb (Bool.eqb (0 <? held) (0 <? held + moved)))
         then _trade_pnls s' = _trade_pnls s ++ [dadd bet0 rd]
              ∧ dmem c (_open_trade_pnl s') = false
         else _trade_pnls s' = _trade_pnls s ∧ dget c (_open_trade_pnl s') = Some (dadd bet0 rd))
      ∧ (fits (dadd_exact (_realized_pnl_today s) rd) → fits (dadd_exact bet0 rd) →
         (ledger_total s' - dval (_realized_pnl_today s')
          == ledger_total s - dval (_realized_pnl_today s))%Q).
Proof.
  intros Hq Hnd H held moved. pose proof (fun ex => closing_fill_mult c side q price roll s s' u ex Hq) as Hmult.
  pose proof H as H0. apply apply_fill_ledger in H; [|done]. unfold closing_pnl in H. fold moved in H.
  destruct (dget c (_positions s)) as [ex|] eqn:Ec; [|unfold held, net; rewrite Ec; cbn [Z.eqb orb]; tauto].
  assert (Hh : held = p_quantity ex) by (unfold held, net; by rewrite Ec). rewrite <- Hh in H.
  destruct ((held =? 0) || _) eqn:Edir; [destruct (multiplier_for c); tauto|].
  apply orb_false_iff in Edir as [E0%Z.eqb_neq Edir]. rewrite Hh in E0, Edir.
  destruct (Hmult ex eq_refl E0 Edir H0) as [mult Hm]. rewrite Hm in H. exists ex, mult. split; [done|]. split; [done|].
  cbv zeta in *. unfold realized_delta, bet_ends in H. fold held in H. destruct H as [Hr H]. split; [done|].
  unfold ledger_total, dmem. rewrite Hr.
  destruct (if held + moved =? 0 then negb roll else _); destruct H as [-> ->].
  - rewrite dget_dpop_eq. split; [done|]. intros H1 H2.
    rewrite qsum_app, (qsum_dpop c) by done. cbn [qsum foldr].
    rewrite (dval_dadd _ _ H1), (dval_dadd _ _ H2). ring.
  - rewrite dget_dset_eq. split; [done|]. intros H1 H2.
    rewrite qsum_dset, (dval_dadd _ _ H1), (dval_dadd _ _ H2). ring.
Qed.

Lemma closing_pnl_flat s c side q price : net s c = 0 → closing_pnl s c side q price = None.
Proof.
  unfold net, closing_pnl. destruct (dget c _) as [ex|]; [|done]. intros ->.
  by destruct (multiplier_for c).
Qed.

(** The carry step at the end of a roll touches the open bets only. *)
Lemma roll_carry f b (qty : Z) s s' r :
  f ≠ b →
  (s <- get ;;
   let carried := dget_or f d0 (_open_trade_pnl s) in
   modify (fun s => set_open_trade_pnl (dpop f (_open_trade_pnl s)) s) ;;
   (if deqb carried d0 then ret tt
    else modify (fun s => set_open_trade_pnl
                  (dset b (dadd (dget_or b d0 (_open_trade_pnl s)) carried)
                     (_open_trade_pnl s)) s)) ;;
   ret qty) s = (s', Ok r) →
  r = qty ∧ _positions s' = _positions s ∧ _realized_pnl_today s' = _realized_pnl_today s
  ∧ _trade_pnls s' = _trade_pnls s ∧
  forall c, dget c (_open_trade_pnl s') =
    let carried := dget_or f d0 (_open_trade_pnl s) in
    if decide (c = f) then None
    else if decide (c = b)
    then if deqb carried d0 then dget b (_open_trade_pnl s) else Some (dadd (dget_or b d0 (_open_trade_pnl s)) carried)
    else dget c (_open_trade_pnl s).
Proof.
  intros Hfb. unfold bind, get, modify, ret. destruct (deqb _ _) eqn:Ed; intros [= <- <-];
    (repeat (split; [done|])); intros c; cbn -[dget dset dpop dget_or].
  - rewrite dget_dpop. repeat case_decide; by subst.
  - rewrite dget_dset, dget_dpop. unfold dget_or at 1. rewrite dget_dpop_ne by done. repeat case_decide; by subst.
Qed.

(** Where the two legs of a roll lead. *)
Lemma roll_legs f b cs os q pf pb s s1 s2 : mock_wf s → 0 < dcoef pf → 0 < dcoef pb → q ≠ 0 →
  signed_qty cs (Z.abs q) = - q → signed_qty os (Z.abs q) = q →
  _apply_fill_to_position f cs (Z.abs q) pf true s = (s1, Ok tt) → _apply_fill_to_position b os (Z.abs q) pb true s1 = (s2, Ok tt) →
  (forall c, net s1 c = net s c + (if decide (c = f) then - q else 0)) ∧
  (forall c, net s2 c = net s1 c + (if decide (c = b) then q else 0)).
Proof.
  intros Hwf Hpf Hpb Hq Hcs Hos H1 H2.
  pose proof (apply_fill_spec f cs (Z.abs q) pf true s (wf_positions _ Hwf) ltac:(lia) Hpf) as S1.
  rewrite H1, Hcs in S1. destruct S1 as (_ & Hwf1 & Hn1).
  pose proof (apply_fill_spec b os (Z.abs q) pb true s1 Hwf1 ltac:(lia) Hpb) as S2.
  rewrite H2, Hos in S2. by destruct S2 as (_ & _ & Hn2).
Qed.

(** C8: a roll into a flat back month, at positive prices.  The whole front position is closed at the
    front price and the same signed quantity opened in the back month at the back price; no other
    position moves.  The realised PnL grows by the front position marked at its closing price: the
    price move in its favour - up for a long, down for a short - times the quantity and the
    multiplier.  No trade is booked: what the roll realises joins the front month's open bet, and
    the whole bet, unless it is zero, is carried into the back month's; nothing is left on the front
    month's, and no other bet changes. *)
Theorem roll_position_flat_back f b pf pb s s' qty :
  mock_wf s → f ≠ b → net s b = 0 → net s f ≠ 0 → 0 < dcoef pf → 0 < dcoef pb →
  roll_position f b pf pb s = (s', Ok qty) →
  qty = net s f
  ∧ (forall c, net s' c = if decide (c = f) then 0 else if decide (c = b) then qty else net s c)
  ∧ _trade_pnls s' = _trade_pnls s
  ∧ exists ex mult p,
       dget f (_positions s) = Some ex ∧ multiplier_for f = Ok mult
       ∧ dget b (_positions s') = Some p ∧ p_avg_entry_price p = pb
       ∧ let entry := p_avg_entry_price ex in
         let rd := dmul (dmul (if 0 <? qty then dsub pf entry else dsub entry pf) (dec_of_Z (Z.abs qty))) mult in
         let carried := dadd (dget_or f d0 (_open_trade_pnl s)) rd in
         _realized_pnl_today s' = dadd (_realized_pnl_today s) rd
         ∧ dget f (_open_trade_pnl s') = None
         ∧ dget b (_open_trade_pnl s') = (if deqb carried d0 then dget b (_open_trade_pnl s)
                                          else Some (dadd (dget_or b d0 (_open_trade_pnl s)) carried))
         ∧ forall c, c ≠ f → c ≠ b → dget c (_open_trade_pnl s') = dget c (_open_trade_pnl s).
Proof.
  intros Hwf Hfb Hb Hf Hpf Hpb. unfold roll_position, bind at 1, get at 1.
  destruct (dget f (_positions s)) as [ex|] eqn:Ef; [|unfold net in Hf; by rewrite Ef in Hf].
  assert (Hnf : net s f = p_quantity ex) by (unfold net; by rewrite Ef).
  rewrite Hnf in *. set (q := p_quantity ex) in *. rewrite (proj2 (Z.eqb_neq _ _) Hf). cbv zeta.
  set (cs := if 0 <? q then SELL else BUY). set (os := if 0 <? q then BUY else SELL). intros H.
  apply bind_Ok in H as (s1 & [] & H1 & H). apply bind_Ok in H as (s2 & [] & H2 & H).
  apply roll_carry in H as (-> & Hp3 & Hr3 & Ht3 & Ho3); [|done].
  assert (Hcs : signed_qty cs (Z.abs q) = - q) by (subst cs; destruct (Z.ltb_spec 0 q); simpl; lia).
  assert (Hos : signed_qty os (Z.abs q) = q) by (subst os; destruct (Z.ltb_spec 0 q); simpl; lia).
  assert (Hdir : Bool.eqb (0 <? q) (0 <? - q) = false)
    by (destruct (Z.ltb_spec 0 q), (Z.ltb_spec 0 (- q)); simpl; first [done|lia]).
  destruct (closing_fill_mult f cs (Z.abs q) pf true s s1 tt ex ltac:(lia) Ef Hf ltac:(by rewrite Hcs) H1)
    as [mult Hm].
  destruct (roll_legs f b cs os q pf pb s s1 s2 Hwf Hpf Hpb Hf Hcs Hos H1 H2) as [Hn1 Hn2].
  assert (Hb1 : net s1 b = 0) by (rewrite Hn1, Hb, decide_False; auto).
  apply apply_fill_ledger in H1; [|lia]. apply apply_fill_ledger in H2; [|lia].
  rewrite closing_pnl_flat in H2 by done. destruct H2 as (Hr2 & Ht2 & Ho2 & Hpos).
  unfold closing_pnl in H1. rewrite Ef, Hm, Hcs in H1. fold q in H1.
  rewrite (proj2 (Z.eqb_neq _ _) Hf), Hdir, Z.min_id in H1. cbn [orb] in H1. cbv zeta in H1.
  rewrite Hnf, Z.add_opp_diag_r in H1. destruct H1 as (Hr1 & Ht1 & Ho1). unfold realized_delta in *.
  destruct (Hpos Hb1) as (p & Hp & Havg).
  split; [done|]. split; [|split; [congruence|]].
  - intros c. unfold net at 1. rewrite Hp3. fold (net s2 c). rewrite Hn2, Hn1.
    repeat case_decide; subst; try done; lia.
  - exists ex, mult, p. rewrite Hp3, Hr3, Hr2. do 5 (split; [done|]). cbv zeta in Ho3. rewrite Ho2, Ho1 in Ho3.
    assert (Hbet : forall v d, dget_or f d0 (dset f v d) = v) by (intros v d; unfold dget_or; by rewrite dget_dset_eq).
    assert (Hback : forall v d, dget_or b d0 (dset f v d) = dget_or b d0 d) by (intros v d; unfold dget_or; by rewrite dget_dset_ne).
    rewrite Hbet, Hback in Ho3. split; [rewrite Ho3; case_decide; congruence|]. split.
    + rewrite Ho3. case_decide; [congruence|]. case_decide; [|done]. by rewrite dget_dset_ne.
    + intros c Hcf Hcb. rewrite Ho3. do 2 (case_decide; [done|]). by rewrite dget_dset_ne.
Qed.

(** ** Witnesses and documented divergences *)
Definition wit_clock : nat -> datetime := fun n => DT (Z.of_nat n) (Some 0).
Definition wit_mkt (c : ContractSymbol) (side : Side) (q : Z) : Order := {|
  o_contract := c; o_side := side; o_quantity := q; o_order_type := MKT; o_limit_price := None;
  o_stop_price := None; o_duration := DAY; o_parent_order_id := None; o_oco_group_id := None;
  o_client_order_id := None |}.
Definition wit_vbar (c : ContractSymbol) (px : Z) : VerifiedBar := {|
  vb_contract := c; vb_ts := DT 0 (Some 0); vb_resolution := DAY_1; vb_open := dec_of_Z px;
  vb_high := dec_of_Z (px + 10); vb_low := dec_of_Z (px - 10); vb_close := dec_of_Z px;
  vb_volume := 1; vb_n_sources_agreed := 1; vb_source_provenance_hashes := [];
  vb_verifier_run_hash := ""; vb_prev_bar_hash := None; vb_tier_used := T2_BROKER;
  vb_policy_id := "p" |}.

Definition wit_broker : MockBroker := {|
  _starting_equity := Dec 50000 0; _account_id := "A"; _block_all_trades := false;
  _restrict_supported_to := None; _clock_now_fn := wit_clock; _clock_reads := 0; _orders := [];
  _cancelled := []; _filled_qty := []; _events := []; _positions := []; _realized_pnl_today := d0;
  _trade_pnls := []; _open_trade_pnl := []; _next_order_id_seq := 0 |}.

Definition wit_slip : option TickHaircutSlippageModel := Some {| _band := DEFAULT_BAND |}.

(** Buy two, fill them on a bar, sell one by hand. *)
Definition wit_ops : list broker_op :=
  [OpPlace (wit_mkt "MNQM26" BUY 2); OpAdvance (wit_vbar "MNQM26" 15000);
   OpPlace (wit_mkt "MNQM26" SELL 1); OpFill "mock-000002" (dec_of_Z 15010) None;
   OpFill "mock-000009" (dec_of_Z 1) None].

Lemma wit_mkt_wf c side q : 0 < q → Order_wf (wit_mkt c side q).
Proof. intros Hq. split; [exact Hq|]. split; intros H; discriminate H. Qed.

Lemma wit_ops_evented : Forall op_evented wit_ops.
Proof. repeat (constructor; [split; [try exact I; try (apply wit_mkt_wf; lia)|try exact I; reflexivity]|]). constructor. Qed.

Lemma mock_invariant_witness :
  mock_wf (run_ops wit_slip wit_ops wit_broker) ∧ net (run_ops wit_slip wit_ops wit_broker) "MNQM26" = 1.
Proof.
  split; [|vm_compute; reflexivity].
  eapply (mock_invariant wit_slip (Dec 50000 0) "A" false None wit_clock wit_broker wit_ops).
  - reflexivity.
  - intros n. reflexivity.
  - eapply List.Forall_impl; [|exact wit_ops_evented]. intros op [H _]. exact H.
Defined.

Lemma mock_reconciliation_witness :
  net (run_ops wit_slip wit_ops wit_broker) "MNQM26"
  = event_net (run_ops wit_slip wit_ops wit_broker) "MNQM26"
  ∧ filled_of "mock-000001" (run_ops wit_slip wit_ops wit_broker) = 2.
Proof.
  split; [|vm_compute; reflexivity].
  destruct (mock_reconciliation wit_slip (Dec 50000 0) "A" false None wit_clock wit_broker wit_ops)
    as [H _].
  - reflexivity.
  - intros n. reflexivity.
  - exact wit_ops_evented.
  - exact (H "MNQM26"%string).
Defined.

(** One order of two lots outstanding. *)
Definition wit_outstanding : MockBroker :=
  fst (Mock_place_order (wit_mkt "MNQM26" BUY 2) wit_broker).

Lemma wit_outstanding_wf : mock_wf wit_outstanding.
Proof.
  apply place_order_wf; [|by apply wit_mkt_wf].
  apply (new_MockBroker_wf (Dec 50000 0) "A" false None wit_clock); [done|]. done.
Qed.

Lemma fill_order_functional_witness :
  exists s' e, fill_order "mock-000001" (dec_of_Z 15000) (Some 1) wit_outstanding = (s', Ok e)
               ∧ ev_event_type e = partial_fill ∧ ev_remaining_quantity e = 1.
Proof.
  destruct (fill_order_functional "mock-000001" (dec_of_Z 15000) (Some 1) wit_outstanding
              (wit_mkt "MNQM26" BUY 2)) as (s' & e & E & _ & _ & _ & _ & Ht & _ & _ & Hr).
  - exact wit_outstanding_wf.
  - vm_compute. reflexivity.
  - reflexivity.
  - reflexivity.
  - reflexivity.
  - vm_compute. split; [reflexivity|discriminate].
  - exists s', e. split; [exact E|]. rewrite Ht, Hr. vm_compute. split; reflexivity.
Defined.

Lemma advance_functional_witness :
  exists s' evs, advance (wit_vbar "MNQM26" 15000) wit_slip wit_outstanding = (s', Ok evs)
    ∧ map event_summary evs = [("mock-000001"%string, Some (Dec 1500050 (-2)), Some 2, 0)]
    ∧ advance (wit_vbar "MNQM26" 15000) wit_slip s' = (s', Ok []).
Proof.
  eexists _, _. run_as E. split; [reflexivity|].
  apply (advance_functional wit_slip (wit_vbar "MNQM26" 15000) wit_outstanding _ _ wit_outstanding_wf E).
Defined.

(** Long one lot, part of the bet already realised. *)
Definition wit_pos (c : ContractSymbol) (q : Z) : Position := {|
  p_contract := c; p_quantity := q; p_avg_entry_price := Dec 15000 0; p_unrealized_pnl := d0;
  p_realized_pnl_today := d0; p_margin_used := d0 |}.
Definition wit_held (l : list (ContractSymbol * Z)) : MockBroker :=
  set_ledger (map (fun '(c, q) => (c, wit_pos c q)) l) (Dec 1900 (-2)) []
    [("MNQM26"%string, Dec 1900 (-2))] wit_broker.
Definition wit_long : MockBroker := wit_held [("MNQM26"%string, 1)].

Lemma wit_long_wf : mock_wf wit_long.
Proof.
  apply (mock_wf_ledger wit_broker); [|reflexivity|].
  - apply (new_MockBroker_wf (Dec 50000 0) "A" false None wit_clock); done.
  - split; [|split]; simpl.
    + repeat constructor; intros [].
    + intros c p. case_decide; [|done]. intros [= <-]. subst. split; [done|]. split; [split; simpl; lia|done].
    + repeat constructor; intros [].
Qed.

(** Short one lot with the same open bet. *)
Definition wit_short : MockBroker := wit_held [("MNQM26"%string, -1)].

Lemma trade_ledger_witness :
  exists s', _apply_fill_to_position "MNQM26" BUY 1 (dec_of_Z 14980) false wit_short = (s', Ok tt)
    ∧ _trade_pnls s' = [Dec 5900 (-2)]
    ∧ (ledger_total s' - dval (_realized_pnl_today s')
       == ledger_total wit_short - dval (_realized_pnl_today wit_short))%Q.
Proof.
  eexists. run_as E. split; [reflexivity|].
  pose proof (trade_ledger "MNQM26" BUY 1 (dec_of_Z 14980) false wit_short _ tt eq_refl
                ltac:(repeat constructor; intros []) E) as T.
  cbv zeta in T. match type of T with if ?b then _ else _ => change b with false in T end.
  destruct T as (ex & mult & Hex & Hm & _ & _ & T).
  injection Hex as <-. vm_compute in Hm. injection Hm as <-. apply T; vm_compute; reflexivity.
Defined.

Lemma roll_position_flat_back_witness :
  exists s', roll_position "MNQM26" "MNQU26" (dec_of_Z 15020) (dec_of_Z 15100) wit_long = (s', Ok 1)
    ∧ net s' "MNQU26" = 1 ∧ _trade_pnls s' = [] ∧ dget "MNQU26"%string (_open_trade_pnl s') = Some (Dec 5900 (-2)).
Proof.
  eexists. run_as E.
  destruct (roll_position_flat_back "MNQM26" "MNQU26" (dec_of_Z 15020) (dec_of_Z 15100) wit_long _ 1
              wit_long_wf ltac:(discriminate) eq_refl ltac:(discriminate) eq_refl eq_refl E)
    as (_ & Hnet & Ht & ex & mult & p & Hex & Hm & _ & _ & _ & _ & Hb & _).
  split; [exact (Hnet "MNQU26"%string)|]. split; [exact Ht|].
  injection Hex as <-. vm_compute in Hm. injection Hm as <-. exact Hb.
Defined.

(** [cancel_order] and [modify_order] accept an order that is completely filled; a modification can
    leave an order with more filled than ordered. *)
Lemma cancel_filled_accepted :
  let s := run_ops wit_slip [OpPlace (wit_mkt "MNQM26" BUY 2);
                             OpFill "mock-000001" (dec_of_Z 15000) None] wit_broker in
  order_qty s "mock-000001" = filled_of "mock-000001" s
  ∧ is_ok (snd (Mock_cancel_order "mock-000001" s)) = true
  ∧ let s' := fst (Mock_modify_order "mock-000001" None None (Some 1) s) in
    order_qty s' "mock-000001" = 1 ∧ filled_of "mock-000001" s' = 2.
Proof. vm_compute. repeat split. Qed.

(** Rolling a long front position onto a short back position flips the back position and books a
    trade. *)
Lemma roll_can_flip :
  let s := wit_held [("MNQM26"%string, 2); ("MNQU26"%string, -1)] in
  let s' := fst (roll_position "MNQM26" "MNQU26" (dec_of_Z 15020) (dec_of_Z 15100) s) in
  net s' "MNQU26" = 1 ∧ length (_trade_pnls s') = 1%nat.
Proof. vm_compute. split; reflexivity. Qed.

(** A closing fill on a contract without a multiplier raises after the filled quantity moved. *)
Lemma failed_fill_advances_filled :
  let s := run_ops wit_slip [OpPlace (wit_mkt "XXM26" BUY 1); OpFill "mock-000001" d1 None;
                             OpPlace (wit_mkt "XXM26" SELL 1)] wit_broker in
  let '(s', r) := fill_order "mock-000002" d1 None s in
  r = Err RiskManagerError ∧ filled_of "mock-000002" s' = 1 ∧ _events s' = _events s
  ∧ net s' "XXM26" = 1.
Proof. vm_compute. repeat split. Qed.
