(* ===== verification/PropBroker.v ===== *)
(** * futur3/execution/adapters/prop_aware_mock_broker.py: the prop-account overlay

    [PropAwareMockBroker] is a [MockBroker] with limits, a trailing equity peak and a latched halt.
    Inherited methods run on the base state; the overridden ones are defined here. *)

From Stdlib Require Import QArith Qabs Lqa.
From S2P Require Import Prelude PyDecimal PyText PyTime Types Broker PyFloat RiskManager Slippage Verifier MockBroker.

#[local] Open Scope Z_scope.

Record PropAwareMockBroker := {
  base : MockBroker;
  _daily_loss_limit : decimal;
  _trailing_max_loss_limit : decimal;
  _max_contracts : Z;
  _initial_equity_peak : decimal;
  _equity_peak : decimal;
  _halted : option string;
}.

Definition set_prop (b : MockBroker) (peak : decimal) (halted : option string)
    (s : PropAwareMockBroker) : PropAwareMockBroker := {|
  base := b; _daily_loss_limit := _daily_loss_limit s;
  _trailing_max_loss_limit := _trailing_max_loss_limit s; _max_contracts := _max_contracts s;
  _initial_equity_peak := _initial_equity_peak s; _equity_peak := peak; _halted := halted |}.

(** An inherited method: it runs on the base state. *)
Definition inherited {A} (m : M MockBroker A) : M PropAwareMockBroker A :=
  fun s => let '(b, r) := m (base s) in (set_prop b (_equity_peak s) (_halted s) s, r).

Definition new_PropAwareMockBroker (daily_loss_limit trailing_max_loss_limit : decimal)
    (max_contracts : Z) (initial_equity_peak : option decimal) (starting_equity : decimal)
    (account_id : string) (block_all_trades : bool) (restrict_supported_to : option (list OrderType))
    (clock_now_fn : nat -> datetime) : result PropAwareMockBroker :=
  let! b := new_MockBroker starting_equity account_id block_all_trades restrict_supported_to
              clock_now_fn in
  guard! dleb daily_loss_limit d0 else ValueError in
  guard! dleb trailing_max_loss_limit d0 else ValueError in
  guard! max_contracts <? 1 else ValueError in
  guard! match initial_equity_peak with Some p => dltb p starting_equity | None => false end
    else ValueError in
  let peak := opt_or initial_equity_peak starting_equity in
  Ok {| base := b; _daily_loss_limit := daily_loss_limit;
        _trailing_max_loss_limit := trailing_max_loss_limit; _max_contracts := max_contracts;
        _initial_equity_peak := peak; _equity_peak := peak; _halted := None |}.

(** ** Internals *)
Definition _current_equity (s : PropAwareMockBroker) : decimal :=
  let unrealized := dsum (map p_unrealized_pnl (dvalues (_positions (base s)))) in
  dadd (dadd (_starting_equity (base s)) (_realized_pnl_today (base s))) unrealized.

Definition _observe (equity : decimal) : M PropAwareMockBroker unit :=
  modify (fun s => set_prop (base s) (dmax (_equity_peak s) equity) (_halted s) s).

Definition latch (reason : string) : M PropAwareMockBroker (option string) :=
  modify (fun s => set_prop (base s) (_equity_peak s) (Some reason) s) ;;
  ret (Some reason).

Definition _increasing_block_reason (resulting_abs_qty : Z)
    : M PropAwareMockBroker (option string) :=
  s <- get ;;
  match _halted s with
  | Some h => ret (Some (str_concat ["account halted ("; h; ")"]))
  | None =>
      if _max_contracts s <? resulting_abs_qty
      then ret (Some (str_concat ["resulting position "; str_int resulting_abs_qty;
                                  " exceeds max_contracts "; str_int (_max_contracts s)]))
      else
        let equity := _current_equity s in
        _observe equity ;;
        s <- get ;;
        let realized := _realized_pnl_today (base s) in
        if dleb realized (dneg (_daily_loss_limit s))
        then latch (str_concat ["DLL breached: realized "; str_decimal realized; " <= -";
                                str_decimal (_daily_loss_limit s)])
        else
          let drawdown := dsub (_equity_peak s) equity in
          if dleb (_trailing_max_loss_limit s) drawdown
          then latch (str_concat ["trailing MLL breached: drawdown "; str_decimal drawdown; " >= ";
                                  str_decimal (_trailing_max_loss_limit s)])
          else ret None
  end.

(** ** Gated interface *)
Definition held (s : PropAwareMockBroker) (c : ContractSymbol) : Z := net (base s) c.

Definition Prop_is_trade_allowed (contract : ContractSymbol) (side : Side) (quantity : Z)
    : M PropAwareMockBroker (bool * option string) :=
  do (base_ok, reason) <- inherited (Mock_is_trade_allowed contract side quantity) ;;
  if negb base_ok then ret (base_ok, reason)
  else
    s <- get ;;
    let current_qty := held s contract in
    let delta := match side with BUY => quantity | SELL => - quantity end in
    let resulting_qty := current_qty + delta in
    if Z.abs resulting_qty <? Z.abs current_qty then ret (true, None)
    else
      block <- _increasing_block_reason (Z.abs resulting_qty) ;;
      match block with
      | Some b => ret (false, Some (String.append "PropGuard: " b))
      | None => ret (true, None)
      end.

Definition Prop_get_account_metrics : M PropAwareMockBroker AccountMetrics :=
  metrics <- inherited Mock_get_account_metrics ;;
  _observe (am_equity metrics) ;;
  ret metrics.

Definition Prop_reset : M PropAwareMockBroker unit :=
  inherited reset ;;
  modify (fun s => set_prop (base s) (_initial_equity_peak s) None s).

#[global] Instance Prop_adapter : BrokerAdapter PropAwareMockBroker := {
  place_order o := inherited (Mock_place_order o);
  cancel_order id := inherited (Mock_cancel_order id);
  modify_order id l st q := inherited (Mock_modify_order id l st q);
  get_positions := inherited Mock_get_positions;
  get_account_metrics := Prop_get_account_metrics;
  is_trade_allowed := Prop_is_trade_allowed;
  supported_order_types s := Mock_supported_order_types (base s);
}.

Lemma set_prop_id s : set_prop (base s) (_equity_peak s) (_halted s) s = s.
Proof. by destruct s. Qed.

(** The overlay keeps the adapter's contract. *)
#[global] Instance Prop_laws : BrokerLaws PropAwareMockBroker.
Proof.
  constructor.
  - intros o b Hs.
    change (ot_mem (o_order_type o) (supported_order_types (B := MockBroker) (base b)) = false) in Hs.
    destruct (place_order_unsupported (B := MockBroker) o (base b) Hs) as (e & He & Hb).
    exists e. split; [|done]. change (inherited (place_order (B := MockBroker) o) b = (b, Err e)).
    unfold inherited. rewrite He. by rewrite set_prop_id.
  - intros id b. change (inherited (modify_order (B := MockBroker) id None None None) b = (b, Err ValueError)).
    unfold inherited. rewrite modify_order_empty. by rewrite set_prop_id.
  - intros c sd q b Hq. destruct (is_trade_allowed_nonpos (B := MockBroker) c sd q (base b) Hq) as [r Hr].
    exists r. change (Prop_is_trade_allowed c sd q b = (b, Ok (false, Some r))).
    unfold Prop_is_trade_allowed, bind at 1, inherited.
    change (Mock_is_trade_allowed c sd q) with (is_trade_allowed (B := MockBroker) c sd q).
    rewrite Hr. simpl. unfold ret. by rewrite set_prop_id.
Qed.

(** ** Facts *)
Lemma inherited_allowed c side q s :
  0 < q → _block_all_trades (base s) = false →
  inherited (Mock_is_trade_allowed c side q) s = (s, Ok (true, None)).
Proof.
  intros Hq Hb. unfold inherited, Mock_is_trade_allowed, bind, get. rewrite Hb.
  replace (q <=? 0) with false by lia. unfold ret. by rewrite set_prop_id.
Qed.

(** The base gate never changes the state. *)
Lemma inherited_allowed_state c side q s :
  fst (inherited (Mock_is_trade_allowed c side q) s) = s
  ∧ exists ok r, snd (inherited (Mock_is_trade_allowed c side q) s) = Ok (ok, r)
      ∧ (ok = true → 0 < q ∧ _block_all_trades (base s) = false).
Proof.
  unfold inherited, Mock_is_trade_allowed, bind, get. destruct (Z.leb_spec q 0).
  { simpl. rewrite set_prop_id. split; [done|]. by eexists _, _. }
  destruct (_block_all_trades (base s)); simpl; rewrite set_prop_id; (split; [done|]);
    eexists _, _; (split; [done|]); done.
Qed.

(** The gate on an increasing order: the branch it takes and what it leaves behind. *)
Lemma block_reason_cases n s :
  exists s' b, _increasing_block_reason n s = (s', Ok b) ∧ base s' = base s
    ∧ (dval (_equity_peak s) <= dval (_equity_peak s'))%Q
    ∧ (forall h, _halted s = Some h → _halted s' = Some h ∧ is_Some b)
    ∧ (b = None → _halted s' = None ∧ n <= _max_contracts s
         ∧ dleb (_realized_pnl_today (base s)) (dneg (_daily_loss_limit s)) = false
         ∧ _equity_peak s' = dmax (_equity_peak s) (_current_equity s)
         ∧ dleb (_trailing_max_loss_limit s) (dsub (_equity_peak s') (_current_equity s)) = false).
Proof.
  unfold _increasing_block_reason, bind at 1, get at 1. destruct (_halted s) as [h|] eqn:Eh.
  { eexists _, _. split; [reflexivity|]. split; [done|]. split; [lra|]. rewrite Eh. split; [|done].
    intros ? [= <-]. split; [done|by eexists]. }
  destruct (Z.ltb_spec (_max_contracts s) n).
  { eexists _, _. split; [reflexivity|]. split; [done|]. split; [lra|]. done. }
  cbv zeta. unfold _observe, latch, bind, modify, get, ret. cbn.
  pose proof (dval_dmax (_equity_peak s) (_current_equity s)) as [Hpk _].
  destruct (dleb _ _) eqn:E1; [|destruct (dleb (_trailing_max_loss_limit s) _) eqn:E2];
    eexists _, _; (split; [reflexivity|]); (split; [done|]); (split; [exact Hpk|]); cbn; rewrite ?Eh;
    (split; [done|]); try done; intros _; split_and!; done.
Qed.

Lemma is_trade_allowed_cases c side q s :
  exists s' ok r, Prop_is_trade_allowed c side q s = (s', Ok (ok, r)) ∧ base s' = base s
    ∧ (dval (_equity_peak s) <= dval (_equity_peak s'))%Q
    ∧ (forall h, _halted s = Some h → _halted s' = Some h)
    ∧ (ok = true →
        Z.abs (held s c + signed_qty side q) < Z.abs (held s c)
        ∨ _halted s' = None ∧ Z.abs (held s c + signed_qty side q) <= _max_contracts s
          ∧ dleb (_realized_pnl_today (base s)) (dneg (_daily_loss_limit s)) = false
          ∧ _equity_peak s' = dmax (_equity_peak s) (_current_equity s)
          ∧ dleb (_trailing_max_loss_limit s) (dsub (_equity_peak s') (_current_equity s)) = false).
Proof.
  unfold Prop_is_trade_allowed, bind at 1.
  destruct (inherited_allowed_state c side q s) as (Hst & ok & r & Hok & _).
  destruct (inherited _ s) as [s0 res]. simpl in Hst, Hok. subst s0 res. cbv zeta iota beta.
  destruct ok; cbn [negb].
  2: { eexists _, _, _. split; [reflexivity|]. split; [done|]. split; [lra|]. done. }
  unfold bind at 1, get at 1. change (match side with BUY => q | SELL => - q end) with (signed_qty side q).
  destruct (Z.ltb_spec (Z.abs (held s c + signed_qty side q)) (Z.abs (held s c))) as [Hlt|Hge].
  { eexists _, _, _. split; [reflexivity|]. split; [done|]. split; [lra|]. split; [done|]. by left. }
  destruct (block_reason_cases (Z.abs (held s c + signed_qty side q)) s)
    as (s' & b & Hrun & Hb & Hpk & Hh & Hnone).
  unfold bind. rewrite Hrun. destruct b as [b|]; unfold ret; eexists _, _, _; (split; [reflexivity|]);
    (split; [done|]); (split; [done|]).
  - split; [|done]. intros h Hhh. by destruct (Hh h Hhh).
  - split; [intros h Hhh; by destruct (Hh h Hhh)|]. intros _. right. by apply Hnone.
Qed.

(** ** Theorems *)

(** C11: risk-reducing orders are always permitted.  Unless the base broker blocks everything, an
    order of positive quantity that strictly shrinks the position is allowed, with no state change,
    whatever the limits, the drawdown and the halt say. *)
Theorem prop_reducing_always_allowed c side q s :
  0 < q → _block_all_trades (base s) = false →
  Z.abs (held s c + signed_qty side q) < Z.abs (held s c) →
  Prop_is_trade_allowed c side q s = (s, Ok (true, None)).
Proof.
  intros Hq Hb Hlt. unfold Prop_is_trade_allowed, bind at 1. rewrite inherited_allowed by done.
  cbv zeta iota beta. cbn [negb]. unfold bind at 1, get at 1.
  change (match side with BUY => q | SELL => - q end) with (signed_qty side q).
  apply Z.ltb_lt in Hlt. by rewrite Hlt.
Qed.

(** C9: soundness of the prop gates.  An order that is allowed either strictly shrinks the position
    or leaves it within the contract cap on an account that is not halted, whose realised loss is
    short of the daily limit and whose equity is less than the trailing limit below its high-water
    mark, the mark including the equity just observed. *)
Theorem prop_gate_sound c side q s s' r :
  Prop_is_trade_allowed c side q s = (s', Ok (true, r)) →
  Z.abs (held s c + signed_qty side q) < Z.abs (held s c)
  ∨ _halted s' = None ∧ Z.abs (held s c + signed_qty side q) <= _max_contracts s
    ∧ (dval (dneg (_daily_loss_limit s)) < dval (_realized_pnl_today (base s)))%Q
    ∧ (dval (_equity_peak s) <= dval (_equity_peak s'))%Q
    ∧ (dval (_current_equity s) <= dval (_equity_peak s'))%Q
    ∧ (dval (dsub (_equity_peak s') (_current_equity s)) < dval (_trailing_max_loss_limit s))%Q.
Proof.
  intros H'. destruct (is_trade_allowed_cases c side q s) as (s1 & ok & r1 & E & Hb & _ & _ & Hok).
  rewrite H' in E. injection E as <- <- <-. destruct (Hok eq_refl) as [Hl|(Hh & Hm & H1 & Hp & H2)];
    [by left|right]. apply dleb_false in H1, H2.
  split; [done|]. split; [done|]. split; [done|]. rewrite Hp in *.
  pose proof (dval_dmax (_equity_peak s) (_current_equity s)). tauto.
Qed.

(** The overlay's operations. *)
Inductive prop_op :=
| PBase (op : broker_op)
| PAllowed (c : ContractSymbol) (side : Side) (q : Z)
| PMetrics.

Section PropOps.
Context {SM : Type} `{SlippageModel SM} (slip : option SM).

Definition run_prop_op (op : prop_op) : M PropAwareMockBroker unit :=
  match op with
  | PBase op => inherited (run_op slip op)
  | PAllowed c side q => Prop_is_trade_allowed c side q ;; ret tt
  | PMetrics => Prop_get_account_metrics ;; ret tt
  end.

Fixpoint run_prop_ops (ops : list prop_op) (s : PropAwareMockBroker) : PropAwareMockBroker :=
  match ops with [] => s | op :: rest => run_prop_ops rest (fst (run_prop_op op s)) end.

(** One operation keeps a halt and never lowers the peak. *)
Lemma prop_op_step op s :
  (dval (_equity_peak s) <= dval (_equity_peak (fst (run_prop_op op s))))%Q
  ∧ forall h, _halted s = Some h → _halted (fst (run_prop_op op s)) = Some h.
Proof.
  destruct op as [op|c side q|]; cbn [run_prop_op].
  - unfold inherited. destruct (run_op slip op (base s)) as [b r]. simpl. split; [lra|done].
  - rewrite fst_bind_ret with (f := fun _ => tt).
    destruct (is_trade_allowed_cases c side q s) as (s1 & ok & r1 & -> & _ & Hp & Hh & _). done.
  - rewrite fst_bind_ret with (f := fun _ => tt). unfold Prop_get_account_metrics, bind, inherited.
    destruct (Mock_get_account_metrics (base s)) as [b [m|e]]; simpl; [|split; [lra|done]].
    split; [|done]. apply dval_dmax.
Qed.

(** A halted account stays halted, with its peak, and refuses every order that does not shrink. *)
Lemma halted_forever ops h : forall s, _halted s = Some h →
  let s' := run_prop_ops ops s in
  _halted s' = Some h ∧ (dval (_equity_peak s) <= dval (_equity_peak s'))%Q.
Proof.
  cbv zeta. induction ops as [|op ops IH]; intros s Hh; cbn [run_prop_ops]; [split; [done|lra]|].
  destruct (prop_op_step op s) as [Hp Hk]. destruct (IH _ (Hk _ Hh)) as [IH1 IH2].
  split; [done|]. lra.
Qed.

Lemma halted_refuses s h c side q : _halted s = Some h → 0 < q →
  Z.abs (held s c) <= Z.abs (held s c + signed_qty side q) →
  exists r, Prop_is_trade_allowed c side q s = (s, Ok (false, Some r))
    ∧ (_block_all_trades (base s) = false → r = str_concat ["PropGuard: account halted ("; h; ")"]).
Proof.
  intros Hrun Hq Habs. unfold Prop_is_trade_allowed, bind at 1.
  unfold inherited, Mock_is_trade_allowed, bind, get in *.
  replace (q <=? 0) with false in * by lia.
  destruct (_block_all_trades (base s)) eqn:Hb; simpl in *; rewrite set_prop_id; [by eexists|].
  change (match side with BUY => q | SELL => - q end) with (signed_qty side q).
  replace (_ <? _) with false by (symmetry; by apply Z.ltb_ge).
  unfold _increasing_block_reason, bind, get. rewrite Hrun. by eexists.
Qed.

(** An account over one of its two loss limits, the equity it would observe now included. *)
Definition breached (s : PropAwareMockBroker) : bool :=
  dleb (_realized_pnl_today (base s)) (dneg (_daily_loss_limit s))
  || dleb (_trailing_max_loss_limit s)
       (dsub (dmax (_equity_peak s) (_current_equity s)) (_current_equity s)).

(** The order that finds the breach is refused and records it. *)
Lemma breach_halts c side q s : 0 < q → _block_all_trades (base s) = false → _halted s = None →
  Z.abs (held s c) <= Z.abs (held s c + signed_qty side q) <= _max_contracts s →
  breached s = true →
  exists s' h, Prop_is_trade_allowed c side q s = (s', Ok (false, Some (String.append "PropGuard: " h)))
    ∧ _halted s' = Some h.
Proof.
  intros Hq Hb Hh [Hge Hcap] Hbr. unfold Prop_is_trade_allowed, bind at 1.
  rewrite inherited_allowed by done. cbv zeta iota beta. cbn [negb]. unfold bind at 1, get at 1.
  change (match side with BUY => q | SELL => - q end) with (signed_qty side q).
  replace (_ <? _) with false by (symmetry; by apply Z.ltb_ge).
  unfold _increasing_block_reason, bind, get, _observe, latch, modify, ret. rewrite Hh. cbn.
  apply Z.ltb_ge in Hcap. rewrite Hcap. unfold breached in Hbr.
  destruct (dleb (_realized_pnl_today (base s)) _); [by eexists _, _|].
  cbn in Hbr. rewrite Hbr. by eexists _, _.
Qed.

(** C10: a breach halts the account for good.  When an order that does not shrink a position and is
    within the contract cap meets an account over its daily or its trailing limit (or already
    halted), it is refused and the account is halted: for the reason just reported, or for the one
    it was already halted for.  From then on, through any sequence of operations short of a reset,
    the account stays halted for that same reason, its equity peak never decreases, and every order
    of positive quantity that does not strictly shrink a position is refused, naming that reason and
    changing nothing (when the base broker blocks all trading, the refusal is the base broker's). *)
Theorem prop_halt_latches s c side q :
  0 < q → _block_all_trades (base s) = false →
  Z.abs (held s c) <= Z.abs (held s c + signed_qty side q) <= _max_contracts s →
  breached s = true ∨ is_Some (_halted s) →
  exists s1 h r, Prop_is_trade_allowed c side q s = (s1, Ok (false, Some r)) ∧ _halted s1 = Some h
  ∧ match _halted s with
    | Some h0 => h = h0 ∧ s1 = s
    | None => r = String.append "PropGuard: " h
    end
  ∧ forall ops, let s' := run_prop_ops ops s1 in
    _halted s' = Some h
    ∧ (dval (_equity_peak s1) <= dval (_equity_peak s'))%Q
    ∧ forall c' side' q', 0 < q' → Z.abs (held s' c') <= Z.abs (held s' c' + signed_qty side' q') →
       exists r', Prop_is_trade_allowed c' side' q' s' = (s', Ok (false, Some r'))
         ∧ (_block_all_trades (base s') = false →
            r' = str_concat ["PropGuard: account halted ("; h; ")"]).
Proof.
  intros Hq Hb Habs Hbr.
  assert (exists s1 h r, Prop_is_trade_allowed c side q s = (s1, Ok (false, Some r)) ∧ _halted s1 = Some h
            ∧ match _halted s with
              | Some h0 => h = h0 ∧ s1 = s
              | None => r = String.append "PropGuard: " h
              end) as (s1 & h & r & Hrun & Hh & Hwhy).
  { destruct (_halted s) as [h|] eqn:Eh.
    - destruct (halted_refuses s h c side q) as (r & Hr & _); [done|done|lia|]. by exists s, h, r.
    - destruct Hbr as [Hbr|[? ?]]; [|done].
      destruct (breach_halts c side q s) as (s1 & h & Hr & Hh1); try done. by eexists s1, h, _. }
  exists s1, h, r. split; [done|]. split; [done|]. split; [done|]. intros ops. cbv zeta.
  destruct (halted_forever ops h s1 Hh) as [H1 H2]. split; [done|]. split; [done|].
  intros c' side' q'. by apply halted_refuses.
Qed.
End PropOps.

(** the equity the trailing limit watches is realised equity.  After any valid operations on a
    fresh account every open position reports zero unrealised PnL, so the overlay's current equity
    is the starting equity plus the realised PnL: an open loss moves neither the equity nor the
    drawdown until it is realised. *)
Theorem prop_equity_is_realised {SM} `{SlippageModel SM} (slip : option SM) dll mll mc ipk eq acct blk
    restrict clk s ops :
  new_PropAwareMockBroker dll mll mc ipk eq acct blk restrict clk = Ok s →
  (forall n, dt_off (clk n) = Some 0) → Forall op_valid ops →
  let s' := run_prop_ops slip (map PBase ops) s in
  _current_equity s'
  = dadd (dadd (_starting_equity (base s')) (_realized_pnl_today (base s'))) d0.
Proof.
  intros Hnew Hclk Hops. cbv zeta. unfold new_PropAwareMockBroker in Hnew. inv_ok.
  match goal with H : new_MockBroker _ _ _ _ _ = Ok ?b |- _ =>
    apply new_MockBroker_wf in H as [Hwf _]; [|done] end.
  match goal with |- context [run_prop_ops _ _ ?s0] =>
    assert (Hfin : mock_wf (base (run_prop_ops slip (map PBase ops) s0))) end.
  { match goal with |- context [run_prop_ops _ _ ?s0] => generalize s0, (Hwf : mock_wf (base s0)) end.
    clear - Hops. induction Hops as [|op ops Hop Hops IH]; intros s Hwf; [done|].
    cbn [map run_prop_ops]. apply IH. simpl. unfold inherited.
    pose proof (run_op_wf slip op (base s) Hop Hwf) as Hr. by destruct (run_op slip op (base s)). }
  match goal with |- context [run_prop_ops _ _ ?s0] => set (s' := run_prop_ops slip (map PBase ops) s0) in * end.
  unfold _current_equity. f_equal. destruct (wf_positions _ Hfin) as (Hnd & Hall & _).
  assert (Hz : forall l : dict ContractSymbol Position,
            (forall c p, In (c, p) l → p_unrealized_pnl p = d0) →
            forall acc, acc = d0 → foldl dadd acc (map p_unrealized_pnl (dvalues l)) = d0).
  { induction l as [|[c p] l IHl]; intros Hl acc Hacc; simpl; [done|].
    apply IHl; [intros; eapply Hl; right; eassumption|]. rewrite (Hl c p) by (by left). by subst. }
  apply Hz; [|done]. intros c p Hin. apply In_dget in Hin; [|done].
  by destruct (Hall _ _ Hin) as (_ & _ & _ & ?).
Qed.

(** ** Witnesses and documented divergences *)
Definition wit_prop (b : MockBroker) (halt : option string) : PropAwareMockBroker := {|
  base := b; _daily_loss_limit := Dec 1000 0; _trailing_max_loss_limit := Dec 2000 0;
  _max_contracts := 1; _initial_equity_peak := Dec 50000 0; _equity_peak := Dec 50000 0;
  _halted := halt |}.

Lemma prop_reducing_always_allowed_witness :
  Prop_is_trade_allowed "MNQM26" SELL 1 (wit_prop wit_long (Some "halted"%string))
  = (wit_prop wit_long (Some "halted"%string), Ok (true, None)).
Proof. apply prop_reducing_always_allowed; reflexivity. Defined.

Lemma prop_gate_sound_witness :
  exists s', Prop_is_trade_allowed "MNQM26" BUY 1 (wit_prop wit_broker None) = (s', Ok (true, None))
    ∧ _halted s' = None.
Proof.
  eexists. run_as E. destruct (prop_gate_sound "MNQM26" BUY 1 _ _ None E) as [H|[H _]]; [|exact H].
  vm_compute in H. discriminate H.
Defined.

(** An account that has lost its daily limit on one trade. *)
Definition wit_breached : PropAwareMockBroker :=
  run_prop_ops wit_slip
    [PBase (OpPlace (wit_mkt "MNQM26" BUY 1)); PBase (OpAdvance (wit_vbar "MNQM26" 15000));
     PBase (OpPlace (wit_mkt "MNQM26" SELL 1)); PBase (OpAdvance (wit_vbar "MNQM26" 14000))]
    (wit_prop wit_broker None).

Lemma prop_halt_latches_witness :
  exists s1 h, snd (Prop_is_trade_allowed "MNQM26" BUY 1 wit_breached)
               = Ok (false, Some (String.append "PropGuard: " h))
  ∧ let s' := run_prop_ops wit_slip [PBase (OpAdvance (wit_vbar "MNQM26" 99000)); PMetrics] s1 in
    _halted s' = Some h ∧
    snd (Prop_is_trade_allowed "MESM26" SELL 1 s')
    = Ok (false, Some (str_concat ["PropGuard: account halted ("; h; ")"])).
Proof.
  destruct (prop_halt_latches wit_slip wit_breached "MNQM26" BUY 1) as (s1 & h & r & Hrun & _ & Hr & Hops);
    [reflexivity|vm_compute; reflexivity|vm_compute; split; discriminate|left; vm_compute; reflexivity|].
  exists s1, h. assert (Hn : _halted wit_breached = None) by (vm_compute; reflexivity). rewrite Hn in Hr.
  rewrite Hrun, Hr. split; [reflexivity|].
  assert (Es : s1 = fst (Prop_is_trade_allowed "MNQM26" BUY 1 wit_breached)) by (rewrite Hrun; reflexivity).
  destruct (Hops [PBase (OpAdvance (wit_vbar "MNQM26" 99000)); PMetrics]) as (Hh & _ & Hrefuse).
  split; [exact Hh|].
  destruct (Hrefuse "MESM26" SELL 1) as (r' & -> & Hr').
  - reflexivity.
  - rewrite Es. vm_compute. discriminate.
  - cbn [snd]. rewrite Hr'; [reflexivity|]. rewrite Es. vm_compute. reflexivity.
Defined.

Lemma prop_equity_is_realised_witness :
  let s' := run_prop_ops wit_slip (map PBase wit_ops) (wit_prop wit_broker None) in
  _current_equity s'
  = dadd (dadd (_starting_equity (base s')) (_realized_pnl_today (base s'))) d0.
Proof.
  apply (prop_equity_is_realised wit_slip (Dec 1000 0) (Dec 2000 0) 1 None (Dec 50000 0) "A" false None
           wit_clock (wit_prop wit_broker None) wit_ops).
  - reflexivity.
  - intros n. reflexivity.
  - eapply List.Forall_impl; [|exact wit_ops_evented]. intros op [H _]. exact H.
Defined.

(** Orders still working do not count against the position cap: two one-lot buys, each allowed at a
    cap of one, are both filled by the next bar. *)
Lemma pending_orders_escape_cap :
  let place := PBase (OpPlace (wit_mkt "MNQM26" BUY 1)) in
  let s1 := run_prop_ops wit_slip [PAllowed "MNQM26" BUY 1; place] (wit_prop wit_broker None) in
  snd (Prop_is_trade_allowed "MNQM26" BUY 1 s1) = Ok (true, None)
  ∧ held (run_prop_ops wit_slip [PAllowed "MNQM26" BUY 1; place;
                                 PBase (OpAdvance (wit_vbar "MNQM26" 15000))] s1) "MNQM26" = 2
  ∧ _max_contracts s1 = 1.
Proof. vm_compute. repeat split. Qed.

(** A long position carrying a loss far beyond the trailing limit does not halt the account. *)
Lemma open_loss_does_not_halt :
  let s := run_prop_ops wit_slip
             [PBase (OpPlace (wit_mkt "MNQM26" BUY 1)); PBase (OpAdvance (wit_vbar "MNQM26" 15000));
              PBase (OpAdvance (wit_vbar "MNQM26" 10000)); PMetrics] (wit_prop wit_broker None) in
  snd (Prop_is_trade_allowed "MESM26" BUY 1 s) = Ok (true, None).
Proof. vm_compute. reflexivity. Qed.
