(* ===== verification/Calendar.v ===== *)
(** * futur3/contracts/trading_calendar.py: the CME trading-day calendar

    The computed holidays, the calendar with its two override sets and the trading-day arithmetic
    the roll dates are derived with.  A [frozenset] of dates is a list used through membership;
    [functools.cache] changes no result and is not modelled. *)

From S2P Require Import Prelude PyTime.

#[local] Open Scope Z_scope.

Definition MONDAY : Z := 0.
Definition WEDNESDAY : Z := 2.
Definition THURSDAY : Z := 3.
Definition FRIDAY : Z := 4.
Definition SATURDAY : Z := 5.
Definition SUNDAY : Z := 6.

Definition _SATURDAY : Z := SATURDAY.
Definition _JUNETEENTH_FIRST_CME_YEAR : Z := 2022.

Definition _observed (holiday : date) : date :=
  if weekday holiday =? SATURDAY then holiday - 1
  else if weekday holiday =? SUNDAY then holiday + 1
  else holiday.

Definition _nth_weekday (year month wd n : Z) : date :=
  let first := mk_date year month 1 in
  let offset := (wd - weekday first) mod 7 in
  mk_date year month (1 + offset + (n - 1) * 7).

Definition _last_weekday (year month wd : Z) : date :=
  let last := mk_date year month (days_in_month year month) in
  last - (weekday last - wd) mod 7.

(** Month and day of Easter Sunday. *)
Definition easter_month_day (year : Z) : Z * Z :=
  let golden := year mod 19 in
  let century := year / 100 in let year_of_century := year mod 100 in
  let century_div4 := century / 4 in let century_mod4 := century mod 4 in
  let correction := (century + 8) / 25 in
  let sunday_letter := (century - correction + 1) / 3 in
  let epact := (19 * golden + century - century_div4 - sunday_letter + 15) mod 30 in
  let yoc_div4 := year_of_century / 4 in let yoc_mod4 := year_of_century mod 4 in
  let offset := (32 + 2 * century_mod4 + 2 * yoc_div4 - epact - yoc_mod4) mod 7 in
  let month_seed := (golden + 11 * epact + 22 * offset) / 451 in
  ((epact + offset - 7 * month_seed + 114) / 31,
   (epact + offset - 7 * month_seed + 114) mod 31 + 1).

Definition _easter_sunday (year : Z) : date :=
  let '(month, day) := easter_month_day year in mk_date year month day.

Definition _anchored_holidays (year : Z) : list date :=
  [ _observed (mk_date year 1 1);
    _nth_weekday year 1 MONDAY 3;
    _nth_weekday year 2 MONDAY 3;
    _easter_sunday year - 2;
    _last_weekday year 5 MONDAY;
    _observed (mk_date year 7 4);
    _nth_weekday year 9 MONDAY 1;
    _nth_weekday year 11 THURSDAY 4;
    _observed (mk_date year 12 25) ]
  ++ (if _JUNETEENTH_FIRST_CME_YEAR <=? year then [_observed (mk_date year 6 19)] else []).

Definition date_mem (d : date) (l : list date) : bool := existsb (Z.eqb d) l.

Definition _holidays_in_year (year : Z) : list date :=
  List.filter (fun d => year_of d =? year) (_anchored_holidays year ++ _anchored_holidays (year + 1)).

Record CMETradingCalendar := {
  _extra_holidays : list date;
  _extra_trading : list date;
}.

Definition new_CMETradingCalendar (extra_holidays extra_trading_days : list date)
    : result CMETradingCalendar :=
  guard! existsb (fun d => date_mem d extra_trading_days) extra_holidays
    else TradingCalendarError in
  Ok {| _extra_holidays := extra_holidays; _extra_trading := extra_trading_days |}.

(** [CMETradingCalendar()]. *)
Definition default_calendar : CMETradingCalendar :=
  {| _extra_holidays := []; _extra_trading := [] |}.

Definition is_holiday (cal : CMETradingCalendar) (day : date) : bool :=
  if date_mem day (_extra_trading cal) then false
  else if date_mem day (_extra_holidays cal) then true
  else if _SATURDAY <=? weekday day then false
  else date_mem day (_holidays_in_year (year_of day)).

Definition is_trading_day (cal : CMETradingCalendar) (day : date) : bool :=
  if date_mem day (_extra_trading cal) then true
  else if date_mem day (_extra_holidays cal) then false
  else if _SATURDAY <=? weekday day then false
  else negb (date_mem day (_holidays_in_year (year_of day))).

(** The loop of [add_trading_days]; [fuel] is [max_calendar_steps - steps], and the code raises
    when it would take one step more. *)
Fixpoint add_trading_days_loop (cal : CMETradingCalendar) (step : Z) (fuel remaining : nat)
    (current : date) : result date :=
  match remaining with
  | O => Ok current
  | S r =>
      match fuel with
      | O => Err TradingCalendarError
      | S f =>
          let current := current + step in
          add_trading_days_loop cal step f (if is_trading_day cal current then r else remaining)
            current
      end
  end.

Definition max_calendar_steps (n : Z) : Z := Z.abs n * 7 + 30.

Definition add_trading_days (cal : CMETradingCalendar) (start : date) (n : Z) : result date :=
  if n =? 0 then Ok start
  else
    let step := if 0 <? n then 1 else -1 in
    add_trading_days_loop cal step (Z.to_nat (max_calendar_steps n)) (Z.to_nat (Z.abs n)) start.

Definition next_trading_day (cal : CMETradingCalendar) (day : date) : result date :=
  add_trading_days cal day 1.
Definition prev_trading_day (cal : CMETradingCalendar) (day : date) : result date :=
  add_trading_days cal day (-1).

(** The loop of [trading_days_between]; [fuel] is the number of days left. *)
Fixpoint trading_days_loop (cal : CMETradingCalendar) (fuel : nat) (current end_ : date) (count : Z) : Z :=
  match fuel with
  | O => count
  | S f =>
      if current <=? end_
      then trading_days_loop cal f (current + 1) end_
             (if is_trading_day cal current then count + 1 else count)
      else count
  end.

Definition trading_days_between (cal : CMETradingCalendar) (start end_ : date) : result Z :=
  guard! end_ <? start else TradingCalendarError in
  Ok (trading_days_loop cal (Z.to_nat (end_ - start + 1)) start end_ 0).

Example holidays_2026 :
  List.filter (is_holiday default_calendar) (map (fun k => mk_date 2026 1 1 + Z.of_nat k) (seq 0 365))
  = [mk_date 2026 1 1; mk_date 2026 1 19; mk_date 2026 2 16; mk_date 2026 4 3; mk_date 2026 5 25;
     mk_date 2026 6 19; mk_date 2026 7 3; mk_date 2026 9 7; mk_date 2026 11 26; mk_date 2026 12 25].
Proof. vm_compute. reflexivity. Qed.
Example new_year_2022_observed_in_2021 : is_holiday default_calendar (mk_date 2021 12 31) = true.
Proof. vm_compute. reflexivity. Qed.

(** ** Trading days stepped over *)

(** How many of the [k] days after [start], in direction [step], are trading days. *)
Fixpoint landed (cal : CMETradingCalendar) (step : Z) (start : date) (k : nat) : Z :=
  match k with
  | O => 0
  | S k => Z.b2z (is_trading_day cal (start + step)) + landed cal step (start + step) k
  end.

Lemma landed_bounds cal step s k : 0 <= landed cal step s k <= Z.of_nat k.
Proof.
  revert s. induction k as [|k IH]; intros s; simpl landed; [lia|].
  specialize (IH (s + step)). destruct (is_trading_day cal (s + step)); simpl Z.b2z; lia.
Qed.

Lemma landed_add cal step s j k :
  landed cal step s (j + k) = landed cal step s j + landed cal step (s + step * Z.of_nat j) k.
Proof.
  revert s. induction j as [|j IH]; intros s; simpl landed.
  - rewrite Z.mul_0_r, Z.add_0_r. done.
  - rewrite IH. replace (s + step + step * Z.of_nat j) with (s + step * Z.of_nat (S j)) by lia. lia.
Qed.

Lemma landed_mono cal step s j k : (j <= k)%nat → landed cal step s j <= landed cal step s k.
Proof.
  intros H. replace k with (j + (k - j))%nat by lia. rewrite landed_add.
  pose proof (landed_bounds cal step (s + step * Z.of_nat j) (k - j)). lia.
Qed.

(** A count that ends on a trading day grows there. *)
Lemma landed_last cal step s k :
  is_trading_day cal (s + step * Z.of_nat (S k)) = true →
  landed cal step s (S k) = landed cal step s k + 1.
Proof.
  intros H. replace (S k) with (k + 1)%nat by lia. rewrite landed_add. simpl landed.
  replace (s + step * Z.of_nat k + step) with (s + step * Z.of_nat (S k)) by lia.
  rewrite H. simpl. lia.
Qed.

(** The day the count reaches [n] on: [k] steps away, itself a trading day. *)
Definition lands (cal : CMETradingCalendar) (step : Z) (start : date) (n : nat) (k : nat) (d : date)
    : Prop :=
  d = start + step * Z.of_nat k ∧ landed cal step start k = Z.of_nat n ∧
  (k ≠ 0%nat → is_trading_day cal d = true).

Lemma lands_0 cal step s k d : lands cal step s 0 k d ↔ k = 0%nat ∧ d = s.
Proof.
  unfold lands. split.
  - intros (Hd & Hl & Ht). destruct k as [|k]; [split; [done|lia]|].
    exfalso. subst d. rewrite landed_last in Hl by auto.
    pose proof (landed_bounds cal step s k). lia.
  - intros [-> ->]. simpl. split_and!; [lia|done|done].
Qed.

Lemma lands_S cal step s n k d :
  lands cal step s (S n) k d ↔
  exists k', k = S k' ∧
    lands cal step (s + step) (if is_trading_day cal (s + step) then n else S n) k' d.
Proof.
  unfold lands. split.
  - intros (Hd & Hl & Ht). destruct k as [|k]; [simpl in Hl; lia|]. exists k. split; [done|].
    simpl landed in Hl. split_and!.
    + lia.
    + destruct (is_trading_day cal (s + step)); simpl Z.b2z in Hl; lia.
    + intros _. by apply Ht.
  - intros (k' & -> & Hd & Hl & Ht). split_and!.
    + lia.
    + simpl landed. destruct (is_trading_day cal (s + step)); simpl Z.b2z; lia.
    + intros _. destruct k' as [|k']; [|by apply Ht].
      replace d with (s + step) by lia. simpl in Hl.
      destruct (is_trading_day cal (s + step)); [done|lia].
Qed.

Lemma add_loop_Ok cal step fuel : forall n s d,
  add_trading_days_loop cal step fuel n s = Ok d ↔ exists k, (k <= fuel)%nat ∧ lands cal step s n k d.
Proof.
  induction fuel as [|f IH]; intros [|n] s d; simpl.
  1,3: split; [intros [= <-]; exists 0%nat; split; [lia|by apply lands_0]
              |by intros (k & _ & [-> ->]%lands_0)].
  - split; [done|]. intros (k & Hk & (k' & -> & _)%lands_S). lia.
  - rewrite IH. split.
    + intros (k & Hk & Hl). exists (S k). split; [lia|]. apply lands_S. eauto.
    + intros (k & Hk & (k' & -> & Hl)%lands_S). exists k'. split; [lia|done].
Qed.

Lemma add_loop_Err cal step fuel : forall n s e,
  add_trading_days_loop cal step fuel n s = Err e ↔
  e = TradingCalendarError ∧ landed cal step s fuel < Z.of_nat n.
Proof.
  induction fuel as [|f IH]; intros [|n] s e; cbn [add_trading_days_loop landed].
  - split; [done|]. intros [_ H]. simpl in H. lia.
  - split; [intros [= <-]; split; [done|lia] | by intros [-> _]].
  - pose proof (landed_bounds cal step (s + step) f). split; [done|].
    intros [_ Hlt]. destruct (is_trading_day _ _); simpl Z.b2z in Hlt; simpl Z.of_nat in Hlt; lia.
  - rewrite IH. destruct (is_trading_day cal (s + step)); simpl Z.b2z; split; intros [-> Hl];
      (split; [done|lia]).
Qed.

(** The direction of a shift. *)
Definition dir (n : Z) : Z := if 0 <? n then 1 else -1.

Lemma add_trading_days_Ok cal s n d : n ≠ 0 →
  add_trading_days cal s n = Ok d ↔
  exists k, (k <= Z.to_nat (max_calendar_steps n))%nat ∧ lands cal (dir n) s (Z.to_nat (Z.abs n)) k d.
Proof.
  intros Hn. unfold add_trading_days. apply Z.eqb_neq in Hn. rewrite Hn. apply add_loop_Ok.
Qed.

Lemma trading_days_loop_spec cal fuel : forall c e count,
  Z.of_nat fuel = Z.max 0 (e - c + 1) →
  trading_days_loop cal fuel c e count = count + landed cal 1 (c - 1) fuel.
Proof.
  induction fuel as [|f IH]; intros c e count H; cbn [trading_days_loop landed]; [lia|].
  destruct (Z.leb_spec c e); [|lia]. rewrite IH by lia.
  replace (c - 1 + 1) with c by lia. replace (c + 1 - 1) with c by lia.
  destruct (is_trading_day cal c); simpl Z.b2z; lia.
Qed.

Lemma trading_days_between_Ok cal s e : s <= e →
  trading_days_between cal s e = Ok (landed cal 1 (s - 1) (Z.to_nat (e - s + 1))).
Proof.
  intros H. unfold trading_days_between. apply Z.ltb_ge in H as H'. rewrite H'. simpl.
  f_equal. rewrite trading_days_loop_spec by lia. lia.
Qed.

(** Shifts in the same direction from the same day are ordered as their sizes are. *)
Lemma lands_lt cal step s n m j k a b :
  lands cal step s n j a → lands cal step s m k b → (n < m)%nat → (j < k)%nat.
Proof.
  intros (_ & Hn & _) (_ & Hm & _) Hlt. destruct (decide (j < k)%nat); [done|].
  pose proof (landed_mono cal step s k j ltac:(lia)). lia.
Qed.

Lemma add_trading_days_lt cal s n m a b :
  add_trading_days cal s n = Ok a → add_trading_days cal s m = Ok b → n < m → a < b.
Proof.
  intros Ha Hb Hlt.
  assert (Hside : forall n d, add_trading_days cal s n = Ok d →
                    (n = 0 → d = s) ∧ (0 < n → s < d) ∧ (n < 0 → d < s)).
  { intros x d Hd. destruct (decide (x = 0)) as [->|Hx].
    { injection Hd as <-. lia. }
    apply add_trading_days_Ok in Hd as (k & _ & Hd & Hl & _); [|done].
    destruct k as [|k]; [simpl in Hl; lia|]. unfold dir in Hd. destruct (Z.ltb_spec 0 x); lia. }
  pose proof (Hside _ _ Ha). pose proof (Hside _ _ Hb).
  destruct (decide (0 < n)), (decide (m < 0)); try lia.
  - apply add_trading_days_Ok in Ha as (j & _ & Ha), Hb as (k & _ & Hb); [|lia..].
    unfold dir in *. destruct (Z.ltb_spec 0 n), (Z.ltb_spec 0 m); try lia.
    pose proof (lands_lt _ _ _ _ _ _ _ _ _ Ha Hb ltac:(lia)).
    destruct Ha as [-> _], Hb as [-> _]. lia.
  - apply add_trading_days_Ok in Ha as (j & _ & Ha), Hb as (k & _ & Hb); [|lia..].
    unfold dir in *. destruct (Z.ltb_spec 0 n), (Z.ltb_spec 0 m); try lia.
    pose proof (lands_lt _ _ _ _ _ _ _ _ _ Hb Ha ltac:(lia)).
    destruct Ha as [-> _], Hb as [-> _]. lia.
Qed.

Lemma add_trading_days_trading cal s n d :
  n ≠ 0 → add_trading_days cal s n = Ok d → is_trading_day cal d = true.
Proof.
  intros Hn (k & _ & Hd & Hl & Ht)%add_trading_days_Ok; [|done]. apply Ht. intros ->.
  simpl in Hl. lia.
Qed.

(** ** The computed holidays *)
Lemma weekday_range d : 0 <= weekday d < 7.
Proof. unfold weekday. apply Z.mod_pos_bound. lia. Qed.

(** [_observed] moves a weekend date to the nearest weekday. *)
Lemma observed_weekday h : weekday (_observed h) < SATURDAY.
Proof.
  unfold _observed, weekday, SATURDAY, SUNDAY.
  repeat match goal with |- context [?a =? ?b] => destruct (Z.eqb_spec a b) end;
  Z.to_euclidean_division_equations; lia.
Qed.

(** A date observed on a weekday other than Friday and Monday did not move. *)
Lemma observed_unmoved h : weekday (_observed h) ≠ FRIDAY → weekday (_observed h) ≠ MONDAY →
  _observed h = h.
Proof.
  unfold _observed, weekday, SATURDAY, SUNDAY, FRIDAY, MONDAY.
  repeat match goal with |- context [?a =? ?b] => destruct (Z.eqb_spec a b) end;
  Z.to_euclidean_division_equations; lia.
Qed.

Lemma mk_date_shift y m a b : mk_date y m (a + b) = mk_date y m a + b.
Proof. unfold mk_date. lia. Qed.

Lemma nth_weekday_weekday y m wd n : 0 <= wd < 7 → weekday (_nth_weekday y m wd n) = wd.
Proof.
  intros H. unfold _nth_weekday. cbv zeta. rewrite !mk_date_shift. unfold weekday.
  Z.to_euclidean_division_equations. lia.
Qed.

Lemma last_weekday_weekday y m wd : 0 <= wd < 7 → weekday (_last_weekday y m wd) = wd.
Proof.
  intros H. unfold _last_weekday, weekday. Z.to_euclidean_division_equations. lia.
Qed.

Lemma easter_parts y :
  let '(m, d) := easter_month_day y in
  (m = 3 ∧ 22 <= d <= 31 ∨ m = 4 ∧ 1 <= d <= 25).
Proof.
  unfold easter_month_day. cbv zeta.
  set (epact := (19 * (y mod 19) + y / 100 - y / 100 / 4 - (y / 100 - (y / 100 + 8) / 25 + 1) / 3 + 15) mod 30).
  set (offset := (32 + 2 * (y / 100 mod 4) + 2 * (y mod 100 / 4) - epact - y mod 100 mod 4) mod 7).
  assert (He : 0 <= epact < 30) by (apply Z.mod_pos_bound; lia).
  assert (Ho : 0 <= offset < 7) by (apply Z.mod_pos_bound; lia).
  assert (Hg : 0 <= y mod 19 < 19) by (apply Z.mod_pos_bound; lia).
  clearbody epact offset. generalize dependent (y mod 19). intros g Hg.
  Z.to_euclidean_division_equations. lia.
Qed.

Lemma easter_weekday y : weekday (_easter_sunday y) = SUNDAY.
Proof.
  pose proof (easter_parts y) as Hp. unfold _easter_sunday, easter_month_day in *. cbv zeta in *.
  set (epact := (19 * (y mod 19) + y / 100 - y / 100 / 4 - (y / 100 - (y / 100 + 8) / 25 + 1) / 3 + 15) mod 30) in *.
  set (seed := (y mod 19 + 11 * epact + _) / 451) in *.
  set (offset := (32 + 2 * (y / 100 mod 4) + 2 * (y mod 100 / 4) - epact - y mod 100 mod 4) mod 7) in *.
  assert (E : exists q, 32 + 2 * (y / 100 mod 4) + 2 * (y mod 100 / 4) - epact - y mod 100 mod 4 = 7 * q + offset).
  { eexists. apply Z.div_mod. lia. }
  clearbody epact offset seed. destruct E as [q E].
  assert (exists p, p = epact + offset - 7 * seed + 114) as [p Ep] by eauto. rewrite <- Ep in *.
  assert (D : mk_date y (p / 31) (p mod 31 + 1) = mk_date y 3 (p - 92)).
  { pose proof (Z.div_mod p 31 ltac:(lia)).
    destruct Hp as [[Hm _]|[Hm _]]; rewrite Hm in *; unfold mk_date; [lia|].
    change 4 with (3 + 1). rewrite (days_before_month_succ y 3) by lia. change (days_in_month y 3) with 31. lia. }
  rewrite D. destruct (year_split y) as (a & b & c & e & Hy & Hb & Hc & He).
  unfold mk_date, days_before_month. change (cum_days 3) with 59. change (2 <? 3) with true. simpl andb.
  subst y. rewrite days_before_year_split, is_leap_split by lia. clear D Hp.
  unfold weekday, SUNDAY.
  assert (Hmods : (400 * a + 100 * b + 4 * c + e + 1) / 100 mod 4 = if ((e =? 3) && (c =? 24)) then (b + 1) mod 4 else b).
  { destruct (Z.eqb_spec e 3), (Z.eqb_spec c 24); simpl andb; Z.to_euclidean_division_equations; lia. }
  assert (Hmods2 : (400 * a + 100 * b + 4 * c + e + 1) mod 100 = if ((e =? 3) && (c =? 24)) then 0 else 4 * c + e + 1).
  { destruct (Z.eqb_spec e 3), (Z.eqb_spec c 24); simpl andb; Z.to_euclidean_division_equations; lia. }
  rewrite Hmods, Hmods2 in E. clear Hmods Hmods2.
  destruct (Z.eqb_spec e 3), (Z.eqb_spec c 24), (Z.ltb_spec c 24), (Z.eqb_spec b 3); simpl andb in *; simpl orb in *;
   cbn match in *; try lia; Z.to_euclidean_division_equations; lia.
Qed.

(** ** Distinct closures are at least a week apart *)
Lemma days_before_year_mono y1 y2 :
  y1 < y2 → days_before_year y1 + 365 * (y2 - y1) <= days_before_year y2.
Proof.
  intros H. replace y2 with (y1 + Z.of_nat (Z.to_nat (y2 - y1))) by lia.
  induction (Z.to_nat (y2 - y1)) as [|n IH]; [simpl Z.of_nat; rewrite Z.add_0_r; lia|].
  assert (Hs : forall y, days_before_year y + 365 <= days_before_year (y + 1)).
  { intros y. unfold days_before_year. Z.to_euclidean_division_equations. lia. }
  specialize (Hs (y1 + Z.of_nat n)).
  replace (y1 + Z.of_nat (S n)) with (y1 + Z.of_nat n + 1) by lia. lia.
Qed.

Lemma year_length y : days_before_year (y + 1) = days_before_year y + 365 + Z.b2z (is_leap y).
Proof.
  destruct (year_split y) as (a & b & c & e & -> & Hb & Hc & He). rewrite is_leap_split by lia.
  unfold days_before_year.
  destruct (Z.eqb_spec e 3), (Z.ltb_spec c 24), (Z.eqb_spec b 3); simpl andb; simpl orb; simpl Z.b2z;
    Z.to_euclidean_division_equations; lia.
Qed.

Definition new_year (y : Z) : date := _observed (mk_date y 1 1).

Lemma observed_near h : h - 1 <= _observed h <= h + 1.
Proof. unfold _observed. destruct (_ =? _); [lia|]. destruct (_ =? _); lia. Qed.

Lemma observed_week h : _observed (h - 7) = _observed h - 7.
Proof.
  unfold _observed. replace (weekday (h - 7)) with (weekday h)
    by (unfold weekday; Z.to_euclidean_division_equations; lia).
  destruct (_ =? _); [lia|]. destruct (_ =? _); lia.
Qed.

(** Christmas and the next New Year's Day are observed exactly a week apart. *)
Lemma christmas_new_year y : _observed (mk_date y 12 25) = new_year (y + 1) - 7.
Proof.
  unfold new_year. rewrite <- observed_week. f_equal. unfold mk_date. rewrite year_length.
  unfold days_before_month. destruct (is_leap y), (is_leap (y + 1)); cbv -[days_before_year Z.add Z.sub]; lia.
Qed.

Lemma nth_weekday_near y m wd n :
  mk_date y m 1 + 7 * (n - 1) <= _nth_weekday y m wd n <= mk_date y m 1 + 7 * (n - 1) + 6.
Proof.
  unfold _nth_weekday. cbv zeta. pose proof (Z.mod_pos_bound (wd - weekday (mk_date y m 1)) 7 ltac:(lia)).
  unfold mk_date in *. lia.
Qed.

Lemma last_weekday_near y m wd :
  mk_date y m (days_in_month y m) - 6 <= _last_weekday y m wd <= mk_date y m (days_in_month y m).
Proof.
  unfold _last_weekday. cbv zeta.
  pose proof (Z.mod_pos_bound (weekday (mk_date y m (days_in_month y m)) - wd) 7 ltac:(lia)). lia.
Qed.

Lemma easter_near y : mk_date y 3 22 <= _easter_sunday y <= mk_date y 4 25.
Proof.
  pose proof (easter_parts y) as Hp. unfold _easter_sunday. destruct (easter_month_day y) as [m d].
  pose proof (days_before_month_succ y 3 ltac:(lia)). change (3 + 1) with 4 in *.
  change (days_in_month y 3) with 31 in *. unfold mk_date.
  destruct Hp as [[-> ?]|[-> ?]]; lia.
Qed.

(** The closures of one year, in the order of the calendar, by day of the year. *)
Definition holiday_slots (y : Z) : list date :=
  [ new_year y; _nth_weekday y 1 MONDAY 3; _nth_weekday y 2 MONDAY 3; _easter_sunday y - 2;
    _last_weekday y 5 MONDAY; _observed (mk_date y 6 19); _observed (mk_date y 7 4);
    _nth_weekday y 9 MONDAY 1; _nth_weekday y 11 THURSDAY 4; new_year (y + 1) - 7 ].

Fixpoint weeks_apart (l : list date) : Prop :=
  match l with
  | a :: (b :: _) as l' => a + 6 < b ∧ weeks_apart l'
  | _ => True
  end.

Lemma slots_apart y : weeks_apart (holiday_slots y).
Proof.
  pose proof (easter_near y).
  pose proof (nth_weekday_near y 1 MONDAY 3).
  pose proof (nth_weekday_near y 2 MONDAY 3).
  pose proof (nth_weekday_near y 9 MONDAY 1).
  pose proof (nth_weekday_near y 11 THURSDAY 4).
  pose proof (last_weekday_near y 5 MONDAY).
  pose proof (observed_near (mk_date y 6 19)). pose proof (observed_near (mk_date y 7 4)).
  pose proof (observed_near (mk_date y 1 1)). pose proof (observed_near (mk_date (y + 1) 1 1)).
  pose proof (year_length y). unfold weeks_apart, holiday_slots, new_year.
  set (g1 := _nth_weekday _ _ _ _) in *. set (g2 := _nth_weekday _ _ _ _) in *.
  set (g3 := _nth_weekday _ _ _ _) in *. set (g4 := _nth_weekday _ _ _ _) in *.
  set (g5 := _easter_sunday _) in *. set (g6 := _last_weekday _ _ _) in *.
  set (g7 := _observed _) in *. set (g8 := _observed _) in *. set (g9 := _observed _) in *.
  set (g10 := _observed _) in *. clearbody g1 g2 g3 g4 g5 g6 g7 g8 g9 g10.
  unfold mk_date, days_before_month, days_in_month in *.
  destruct (is_leap y), (is_leap (y + 1)); cbv -[Z.add Z.sub Z.mul Z.lt Z.le days_before_year not] in *; lia.
Qed.

Lemma weeks_apart_pairs l a b : weeks_apart l → In a l → In b l → a < b → a + 6 < b.
Proof.
  assert (Hhead : forall l x, weeks_apart (x :: l) → forall b, In b l → x + 6 < b).
  { intros l'. induction l' as [|z l' IH]; intros x Hxl c Hc; [done|].
    destruct Hxl as [Hx Hl].
    destruct Hc as [->|Hc]; [done|]. pose proof (IH z Hl c Hc). lia. }
  induction l as [|x l IH]; [done|]. intros Hl Ha Hb Hlt.
  assert (Hl' : weeks_apart l) by (destruct l; [done|]; by destruct Hl).
  destruct Ha as [->|Ha], Hb as [->|Hb].
  - lia.
  - by eapply Hhead.
  - pose proof (Hhead l b Hl a Ha). lia.
  - by apply IH.
Qed.

Lemma anchored_slots y d : In d (_anchored_holidays y) → In d (holiday_slots y).
Proof.
  unfold _anchored_holidays. rewrite christmas_new_year. unfold holiday_slots.
  rewrite in_app_iff. fold (new_year y). destruct (_ <=? y); simpl; tauto.
Qed.

Lemma slots_range y d : In d (holiday_slots y) → new_year y <= d <= new_year (y + 1) - 7.
Proof.
  pose proof (slots_apart y) as Ha. unfold weeks_apart, holiday_slots in *. simpl In.
  generalize dependent (new_year (y + 1) - 7). generalize dependent (new_year y).
  intros a e Ha Hd. decompose [and] Ha.
  repeat match goal with H : _ ∨ _ |- _ => destruct H as [<-|H] end; try done; lia.
Qed.

Lemma new_year_mono y1 y2 : y1 <= y2 → new_year y1 <= new_year y2.
Proof.
  intros H. destruct (decide (y1 = y2)) as [->|]; [lia|].
  pose proof (days_before_year_mono y1 y2 ltac:(lia)). unfold new_year.
  pose proof (observed_near (mk_date y1 1 1)). pose proof (observed_near (mk_date y2 1 1)).
  unfold mk_date in *. change (days_before_month y1 1) with 0 in *.
  change (days_before_month y2 1) with 0 in *. lia.
Qed.

Lemma holidays_apart y1 y2 a b :
  In a (_anchored_holidays y1) → In b (_anchored_holidays y2) → a < b → a + 6 < b.
Proof.
  intros Ha%anchored_slots Hb%anchored_slots Hlt.
  pose proof (slots_range _ _ Ha). pose proof (slots_range _ _ Hb).
  destruct (Z.lt_trichotomy y1 y2) as [Hy|[->|Hy]].
  - pose proof (new_year_mono (y1 + 1) y2 ltac:(lia)). lia.
  - eapply weeks_apart_pairs; [apply slots_apart|exact Ha|exact Hb|done].
  - pose proof (new_year_mono (y2 + 1) y1 ltac:(lia)). lia.
Qed.

Lemma date_mem_In d l : date_mem d l = true ↔ In d l.
Proof.
  unfold date_mem. rewrite existsb_exists. split.
  - intros (x & Hx & ->%Z.eqb_eq). done.
  - intros Hd. exists d. split; [done|]. apply Z.eqb_refl.
Qed.

Lemma holidays_anchored y d : In d (_holidays_in_year y) → exists y', In d (_anchored_holidays y').
Proof.
  unfold _holidays_in_year. rewrite filter_In, in_app_iff. intros [[H|H] _]; eauto.
Qed.

Lemma not_trading_cases cal d : is_trading_day cal d = false →
  In d (_extra_holidays cal) ∨ SATURDAY <= weekday d ∨ exists y, In d (_holidays_in_year y).
Proof.
  unfold is_trading_day, _SATURDAY. destruct (date_mem d (_extra_trading cal)); [done|].
  destruct (date_mem d (_extra_holidays cal)) eqn:E; [intros _; left; by apply date_mem_In|].
  destruct (Z.leb_spec SATURDAY (weekday d)); [auto|]. intros Ht. right. right.
  exists (year_of d). apply date_mem_In. by apply negb_false_iff in Ht.
Qed.

(** A closed weekday. *)
Definition closed_weekday (cal : CMETradingCalendar) (d : date) : bool :=
  negb (is_trading_day cal d) && (weekday d <? SATURDAY).

Lemma closed_weekdays_apart cal a b : _extra_holidays cal = [] →
  closed_weekday cal a = true → closed_weekday cal b = true → a < b → a + 6 < b.
Proof.
  intros Hx. unfold closed_weekday. rewrite !andb_true_iff, !negb_true_iff, !Z.ltb_lt.
  intros [Ha Hwa] [Hb Hwb] Hlt. apply not_trading_cases in Ha, Hb. rewrite Hx in Ha, Hb.
  destruct Ha as [[]|[Ha|[y1 Ha]]]; [lia|]. destruct Hb as [[]|[Hb|[y2 Hb]]]; [lia|].
  apply holidays_anchored in Ha as [z1 Ha], Hb as [z2 Hb]. by eapply holidays_apart.
Qed.

(** A count of events of which no two happen is at most one. *)
Lemma at_most_one (f : nat -> bool) n :
  (forall i j, (i < j < n)%nat → f i = true → f j = true → False) →
  zsum (map (fun i => Z.b2z (f i)) (seq 0 n)) <= 1.
Proof.
  induction n as [|n IH]; intros H; [simpl; lia|].
  rewrite seq_S, map_app, zsum_app. simpl map. simpl zsum. destruct (f n) eqn:E; simpl Z.b2z.
  - rewrite zsum_zero; [lia|]. intros i Hi%in_seq. destruct (f i) eqn:Ei; [|done].
    exfalso. eapply (H i n); [lia|done|done].
  - specialize (IH (fun i j Hij => H i j ltac:(lia))). lia.
Qed.

Lemma zsum_map_add {A} (f g : A -> Z) l :
  zsum (map (fun x => f x + g x) l) = zsum (map f l) + zsum (map g l).
Proof. induction l as [|x l IH]; simpl; lia. Qed.

Lemma zsum_map_le {A} (f g : A -> Z) l :
  (forall x, In x l → f x <= g x) → zsum (map f l) <= zsum (map g l).
Proof.
  induction l as [|x l IH]; simpl; intros H; [lia|].
  pose proof (H x (or_introl eq_refl)). specialize (IH (fun y Hy => H y (or_intror Hy))). lia.
Qed.

Lemma landed_zsum cal step s k :
  landed cal step s k = zsum (map (fun i => Z.b2z (is_trading_day cal (s + step * Z.of_nat (S i)))) (seq 0 k)).
Proof.
  induction k as [|k IH]; [done|].
  rewrite seq_S, map_app, zsum_app, <- IH. simpl map. simpl zsum.
  replace (S k) with (k + 1)%nat at 1 by lia. rewrite landed_add. cbn [landed].
  replace (s + step * Z.of_nat k + step) with (s + step * Z.of_nat (S k)) by lia. lia.
Qed.

(** Seven days in a row hold two weekend days and at most one closure: four trading days. *)
Lemma landed_week cal step s : _extra_holidays cal = [] → step = 1 ∨ step = -1 →
  4 <= landed cal step s 7.
Proof.
  intros Hx Hstep. rewrite landed_zsum.
  set (day i := s + step * Z.of_nat (S i)).
  pose proof (at_most_one (fun i => closed_weekday cal (day i)) 7) as Hclosed.
  pose proof (zsum_map_le
    (fun _ => 1) (fun i => Z.b2z (is_trading_day cal (day i)) +
      (Z.b2z (closed_weekday cal (day i)) + Z.b2z (SATURDAY <=? weekday (day i)))) (seq 0 7)) as Hle.
  rewrite !zsum_map_add in Hle.
  assert (Hwk : zsum (map (fun i => Z.b2z (SATURDAY <=? weekday (day i))) (seq 0 7)) = 2).
  { subst day. pose proof (weekday_range s). unfold weekday in *.
    replace s with (s + 6 - 6) by lia. rewrite (Z.div_mod (s + 6) 7) by lia.
    generalize dependent ((s + 6) mod 7). intros r Hr.
    assert (E : forall i, weekday (7 * ((s + 6) / 7) + r - 6 + step * Z.of_nat (S i))
                          = (r + step * Z.of_nat (S i)) mod 7).
    { intros i. unfold weekday. rewrite <- (Z.mod_add (r + _) ((s + 6) / 7)) by lia. f_equal. lia. }
    unfold weekday in E. rewrite (map_ext _ (fun i => Z.b2z (SATURDAY <=? (r + step * Z.of_nat (S i)) mod 7)))
      by (intros i; by rewrite E).
    assert (r = 0 ∨ r = 1 ∨ r = 2 ∨ r = 3 ∨ r = 4 ∨ r = 5 ∨ r = 6) by lia.
    destruct Hstep as [-> | ->]; repeat destruct H as [->|H]; subst; reflexivity. }
  rewrite Hwk in Hle. change (zsum (map (fun _ : nat => 1) (seq 0 7))) with 7 in Hle.
  assert (Hc : zsum (map (fun i => Z.b2z (closed_weekday cal (day i))) (seq 0 7)) <= 1);
    [apply Hclosed|].
  2: { change (4 <= zsum (map (fun i => Z.b2z (is_trading_day cal (day i))) (seq 0 7))).
       enough (7 <= zsum (map (fun i => Z.b2z (is_trading_day cal (day i))) (seq 0 7)) +
         (zsum (map (fun i => Z.b2z (closed_weekday cal (day i))) (seq 0 7)) + 2)) by lia.
       apply Hle. intros i _. unfold closed_weekday. destruct (is_trading_day cal (day i)), 
         (Z.leb_spec SATURDAY (weekday (day i))), (Z.ltb_spec (weekday (day i)) SATURDAY);
       simpl; lia. }
  intros i j Hij Hi Hj. subst day. cbv beta in *.
  destruct Hstep; subst step.
  - pose proof (closed_weekdays_apart _ _ _ Hx Hi Hj ltac:(lia)). lia.
  - pose proof (closed_weekdays_apart _ _ _ Hx Hj Hi ltac:(lia)). lia.
Qed.

Lemma landed_weeks cal step s n : _extra_holidays cal = [] → step = 1 ∨ step = -1 →
  4 * Z.of_nat n <= landed cal step s (n * 7).
Proof.
  intros Hx Hstep. revert s. induction n as [|n IH]; intros s; [simpl; lia|].
  replace (S n * 7)%nat with (7 + n * 7)%nat by lia. rewrite landed_add.
  pose proof (landed_week cal step s Hx Hstep). specialize (IH (s + step * Z.of_nat 7)). lia.
Qed.

(** The step bound of [add_trading_days] is never reached when no holiday is added. *)
Lemma add_trading_days_total cal s n : _extra_holidays cal = [] →
  exists d, add_trading_days cal s n = Ok d.
Proof.
  intros Hx. unfold add_trading_days. destruct (Z.eqb_spec n 0); [eauto|].
  destruct (add_trading_days_loop _ _ _ _ _) as [d|e] eqn:E; [eauto|].
  apply add_loop_Err in E as [_ E].
  assert (Hstep : (if 0 <? n then 1 else -1) = 1 ∨ (if 0 <? n then 1 else -1) = -1) by (destruct (0 <? n); auto).
  pose proof (landed_weeks cal _ s (Z.to_nat (Z.abs n)) Hx Hstep).
  pose proof (landed_mono cal (if 0 <? n then 1 else -1) s (Z.to_nat (Z.abs n) * 7)
                (Z.to_nat (max_calendar_steps n)) ltac:(unfold max_calendar_steps; lia)).
  lia.
Qed.

(** Counting the same days from the other end. *)
Lemma landed_reverse cal s k : landed cal (-1) s k = landed cal 1 (s - Z.of_nat k - 1) k.
Proof.
  revert s. induction k as [|k IH]; intros s; [done|].
  replace (S k) with (k + 1)%nat at 3 by lia. rewrite landed_add. cbn [landed].
  rewrite IH.
  replace (s - Z.of_nat (S k) - 1) with (s + -1 - Z.of_nat k - 1) by lia.
  replace (s + -1 - Z.of_nat k - 1 + 1 * Z.of_nat k + 1) with (s + -1) by lia. lia.
Qed.

(** ** Theorems *)

(** C18: [add_trading_days] on every branch.  A shift of zero days is the start itself; otherwise it
    returns the day that is [k] calendar days away in the direction of [n], is a trading day, and is
    the [|n|]-th trading day landed on, with [k] within the step bound; and it raises
    [TradingCalendarError], and nothing else, exactly when the bound holds fewer than [|n|] trading
    days. *)
Theorem add_trading_days_spec cal start n :
  (n = 0 → add_trading_days cal start n = Ok start) ∧
  (n ≠ 0 → forall d, add_trading_days cal start n = Ok d ↔
     exists k : nat, Z.of_nat k <= max_calendar_steps n ∧ d = start + dir n * Z.of_nat k ∧
       is_trading_day cal d = true ∧ landed cal (dir n) start k = Z.abs n) ∧
  (n ≠ 0 → forall e, add_trading_days cal start n = Err e ↔
     e = TradingCalendarError ∧
     landed cal (dir n) start (Z.to_nat (max_calendar_steps n)) < Z.abs n).
Proof.
  assert (0 <= max_calendar_steps n) by (unfold max_calendar_steps; lia). split_and!.
  - intros ->. done.
  - intros Hn d. rewrite add_trading_days_Ok by done. unfold lands. split.
    + intros (k & Hk & -> & Hl & Ht). exists k. split_and!; [lia|done| |lia].
      apply Ht. intros ->. simpl in Hl. lia.
    + intros (k & Hk & -> & Ht & Hl). exists k. split_and!; [lia|done|lia|done].
  - intros Hn e. unfold add_trading_days. apply Z.eqb_neq in Hn. rewrite Hn.
    rewrite add_loop_Err. unfold dir. rewrite Z2Nat.id by lia. done.
Qed.

(** with no added holiday the arithmetic never fails, in either direction and whatever trading
    days are added, and the count of trading days reads the shift back: [n > 0] days forward leave
    [n] trading days in the closed interval after the start, [n] days back leave [-n] before it. *)
Theorem trading_days_roundtrip cal start n : _extra_holidays cal = [] →
  exists d, add_trading_days cal start n = Ok d ∧
    (0 < n → trading_days_between cal (start + 1) d = Ok n) ∧
    (n < 0 → trading_days_between cal d (start - 1) = Ok (- n)).
Proof.
  intros Hx. destruct (add_trading_days_total cal start n Hx) as [d Hd]. exists d. split; [done|].
  destruct (decide (n = 0)) as [->|Hn]; [lia|].
  apply add_trading_days_Ok in Hd as (k & _ & -> & Hl & _); [|done].
  assert (Hk : k ≠ 0%nat) by (intros ->; simpl in Hl; lia). unfold dir in *. split; intros Hs.
  - destruct (Z.ltb_spec 0 n); [|lia]. rewrite trading_days_between_Ok by lia.
    replace (start + 1 - 1) with start by lia.
    replace (Z.to_nat _) with k by lia. f_equal. lia.
  - destruct (Z.ltb_spec 0 n); [lia|]. rewrite trading_days_between_Ok by lia.
    rewrite landed_reverse in Hl.
    replace (start + -1 * Z.of_nat k - 1) with (start - Z.of_nat k - 1) by lia.
    replace (Z.to_nat _) with k by lia. f_equal. lia.
Qed.

(** every computed closure is a weekday, and the Easter computation behind Good Friday gives,
    for every year, a valid date from 22 March to 25 April that is a Sunday. *)
Theorem holidays_on_weekdays year :
  (forall d, In d (_holidays_in_year year) → MONDAY <= weekday d <= FRIDAY) ∧
  (let '(m, d) := easter_month_day year in
   valid_ymd year m d ∧ (m = 3 ∧ 22 <= d ∨ m = 4 ∧ d <= 25)) ∧
  weekday (_easter_sunday year) = SUNDAY.
Proof.
  split_and!; [| |apply easter_weekday].
  - intros d [y Hd]%holidays_anchored. pose proof (weekday_range d).
    assert (Hobs : forall h, d = _observed h → weekday d < 5).
    { intros h ->. apply observed_weekday. }
    assert (Hw : forall w, weekday d = w → w < 5 → weekday d < 5) by lia.
    assert (Hgf : weekday (_easter_sunday y - 2) = FRIDAY).
    { pose proof (easter_weekday y). unfold weekday, SUNDAY, FRIDAY in *.
      Z.to_euclidean_division_equations. lia. }
    unfold MONDAY, FRIDAY. enough (weekday d < 5) by lia.
    unfold _anchored_holidays in Hd. apply in_app_or in Hd as [Hd|Hd].
    + simpl in Hd. destruct Hd as [E|[E|[E|[E|[E|[E|[E|[E|[E|[]]]]]]]]]]; symmetry in E;
        try (exact (Hobs _ E)); subst d;
        rewrite ?nth_weekday_weekday, ?last_weekday_weekday, ?Hgf; unfold MONDAY, THURSDAY, FRIDAY; lia.
    + destruct (_ <=? y); [|done]. destruct Hd as [E|[]]. symmetry in E. exact (Hobs _ E).
  - pose proof (easter_parts year) as Hp. destruct (easter_month_day year) as [m d].
    unfold valid_ymd, days_in_month.
    destruct Hp as [[-> Hd]|[-> Hd]]; cbn; split_and!; lia.
Qed.

(** ** Witnesses *)
Lemma trading_days_roundtrip_witness : exists d,
  add_trading_days default_calendar (mk_date 2025 12 24) 3 = Ok d ∧ d = mk_date 2025 12 30 ∧
  trading_days_between default_calendar (mk_date 2025 12 25) d = Ok 3.
Proof.
  destruct (trading_days_roundtrip default_calendar (mk_date 2025 12 24) 3 eq_refl)
    as (d & Hd & Hf & _).
  exists d. split_and!; [exact Hd| |exact (Hf eq_refl)].
  assert (E : add_trading_days default_calendar (mk_date 2025 12 24) 3 = Ok (mk_date 2025 12 30))
    by (vm_compute; reflexivity).
  rewrite E in Hd. by injection Hd.
Defined.
Lemma add_trading_days_spec_witness :
  exists k : nat, Z.of_nat k <= max_calendar_steps (-5) ∧
    mk_date 2026 6 11 = mk_date 2026 6 18 + dir (-5) * Z.of_nat k ∧
    is_trading_day default_calendar (mk_date 2026 6 11) = true ∧
    landed default_calendar (dir (-5)) (mk_date 2026 6 18) k = Z.abs (-5).
Proof.
  destruct (add_trading_days_spec default_calendar (mk_date 2026 6 18) (-5)) as (_ & H & _).
  apply (proj1 (H ltac:(done) (mk_date 2026 6 11))). vm_compute. reflexivity.
Defined.
Lemma holidays_on_weekdays_witness :
  MONDAY <= weekday (mk_date 2026 7 3) <= FRIDAY ∧ weekday (mk_date 2026 4 5) = SUNDAY.
Proof.
  destruct (holidays_on_weekdays 2026) as (H & _ & He). split; [|exact He].
  apply H, date_mem_In. vm_compute. reflexivity.
Defined.
