(* ===== verification/Roll.v ===== *)
(** * futur3/execution/roll_executor.py: contract symbols and roll decisions

    Symbol parsing, the roll cycles, the roll calendar and divergence-check interfaces with their
    static implementations, [RollExecutor.decide_rolls] and the [RollCalendarBuilder] that derives
    roll windows from the expiry rules. *)

From S2P Require Import Prelude PyDecimal PyText PyTime Types Calendar.

#[local] Open Scope Z_scope.

Definition _SYMBOL_SUFFIX_LEN : nat := 3.
Definition _YEAR_2DIGIT_PIVOT : Z := 49.

Definition _MONTH_CODE_TO_NUM : dict string Z :=
  [("F", 1); ("G", 2); ("H", 3); ("J", 4); ("K", 5); ("M", 6); ("N", 7); ("Q", 8); ("U", 9);
   ("V", 10); ("X", 11); ("Z", 12)]%string.

Definition _QUARTERLY : list string := ["H"; "M"; "U"; "Z"]%string.
Definition _MONTHLY : list string :=
  ["F"; "G"; "H"; "J"; "K"; "M"; "N"; "Q"; "U"; "V"; "X"; "Z"]%string.
Definition _BI_MONTHLY : list string := ["G"; "J"; "M"; "Q"; "V"; "Z"]%string.
Definition _HKNUZ : list string := ["H"; "K"; "N"; "U"; "Z"]%string.

Definition ROOT_CYCLE : dict string (list string) :=
  [("ES", _QUARTERLY); ("MES", _QUARTERLY); ("NQ", _QUARTERLY); ("MNQ", _QUARTERLY);
   ("CL", _MONTHLY); ("MCL", _MONTHLY); ("GC", _BI_MONTHLY); ("MGC", _BI_MONTHLY);
   ("MBT", _MONTHLY); ("MET", _MONTHLY); ("YM", _QUARTERLY); ("RTY", _QUARTERLY);
   ("6E", _QUARTERLY); ("6A", _QUARTERLY); ("ZN", _QUARTERLY); ("ZB", _QUARTERLY);
   ("6J", _QUARTERLY); ("6B", _QUARTERLY); ("6C", _QUARTERLY); ("6S", _QUARTERLY);
   ("HG", _HKNUZ); ("SI", _HKNUZ); ("ZT", _QUARTERLY); ("ZF", _QUARTERLY); ("UB", _QUARTERLY);
   ("NKD", _QUARTERLY)]%string.

Inductive RollMethod := CALENDAR_SPREAD | SEQUENTIAL | SEQUENTIAL_EMERGENCY.

#[global] Instance RollMethod_eq_dec : EqDecision RollMethod.
Proof. solve_decision. Defined.

Definition _expand_year (yy : Z) : Z := if yy <=? _YEAR_2DIGIT_PIVOT then 2000 + yy else 1900 + yy.

(** [s[:-3]], [s[-3]] and [s[-2:]] of a symbol longer than three characters. *)
Definition parse_contract (symbol : ContractSymbol) : result (string * string * Z) :=
  guard! (String.length symbol <=? _SYMBOL_SUFFIX_LEN)%nat else RollExecutorError in
  let root := str_drop_last _SYMBOL_SUFFIX_LEN symbol in
  let code := String.substring (String.length symbol - _SYMBOL_SUFFIX_LEN) 1 symbol in
  let yy := str_take_last (_SYMBOL_SUFFIX_LEN - 1) symbol in
  guard! negb (dmem code _MONTH_CODE_TO_NUM) else RollExecutorError in
  guard! negb (str_isdigit yy) else RollExecutorError in
  let! n := of_option (digits_val yy) ValueError in
  Ok (root, code, _expand_year n).

Fixpoint index_of (x : string) (l : list string) : option nat :=
  match l with
  | [] => None
  | y :: ys => if String.eqb x y then Some O else option_map S (index_of x ys)
  end.

(** [f"{root}{code}{year % 100:02d}"] *)
Definition contract_symbol (root code : string) (year : Z) : ContractSymbol :=
  String.append root (String.append code (str_pad 2 (year mod 100))).

Definition next_contract (symbol : ContractSymbol) : result ContractSymbol :=
  let! '(root, code, year) := parse_contract symbol in
  let! cycle := of_option (dget root ROOT_CYCLE) RollExecutorError in
  let! i := of_option (index_of code cycle) RollExecutorError in
  let '(next_code, next_year) :=
    if (S i <? length cycle)%nat then (nth (S i) cycle ""%string, year)
    else (nth 0 cycle ""%string, year + 1) in
  Ok (contract_symbol root next_code next_year).

(** ** Data *)
Record OpenPosition := {
  op_contract : ContractSymbol;
  op_qty : Z;
  op_avg_price : decimal;
}.

Record RollCalendarEntry := {
  front_symbol : string;
  back_symbol : string;
  ltd_date : date;
  roll_target : date;
  roll_deadline : date;
  regime : string;
  fnd_date : option date;
}.

Definition RollCalendarEntry_post_init (e : RollCalendarEntry) : result RollCalendarEntry :=
  guard! roll_deadline e <? roll_target e else RollExecutorError in
  guard! ltd_date e <? roll_deadline e else RollExecutorError in
  Ok e.

Record RollDecision := {
  rd_front : string;
  rd_back : string;
  rd_qty : Z;
  rd_method : RollMethod;
  rd_target_date : date;
  rd_deadline_date : date;
  rd_reason : string;
}.

Record RollDivergenceResult := { divergence_flag : bool; detail : string }.

(** ** The two seams *)
Class RollCalendar (C : Type) := {
  lookup : C -> ContractSymbol -> option RollCalendarEntry;
}.

Class RollDivergenceCheck (C : Type) := {
  cross_check : C -> string -> string -> date -> RollDivergenceResult;
}.

Record StaticRollCalendar := { _by_front : dict string RollCalendarEntry }.

Definition new_StaticRollCalendar (entries : list RollCalendarEntry) : StaticRollCalendar :=
  {| _by_front := fold_left (fun d e => dset (front_symbol e) e d) entries [] |}.

#[global] Instance StaticRollCalendar_calendar : RollCalendar StaticRollCalendar :=
  { lookup c contract := dget contract (_by_front c) }.

Record StaticRollDivergenceCheck := { _divergent : list (string * string) }.

#[global] Instance StaticRollDivergence_check : RollDivergenceCheck StaticRollDivergenceCheck := {
  cross_check c front back _ :=
    if existsb (fun p => String.eqb (fst p) front && String.eqb (snd p) back) (_divergent c)
    then {| divergence_flag := true;
            detail := str_concat ["configured divergence for "; front; "->"; back]%string |}
    else {| divergence_flag := false; detail := "" |}
}.

(** ** The decision layer *)
Section RollExecutor.
Context {C D : Type} `{RollCalendar C} `{RollDivergenceCheck D}.

Record RollExecutor := { _calendar : C; _divergence : D; _supports_bag : bool }.

(** The body of the loop, for one position. *)
Definition decide_roll (ex : RollExecutor) (today : date) (p : OpenPosition) : option RollDecision :=
  if op_qty p =? 0 then None
  else
  match lookup (_calendar ex) (op_contract p) with
  | None => None
  | Some entry =>
      let decision method reason := Some {|
        rd_front := front_symbol entry; rd_back := back_symbol entry; rd_qty := op_qty p;
        rd_method := method; rd_target_date := today; rd_deadline_date := roll_deadline entry;
        rd_reason := reason |} in
      if (roll_target entry <=? today) && (today <=? roll_deadline entry) then
        let verdict := cross_check (_divergence ex) (front_symbol entry) (back_symbol entry) today in
        if divergence_flag verdict
        then decision SEQUENTIAL (str_concat ["VerifierDivergence: "; detail verdict;
                                              "; SEQUENTIAL with manual review"]%string)
        else decision (if _supports_bag ex then CALENDAR_SPREAD else SEQUENTIAL) "OnSchedule"%string
      else if roll_deadline entry <? today
      then decision SEQUENTIAL_EMERGENCY
             "PAST_DEADLINE: deadline invariant violated; manual review required"%string
      else None
  end.

Definition decide_rolls (ex : RollExecutor) (today : date) (positions : list OpenPosition)
  : list RollDecision :=
  flat_map (fun p => match decide_roll ex today p with Some d => [d] | None => [] end) positions.
End RollExecutor.
Arguments RollExecutor C D : clear implicits.

(** ** RollCalendarBuilder *)
Inductive RollAnchor := LTD | FND.

Record _RollSpec := RollSpec {
  anchor : RollAnchor;
  target_offset : Z;
  deadline_offset : Z;
}.

Definition _ROLL_SPECS : dict string _RollSpec :=
  [("ES", RollSpec LTD 5 2); ("NQ", RollSpec LTD 5 2); ("CL", RollSpec LTD 5 3);
   ("GC", RollSpec FND 7 3); ("MBT", RollSpec LTD 7 3); ("MET", RollSpec LTD 7 3);
   ("YM", RollSpec LTD 5 2); ("RTY", RollSpec LTD 5 2); ("6E", RollSpec LTD 5 2);
   ("6A", RollSpec LTD 5 2); ("ZN", RollSpec FND 5 2); ("ZB", RollSpec FND 5 2);
   ("6J", RollSpec LTD 5 2); ("6B", RollSpec LTD 5 2); ("6C", RollSpec LTD 5 2);
   ("6S", RollSpec LTD 5 2); ("HG", RollSpec FND 7 3); ("SI", RollSpec FND 7 3);
   ("ZT", RollSpec FND 5 2); ("ZF", RollSpec FND 5 2); ("UB", RollSpec FND 5 2);
   ("NKD", RollSpec LTD 5 2)]%string.

Definition _CRYPTO_24_7_LAUNCH : date := mk_date 2026 5 29.

Definition str_in (x : string) (l : list string) : bool := existsb (String.eqb x) l.

Section RollCalendarBuilder.
Variable _cal : CMETradingCalendar.

Definition _guard (day : date) : result date :=
  if is_trading_day _cal day then Ok day else prev_trading_day _cal day.

Definition _third_friday (year month : Z) : date :=
  let first := mk_date year month 1 in
  let offset := (FRIDAY - weekday first) mod 7 in
  mk_date year month (1 + offset + 14).

Definition _second_friday (year month : Z) : date :=
  let first := mk_date year month 1 in
  let offset := (FRIDAY - weekday first) mod 7 in
  mk_date year month (1 + offset + 7).

Definition _third_wednesday (year month : Z) : date :=
  let first := mk_date year month 1 in
  let offset := (WEDNESDAY - weekday first) mod 7 in
  mk_date year month (1 + offset + 14).

Definition _last_friday (year month : Z) : date :=
  let last := mk_date year month (days_in_month year month) in
  last - (weekday last - FRIDAY) mod 7.

Definition _last_trading_day_of_month (year month : Z) : result date :=
  _guard (mk_date year month (days_in_month year month)).

Fixpoint prev_trading_days (times : nat) (day : date) : result date :=
  match times with
  | O => Ok day
  | S t => let! day := prev_trading_day _cal day in prev_trading_days t day
  end.

Definition _nth_to_last_trading_day_of_month (year month n : Z) : result date :=
  let! day := _last_trading_day_of_month year month in
  prev_trading_days (Z.to_nat (n - 1)) day.

(** The month before. *)
Definition prev_month (year month : Z) : Z * Z :=
  if month =? 1 then (year - 1, 12) else (year, month - 1).

Definition _derive_cl (month year : Z) : result (date * option date * string) :=
  let '(anchor_year, anchor_month) := prev_month year month in
  let d25 := mk_date anchor_year anchor_month 25 in
  let! base := if is_trading_day _cal d25 then Ok d25 else prev_trading_day _cal d25 in
  let! ltd := add_trading_days _cal base (-3) in
  let! fnd := add_trading_days _cal ltd 2 in
  Ok (ltd, Some fnd, "RTH"%string).

Definition _derive_gc (month year : Z) : result (date * option date * string) :=
  let '(prev_year, prev_m) := prev_month year month in
  let! fnd := _last_trading_day_of_month prev_year prev_m in
  let! ltd := _nth_to_last_trading_day_of_month year month 3 in
  Ok (ltd, Some fnd, "RTH"%string).

Definition _derive_crypto (month year : Z) : result (date * option date * string) :=
  let! ltd := _guard (_last_friday year month) in
  Ok (ltd, None, if ltd <? _CRYPTO_24_7_LAUNCH then "RTH"%string else "24/7"%string).

Definition _derive_equity (root : string) (month year : Z) : result (date * option date * string) :=
  if String.eqb root "NKD"
  then let! ltd := prev_trading_day _cal (_second_friday year month) in
     Ok (ltd, None, "RTH"%string)
  else let! ltd := _guard (_third_friday year month) in
     Ok (ltd, None, "RTH"%string).

Definition _derive_fx (month year : Z) : result (date * option date * string) :=
  let! wed := _guard (_third_wednesday year month) in
  let! ltd := add_trading_days _cal wed (-2) in
  Ok (ltd, None, "RTH"%string).

Definition _derive_rates (month year : Z) : result (date * option date * string) :=
  let! last := _last_trading_day_of_month year month in
  let! ltd := add_trading_days _cal last (-7) in
  let '(prev_year, prev_m) := prev_month year month in
  let! fnd := _last_trading_day_of_month prev_year prev_m in
  Ok (ltd, Some fnd, "RTH"%string).

Definition _derive (root : string) (month year : Z) : result (date * option date * string) :=
  if str_in root ["ES"; "NQ"; "YM"; "RTY"; "NKD"]%string then _derive_equity root month year
  else if str_in root ["6E"; "6A"; "6J"; "6B"; "6C"; "6S"]%string then _derive_fx month year
  else if str_in root ["ZN"; "ZB"; "ZT"; "ZF"; "UB"]%string then _derive_rates month year
  else if String.eqb root "CL" then _derive_cl month year
  else if str_in root ["GC"; "HG"; "SI"]%string then _derive_gc month year
  else if str_in root ["MBT"; "MET"]%string then _derive_crypto month year
  else Err RollExecutorError.

Definition build (front : ContractSymbol) : result RollCalendarEntry :=
  let! '(root, code, year) := parse_contract front in
  let! spec := of_option (dget root _ROLL_SPECS) RollExecutorError in
  let! month := of_option (dget code _MONTH_CODE_TO_NUM) ValueError in
  let! '(ltd, fnd, rgm) := _derive root month year in
  let! anchor_day := match anchor spec with
                   | LTD => Ok ltd
                   | FND => of_option fnd RollExecutorError
                   end in
  let! target := add_trading_days _cal anchor_day (- target_offset spec) in
  let! deadline := add_trading_days _cal anchor_day (- deadline_offset spec) in
  let! deadline := match fnd with
                 | Some f => if String.eqb root "CL"
                             then let! before_fnd := add_trading_days _cal f (-1) in
                                  Ok (Z.min deadline before_fnd)
                             else Ok deadline
                 | None => Ok deadline
                 end in
  let! back := next_contract front in
  RollCalendarEntry_post_init {|
  front_symbol := front; back_symbol := back; ltd_date := ltd; roll_target := target;
  roll_deadline := deadline; regime := rgm; fnd_date := fnd |}.

Definition build_cycle (root : string) (start_year end_year : Z) : result (list RollCalendarEntry) :=
  let! cycle := of_option (dget root ROOT_CYCLE) RollExecutorError in
  guard! end_year <? start_year else RollExecutorError in
  rmap build
  (flat_map (fun k => map (fun code => contract_symbol root code (start_year + Z.of_nat k)) cycle)
     (seq 0 (Z.to_nat (end_year - start_year + 1)))).

Definition build_static_calendar (root : string) (start_year end_year : Z) : result StaticRollCalendar :=
  let! entries := build_cycle root start_year end_year in
  Ok (new_StaticRollCalendar entries).
End RollCalendarBuilder.

Example build_ESM26 :
  build default_calendar "ESM26" = Ok {|
    front_symbol := "ESM26"; back_symbol := "ESU26"; ltd_date := mk_date 2026 6 18;
    roll_target := mk_date 2026 6 11; roll_deadline := mk_date 2026 6 16; regime := "RTH";
    fnd_date := None |}.
Proof. vm_compute. reflexivity. Qed.
Example build_CLF26 :
  build default_calendar "CLF26" = Ok {|
    front_symbol := "CLF26"; back_symbol := "CLG26"; ltd_date := mk_date 2025 12 19;
    roll_target := mk_date 2025 12 12; roll_deadline := mk_date 2025 12 16; regime := "RTH";
    fnd_date := Some (mk_date 2025 12 23) |}.
Proof. vm_compute. reflexivity. Qed.

(** ** Symbols *)
Lemma drop_last_append a b : str_drop_last (String.length b) (String.append a b) = a.
Proof.
  unfold str_drop_last. rewrite string_length_append.
  replace (String.length a + String.length b - String.length b)%nat with (String.length a) by lia.
  by rewrite substring_append_l, substring_all by lia.
Qed.

Lemma take_last_append a b : str_take_last (String.length b) (String.append a b) = b.
Proof.
  unfold str_take_last. rewrite string_length_append.
  replace (String.length a + String.length b - String.length b)%nat with (String.length a + 0)%nat by lia.
  by rewrite substring_append_r, substring_all.
Qed.

(** A two-digit year, by inspection of the hundred. *)
Lemma year_digits y : 0 <= y < 100 →
  String.length (str_pad 2 y) = 2%nat ∧ str_isdigit (str_pad 2 y) = true.
Proof.
  intros H.
  assert (Hall : forallb (fun n => (String.length (str_pad 2 (Z.of_nat n)) =? 2)%nat
                                && str_isdigit (str_pad 2 (Z.of_nat n))) (seq 0 100) = true)
    by (vm_compute; reflexivity).
  rewrite forallb_forall in Hall. specialize (Hall (Z.to_nat y) ltac:(apply in_seq; lia)).
  rewrite Z2Nat.id in Hall by lia. apply andb_true_iff in Hall as [?%Nat.eqb_eq ?]. done.
Qed.

Lemma month_code_length code : dmem code _MONTH_CODE_TO_NUM = true → String.length code = 1%nat.
Proof.
  intros H. assert (Hin : In code (dkeys _MONTH_CODE_TO_NUM)).
  { apply dkeys_In. unfold dmem in H. destruct (dget code _); [eauto|done]. }
  simpl in Hin. repeat destruct Hin as [<-|Hin]; done.
Qed.

Lemma parse_contract_symbol root code year :
  root ≠ ""%string → dmem code _MONTH_CODE_TO_NUM = true →
  parse_contract (contract_symbol root code year) = Ok (root, code, _expand_year (year mod 100)).
Proof.
  intros Hroot Hcode. pose proof (month_code_length _ Hcode) as Hlen.
  assert (Hy : 0 <= year mod 100 < 100) by (apply Z.mod_pos_bound; lia).
  destruct (year_digits _ Hy) as [Hd Hdig]. unfold parse_contract, contract_symbol. cbv zeta.
  set (yy := str_pad 2 (year mod 100)) in *.
  assert (Hr : (1 <= String.length root)%nat) by (destruct root; simpl; [done|lia]).
  assert (Htot : String.length (String.append root (String.append code yy))
                 = (String.length root + 3)%nat) by (rewrite !string_length_append; lia).
  rewrite Htot. unfold _SYMBOL_SUFFIX_LEN. destruct (Nat.leb_spec (String.length root + 3) 3); [lia|].
  cbn [reject rbind Nat.sub].
  assert (E1 : str_drop_last 3 (String.append root (String.append code yy)) = root).
  { replace 3%nat with (String.length (String.append code yy)) by (rewrite string_length_append; lia).
    apply drop_last_append. }
  assert (E2 : String.substring (String.length root + 3 - 3) 1 (String.append root (String.append code yy)) = code).
  { replace (String.length root + 3 - 3)%nat with (String.length root + 0)%nat by lia.
    rewrite substring_append_r, substring_append_l by lia. rewrite <- Hlen. apply substring_all. }
  assert (E3 : str_take_last 2 (String.append root (String.append code yy)) = yy).
  { rewrite <- append_assoc. rewrite <- Hd. apply take_last_append. }
  rewrite E1, E2, E3, Hcode. cbn [negb reject rbind]. rewrite Hdig. cbn [negb reject rbind].
  subst yy. by rewrite digits_val_str_pad by lia.
Qed.

Lemma expand_year_id year : 1950 <= year <= 2049 → _expand_year (year mod 100) = year.
Proof.
  intros H. unfold _expand_year, _YEAR_2DIGIT_PIVOT.
  destruct (Z.leb_spec (year mod 100) 49); Z.to_euclidean_division_equations; lia.
Qed.

(** The number of a month code, and the position of a contract on the time line of months. *)
Definition month_num (code : string) : Z := dget_or code 0 _MONTH_CODE_TO_NUM.
Definition month_index (code : string) (year : Z) : Z := 12 * year + month_num code.

Lemma cycle_cases root cycle : dget root ROOT_CYCLE = Some cycle →
  root ≠ ""%string ∧
  (cycle = _QUARTERLY ∨ cycle = _MONTHLY ∨ cycle = _BI_MONTHLY ∨ cycle = _HKNUZ).
Proof.
  intros H. split; [intros ->; discriminate|].
  apply dget_In in H. simpl in H. repeat destruct H as [[= <- <-]|H]; auto. done.
Qed.

Lemma cycle_codes root cycle code : dget root ROOT_CYCLE = Some cycle → In code cycle →
  dmem code _MONTH_CODE_TO_NUM = true.
Proof.
  intros [_ H]%cycle_cases Hin.
  destruct H as [-> | [-> | [-> | ->]]]; simpl in Hin; repeat destruct Hin as [<-|Hin]; done.
Qed.

(** The successor of the [i]-th month of a cycle. *)
Definition successor (cycle : list string) (i : nat) (year : Z) : string * Z :=
  if (S i <? length cycle)%nat then (nth (S i) cycle ""%string, year)
  else (nth 0 cycle ""%string, year + 1).

Lemma index_of_nth cycle i : NoDup cycle → (i < length cycle)%nat →
  index_of (nth i cycle ""%string) cycle = Some i.
Proof.
  intros Hnd. revert i. induction Hnd as [|x l Hx Hnd IH]; intros i Hi; simpl in *; [lia|].
  destruct i as [|i]; [by rewrite String.eqb_refl|].
  assert (Hin : In (nth i l ""%string) l) by (apply nth_In; lia).
  destruct (String.eqb_spec (nth i l "") x) as [<-|_].
  - exfalso. apply Hx. by apply list_elem_of_In.
  - by rewrite IH by lia.
Qed.

Lemma cycle_NoDup root cycle : dget root ROOT_CYCLE = Some cycle → NoDup cycle.
Proof.
  intros [_ H]%cycle_cases. apply (bool_decide_unpack _).
  destruct H as [-> | [-> | [-> | ->]]]; vm_compute; done.
Qed.

Lemma successor_first cycle i year :
  cycle = _QUARTERLY ∨ cycle = _MONTHLY ∨ cycle = _BI_MONTHLY ∨ cycle = _HKNUZ →
  (i < length cycle)%nat →
  let '(code', year') := successor cycle i year in
  In code' cycle ∧ month_index (nth i cycle ""%string) year < month_index code' year' ∧
  forall c y, In c cycle → month_index (nth i cycle ""%string) year < month_index c y →
    month_index code' year' <= month_index c y.
Proof.
  intros Hc Hi. assert (Hin : In i (seq 0 (length cycle))) by (apply in_seq; lia). clear Hi.
  destruct Hc as [-> | [-> | [-> | ->]]]; simpl in Hin; repeat destruct Hin as [<-|Hin]; try done;
    cbn [successor Nat.ltb Nat.leb length nth _QUARTERLY _MONTHLY _BI_MONTHLY _HKNUZ];
    (split_and!; [simpl; tauto | cbv -[Z.add Z.mul Z.lt Z.le]; lia |
      intros c y Hc; simpl in Hc; repeat destruct Hc as [<-|Hc]; try done;
      cbv -[Z.add Z.mul Z.lt Z.le]; lia]).
Qed.

(** the symbol a root, a month code and a year are written as reads back as the same root, code
    and year for every year from 1950 to 2049, and [next_contract] of a cycle month is the first
    contract of the root's cycle after it: its symbol is written with the successor code and year,
    which come strictly later, and no other month of the cycle comes in between. *)
Theorem next_contract_spec root cycle i year :
  dget root ROOT_CYCLE = Some cycle → (i < length cycle)%nat → 1950 <= year <= 2049 →
  let code := nth i cycle ""%string in
  parse_contract (contract_symbol root code year) = Ok (root, code, year) ∧
  exists code' year', In code' cycle ∧ month_index code year < month_index code' year' ∧
    next_contract (contract_symbol root code year) = Ok (contract_symbol root code' year') ∧
    (forall c y, In c cycle → month_index code year < month_index c y →
       month_index code' year' <= month_index c y).
Proof.
  intros Hc Hi Hy code. pose proof (cycle_cases _ _ Hc) as [Hroot Hcases].
  assert (Hin : In code cycle) by (by apply nth_In).
  assert (Hp : parse_contract (contract_symbol root code year) = Ok (root, code, year)).
  { rewrite parse_contract_symbol; [|done|by eapply cycle_codes]. by rewrite expand_year_id. }
  split; [exact Hp|]. pose proof (successor_first cycle i year Hcases Hi) as Hs.
  destruct (successor cycle i year) as [code' year'] eqn:E. destruct Hs as (Hin' & Hlt & Hmin).
  exists code', year'. split_and!; [done|done| |done].
  unfold next_contract. rewrite Hp. cbn [rbind]. rewrite Hc. cbn [of_option rbind]. subst code.
  rewrite index_of_nth by (done || by eapply cycle_NoDup). cbn [of_option rbind].
  unfold successor in E. by rewrite E.
Qed.

Section DecideRolls.
Context {C D : Type} `{RollCalendar C} `{RollDivergenceCheck D}.

(** The method the code documents for a position whose roll window has opened. *)
Definition roll_method (ex : RollExecutor C D) (today : date) (entry : RollCalendarEntry) : RollMethod :=
  if roll_deadline entry <? today then SEQUENTIAL_EMERGENCY
  else if divergence_flag (cross_check (_divergence ex) (front_symbol entry) (back_symbol entry) today)
  then SEQUENTIAL
  else if _supports_bag ex then CALENDAR_SPREAD else SEQUENTIAL.

(** C16: no held position is ever silently left unrolled.  With a calendar whose entries passed their
  own check, a decision for [q] contracts of a symbol is in the output exactly when some position
  holds that non-zero quantity of a tracked contract whose roll window has opened; it names the
  entry's own pair and deadline, and its method is emergency after the deadline, sequential on a
  divergence or a broker without combo orders, and a calendar spread otherwise.  There is at most
  one decision per position. *)
Theorem decide_rolls_spec (ex : RollExecutor C D) today positions :
  (forall c e, lookup (_calendar ex) c = Some e → roll_target e <= roll_deadline e) →
  (forall front back q meth target deadline,
     (exists reason, In {| rd_front := front; rd_back := back; rd_qty := q; rd_method := meth;
                           rd_target_date := target; rd_deadline_date := deadline;
                           rd_reason := reason |} (decide_rolls ex today positions)) ↔
     exists p entry, In p positions ∧ op_qty p = q ∧ q ≠ 0 ∧
       lookup (_calendar ex) (op_contract p) = Some entry ∧ roll_target entry <= today ∧
       front = front_symbol entry ∧ back = back_symbol entry ∧
       target = today ∧ deadline = roll_deadline entry ∧ meth = roll_method ex today entry) ∧
  (length (decide_rolls ex today positions) <= length positions)%nat.
Proof.
  intros Hwf. split.
  - intros front back q meth target deadline. unfold decide_rolls. split.
    + intros (reason & Hin). apply in_flat_map in Hin as (p & Hp & Hin).
      exists p. destruct (decide_roll ex today p) as [d|] eqn:E; [|done].
      destruct Hin as [->|[]]. unfold decide_roll in E. cbv zeta in E.
      destruct (Z.eqb_spec (op_qty p) 0) as [|Hq]; [done|].
      destruct (lookup _ _) as [entry|] eqn:El; [|done]. exists entry. unfold roll_method.
      destruct (Z.leb_spec (roll_target entry) today), (Z.leb_spec today (roll_deadline entry)),
        (Z.ltb_spec (roll_deadline entry) today); try lia; simpl in E;
        try (specialize (Hwf _ _ El); lia); try done;
        try (destruct (divergence_flag _)); injection E as ? ? ? ? ? ? ?; subst; split_and!; done || auto.
    + intros (p & entry & Hp & <- & Hq & El & Ht & -> & -> & -> & -> & ->).
      assert (Hd : exists reason, decide_roll ex today p = Some {|
                rd_front := front_symbol entry; rd_back := back_symbol entry; rd_qty := op_qty p;
                rd_method := roll_method ex today entry; rd_target_date := today;
                rd_deadline_date := roll_deadline entry; rd_reason := reason |}).
      { unfold decide_roll, roll_method. cbv zeta. apply Z.eqb_neq in Hq. rewrite Hq, El.
        apply Z.leb_le in Ht. rewrite Ht.
        destruct (Z.leb_spec today (roll_deadline entry)), (Z.ltb_spec (roll_deadline entry) today);
          try lia; simpl; [destruct (divergence_flag _)|]; eauto. }
      destruct Hd as [reason Hd]. exists reason. apply in_flat_map. exists p. split; [done|].
      rewrite Hd. by left.
  - unfold decide_rolls. induction positions as [|p ps IH]; simpl; [lia|].
    rewrite length_app. destruct (decide_roll ex today p); simpl; lia.
Qed.
End DecideRolls.

(** ** Derived roll windows *)
Section Windows.
Variable cal : CMETradingCalendar.
Hypothesis Hplain : _extra_holidays cal = [].

(** Four trading days a week bound how far a shift reaches. *)
Lemma shift_near s n d (j : nat) : n ≠ 0 → add_trading_days cal s n = Ok d →
  Z.abs n <= 4 * Z.of_nat j → Z.abs (d - s) <= 7 * Z.of_nat j.
Proof.
  intros Hn Hd Hj. apply add_trading_days_Ok in Hd as (k & _ & -> & Hl & Ht); [|done].
  assert (Hdir : dir n = 1 ∨ dir n = -1) by (unfold dir; destruct (0 <? n); auto).
  destruct k as [|k]; [simpl in Hl; lia|]. rewrite landed_last in Hl by (apply Ht; done).
  destruct (decide (S k <= j * 7)%nat); [destruct Hdir as [-> | ->]; lia|]. exfalso.
  pose proof (landed_weeks cal (dir n) s j Hplain Hdir).
  pose proof (landed_mono cal (dir n) s (j * 7) k ltac:(lia)). lia.
Qed.

Lemma shift_back s n : 0 < n → exists d,
  add_trading_days cal s (- n) = Ok d ∧ d < s ∧
  forall j, n <= 4 * Z.of_nat j → s - 7 * Z.of_nat j <= d.
Proof.
  intros Hn. destruct (add_trading_days_total cal s (- n) Hplain) as [d Hd]. exists d.
  split_and!; [done| |].
  - eapply (add_trading_days_lt cal s (- n) 0); [done|done|lia].
  - intros j Hj. pose proof (shift_near s (- n) d j ltac:(lia) Hd ltac:(lia)). lia.
Qed.

Lemma guard_near day : exists d, _guard cal day = Ok d ∧ day - 7 <= d <= day.
Proof.
  unfold _guard. destruct (is_trading_day cal day); [exists day; split; [done|lia]|].
  destruct (shift_back day 1 ltac:(lia)) as (d & Hd & Hlt & Hj). exists d.
  split; [exact Hd|]. specialize (Hj 1%nat ltac:(lia)). lia.
Qed.

(** The trading day before the second trading day after [s] is past [s]. *)
Lemma before_second s x y :
  add_trading_days cal s 2 = Ok x → add_trading_days cal x (-1) = Ok y → s < y.
Proof.
  intros Hx Hy. pose proof (add_trading_days_lt cal s 0 2 s x eq_refl Hx ltac:(lia)) as Hsx.
  pose proof (add_trading_days_lt cal x (-1) 0 y x Hy eq_refl ltac:(lia)) as Hyx.
  pose proof (add_trading_days_trading cal x (-1) y ltac:(lia) Hy) as Hty.
  apply add_trading_days_Ok in Hx as (k & _ & Hxk & Hlx & Htx); [|lia].
  apply add_trading_days_Ok in Hy as (j & _ & Hyj & Hly & _); [|lia].
  change (dir 2) with 1 in *. change (dir (-1)) with (-1) in *.
  destruct (decide (s < y)) as [|Hle]; [done|]. exfalso.
  destruct k as [|k]; [simpl in Hlx; lia|].
  assert (Hlk : landed cal 1 s k = 1).
  { rewrite landed_last in Hlx by (rewrite <- Hxk; apply Htx; done). lia. }
  rewrite landed_reverse in Hly. replace (x - Z.of_nat j - 1) with (y - 1) in Hly by lia.
  assert (Hj : j = (S (Z.to_nat (s - y)) + k)%nat) by lia. rewrite Hj, landed_add in Hly.
  replace (y - 1 + 1 * Z.of_nat (S (Z.to_nat (s - y)))) with s in Hly by lia.
  rewrite Hlk in Hly. cbn [landed] in Hly. replace (y - 1 + 1) with y in Hly by lia.
  rewrite Hty in Hly. simpl Z.b2z in Hly.
  pose proof (landed_bounds cal 1 y (Z.to_nat (s - y))). lia.
Qed.

(** The last day of the month before comes right before the first. *)
Lemma prev_month_end year month : 1 <= month <= 12 →
  let '(py, pm) := prev_month year month in
  mk_date py pm (days_in_month py pm) = mk_date year month 1 - 1.
Proof.
  intros Hm. unfold prev_month. destruct (Z.eqb_spec month 1) as [->|].
  - pose proof (year_length (year - 1)) as Hl. replace (year - 1 + 1) with year in Hl by lia.
  unfold mk_date, days_before_month, days_in_month. rewrite Hl.
  destruct (is_leap (year - 1)), (is_leap year); cbv -[Z.add Z.sub days_before_year]; lia.
  - pose proof (days_before_month_succ year (month - 1) ltac:(lia)) as Hs.
  replace (month - 1 + 1) with month in Hs by lia. unfold mk_date. rewrite Hs. lia.
Qed.

Lemma month_long year month : 28 <= days_in_month year month.
Proof.
  unfold days_in_month. destruct (_ =? 2); [destruct (is_leap year); lia|].
  destruct (_ || _); lia.
Qed.

Lemma mk_date_day y m d : mk_date y m d = mk_date y m 1 + (d - 1).
Proof. unfold mk_date. lia. Qed.

(** What the derivation promises the window arithmetic: the last trading day and, for a deliverable
  contract, the first notice day, in the order its roll anchor needs. *)
Definition derived (root : string) (spec : _RollSpec) (r : result (date * option date * string)) : Prop :=
  exists ltd fnd rgm, r = Ok (ltd, fnd, rgm) ∧
  match anchor spec with
  | LTD => match fnd with
           | None => root ≠ "CL"%string
           | Some f => root = "CL"%string ∧ add_trading_days cal ltd 2 = Ok f
           end
  | FND => exists f, fnd = Some f ∧ f < ltd ∧ root ≠ "CL"%string
  end.

Lemma derive_ltd root spec r :
  anchor spec = LTD → root ≠ "CL"%string →
  (exists ltd rgm, r = Ok (ltd, None, rgm)) → derived root spec r.
Proof. intros Ha Hr (ltd & rgm & ->). exists ltd, None, rgm. by rewrite Ha. Qed.

Lemma derive_equity_ok root month year : exists ltd rgm,
  _derive_equity cal root month year = Ok (ltd, None, rgm).
Proof.
  unfold _derive_equity. destruct (String.eqb root "NKD").
  - destruct (shift_back (_second_friday year month) 1 ltac:(lia)) as (d & Hd & _).
  unfold prev_trading_day. change (-1) with (- (1)). rewrite Hd. simpl. eauto.
  - destruct (guard_near (_third_friday year month)) as (d & -> & _). simpl. eauto.
Qed.

Lemma derive_fx_ok month year : exists ltd rgm, _derive_fx cal month year = Ok (ltd, None, rgm).
Proof.
  unfold _derive_fx. destruct (guard_near (_third_wednesday year month)) as (d & -> & _). simpl.
  destruct (shift_back d 2 ltac:(lia)) as (e & He & _). change (-2) with (- (2)). rewrite He. simpl. eauto.
Qed.

Lemma derive_crypto_ok month year : exists ltd rgm, _derive_crypto cal month year = Ok (ltd, None, rgm).
Proof.
  unfold _derive_crypto. destruct (guard_near (_last_friday year month)) as (d & -> & _). simpl. eauto.
Qed.

Lemma derive_cl_ok month year : exists ltd f rgm,
  _derive_cl cal month year = Ok (ltd, Some f, rgm) ∧ add_trading_days cal ltd 2 = Ok f.
Proof.
  unfold _derive_cl. destruct (prev_month year month) as [ay am].
  pose proof (guard_near (mk_date ay am 25)) as (b & Hb & _). unfold _guard in Hb. cbv zeta. rewrite Hb.
  cbn [rbind]. destruct (shift_back b 3 ltac:(lia)) as (ltd & Hltd & _).
  change (-3) with (- (3)). rewrite Hltd. cbn [rbind].
  destruct (add_trading_days_total cal ltd 2 Hplain) as [f Hf]. rewrite Hf. cbn [rbind]. eauto 6.
Qed.

Lemma derive_gc_ok month year : 1 <= month <= 12 → exists ltd f rgm,
  _derive_gc cal month year = Ok (ltd, Some f, rgm) ∧ f < ltd.
Proof.
  intros Hm. pose proof (prev_month_end year month Hm) as Hp. unfold _derive_gc.
  destruct (prev_month year month) as [py pm]. unfold _last_trading_day_of_month.
  destruct (guard_near (mk_date py pm (days_in_month py pm))) as (f & -> & Hf). cbn [rbind].
  unfold _nth_to_last_trading_day_of_month, _last_trading_day_of_month.
  destruct (guard_near (mk_date year month (days_in_month year month))) as (l & -> & Hl). cbn [rbind].
  change (Z.to_nat (3 - 1)) with 2%nat. cbn [prev_trading_days]. unfold prev_trading_day.
  destruct (shift_back l 1 ltac:(lia)) as (l1 & H1 & _ & B1). specialize (B1 1%nat ltac:(lia)).
  destruct (shift_back l1 1 ltac:(lia)) as (l2 & H2 & _ & B2). specialize (B2 1%nat ltac:(lia)).
  change (-1) with (- (1)). rewrite H1. cbn [rbind]. rewrite H2. cbn [rbind].
  exists l2, f, "RTH"%string. split; [done|].
  pose proof (month_long year month). rewrite (mk_date_day year month) in Hl. lia.
Qed.

Lemma derive_rates_ok month year : 1 <= month <= 12 → exists ltd f rgm,
  _derive_rates cal month year = Ok (ltd, Some f, rgm) ∧ f < ltd.
Proof.
  intros Hm. pose proof (prev_month_end year month Hm) as Hp. unfold _derive_rates, _last_trading_day_of_month.
  destruct (guard_near (mk_date year month (days_in_month year month))) as (l & -> & Hl). cbn [rbind].
  destruct (shift_back l 7 ltac:(lia)) as (ltd & H1 & _ & B1). specialize (B1 2%nat ltac:(lia)).
  change (-7) with (- (7)). rewrite H1. cbn [rbind].
  destruct (prev_month year month) as [py pm].
  destruct (guard_near (mk_date py pm (days_in_month py pm))) as (f & -> & Hf). cbn [rbind].
  exists ltd, f, "RTH"%string. split; [done|].
  pose proof (month_long year month). rewrite (mk_date_day year month) in Hl. lia.
Qed.

Lemma derive_ok root spec month year : dget root _ROLL_SPECS = Some spec → 1 <= month <= 12 →
  derived root spec (_derive cal root month year) ∧ 0 < deadline_offset spec < target_offset spec.
Proof.
  intros H Hm. apply dget_In in H. unfold _ROLL_SPECS in H. simpl In in H.
  repeat (destruct H as [[= <- <-]|H]; [split; [|simpl; lia]|]); try done;
  first [ apply derive_ltd; [done|done|]; first [apply derive_equity_ok|apply derive_fx_ok|apply derive_crypto_ok]
        | destruct (derive_cl_ok month year) as (ltd & f & rgm & E & Hf); exists ltd, (Some f), rgm; done
        | destruct (derive_rates_ok month year Hm) as (ltd & f & rgm & E & Hf);
            exists ltd, (Some f), rgm; split; [exact E|]; simpl; eauto
        | destruct (derive_gc_ok month year Hm) as (ltd & f & rgm & E & Hf);
            exists ltd, (Some f), rgm; split; [exact E|]; simpl; eauto ].
Qed.
End Windows.

Lemma month_of_code code : dmem code _MONTH_CODE_TO_NUM = true → exists m,
  dget code _MONTH_CODE_TO_NUM = Some m ∧ 1 <= m <= 12.
Proof.
  unfold dmem. destruct (dget code _) as [m|] eqn:E; [|done]. intros _. exists m. split; [done|].
  apply dget_In in E. simpl in E. repeat destruct E as [[= _ <-]|E]; lia || done.
Qed.

(** The day an entry's roll is anchored on. *)
Definition anchor_day (spec : _RollSpec) (e : RollCalendarEntry) : option date :=
  match anchor spec with LTD => Some (ltd_date e) | FND => fnd_date e end.

(** A window the builder may return for [symbol]: it opens strictly before its deadline, the deadline
    falls strictly before the last trading day and before any first notice day, both ends are trading
    days exactly the rule's number of trading days before the anchor, and the back contract is the
    next one of the cycle. *)
Definition window_ok (cal : CMETradingCalendar) (spec : _RollSpec) (symbol : ContractSymbol)
    (e : RollCalendarEntry) : Prop :=
  front_symbol e = symbol ∧ next_contract symbol = Ok (back_symbol e) ∧
  roll_target e < roll_deadline e < ltd_date e ∧
  (forall f, fnd_date e = Some f → roll_deadline e < f) ∧
  is_trading_day cal (roll_target e) = true ∧ is_trading_day cal (roll_deadline e) = true ∧
  exists a, anchor_day spec e = Some a ∧
    add_trading_days cal a (- target_offset spec) = Ok (roll_target e) ∧
    add_trading_days cal a (- deadline_offset spec) = Ok (roll_deadline e).

(** The two ends of a window are reached, in order and before the anchor. *)
Lemma roll_days cal spec a : _extra_holidays cal = [] → 0 < deadline_offset spec < target_offset spec →
  exists t d, add_trading_days cal a (- target_offset spec) = Ok t ∧
    add_trading_days cal a (- deadline_offset spec) = Ok d ∧ t < d < a ∧
    is_trading_day cal t = true ∧ is_trading_day cal d = true.
Proof.
  intros Hx Hoff. destruct (add_trading_days_total cal a (- target_offset spec) Hx) as [t Ht].
  destruct (add_trading_days_total cal a (- deadline_offset spec) Hx) as [d Hd].
  exists t, d. split_and!; [done|done| | | |].
  - by eapply (add_trading_days_lt cal a); [exact Ht|exact Hd|lia].
  - by eapply (add_trading_days_lt cal a _ 0); [exact Hd|done|lia].
  - by eapply add_trading_days_trading; [|exact Ht]; lia.
  - by eapply add_trading_days_trading; [|exact Hd]; lia.
Qed.

Lemma next_contract_ok root cycle code year : dget root ROOT_CYCLE = Some cycle → In code cycle →
  exists back, next_contract (contract_symbol root code year) = Ok back.
Proof.
  intros Hc Hin. unfold next_contract. pose proof (cycle_cases _ _ Hc) as [Hroot _].
  rewrite parse_contract_symbol by (done || by eapply cycle_codes). cbn [rbind]. rewrite Hc.
  cbn [of_option rbind]. apply (In_nth _ _ ""%string) in Hin as (i & Hi & <-).
  rewrite index_of_nth by (done || by eapply cycle_NoDup). cbn [of_option rbind].
  destruct (_ <? _)%nat; eauto.
Qed.

(** The entry of ordered days passes its own check. *)
Lemma entry_window cal spec symbol back ltd t d a rgm fnd :
  next_contract symbol = Ok back → t < d < ltd → (forall f, fnd = Some f → d < f) →
  is_trading_day cal t = true → is_trading_day cal d = true →
  (match anchor spec with LTD => Some ltd | FND => fnd end) = Some a →
  add_trading_days cal a (- target_offset spec) = Ok t →
  add_trading_days cal a (- deadline_offset spec) = Ok d →
  exists e, (let! back := next_contract symbol in
    RollCalendarEntry_post_init {| front_symbol := symbol; back_symbol := back; ltd_date := ltd;
      roll_target := t; roll_deadline := d; regime := rgm; fnd_date := fnd |}) = Ok e ∧
    window_ok cal spec symbol e.
Proof.
  intros Hn Hlt Hf Ht Hd Ha Hat Had. rewrite Hn. cbn [rbind]. unfold RollCalendarEntry_post_init. simpl.
  destruct (Z.ltb_spec d t), (Z.ltb_spec ltd d); try lia. simpl. eexists. split; [reflexivity|].
  unfold window_ok. simpl. split_and!; try done; try lia. by exists a.
Qed.

(** C15: for every root with a roll rule and every month of its cycle, on a calendar without added
    holidays, [build] succeeds with a window in which the roll opens before its deadline and the
    deadline falls before the last trading day and any first notice day, both a fixed number of
    trading days before the anchor: the clamp of CL's deadline to the day before first notice never
    changes it, and no derived entry ever fails its own check. *)
Theorem build_spec cal root spec cycle code year :
  _extra_holidays cal = [] → dget root _ROLL_SPECS = Some spec →
  dget root ROOT_CYCLE = Some cycle → In code cycle → 1950 <= year <= 2049 →
  exists e, build cal (contract_symbol root code year) = Ok e ∧
    window_ok cal spec (contract_symbol root code year) e.
Proof.
  intros Hx Hspec Hc Hin Hy. pose proof (cycle_codes _ _ _ Hc Hin) as Hcode.
  pose proof (cycle_cases _ _ Hc) as [Hroot _]. destruct (month_of_code _ Hcode) as (m & Hm & Hmr).
  destruct (derive_ok cal Hx root spec m year Hspec Hmr) as [(ltd & fnd & rgm & Ed & Ha) Hoff].
  destruct (next_contract_ok root cycle code year Hc Hin) as [back Hnext].
  unfold build. rewrite parse_contract_symbol, expand_year_id by done. cbn [rbind].
  rewrite Hspec. cbn [of_option rbind]. rewrite Hm. cbn [of_option rbind]. rewrite Ed. cbn [rbind].
  destruct (anchor spec) eqn:Ea.
  - destruct (roll_days cal spec ltd Hx Hoff) as (t & d & Ht & Hd & Hlt & Htt & Htd).
    cbn [rbind]. rewrite Ht. cbn [rbind]. rewrite Hd. cbn [rbind].
    destruct fnd as [f|]; cbn [rbind].
    + destruct Ha as [-> Hf2]. change (String.eqb "CL" "CL") with true.
      destruct (add_trading_days_total cal f (-1) Hx) as [b Hb]. rewrite Hb. cbn [rbind].
      pose proof (before_second cal ltd f b Hf2 Hb).
      pose proof (add_trading_days_lt cal ltd 0 2 ltd f eq_refl Hf2 ltac:(lia)).
      rewrite Z.min_l by lia. eapply entry_window; try done; [|by rewrite Ea].
      intros f' [= <-]. lia.
    + eapply entry_window; done || by rewrite Ea.
  - destruct Ha as (f & -> & Hfl & Hcl).
    destruct (roll_days cal spec f Hx Hoff) as (t & d & Ht & Hd & Hlt & Htt & Htd).
    cbn [of_option rbind]. rewrite Ht. cbn [rbind]. rewrite Hd. cbn [rbind].
    apply String.eqb_neq in Hcl. rewrite Hcl. cbn [rbind].
    eapply entry_window; try done; [lia| |by rewrite Ea]. intros f' [= <-]. lia.
Qed.

(** ** Witnesses *)
Lemma next_contract_spec_witness :
  parse_contract "ESZ26" = Ok ("ES", "Z", 2026)%string ∧
  exists code' year', next_contract "ESZ26" = Ok (contract_symbol "ES" code' year').
Proof.
  destruct (next_contract_spec "ES" _QUARTERLY 3 2026 eq_refl ltac:(simpl; lia) ltac:(lia))
    as (Hp & code' & year' & _ & _ & Hn & _).
  split; [exact Hp|]. exists code', year'. exact Hn.
Defined.

Definition wit_entry : RollCalendarEntry := {|
  front_symbol := "ESM26"; back_symbol := "ESU26"; ltd_date := mk_date 2026 6 18;
  roll_target := mk_date 2026 6 11; roll_deadline := mk_date 2026 6 16; regime := "RTH";
  fnd_date := None |}.
Definition wit_executor : RollExecutor StaticRollCalendar StaticRollDivergenceCheck := {|
  _calendar := new_StaticRollCalendar [wit_entry]; _divergence := {| _divergent := [] |};
  _supports_bag := true |}.

Lemma decide_rolls_spec_witness :
  exists reason, In {| rd_front := "ESM26"; rd_back := "ESU26"; rd_qty := -2;
    rd_method := SEQUENTIAL_EMERGENCY; rd_target_date := mk_date 2026 6 17;
    rd_deadline_date := mk_date 2026 6 16; rd_reason := reason |}
    (decide_rolls wit_executor (mk_date 2026 6 17)
       [{| op_contract := "ESM26"; op_qty := -2; op_avg_price := d1 |}]).
Proof.
  assert (Hwf : forall c e, lookup (_calendar wit_executor) c = Some e → roll_target e <= roll_deadline e).
  { intros c e H. apply dget_In in H. destruct H as [[= _ <-]|[]]. vm_compute. discriminate. }
  destruct (decide_rolls_spec wit_executor (mk_date 2026 6 17)
              [{| op_contract := "ESM26"; op_qty := -2; op_avg_price := d1 |}] Hwf) as [H _].
  apply H. exists {| op_contract := "ESM26"; op_qty := -2; op_avg_price := d1 |}, wit_entry.
  split_and!; try (vm_compute; reflexivity); [by left|done|vm_compute; discriminate].
Defined.

Lemma build_spec_witness : exists e, build default_calendar "CLF26" = Ok e ∧
  roll_deadline e < ltd_date e ∧ fnd_date e = Some (mk_date 2025 12 23).
Proof.
  destruct (build_spec default_calendar "CL" (RollSpec LTD 5 3) _MONTHLY "F" 2026 eq_refl eq_refl
              eq_refl ltac:(left; reflexivity) ltac:(lia)) as (e & He & _ & _ & Hlt & _).
  exists e. split; [exact He|]. split; [lia|].
  change (contract_symbol "CL" "F" 2026) with "CLF26"%string in He. rewrite build_CLF26 in He.
  injection He as <-. reflexivity.
Defined.

(** A contract of 2049 rolls into one whose two-digit year reads back as 1950. *)
Lemma next_contract_2049 : exists s, next_contract "ESZ49" = Ok s ∧
  parse_contract s = Ok ("ES", "H", 1950)%string.
Proof. eexists. split; vm_compute; reflexivity. Qed.
