(* ===== verification/Continuous.v ===== *)
(** * futur3/data/continuous.py: unadjusted continuous contracts

    [RollEvent], [ContinuousSeries] with its checks and views, and [ContinuousSeriesBuilder], which
    splices the bars of each contract's active window and records a roll at every change of
    contract.  The mapping of bars per contract is a dict; [bars.sort(key=ts)] is a stable sort by
    instant. *)

From S2P Require Import Prelude PyDecimal PyText PyTime Types Calendar Roll.

#[local] Open Scope Z_scope.

Record RollEvent := {
  roll_date : date;
  old_contract : ContractSymbol;
  new_contract : ContractSymbol;
  front_settle : decimal;
  back_settle : decimal;
  roll_gap : decimal;
}.

Definition RollEvent_post_init (e : RollEvent) : result RollEvent :=
  let expected := dsub (back_settle e) (front_settle e) in
  guard! negb (deqb (roll_gap e) expected) else ContinuousSeriesError in
  Ok e.

Record ContinuousSeries := {
  cs_root : string;
  cs_bars : list RawBar;
  cs_roll_events : list RollEvent;
  cs_roll_flags : list bool;
}.

Definition flag_count (l : list bool) : nat := length (List.filter id l).

(** The bars come strictly later one after the other. *)
Fixpoint ts_increasing (l : list RawBar) : bool :=
  match l with
  | prev :: (cur :: _) as l' => negb (dt_leb (rb_ts cur) (rb_ts prev)) && ts_increasing l'
  | _ => true
  end.

Definition ContinuousSeries_post_init (s : ContinuousSeries) : result ContinuousSeries :=
  match cs_bars s with
  | [] => Err ContinuousSeriesError
  | _ :: _ =>
      guard! negb (length (cs_bars s) =? length (cs_roll_flags s))%nat else ContinuousSeriesError in
      guard! hd false (cs_roll_flags s) else ContinuousSeriesError in
      guard! negb (flag_count (cs_roll_flags s) =? length (cs_roll_events s))%nat
        else ContinuousSeriesError in
      guard! negb (ts_increasing (cs_bars s)) else ContinuousSeriesError in
      Ok s
  end.

(** The loop of [current_contract]: the bars up to the first one after [asof]. *)
Fixpoint current_loop (asof : date) (bars : list RawBar) (active : option ContractSymbol)
    : option ContractSymbol :=
  match bars with
  | [] => active
  | bar :: rest =>
      if asof <? dt_date (rb_ts bar) then active else current_loop asof rest (Some (rb_contract bar))
  end.

Definition current_contract (s : ContinuousSeries) (asof : date) : result ContractSymbol :=
  of_option (current_loop asof (cs_bars s) None) ContinuousSeriesError.

Definition roll_event_at (s : ContinuousSeries) (asof : date) : option RollEvent :=
  List.find (fun e => roll_date e =? asof) (cs_roll_events s).

(** [factors[k] = factors[k+1] * ratios[k]], the last one 1. *)
Definition segment_factors (ratios : list decimal) : list decimal :=
  foldr (fun r factors => dmul (hd d1 factors) r :: factors) [d1] ratios.

Fixpoint adjusted_loop (factors : list decimal) (segment : nat) (bars : list RawBar)
    (flags : list bool) : list decimal :=
  match bars, flags with
  | bar :: bars, flag :: flags =>
      let segment := if flag : bool then S segment else segment in
      dmul (rb_close bar) (nth segment factors d1) :: adjusted_loop factors segment bars flags
  | _, _ => []
  end.

(** The lists have equal lengths and the segment index stays in range, by [__post_init__]. *)
Definition ratio_adjusted_closes (s : ContinuousSeries) : result (list decimal) :=
  let! ratios := rmap (fun e => ddiv (back_settle e) (front_settle e)) (cs_roll_events s) in
  Ok (adjusted_loop (segment_factors ratios) 0 (cs_bars s) (cs_roll_flags s)).

(** ** ContinuousSeriesBuilder *)
Definition is_nil {A} (l : list A) : bool := match l with [] => true | _ => false end.

Definition _in_window (day : date) (start : option date) (end_ : date) : bool :=
  match start with None => true | Some st => st <=? day end && (day <? end_).

(** The two scans for a settle: the first bar of the latest day on or before [target], and the
    first bar of the earliest day on or after it. *)
Definition _close_on_or_before (bars : list RawBar) (target : date) : option decimal :=
  option_map rb_close
    (fold_left (fun best bar =>
       let day := dt_date (rb_ts bar) in
       if (day <=? target)
          && match best with None => true | Some b => dt_date (rb_ts b) <? day end
       then Some bar else best) bars None).

Definition _close_on_or_after (bars : list RawBar) (target : date) : option decimal :=
  option_map rb_close
    (fold_left (fun best bar =>
       let day := dt_date (rb_ts bar) in
       if (target <=? day)
          && match best with None => true | Some b => day <? dt_date (rb_ts b) end
       then Some bar else best) bars None).

Definition _make_roll_event (front back : ContractSymbol) (roll_target : dict ContractSymbol date)
    (per_contract_bars : dict ContractSymbol (list RawBar)) : result RollEvent :=
  let! rdate := of_option (dget front roll_target) KeyError in
  let! front_bars := of_option (dget front per_contract_bars) KeyError in
  let! back_bars := of_option (dget back per_contract_bars) KeyError in
  let front_s := _close_on_or_before front_bars rdate in
  let back_s := _close_on_or_after back_bars rdate in
  let! front_s := of_option front_s ContinuousSeriesError in
  let! back_s := of_option back_s ContinuousSeriesError in
  RollEvent_post_init {|
    roll_date := rdate; old_contract := front; new_contract := back; front_settle := front_s;
    back_settle := back_s; roll_gap := dsub back_s front_s |}.

Definition ts_leb (a b : RawBar) : bool := dt_leb (rb_ts a) (rb_ts b).

(** The bars of one contract inside its window, in time order. *)
Definition window_bars (start : option date) (end_ : date) (bars : list RawBar) : list RawBar :=
  sort_by ts_leb (List.filter (fun bar => _in_window (dt_date (rb_ts bar)) start end_) bars).

Fixpoint splice (per_contract_bars : dict ContractSymbol (list RawBar))
    (roll_target : dict ContractSymbol date) (chain : list ContractSymbol) (prev_roll : option date)
    : list RawBar :=
  match chain with
  | [] => []
  | c :: rest =>
      let window_end := dget_or c 0 roll_target in
      window_bars prev_roll window_end (dget_or c [] per_contract_bars)
      ++ splice per_contract_bars roll_target rest (Some window_end)
  end.

(** One flag per bar after the first, and the event of every change of contract. *)
Fixpoint roll_loop (mk : ContractSymbol -> ContractSymbol -> result RollEvent) (prev : RawBar)
    (bars : list RawBar) : result (list bool * list RollEvent) :=
  match bars with
  | [] => Ok ([], [])
  | bar :: rest =>
      let changed := negb (String.eqb (rb_contract bar) (rb_contract prev)) in
      let! events := if changed
                     then let! e := mk (rb_contract prev) (rb_contract bar) in Ok [e]
                     else Ok [] in
      let! '(flags, events') := roll_loop mk bar rest in
      Ok (changed :: flags, events ++ events')
  end.

Section Build.
Context {C : Type} `{RollCalendar C}.

Definition present_contracts (per_contract_bars : dict ContractSymbol (list RawBar))
  : list ContractSymbol :=
  dkeys (List.filter (fun kv => negb (is_nil (snd kv))) per_contract_bars).

Definition target_of (cal : C) (contract : ContractSymbol) : result (ContractSymbol * date) :=
  let! entry := of_option (lookup cal contract) ContinuousSeriesError in
  Ok (contract, roll_target entry).

Definition build (per_contract_bars : dict ContractSymbol (list RawBar)) (roll_calendar : C)
  (root : string) : result ContinuousSeries :=
  let present := present_contracts per_contract_bars in
  guard! is_nil present else ContinuousSeriesError in
  guard! negb (forallb (String.prefix root) present) else ContinuousSeriesError in
  let! targets := rmap (target_of roll_calendar) present in
  let chain := sort_by (fun a b => dget_or a 0 targets <=? dget_or b 0 targets) present in
  let spliced := splice per_contract_bars targets chain None in
  match spliced with
  | [] => Err ContinuousSeriesError
  | first :: rest =>
    let! '(flags, events) :=
      roll_loop (fun f b => _make_roll_event f b targets per_contract_bars) first rest in
    ContinuousSeries_post_init {|
      cs_root := root; cs_bars := spliced; cs_roll_events := events;
      cs_roll_flags := false :: flags |}
  end.
End Build.

(** ** The settles of a roll *)
Definition bar_day (b : RawBar) : date := dt_date (rb_ts b).

(** The scans keep a bar that no scanned bar beats. *)
Section Scan.
Context (better : date -> date -> bool) (fits : date -> bool).
Hypothesis better_trans : forall a b c, better a b = false → better b c = false → better a c = false.
Hypothesis better_asym : forall a b, better a b = true → better b a = false.
Hypothesis better_irrefl : forall a, better a a = false.

Definition scan_step (best : option RawBar) (bar : RawBar) : option RawBar :=
  if fits (bar_day bar) && match best with None => true | Some b => better (bar_day bar) (bar_day b) end
  then Some bar else best.

Lemma scan_spec bars : forall best r, fold_left scan_step bars best = Some r →
  (match best with Some b => fits (bar_day b) = true | None => True end) →
  (In r bars ∨ best = Some r) ∧ fits (bar_day r) = true ∧
  (match best with Some b => better (bar_day b) (bar_day r) = false | None => True end) ∧
  forall b, In b bars → fits (bar_day b) = true → better (bar_day b) (bar_day r) = false.
Proof.
  induction bars as [|x bars IH]; intros best r; simpl.
  - intros -> Hb. split_and!; [by right|done|apply better_irrefl|done].
  - intros Hf Hb. unfold scan_step at 2 in Hf.
  destruct (fits (bar_day x)) eqn:Ex; simpl in Hf.
  + destruct best as [b|]; [destruct (better (bar_day x) (bar_day b)) eqn:Eb|].
    * destruct (IH _ _ Hf Ex) as (Hin & Hr & Hx & Hall). split_and!; try done.
      -- destruct Hin as [?|[= ->]]; auto.
      -- eapply better_trans; [|exact Hx]. by apply better_asym.
      -- intros y [->|Hy] Hfy; auto.
    * destruct (IH _ _ Hf Hb) as (Hin & Hr & Hx & Hall). split_and!; try done.
      -- destruct Hin as [?|[= ->]]; auto.
      -- intros y [->|Hy] Hfy; [|auto]. by eapply better_trans.
    * destruct (IH _ _ Hf Ex) as (Hin & Hr & Hx & Hall). split_and!; try done.
      -- destruct Hin as [?|[= ->]]; auto.
      -- intros y [->|Hy] Hfy; auto.
  + destruct (IH _ _ Hf Hb) as (Hin & Hr & Hx & Hall). split_and!; try done.
    -- destruct Hin as [?|?]; auto.
    -- intros y [->|Hy] Hfy; [congruence|auto].
Qed.
End Scan.

Lemma close_on_or_before_spec bars t px : _close_on_or_before bars t = Some px → exists b,
  In b bars ∧ rb_close b = px ∧ bar_day b <= t ∧
  forall b', In b' bars → bar_day b' <= t → bar_day b' <= bar_day b.
Proof.
  unfold _close_on_or_before.
  change (fold_left _ bars None)
    with (fold_left (scan_step (fun d d' => d' <? d) (fun d => d <=? t)) bars None).
  destruct (fold_left _ bars None) as [r|] eqn:E; [|done]. intros [= <-].
  destruct (scan_spec (fun d d' => d' <? d) (fun d => d <=? t)
    ltac:(intros ???; rewrite !Z.ltb_ge; lia) ltac:(intros ??; rewrite Z.ltb_lt, Z.ltb_ge; lia)
    ltac:(intros ?; rewrite Z.ltb_ge; lia) _ _ _ E I) as ([Hin|?] & Hf & _ & Hall); [|done].
  exists r. split_and!; [done|done|by apply Z.leb_le|].
  intros b' Hb' Ht. apply Z.leb_le in Ht. specialize (Hall b' Hb' Ht). by apply Z.ltb_ge in Hall.
Qed.

Lemma close_on_or_after_spec bars t px : _close_on_or_after bars t = Some px → exists b,
  In b bars ∧ rb_close b = px ∧ t <= bar_day b ∧
  forall b', In b' bars → t <= bar_day b' → bar_day b <= bar_day b'.
Proof.
  unfold _close_on_or_after.
  change (fold_left _ bars None)
    with (fold_left (scan_step (fun d d' => d <? d') (fun d => t <=? d)) bars None).
  destruct (fold_left _ bars None) as [r|] eqn:E; [|done]. intros [= <-].
  destruct (scan_spec (fun d d' => d <? d') (fun d => t <=? d)
    ltac:(intros ???; rewrite !Z.ltb_ge; lia) ltac:(intros ??; rewrite Z.ltb_lt, Z.ltb_ge; lia)
    ltac:(intros ?; rewrite Z.ltb_ge; lia) _ _ _ E I) as ([Hin|?] & Hf & _ & Hall); [|done].
  exists r. split_and!; [done|done|by apply Z.leb_le|].
  intros b' Hb' Ht. apply Z.leb_le in Ht. specialize (Hall b' Hb' Ht). by apply Z.ltb_ge in Hall.
Qed.

(** ** The splice *)
Section Splice.
Context (pcb : dict ContractSymbol (list RawBar)) (targets : dict ContractSymbol date).
#[local] Notation tgt c := (dget_or c 0 targets).
#[local] Notation bars_of c := (dget_or c [] pcb).

Lemma in_window_spec day st e :
  _in_window day st e = true ↔ (forall s, st = Some s → s <= day) ∧ day < e.
Proof.
  unfold _in_window. rewrite andb_true_iff, Z.ltb_lt. destruct st as [s|]; [rewrite Z.leb_le|];
  naive_solver.
Qed.

Lemma window_bars_In st e bars b :
  In b (window_bars st e bars) ↔ In b bars ∧ (forall s, st = Some s → s <= bar_day b) ∧ bar_day b < e.
Proof. unfold window_bars. by rewrite sort_by_In, filter_In, in_window_spec. Qed.

Lemma splice_In chain : forall prev b,
  StronglySorted (fun a c => (tgt a <=? tgt c) = true) chain →
  (forall p c, prev = Some p → In c chain → p <= tgt c) →
  In b (splice pcb targets chain prev) → (forall p, prev = Some p → p <= bar_day b) ∧
  exists c, In c chain ∧ In b (bars_of c) ∧ bar_day b < tgt c ∧
    forall c', In c' chain → tgt c' < tgt c → tgt c' <= bar_day b.
Proof.
  induction chain as [|c0 chain IH]; intros prev b Hs Hprev; simpl; [done|].
  apply StronglySorted_inv in Hs as [Hs Hall]. rewrite List.Forall_forall in Hall.
  assert (Hle : forall c, In c chain → tgt c0 <= tgt c) by (intros c Hc; apply Z.leb_le; auto).
  rewrite in_app_iff, window_bars_In. intros [(Hb & Hp & Hlt)|Hb].
  - split; [done|]. exists c0. split_and!; [by left|done|done|].
  intros c' [->|Hc'] Ht; [lia|]. specialize (Hle c' Hc'). lia.
  - apply IH in Hb as (Hp & c & Hc & Hb & Hlt & Hmin); [|done|].
  2: { intros p c [= <-] Hc. auto. }
  specialize (Hp _ eq_refl). split.
  + intros p ->. specialize (Hprev p c0 eq_refl (or_introl eq_refl)). lia.
  + exists c. split_and!; [by right|done|done|]. intros c' [->|Hc'] Ht; [done|auto].
Qed.

(** The converse, for a contract no other one shares its roll date with. *)
Lemma splice_complete chain : forall prev b c,
  StronglySorted (fun a c => (tgt a <=? tgt c) = true) chain → List.NoDup chain →
  In c chain → In b (bars_of c) → bar_day b < tgt c → (forall p, prev = Some p → p <= bar_day b) →
  (forall c', In c' chain → c' ≠ c → tgt c' ≠ tgt c ∧ (tgt c' < tgt c → tgt c' <= bar_day b)) →
  In b (splice pcb targets chain prev).
Proof.
  induction chain as [|c0 chain IH]; intros prev b c Hs Hnd; simpl; [done|].
  apply StronglySorted_inv in Hs as [Hs Hall]. rewrite List.Forall_forall in Hall.
  apply List.NoDup_cons_iff in Hnd as [Hni Hnd].
  intros Hc Hb Hlt Hp Hmin. rewrite in_app_iff, window_bars_In.
  destruct Hc as [->|Hc]; [by left|]. right.
  assert (Hne : c0 ≠ c) by (by intros ->). apply (IH _ b c); try done.
  - intros p [= <-]. destruct (Hmin c0 (or_introl eq_refl) Hne) as [Hd Hl].
  specialize (Hall c Hc). apply Z.leb_le in Hall. apply Hl. lia.
  - intros c' Hc' Hne'. auto.
Qed.
End Splice.

(** ** The flags and the events *)
Lemma roll_loop_spec mk bars : forall prev flags events, roll_loop mk prev bars = Ok (flags, events) →
  length flags = length bars ∧ flag_count flags = length events ∧
  (forall i a b, nth_error (prev :: bars) i = Some a → nth_error bars i = Some b →
     nth_error flags i = Some (negb (String.eqb (rb_contract b) (rb_contract a)))) ∧
  (forall e, In e events → exists f b, f ≠ b ∧ mk f b = Ok e).
Proof.
  induction bars as [|x bars IH]; intros prev flags events; simpl.
  - intros [= <- <-]. split_and!; [done|done| |done]. by intros [|i].
  - intros (ev & Hev & ([flags' events'] & Hl & [= <- <-])%rbind_Ok)%rbind_Ok.
    destruct (IH _ _ _ Hl) as (Hlen & Hcnt & Hnth & Hall). split_and!; simpl.
    + congruence.
    + unfold flag_count in *. simpl. destruct (String.eqb_spec (rb_contract x) (rb_contract prev)); simpl in *.
      * injection Hev as <-. simpl. done.
      * inv_ok. simpl. congruence.
    + intros [|i] a b Ha Hb; simpl in *; [congruence|]. eauto.
    + intros e [He|He]%in_app_or; [|auto].
      destruct (String.eqb_spec (rb_contract x) (rb_contract prev)); simpl in Hev; inv_ok; [done|].
      destruct He as [->|[]]. eauto.
Qed.

Lemma ts_increasing_sorted l : ts_increasing l = true →
  StronglySorted (fun a b => dt_instant (rb_ts a) < dt_instant (rb_ts b)) l.
Proof.
  intros H. apply Sorted_StronglySorted; [intros a b c; lia|].
  induction l as [|x [|y l] IH]; [repeat constructor..|].
  simpl in H. apply andb_true_iff in H as [H1 H2]. constructor; [by apply IH|]. constructor.
  apply negb_true_iff in H1. unfold dt_leb in H1. apply Z.leb_gt in H1. done.
Qed.

Section BuildTheorem.
Context {C : Type} `{RollCalendar C}.

Lemma targets_spec (cal : C) present targets : rmap (target_of cal) present = Ok targets →
  forall c, In c present → exists e, lookup cal c = Some e ∧ dget c targets = Some (roll_target e).
Proof.
  intros Hm%rmap_Ok. induction Hm as [|c [c' t] present targets Hc Hm IH]; [done|].
  unfold target_of in Hc. destruct (lookup cal c) as [e|] eqn:E; [|done]. injection Hc as <- <-.
  intros c2 Hin. simpl. case_decide as Heq; [subst; eauto|]. destruct Hin as [->|Hin]; [done|]. auto.
Qed.

Lemma present_In (pcb : dict ContractSymbol (list RawBar)) c : List.NoDup (dkeys pcb) →
  In c (present_contracts pcb) ↔ exists b bars, dget c pcb = Some (b :: bars).
Proof.
  intros Hnd. unfold present_contracts, dkeys. rewrite in_map_iff. split.
  - intros ([c' [|b bars]] & <- & [Hin Hne]%filter_In); [done|]. exists b, bars.
  by apply In_dget.
  - intros (b & bars & Hg%dget_In). exists (c, b :: bars). split; [done|]. by apply filter_In.
Qed.

Lemma present_NoDup (pcb : dict ContractSymbol (list RawBar)) : List.NoDup (dkeys pcb) →
  List.NoDup (present_contracts pcb).
Proof.
  unfold present_contracts, dkeys. induction pcb as [|[c bars] pcb IH]; simpl; [constructor|].
  intros [Hni Hnd]%List.NoDup_cons_iff. destruct (negb _); [|auto]. simpl. constructor; [|auto].
  intros Hin. apply Hni. apply in_map_iff in Hin as (kv & <- & [Hin _]%filter_In). by apply in_map.
Qed.

(** The day a contract stops being the active one. *)
Definition rolls_on (cal : C) (c : ContractSymbol) (t : date) : Prop :=
  exists e, lookup cal c = Some e ∧ roll_target e = t.

(** A bar of contract [c] is due in the series: its day is before [c]'s own roll date and not before
  the roll date of any contract with bars that rolls earlier. *)
Definition active_bar (cal : C) (pcb : dict ContractSymbol (list RawBar)) (c : ContractSymbol)
  (b : RawBar) : Prop :=
  exists bars t, dget c pcb = Some bars ∧ In b bars ∧ rolls_on cal c t ∧ bar_day b < t ∧
  forall c' b' bars' t', dget c' pcb = Some (b' :: bars') → rolls_on cal c' t' → t' < t → t' <= bar_day b.

(** A roll event carries the contracts' own closes around its roll date: the old contract's on the
  last day it traded on or before that date, the new one's on the first day on or after it. *)
Definition event_sound (cal : C) (pcb : dict ContractSymbol (list RawBar)) (e : RollEvent) : Prop :=
  old_contract e ≠ new_contract e ∧ rolls_on cal (old_contract e) (roll_date e) ∧
  roll_gap e = dsub (back_settle e) (front_settle e) ∧
  exists fbars bbars f b, dget (old_contract e) pcb = Some fbars ∧ dget (new_contract e) pcb = Some bbars ∧
  In f fbars ∧ rb_close f = front_settle e ∧ bar_day f <= roll_date e ∧
  (forall f', In f' fbars → bar_day f' <= roll_date e → bar_day f' <= bar_day f) ∧
  In b bbars ∧ rb_close b = back_settle e ∧ roll_date e <= bar_day b ∧
  (forall b', In b' bbars → roll_date e <= bar_day b' → bar_day b <= bar_day b').

Lemma make_event_sound (cal : C) pcb targets f b e :
  (forall c t, dget c targets = Some t → rolls_on cal c t) → f ≠ b →
  _make_roll_event f b targets pcb = Ok e → event_sound cal pcb e.
Proof.
  intros Ht Hne. unfold _make_roll_event. intros Hm. inv_ok.
  destruct (dget f targets) as [t|] eqn:Et; [|done]. destruct (dget f pcb) as [fb|] eqn:Ef; [|done].
  destruct (dget b pcb) as [bb|] eqn:Eb; [|done]. simplify_eq/=.
  destruct (_close_on_or_before _ _) as [fs|] eqn:Efs; [|done].
  destruct (_close_on_or_after _ _) as [bs|] eqn:Ebs; [|done]. simplify_eq/=.
  apply close_on_or_before_spec in Efs as (fbar & ? & ? & ? & ?).
  apply close_on_or_after_spec in Ebs as (bbar & ? & ? & ? & ?).
  match goal with H : RollEvent_post_init _ = Ok _ |- _ => unfold RollEvent_post_init in H end. inv_ok.
  unfold event_sound. simpl. split_and!; [done|by apply Ht|done|].
  do 2 eexists. exists fbar, bbar. split_and!; try done; eassumption.
Qed.
Lemma targets_rolls (cal : C) present targets c t : rmap (target_of cal) present = Ok targets →
  dget c targets = Some t → rolls_on cal c t.
Proof.
  intros Hm%rmap_Ok Hc%dget_In. induction Hm as [|c1 [c' t'] present targets Hx Hm IH]; [done|].
  destruct Hc as [[= -> ->]|Hc]; [|auto]. unfold target_of in Hx.
  destruct (lookup cal c1) as [e|] eqn:E; [|done]. injection Hx as <- <-. by exists e.
Qed.

Section Chain.
Context (cal : C) (pcb : dict ContractSymbol (list RawBar)) (targets : dict ContractSymbol date).
Hypothesis Hnd : List.NoDup (dkeys pcb).
Hypothesis Htg : rmap (target_of cal) (present_contracts pcb) = Ok targets.

#[local] Notation tgt c := (dget_or c 0 targets).
Definition chain : list ContractSymbol :=
  sort_by (fun a b => tgt a <=? tgt b) (present_contracts pcb).

Lemma chain_sorted : StronglySorted (fun a b => (tgt a <=? tgt b) = true) chain.
Proof.
  apply (sort_by_sorted (fun a b => tgt a <=? tgt b)); intros; rewrite !Z.leb_le in *; lia.
Qed.

Lemma chain_In c : In c chain ↔ exists b bars, dget c pcb = Some (b :: bars).
Proof. unfold chain. by rewrite sort_by_In, present_In. Qed.

Lemma chain_NoDup : List.NoDup chain.
Proof. eapply Permutation_NoDup; [apply sort_by_perm|]. by apply present_NoDup. Qed.

Lemma chain_target c t : In c chain → rolls_on cal c t ↔ t = tgt c.
Proof.
  intros Hc. unfold chain in Hc. rewrite sort_by_In in Hc.
  destruct (targets_spec _ _ _ Htg c Hc) as (e & He & Hd).
  assert (E : dget_or c 0 targets = roll_target e) by (unfold dget_or; unfold date in *; by rewrite Hd).
  rewrite E. split; [intros (e' & He' & <-); congruence|]. intros ->. by exists e.
Qed.

Lemma chain_bars c b : In c chain → In b (dget_or c [] pcb) ↔ exists bars, dget c pcb = Some bars ∧ In b bars.
Proof.
  intros (x & l & E)%chain_In. unfold dget_or. rewrite E. split; [eauto|]. by intros (? & [= <-] & ?).
Qed.

Lemma splice_active b : In b (splice pcb targets chain None) → exists c, active_bar cal pcb c b.
Proof.
  intros Hb. apply splice_In in Hb as (_ & c & Hc & Hb & Hlt & Hmin); [|apply chain_sorted|done].
  exists c. apply (chain_bars c b Hc) in Hb as (bars & Hg & Hin).
  exists bars, (tgt c). split_and!; [done|done|by apply chain_target|done|].
  intros c' b' bars' t' Hg' Hr Ht.
  assert (Hc' : In c' chain) by (apply chain_In; eauto). apply chain_target in Hr as ->; auto.
Qed.

Lemma splice_due c b : active_bar cal pcb c b →
  (forall c' b' bars' t, dget c' pcb = Some (b' :: bars') → c' ≠ c →
   rolls_on cal c t → ¬ rolls_on cal c' t) →
  In b (splice pcb targets chain None).
Proof.
  intros (bars & t & Hg & Hin & Hr & Hlt & Hmin) Huniq.
  assert (Hc : In c chain) by (destruct bars as [|x l]; [done|]; apply chain_In; eauto).
  pose proof (proj1 (chain_target c t Hc) Hr) as ->.
  eapply (splice_complete pcb targets chain None b c); try done.
  - apply chain_sorted.
  - apply chain_NoDup.
  - apply chain_bars; eauto.
  - intros c' Hc' Hne. apply chain_In in Hc' as Hg'. destruct Hg' as (b' & l & Hg'). split.
  + intros Heq. eapply (Huniq c'); [exact Hg'|done|exact Hr|]. by apply chain_target.
  + intros Ht. eapply Hmin; [exact Hg'|by apply chain_target|done].
Qed.
End Chain.

(** C17: what [ContinuousSeriesBuilder.build] returns is a sound unadjusted series.  The bars come
  strictly later one after the other, and each is an input bar of a contract that was active on its
  day: no bar is used on or after its own contract's roll date, nor before an earlier contract has
  rolled.  No due bar is left out, for a contract that shares its roll date with no other.  There is
  one flag per bar, the first unset and each later one set exactly where the contract changes, and
  as many events as set flags; each event's settles are the two contracts' own closes around the
  roll date of the contract it leaves. *)
Theorem series_build_sound (cal : C) pcb root s : List.NoDup (dkeys pcb) →
  build pcb cal root = Ok s →
  StronglySorted (fun a b => dt_instant (rb_ts a) < dt_instant (rb_ts b)) (cs_bars s) ∧
  (forall b, In b (cs_bars s) → exists c, active_bar cal pcb c b) ∧
  (forall c b, active_bar cal pcb c b →
     (forall c' b' bars' t, dget c' pcb = Some (b' :: bars') → c' ≠ c →
        rolls_on cal c t → ¬ rolls_on cal c' t) →
     In b (cs_bars s)) ∧
  length (cs_roll_flags s) = length (cs_bars s) ∧ nth_error (cs_roll_flags s) 0 = Some false ∧
  (forall i a b, nth_error (cs_bars s) i = Some a → nth_error (cs_bars s) (S i) = Some b →
     nth_error (cs_roll_flags s) (S i) = Some (negb (String.eqb (rb_contract b) (rb_contract a)))) ∧
  flag_count (cs_roll_flags s) = length (cs_roll_events s) ∧
  (forall e, In e (cs_roll_events s) → event_sound cal pcb e).
Proof.
  intros Hnd Hb. unfold build in Hb.
  apply rbind_Ok in Hb as (_ & _ & (_ & _ & (targets & Htg & Hb)%rbind_Ok)%rbind_Ok).
  change (sort_by _ _) with (chain pcb targets) in Hb.
  destruct (splice pcb targets (chain pcb targets) None) as [|first rest] eqn:Es; [done|].
  apply rbind_Ok in Hb as ([flags events] & Hl & Hb).
  destruct (roll_loop_spec _ _ _ _ _ Hl) as (Hlen & Hcnt & Hnth & Hev).
  unfold ContinuousSeries_post_init in Hb. cbn [cs_bars cs_roll_flags cs_roll_events] in Hb.
  apply rbind_Ok in Hb as (_ & _ & (_ & _ & (_ & _ & (_ & Hts%reject_Ok & [= <-])%rbind_Ok)%rbind_Ok)%rbind_Ok).
  cbn [cs_bars cs_roll_flags cs_roll_events]. split_and!.
  - apply ts_increasing_sorted. by apply negb_false_iff.
  - rewrite <- Es. intros b. by apply splice_active.
  - rewrite <- Es. intros c b. by apply splice_due.
  - simpl. congruence.
  - done.
  - intros i a b Ha Hbi. simpl. eapply Hnth; [exact Ha|exact Hbi].
  - exact Hcnt.
  - intros e (f & b & Hne & Hmk)%Hev. eapply make_event_sound; [|exact Hne|exact Hmk].
  intros c t Hct. eapply targets_rolls; [exact Htg|exact Hct].
Qed.
End BuildTheorem.

(** ** Witness: three days across one roll *)
Definition wit_rb (c : ContractSymbol) (day : date) (px : Z) : RawBar := {|
  rb_contract := c; rb_ts := DT (day * us_per_day) (Some 0); rb_resolution := DAY_1;
  rb_open := Dec px 0; rb_high := Dec px 0; rb_low := Dec px 0; rb_close := Dec px 0; rb_volume := 1;
  rb_oi := None; rb_source_id := "db"; rb_as_of_iso := DT (day * us_per_day) (Some 0);
  rb_content_bytes_sha := sha256_hex "" |}.

Definition wit_pcb : dict ContractSymbol (list RawBar) :=
  [("CLF26", [wit_rb "CLF26" 10 60; wit_rb "CLF26" 11 61; wit_rb "CLF26" 12 62]);
   ("CLG26", [wit_rb "CLG26" 11 65; wit_rb "CLG26" 12 66; wit_rb "CLG26" 13 67])]%string.
Definition wit_calendar : StaticRollCalendar := new_StaticRollCalendar
  [ {| front_symbol := "CLF26"; back_symbol := "CLG26"; ltd_date := 14; roll_target := 12;
       roll_deadline := 13; regime := "RTH"; fnd_date := None |};
    {| front_symbol := "CLG26"; back_symbol := "CLH26"; ltd_date := 44; roll_target := 42;
       roll_deadline := 43; regime := "RTH"; fnd_date := None |} ].

Lemma series_build_sound_witness : exists s, build wit_pcb wit_calendar "CL" = Ok s ∧
  map rb_contract (cs_bars s) = ["CLF26"; "CLF26"; "CLG26"; "CLG26"]%string ∧
  cs_roll_flags s = [false; false; true; false] ∧
  map roll_gap (cs_roll_events s) = [Dec 4 0] ∧
  forall b, In b (cs_bars s) → exists c, active_bar wit_calendar wit_pcb c b.
Proof.
  destruct (build wit_pcb wit_calendar "CL") as [s|] eqn:E; [|vm_compute in E; discriminate E].
  exists s. split; [reflexivity|].
  assert (Hnd : List.NoDup (dkeys wit_pcb)) by (repeat constructor; simpl; intuition discriminate).
  destruct (series_build_sound wit_calendar wit_pcb "CL" s Hnd E) as (_ & Hactive & _).
  split_and!; [..|exact Hactive]; vm_compute in E; injection E as <-; vm_compute; reflexivity.
Defined.
