(* ===== verification/TermStructure.v ===== *)
(** * futur3/data/term_structure.py and data/intraday_continuous.py

    [Module Carry]: the front/next pair of each date, rebuilt from per-contract bars and a roll
    calendar (the class [RollCalendar] of [Roll]).  [Module Intraday]: the roll-flagged view of a
    stream that is already spliced. *)

From Stdlib Require Import QArith.
From S2P Require Import Prelude PyDecimal PyText PyTime Types PyFloat Calendar Roll Continuous.

#[local] Open Scope Z_scope.

Module Carry.

Record CarryInputs := {
  ci_as_of : date;
  ci_front : ContractSymbol;
  ci_back : ContractSymbol;
  front_close : decimal;
  back_close : decimal;
  days_front : Z;
  days_back : Z;
}.

Definition CarryInputs_post_init (c : CarryInputs) : result CarryInputs :=
  guard! dleb (front_close c) d0 || dleb (back_close c) d0 else TermStructureError in
  guard! negb ((0 <? days_front c) && (days_front c <? days_back c)) else TermStructureError in
  Ok c.

(** The abstract source. *)
Class TermStructureSource (S : Type) := {
  carry_inputs : S -> datetime -> result (option CarryInputs);
}.

Definition _close_on_or_before (bars : list RawBar) (target : date) : option decimal :=
  option_map rb_close
    (fold_left (fun best bar =>
       let day := dt_date (rb_ts bar) in
       if (day <=? target)
          && match best with None => true | Some b => dt_date (rb_ts b) <? day end
       then Some bar else best) bars None).

Definition _in_window (day : date) (start : option date) (end_ : date) : bool :=
  match start with None => true | Some st => st <=? day end && (day <? end_).

Record _Plan := {
  chain : list ContractSymbol;
  plan_roll_target : dict ContractSymbol date;
  plan_ltd : dict ContractSymbol date;
  back_of : dict ContractSymbol ContractSymbol;
}.

Record StaticTermStructure := {
  _root : string;
  _by_date : dict date CarryInputs;
}.

Section Build.
Context {C : Type} `{RollCalendar C}.

(** One contract of [_resolve]: its root, its calendar entry. *)
Definition resolve_one (roll_calendar : C) (root : string) (contract : ContractSymbol)
    : result (ContractSymbol * RollCalendarEntry) :=
  guard! negb (String.prefix root contract) else TermStructureError in
  let! entry := of_option (lookup roll_calendar contract) TermStructureError in
  Ok (contract, entry).

Definition _resolve (present : list ContractSymbol) (roll_calendar : C) (root : string) : result _Plan :=
  let! entries := rmap (resolve_one roll_calendar root) present in
  let targets := map (fun ce => (fst ce, roll_target (snd ce))) entries in
  Ok {| chain := sort_by (fun a b => dget_or a 0 targets <=? dget_or b 0 targets) present;
        plan_roll_target := targets;
        plan_ltd := map (fun ce => (fst ce, ltd_date (snd ce))) entries;
        back_of := map (fun ce => (fst ce, back_symbol (snd ce))) entries |}.

(** The body of the inner loop: one bar of the front contract. *)
Definition observe_bar (front back : ContractSymbol) (back_bars : option (list RawBar))
    (front_ltd : date) (back_ltd : option date) (prev_roll : option date) (window_end : date)
    (index : dict date CarryInputs) (bar : RawBar) : result (dict date CarryInputs) :=
  let day := dt_date (rb_ts bar) in
  if negb (_in_window day prev_roll window_end) then Ok index
  else
    match back_bars, back_ltd with
    | Some back_bars, Some back_ltd =>
        match _close_on_or_before back_bars day with
        | None => Ok index
        | Some back_close =>
            if dleb (rb_close bar) d0 || dleb back_close d0 then Ok index
            else
              let days_front := front_ltd - day in
              let days_back := back_ltd - day in
              if negb ((0 <? days_front) && (days_front <? days_back)) then Ok index
              else
                let! obs := CarryInputs_post_init {|
                  ci_as_of := day; ci_front := front; ci_back := back; front_close := rb_close bar;
                  back_close := back_close; days_front := days_front; days_back := days_back |} in
                Ok (dset day obs index)
        end
    | _, _ => Ok index
    end.

Definition observe_front (plan : _Plan) (per_contract_bars : dict ContractSymbol (list RawBar))
    (roll_calendar : C) (front : ContractSymbol) (prev_roll : option date)
    (index : dict date CarryInputs) : result (date * dict date CarryInputs) :=
  let! window_end := of_option (dget front (plan_roll_target plan)) KeyError in
  let! back := of_option (dget front (back_of plan)) KeyError in
  let back_bars := dget back per_contract_bars in
  let back_ltd := match dget back (plan_ltd plan) with
                  | Some d => Some d
                  | None => option_map ltd_date (lookup roll_calendar back)
                  end in
  let! front_ltd := of_option (dget front (plan_ltd plan)) KeyError in
  let! bars := of_option (dget front per_contract_bars) KeyError in
  let! index := rfold (observe_bar front back back_bars front_ltd back_ltd prev_roll window_end)
                  bars index in
  Ok (window_end, index).

Fixpoint observe_chain (plan : _Plan) (per_contract_bars : dict ContractSymbol (list RawBar))
    (roll_calendar : C) (fronts : list ContractSymbol) (prev_roll : option date)
    (index : dict date CarryInputs) : result (dict date CarryInputs) :=
  match fronts with
  | [] => Ok index
  | front :: rest =>
      let! '(window_end, index) :=
        observe_front plan per_contract_bars roll_calendar front prev_roll index in
      observe_chain plan per_contract_bars roll_calendar rest (Some window_end) index
  end.

Definition _precompute (plan : _Plan) (per_contract_bars : dict ContractSymbol (list RawBar))
    (roll_calendar : C) : result (dict date CarryInputs) :=
  observe_chain plan per_contract_bars roll_calendar (chain plan) None [].

Definition new_StaticTermStructure (per_contract_bars : dict ContractSymbol (list RawBar))
    (roll_calendar : C) (root : string) : result StaticTermStructure :=
  let present := present_contracts per_contract_bars in
  guard! is_nil present else TermStructureError in
  let! plan := _resolve present roll_calendar root in
  let! index := _precompute plan per_contract_bars roll_calendar in
  Ok {| _root := root; _by_date := index |}.
End Build.

Definition Static_carry_inputs (ts : StaticTermStructure) (as_of : datetime) : result (option CarryInputs) :=
  let! _ := _assert_tz_aware as_of in
  Ok (dget (dt_date as_of) (_by_date ts)).

#[global] Instance StaticTermStructure_source : TermStructureSource StaticTermStructure := {
  carry_inputs := Static_carry_inputs }.

Definition available_dates (ts : StaticTermStructure) : list date := sort_by Z.leb (dkeys (_by_date ts)).

End Carry.

Module Intraday.

Fixpoint flags_loop (prev : RawBar) (bars : list RawBar) : list bool :=
  match bars with
  | [] => []
  | bar :: rest => negb (String.eqb (rb_contract bar) (rb_contract prev)) :: flags_loop bar rest
  end.

Definition _roll_flags (bars : list RawBar) : list bool :=
  match bars with [] => [] | b :: rest => false :: flags_loop b rest end.

Record RollExcludedSeries := {
  re_root : string;
  re_bars : list RawBar;
  re_roll_flags : list bool;
}.

(** [cur.ts <= prev.ts] for some consecutive pair. *)
Fixpoint out_of_order (bars : list RawBar) : bool :=
  match bars with
  | prev :: (cur :: _) as rest => dt_leb (rb_ts cur) (rb_ts prev) || out_of_order rest
  | _ => false
  end.

Definition RollExcludedSeries_post_init (s : RollExcludedSeries) : result RollExcludedSeries :=
  guard! is_nil (re_bars s) else IntradayContinuousError in
  guard! negb (length (re_bars s) =? length (re_roll_flags s))%nat else IntradayContinuousError in
  guard! List.hd false (re_roll_flags s) else IntradayContinuousError in
  guard! out_of_order (re_bars s) else IntradayContinuousError in
  Ok s.

Definition n_rolls (s : RollExcludedSeries) : Z :=
  zsum (map (fun f : bool => if f then 1 else 0) (re_roll_flags s)).

Fixpoint returns_loop (prev : RawBar) (bars : list RawBar) (flags : list bool) : list (option float) :=
  match bars, flags with
  | bar :: bars, flag :: flags =>
      let prev_close := f_of_decimal (rb_close prev) in
      (if flag || feqb prev_close f_zero then None
       else Some (fsub (fdiv (f_of_decimal (rb_close bar)) prev_close) f_one))
      :: returns_loop bar bars flags
  | _, _ => []
  end.

(** The lists have equal lengths, by [__post_init__]. *)
Definition roll_clean_returns (s : RollExcludedSeries) : list (option float) :=
  match re_bars s, re_roll_flags s with
  | b :: bars, _ :: flags => None :: returns_loop b bars flags
  | _, _ => [None]
  end.

Definition build_roll_excluded_series (root : string) (bars : list RawBar) : result RollExcludedSeries :=
  RollExcludedSeries_post_init {| re_root := root; re_bars := bars; re_roll_flags := _roll_flags bars |}.

End Intraday.

(** ** The front/next observations *)
Module CarryFacts.
Import Carry.

Definition CarryInputs_wf (c : CarryInputs) : Prop :=
  (0 < dval (front_close c))%Q ∧ (0 < dval (back_close c))%Q ∧ 0 < days_front c < days_back c.

Lemma CarryInputs_post_init_ok c :
  dleb (front_close c) d0 || dleb (back_close c) d0 = false →
  negb ((0 <? days_front c) && (days_front c <? days_back c)) = false →
  CarryInputs_post_init c = Ok c ∧ CarryInputs_wf c.
Proof.
  intros E1 E2. unfold CarryInputs_post_init. rewrite E1, E2. split; [done|].
  apply orb_false_iff in E1 as [F B]. rewrite dleb_0_r, Z.leb_gt in F, B.
  apply negb_false_iff, andb_true_iff in E2 as [D1%Z.ltb_lt D2%Z.ltb_lt].
  split_and!; [by apply dval_pos..|done|done].
Qed.

Section Facts.
Context {C : Type} `{RollCalendar C}.
Variables (cal : C) (pcb : dict ContractSymbol (list RawBar)).

(** [c] has bars, belongs to the root and is in the calendar with entry [e]. *)
Definition tracked (root : string) (c : ContractSymbol) : Prop :=
  String.prefix root c = true ∧ is_Some (lookup cal c).

(** What an observation of a day rests on: the front contract is the active one of the day, the
    close is that of one of its bars of the day, and the back leg is a close no later than it. *)
Definition observed (c : CarryInputs) : Prop :=
  CarryInputs_wf c ∧
  exists fe be fbars fb bbars bb,
    lookup cal (ci_front c) = Some fe ∧ ci_back c = back_symbol fe ∧ lookup cal (ci_back c) = Some be ∧
    days_front c = ltd_date fe - ci_as_of c ∧ days_back c = ltd_date be - ci_as_of c ∧
    dget (ci_front c) pcb = Some fbars ∧ In fb fbars ∧ bar_day fb = ci_as_of c ∧
    rb_close fb = front_close c ∧
    dget (ci_back c) pcb = Some bbars ∧ In bb bbars ∧ bar_day bb <= ci_as_of c ∧
    rb_close bb = back_close c ∧
    (forall b, In b bbars → bar_day b <= ci_as_of c → bar_day b <= bar_day bb).

(** The front contract has not rolled, and any tracked contract that rolls earlier has. *)
Definition active_front (c : CarryInputs) (present : list ContractSymbol) : Prop :=
  forall t, rolls_on cal (ci_front c) t → ci_as_of c < t ∧
  forall c' t', In c' present → rolls_on cal c' t' → t' < t → t' <= ci_as_of c.

Definition index_ok (present : list ContractSymbol) (index : dict date CarryInputs) : Prop :=
  forall d c, dget d index = Some c → ci_as_of c = d ∧ observed c ∧ active_front c present.

Lemma observe_bar_spec present front back fe fbars bar prev index :
  lookup cal front = Some fe → back = back_symbol fe → dget front pcb = Some fbars → In bar fbars →
  (forall c' t', In c' present → rolls_on cal c' t' → t' < roll_target fe →
     exists p, prev = Some p ∧ t' <= p) →
  index_ok present index →
  exists index', observe_bar front back (dget back pcb) (ltd_date fe) (option_map ltd_date (lookup cal back))
                   prev (roll_target fe) index bar = Ok index' ∧ index_ok present index'.
Proof.
  intros Hfe Hback Hfb Hin Hprev Hok. unfold observe_bar.
  destruct (negb (_in_window _ _ _)) eqn:Ew; [by exists index|]. apply negb_false_iff in Ew.
  destruct (dget back pcb) as [bbars|] eqn:Eb; [|by exists index].
  destruct (lookup cal back) as [be|] eqn:El; [|by exists index]. cbn [option_map].
  destruct (_close_on_or_before bbars _) as [bc|] eqn:Ec; [|by exists index].
  destruct (dleb (rb_close bar) d0 || dleb bc d0) eqn:E1; [by exists index|].
  destruct (negb ((0 <? _) && _)) eqn:E2; [by exists index|].
  match goal with |- context [CarryInputs_post_init ?o] => set (obs := o) end.
  destruct (CarryInputs_post_init_ok obs E1 E2) as [-> Hwf]. cbn [rbind]. eexists. split; [reflexivity|].
  intros d c. rewrite dget_dset. case_decide as Hd; [|apply Hok]. intros [= <-]. subst d.
  split; [done|]. split.
  - split; [exact Hwf|]. apply close_on_or_before_spec in Ec as (bb & Hbb & Hcl & Hle & Hlast).
    exists fe, be, fbars, bar, bbars, bb. subst back. by split_and!.
  - intros t (e & He & <-). cbn [ci_front obs] in He. rewrite Hfe in He. injection He as <-.
    unfold _in_window in Ew. cbn [ci_as_of obs].
    destruct prev as [p|].
    + apply andb_true_iff in Ew as [Ep%Z.leb_le Et%Z.ltb_lt]. split; [exact Et|].
      intros c' t' Hc' Hr Hlt. destruct (Hprev _ _ Hc' Hr Hlt) as (q & [= <-] & Hq). lia.
    + apply andb_true_iff in Ew as [_ Et%Z.ltb_lt]. split; [exact Et|].
      intros c' t' Hc' Hr Hlt. by destruct (Hprev _ _ Hc' Hr Hlt) as (q & ? & _).
Qed.

Lemma resolve_one_Ok root c x : resolve_one cal root c = Ok x ↔
  exists e, x = (c, e) ∧ lookup cal c = Some e ∧ String.prefix root c = true.
Proof.
  unfold resolve_one. destruct (String.prefix root c); cbn [negb reject rbind].
  - destruct (lookup cal c) as [e|]; cbn [of_option rbind]; split.
    + intros [= <-]. by exists e.
    + by intros (e' & -> & [= ->] & _).
    + done.
    + by intros (e & _ & ? & _).
  - split; [done|]. by intros (e & _ & _ & ?).
Qed.

(** Resolving succeeds exactly on tracked contracts, and looks each up. *)
Lemma resolve_entries root present entries : rmap (resolve_one cal root) present = Ok entries →
  map fst entries = present ∧ forall c e, In (c, e) entries → lookup cal c = Some e.
Proof.
  intros Hm%rmap_Ok. induction Hm as [|c x present entries Hx Hm [IH1 IH2]]; [done|].
  apply resolve_one_Ok in Hx as (e & -> & He & _). split; [simpl; by f_equal|].
  intros c' e' [[= <- <-]|Hin]; [done|by apply IH2].
Qed.

Lemma resolve_total root present : (forall c, In c present → tracked root c) →
  exists entries, rmap (resolve_one cal root) present = Ok entries.
Proof.
  intros Ht. destruct (rmap_total (resolve_one cal root) present) as (l & Hl & _); [|by exists l].
  intros c Hc. destruct (Ht c Hc) as [Hp [e He]]. exists (c, e). apply resolve_one_Ok. by exists e.
Qed.

Lemma entry_get {V} (f : RollCalendarEntry -> V) (entries : list (ContractSymbol * RollCalendarEntry)) c :
  dget c (map (fun ce => (fst ce, f (snd ce))) entries)
  = match dget c entries with Some e => Some (f e) | None => None end.
Proof. induction entries as [|[c' e] l IH]; [done|]. cbn. by case_decide. Qed.

Section Resolved.
Variables (root : string) (entries : list (ContractSymbol * RollCalendarEntry)).
Hypothesis Hkeys : List.NoDup (dkeys pcb).
Hypothesis Hentries : rmap (resolve_one cal root) (present_contracts pcb) = Ok entries.

#[local] Notation present := (present_contracts pcb).
#[local] Notation tgt := (fun c => dget_or c 0 (map (fun ce => (fst ce, roll_target (snd ce))) entries)).

Lemma entry_of c : In c present → exists e, lookup cal c = Some e ∧ dget c entries = Some e.
Proof.
  intros Hc. destruct (resolve_entries _ _ _ Hentries) as [Hf Hl]. rewrite <- Hf in Hc.
  destruct (proj1 (dkeys_In c entries) Hc) as [e He]. exists e. split; [|done].
  apply Hl. by apply dget_In.
Qed.

Lemma entry_ltd c : match dget c (map (fun ce => (fst ce, ltd_date (snd ce))) entries) with
                    | Some d => Some d
                    | None => option_map ltd_date (lookup cal c)
                    end = option_map ltd_date (lookup cal c).
Proof.
  rewrite entry_get. destruct (dget c entries) as [e|] eqn:E; [|done].
  destruct (resolve_entries _ _ _ Hentries) as [_ Hl]. apply dget_In in E. by rewrite (Hl _ _ E).
Qed.

Definition resolved_plan : _Plan := {|
  chain := sort_by (fun a b => tgt a <=? tgt b) present;
  plan_roll_target := map (fun ce => (fst ce, roll_target (snd ce))) entries;
  plan_ltd := map (fun ce => (fst ce, ltd_date (snd ce))) entries;
  back_of := map (fun ce => (fst ce, back_symbol (snd ce))) entries |}.

Lemma tgt_rolls c t : In c present → rolls_on cal c t → t = tgt c.
Proof.
  intros Hc (e & He & <-). destruct (entry_of c Hc) as (e' & He' & Hg).
  unfold dget_or. rewrite entry_get, Hg. congruence.
Qed.

Lemma observe_bars_ok front fe fbars prev bars : forall index,
  lookup cal front = Some fe → dget front pcb = Some fbars → (forall b, In b bars → In b fbars) →
  (forall c' t', In c' present → rolls_on cal c' t' → t' < roll_target fe →
     exists p, prev = Some p ∧ t' <= p) →
  index_ok present index →
  exists index', rfold (observe_bar front (back_symbol fe) (dget (back_symbol fe) pcb) (ltd_date fe)
                   (option_map ltd_date (lookup cal (back_symbol fe))) prev (roll_target fe)) bars index
                 = Ok index' ∧ index_ok present index'.
Proof.
  induction bars as [|bar bars IH]; intros index Hfe Hfb Hin Hprev Hok; [by exists index|].
  cbn [rfold]. destruct (observe_bar_spec present front _ fe fbars bar prev index Hfe eq_refl Hfb
    (Hin bar (or_introl eq_refl)) Hprev Hok) as (index1 & -> & Hok1). cbn [rbind].
  apply IH; try done. intros b Hb. apply Hin. by right.
Qed.

(** The chain in roll order: everything before a contract has rolled by the start of its window. *)
Lemma observe_chain_ok fronts : forall prev index,
  (forall c, In c fronts → In c present) →
  StronglySorted (fun a b => (tgt a <=? tgt b) = true) fronts →
  (forall c, In c present → In c fronts ∨ exists p, prev = Some p ∧ tgt c <= p) →
  (forall p c, prev = Some p → In c fronts → p <= tgt c) →
  index_ok present index →
  exists index', observe_chain resolved_plan pcb cal fronts prev index = Ok index'
                 ∧ index_ok present index'.
Proof.
  induction fronts as [|front rest IH]; intros prev index Hin Hs Hdone Hbound Hok; [by exists index|].
  cbn [observe_chain]. unfold observe_front. cbn [plan_roll_target plan_ltd back_of resolved_plan].
  destruct (entry_of front (Hin _ (or_introl eq_refl))) as (fe & Hfe & Hg).
  destruct (proj1 (present_In pcb front Hkeys) (Hin _ (or_introl eq_refl))) as (b0 & bs & Hbars).
  rewrite (entry_get roll_target), (entry_get back_symbol), (entry_get ltd_date _ front), Hg.
  cbn [of_option rbind]. rewrite entry_ltd, Hbars. cbn [of_option rbind].
  assert (Etgt : tgt front = roll_target fe) by (unfold dget_or; by rewrite entry_get, Hg).
  inversion Hs as [|? ? Hs' Hall]; subst. rewrite List.Forall_forall in Hall.
  destruct (observe_bars_ok front fe (b0 :: bs) prev (b0 :: bs) index Hfe Hbars ltac:(done))
    as (index1 & Hrun & Hok1); [|done|].
  - intros c' t' Hc' Hr Hlt. pose proof (tgt_rolls _ _ Hc' Hr) as Et'. cbn beta in *.
    destruct (Hdone c' Hc') as [[<-|Hrest]|Hp]; [lia| |by rewrite Et'].
    apply Hall, Z.leb_le in Hrest. lia.
  - match goal with |- context [rfold ?f ?l ?i] =>
      replace (rfold f l i) with (Ok index1) by (symmetry; exact Hrun) end.
    cbn [rbind]. apply IH; [intros c Hc; apply Hin; by right|done| | |done].
    + cbn beta in *. intros c Hc. destruct (Hdone c Hc) as [[<-|Hrest]|(p & -> & Hp)]; [right|by left|right];
        (exists (roll_target fe); split; [done|]); [lia|].
      pose proof (Hbound p front eq_refl (or_introl eq_refl)). lia.
    + cbn beta in *. intros p c [= <-] Hc. apply Hall, Z.leb_le in Hc. lia.
Qed.
End Resolved.
End Facts.

(** Building a term structure gets to the end, or raises the one error it documents. *)
Lemma term_structure_runs {C} `{RollCalendar C} (cal : C) pcb root : List.NoDup (dkeys pcb) →
  (present_contracts pcb = [] ∨ (exists c, In c (present_contracts pcb) ∧ ¬ tracked cal root c)) ∧
    new_StaticTermStructure pcb cal root = Err TermStructureError
  ∨ exists index, new_StaticTermStructure pcb cal root = Ok {| _root := root; _by_date := index |}
      ∧ index_ok cal pcb (present_contracts pcb) index
      ∧ present_contracts pcb ≠ [] ∧ forall c, In c (present_contracts pcb) → tracked cal root c.
Proof.
  intros Hnd. unfold new_StaticTermStructure. destruct (present_contracts pcb) as [|c0 cs] eqn:Ep.
  { left. split; [by left|done]. }
  rewrite <- Ep. replace (is_nil (present_contracts pcb)) with false by (by rewrite Ep). cbn [reject rbind].
  unfold _resolve. destruct (rmap (resolve_one cal root) (present_contracts pcb)) as [entries|e] eqn:Er.
  - right. cbn [rbind].
    destruct (observe_chain_ok cal pcb root entries Hnd Er (chain (resolved_plan pcb entries)) None [])
      as (index & Hrun & Hok); try done.
    + intros c. apply sort_by_In.
    + apply sort_by_sorted; intros *; rewrite !Z.leb_le; lia.
    + intros c Hc. left. by apply sort_by_In.
    + exists index.
      match goal with |- context [_precompute ?p ?b ?c] =>
        replace (_precompute p b c) with (Ok index) by (symmetry; exact Hrun) end.
      cbn [rbind]. split_and!; [done|done|by rewrite Ep|].
      apply rmap_Ok in Er. intros c Hc. clear - Er Hc.
      induction Er as [|c' x l l' Hx Hl IH]; [done|]. destruct Hc as [<-|Hc]; [|by apply IH].
      apply resolve_one_Ok in Hx as (e & _ & He & Hp). split; [done|by exists e].
  - left. cbn [rbind]. clear Ep. revert Er. generalize (present_contracts pcb).
    assert (Hone : forall c x, resolve_one cal root c = Err x → ¬ tracked cal root c ∧ x = TermStructureError).
    { intros c x. unfold resolve_one, tracked. destruct (String.prefix root c); cbn [negb reject rbind].
      - destruct (lookup cal c); cbn [of_option rbind]; [done|]. intros [= <-]. split; [|done].
        by intros [_ [? ?]].
      - intros [= <-]. split; [|done]. by intros [? _]. }
    intros l. induction l as [|c l IH]; [done|]. cbn [rmap].
    destruct (resolve_one cal root c) as [x|x] eqn:Ec; cbn [rbind].
    + destruct (rmap (resolve_one cal root) l) eqn:El; cbn [rbind]; [done|]. intros [= ->].
      destruct (IH eq_refl) as [[Enil|(c' & Hc' & Hn)] E]; [by subst l| ];
        (split; [right; exists c'; split; [by right|done]|exact E]).
    + intros [= ->]. destruct (Hone c e Ec) as [Hn ->]. split; [|done]. right. exists c.
      split; [by left|done].
Qed.

(** every observation a carry strategy can read is a valid, point-in-time one.  When the source
    answers for a date, both closes are positive and the back contract expires strictly later; the
    front is the contract that is active on the date - it has not rolled and every tracked contract
    that rolls earlier has - and its close is that of one of its own bars of that date; the back
    is the front's successor in the calendar and its close is its latest on or before the date, so
    no later price enters; and the days to expiry are those of the calendar. *)
Theorem term_structure_sound {C} `{RollCalendar C} (cal : C) pcb root ts as_of c :
  List.NoDup (dkeys pcb) → new_StaticTermStructure pcb cal root = Ok ts →
  carry_inputs ts as_of = Ok (Some c) →
  ci_as_of c = dt_date as_of ∧ observed cal pcb c ∧ active_front cal c (present_contracts pcb).
Proof.
  intros Hnd Hts Hc. destruct (term_structure_runs cal pcb root Hnd) as [[_ E]|(index & E & Hok & _)];
    rewrite Hts in E; [done|]. injection E as ->.
  cbn in Hc. unfold Static_carry_inputs in Hc. apply rbind_Ok in Hc as (_ & _ & [= Hc]). by apply Hok.
Qed.

(** building the index never fails half way.  For any bars, construction raises
    [TermStructureError] exactly when no contract has a bar or some contract with bars is of another
    root or not in the calendar, raises nothing else, and otherwise succeeds: the checks of the
    observations it makes never fire and no lookup of the plan misses.  Reading it raises only on a
    naive instant. *)
Theorem term_structure_errors {C} `{RollCalendar C} (cal : C) pcb root : List.NoDup (dkeys pcb) →
  (new_StaticTermStructure pcb cal root = Err TermStructureError ↔
     present_contracts pcb = [] ∨ exists c, In c (present_contracts pcb) ∧ ¬ tracked cal root c) ∧
  (new_StaticTermStructure pcb cal root = Err TermStructureError ∨
   exists ts, new_StaticTermStructure pcb cal root = Ok ts ∧
     forall as_of, is_ok (carry_inputs ts as_of) = negb (dt_naive as_of)).
Proof.
  intros Hnd. destruct (term_structure_runs cal pcb root Hnd) as [[Hc E]|(index & E & _ & Hne & Ht)];
    rewrite E; split.
  - by split.
  - by left.
  - split; [done|]. intros [Hnil|(c & Hin & Hn)]; [done|]. by destruct (Hn (Ht c Hin)).
  - right. eexists. split; [reflexivity|]. intros as_of. cbn. unfold Static_carry_inputs, _assert_tz_aware.
    by destruct (dt_naive as_of).
Qed.

(** ** Witnesses: the two contracts of [Continuous], the first expiring on day 14 *)
Definition wit_ts : result StaticTermStructure := new_StaticTermStructure wit_pcb wit_calendar "CL".

Lemma term_structure_sound_witness : exists ts c,
  wit_ts = Ok ts ∧ carry_inputs ts (DT (11 * us_per_day) (Some 0)) = Ok (Some c) ∧
  ci_front c = "CLF26"%string ∧ front_close c = Dec 61 0 ∧ back_close c = Dec 65 0 ∧
  0 < days_front c < days_back c.
Proof.
  eexists _, _. run_as Hts. run_as Hc. split; [vm_compute; reflexivity|]. split; [vm_compute; reflexivity|].
  split; [vm_compute; reflexivity|].
  destruct (term_structure_sound wit_calendar wit_pcb "CL" _ _ _
              ltac:(repeat constructor; simpl; intuition discriminate) Hts Hc)
    as (_ & ((_ & _ & Hdays) & _) & _).
  exact Hdays.
Defined.

Lemma term_structure_errors_witness :
  new_StaticTermStructure wit_pcb wit_calendar "ES" = Err TermStructureError.
Proof.
  apply (term_structure_errors wit_calendar wit_pcb "ES" ltac:(repeat constructor; simpl; intuition discriminate)).
  right. exists "CLF26"%string. split; [by left|]. intros [Hp _]. vm_compute in Hp. discriminate Hp.
Defined.
End CarryFacts.

(** ** The roll-excluded view *)
Module IntradayFacts.
Import Intraday.

Lemma flags_loop_spec bars : forall prev,
  length (flags_loop prev bars) = length bars ∧
  forall i f, nth_error (flags_loop prev bars) i = Some f →
  exists a b, nth_error (prev :: bars) i = Some a ∧ nth_error bars i = Some b ∧
    (f = true ↔ rb_contract a ≠ rb_contract b).
Proof.
  induction bars as [|bar bars IH]; intros prev; [split; [done|intros [|i]; done]|].
  destruct (IH bar) as [Hl Hn]. split; [simpl; by f_equal|]. intros [|i] f Hf; cbn in Hf.
  - injection Hf as <-. exists prev, bar. split; [done|]. split; [done|].
    rewrite negb_true_iff, String.eqb_neq. split; intros Hne E; by apply Hne.
  - destruct (Hn i f Hf) as (a & b & Ha & Hb & Hiff). by exists a, b.
Qed.

Lemma returns_loop_spec bars : forall prev flags i r, length flags = length bars →
  nth_error (returns_loop prev bars flags) i = Some r →
  exists a b f, nth_error (prev :: bars) i = Some a ∧ nth_error bars i = Some b ∧
    nth_error flags i = Some f ∧
    r = if f || feqb (f_of_decimal (rb_close a)) f_zero then None
        else Some (fsub (fdiv (f_of_decimal (rb_close b)) (f_of_decimal (rb_close a))) f_one).
Proof.
  induction bars as [|bar bars IH]; intros prev [|flag flags] i r Hl Hr; try done; [by destruct i|].
  injection Hl as Hl. destruct i as [|i]; cbn in Hr.
  - injection Hr as <-. by exists prev, bar, flag.
  - destruct (IH bar flags i r Hl Hr) as (a & b & f & Ha & Hb & Hf & ->). by exists a, b, f.
Qed.

Lemma returns_loop_length bars : forall prev flags, length flags = length bars →
  length (returns_loop prev bars flags) = length bars.
Proof.
  induction bars as [|bar bars IH]; intros prev [|flag flags] Hl; try done. injection Hl as Hl.
  simpl. f_equal. by apply IH.
Qed.

(** no return crosses a roll.  A series that is built has at least one bar and one return slot
    per bar; the first slot is empty, and any later one that is filled is the simple return between
    two consecutive bars of the same contract with a non-zero base, while a slot is empty only at
    a change of contract or over a zero base. *)
Theorem roll_excluded_sound root bars s : build_roll_excluded_series root bars = Ok s →
  bars ≠ [] ∧ length (roll_clean_returns s) = length bars ∧
  nth_error (roll_clean_returns s) 0 = Some None ∧
  forall i a b, nth_error bars i = Some a → nth_error bars (S i) = Some b →
  exists r, nth_error (roll_clean_returns s) (S i) = Some r ∧
    match r with
    | Some x => rb_contract a = rb_contract b ∧
        x = fsub (fdiv (f_of_decimal (rb_close b)) (f_of_decimal (rb_close a))) f_one
    | None => rb_contract a ≠ rb_contract b ∨ feqb (f_of_decimal (rb_close a)) f_zero = true
    end.
Proof.
  unfold build_roll_excluded_series, RollExcludedSeries_post_init. intros Hb. inv_ok.
  destruct bars as [|b0 bars]; [done|]. cbn [_roll_flags]. split; [done|].
  unfold roll_clean_returns. cbn [re_bars re_roll_flags].
  destruct (flags_loop_spec bars b0) as [Hl Hn].
  split; [simpl; f_equal; by apply returns_loop_length|]. split; [done|]. intros i a b Ha Hbi.
  cbn [nth_error] in Hbi |- *.
  destruct (nth_error (returns_loop b0 bars (flags_loop b0 bars)) i) as [r|] eqn:Er.
  - exists r. split; [done|].
    destruct (returns_loop_spec _ _ _ _ _ Hl Er) as (a' & b' & f & Ha' & Hb' & Hf & ->).
    rewrite Ha in Ha'. injection Ha' as <-. rewrite Hbi in Hb'. injection Hb' as <-.
    destruct (Hn i f Hf) as (a2 & b2 & Ha2 & Hb2 & Hiff).
    rewrite Ha in Ha2. injection Ha2 as <-. rewrite Hbi in Hb2. injection Hb2 as <-.
    destruct f; cbn [orb]; [left; by apply Hiff|].
    destruct (feqb _ _); [by right|]. split; [|done].
    destruct (string_dec (rb_contract a) (rb_contract b)) as [E|E]; [exact E|]. by apply Hiff in E.
  - exfalso. apply nth_error_None in Er. rewrite returns_loop_length in Er by done.
    assert (i < length bars)%nat by (apply nth_error_Some; congruence). lia.
Qed.

Lemma roll_excluded_sound_witness : exists s,
  build_roll_excluded_series "CL" [wit_rb "CLF26" 10 60; wit_rb "CLF26" 11 66; wit_rb "CLG26" 12 80] = Ok s ∧
  nth_error (roll_clean_returns s) 2 = Some None.
Proof.
  eexists. run_as Hs.
  destruct (roll_excluded_sound _ _ _ Hs) as (_ & _ & _ & Hall).
  destruct (Hall 1%nat _ _ eq_refl eq_refl) as (r & Hr & _). vm_compute. reflexivity.
Defined.
End IntradayFacts.
