(* ===== verification/Cv.v ===== *)
(** * futur3/cv/walkforward.py and futur3/cv/cpcv.py: cross-validation splits

    Strictly causal walk-forward folds, and purged, embargoed combinatorial folds.  A Python set of
    indices is a list without repetitions whose order is never observed (it is tested for membership
    or sorted). *)

From S2P Require Import Prelude.

#[local] Open Scope Z_scope.

(** ** walkforward.py *)
Definition _VALID_MODES : list string := ["anchored"; "rolling"]%string.
Definition _MIN_SAMPLES : Z := 2.

Record WalkForwardFold := {
  wf_fold : Z;
  train_start : Z;
  train_end : Z;
  val_start : Z;
  val_end : Z;
}.

Definition n_train (f : WalkForwardFold) : Z := train_end f - train_start f.
Definition n_val (f : WalkForwardFold) : Z := val_end f - val_start f.

(** [range(a, b)] *)
Definition zrange (a b : Z) : list Z := map (fun k => a + Z.of_nat k) (seq 0 (Z.to_nat (b - a))).
Definition train_indices (f : WalkForwardFold) : list Z := zrange (train_start f) (train_end f).
Definition val_indices (f : WalkForwardFold) : list Z := zrange (val_start f) (val_end f).

Definition _resolve_walk_forward (n_samples val_window : Z) (mode : string) (train_window step : option Z)
    (min_train : Z) : result (Z * Z) :=
  guard! n_samples <? _MIN_SAMPLES else WalkForwardError in
  guard! negb (existsb (String.eqb mode) _VALID_MODES) else WalkForwardError in
  guard! val_window <? 1 else WalkForwardError in
  guard! min_train <? 1 else WalkForwardError in
  let resolved_step := match step with None => val_window | Some s => s end in
  guard! resolved_step <? 1 else WalkForwardError in
  if String.eqb mode "rolling" then
    match train_window with
    | None => Err WalkForwardError
    | Some w => guard! w <? 1 else WalkForwardError in Ok (resolved_step, w)
    end
  else
    match train_window with
    | Some _ => Err WalkForwardError
    | None => Ok (resolved_step, min_train)
    end.

(** The [while] loop; [n_samples - val_start] passes are enough, as the step is at least one. *)
Fixpoint fold_loop (fuel : nat) (n_samples val_window : Z) (mode : string) (train_window : option Z)
    (step min_train : Z) (vstart : Z) (folds : list WalkForwardFold) : result (list WalkForwardFold) :=
  match fuel with
  | O => Ok folds
  | S fuel =>
      if vstart <? n_samples then
        let vend := Z.min (vstart + val_window) n_samples in
        let! tstart := if String.eqb mode "anchored" then Ok 0
                       else let! w := of_option train_window AssertionError in Ok (vstart - w) in
        let folds :=
          if min_train <=? vstart - tstart
          then folds ++ [ {| wf_fold := Z.of_nat (length folds); train_start := tstart;
                             train_end := vstart; val_start := vstart; val_end := vend |} ]
          else folds in
        fold_loop fuel n_samples val_window mode train_window step min_train (vstart + step) folds
      else Ok folds
  end.

Definition walk_forward_splits (n_samples val_window : Z) (mode : string) (train_window step : option Z)
    (min_train : Z) : result (list WalkForwardFold) :=
  let! '(step, first_val) :=
    _resolve_walk_forward n_samples val_window mode train_window step min_train in
  let! folds := fold_loop (Z.to_nat (n_samples - first_val)) n_samples val_window mode train_window
                  step min_train first_val [] in
  match folds with
  | [] => Err WalkForwardError
  | _ :: _ => Ok folds
  end.

(** ** cpcv.py *)
Definition _DEFAULT_N_BLOCKS : Z := 10.
Definition _DEFAULT_K_TEST : Z := 2.
Definition _DEFAULT_PURGE : Z := 5.
Definition _DEFAULT_EMBARGO : Z := 2.
Definition _MIN_BLOCKS : Z := 2.

Record CPCVFold := {
  cp_fold : Z;
  test_blocks : list nat;
  train_idx : list Z;
  test_idx : list Z;
  n_purged : Z;
  n_embargoed : Z;
}.

(** The loop of [_make_blocks] from block [b] on, [k] blocks left. *)
Fixpoint blocks_loop (base remainder : Z) (b start : Z) (k : nat) : list (Z * Z) :=
  match k with
  | O => []
  | S k =>
      let size := base + (if b <? remainder then 1 else 0) in
      (start, start + size) :: blocks_loop base remainder (b + 1) (start + size) k
  end.

Definition _make_blocks (n_samples n_blocks : Z) : list (Z * Z) :=
  blocks_loop (n_samples / n_blocks) (n_samples mod n_blocks) 0 0 (Z.to_nat n_blocks).

(** [itertools.combinations(l, k)], in its order. *)
Fixpoint combinations {A} (l : list A) (k : nat) : list (list A) :=
  match k, l with
  | O, _ => [[]]
  | S _, [] => []
  | S k', x :: xs => map (cons x) (combinations xs k') ++ combinations xs k
  end.

Definition z_in (i : Z) (l : list Z) : bool := existsb (Z.eqb i) l.
(** [a |= b] *)
Definition set_union (a b : list Z) : list Z := a ++ List.filter (fun i => negb (z_in i a)) b.

(** The three sets of a choice of test blocks. *)
Fixpoint fold_sets (n_samples purge embargo : Z) (intervals : list (Z * Z))
    (sets : list Z * list Z * list Z) : list Z * list Z * list Z :=
  match intervals with
  | [] => sets
  | (ts, te) :: rest =>
      let '(test_set, purge_set, embargo_set) := sets in
      fold_sets n_samples purge embargo rest
        (set_union test_set (zrange ts te),
         set_union purge_set (zrange (Z.max 0 (ts - purge)) ts),
         set_union embargo_set (zrange te (Z.min n_samples (te + embargo))))
  end.

(** The classification of the indices, in order. *)
Fixpoint classify (test_set purge_set embargo_set : list Z) (indices : list Z)
    : list Z * Z * Z :=
  match indices with
  | [] => ([], 0, 0)
  | i :: rest =>
      let '(train, purged, embargoed) := classify test_set purge_set embargo_set rest in
      if z_in i test_set then (train, purged, embargoed)
      else if z_in i purge_set then (train, purged + 1, embargoed)
      else if z_in i embargo_set then (train, purged, embargoed + 1)
      else (i :: train, purged, embargoed)
  end.

Definition make_fold (n_samples purge embargo : Z) (blocks : list (Z * Z)) (number : Z)
    (combo : list nat) : CPCVFold :=
  let intervals := map (fun b => nth b blocks (0, 0)) combo in
  let '(test_set, purge_set, embargo_set) := fold_sets n_samples purge embargo intervals ([], [], []) in
  let '(train, purged, embargoed) :=
    classify test_set purge_set embargo_set (zrange 0 n_samples) in
  {| cp_fold := number; test_blocks := combo; train_idx := train;
     test_idx := sort_by Z.leb test_set; n_purged := purged; n_embargoed := embargoed |}.

Fixpoint number_folds (n_samples purge embargo : Z) (blocks : list (Z * Z)) (number : Z)
    (combos : list (list nat)) : list CPCVFold :=
  match combos with
  | [] => []
  | c :: rest => make_fold n_samples purge embargo blocks number c
                 :: number_folds n_samples purge embargo blocks (number + 1) rest
  end.

Definition cpcv_splits (n_samples n_blocks k_test purge embargo : Z) : result (list CPCVFold) :=
  guard! n_blocks <? _MIN_BLOCKS else CPCVError in
  guard! negb ((1 <=? k_test) && (k_test <? n_blocks)) else CPCVError in
  guard! purge <? 0 else CPCVError in
  guard! embargo <? 0 else CPCVError in
  guard! n_samples <? n_blocks else CPCVError in
  let blocks := _make_blocks n_samples n_blocks in
  Ok (number_folds n_samples purge embargo blocks 0
        (combinations (seq 0 (Z.to_nat n_blocks)) (Z.to_nat k_test))).

Example cpcv_45 : match cpcv_splits 100 10 2 5 2 with Ok l => length l | Err _ => 0%nat end = 45%nat.
Proof. vm_compute. reflexivity. Qed.

(** ** Walk-forward *)
Section WalkForward.
Context (n vw step mt : Z) (mode : string) (tw : option Z).
Hypothesis Hstep : 1 <= step.

(** The fold that starts validating at [v]. *)
Definition fold_at (number v tstart : Z) : WalkForwardFold := {|
  wf_fold := number; train_start := tstart; train_end := v; val_start := v;
  val_end := Z.min (v + vw) n |}.

Context (tstart : Z -> Z).
Hypothesis Htstart : forall v,
  (if String.eqb mode "anchored" then Ok 0
   else let! w := of_option tw AssertionError in Ok (v - w)) = Ok (tstart v).

Lemma fold_loop_wide fuel : forall v folds,
  (forall v', v <= v' → mt <= v' - tstart v') → n - v <= Z.of_nat fuel →
  exists k, (forall j, (j < k)%nat ↔ v + Z.of_nat j * step < n) ∧
    fold_loop fuel n vw mode tw step mt v folds
    = Ok (folds ++ map (fun j => fold_at (Z.of_nat (length folds + j)) (v + Z.of_nat j * step)
                                   (tstart (v + Z.of_nat j * step))) (seq 0 k)).
Proof.
  induction fuel as [|fuel IH]; intros v folds Hw Hf; cbn [fold_loop].
  - exists 0%nat. simpl. rewrite app_nil_r. split; [|done]. intros j. nia.
  - destruct (Z.ltb_spec v n).
    2: { exists 0%nat. simpl. rewrite app_nil_r. split; [|done]. intros j. nia. }
    rewrite Htstart. cbn [rbind]. cbv zeta. rewrite (proj2 (Z.leb_le _ _) (Hw v ltac:(lia))).
    set (f0 := {| wf_fold := _; train_start := _; train_end := _; val_start := _; val_end := _ |}).
    destruct (IH (v + step) (folds ++ [f0]) ltac:(intros; apply Hw; lia) ltac:(lia)) as (k & Hk & ->).
    exists (S k). split.
    + intros [|j]; [lia|]. specialize (Hk j). split; intros Hj; [|apply -> Nat.succ_lt_mono; apply Hk; lia].
      apply Nat.succ_lt_mono in Hj. apply Hk in Hj. lia.
    + f_equal. rewrite <- app_assoc. f_equal. rewrite <- cons_seq. cbn [map app]. f_equal.
      * subst f0. unfold fold_at. rewrite Nat.add_0_r, Z.mul_0_l, Z.add_0_r. done.
      * rewrite <- seq_shift, map_map. apply map_ext. intros j. rewrite length_app. cbn [length].
        replace (v + Z.of_nat (S j) * step) with (v + step + Z.of_nat j * step) by lia. f_equal; lia.
Qed.

Lemma fold_loop_narrow fuel : forall v folds,
  (forall v', v <= v' → v' - tstart v' < mt) →
  fold_loop fuel n vw mode tw step mt v folds = Ok folds.
Proof.
  induction fuel as [|fuel IH]; intros v folds Hw; cbn [fold_loop]; [done|].
  destruct (v <? n); [|done]. rewrite Htstart. cbn [rbind]. cbv zeta.
  rewrite (proj2 (Z.leb_gt _ _)) by (specialize (Hw v ltac:(lia)); lia).
  apply IH. intros v' Hv. apply Hw. lia.
Qed.

(** The result of the loop on windows wide enough, as the caller checks it. *)
Lemma splits_wide v0 : 1 <= vw → (forall v', v0 <= v' → mt <= v' - tstart v') →
  match (let! folds := fold_loop (Z.to_nat (n - v0)) n vw mode tw step mt v0 [] in
       match folds with [] => Err WalkForwardError | _ :: _ => Ok folds end) with
  | Ok folds => folds ≠ [] ∧
    (forall k f, nth_error folds k = Some f ↔ v0 + Z.of_nat k * step < n ∧
       f = fold_at (Z.of_nat k) (v0 + Z.of_nat k * step) (tstart (v0 + Z.of_nat k * step))) ∧
    (forall f, In f folds → mt <= n_train f ∧ 1 <= n_val f <= vw)
  | Err e => e = WalkForwardError
  end.
Proof.
  intros Hvw Hw. destruct (fold_loop_wide (Z.to_nat (n - v0)) v0 [] Hw ltac:(lia)) as (k & Hk & ->).
  cbn [rbind app length]. set (folds := map _ (seq 0 k)).
  assert (Hnth : forall j f, nth_error folds j = Some f ↔ v0 + Z.of_nat j * step < n ∧
  f = fold_at (Z.of_nat j) (v0 + Z.of_nat j * step) (tstart (v0 + Z.of_nat j * step))).
  { intros j f. subst folds. rewrite nth_error_map, <- Hk. destruct (decide (j < k)%nat) as [Hj|Hj].
  - rewrite nth_error_nth' with (d := 0%nat) by (by rewrite length_seq). rewrite seq_nth by done.
    simpl. naive_solver.
  - rewrite (proj2 (nth_error_None _ _)) by (rewrite length_seq; lia). simpl. naive_solver. }
  assert (Hall : forall f, In f folds → mt <= n_train f ∧ 1 <= n_val f <= vw).
  { intros f (j & Hj)%In_nth_error. apply Hnth in Hj as [Hj ->].
  pose proof (Hw (v0 + Z.of_nat j * step) ltac:(nia)). unfold n_train, n_val, fold_at. simpl. lia. }
  clearbody folds. destruct folds as [|f0 folds]; [done|]. split_and!; [done|exact Hnth|exact Hall].
Qed.
End WalkForward.

Definition opt_default {A} (o : option A) (d : A) : A := match o with Some a => a | None => d end.

(** C19: walk-forward folds are strictly causal and complete.  The loop ends for every configuration.
    When folds are returned, the [k]-th one exists exactly while its validation window starts inside
    the series, at the first start plus [k] steps; training is everything before (anchored) or a
    window of fixed width (rolling), ends exactly where validation begins and has at least
    [min_train] observations; the validation window is non-empty, at most [val_window] wide and cut
    at the end of the series.  Otherwise the error is [WalkForwardError], never the assertion. *)
Theorem walk_forward_spec n vw mode tw step mt :
  let s := opt_default step vw in
  let first := if String.eqb mode "rolling" then opt_default tw 0 else mt in
  match walk_forward_splits n vw mode tw step mt with
  | Ok folds =>
      folds ≠ [] ∧ 1 <= s ∧
      (forall k f, nth_error folds k = Some f ↔
         first + Z.of_nat k * s < n ∧
         f = {| wf_fold := Z.of_nat k;
                train_start := if String.eqb mode "rolling" then Z.of_nat k * s else 0;
                train_end := first + Z.of_nat k * s; val_start := first + Z.of_nat k * s;
                val_end := Z.min (first + Z.of_nat k * s + vw) n |}) ∧
      (forall f, In f folds → mt <= n_train f ∧ 1 <= n_val f <= vw)
  | Err e => e = WalkForwardError
  end.
Proof.
  intros s first. unfold walk_forward_splits, _resolve_walk_forward. fold (opt_default step vw). fold s. clearbody s.
  destruct (Z.ltb_spec n _MIN_SAMPLES); [done|]. cbn [reject rbind].
  destruct (existsb _ _VALID_MODES) eqn:Emode; [|done]. cbn [negb reject rbind].
  destruct (Z.ltb_spec vw 1); [done|]. destruct (Z.ltb_spec mt 1); [done|]. cbn [reject rbind]. cbv zeta.
  destruct (Z.ltb_spec s 1); [done|]. cbn [reject rbind]. subst first.
  simpl in Emode. rewrite orb_false_r in Emode.
  destruct (String.eqb mode "rolling") eqn:Er.
  - assert (Ea : String.eqb mode "anchored" = false) by (apply String.eqb_eq in Er; by subst).
    destruct tw as [w|]; [|done]. destruct (Z.ltb_spec w 1); [done|]. cbn [reject rbind opt_default].
    assert (Ht : forall v, (if String.eqb mode "anchored" then Ok 0
       else let! w' := of_option (Some w) AssertionError in Ok (v - w')) = Ok (v - w)) by (intros; by rewrite Ea).
    destruct (decide (mt <= w)).
    + pose proof (splits_wide n vw s mt mode (Some w) ltac:(lia) (fun v => v - w) Ht w ltac:(lia)
                    ltac:(intros; cbn beta; lia)) as Hfin.
      destruct (let! folds := _ in _) as [folds|e]; [|done].
      destruct Hfin as (? & Hn & ?). split_and!; try done. intros k f. rewrite Hn. unfold fold_at.
      replace (w + Z.of_nat k * s - w) with (Z.of_nat k * s) by lia. done.
    + rewrite (fold_loop_narrow n vw s mt mode (Some w) ltac:(lia) (fun v => v - w) Ht); [done|]. intros; cbn beta; lia.
  - rewrite orb_true_iff in Emode. destruct Emode as [Ea|?]; [|congruence].
    destruct tw as [w|]; [done|]. cbn [rbind].
    pose proof (splits_wide n vw s mt mode None ltac:(lia) (fun _ => 0) ltac:(intros; by rewrite Ea)
                  mt ltac:(lia) ltac:(intros; cbn beta; lia)) as Hfin.
    destruct (let! folds := _ in _) as [folds|e]; [|done].
    destruct Hfin as (? & Hn & ?). split_and!; try done.
Qed.

(** ** Combinatorial purged folds *)
Lemma zrange_In a b i : In i (zrange a b) ↔ a <= i < b.
Proof.
  unfold zrange. rewrite in_map_iff. split.
  - intros (k & <- & Hk%in_seq). lia.
  - intros H. exists (Z.to_nat (i - a)). split; [lia|]. apply in_seq. lia.
Qed.

Lemma zrange_sorted a b : StronglySorted Z.lt (zrange a b).
Proof.
  unfold zrange. generalize (Z.to_nat (b - a)) 0%nat. intros k. induction k as [|k IH]; intros s; simpl; [constructor|].
  constructor; [apply IH|]. rewrite List.Forall_forall. intros x (j & <- & Hj%in_seq)%in_map_iff. lia.
Qed.

Lemma sorted_NoDup l : StronglySorted Z.lt l → List.NoDup l.
Proof.
  induction 1 as [|x l Hs IH Hall]; constructor; [|done].
  intros Hx. rewrite List.Forall_forall in Hall. specialize (Hall x Hx). lia.
Qed.

Lemma zrange_NoDup a b : List.NoDup (zrange a b).
Proof. apply sorted_NoDup, zrange_sorted. Qed.

Lemma z_in_spec i l : z_in i l = true ↔ In i l.
Proof.
  unfold z_in. rewrite existsb_exists. split; [by intros (x & Hx & ->%Z.eqb_eq)|].
  intros H. exists i. split; [done|apply Z.eqb_refl].
Qed.

Lemma set_union_In a b i : In i (set_union a b) ↔ In i a ∨ In i b.
Proof.
  unfold set_union. rewrite in_app_iff, filter_In, negb_true_iff, <- not_true_iff_false, z_in_spec.
  destruct (in_dec Z.eq_dec i a); naive_solver.
Qed.

Lemma set_union_NoDup a b : List.NoDup a → List.NoDup b → List.NoDup (set_union a b).
Proof.
  intros Ha Hb. unfold set_union. apply List.NoDup_app; [done|by apply List.NoDup_filter|].
  intros i Hi [_ Hn]%filter_In. apply negb_true_iff, not_true_iff_false in Hn. by apply Hn, z_in_spec.
Qed.

Section Sets.
Context (n purge embargo : Z).

Lemma fold_sets_spec intervals : forall t p e,
  let '(t', p', e') := fold_sets n purge embargo intervals (t, p, e) in
  (List.NoDup t → List.NoDup t') ∧
  (forall i, In i t' ↔ In i t ∨ exists ts te, In (ts, te) intervals ∧ ts <= i < te) ∧
  (forall i, In i p' ↔ In i p ∨ exists ts te, In (ts, te) intervals ∧ Z.max 0 (ts - purge) <= i < ts) ∧
  (forall i, In i e' ↔ In i e ∨ exists ts te, In (ts, te) intervals ∧ te <= i < Z.min n (te + embargo)).
Proof.
  induction intervals as [|[ts te] rest IH]; intros t p e; simpl.
  - split_and!; [done|..]; intros i; naive_solver.
  - specialize (IH (set_union t (zrange ts te)) (set_union p (zrange (Z.max 0 (ts - purge)) ts))
                 (set_union e (zrange te (Z.min n (te + embargo))))).
    destruct (fold_sets _ _ _ rest _) as [[t' p'] e']. destruct IH as (Hnd & Ht & Hp & He).
    split_and!.
    + intros Hn. apply Hnd, set_union_NoDup; [done|apply zrange_NoDup].
    + intros i. rewrite Ht, set_union_In, zrange_In. naive_solver.
    + intros i. rewrite Hp, set_union_In, zrange_In. naive_solver.
    + intros i. rewrite He, set_union_In, zrange_In. naive_solver.
Qed.
End Sets.

Lemma classify_spec t p e l :
  let '(train, purged, embargoed) := classify t p e l in
  train = List.filter (fun i => negb (z_in i t) && negb (z_in i p) && negb (z_in i e)) l ∧
  0 <= purged ∧ 0 <= embargoed ∧
  Z.of_nat (length (List.filter (fun i => z_in i t) l)) + Z.of_nat (length train) + purged + embargoed
  = Z.of_nat (length l).
Proof.
  induction l as [|i l IH]; simpl; [done|].
  destruct (classify t p e l) as [[train purged] embargoed]. destruct IH as (-> & Hp & He & Hsum).
  destruct (z_in i t), (z_in i p), (z_in i e); simpl; split_and!; try done; simpl in *; lia.
Qed.

(** Membership in the three sets, read back as distances from the test blocks. *)
Definition in_test (f : CPCVFold) (blocks : list (Z * Z)) (i : Z) : Prop :=
  exists b, In b (test_blocks f) ∧ let '(ts, te) := nth b blocks (0, 0) in ts <= i < te.

(** [i] is at least [purge] before and [embargo] after every test block. *)
Definition clear_of_test (f : CPCVFold) (blocks : list (Z * Z)) (purge embargo i : Z) : Prop :=
  forall b, In b (test_blocks f) → let '(ts, te) := nth b blocks (0, 0) in
    i < ts - purge ∨ te + embargo <= i.

Lemma interval_blocks (blocks : list (Z * Z)) combo ts te :
  In (ts, te) (map (fun b => nth b blocks (0, 0)) combo) ↔
  exists b, In b combo ∧ nth b blocks (0, 0) = (ts, te).
Proof. rewrite in_map_iff. naive_solver. Qed.

Lemma sorted_filter (f : Z -> bool) l : StronglySorted Z.lt l → StronglySorted Z.lt (List.filter f l).
Proof.
  induction 1 as [|x l Hs IH Hall]; simpl; [constructor|]. destruct (f x); [|done].
  constructor; [done|]. rewrite List.Forall_forall in *. intros y [Hy _]%filter_In. auto.
Qed.

Lemma make_fold_spec n purge embargo blocks number combo :
  0 <= n → 0 <= purge → 0 <= embargo →
  (forall b, In b combo → let '(ts, te) := nth b blocks (0, 0) in 0 <= ts <= te ∧ te <= n) →
  let f := make_fold n purge embargo blocks number combo in
  cp_fold f = number ∧ test_blocks f = combo ∧
  StronglySorted Z.lt (train_idx f) ∧ Sorted (fun a b => a <= b) (test_idx f) ∧ List.NoDup (test_idx f) ∧
  (forall i, In i (test_idx f) ↔ in_test f blocks i) ∧
  (forall i, In i (train_idx f) ↔ 0 <= i < n ∧ ¬ in_test f blocks i ∧ clear_of_test f blocks purge embargo i) ∧
  0 <= n_purged f ∧ 0 <= n_embargoed f ∧
  Z.of_nat (length (test_idx f)) + Z.of_nat (length (train_idx f)) + n_purged f + n_embargoed f = n.
Proof.
  intros Hn Hpu Hem Hb. unfold make_fold.
  pose proof (fold_sets_spec n purge embargo (map (fun b => nth b blocks (0, 0)) combo) [] [] []) as Hs.
  destruct (fold_sets _ _ _ _ _) as [[t p] e]. destruct Hs as (Hnd & Ht & Hp & He).
  specialize (Hnd ltac:(constructor)).
  pose proof (classify_spec t p e (zrange 0 n)) as Hc.
  destruct (classify t p e (zrange 0 n)) as [[train purged] embargoed]. destruct Hc as (-> & Hp0 & He0 & Hsum).
  cbv zeta. unfold in_test, clear_of_test. cbn [cp_fold test_blocks train_idx test_idx n_purged n_embargoed].
  assert (Htest : forall i, In i t ↔ exists b, In b combo ∧ let '(ts, te) := nth b blocks (0, 0) in ts <= i < te).
  { intros i. rewrite Ht. setoid_rewrite interval_blocks. split.
    - intros [[]|(ts & te & (b & Hin & E) & Hi)]. exists b. by rewrite E.
    - intros (b & Hin & Hi). right. destruct (nth b blocks (0, 0)) as [ts te] eqn:E. eauto 6. }
  split_and!; try done.
  - apply sorted_filter, zrange_sorted.
  - apply StronglySorted_Sorted.
    pose proof (sort_by_sorted Z.leb ltac:(intros; rewrite !Z.leb_le; lia) ltac:(intros ???; rewrite !Z.leb_le; lia) t) as Hsort.
    clear -Hsort. induction Hsort as [|x l Hs IH Hall]; constructor; [done|].
    eapply List.Forall_impl; [|exact Hall]. intros y Hy. by apply Z.leb_le.
  - eapply Permutation_NoDup; [apply sort_by_perm|done].
  - intros i. by rewrite sort_by_In.
  - intros i. rewrite filter_In, zrange_In, !andb_true_iff, !negb_true_iff, <- !not_true_iff_false, !z_in_spec.
    rewrite Htest, Hp, He. setoid_rewrite interval_blocks. split.
    + intros (Hi & (Hnt & Hnp) & Hne). split_and!; [lia|lia|done|]. intros b Hin.
      destruct (nth b blocks (0, 0)) as [ts te] eqn:E.
      assert (¬ (ts <= i < te)) by (intros Hx; apply Hnt; exists b; by rewrite E).
      assert (¬ (Z.max 0 (ts - purge) <= i < ts)) by (intros Hx; apply Hnp; right; eauto 6).
      assert (¬ (te <= i < Z.min n (te + embargo))) by (intros Hx; apply Hne; right; eauto 6).
      specialize (Hb b Hin). rewrite E in Hb. lia.
    + intros (Hi & Hnt & Hcl). split_and!; [lia|lia|done| |].
      * intros [[]|(ts & te & (b & Hin & E) & Hx)]. specialize (Hcl b Hin). specialize (Hb b Hin).
        rewrite E in Hcl, Hb. lia.
      * intros [[]|(ts & te & (b & Hin & E) & Hx)]. specialize (Hcl b Hin). specialize (Hb b Hin).
        rewrite E in Hcl, Hb. lia.
  - rewrite sort_by_length.
    assert (Hlen : length t = length (List.filter (fun i => z_in i t) (zrange 0 n))).
    { apply Permutation_length, Stdlib.Sorting.Permutation.NoDup_Permutation;
        [done|by apply List.NoDup_filter, zrange_NoDup|].
      intros i. rewrite filter_In, zrange_In, z_in_spec. split; [|tauto]. intros Hi. split; [|done].
      apply Htest in Hi as (b & Hin & Hi). specialize (Hb b Hin). destruct (nth b blocks (0, 0)). lia. }
    rewrite Hlen, Hsum. unfold zrange. rewrite length_map, length_seq. lia.
Qed.

(** The start of block [b]. *)
Definition block_edge (n n_blocks b : Z) : Z := b * (n / n_blocks) + Z.min b (n mod n_blocks).

Lemma blocks_loop_spec n nb k : forall b, 0 <= b →
  length (blocks_loop (n / nb) (n mod nb) b (block_edge n nb b) k) = k ∧
  forall j, (j < k)%nat → nth j (blocks_loop (n / nb) (n mod nb) b (block_edge n nb b) k) (0, 0)
    = (block_edge n nb (b + Z.of_nat j), block_edge n nb (b + Z.of_nat j + 1)).
Proof.
  induction k as [|k IH]; intros b Hb; [split; [done|lia]|]. cbn [blocks_loop]. cbv zeta.
  assert (E : block_edge n nb b + (n / nb + (if b <? n mod nb then 1 else 0)) = block_edge n nb (b + 1)).
  { unfold block_edge. destruct (Z.ltb_spec b (n mod nb)); lia. }
  rewrite E. destruct (IH (b + 1) ltac:(lia)) as [Hl Hn]. split; [simpl; by rewrite Hl|].
  intros [|j] Hj; cbn [nth].
  - by rewrite Z.add_0_r.
  - rewrite Hn by lia. f_equal; f_equal; lia.
Qed.

Lemma make_blocks_spec n nb : 0 < nb →
  length (_make_blocks n nb) = Z.to_nat nb ∧
  forall j, Z.of_nat j < nb → nth j (_make_blocks n nb) (0, 0)
    = (block_edge n nb (Z.of_nat j), block_edge n nb (Z.of_nat j + 1)).
Proof.
  intros Hnb. unfold _make_blocks.
  assert (E : block_edge n nb 0 = 0).
  { unfold block_edge. pose proof (Z.mod_pos_bound n nb Hnb). lia. }
  destruct (blocks_loop_spec n nb (Z.to_nat nb) 0 ltac:(lia)) as [Hl Hn]. rewrite E in *.
  split; [done|]. intros j Hj. rewrite Hn by lia. done.
Qed.

Lemma block_edge_bounds n nb j : 0 < nb → nb <= n → 0 <= j < nb →
  0 <= block_edge n nb j < block_edge n nb (j + 1) ∧ block_edge n nb (j + 1) <= n.
Proof.
  intros Hnb Hn Hj. unfold block_edge. pose proof (Z.mod_pos_bound n nb Hnb).
  pose proof (Z.div_mod n nb ltac:(lia)). assert (1 <= n / nb) by (apply Z.div_le_lower_bound; lia).
  split; [split; [nia|lia]|]. nia.
Qed.

Lemma block_size n nb j : 0 < nb → nb <= n → 0 <= j < nb →
  let size := block_edge n nb (j + 1) - block_edge n nb j in
  1 <= n / nb <= size ∧ size <= n / nb + 1.
Proof.
  intros Hnb Hn Hj. cbv zeta. unfold block_edge.
  assert (1 <= n / nb) by (apply Z.div_le_lower_bound; lia). lia.
Qed.

(** ** Combinations *)
Fixpoint binomial (n k : nat) : nat :=
  match k, n with
  | O, _ => 1
  | S _, O => 0
  | S k', S n' => binomial n' k' + binomial n' k
  end.

Lemma combinations_length {A} (l : list A) : forall k, length (combinations l k) = binomial (length l) k.
Proof.
  induction l as [|x l IH]; intros [|k]; simpl; try done. by rewrite length_app, length_map, !IH.
Qed.

Lemma combinations_sub {A} (l : list A) : forall k c, In c (combinations l k) →
  length c = k ∧ forall x, In x c → In x l.
Proof.
  induction l as [|y l IH]; intros [|k] c; simpl.
  1,3: intros [<-|[]]; done.
  - done.
  - rewrite in_app_iff, in_map_iff. intros [(c' & <- & Hc)|Hc].
    + apply IH in Hc as [<- Hin]. split; [done|]. intros x [->|Hx]; auto.
    + apply IH in Hc as [Hl Hin]. split; [done|]. auto.
Qed.

(** The combinations of a strictly increasing list are its strictly increasing lists of [k] members,
    each once. *)
Lemma combinations_increasing (l : list nat) : StronglySorted lt l → forall k c,
  In c (combinations l k) ↔ StronglySorted lt c ∧ length c = k ∧ forall x, In x c → In x l.
Proof.
  induction 1 as [|y l Hl IH Hy]; intros k c; (split; [|intros (Hc & <- & Hin)]).
  - destruct k; simpl; [|done]. intros [<-|[]]. split; [constructor|done].
  - destruct c as [|x c]; [by left|]. destruct (Hin x). by left.
  - destruct k; cbn [combinations]; [intros [<-|[]]; by split; [constructor|]|].
    intros [(c' & <- & (Hc & <- & Hin)%IH)%in_map_iff|(Hc & <- & Hin)%IH]%in_app_iff.
    + split; [constructor; [done|]|split; [done|]].
      * apply List.Forall_forall. intros x Hx%Hin. by apply (proj1 (List.Forall_forall _ _) Hy).
      * intros x [->|Hx]; [by left|right; auto].
    + split; [done|]. split; [done|]. intros x Hx. right. auto.
  - destruct c as [|x c]; [by left|]. cbn [length combinations]. apply in_app_iff.
    apply StronglySorted_inv in Hc as [Hc Hx].
    pose proof (proj1 (List.Forall_forall _ _) Hx) as Hc'.
    pose proof (proj1 (List.Forall_forall _ _) Hy) as Hyl.
    destruct (Hin x ltac:(by left)) as [->|Hxl].
    + left. apply in_map, IH. split; [done|]. split; [done|]. intros z Hz.
      destruct (Hin z ltac:(by right)) as [->|]; [|done]. specialize (Hc' _ Hz). lia.
    + right. apply (IH (S (length c)) (x :: c)). split; [by constructor|]. split; [done|].
      intros z [->|Hz]; [done|]. destruct (Hin z ltac:(by right)) as [->|]; [|done].
      specialize (Hc' _ Hz). specialize (Hyl _ Hxl). lia.
Qed.

Lemma combinations_NoDup {A} (l : list A) : List.NoDup l → forall k, List.NoDup (combinations l k).
Proof.
  induction 1 as [|y l Hy Hl IH]; intros [|k]; simpl; try (repeat constructor; by intros []).
  apply List.NoDup_app; [|apply IH|].
  - apply NoDup_map_NoDup_ForallPairs; [|apply IH]. by intros a b _ _ [= ->].
  - intros c (c' & <- & _)%in_map_iff [_ Hc]%combinations_sub. apply Hy, Hc. by left.
Qed.

Lemma seq_increasing n : forall start, StronglySorted lt (seq start n).
Proof.
  induction n as [|n IH]; intros start; simpl; constructor; [apply IH|].
  apply List.Forall_forall. intros x [? _]%in_seq. lia.
Qed.

Lemma make_fold_blocks n p e blocks j c : test_blocks (make_fold n p e blocks j c) = c.
Proof. unfold make_fold. by destruct (fold_sets _ _ _ _ _) as [[? ?] ?], (classify _ _ _ _) as [[? ?] ?]. Qed.

Lemma number_folds_blocks n p e blocks combos : forall start,
  map test_blocks (number_folds n p e blocks start combos) = combos.
Proof. induction combos; intros; simpl; f_equal; auto using make_fold_blocks. Qed.

Lemma number_folds_nth n p e blocks combos : forall start j f,
  nth_error (number_folds n p e blocks start combos) j = Some f ↔
  exists c, nth_error combos j = Some c ∧ f = make_fold n p e blocks (start + Z.of_nat j) c.
Proof.
  induction combos as [|c combos IH]; intros start [|j] f; cbn [number_folds nth_error].
  1,2: split; [done|by intros (? & ? & ?)].
  - rewrite Z.add_0_r. naive_solver.
  - rewrite IH. replace (start + 1 + Z.of_nat j) with (start + Z.of_nat (S j)) by lia. done.
Qed.

Lemma number_folds_length n p e blocks combos : forall start,
  length (number_folds n p e blocks start combos) = length combos.
Proof. induction combos; intros; simpl; auto. Qed.

(** C20: combinatorial purged cross-validation partitions the observations and leaks nothing.  A valid
    configuration gives exactly one fold per choice of [k_test] of the [n_blocks] blocks: no choice is
    repeated, and every increasing list of [k_test] block numbers is that of a fold.  The blocks are
    consecutive, non-empty, cover the whole series and differ in size by at most one.  In each fold the test indices are exactly
    those of the chosen blocks and the training indices exactly those that are outside every test
    block, at least [purge] before its start or [embargo] after its end; both lists are sorted, and
    test, training, purged and embargoed observations add up to the whole series. *)
Theorem cpcv_partition n n_blocks k_test purge embargo :
  match cpcv_splits n n_blocks k_test purge embargo with
  | Err e => e = CPCVError ∧
      ¬ (2 <= n_blocks <= n ∧ 1 <= k_test < n_blocks ∧ 0 <= purge ∧ 0 <= embargo)
  | Ok folds =>
      let blocks := _make_blocks n n_blocks in
      length folds = binomial (Z.to_nat n_blocks) (Z.to_nat k_test) ∧
      List.NoDup (map test_blocks folds) ∧
      (forall c, In c (map test_blocks folds) ↔
         StronglySorted lt c ∧ length c = Z.to_nat k_test ∧ forall b, In b c → Z.of_nat b < n_blocks) ∧
      length blocks = Z.to_nat n_blocks ∧
      fst (nth 0 blocks (0, 0)) = 0 ∧ snd (nth (Z.to_nat n_blocks - 1) blocks (0, 0)) = n ∧
      (forall j, Z.of_nat j < n_blocks →
         (let size := snd (nth j blocks (0, 0)) - fst (nth j blocks (0, 0)) in
          1 <= n / n_blocks <= size ∧ size <= n / n_blocks + 1) ∧
         (Z.of_nat j + 1 < n_blocks → snd (nth j blocks (0, 0)) = fst (nth (S j) blocks (0, 0)))) ∧
      forall j f, nth_error folds j = Some f →
        cp_fold f = Z.of_nat j ∧ length (test_blocks f) = Z.to_nat k_test ∧
        StronglySorted Z.lt (train_idx f) ∧ Sorted Z.le (test_idx f) ∧ List.NoDup (test_idx f) ∧
        (forall i, In i (test_idx f) ↔ in_test f blocks i) ∧
        (forall i, In i (train_idx f) ↔
           0 <= i < n ∧ ¬ in_test f blocks i ∧ clear_of_test f blocks purge embargo i) ∧
        Z.of_nat (length (test_idx f)) + Z.of_nat (length (train_idx f)) + n_purged f + n_embargoed f = n
  end.
Proof.
  unfold cpcv_splits, _MIN_BLOCKS. destruct (Z.ltb_spec n_blocks 2); [split; [done|lia]|].
  destruct (Z.leb_spec 1 k_test), (Z.ltb_spec k_test n_blocks); try (split; [done|lia]).
  destruct (Z.ltb_spec purge 0); [split; [done|lia]|]. destruct (Z.ltb_spec embargo 0); [split; [done|lia]|].
  destruct (Z.ltb_spec n n_blocks); [split; [done|lia]|]. cbn [andb negb reject rbind]. cbv zeta.
  destruct (make_blocks_spec n n_blocks ltac:(lia)) as [Hlen Hnth].
  set (blocks := _make_blocks n n_blocks) in *. clearbody blocks.
  assert (Hend : block_edge n n_blocks n_blocks = n).
  { unfold block_edge. pose proof (Z.div_mod n n_blocks ltac:(lia)).
    pose proof (Z.mod_pos_bound n n_blocks ltac:(lia)). lia. }
  split_and!.
  - rewrite number_folds_length, combinations_length. by rewrite length_seq.
  - rewrite number_folds_blocks. apply combinations_NoDup, seq_NoDup.
  - intros c. rewrite number_folds_blocks, (combinations_increasing _ (seq_increasing _ _)).
    setoid_rewrite in_seq. split; intros (? & ? & Hc); split_and!; try done; intros b Hb%Hc; lia.
  - done.
  - rewrite Hnth by lia. simpl. unfold block_edge. pose proof (Z.mod_pos_bound n n_blocks ltac:(lia)). lia.
  - rewrite Hnth by lia. simpl.
    replace (Z.of_nat (Z.to_nat n_blocks - 1) + 1) with n_blocks by lia. done.
  - intros j Hj. rewrite Hnth by lia. simpl. split; [apply block_size; lia|].
    intros Hj'. rewrite Hnth by lia. simpl. f_equal. lia.
  - intros j f Hf. apply number_folds_nth in Hf as (c & Hc & ->).
    apply nth_error_In, combinations_sub in Hc as [Hlc Hin].
    destruct (make_fold_spec n purge embargo blocks (0 + Z.of_nat j) c ltac:(lia) ltac:(lia) ltac:(lia))
      as (E1 & E2 & ? & ? & ? & ? & ? & _ & _ & ?).
    { intros b Hb. specialize (Hin b Hb). apply in_seq in Hin. rewrite Hnth by lia.
      pose proof (block_edge_bounds n n_blocks (Z.of_nat b) ltac:(lia) ltac:(lia) ltac:(lia)). lia. }
    split_and!; try done; [by rewrite E2].
Qed.

(** ** Witnesses *)
Lemma walk_forward_spec_witness : exists folds f,
  walk_forward_splits 10 3 "rolling" (Some 4) None 1 = Ok folds ∧ nth_error folds 1 = Some f ∧
  train_start f = 3 ∧ train_end f = 7 ∧ val_end f = 10.
Proof.
  eexists. eexists. run_as E. pose proof (walk_forward_spec 10 3 "rolling" (Some 4) None 1) as H.
  rewrite E in H. destruct H as (_ & _ & Hn & _).
  split; [apply Hn; split; [reflexivity|reflexivity]|]. split; [reflexivity|]. split; reflexivity.
Defined.

Lemma cpcv_partition_witness : exists folds f,
  cpcv_splits 12 4 2 1 1 = Ok folds ∧ nth_error folds 0 = Some f ∧
  Z.of_nat (length (test_idx f)) + Z.of_nat (length (train_idx f)) + n_purged f + n_embargoed f = 12.
Proof.
  eexists. eexists. run_as E. pose proof (cpcv_partition 12 4 2 1 1) as H. rewrite E in H.
  destruct H as (_ & _ & _ & _ & _ & _ & _ & Hf). split; [reflexivity|]. apply (Hf 0%nat _ eq_refl).
Defined.
