(* ===== verification/Cscv.v ===== *)
(** * cv/cscv.py: the probability of backtest overfitting

    Every symmetric split of the time axis into two halves, the winner of one half ranked in the other.  A
    metric may raise; the logarithm is [Libm]'s, of which the count needs only the sign ([LogSign]). *)

From Stdlib Require Import SpecFloat.
From S2P Require Import Prelude PyDecimal PyFloat FloatRound FloatOrder PyNumber PyStats MultiTest Cv.

#[local] Open Scope Z_scope.

(** The logarithm is negative below one and nowhere else. *)
Class LogSign `{Libm} := {
  log_sign : forall x, fltb f_zero x = true → fltb (log x) f_zero = fltb x f_one;
}.

Definition PBO_THRESHOLD : float := f_half.
Definition _MIN_STRATEGIES : nat := 2.
Definition _MIN_SEGMENTS : Z := 2.
Definition _MIN_OBS_FOR_STATISTIC : nat := 2.
Definition _LOGIT_EPS : float := f_of_decimal (Dec 1 (-9)).

Record CSCVResult := {
  cs_pbo : float;
  cs_n_strategies : nat;
  cs_n_observations : Z;
  cs_n_segments : Z;
  cs_n_combinations : nat;
  cs_mean_logit : float;
  cs_median_logit : float;
  cs_is_oos_correlation : float;
  cs_logits : list float;
}.

Definition passes_pbo (r : CSCVResult) : bool := fltb (cs_pbo r) PBO_THRESHOLD.

Definition metric := list float -> result float.

Definition _per_period_sharpe : metric := fun returns =>
  if (length returns <? _MIN_OBS_FOR_STATISTIC)%nat then Ok f_zero
  else
    let! sd := stdev returns in
    if fleb sd f_zero || negb (f_isfinite sd) then Ok f_zero
    else let! m := fmean returns in Ok (fdiv m sd).

(** The metric of one strategy over the segments a combination names. *)
Definition _metric_over (m : metric) (strat_segments : list (list float)) (combo : list nat) : result float :=
  m (concat (map (fun j => nth j strat_segments []) combo)).

Definition _argmax (values : list float) : nat :=
  fold_left (fun best i => if fltb (f_at values best) (f_at values i) then i else best) (seq 1 (length values - 1)) 0%nat.

(** How many values are below, equal to and above a target. *)
Definition below (metrics : list float) (target : nat) : nat :=
  length (List.filter (fun v => fltb v (f_at metrics target)) metrics).
Definition equal (metrics : list float) (target : nat) : nat :=
  length (List.filter (fun v => feqb v (f_at metrics target)) metrics).

Definition _relative_rank (metrics : list float) (target m : nat) : float :=
  let rank := fadd (f_of_nat (below metrics target)) (fdiv (f_of_nat (equal metrics target + 1)) f_two) in
  fdiv rank (f_of_nat (m + 1)).

Section Cscv.
Context `{Libm} `{SumProd}.

(** [math.log]. *)
Definition math_log (x : float) : result float := if fleb x f_zero then Err ValueError else Ok (log x).

Definition _safe_logit (w : float) : result float :=
  let wc := fmin (fmax w _LOGIT_EPS) (fsub f_one _LOGIT_EPS) in
  let! q := f_div wc (fsub f_one wc) in
  math_log q.

Definition _correlation (xs ys : list float) : result float :=
  if (length xs <? _MIN_OBS_FOR_STATISTIC)%nat then Ok f_zero
  else match correlation xs ys with
       | Err e => if exn_is e StatisticsError then Ok f_zero else Err e
       | Ok r => Ok r
       end.

(** [[row[j * seg_size : (j + 1) * seg_size] for j in range(n_segments)]]. *)
Definition segments_of (seg_size n_segments : nat) (row : list float) : list (list float) :=
  map (fun j => firstn seg_size (skipn (j * seg_size) row)) (seq 0 n_segments).

(** The metrics of every strategy, inside and outside the chosen segments. *)
Definition split_metrics (m : metric) (segments : list (list (list float))) (n_segments : nat) (is_combo : list nat)
    : result (list float * list float) :=
  let oos_combo := List.filter (fun j => negb (existsb (Nat.eqb j) is_combo)) (seq 0 n_segments) in
  let! is_metrics := rmap (fun s => _metric_over m s is_combo) segments in
  let! oos_metrics := rmap (fun s => _metric_over m s oos_combo) segments in
  Ok (is_metrics, oos_metrics).

(** A split none of whose metrics is undefined is ranked. *)
Definition usable (s : list float * list float) : bool := forallb f_isfinite (fst s ++ snd s).

Definition split_step (m : metric) (segments : list (list (list float))) (n_strategies n_segments : nat)
    (acc : list float * list float * list float) (is_combo : list nat) : result (list float * list float * list float) :=
  let '(logits, is_all, oos_all) := acc in
  let! '(is_metrics, oos_metrics) := split_metrics m segments n_segments is_combo in
  if negb (usable (is_metrics, oos_metrics)) then Ok acc
  else
    let winner := _argmax is_metrics in
    let w := _relative_rank oos_metrics winner n_strategies in
    let! lam := _safe_logit w in
    Ok (logits ++ [lam], is_all ++ is_metrics, oos_all ++ oos_metrics).

Definition cscv_pbo (strategy_returns : list (list float)) (n_segments : Z) (m : metric) (min_obs_per_segment : Z)
    : result CSCVResult :=
  let n_strategies := length strategy_returns in
  guard! (n_strategies <? _MIN_STRATEGIES)%nat else CSCVError in
  guard! (n_segments <? _MIN_SEGMENTS) || negb (n_segments mod 2 =? 0) else CSCVError in
  guard! min_obs_per_segment <? 1 else CSCVError in
  let t_obs := length (nth 0 strategy_returns []) in
  guard! existsb (fun s => negb (length s =? t_obs)%nat) strategy_returns else CSCVError in
  guard! negb (forallb (forallb f_isfinite) strategy_returns) else CSCVError in
  let seg_size := Z.of_nat t_obs / n_segments in
  guard! seg_size <? min_obs_per_segment else CSCVError in
  let used_t := seg_size * n_segments in
  let s := Z.to_nat n_segments in
  let segments := map (segments_of (Z.to_nat seg_size) s) strategy_returns in
  let half := (s / 2)%nat in
  let! '(logits, is_all, oos_all) :=
    rfold (split_step m segments n_strategies s) (combinations (seq 0 s) half) ([], [], []) in
  guard! (length logits =? 0)%nat else CSCVError in
  let pbo := f_of_ratio (Z.of_nat (length (List.filter (fun lam => fltb lam f_zero) logits))) (Z.of_nat (length logits)) in
  let! mean_logit := fmean logits in
  let! median_logit := median logits in
  let! corr := _correlation is_all oos_all in
  Ok {| cs_pbo := pbo; cs_n_strategies := n_strategies; cs_n_observations := used_t; cs_n_segments := n_segments;
        cs_n_combinations := binomial s half; cs_mean_logit := mean_logit; cs_median_logit := median_logit;
        cs_is_oos_correlation := corr; cs_logits := logits |}.
End Cscv.

(** ** Facts: a rank below the median *)

(** A rounding at most a number between two others stays between them. *)
Lemma clamp_numbers lo hi x : canonical lo → canonical hi → canonical x → fint lo <= fint hi →
  let wc := fmin (fmax x lo) hi in canonical wc ∧ fint wc = Z.min (Z.max (fint x) (fint lo)) (fint hi).
Proof.
  intros Hlo Hhi Hx Hle wc.
  assert (Hm : canonical (fmax x lo) ∧ fint (fmax x lo) = Z.max (fint x) (fint lo)).
  { unfold fmax. destruct (fltb x lo) eqn:E; [apply fltb_fint in E; [|done|done]; split; [done|lia]|].
    split; [done|]. enough (~ fint x < fint lo) by lia. rewrite <- fltb_fint by done. by rewrite E. }
  destruct Hm as [Hc Hv]. unfold wc, fmin. destruct (fltb hi (fmax x lo)) eqn:E.
  - apply fltb_fint in E; [|done|done]. split; [done|lia].
  - split; [done|]. enough (~ fint hi < fint (fmax x lo)) by lia. rewrite <- fltb_fint by done. by rewrite E.
Qed.

(** The bounds of the clamp: about [1e-9] and its complement. *)
Definition clamp_hi : float := fsub f_one _LOGIT_EPS.

Lemma clamp_bounds : canonical _LOGIT_EPS ∧ canonical clamp_hi ∧ 0 < fint _LOGIT_EPS <= 2 ^ 1050 ∧
  2 ^ 1073 <= fint clamp_hi < 2 ^ 1074.
Proof.
  split; [apply (proj2 (canonical_valid _)); split; vm_compute; reflexivity|].
  split; [apply (proj2 (canonical_valid _)); split; vm_compute; reflexivity|]. split; vm_compute; split; reflexivity || discriminate.
Qed.

(** The midrank is exact, and its share of the field is the nearest float. *)
Lemma relative_rank_rounds metrics target m :
  let p := 2 * Z.of_nat (below metrics target) + Z.of_nat (equal metrics target) + 1 in
  p < 2 ^ 50 → Z.of_nat m < 2 ^ 50 →
  rounds (_relative_rank metrics target m) (p * 2 ^ 1073 * 2 ^ 1074) ((Z.of_nat m + 1) * 2 ^ 1074).
Proof.
  intros p Hp Hm. unfold _relative_rank, f_of_nat. rewrite Nat2Z.inj_add, (Nat2Z.inj_add m). change (Z.of_nat 1) with 1.
  set (b := Z.of_nat (below metrics target)) in *. set (e := Z.of_nat (equal metrics target)) in *.
  destruct (f_of_Z_number b ltac:(lia)) as [Hb Eb]. destruct (f_of_Z_number (e + 1) ltac:(lia)) as [He Ee].
  destruct (f_of_Z_number (Z.of_nat m + 1) ltac:(lia)) as [Hq Eq]. destruct (f_of_Z_number 2 ltac:(lia)) as [H2 E2]. fold f_two in H2, E2.
  destruct (dyadic (e + 1) 1073 ltac:(lia) ltac:(lia)) as (c & Hc & Ec).
  assert (P : 0 < 2 ^ 1073) by (by apply Z.pow_pos_nonneg). assert (D : 2 ^ 1074 = 2 * 2 ^ 1073) by reflexivity.
  pose proof (fdiv_rounds (f_of_Z (e + 1)) f_two He H2 ltac:(rewrite Ee, D; nia) ltac:(rewrite E2, D; nia)) as Hr.
  replace (fint (f_of_Z (e + 1)) * 2 ^ 1074) with (fint c * fint f_two) in Hr by (rewrite Ee, E2, Ec, D; ring).
  destruct (rounds_exact _ _ _ Hr Hc) as [Hh Eh]. rewrite Ec in Eh.
  destruct (dyadic p 1073 ltac:(lia) ltac:(lia)) as (c' & Hc' & Ec').
  pose proof (fadd_rounds (f_of_Z b) (fdiv (f_of_Z (e + 1)) f_two) Hb Hh ltac:(rewrite Eb, Eh, D; nia)) as Hs.
  replace (fint (f_of_Z b) + fint (fdiv (f_of_Z (e + 1)) f_two)) with (fint c' * 1) in Hs by (rewrite Eb, Eh, Ec', D; unfold p; ring).
  destruct (rounds_exact _ _ _ Hs Hc') as [Hk Ek]. rewrite Ec' in Ek.
  pose proof (fdiv_rounds (fadd (f_of_Z b) (fdiv (f_of_Z (e + 1)) f_two)) (f_of_Z (Z.of_nat m + 1)) Hk Hq
    ltac:(rewrite Ek; nia) ltac:(rewrite Eq, D; nia)) as Hw.
  by rewrite Ek, Eq in Hw.
Qed.

(** The odds of a clamped rank: below one when the rank is clearly below a half, at least one otherwise. *)
Lemma odds_number wc : canonical wc → 0 < fint wc < 2 ^ 1074 →
  canonical (fsub f_one wc) ∧ 0 < fint (fsub f_one wc) ∧
  rounds (fdiv wc (fsub f_one wc)) (fint wc * 2 ^ 1074) (fint (fsub f_one wc)) ∧
  fltb f_zero (fdiv wc (fsub f_one wc)) = true.
Proof.
  intros Hc Hb. destruct fint_one as [H1 E1]. destruct (power_of_two 0 ltac:(lia)) as (u & Hu & Eu). change (2 ^ 0) with 1 in Eu.
  pose proof (fsub_rounds f_one wc H1 Hc ltac:(rewrite E1; lia)) as Hs. rewrite E1 in Hs.
  destruct (rounds_le _ f_one _ _ Hs H1 ltac:(rewrite E1; lia)) as [Hsc Hsb].
  pose proof (rounds_ge _ u _ _ Hs Hu ltac:(lia)) as Hsu. apply fleb_fint in Hsu; [|done|done]. rewrite Eu in Hsu.
  split; [done|]. split; [lia|].
  pose proof (fdiv_rounds wc (fsub f_one wc) Hc Hsc ltac:(lia) ltac:(lia)) as Hd. split; [done|].
  pose proof (rounds_ge _ u _ _ Hd Hu) as Hpos. rewrite Eu, Z.mul_1_r, E1 in *.
  apply (flt_of_ge u); [done|lia|]. apply Hpos. destruct Hsb as [_ Hsb]. etransitivity; [exact Hsb|].
  rewrite <- (Z.mul_1_l (2 ^ 1074)) at 1. apply Z.mul_le_mono_nonneg_r; [by apply Z.pow_nonneg|lia].
Qed.

Lemma odds_small wc : canonical wc → 0 < fint wc <= (2 ^ 49 - 1) * 2 ^ 1024 → fltb (fdiv wc (fsub f_one wc)) f_one = true.
Proof.
  intros Hc Hb. assert (D : (2 ^ 49 - 1) * 2 ^ 1024 < 2 ^ 1074) by reflexivity.
  destruct (odds_number wc Hc ltac:(lia)) as (Hsc & Hsp & Hd & _). destruct fint_one as [H1 E1].
  pose proof (fsub_rounds f_one wc H1 Hc ltac:(rewrite E1; lia)) as Hs. rewrite E1 in Hs.
  destruct (dyadic (2 ^ 49 + 1) 1024 ltac:(lia) ltac:(lia)) as (c & Hcc & Ec).
  assert (Ds : 2 ^ 1074 = 2 ^ 50 * 2 ^ 1024) by reflexivity.
  pose proof (rounds_ge _ c _ _ Hs Hcc ltac:(rewrite Ec, Ds; lia)) as Hsc2. apply fleb_fint in Hsc2; [|done|done]. rewrite Ec in Hsc2.
  destruct (dyadic (2 ^ 53 - 1) 1021 ltac:(lia) ltac:(lia)) as (c3 & Hc3 & Ec3).
  destruct (rounds_le _ c3 _ _ Hd Hc3) as [Hr Hrb].
  - rewrite Ec3. transitivity ((2 ^ 49 - 1) * 2 ^ 1024 * 2 ^ 1074); [apply Z.mul_le_mono_nonneg_r; [by apply Z.pow_nonneg|lia]|].
    transitivity ((2 ^ 49 + 1) * 2 ^ 1024 * ((2 ^ 53 - 1) * 2 ^ 1021)); [vm_compute; discriminate|].
    apply Z.mul_le_mono_nonneg_r; [vm_compute; discriminate|done].
  - apply fltb_fint; [done|done|]. rewrite E1, Ec3 in *. eapply Z.le_lt_trans; [apply Hrb|]. vm_compute. reflexivity.
Qed.

Lemma odds_large wc : canonical wc → 2 ^ 1073 <= fint wc < 2 ^ 1074 → fleb f_one (fdiv wc (fsub f_one wc)) = true.
Proof.
  intros Hc Hb. assert (D : 0 < 2 ^ 1073) by reflexivity. assert (D2 : 2 ^ 1074 = 2 * 2 ^ 1073) by reflexivity.
  destruct (odds_number wc Hc ltac:(lia)) as (Hsc & Hsp & Hd & _). destruct fint_one as [H1 E1].
  pose proof (fsub_rounds f_one wc H1 Hc ltac:(rewrite E1; lia)) as Hs. rewrite E1 in Hs.
  destruct (power_of_two 1073 ltac:(lia)) as (h & Hh & Eh).
  destruct (rounds_le _ h _ _ Hs Hh ltac:(rewrite Eh; lia)) as [_ Hsb]. rewrite Eh in Hsb.
  apply (rounds_ge _ _ _ _ Hd H1). rewrite E1. apply Z.mul_le_mono_nonneg_r; [by apply Z.pow_nonneg|lia].
Qed.

Lemma below_half p q : 1 <= p < q → q < 2 ^ 48 →
  p * 2 ^ 1073 * 2 ^ 1074 <= q * 2 ^ 1074 * ((2 ^ 49 - 1) * 2 ^ 1024).
Proof.
  intros Hp Hq. assert (D : 2 ^ 1073 = 2 ^ 49 * 2 ^ 1024) by reflexivity. rewrite D.
  assert (P : 0 <= 2 ^ 1024) by (by apply Z.pow_nonneg). assert (P' : 0 <= 2 ^ 1074) by (by apply Z.pow_nonneg).
  revert P P'. generalize (2 ^ 1024) as a, (2 ^ 1074) as b. intros a b Ha Hb.
  replace (p * (2 ^ 49 * a) * b) with (p * 2 ^ 49 * (a * b)) by ring. replace (q * b * ((2 ^ 49 - 1) * a)) with (q * (2 ^ 49 - 1) * (a * b)) by ring.
  apply Z.mul_le_mono_nonneg_r; [by apply Z.mul_nonneg_nonneg|]. lia.
Qed.

Lemma above_half p q : 0 <= q <= p → q * 2 ^ 1074 * 2 ^ 1073 <= p * 2 ^ 1073 * 2 ^ 1074.
Proof.
  intros Hp. assert (P : 0 <= 2 ^ 1073) by (by apply Z.pow_nonneg). assert (P' : 0 <= 2 ^ 1074) by (by apply Z.pow_nonneg).
  revert P P'. generalize (2 ^ 1073) as a, (2 ^ 1074) as b. intros a b Ha Hb.
  replace (p * a * b) with (p * (b * a)) by ring. rewrite <- Z.mul_assoc.
  apply Z.mul_le_mono_nonneg_r; [by apply Z.mul_nonneg_nonneg|lia].
Qed.

Section Logit.
Context `{LogSign}.

(** The logit of a share is negative exactly when the share is below a half. *)
Lemma safe_logit_sign w p q : rounds w (p * 2 ^ 1073 * 2 ^ 1074) (q * 2 ^ 1074) → 1 <= p <= 2 * q → q < 2 ^ 48 →
  exists lam, _safe_logit w = Ok lam ∧ fltb lam f_zero = (p <? q).
Proof.
  intros Hw Hp Hq. destruct fint_one as [H1 E1]. assert (D : 0 < 2 ^ 1073) by reflexivity. assert (D2 : 2 ^ 1074 = 2 * 2 ^ 1073) by reflexivity.
  destruct (rounds_le _ f_one _ _ Hw H1) as [Hwc Hwb]; [rewrite E1; apply Z.mul_le_mono_nonneg_r; [by apply Z.pow_nonneg|rewrite D2; nia]|].
  destruct clamp_bounds as (Hlo & Hhi & Blo & Bhi). assert (D3 : 2 ^ 1050 < 2 ^ 1073) by reflexivity.
  destruct (clamp_numbers _LOGIT_EPS clamp_hi w Hlo Hhi Hwc ltac:(lia)) as [Hc Ec]. fold clamp_hi. unfold _safe_logit. fold clamp_hi.
  set (wc := fmin (fmax w _LOGIT_EPS) clamp_hi) in *. destruct (odds_number wc Hc ltac:(lia)) as (Hsc & Hsp & _ & Hpos).
  assert (Hlog : (let! q0 := f_div wc (fsub f_one wc) in math_log q0) = Ok (log (fdiv wc (fsub f_one wc)))).
  { unfold f_div, math_log. destruct (feqb (fsub f_one wc) f_zero) eqn:Ez; [apply feqb_fint in Ez; [|done|done]; change (fint f_zero) with 0 in Ez; lia|].
    cbn [rbind]. apply fltb_spec in Hpos as (_ & _ & ->). done. }
  rewrite Hlog. eexists. split; [done|]. rewrite log_sign by done. destruct (Z.ltb_spec p q) as [Hlt|Hge].
  - apply odds_small; [done|]. assert (Ewb : fint w <= (2 ^ 49 - 1) * 2 ^ 1024).
    { destruct (dyadic (2 ^ 49 - 1) 1024 ltac:(lia) ltac:(lia)) as (c & Hcc & Ecc). rewrite <- Ecc.
      destruct (rounds_le _ _ _ _ Hw Hcc) as [_ [_ Hle]]; [|exact Hle]. rewrite Ecc. apply below_half; lia. }
    assert (D5 : 2 ^ 1050 <= (2 ^ 49 - 1) * 2 ^ 1024) by (vm_compute; discriminate). lia.
  - assert (Hh : fleb f_one (fdiv wc (fsub f_one wc)) = true).
    { apply odds_large; [done|]. assert (2 ^ 1073 <= fint w); [|lia]. destruct (power_of_two 1073 ltac:(lia)) as (h & Hh & Eh).
      rewrite <- Eh. apply fleb_fint; [done|done|]. apply (rounds_ge _ _ _ _ Hw Hh). rewrite Eh.
      apply above_half. lia. }
    destruct (fltb _ f_one) eqn:Ef; [|done]. apply fltb_spec in Ef as (_ & _ & Ef). congruence.
Qed.
End Logit.

(** ** Facts: counting splits *)

(** How many values are above a target. *)
Definition above (metrics : list float) (target : nat) : nat :=
  length (List.filter (fun v => fltb (f_at metrics target) v) metrics).

Lemma SFcompare_antisym x y : SFcompare y x = option_map CompOpp (SFcompare x y).
Proof.
  destruct x as [[]|[]| |[] m e], y as [[]|[]| |[] m' e']; try done; cbn [SFcompare option_map];
    rewrite (Z.compare_antisym e e'); change (Pos.compare_cont Eq m' m) with (Pos.compare m' m);
    change (Pos.compare_cont Eq m m') with (Pos.compare m m'); rewrite (Pos.compare_antisym m m');
    by destruct (e ?= e'), (Pos.compare m m').
Qed.

Lemma compare_finite x y : f_isfinite x = true → f_isfinite y = true → exists c, SFcompare x y = Some c.
Proof. destruct x as [[]|[]| |[] m e], y as [[]|[]| |[] m' e']; try done; cbn [SFcompare]; eauto. Qed.

(** Of two numbers the one is below, equal to or above the other. *)
Lemma number_trichotomy x y : f_isfinite x = true → f_isfinite y = true →
  (fltb x y, feqb x y, fltb y x) = (true, false, false) ∨ (fltb x y, feqb x y, fltb y x) = (false, true, false) ∨
  (fltb x y, feqb x y, fltb y x) = (false, false, true).
Proof.
  intros Hx Hy. unfold fltb, feqb, SFltb, SFeqb. rewrite (SFcompare_antisym x y).
  destruct (compare_finite x y Hx Hy) as [[] ->]; cbn; auto.
Qed.

Lemma rank_partition metrics target : forallb f_isfinite metrics = true →
  (below metrics target + equal metrics target + above metrics target = length metrics)%nat.
Proof.
  intros Hf. assert (Ht : f_isfinite (f_at metrics target) = true).
  { unfold f_at. destruct (nth_in_or_default target metrics f_zero) as [Hin| ->]; [|done]. rewrite forallb_forall in Hf. auto. }
  unfold below, equal, above. revert Ht. generalize (f_at metrics target) as t. intros t Ht.
  induction metrics as [|v metrics IH]; [done|]. cbn in Hf. apply andb_true_iff in Hf as [Hv Hf]. specialize (IH Hf).
  cbn [List.filter length]. destruct (number_trichotomy v t Hv Ht) as [E|[E|E]]; injection E as -> -> ->; cbn [length]; lia.
Qed.

(** The winner inside does worse outside than the median: fewer strategies are below it than above. *)
Definition overfit (s : list float * list float) : bool :=
  let winner := _argmax (fst s) in (below (snd s) winner <? above (snd s) winner)%nat.

Section Splits.
Context `{LogSign} `{SumProd}.

Lemma split_logit (s : list float * list float) : usable s = true → Z.of_nat (length (snd s)) < 2 ^ 48 - 1 →
  exists lam, _safe_logit (_relative_rank (snd s) (_argmax (fst s)) (length (snd s))) = Ok lam ∧ fltb lam f_zero = overfit s.
Proof.
  intros Hu Hn. unfold usable in Hu. rewrite forallb_app in Hu. apply andb_true_iff in Hu as [_ Hu].
  pose proof (rank_partition (snd s) (_argmax (fst s)) Hu) as Hp. unfold overfit. set (w := _argmax (fst s)) in *.
  pose proof (relative_rank_rounds (snd s) w (length (snd s))) as Hr. cbv zeta in Hr.
  destruct (safe_logit_sign _ _ _ (Hr ltac:(lia) ltac:(lia)) ltac:(lia) ltac:(lia)) as (lam & E & Hs). exists lam. split; [done|]. rewrite Hs.
  apply eq_true_iff_eq. rewrite Z.ltb_lt, Nat.ltb_lt. lia.
Qed.

Lemma rmap_length {A B} (f : A -> result B) l l' : rmap f l = Ok l' → length l' = length l.
Proof. intros E%rmap_Ok. symmetry. by eapply List.Forall2_length. Qed.

Lemma split_metrics_length m segments n c s : split_metrics m segments n c = Ok s → length (snd s) = length segments.
Proof.
  unfold split_metrics. intros (is_m & _ & (oos & Ho & [= <-])%rbind_Ok)%rbind_Ok. by apply rmap_length in Ho.
Qed.

(** What the loop accumulates: one logit per usable split, negative exactly for the overfit ones. *)
Lemma split_loop m segments n : Z.of_nat (length segments) < 2 ^ 48 - 1 → forall combos logits is_all oos_all logits' is' oos',
  rfold (split_step m segments (length segments) n) combos (logits, is_all, oos_all) = Ok (logits', is', oos') →
  exists splits ls, Forall2 (fun c s => split_metrics m segments n c = Ok s) combos splits ∧ logits' = logits ++ ls ∧
    Forall2 (fun s lam => fltb lam f_zero = overfit s) (List.filter usable splits) ls.
Proof.
  intros Hn. induction combos as [|c combos IH]; intros logits is_all oos_all logits' is' oos' E; cbn [rfold] in E.
  { injection E as <- <- <-. exists [], []. rewrite app_nil_r. by split_and!; constructor. }
  apply rbind_Ok in E as ([[l1 i1] o1] & E1 & E). unfold split_step in E1. apply rbind_Ok in E1 as ([is_m oos_m] & Es & E1).
  destruct (IH _ _ _ _ _ _ E) as (splits & ls & Hc & -> & Hl). destruct (usable (is_m, oos_m)) eqn:Hu; cbn [negb] in E1.
  - apply rbind_Ok in E1 as (lam & Elam & [= <- <- <-]). pose proof (split_metrics_length _ _ _ _ _ Es) as Hlen.
    destruct (split_logit (is_m, oos_m) Hu) as (lam' & Elam' & Hs); [by rewrite Hlen|]. rewrite Hlen in Elam'. cbn [fst snd] in *.
    rewrite Elam in Elam'. injection Elam' as <-. exists ((is_m, oos_m) :: splits), (lam :: ls). cbn [List.filter]. rewrite Hu.
    split; [by constructor|]. split; [by rewrite <- app_assoc|]. by constructor.
  - injection E1 as <- <- <-. exists ((is_m, oos_m) :: splits), ls. cbn [List.filter]. rewrite Hu. split; [by constructor|]. by split.
Qed.

Lemma Forall2_count {A B} (p : A -> bool) (q : B -> bool) l l' : Forall2 (fun x y => q y = p x) l l' →
  length (List.filter q l') = length (List.filter p l).
Proof. induction 1 as [|x y l l' E _ IH]; [done|]. cbn. rewrite E. destruct (p x); cbn; by rewrite IH. Qed.
End Splits.

(** *** Every segment is inside in half of the splits *)
Lemma binomial_over n : forall k, (n < k)%nat → binomial n k = 0%nat.
Proof. induction n as [|n IH]; intros [|k] Hk; try lia; [done|]. cbn [binomial]. by rewrite !IH by lia. Qed.

Lemma binomial_full n : binomial n n = 1%nat.
Proof. induction n as [|n IH]; [done|]. cbn [binomial]. rewrite IH, binomial_over by lia. done. Qed.

Lemma binomial_sym n : forall k, (k <= n)%nat → binomial n k = binomial n (n - k).
Proof.
  induction n as [|n IH]; intros [|k] Hk; try lia; [done|by rewrite Nat.sub_0_r, binomial_full|].
  change (S n - S k)%nat with (n - k)%nat. destruct (n - k)%nat as [|m] eqn:Em.
  - assert (k = n) as -> by lia. by rewrite binomial_full.
  - cbn [binomial]. rewrite (IH k), (IH (S k)), Em by lia. replace (n - S k)%nat with m by lia. lia.
Qed.

Lemma binomial_half h : (1 <= h)%nat → binomial (2 * h) h = (2 * binomial (2 * h - 1) (h - 1))%nat.
Proof.
  intros Hh. replace (2 * h)%nat with (S (2 * h - 1)) at 1 by lia. replace h with (S (h - 1)) at 2 by lia. cbn [binomial].
  rewrite (binomial_sym (2 * h - 1) (S (h - 1))) by lia. replace (2 * h - 1 - S (h - 1))%nat with (h - 1)%nat by lia. lia.
Qed.

Definition contains (j : nat) (combo : list nat) : bool := existsb (Nat.eqb j) combo.

Lemma contains_In j c : contains j c = true ↔ In j c.
Proof.
  unfold contains. rewrite existsb_exists. split; [by intros (x & Hx & ->%Nat.eqb_eq)|]. intros Hj. exists j. by rewrite Nat.eqb_refl.
Qed.

Lemma filter_none {A} (p : A -> bool) l : (forall x, In x l → p x = false) → List.filter p l = [].
Proof.
  induction l as [|x l IH]; intros Hp; [done|]. cbn. rewrite (Hp x) by (by left). apply IH. intros y Hy. apply Hp. by right.
Qed.

Lemma combinations_with x l : List.NoDup l → In x l → forall k,
  length (List.filter (contains x) (combinations l (S k))) = binomial (length l - 1) k.
Proof.
  induction l as [|y l IH]; [done|]. intros [Hy Hnd]%List.NoDup_cons_iff Hx k. cbn [combinations length]. rewrite Nat.sub_succ, Nat.sub_0_r.
  rewrite filter_app, length_app, filter_map_length. cbn [contains existsb]. destruct (Nat.eqb_spec x y) as [->|Hne].
  - cbn [orb]. rewrite (filter_none (contains y) (combinations l (S k))).
    + rewrite forallb_filter_id by (by apply forallb_forall). rewrite combinations_length. cbn. lia.
    + intros c Hc. apply combinations_sub in Hc as [_ Hc]. apply not_true_iff_false. rewrite contains_In. auto.
  - destruct Hx as [->|Hx]; [done|]. cbn [orb]. rewrite (IH Hnd Hx). fold (contains x).
    assert (Hl : length l = S (length l - 1)) by (destruct l; [done|cbn; lia]). destruct k as [|k].
    + destruct l; [done|]. cbn. by destruct (length l).
    + rewrite (IH Hnd Hx), Hl. cbn [binomial]. rewrite Nat.sub_succ, Nat.sub_0_r. done.
Qed.

(** The splits are symmetric: each of [2 * h] segments is inside in half of them. *)
Lemma half_inside h j : (1 <= h)%nat → (j < 2 * h)%nat →
  (2 * length (List.filter (contains j) (combinations (seq 0 (2 * h)) h)))%nat = length (combinations (seq 0 (2 * h)) h).
Proof.
  intros Hh Hj. rewrite combinations_length, length_seq, binomial_half by done. f_equal. replace h with (S (h - 1)) at 2 by lia.
  rewrite combinations_with; [by rewrite length_seq|apply seq_NoDup|apply in_seq; lia].
Qed.

(** *** The winner, and the two sides of a split *)
Lemma number_not_nan x : f_isfinite x = true → f_isnan x = false.
Proof. by destruct x. Qed.

Lemma fltb_negb x y : f_isnan x = false → f_isnan y = false → fltb x y = negb (fleb y x).
Proof.
  intros Hx Hy. destruct (fltb x y) eqn:E, (fleb y x) eqn:E'; try done; [apply fltb_spec in E as (_ & _ & E); congruence|].
  assert (fltb x y = true) by (by apply fltb_spec). congruence.
Qed.

(** The first strategy of the largest metric. *)
Definition wins (metrics : list float) (w : nat) : Prop :=
  (w < length metrics)%nat ∧ (forall k, (k < length metrics)%nat → fltb (f_at metrics w) (f_at metrics k) = false) ∧
  forall k, (k < w)%nat → fltb (f_at metrics k) (f_at metrics w) = true.

Lemma first_largest key n : (forall k, f_isnan (key k) = false) →
  let w := fold_left (fun best i => if fltb (key best) (key i) then i else best) (seq 1 n) 0%nat in
  (w <= n)%nat ∧ (forall k, (k <= n)%nat → fleb (key k) (key w) = true) ∧ forall k, (k < w)%nat → fltb (key k) (key w) = true.
Proof.
  intros Hk. induction n as [|n IH]; cbv zeta in *.
  { split; [done|]. cbn. split; [|lia]. intros k ?. replace k with 0%nat by lia. by apply fleb_refl. }
  rewrite seq_S, fold_left_app. cbn [fold_left Nat.add]. set (w := fold_left _ (seq 1 n) 0%nat) in *. destruct IH as (Hw & Hmax & Hfirst).
  destruct (fltb (key w) (key (S n))) eqn:E.
  - assert (Hlt : forall k, (k <= n)%nat → fltb (key k) (key (S n)) = true).
    { intros k Hkn. rewrite fltb_negb in * by done. apply negb_true_iff in E. apply negb_true_iff.
      destruct (fleb (key (S n)) (key k)) eqn:E'; [|done]. by rewrite (fleb_trans _ _ _ E' (Hmax k Hkn)) in E. }
    split; [done|]. split; intros k Hkn; [|apply Hlt; lia]. destruct (decide (k = S n)) as [->|]; [by apply fleb_refl|].
    apply fltb_fleb, Hlt. lia.
  - split; [lia|]. split; [|done]. intros k Hkn. destruct (decide (k = S n)) as [->|]; [|apply Hmax; lia].
    rewrite fltb_negb in E by done. by apply negb_false_iff in E.
Qed.

Lemma argmax_wins metrics : forallb f_isfinite metrics = true → metrics ≠ [] → wins metrics (_argmax metrics).
Proof.
  intros Hf Hne. assert (Hk : forall k, f_isnan (f_at metrics k) = false).
  { intros k. unfold f_at. destruct (nth_in_or_default k metrics f_zero) as [Hin| ->]; [|done].
    rewrite forallb_forall in Hf. by apply number_not_nan, Hf. }
  assert (0 < length metrics)%nat by (destruct metrics; [done|cbn; lia]).
  destruct (first_largest (f_at metrics) (length metrics - 1) Hk) as (Hw & Hmax & Hfirst). fold (_argmax metrics) in *.
  split; [lia|]. split; [|done]. intros k ?. rewrite fltb_negb, Hmax by (done || lia). done.
Qed.

(** The observations of the named segments of a series, in the order they are named, and the segments not named. *)
Definition part (seg_size : nat) (row : list float) (combo : list nat) : list float :=
  concat (map (fun j => firstn seg_size (skipn (j * seg_size) row)) combo).
Definition outside (s : nat) (combo : list nat) : list nat := List.filter (fun j => negb (contains j combo)) (seq 0 s).

Lemma metric_over_part m seg_size s row combo : (forall j, In j combo → (j < s)%nat) →
  _metric_over m (segments_of seg_size s row) combo = m (part seg_size row combo).
Proof.
  intros Hc. unfold _metric_over, part, segments_of. f_equal. f_equal. apply map_ext_in. intros j Hj%Hc.
  rewrite (nth_indep _ [] (firstn seg_size (skipn (0 * seg_size) row))) by (by rewrite length_map, length_seq).
  rewrite (map_nth (fun j => firstn seg_size (skipn (j * seg_size) row)) (seq 0 s) 0%nat j), seq_nth by done. done.
Qed.

Lemma split_metrics_parts m seg_size s returns combo split : (forall j, In j combo → (j < s)%nat) →
  split_metrics m (map (segments_of seg_size s) returns) s combo = Ok split →
  Forall2 (fun row v => m (part seg_size row combo) = Ok v) returns (fst split) ∧
  Forall2 (fun row v => m (part seg_size row (outside s combo)) = Ok v) returns (snd split).
Proof.
  intros Hc. unfold split_metrics. intros (ins & Hi%rmap_Ok & (outs & Ho%rmap_Ok & [= <-])%rbind_Ok)%rbind_Ok.
  change (List.filter _ (seq 0 s)) with (outside s combo) in Ho.
  assert (Hout : forall j, In j (outside s combo) → (j < s)%nat) by (intros j [[_ Hj]%in_seq _]%filter_In; lia).
  change (map (segments_of seg_size s) returns) with (segments_of seg_size s <$> returns) in Hi, Ho.
  apply Forall2_fmap_l in Hi, Ho. cbn [fst snd]. split.
  - eapply List.Forall2_impl; [|exact Hi]. intros row v. cbn. by rewrite metric_over_part.
  - eapply List.Forall2_impl; [|exact Ho]. intros row v. cbn. by rewrite metric_over_part.
Qed.

Lemma overfit_wins s : usable s = true → fst s ≠ [] →
  exists w, wins (fst s) w ∧ overfit s = (below (snd s) w <? above (snd s) w)%nat.
Proof.
  intros Hu Hne. exists (_argmax (fst s)). split; [|done]. apply argmax_wins; [|done].
  unfold usable in Hu. rewrite forallb_app in Hu. by apply andb_true_iff in Hu as [].
Qed.

(** ** The verdict *)
Section Verdict.
Context `{LogSign} `{SumProd}.

(** When no strategy differs from another, the winner is at the median of every split. *)
Lemma identical_not_overfit m segments n c s : (forall x y, In x segments → In y segments → x = y) → segments ≠ [] →
  split_metrics m segments n c = Ok s → usable s = true → overfit s = false.
Proof.
  intros Hsame Hne E Hu. pose proof (split_metrics_length _ _ _ _ _ E) as Hlen. unfold split_metrics in E.
  apply rbind_Ok in E as (is_m & Hi & E). apply rbind_Ok in E as (oos & Ho & [= <-]). cbn [fst snd] in *.
  unfold usable in Hu. cbn [fst snd] in Hu. rewrite forallb_app in Hu. apply andb_true_iff in Hu as [Hui _].
  assert (Hli : length is_m = length segments) by (by apply rmap_length in Hi).
  assert (Hpos : (0 < length segments)%nat) by (destruct segments; [done|cbn; lia]).
  destruct (argmax_spec (f_at is_m) (length is_m)) as [Hw _]; [lia| |].
  { intros k. unfold f_at. destruct (nth_in_or_default k is_m f_zero) as [Hin| ->]; [|done].
    rewrite forallb_forall in Hui. specialize (Hui _ Hin). by destruct (nth k is_m f_zero). }
  change (argmax (f_at is_m) (length is_m)) with (_argmax is_m) in Hw. unfold overfit. cbn [fst snd]. set (w := _argmax is_m) in *.
  assert (Heq : forall v, In v oos → v = f_at oos w).
  { intros v Hv. apply (rmap_In_Ok _ _ _ Ho) in Hv as (x & Hx & Ex).
    assert (Ht : In (f_at oos w) oos) by (apply nth_In; lia). apply (rmap_In_Ok _ _ _ Ho) in Ht as (y & Hy & Ey).
    rewrite (Hsame x y Hx Hy) in Ex. congruence. }
  unfold below, above. rewrite !filter_none; [done| |]; intros v Hv; rewrite (Heq v Hv); apply fltb_irrefl.
Qed.

Lemma even_half n : 2 <= n → n mod 2 = 0 → exists h, Z.to_nat n = (2 * h)%nat ∧ (1 <= h)%nat ∧ (Z.to_nat n / 2)%nat = h.
Proof.
  intros Hn He. pose proof (Z.div_mod n 2 ltac:(lia)) as Hd. exists (Z.to_nat (n / 2)).
  assert (Es : Z.to_nat n = (2 * Z.to_nat (n / 2))%nat) by lia.
  split; [done|]. split; [lia|]. rewrite Es, Nat.mul_comm. by apply Nat.div_mul.
Qed.

(** What the loop leaves behind, of a call that returned. *)
Lemma cscv_splits returns n_segments m min_obs r : cscv_pbo returns n_segments m min_obs = Ok r →
  Z.of_nat (length returns) < 2 ^ 48 - 1 →
  let s := Z.to_nat n_segments in
  let segments := map (segments_of (Z.to_nat (Z.of_nat (length (nth 0 returns [])) / n_segments)) s) returns in
  (2 <= length returns)%nat ∧ (exists h, s = (2 * h)%nat ∧ (1 <= h)%nat ∧ (s / 2)%nat = h) ∧
  cs_n_combinations r = length (combinations (seq 0 s) (s / 2)) ∧
  exists splits, Forall2 (fun c sp => split_metrics m segments s c = Ok sp) (combinations (seq 0 s) (s / 2)) splits ∧
    let kept := List.filter usable splits in
    (0 < length kept)%nat ∧ length (cs_logits r) = length kept ∧
    cs_pbo r = f_of_ratio (Z.of_nat (length (List.filter overfit kept))) (Z.of_nat (length kept)).
Proof.
  intros E Hn s segments. unfold cscv_pbo in E.
  apply rbind_Ok in E as (_ & Hns%reject_Ok%Nat.ltb_ge & E). apply rbind_Ok in E as (_ & Hseg%reject_Ok%orb_false_iff & E).
  do 3 (apply rbind_Ok in E as (_ & _ & E)). apply rbind_Ok in E as (_ & _ & E). apply rbind_Ok in E as ([[logits is_all] oos_all] & El & E).
  apply rbind_Ok in E as (_ & Hlog%reject_Ok%Nat.eqb_neq & E). apply rbind_Ok in E as (? & _ & E). apply rbind_Ok in E as (? & _ & E).
  apply rbind_Ok in E as (? & _ & [= <-]). cbn [cs_n_combinations cs_logits cs_pbo]. fold s segments in El |- *.
  destruct Hseg as [Hs2%Z.ltb_ge Hev%negb_false_iff%Z.eqb_eq]. split; [done|].
  split; [by destruct (even_half n_segments Hs2 Hev) as (h & ? & ? & ?); exists h|].
  split; [by rewrite combinations_length, length_seq|].
  assert (Hlen : length segments = length returns) by apply length_map. rewrite <- Hlen in El, Hn.
  destruct (split_loop m segments s Hn _ _ _ _ _ _ _ El) as (splits & ls & Hc & -> & Hl). cbn [app] in *.
  exists splits. split; [exact Hc|]. pose proof (List.Forall2_length Hl) as Hll. cbv zeta.
  split; [lia|]. split; [done|]. by rewrite (Forall2_count overfit (fun lam => fltb lam f_zero) _ _ Hl), Hll.
Qed.

(** The splits that count, each with its verdict. *)
Lemma flags_of kept n : (forall sp, In sp kept → usable sp = true ∧ length (fst sp) = n) → (0 < n)%nat →
  Forall2 (fun sp flag => exists w, wins (fst sp) w ∧ flag = (below (snd sp) w <? above (snd sp) w)%nat) kept (map overfit kept).
Proof.
  intros Hk Hn. change (map overfit kept) with (overfit <$> kept). apply Forall2_fmap_r, Forall2_same_length_lookup_2; [done|].
  intros i sp sp' Hi Hi'. assert (sp' = sp) as -> by congruence. apply list_elem_of_lookup_2, list_elem_of_In, Hk in Hi as [Hu Hl].
  apply overfit_wins; [done|]. intros Hnil. rewrite Hnil in Hl. cbn in Hl. lia.
Qed.

Lemma count_map {A} (p : A -> bool) l : length (List.filter id (map p l)) = length (List.filter p l).
Proof. induction l as [|x l IH]; [done|]. cbn. destruct (p x); cbn; by rewrite IH. Qed.

(** C35: the probability of backtest overfitting, without floats.  A verdict for fewer than 2^48 - 1 strategies looks
    at every way to choose half of the segments of the time axis, each way once, and the choice is symmetric: each
    segment is inside in exactly half of them.  A split gives every strategy its metric over the observations of
    the segments chosen, in time order, and its metric over those of all other segments.  A split counts when all
    these metrics are numbers, and at least one counts; it counts as overfit exactly when the winner inside - the
    first strategy of the largest metric - has fewer strategies below it than above it outside.  The probability is
    the share of overfit splits among those that count, a number between zero and one; and for strategies none of
    which differs from another it is zero, which passes the gate. *)
Theorem pbo_spec returns n_segments m min_obs r : cscv_pbo returns n_segments m min_obs = Ok r →
  Z.of_nat (length returns) < 2 ^ 48 - 1 →
  let s := Z.to_nat n_segments in
  let seg_size := Z.to_nat (Z.of_nat (length (nth 0 returns [])) / n_segments) in
  let part row combo := concat (map (fun j => firstn seg_size (skipn (j * seg_size) row)) combo) in
  let others combo := List.filter (fun j => negb (existsb (Nat.eqb j) combo)) (seq 0 s) in
  exists combos splits flags,
    List.NoDup combos ∧
    (forall c, In c combos ↔ StronglySorted lt c ∧ length c = (s / 2)%nat ∧ forall j, In j c → (j < s)%nat) ∧
    (forall j, (j < s)%nat → (2 * length (List.filter (fun c => existsb (Nat.eqb j) c) combos) = length combos)%nat) ∧
    cs_n_combinations r = length combos ∧
    Forall2 (fun c sp => Forall2 (fun row v => m (part row c) = Ok v) returns (fst sp) ∧
                         Forall2 (fun row v => m (part row (others c)) = Ok v) returns (snd sp)) combos splits ∧
    let kept := List.filter (fun sp => forallb f_isfinite (fst sp ++ snd sp)) splits in
    (0 < length kept)%nat ∧ length (cs_logits r) = length kept ∧
    Forall2 (fun sp flag => exists w, (w < length (fst sp))%nat ∧
      (forall k, (k < length (fst sp))%nat → fltb (f_at (fst sp) w) (f_at (fst sp) k) = false) ∧
      (forall k, (k < w)%nat → fltb (f_at (fst sp) k) (f_at (fst sp) w) = true) ∧
      flag = (length (List.filter (fun v => fltb v (f_at (snd sp) w)) (snd sp))
              <? length (List.filter (fun v => fltb (f_at (snd sp) w) v) (snd sp)))%nat) kept flags ∧
    cs_pbo r = f_of_ratio (Z.of_nat (length (List.filter id flags))) (Z.of_nat (length kept)) ∧
    fleb f_zero (cs_pbo r) = true ∧ fleb (cs_pbo r) f_one = true ∧
    ((forall x y, In x returns → In y returns → x = y) → cs_pbo r = f_zero ∧ passes_pbo r = true).
Proof.
  intros E Hn s seg_size part' others. destruct (cscv_splits _ _ _ _ _ E Hn) as (Hlen & (h & Es & Hh & Eh) & Hcombos & splits & Hsp & Hpos & Hlog & Hpbo).
  fold s seg_size in Es, Eh, Hcombos, Hsp, Hpos. set (segments := map (segments_of seg_size s) returns) in Hsp.
  assert (Hin : forall c, In c (combinations (seq 0 s) (s / 2)) ↔ StronglySorted lt c ∧ length c = (s / 2)%nat ∧ forall j, In j c → (j < s)%nat).
  { intros c. rewrite (combinations_increasing _ (seq_increasing _ _)). setoid_rewrite in_seq. split; intros (? & ? & Hc); split_and!; try done; intros j Hj%Hc; lia. }
  assert (Hkept : forall sp, In sp (List.filter usable splits) → usable sp = true ∧
    (exists c, split_metrics m segments s c = Ok sp) ∧ length (fst sp) = length returns).
  { intros sp [Hi Hu]%filter_In. split; [done|]. apply list_elem_of_In, list_elem_of_lookup in Hi as [i Hi].
    destruct (Forall2_lookup_r _ _ _ _ _ Hsp Hi) as (c & Hc & Esp). split; [by exists c|].
    apply list_elem_of_lookup_2, list_elem_of_In, Hin in Hc as (_ & _ & Hc).
    destruct (split_metrics_parts _ _ _ _ _ _ Hc Esp) as [Hi' _]. symmetry. by eapply List.Forall2_length. }
  exists (combinations (seq 0 s) (s / 2)), splits, (map overfit (List.filter usable splits)).
  split; [apply combinations_NoDup, seq_NoDup|]. split; [exact Hin|].
  split; [intros j Hj; rewrite Eh, Es in *; by apply half_inside|]. split; [done|]. split.
  { apply Forall2_same_length_lookup. split; [by eapply List.Forall2_length|]. intros i c sp Hc Hi.
    pose proof (Forall2_lookup_lr _ _ _ _ _ _ Hsp Hc Hi) as Esp. apply list_elem_of_lookup_2, list_elem_of_In, Hin in Hc as (_ & _ & Hc).
    exact (split_metrics_parts _ _ _ _ _ _ Hc Esp). }
  cbv zeta. split; [done|]. split; [done|]. rewrite count_map. split.
  { eapply List.Forall2_impl; [|apply (flags_of _ (length returns)); [intros sp Hk%Hkept; tauto|lia]].
    intros sp flag (w & (Hw & Hmax & Hfst) & Hf). by exists w. }
  split; [done|]. change (List.filter (fun sp => _) splits) with (List.filter usable splits) in *. rewrite Hpbo.
  pose proof (List.filter_length_le overfit (List.filter usable splits)).
  destruct (ratio_in_unit (Z.of_nat (length (List.filter overfit (List.filter usable splits))))
    (Z.of_nat (length (List.filter usable splits))) ltac:(lia) ltac:(lia)) as [H0' H1'].
  split; [done|]. split; [done|]. intros Hsame. unfold passes_pbo. rewrite Hpbo, (filter_none overfit); [by vm_compute|].
  intros sp Hk. destruct (Hkept sp Hk) as (Hu & (c & Esp) & _). apply (identical_not_overfit m segments s c sp); [|destruct returns; [cbn in Hlen; lia|done]|done|done].
  intros a b (a' & <- & Ha)%in_map_iff (b' & <- & Hb)%in_map_iff. by rewrite (Hsame a' b' Ha Hb).
Qed.
End Verdict.

(** ** A witness: two strategies, four segments *)
Module TwoStreams.
#[local] Instance libm : Libm := { log x := if fltb x f_one then f_of_Z (-1) else f_one; log10 x := x; pow x y := fmul x x }.
#[local] Instance log_signed : LogSign.
Proof. split. intros x _. cbn [log libm]. destruct (fltb x f_one); reflexivity. Qed.
#[local] Instance sums : SumProd := { sumprod x y := fsum (zip_with fmul x y) }.

Definition streams : list (list float) := map (map f_of_Z) [[3; 1; 0; 2; 1; 1; 0; 1]; [0; 2; 2; 0; 1; 3; 2; 1]].
Definition twins : list (list float) := [map f_of_Z [3; 1; 0; 2; 1; 1; 0; 1]; map f_of_Z [3; 1; 0; 2; 1; 1; 0; 1]].

Lemma pbo_spec_witness : exists r r', cscv_pbo streams 4 fmean 2 = Ok r ∧ cscv_pbo twins 4 _per_period_sharpe 2 = Ok r'
  ∧ cs_n_combinations r = 6%nat ∧ fltb f_zero (cs_pbo r) = true ∧ cs_pbo r' = f_zero ∧ passes_pbo r' = true.
Proof.
  eexists _, _. run_as E. run_as E'.
  destruct (pbo_spec streams 4 fmean 2 _ E ltac:(cbn; lia)) as (combos & splits & flags & Hnd & Hin & Hhalf & Hc & Hsp & _).
  destruct (pbo_spec twins 4 _per_period_sharpe 2 _ E' ltac:(cbn; lia)) as (? & ? & ? & _ & _ & _ & _ & _ & _ & _ & _ & _ & _ & _ & Hz).
  split; [reflexivity|]. split; [vm_compute; reflexivity|].
  apply Hz. intros ? ? [<-|[<-|[]]] [<-|[<-|[]]]; reflexivity.
Defined.

(** The module's docstring says so too: twins are not overfit, in every split. *)
Example twins_counted : exists r, cscv_pbo twins 4 fmean 2 = Ok r ∧ length (cs_logits r) = 6%nat.
Proof. eexists. split; vm_compute; reflexivity. Qed.
End TwoStreams.
