(* ===== verification/Promotion.v ===== *)
(** * stats/promotion_gate.py and stats/backtest_validation.py: the promotion verdict

    The five gates over one strategy and its family, and the bridge that feeds them the equity curves of
    backtests.  The four sources of outside behaviour - the C library, the generator and the normal
    distribution - are class parameters. *)

From S2P Require Import Prelude PyDecimal PyText PyFloat FloatRound FloatOrder PyNumber PyStats MultiTest Sharpe Performance Resample.

#[local] Open Scope Z_scope.

(** ** promotion_gate.py *)
Inductive superiority_result :=
| SpaVerdict (r : SPAResult)
| WrcVerdict (r : RealityCheckResult).

Definition superiority_significant (r : superiority_result) : bool :=
  match r with SpaVerdict r => spa_significant r | WrcVerdict r => wrc_significant r end.

Record PromotionDecision := {
  pd_dsr : DSRResult;
  pd_psr : PSRResult;
  pd_bca_profit_factor : Bca.BCaResult;
  pd_permutation : Permutation_test.PermutationResult;
  pd_superiority : superiority_result;
  pd_superiority_method : string;
}.

Definition pd_passes_dsr (d : PromotionDecision) : bool := passes_dsr (pd_dsr d).
Definition pd_passes_psr (d : PromotionDecision) : bool := passes_psr (pd_psr d).
Definition passes_profit_factor (d : PromotionDecision) : bool :=
  Bca.lower_exceeds (pd_bca_profit_factor d) Bca.PF_LOWER_THRESHOLD.
Definition pd_passes_permutation (d : PromotionDecision) : bool := Permutation_test.passes_permutation (pd_permutation d).
Definition passes_superiority (d : PromotionDecision) : bool := superiority_significant (pd_superiority d).

Definition promoted (d : PromotionDecision) : bool :=
  forallb id [pd_passes_dsr d; pd_passes_psr d; passes_profit_factor d; pd_passes_permutation d; passes_superiority d].

Definition failed_gates (d : PromotionDecision) : list string :=
  let checks := [("deflated_sharpe", pd_passes_dsr d); ("probabilistic_sharpe", pd_passes_psr d);
                 ("bca_profit_factor", passes_profit_factor d); ("permutation", pd_passes_permutation d);
                 (("superiority_" ++ pd_superiority_method d)%string, passes_superiority d)]%string in
  map fst (List.filter (fun c => negb (snd c)) checks).

(** The defaults of the gates the stack calls: the block length of the family tests, and the mode, block length and
    side of the permutation test. *)
Definition _FAMILY_BLOCK_LENGTH : Z := 5.
Definition _DEFAULT_CONFIDENCE : float := f_of_decimal (Dec 95 (-2)).

Section Promotion.
Context `{PyRandom} `{Libm} `{NormalDist}.

Definition evaluate_promotion (strategy_returns : list float) (family_returns : list (list float)) (sr_trials : list float)
    (periods_per_year : float) (bench_returns : option (list float)) (superiority_method : string) (n_resamples : Z)
    (seed : option Z) : result PromotionDecision :=
  let! dsr := deflated_sharpe strategy_returns sr_trials periods_per_year in
  let! psr := probabilistic_sharpe strategy_returns f_zero periods_per_year in
  let! bca_pf := Bca.bca_bootstrap strategy_returns (fun x => Ok (Bca.profit_factor x)) n_resamples _DEFAULT_CONFIDENCE seed in
  let! perm := Permutation_test.permutation_test strategy_returns Permutation_test.mean_return n_resamples "sign_flip"
                 Permutation_test._DEFAULT_BLOCK_LENGTH true seed in
  let! superiority :=
    if bool_decide (superiority_method = "spa"%string)
    then let! r := spa_test family_returns bench_returns n_resamples _FAMILY_BLOCK_LENGTH seed in Ok (SpaVerdict r)
    else let! r := reality_check family_returns bench_returns n_resamples _FAMILY_BLOCK_LENGTH seed in Ok (WrcVerdict r) in
  Ok {| pd_dsr := dsr; pd_psr := psr; pd_bca_profit_factor := bca_pf; pd_permutation := perm; pd_superiority := superiority;
        pd_superiority_method := superiority_method |}.
End Promotion.

(** ** backtest_validation.py *)
Definition _MIN_RETURNS_FOR_SHARPE : nat := 2.

Definition _annualized_sharpe (returns : list float) (periods_per_year : float) : result float :=
  if (length returns <? _MIN_RETURNS_FOR_SHARPE)%nat then Ok f_zero
  else
    let! mean_r := mean returns in
    if effectively_constant returns mean_r then Ok f_zero
    else
      let! sd := stdev returns in
      let! ratio := f_div mean_r sd in
      let! root := math_sqrt periods_per_year in
      Ok (fmul ratio root).

(** The loop over the curve: the last equity, and whether the account is gone. *)
Fixpoint returns_from (prev : float) (ruined : bool) (equity : list float) : list float :=
  match equity with
  | [] => []
  | cur :: equity =>
      if ruined then f_zero :: returns_from cur true equity
      else if fleb cur f_zero then f_of_Z (-1) :: returns_from cur true equity
      else fsub (fdiv cur prev) f_one :: returns_from cur false equity
  end.

Definition equity_curve_to_returns (equity_curve : list decimal) : result (list float) :=
  guard! (length equity_curve <? _MIN_EQUITY_POINTS)%nat else BacktestValidationError in
  match map f_of_decimal equity_curve with
  | [] => Ok []
  | first :: rest => guard! fleb first f_zero else BacktestValidationError in Ok (returns_from first false rest)
  end.

Definition evaluate_backtests `{PyRandom} `{Libm} `{NormalDist} (equity_curves : list (list decimal)) (selected_index : Z)
    (periods_per_year : float) (bench_curve : option (list decimal)) (superiority_method : string) (n_resamples : Z)
    (seed : option Z) : result PromotionDecision :=
  guard! match equity_curves with [] => true | _ => false end else BacktestValidationError in
  let n := Z.of_nat (length equity_curves) in
  guard! negb ((0 <=? selected_index) && (selected_index <? n)) else BacktestValidationError in
  let lengths := map (@length decimal) equity_curves in
  guard! existsb (fun l => negb (l =? nth 0 lengths 0)%nat) lengths else BacktestValidationError in
  let! family_returns := rmap equity_curve_to_returns equity_curves in
  let strategy_returns := nth (Z.to_nat selected_index) family_returns [] in
  let! sr_trials := rmap (fun r => _annualized_sharpe r periods_per_year) family_returns in
  let! bench_returns := match bench_curve with
                        | None => Ok None
                        | Some c => let! r := equity_curve_to_returns c in Ok (Some r)
                        end in
  evaluate_promotion strategy_returns family_returns sr_trials periods_per_year bench_returns superiority_method n_resamples seed.

(** ** Facts: returns of a curve *)
Lemma returns_from_length equity : forall prev ruined, length (returns_from prev ruined equity) = length equity.
Proof.
  induction equity as [|cur equity IH]; intros prev ruined; [done|]. cbn [returns_from].
  destruct ruined; [|destruct (fleb cur f_zero)]; cbn; by rewrite IH.
Qed.

Lemma returns_ruined equity : forall prev, returns_from prev true equity = repeat f_zero (length equity).
Proof. induction equity as [|cur equity IH]; intros prev; [done|]. cbn. by rewrite IH. Qed.

(** Up to the first point that is not positive, the returns are those of the metrics. *)
Lemma returns_from_alive equity : forall prev rest, Forall (fun x => fleb x f_zero = false) equity →
  returns_from prev false (equity ++ rest) = simple_returns (prev :: equity) ++ returns_from (List.last equity prev) false rest.
Proof.
  induction equity as [|cur equity IH]; intros prev rest Hp; [done|]. apply List.Forall_cons_iff in Hp as [Hc Hp].
  change ((cur :: equity) ++ rest) with (cur :: (equity ++ rest)). cbn [returns_from]. rewrite Hc, IH by done.
  replace (List.last (cur :: equity) prev) with (List.last equity cur); [done|].
  destruct equity as [|x equity]; [done|]. change (List.last (cur :: x :: equity) prev) with (List.last (x :: equity) prev).
  clear. revert x. induction equity as [|y equity IH]; intros x; [done|]. cbn in *. destruct equity; [done|]. apply (IH y).
Qed.

Lemma first_ruin equity : Forall (fun x => fleb x f_zero = false) equity ∨
  exists alive cur rest, equity = alive ++ cur :: rest ∧ Forall (fun x => fleb x f_zero = false) alive ∧ fleb cur f_zero = true.
Proof.
  induction equity as [|x equity IH]; [by left; constructor|]. destruct (fleb x f_zero) eqn:E.
  - right. exists [], x, equity. by split.
  - destruct IH as [Hp|(alive & cur & rest & -> & Hp & Hc)]; [left; by constructor|right].
    exists (x :: alive), cur, rest. split; [done|]. split; [by constructor|done].
Qed.

(** C34: the seam between the engine and the gates.  A curve is refused exactly when it has fewer than two points or does
    not start positive.  Otherwise there is one return per step; while every point is positive they are the very
    returns the descriptive metrics are computed from; and from the first point that is not, the account is
    gone: that return is a total loss, every later one is zero, and the ones before it are those of the curve up
    to there.  (So the comment in the function has it; its docstring says that any value that is not positive is
    refused: [TwoCurves.ruin_is_accepted].) *)
Theorem equity_returns_spec curve : let equity := map f_of_decimal curve in
  match equity_curve_to_returns curve with
  | Err e => e = BacktestValidationError ∧ ((length curve < 2)%nat ∨ exists first rest, equity = first :: rest ∧ fleb first f_zero = true)
  | Ok returns => length returns = (length curve - 1)%nat ∧ (2 <= length curve)%nat ∧
      (Forall (fun x => fleb x f_zero = false) equity ∧ returns = simple_returns equity ∨
       exists alive cur rest, equity = alive ++ cur :: rest ∧ alive ≠ [] ∧ Forall (fun x => fleb x f_zero = false) alive ∧
         fleb cur f_zero = true ∧ returns = simple_returns alive ++ f_of_Z (-1) :: repeat f_zero (length rest))
  end.
Proof.
  intros equity. unfold equity_curve_to_returns, _MIN_EQUITY_POINTS. destruct (Nat.ltb_spec (length curve) 2) as [Hlt|Hge]; cbn [reject rbind]; [by split; [|left]|].
  assert (Hl : length equity = length curve) by apply length_map. fold equity. destruct equity as [|first rest]; [cbn in Hl; lia|].
  destruct (fleb first f_zero) eqn:Ef; cbn [reject rbind]; [split; [done|]; right; by exists first, rest|].
  split; [rewrite returns_from_length; cbn in Hl; lia|]. split; [done|].
  destruct (first_ruin rest) as [Hp|(alive & cur & tl & -> & Hp & Hc)]; [left|right].
  - split; [by constructor|]. pose proof (returns_from_alive rest first [] Hp) as E. cbn [returns_from] in E. by rewrite !app_nil_r in E.
  - exists (first :: alive), cur, tl. split; [done|]. split; [done|]. split; [by constructor|]. split; [done|].
    rewrite (returns_from_alive alive first (cur :: tl) Hp). cbn [returns_from]. by rewrite Hc, returns_ruined.
Qed.

(** ** Facts: the verdict *)
Lemma promoted_gates d : promoted d = true ↔ pd_passes_dsr d = true ∧ pd_passes_psr d = true ∧ passes_profit_factor d = true ∧
  pd_passes_permutation d = true ∧ passes_superiority d = true.
Proof. unfold promoted. cbn [forallb]. unfold id. rewrite !andb_true_iff. tauto. Qed.

(** The list of failed gates is empty exactly for a promotion. *)
Lemma promoted_no_failure d : promoted d = true ↔ failed_gates d = [].
Proof.
  rewrite promoted_gates. unfold failed_gates. cbn [List.filter snd map fst].
  destruct (pd_passes_dsr d), (pd_passes_psr d), (passes_profit_factor d), (pd_passes_permutation d), (passes_superiority d);
    cbn [negb List.filter map fst]; split; try done; try (by intros (? & ? & ? & ? & ?)).
Qed.

Section PromotionFacts.
Context `{PyRandom} `{Libm} `{NormalDist}.

(** Every gate was evaluated on the strategy's own returns. *)
Lemma evaluate_promotion_parts rs fam trials ppy bench method n seed d :
  evaluate_promotion rs fam trials ppy bench method n seed = Ok d →
  deflated_sharpe rs trials ppy = Ok (pd_dsr d) ∧ probabilistic_sharpe rs f_zero ppy = Ok (pd_psr d) ∧
  Bca.bca_bootstrap rs (fun x => Ok (Bca.profit_factor x)) n _DEFAULT_CONFIDENCE seed = Ok (pd_bca_profit_factor d) ∧
  Permutation_test.permutation_test rs Permutation_test.mean_return n "sign_flip" Permutation_test._DEFAULT_BLOCK_LENGTH true seed
    = Ok (pd_permutation d) ∧
  pd_superiority_method d = method ∧
  match pd_superiority d with
  | SpaVerdict v => method = "spa"%string ∧ spa_test fam bench n _FAMILY_BLOCK_LENGTH seed = Ok v
  | WrcVerdict v => method ≠ "spa"%string ∧ reality_check fam bench n _FAMILY_BLOCK_LENGTH seed = Ok v
  end.
Proof.
  unfold evaluate_promotion. intros (dsr & E1 & (psr & E2 & (bca & E3 & (perm & E4 & (sup & E5 & [= <-])%rbind_Ok)%rbind_Ok)%rbind_Ok)%rbind_Ok)%rbind_Ok.
  do 5 (split; [done|]). cbn [pd_superiority]. case_bool_decide; by apply rbind_Ok in E5 as (v & Hv & [= <-]).
Qed.

(** What passing the deflated gate takes, without the ratio itself. *)
Lemma dsr_pass_trials rs trials ppy r : deflated_sharpe rs trials ppy = Ok r → passes_dsr r = true →
  (2 <= length (List.filter f_isfinite trials))%nat.
Proof.
  unfold deflated_sharpe. intros E Hp. apply rbind_Ok in E as (_ & _ & E). apply rbind_Ok in E as (psr0 & _ & E). unfold _MIN_TRIALS in E.
  destruct (Nat.ltb_spec (length (List.filter f_isfinite trials)) 2); [by injection E as <-|done].
Qed.

Lemma curve_returns_length curve rs : equity_curve_to_returns curve = Ok rs → length rs = (length curve - 1)%nat.
Proof.
  unfold equity_curve_to_returns. intros (_ & Hn%reject_Ok%Nat.ltb_ge & E)%rbind_Ok. unfold _MIN_EQUITY_POINTS in Hn.
  destruct curve as [|d curve]; [cbn in Hn; lia|]. cbn [map] in E. apply rbind_Ok in E as (_ & _ & [= <-]).
  rewrite returns_from_length, length_map. cbn. lia.
Qed.

Lemma Forall2_nth_default {A B} (R : A -> B -> Prop) l l' x y : Forall2 R l l' → forall i, (i < length l)%nat → R (nth i l x) (nth i l' y).
Proof. induction 1 as [|a b l l' Hab _ IH]; intros [|i] Hi; cbn in *; try lia; [done|]. apply IH. lia. Qed.

Lemma existsb_lengths (curves : list (list decimal)) c : existsb (fun l => negb (l =? nth 0 (map (@length decimal) curves) 0)%nat) (map (@length decimal) curves) = false →
  In c curves → length c = length (nth 0 curves []).
Proof.
  intros Hl Hc. rewrite existsb_false, List.Forall_forall in Hl. specialize (Hl (length c)). cbv beta in Hl.
  assert (Hin : In (length c) (map (@length decimal) curves)) by (by apply in_map).
  specialize (Hl Hin). apply negb_false_iff, Nat.eqb_eq in Hl. rewrite Hl. change 0%nat with (@length decimal []) at 2. by rewrite map_nth.
Qed.

(** What passing the three gates on the returns takes. *)
Lemma promoted_evidence rs trials ppy n seed d bca : deflated_sharpe rs trials ppy = Ok (pd_dsr d) →
  probabilistic_sharpe rs f_zero ppy = Ok (pd_psr d) →
  Bca.bca_bootstrap rs (fun x => Ok (Bca.profit_factor x)) n bca seed = Ok (pd_bca_profit_factor d) →
  pd_passes_dsr d = true → pd_passes_psr d = true → passes_profit_factor d = true →
  (2 <= length trials)%nat ∧ (10 <= length rs)%nat ∧
  (exists r, In r rs ∧ fltb r f_zero = true) ∧ ~ constant rs ∧ f_isfinite (Bca.profit_factor rs) = true ∧
  (exists p, dsr_dsr (pd_dsr d) = Some p ∧ fltb DSR_THRESHOLD p = true) ∧
  (exists p, psr_psr (pd_psr d) = Some p ∧ fltb PSR_THRESHOLD p = true) ∧
  fltb Bca.PF_LOWER_THRESHOLD (Bca.bca_lower (pd_bca_profit_factor d)) = true.
Proof.
  intros E1 E2 E3 Hd Hs Hb.
  pose proof (dsr_pass_trials _ _ _ _ E1 Hd) as H2. pose proof (List.filter_length_le f_isfinite trials). split; [lia|].
  pose proof (psr_fields _ _ _ _ E2) as (_ & _ & _ & _ & Hev). destruct (Hev (psr_passes_some _ Hs)) as (_ & Hn & Hc).
  split; [exact Hn|].
  destruct (BcaFacts.bca_defined _ _ _ _ _ _ _ E3 Hb) as (Hpf & Hpf' & _). injection Hpf as Hpf. rewrite <- Hpf in Hpf'.
  split; [by apply BcaFacts.profit_factor_finite|]. split; [done|]. split; [done|].
  unfold pd_passes_dsr, passes_dsr in Hd. unfold pd_passes_psr, passes_psr in Hs.
  split; [destruct (dsr_dsr _); [eauto|done]|]. split; [destruct (psr_psr _); [eauto|done]|].
  by apply andb_true_iff in Hb as [_ Hb].
Qed.

(** C33: a promotion stands on evidence.  A decision over the backtests of a family, at least one, is the one of the
    five gates on these inputs: the deflated and the probabilistic Sharpe ratios, the bootstrap interval of the profit
    factor and the permutation test of the selected curve's returns, the first with the trials' Sharpe ratios, and the
    superiority test asked for on the returns of all curves against the benchmark's.  A promoted one is one no gate
    failed.  Its family has at least two curves, all of one length, which is more than ten points.  The returns of the
    selected curve have at least one losing period and are not all equal; their profit factor is a number; the
    deflated and the probabilistic Sharpe ratios are above their threshold, the lower bound of the profit factor is
    above its own, the permutation test's p-value is below its own, and the superiority test is significant. *)
Theorem promotion_needs_evidence curves selected ppy bench method n seed d :
  evaluate_backtests curves selected ppy bench method n seed = Ok d →
  0 <= selected < Z.of_nat (length curves) ∧ (forall c, In c curves → length c = length (nth 0 curves [])) ∧
  exists family trials bench_returns, let returns := nth (Z.to_nat selected) family [] in
    Forall2 (fun c rs => equity_curve_to_returns c = Ok rs) curves family ∧
    Forall2 (fun rs t => _annualized_sharpe rs ppy = Ok t) family trials ∧
    match bench, bench_returns with
    | None, None => True
    | Some c, Some rs => equity_curve_to_returns c = Ok rs
    | _, _ => False
    end ∧
    deflated_sharpe returns trials ppy = Ok (pd_dsr d) ∧ probabilistic_sharpe returns f_zero ppy = Ok (pd_psr d) ∧
    Bca.bca_bootstrap returns (fun x => Ok (Bca.profit_factor x)) n _DEFAULT_CONFIDENCE seed = Ok (pd_bca_profit_factor d) ∧
    Permutation_test.permutation_test returns Permutation_test.mean_return n "sign_flip" Permutation_test._DEFAULT_BLOCK_LENGTH
      true seed = Ok (pd_permutation d) ∧
    match pd_superiority d with
    | SpaVerdict v => method = "spa"%string ∧ spa_test family bench_returns n _FAMILY_BLOCK_LENGTH seed = Ok v
    | WrcVerdict v => method ≠ "spa"%string ∧ reality_check family bench_returns n _FAMILY_BLOCK_LENGTH seed = Ok v
    end ∧
    (promoted d = true → failed_gates d = [] ∧ (2 <= length curves)%nat ∧ (11 <= length (nth 0 curves []))%nat ∧
       (exists r, In r returns ∧ fltb r f_zero = true) ∧ ~ constant returns ∧
       f_isfinite (Bca.profit_factor returns) = true ∧
       (exists p, dsr_dsr (pd_dsr d) = Some p ∧ fltb DSR_THRESHOLD p = true) ∧
       (exists p, psr_psr (pd_psr d) = Some p ∧ fltb PSR_THRESHOLD p = true) ∧
       fltb Bca.PF_LOWER_THRESHOLD (Bca.bca_lower (pd_bca_profit_factor d)) = true ∧
       (exists p, Permutation_test.perm_p_value (pd_permutation d) = Some p ∧ fltb p Permutation_test.PERMUTATION_P_THRESHOLD = true) ∧
       match pd_superiority d with SpaVerdict v => spa_significant v = true | WrcVerdict v => wrc_significant v = true end).
Proof.
  intros E. unfold evaluate_backtests in E. apply rbind_Ok in E as (_ & _ & E).
  apply rbind_Ok in E as (_ & Hsel%reject_Ok%negb_false_iff%andb_true_iff & E).
  apply rbind_Ok in E as (_ & Hl%reject_Ok & E). apply rbind_Ok in E as (fam & Hfam & E). apply rbind_Ok in E as (trials & Htr & E).
  apply rbind_Ok in E as (bench_returns & Hb & E). apply evaluate_promotion_parts in E as (E1 & E2 & E3 & E4 & _ & E5).
  assert (Hsel' : 0 <= selected < Z.of_nat (length curves)) by lia.
  pose proof (existsb_lengths curves) as Hlen. split; [done|]. split; [intros c; by apply Hlen|].
  apply rmap_Ok in Hfam, Htr. exists fam, trials, bench_returns. cbv zeta. set (rs := nth (Z.to_nat selected) fam []) in *.
  split; [done|]. split; [done|].
  split; [destruct bench; [by apply rbind_Ok in Hb as (b & Hb & [= <-])|by injection Hb as <-]|].
  do 5 (split; [done|]). intros Hp.
  assert (Hrs : equity_curve_to_returns (nth (Z.to_nat selected) curves []) = Ok rs).
  { apply (Forall2_nth_default _ _ _ [] [] Hfam). lia. }
  assert (Hlt : length trials = length curves).
  { apply List.Forall2_length in Htr, Hfam. congruence. }
  split; [by apply promoted_no_failure|]. apply promoted_gates in Hp as (Hd & Hs & Hbc & Hm & Hsup).
  pose proof (promoted_evidence _ _ _ _ _ _ _ E1 E2 E3 Hd Hs Hbc) as (Hn2 & Hn11 & Hev).
  apply curve_returns_length in Hrs. rewrite (Hlen _ Hl) in Hrs by (apply nth_In; lia).
  split; [lia|]. split; [lia|]. destruct Hev as (? & ? & ? & ? & ? & ?). do 6 (split; [done|]).
  split; [|unfold passes_superiority, superiority_significant in Hsup; by destruct (pd_superiority d)].
  unfold pd_passes_permutation, Permutation_test.passes_permutation in Hm. destruct (Permutation_test.perm_p_value _); [eauto|done].
Qed.
End PromotionFacts.

(** ** A witness: a family of two curves *)
Module TwoCurves.
#[local] Instance counter : PyRandom := {
  rng := Z; rng_seed s := match s with Some n => n | None => 0 end; randrange g n := (g + 1, g mod n); random g := (g, f_one);
}.
#[local] Instance libm : Libm := { log x := x; log10 x := x; pow x y := if fltb y f_two then fmul x (fsqrt x) else fmul x x }.
#[local] Instance normal : NormalDist := { norm_cdf z := if fltb z f_zero then f_of_decimal (Dec 1 (-2)) else f_of_decimal (Dec 97 (-2)); norm_quantile p := fsub p f_half }.

Definition curves : list (list decimal) :=
  map (map dec_of_Z) [[64; 68; 72; 70; 76; 80; 84; 88; 87; 92; 96]; [64; 66; 64; 66; 64; 66; 64; 66; 64; 66; 65]].

Lemma promotion_needs_evidence_witness : exists d, evaluate_backtests (rev curves) 1 (f_of_Z 252) None "wrc" 1000 (Some 1) = Ok d
  ∧ promoted d = true ∧ failed_gates d = [] ∧ (2 <= length (rev curves))%nat.
Proof.
  eexists. run_as E. match goal with |- promoted ?d = true ∧ _ => assert (Hp : promoted d = true) by (vm_compute; reflexivity) end.
  destruct (promotion_needs_evidence (rev curves) 1 (f_of_Z 252) None "wrc" 1000 (Some 1) _ E)
    as (_ & _ & family & trials & bench_returns & _ & _ & _ & _ & _ & _ & _ & _ & Hev).
  destruct (Hev Hp) as (Hf & H2 & _). split; [exact Hp|]. split; [exact Hf|exact H2].
Defined.

(** A curve that goes below zero after its start is not refused. *)
Lemma ruin_is_accepted : equity_curve_to_returns (map dec_of_Z [100; -50]) = Ok [f_of_Z (-1)].
Proof. vm_compute. reflexivity. Qed.

(** A blown account is one losing period to the gates: gains before it outweigh it in the mean and in the profit factor. *)
Definition blown : list decimal := map dec_of_Z [100; 200; 400; 800; 1600; -50; -60].

Lemma ruin_is_one_loss : exists rs, equity_curve_to_returns blown = Ok rs ∧ rs = map f_of_Z [1; 1; 1; 1; -1; 0]
  ∧ Bca.profit_factor rs = f_of_Z 4 ∧ fmean rs = Ok f_half.
Proof. eexists. split; [vm_compute; reflexivity|]. split; [|split]; vm_compute; reflexivity. Qed.
End TwoCurves.
