(* ===== verification/VolParity.v ===== *)
(** * futur3/execution/vol_parity.py: inverse-volatility leg weighting

    The sample standard deviation of a leg's returns and the normalised inverse-volatility weights,
    in [Decimal] arithmetic.  [Decimal.sqrt] and [** 2] are those of [PyDecimal]. *)

From Stdlib Require Import QArith Lqa.
From S2P Require Import Prelude PyDecimal.

#[local] Open Scope Z_scope.

Definition _MIN_VOL_OBS : Z := 2.

Definition _stdev (returns : list decimal) : result (option decimal) :=
  let n := Z.of_nat (length returns) in
  if n <? _MIN_VOL_OBS then Ok None
  else
    let! mean := ddiv (dsum returns) (dec_of_Z n) in
    let! var := ddiv (dsum (map (fun r => dsquare (dsub r mean)) returns)) (dec_of_Z (n - 1)) in
    if dltb d0 var then let! sd := dsqrt var in Ok (Some sd) else Ok None.

Section Weights.
Context {K : Type} `{EqDecision K}.

(** [1 / stdev] of a leg, when it is measurable. *)
Definition inverse_vol (returns : list decimal) : result (option decimal) :=
  let! sd := _stdev returns in
  match sd with
  | Some sd => let! x := ddiv d1 sd in Ok (Some x)
  | None => Ok None
  end.

Definition inverse_vol_weights (returns_by_key : dict K (list decimal)) : result (dict K decimal) :=
  match returns_by_key with
  | [] => Ok []
  | _ =>
      let! inv := rmap (fun kr => let! x := inverse_vol (snd kr) in Ok (fst kr, x)) returns_by_key in
      let finite := omap snd inv in
      match finite with
      | [] => Ok (map (fun kr => (fst kr, d1)) returns_by_key)
      | _ =>
          let! neutral := ddiv (dsum finite) (dec_of_Z (Z.of_nat (length finite))) in
          let raw := map (fun kx => (fst kx, match snd kx with Some x => x | None => neutral end)) inv in
          let! mean_raw := ddiv (dsum (dvalues raw)) (dec_of_Z (Z.of_nat (length raw))) in
          rmap (fun kx => let! w := ddiv (snd kx) mean_raw in Ok (fst kx, w)) raw
      end
  end.
End Weights.

Example equal_vols : inverse_vol_weights (K := string)
  [("ES", [Dec 1 (-2); Dec (-1) (-2)]); ("NQ", [Dec 1 (-2); Dec (-1) (-2)])]%string
  = Ok [("ES", Dec (10 ^ 27) (-27)); ("NQ", Dec (10 ^ 27) (-27))]%string.
Proof. vm_compute. reflexivity. Qed.

(** ** Facts *)
Lemma dsum_nonneg l : Forall (fun d => 0 <= dcoef d) l → 0 <= dcoef (dsum l).
Proof.
  unfold dsum. intros Hl. assert (Ha : 0 <= dcoef d0) by done. revert Ha. generalize d0.
  induction Hl as [|x l Hx Hl IH]; intros a Ha; simpl; [done|]. by apply IH, dadd_nonneg.
Qed.

Lemma dsum_pos l : l ≠ [] → Forall (fun d => 0 < dcoef d) l → 0 < dcoef (dsum l).
Proof.
  unfold dsum. intros Hne Hl. destruct Hl as [|x l Hx Hl]; [done|]. simpl.
  assert (Ha : 0 < dcoef (dadd d0 x)).
  { unfold dadd. apply dfix_pos. apply dval_pos. rewrite dval_dadd_exact, dval_d0.
    apply dval_pos in Hx. lra. }
  clear Hne. revert Ha. generalize (dadd d0 x). induction Hl as [|y l Hy Hl IH]; intros a Ha; simpl; [done|].
  apply IH, dadd_pos; lia.
Qed.

(** The mean of positive values is a positive value. *)
Lemma mean_pos l : l ≠ [] → Forall (fun d => 0 < dcoef d) l →
  exists m, ddiv (dsum l) (dec_of_Z (Z.of_nat (length l))) = Ok m ∧ 0 < dcoef m.
Proof.
  intros Hne Hl. assert (Hn : 0 < Z.of_nat (length l)) by (destruct l; [done|simpl; lia]).
  destruct (ddiv_ok (dsum l) (dec_of_Z (Z.of_nat (length l)))) as [m Hm]; [simpl; lia|].
  exists m. split; [done|]. eapply ddiv_pos; [| |exact Hm]; [by apply dsum_pos|exact Hn].
Qed.

(** The deviation is always computed, and it is positive when there is one. *)
Lemma stdev_total rs : exists o, _stdev rs = Ok o ∧ match o with Some sd => 0 < dcoef sd | None => True end.
Proof.
  unfold _stdev. destruct (Z.ltb_spec (Z.of_nat (length rs)) _MIN_VOL_OBS) as [|Hn]; [by eexists|].
  unfold _MIN_VOL_OBS in Hn. set (n := Z.of_nat (length rs)) in *.
  destruct (ddiv_ok (dsum rs) (dec_of_Z n)) as [mean ->]; [simpl; lia|]. cbn [rbind].
  destruct (ddiv_ok (dsum (map (fun r => dsquare (dsub r mean)) rs)) (dec_of_Z (n - 1))) as [var ->];
    [simpl; lia|]. cbn [rbind]. rewrite dltb_0_l.
  destruct (Z.ltb_spec 0 (dcoef var)) as [Hv|]; [|by eexists].
  destruct (dsqrt_pos var Hv) as (sd & -> & Hsd). by exists (Some sd).
Qed.

Lemma inverse_vol_total rs :
  exists o, inverse_vol rs = Ok o ∧ match o with Some x => 0 < dcoef x | None => True end.
Proof.
  unfold inverse_vol. destruct (stdev_total rs) as (o & -> & Ho). cbn [rbind].
  destruct o as [sd|]; [|by exists None].
  destruct (ddiv_ok d1 sd) as [x Hx]; [lia|]. rewrite Hx. exists (Some x). split; [done|].
  by eapply ddiv_pos; [| |exact Hx].
Qed.

Section WeightsFacts.
Context {K : Type} `{EqDecision K}.

(** A map over a dict that cannot fail and keeps the keys. *)
Lemma rmap_keyed {V W} (f : V -> result W) (P : W -> Prop) (d : dict K V) :
  (forall k v, In (k, v) d → exists w, f v = Ok w ∧ P w) →
  exists d', rmap (fun kv => let! w := f (snd kv) in Ok (fst kv, w)) d = Ok d'
             ∧ dkeys d' = dkeys d ∧ Forall P (dvalues d').
Proof.
  induction d as [|[k v] d IH]; intros Hf; simpl; [by exists []|].
  destruct (Hf k v (or_introl eq_refl)) as (w & -> & Hw). cbn [rbind].
  destruct IH as (d' & -> & Hk & Hd'); [intros k' v' Hin; apply (Hf k' v'); by right|].
  exists ((k, w) :: d'). split; [done|]. split; [by simpl; rewrite Hk|]. by constructor.
Qed.

(** inverse-volatility weighting is total and never drops or flips a leg.  For any returns -
    short, constant or empty legs included - the weights are computed without a division by zero or
    a root of a negative, there is exactly one per leg in the legs' order, every weight is strictly
    positive, and when no leg's volatility is measurable every weight is one. *)
Theorem inverse_vol_weights_total (returns_by_key : dict K (list decimal)) :
  exists w, inverse_vol_weights returns_by_key = Ok w ∧ dkeys w = dkeys returns_by_key
  ∧ Forall (fun d => 0 < dcoef d) (dvalues w)
  ∧ (Forall (fun rs => inverse_vol rs = Ok None) (dvalues returns_by_key) →
     Forall (fun d => d = d1) (dvalues w)).
Proof.
  unfold inverse_vol_weights. destruct returns_by_key as [|kr0 rest]; [by exists []|].
  set (legs := kr0 :: rest).
  destruct (rmap_keyed inverse_vol
              (fun o => match o with Some x => 0 < dcoef x | None => True end) legs)
    as (inv & Hinv & Hk & Hpos); [intros; apply inverse_vol_total|].
  rewrite Hinv. cbn [rbind].
  assert (Hfin : Forall (fun d => 0 < dcoef d) (omap snd inv)).
  { apply List.Forall_forall. intros x Hx. rewrite List.Forall_forall in Hpos.
    apply list_elem_of_In in Hx. apply list_elem_of_omap in Hx as (kx & Hin & Hs).
    apply list_elem_of_In in Hin. specialize (Hpos (snd kx) (in_map snd _ _ Hin)). by rewrite Hs in Hpos. }
  destruct (omap snd inv) as [|x0 finite] eqn:Ef.
  { eexists. split; [reflexivity|]. unfold dkeys, dvalues. rewrite !map_map. split; [done|].
    split; [|intros _]; apply List.Forall_forall; intros x (kr & <- & _)%in_map_iff; done. }
  assert (Hne : x0 :: finite ≠ []) by (intros [=]).
  destruct (mean_pos _ Hne Hfin) as (neutral & Hn & Hnpos). simpl length in *. rewrite Hn. cbn [rbind].
  set (raw := map _ inv).
  assert (Hraw : Forall (fun d => 0 < dcoef d) (dvalues raw) ∧ dkeys raw = dkeys legs).
  { subst raw. unfold dvalues, dkeys in *. rewrite !map_map. split; [|exact Hk]. apply List.Forall_forall.
    intros x (kx & <- & Hin)%in_map_iff. rewrite List.Forall_forall in Hpos.
    specialize (Hpos (snd kx) (in_map snd _ _ Hin)). simpl. by destruct (snd kx). }
  destruct Hraw as [Hraw Hkraw]. clearbody raw.
  assert (Hrne : dvalues raw ≠ []) by (destruct raw; intros [=]; done).
  destruct (mean_pos _ Hrne Hraw) as (m & Hm & Hmpos). unfold dvalues in Hm at 2. rewrite length_map in Hm.
  rewrite Hm. cbn [rbind].
  destruct (rmap_keyed (fun x => ddiv x m) (fun d => 0 < dcoef d) raw) as (w & Hw & Hkw & Hwpos).
  { intros k v Hin. destruct (ddiv_ok v m) as [q Hq]; [lia|]. exists q. split; [done|].
    rewrite List.Forall_forall in Hraw. eapply ddiv_pos; [|exact Hmpos|exact Hq].
    apply Hraw. by apply (in_map snd) in Hin. }
  exists w. split; [exact Hw|]. split; [congruence|]. split; [done|]. intros Hnone. exfalso.
  assert (Hall : forall kx, In kx inv → snd kx = None).
  { clear - Hinv Hnone. revert inv Hinv. induction legs as [|[k rs] legs IH]; simpl; intros inv.
    - by intros [= <-].
    - inversion Hnone as [|? ? E Hrest]; subst. rewrite E. cbn [rbind].
      intros (ys & Hys & [= <-])%rbind_Ok kx [<-|Hin]; [done|]. by eapply IH. }
  assert (Hx0 : In x0 (omap snd inv)) by (rewrite Ef; by left).
  apply list_elem_of_In, list_elem_of_omap in Hx0 as (kx & Hin & Hs).
  apply list_elem_of_In, Hall in Hin. congruence.
Qed.
End WeightsFacts.
