(* ===== verification/Strategy.v ===== *)
(** * futur3/strategies/base.py: signals and the strategy interfaces

    A strategy is a user's class: it is a parameter of the development, over its own state, behind
    the class [Strategy] (one contract stream) or [CrossSectionalStrategy] (a set of contracts). *)

From Stdlib Require Import QArith.
From S2P Require Import Prelude PyDecimal PyText PyTime Types Verifier Policies.

#[local] Open Scope Z_scope.

Record Signal := {
  sg_contract : ContractSymbol;
  sg_ts : datetime;
  strategy_id : string;
  direction : Z;
  full_kelly_fraction : decimal;
  confidence : decimal;
}.

Definition Signal_post_init (s : Signal) : result Signal :=
  guard! negb ((direction s =? -1) || (direction s =? 0) || (direction s =? 1)) else StrategyError in
  guard! dltb (full_kelly_fraction s) d0 else StrategyError in
  guard! negb (dleb d0 (confidence s) && dleb (confidence s) d1) else StrategyError in
  guard! (direction s =? 0) && negb (deqb (full_kelly_fraction s) d0) else StrategyError in
  Ok s.

(** [generate_signal(history, ctx)]: the last bar of [history] is the current one.  A strategy may
    keep state and may raise. *)
Class Strategy (St Clock : Type) := {
  generate_signal : list VerifiedBar -> RuntimeContext Clock -> M St (option Signal);
}.

Class CrossSectionalStrategy (St Clock : Type) := {
  generate_signals : dict ContractSymbol (list VerifiedBar) -> RuntimeContext Clock ->
    M St (dict ContractSymbol Signal);
}.

Definition Signal_wf (s : Signal) : Prop :=
  (direction s = -1 ∨ direction s = 0 ∨ direction s = 1) ∧ 0 <= dcoef (full_kelly_fraction s) ∧
  (0 <= dval (confidence s) <= 1)%Q ∧
  (direction s = 0 → dcoef (full_kelly_fraction s) = 0).

Lemma Signal_post_init_Ok s s' : Signal_post_init s = Ok s' → s' = s ∧ Signal_wf s.
Proof.
  unfold Signal_post_init. intros (_ & Hd%reject_Ok & (_ & Hf%reject_Ok & (_ & Hc%reject_Ok &
    (_ & Hz%reject_Ok & [= <-])%rbind_Ok)%rbind_Ok)%rbind_Ok)%rbind_Ok.
  rewrite negb_false_iff, !orb_true_iff, !Z.eqb_eq in Hd.
  rewrite dltb_0_r, Z.ltb_ge in Hf. rewrite negb_false_iff, andb_true_iff, dleb_0_l, dleb_spec, Z.leb_le in Hc.
  rewrite andb_false_iff, Z.eqb_neq, negb_false_iff, deqb_spec in Hz.
  split; [done|]. unfold Signal_wf. split_and!; [tauto|done|by apply dval_nonneg, Hc| |].
  { destruct Hc as [_ Hc]. assert (E : (dval d1 == 1)%Q) by reflexivity. by rewrite E in Hc. }
  intros H0. destruct Hz as [Hz|Hz]; [done|]. unfold deq in Hz.
  pose proof (dval_sgn (full_kelly_fraction s)) as Hs. rewrite Hz in Hs. symmetry in Hs.
  by apply Z.compare_eq_iff in Hs.
Qed.
