(* ===== verification/Backtest.v ===== *)
(** * futur3/engine/backtest.py: the backtest engine

    The engine's state is a record threaded through the loop: the broker, the strategy's own state,
    the loop's local dicts, lists and counters.  The broker is behind the class [BacktestBroker]
    (the adapter interface and the three [MockBroker] members the engine uses besides), the sizer
    behind [Sizer] and the strategy behind [Strategy].  [await] runs one coroutine at a time to its
    end, so an awaited call is a call.  An exception leaves the state as it was when it was raised. *)

From Stdlib Require Import QArith Qabs Lqa.
From S2P Require Import Prelude PyDecimal PyText PyTime Types Broker PyFloat Survival RiskManager Slippage Verifier Policies MockBroker PropBroker Calendar Roll Continuous Strategy.

#[local] Open Scope Z_scope.

(** ** Interfaces *)

(** What the engine asks of a broker besides the adapter interface. *)
Class BacktestBroker (B : Type) `{BrokerAdapter B} := {
  bb_advance {SM : Type} `{SlippageModel SM} : VerifiedBar -> option SM -> M B (list OrderEvent);
  bb_roll_position : ContractSymbol -> ContractSymbol -> decimal -> decimal -> M B Z;
  bb_trade_pnls : B -> list decimal;
  bb_positions : B -> list Position;
}.

(** The positions and the closed trades are left alone. *)
Definition still {B} `{BacktestBroker B} (b b' : B) : Prop :=
  bb_positions b' = bb_positions b ∧ bb_trade_pnls b' = bb_trade_pnls b.

#[global] Instance still_preorder {B} `{BacktestBroker B} : PreOrder still.
Proof. split; [by intros b|]. intros a b c [P1 T1] [P2 T2]. split; congruence. Qed.

(** The part of the contract the loop's ordering rests on: a snapshot is of the positions, and
    snapshots, the trade gate and order placement leave positions and closed trades alone, so that
    only [advance] and rolls move them. *)
Class BacktestBrokerLaws (B : Type) `{BacktestBroker B} := {
  positions_snapshot : forall b b' r, get_positions b = (b', Ok r) → r = bb_positions b;
  snapshot_still : steps still get_positions;
  metrics_still : steps still get_account_metrics;
  gate_still : forall c s q, steps still (is_trade_allowed c s q);
  place_still : forall o, steps still (place_order o);
}.

Class Sizer (R : Type) := {
  sizer_size : R -> ContractSymbol -> decimal -> decimal -> decimal -> option (list float) ->
    option Z -> result SizingDecision;
}.

#[global] Instance RiskManager_sizer `{Libm} `{PyRandom} {MS} `{MarginSource MS}
  : Sizer (RiskManager MS) := { sizer_size := size_position }.
#[global] Instance FixedSize_sizer `{Libm} `{PyRandom} {MS} `{MarginSource MS}
  : Sizer (FixedSizeRiskManager MS) := { sizer_size := fixed_size_position }.

(** ** Data *)
Definition _MIN_CLOSES_FOR_SURVIVAL : Z := 3.

Record RunResult := {
  bars_processed : Z;
  signals_generated : Z;
  orders_placed : Z;
  fills : Z;
  final_equity : decimal;
  realized_pnl : decimal;
  final_positions : list Position;
  equity_curve : list decimal;
  survival_capped_bars : Z;
  rolls_executed : Z;
  total_roll_cost : decimal;
  trade_pnls : list decimal;
}.

(** The unrealized PnL of one position; [None] when the loop skips it. *)
Definition position_pnl (last_close : dict ContractSymbol decimal) (p : Position)
    : result (option decimal) :=
  if p_quantity p =? 0 then Ok None
  else match dget (p_contract p) last_close with
       | None => Ok None
       | Some price =>
           let! mult := multiplier_for (p_contract p) in
           Ok (Some (dmul (dmul (dsub price (p_avg_entry_price p)) (dec_of_Z (p_quantity p))) mult))
       end.

Definition _mark_to_market (realized_equity : decimal) (positions : list Position)
    (last_close : dict ContractSymbol decimal) : result decimal :=
  let! unrealized := rfold (fun acc p =>
      let! pnl := position_pnl last_close p in
      Ok (match pnl with Some x => dadd acc x | None => acc end)) positions d0 in
  Ok (dadd realized_equity unrealized).

Definition _net_position (positions : list Position) (contract : ContractSymbol) : Z :=
  zsum (map p_quantity (List.filter (fun p => String.eqb (p_contract p) contract) positions)).

Section Engine.
Context {B SM R St Clock : Type} `{BacktestBroker B} `{SlippageModel SM} `{Sizer R} `{Strategy St Clock}.

Record BacktestEngine := {
  _ctx : RuntimeContext Clock;
  _risk : R;
  _slippage : option SM;
  _survival_gate : bool;
  _survival_seed : Z;
  _target_position : bool;
  _roll_by_date : dict date RollEvent;
  _stop_loss_pct : option decimal;
}.

Definition new_BacktestEngine (ctx : RuntimeContext Clock) (risk : R) (slippage : option SM)
  (survival_gate : bool) (survival_seed : Z) (target_position : bool)
  (roll_events : option (list RollEvent)) (stop_loss_pct : option decimal) : result BacktestEngine :=
  guard! match stop_loss_pct with Some p => dleb p d0 | None => false end else ValueError in
  Ok {| _ctx := ctx; _risk := risk; _slippage := slippage; _survival_gate := survival_gate;
      _survival_seed := survival_seed; _target_position := target_position;
      _roll_by_date := match roll_events with
                       | Some es => fold_left (fun d e => dset (roll_date e) e d) es []
                       | None => []
                       end;
      _stop_loss_pct := stop_loss_pct |}.

(** The state the loop works on: the objects it calls and its local variables. *)
Record RunState := {
  rs_broker : B;
  rs_strategy : St;
  rs_history : list VerifiedBar;
  rs_last_close : dict ContractSymbol decimal;
  rs_closes : dict ContractSymbol (list decimal);
  rs_curve : list decimal;
  rs_signals : Z;
  rs_orders : Z;
  rs_fills : Z;
  rs_capped : Z;
  rs_rolls : Z;
  rs_roll_cost : decimal;
}.

Definition init_state (b : B) (st : St) : RunState := {|
  rs_broker := b; rs_strategy := st; rs_history := []; rs_last_close := []; rs_closes := [];
  rs_curve := []; rs_signals := 0; rs_orders := 0; rs_fills := 0; rs_capped := 0; rs_rolls := 0;
  rs_roll_cost := d0 |}.

Definition set_objects (b : B) (st : St) (s : RunState) : RunState := {|
  rs_broker := b; rs_strategy := st; rs_history := rs_history s; rs_last_close := rs_last_close s;
  rs_closes := rs_closes s; rs_curve := rs_curve s; rs_signals := rs_signals s;
  rs_orders := rs_orders s; rs_fills := rs_fills s; rs_capped := rs_capped s;
  rs_rolls := rs_rolls s; rs_roll_cost := rs_roll_cost s |}.
Definition set_marks (history : list VerifiedBar) (last_close : dict ContractSymbol decimal)
  (closes : dict ContractSymbol (list decimal)) (curve : list decimal) (s : RunState) : RunState := {|
  rs_broker := rs_broker s; rs_strategy := rs_strategy s; rs_history := history;
  rs_last_close := last_close; rs_closes := closes; rs_curve := curve; rs_signals := rs_signals s;
  rs_orders := rs_orders s; rs_fills := rs_fills s; rs_capped := rs_capped s;
  rs_rolls := rs_rolls s; rs_roll_cost := rs_roll_cost s |}.
Definition set_counts (signals orders fls capped rolls : Z) (cost : decimal) (s : RunState) : RunState := {|
  rs_broker := rs_broker s; rs_strategy := rs_strategy s; rs_history := rs_history s;
  rs_last_close := rs_last_close s; rs_closes := rs_closes s; rs_curve := rs_curve s;
  rs_signals := signals; rs_orders := orders; rs_fills := fls; rs_capped := capped;
  rs_rolls := rolls; rs_roll_cost := cost |}.

Definition on_broker {A} (m : M B A) : M RunState A :=
  fun s => let '(b, r) := m (rs_broker s) in (set_objects b (rs_strategy s) s, r).
Definition on_strategy {A} (m : M St A) : M RunState A :=
  fun s => let '(st, r) := m (rs_strategy s) in (set_objects (rs_broker s) st s, r).

Definition add_orders (n : Z) : M RunState unit :=
  modify (fun s => set_counts (rs_signals s) (rs_orders s + n) (rs_fills s) (rs_capped s)
                   (rs_rolls s) (rs_roll_cost s) s).

Variable eng : BacktestEngine.

(** ** The helpers of the loop *)
Definition _execute_roll (bar : VerifiedBar) : M B (Z * decimal) :=
  match _roll_by_date eng with
  | [] => ret (0, d0)
  | by_date =>
    match dget (dt_date (vb_ts bar)) by_date with
    | None => ret (0, d0)
    | Some event =>
        pre_roll <- get_positions ;;
        if _net_position pre_roll (old_contract event) =? 0 then ret (0, d0)
        else
          rolled <- bb_roll_position (old_contract event) (new_contract event)
                      (front_settle event) (back_settle event) ;;
          if rolled =? 0 then ret (0, d0)
          else
            mult <- lift (multiplier_for (new_contract event)) ;;
            ret (1, dmul (dmul (dsub (back_settle event) (front_settle event)) (dec_of_Z rolled)) mult)
    end
  end.

(** [closes[j] / closes[j-1] - 1] for consecutive closes. *)
Fixpoint close_returns (closes : list decimal) : result (list float) :=
  match closes with
  | prev :: (cur :: _) as rest =>
    let! q := ddiv cur prev in
    let! rs := close_returns rest in
    Ok (f_of_decimal (dsub q d1) :: rs)
  | _ => Ok []
  end.

Definition _survival_inputs (closes_by_contract : dict ContractSymbol (list decimal))
  (contract : ContractSymbol) (bar_index : Z) : result (option (list float) * option Z) :=
  if negb (_survival_gate eng) then Ok (None, None)
  else
  match dget contract closes_by_contract with
  | None => Ok (None, None)
  | Some closes =>
      if Z.of_nat (length closes) <? _MIN_CLOSES_FOR_SURVIVAL then Ok (None, None)
      else let! returns := close_returns closes in
           Ok (Some returns, Some (_survival_seed eng + bar_index))
  end.

Definition _resolve_order (decision : SizingDecision) (signal : Signal) (positions : list Position)
  : option (Side * Z) :=
  if _target_position eng then
  let target := if 0 <? direction signal then contracts decision else - contracts decision in
  let delta := target - _net_position positions (sg_contract signal) in
  if delta =? 0 then None
  else Some (if 0 <? delta then BUY else SELL, Z.abs delta)
  else Some (if 0 <? direction signal then BUY else SELL, contracts decision).

(** [Order(contract=..., side=..., quantity=..., order_type=MKT, client_order_id=...)]. *)
Definition market_order (contract : ContractSymbol) (side : Side) (quantity : Z) (tag : string)
  (bar : VerifiedBar) : result Order :=
  Order_post_init {|
  o_contract := contract; o_side := side; o_quantity := quantity; o_order_type := MKT;
  o_limit_price := None; o_stop_price := None; o_duration := DAY; o_parent_order_id := None;
  o_oco_group_id := None;
  o_client_order_id := Some (str_concat [tag; "@"%string; dt_iso (vb_ts bar)]) |}.

(** The trade gate, then a market order; was it placed? *)
Definition gated_order (contract : ContractSymbol) (side : Side) (quantity : Z) (tag : string)
  (bar : VerifiedBar) : M B bool :=
  do (allowed, _) <- is_trade_allowed contract side quantity ;;
  if negb allowed then ret false
  else
  o <- lift (market_order contract side quantity tag bar) ;;
  place_order o ;;
  ret true.

Definition _flatten_on_flat (signal : Signal) (positions : list Position) (bar : VerifiedBar) : M B Z :=
  let net := _net_position positions (sg_contract signal) in
  if net =? 0 then ret 0
  else
  let close_side := if 0 <? net then SELL else BUY in
  placed <- gated_order (sg_contract signal) close_side (Z.abs net) (strategy_id signal) bar ;;
  ret (if placed : bool then 1 else 0).

Definition _apply_stop_loss (bar : VerifiedBar) (positions : list Position) : M B bool :=
  match List.find (fun p => String.eqb (p_contract p) (vb_contract bar) && negb (p_quantity p =? 0))
        positions, _stop_loss_pct eng with
  | Some pos, Some pct =>
    if dleb (p_avg_entry_price pos) d0 then ret false
    else
      adverse <- lift (if 0 <? p_quantity pos
                       then ddiv (dsub (p_avg_entry_price pos) (vb_close bar)) (p_avg_entry_price pos)
                       else ddiv (dsub (vb_close bar) (p_avg_entry_price pos)) (p_avg_entry_price pos)) ;;
      if dltb adverse pct then ret false
      else
        let close_side := if 0 <? p_quantity pos then SELL else BUY in
        gated_order (vb_contract bar) close_side (Z.abs (p_quantity pos)) "stop" bar
  | _, _ => ret false
  end.

(** ** The loop *)

(** 1. Fill the orders of prior bars against this one; roll; track the closes. *)
Definition fill_phase (bar : VerifiedBar) : M RunState unit :=
  events <- on_broker (bb_advance bar (_slippage eng)) ;;
  modify (fun s => set_counts (rs_signals s) (rs_orders s) (rs_fills s + Z.of_nat (length events))
                   (rs_capped s) (rs_rolls s) (rs_roll_cost s) s) ;;
  modify (fun s => set_marks (rs_history s) (dset (vb_contract bar) (vb_close bar) (rs_last_close s))
                   (rs_closes s) (rs_curve s) s) ;;
  do (rolled_n, roll_cost) <- on_broker (_execute_roll bar) ;;
  modify (fun s => set_counts (rs_signals s) (rs_orders s) (rs_fills s) (rs_capped s)
                   (rs_rolls s + rolled_n) (dadd (rs_roll_cost s) roll_cost) s) ;;
  (if _survival_gate eng
  then modify (fun s => set_marks (rs_history s) (rs_last_close s)
                (dset (vb_contract bar) (dget_or (vb_contract bar) [] (rs_closes s) ++ [vb_close bar])
                   (rs_closes s)) (rs_curve s) s)
  else ret tt).

(** 2. Mark to market at this bar's close. *)
Definition mark_phase (bar : VerifiedBar) : M RunState (list Position * decimal) :=
  metrics <- on_broker get_account_metrics ;;
  positions <- on_broker get_positions ;;
  s <- get ;;
  mtm_equity <- lift (_mark_to_market (am_equity metrics) positions (rs_last_close s)) ;;
  modify (fun s => set_marks (rs_history s ++ [bar]) (rs_last_close s) (rs_closes s)
                   (rs_curve s ++ [mtm_equity]) s) ;;
  ret (positions, mtm_equity).

(** 4-6. Size the signal through the hard gate, resolve the order, pass the trade gate, place it. *)
Definition order_phase (i : Z) (bar : VerifiedBar) (signal : Signal) (positions : list Position)
  (mtm_equity : decimal) : M RunState unit :=
  s <- get ;;
  do (returns, seed) <- lift (_survival_inputs (rs_closes s) (sg_contract signal) i) ;;
  decision <- lift (sizer_size (_risk eng) (sg_contract signal) (full_kelly_fraction signal)
                    mtm_equity (vb_close bar) returns seed) ;;
  (if bool_decide (binding_constraint decision = survival)
  then modify (fun s => set_counts (rs_signals s) (rs_orders s) (rs_fills s) (rs_capped s + 1)
                         (rs_rolls s) (rs_roll_cost s) s)
  else ret tt) ;;
  if contracts decision <=? 0 then ret tt
  else
  match _resolve_order decision signal positions with
  | None => ret tt
  | Some (side, quantity) =>
      placed <- on_broker (gated_order (sg_contract signal) side quantity (strategy_id signal) bar) ;;
      if placed : bool then add_orders 1 else ret tt
  end.

(** 3. Decide on this bar. *)
Definition decide_phase (i : Z) (bar : VerifiedBar) (positions : list Position) (mtm_equity : decimal)
  : M RunState unit :=
  if dleb mtm_equity d0 then ret tt
  else
  stopped <- match _stop_loss_pct eng with
             | Some _ => on_broker (_apply_stop_loss bar positions)
             | None => ret false
             end ;;
  if stopped : bool then add_orders 1
  else
    s <- get ;;
    emitted <- on_strategy (generate_signal (rs_history s) (_ctx eng)) ;;
    match emitted with
    | None => ret tt
    | Some signal =>
        modify (fun s => set_counts (rs_signals s + 1) (rs_orders s) (rs_fills s) (rs_capped s)
                           (rs_rolls s) (rs_roll_cost s) s) ;;
        if direction signal =? 0 then
          (if _target_position eng
           then n <- on_broker (_flatten_on_flat signal positions bar) ;; add_orders n
           else ret tt)
        else order_phase i bar signal positions mtm_equity
    end.

(** The body of the loop. *)
Definition run_bar (i : Z) (bar : VerifiedBar) : M RunState unit :=
  fill_phase bar ;;
  do (positions, mtm_equity) <- mark_phase bar ;;
  decide_phase i bar positions mtm_equity.

Fixpoint run_bars (i : Z) (bars : list VerifiedBar) : M RunState unit :=
  match bars with
  | [] => ret tt
  | bar :: rest => run_bar i bar ;; run_bars (i + 1) rest
  end.

Definition finish (n : Z) : M RunState RunResult :=
  final_metrics <- on_broker get_account_metrics ;;
  positions <- on_broker get_positions ;;
  s <- get ;;
  ret {| bars_processed := n; signals_generated := rs_signals s; orders_placed := rs_orders s;
       fills := rs_fills s; final_equity := List.last (rs_curve s) (am_equity final_metrics);
       realized_pnl := am_realized_pnl_today final_metrics; final_positions := positions;
       equity_curve := rs_curve s; survival_capped_bars := rs_capped s;
       rolls_executed := rs_rolls s; total_roll_cost := rs_roll_cost s;
       trade_pnls := bb_trade_pnls (rs_broker s) |}.

Definition run_loop (bars : list VerifiedBar) : M RunState RunResult :=
  run_bars 0 bars ;; finish (Z.of_nat (length bars)).

(** [BacktestEngine.run]: the broker and the strategy keep their state when the run raises. *)
Definition run (bars : list VerifiedBar) (b : B) (st : St) : RunState * result RunResult :=
  run_loop bars (init_state b st).
End Engine.

(** ** The brokers of the program behind the interface *)
#[global] Instance MockBroker_backtest : BacktestBroker MockBroker := {
  bb_advance _ _ bar slip := advance bar slip;
  bb_roll_position := roll_position;
  bb_trade_pnls := _trade_pnls;
  bb_positions s := sort_by (fun p q => String.leb (p_contract p) (p_contract q)) (dvalues (_positions s));
}.

#[global] Instance Prop_backtest : BacktestBroker PropAwareMockBroker := {
  bb_advance _ _ bar slip := inherited (advance bar slip);
  bb_roll_position f b pf pb := inherited (roll_position f b pf pb);
  bb_trade_pnls s := bb_trade_pnls (base s);
  bb_positions s := bb_positions (base s);
}.

(** Placing an order touches the book and the events only. *)
Lemma place_order_still o : steps still (Mock_place_order o).
Proof.
  intros s.
  enough (Hp : preserves (fun s' => _positions s' = _positions s ∧ _trade_pnls s' = _trade_pnls s)
                 (Mock_place_order o)).
  { destruct (Hp s (conj eq_refl eq_refl)) as [Hpos Ht]. unfold still. simpl. by rewrite Hpos, Ht. }
  unfold Mock_place_order, _emit_event, _now. cbv zeta.
  repeat first [apply pres_bind; [|intros ?] | apply pres_modify; by intros ? | auto with pres].
Qed.

#[global] Instance Mock_backtest_laws : BacktestBrokerLaws MockBroker.
Proof.
  constructor.
  - intros b b' r [= <- <-]. done.
  - intros b. done.
  - intros b. change get_account_metrics with Mock_get_account_metrics.
    unfold Mock_get_account_metrics, bind, get, lift. cbv zeta.
    destruct (if dltb d0 _ then _ else _); done.
  - intros c sd q b. change (is_trade_allowed c sd q) with (Mock_is_trade_allowed c sd q).
    unfold Mock_is_trade_allowed, bind, get. destruct (_ <=? _); [done|]. by destruct (_block_all_trades b).
  - intros o. apply place_order_still.
Qed.

#[global] Instance Prop_backtest_laws : BacktestBrokerLaws PropAwareMockBroker.
Proof.
  constructor.
  - intros b b' r [= <- <-]. done.
  - intros b. done.
  - intros b. destruct (metrics_still (B := MockBroker) (base b)) as [Hp Ht].
    change (get_account_metrics b) with (Prop_get_account_metrics b).
    unfold Prop_get_account_metrics, bind, inherited, _observe.
    change Mock_get_account_metrics with (get_account_metrics (B := MockBroker)).
    destruct (get_account_metrics (base b)) as [b' [m|e]]; split; simpl in *; done.
  - intros c sd q b. destruct (is_trade_allowed_cases c sd q b) as (s' & ok & r & E & Hb & _).
    change (is_trade_allowed c sd q b) with (Prop_is_trade_allowed c sd q b). rewrite E.
    unfold still. simpl. by rewrite Hb.
  - intros o b. destruct (place_still (B := MockBroker) o (base b)) as [Hp Ht].
    change (place_order o b) with (inherited (place_order (B := MockBroker) o) b). unfold inherited.
    destruct (place_order o (base b)) as [b' r]. split; simpl in *; done.
Qed.

(** ** Facts about the loop *)
Section EngineFacts.
Context {B SM R St Clock : Type} `{BacktestBrokerLaws B} `{SlippageModel SM} `{Sizer R}
  `{Strategy St Clock}.
Variable eng : BacktestEngine (SM := SM) (R := R) (Clock := Clock).

#[local] Notation RunState := (RunState (B := B) (St := St)).

(** Everything the decision part of a bar leaves alone. *)
Record framed (s s' : RunState) : Prop := {
  fr_history : rs_history s' = rs_history s;
  fr_last_close : rs_last_close s' = rs_last_close s;
  fr_closes : rs_closes s' = rs_closes s;
  fr_curve : rs_curve s' = rs_curve s;
  fr_fills : rs_fills s' = rs_fills s;
  fr_rolls : rs_rolls s' = rs_rolls s;
  fr_cost : rs_roll_cost s' = rs_roll_cost s;
  fr_still : still (rs_broker s) (rs_broker s');
}.

(** The counters move up by at most [a] signals, [b] orders and [c] survival caps. *)
Definition counts (a b c : Z) (s s' : RunState) : Prop :=
  framed s s' ∧ 0 <= rs_signals s' - rs_signals s <= a ∧ 0 <= rs_orders s' - rs_orders s <= b
  ∧ 0 <= rs_capped s' - rs_capped s <= c.

Definition steps_counts {A} (a b c : Z) (m : M RunState A) : Prop := forall s, counts a b c s (fst (m s)).

Lemma framed_refl s : framed s s.
Proof. by constructor. Qed.
Lemma framed_trans s1 s2 s3 : framed s1 s2 → framed s2 s3 → framed s1 s3.
Proof. intros [] []. constructor; try congruence. by etrans. Qed.

Lemma counts_refl a b c s : 0 <= a → 0 <= b → 0 <= c → counts a b c s s.
Proof. intros. split; [apply framed_refl|lia]. Qed.
Lemma counts_trans a b c a' b' c' s1 s2 s3 :
  counts a b c s1 s2 → counts a' b' c' s2 s3 → counts (a + a') (b + b') (c + c') s1 s3.
Proof. intros (F1 & ?) (F2 & ?). split; [by eapply framed_trans|lia]. Qed.

Lemma counts_weaken a b c a' b' c' s s' :
  counts a b c s s' → a <= a' → b <= b' → c <= c' → counts a' b' c' s s'.
Proof. intros (F & ?) ???. split; [done|lia]. Qed.

Lemma sc_bind {A A'} a b c a' b' c' (m : M RunState A) (k : A -> M RunState A') :
  0 <= a' → 0 <= b' → 0 <= c' →
  steps_counts a b c m → (forall x, steps_counts a' b' c' (k x)) →
  steps_counts (a + a') (b + b') (c + c') (bind m k).
Proof.
  intros Ha Hb Hc Hm Hk s. unfold bind. specialize (Hm s). destruct (m s) as [s1 [x|e]]; simpl in *.
  - eapply counts_trans; [exact Hm|apply Hk].
  - eapply counts_weaken; [exact Hm|lia..].
Qed.
Lemma sc_seq {A A'} a b c (m : M RunState A) (k : A -> M RunState A') :
  0 <= a → 0 <= b → 0 <= c →
  steps_counts 0 0 0 m → (forall x, steps_counts a b c (k x)) → steps_counts a b c (bind m k).
Proof. intros. by apply (sc_bind 0 0 0 a b c). Qed.
Lemma sc_ret {A} a b c (x : A) : 0 <= a → 0 <= b → 0 <= c → steps_counts a b c (ret x).
Proof. intros ??? s. by apply counts_refl. Qed.
Lemma sc_get : steps_counts 0 0 0 get.
Proof. intros s. by apply counts_refl. Qed.
Lemma sc_lift {A} (r : result A) : steps_counts 0 0 0 (lift r).
Proof. intros s. by apply counts_refl. Qed.
Lemma sc_broker {A} (m : M B A) : steps still m → steps_counts 0 0 0 (on_broker m).
Proof.
  intros Hm s. unfold on_broker. specialize (Hm (rs_broker s)). destruct (m (rs_broker s)) as [b r].
  split; [by constructor|simpl; lia].
Qed.
Lemma sc_strategy {A} (m : M St A) : steps_counts 0 0 0 (on_strategy m).
Proof.
  intros s. unfold on_strategy. destruct (m (rs_strategy s)) as [st r].
  split; [by constructor|simpl; lia].
Qed.
Lemma sc_add_orders n : 0 <= n → steps_counts 0 n 0 (add_orders n).
Proof. intros Hn s. split; [by constructor|simpl; lia]. Qed.

Lemma gated_order_still c sd q tag bar : steps still (gated_order (B := B) c sd q tag bar).
Proof.
  unfold gated_order. apply (steps_bind still); [apply gate_still|]. intros [allowed reason]. cbv zeta.
  destruct (negb allowed); [apply (steps_ret still)|].
  apply (steps_bind still); [apply (steps_lift still)|]. intros o.
  apply (steps_bind still); [apply place_still|]. intros _. apply (steps_ret still).
Qed.

Lemma flatten_still signal ps bar : steps still (_flatten_on_flat (B := B) signal ps bar).
Proof.
  unfold _flatten_on_flat. cbv zeta. destruct (_ =? 0); [apply (steps_ret still)|].
  apply (steps_bind still); [apply gated_order_still|]. intros placed. apply (steps_ret still).
Qed.

Lemma stop_loss_still bar ps : steps still (_apply_stop_loss (B := B) eng bar ps).
Proof.
  unfold _apply_stop_loss. destruct (List.find _ ps) as [pos|]; [|apply (steps_ret still)].
  destruct (_stop_loss_pct eng) as [pct|]; [|apply (steps_ret still)].
  destruct (dleb _ d0); [apply (steps_ret still)|].
  apply (steps_bind still); [apply (steps_lift still)|]. intros adverse.
  destruct (dltb adverse pct); [apply (steps_ret still)|]. apply gated_order_still.
Qed.

Lemma flatten_count signal ps bar b b' n :
  _flatten_on_flat (B := B) signal ps bar b = (b', Ok n) → 0 <= n <= 1.
Proof.
  unfold _flatten_on_flat. cbv zeta. destruct (_ =? 0); [intros [= <- <-]; lia|].
  intros (b1 & placed & _ & [= <- <-])%bind_Ok. destruct placed; lia.
Qed.

Lemma order_phase_counts i bar signal ps mtm :
  steps_counts 0 1 1 (order_phase eng i bar signal ps mtm).
Proof.
  unfold order_phase. apply sc_seq; [lia..|apply sc_get|]. intros s0.
  apply sc_seq; [lia..|apply sc_lift|]. intros [returns seed]. cbv zeta.
  apply sc_seq; [lia..|apply sc_lift|]. intros d.
  apply (sc_bind 0 0 1 0 1 0); [lia..| |].
  - destruct (bool_decide _); [|apply sc_ret; lia]. intros s. split; [by constructor|simpl; lia].
  - intros _. destruct (_ <=? 0); [apply sc_ret; lia|].
  destruct (_resolve_order _ _ _ _) as [[sd q]|]; [|apply sc_ret; lia].
  apply sc_seq; [lia..|apply sc_broker, gated_order_still|]. intros placed.
  destruct placed; [apply sc_add_orders; lia|apply sc_ret; lia].
Qed.

Lemma flat_exit_counts signal ps bar :
  steps_counts 0 1 0 (n <- on_broker (_flatten_on_flat signal ps bar) ;; add_orders n).
Proof.
  intros s. pose proof (sc_broker _ (flatten_still signal ps bar) s) as Hb. revert Hb.
  unfold bind. destruct (on_broker _ s) as [s1 [n|e]] eqn:E; simpl; intros Hb.
  - unfold on_broker in E. destruct (_flatten_on_flat _ _ _ _) as [b [m|]] eqn:Ef; [|done].
  injection E as <- <-. apply flatten_count in Ef.
  pose proof (sc_add_orders m ltac:(lia) (set_objects b (rs_strategy s) s)) as Ha.
  eapply counts_weaken; [eapply counts_trans; [exact Hb|exact Ha]|lia..].
  - eapply counts_weaken; [exact Hb|lia..].
Qed.

(** What the decision part of a bar does: at most one signal and one order, a survival count only
  with a signal, and the positions do not move. *)
Definition decided (s s' : RunState) : Prop :=
  counts 1 1 1 s s' ∧ rs_capped s' - rs_capped s <= rs_signals s' - rs_signals s.

Lemma decide_phase_decided i bar ps mtm : steps decided (decide_phase eng i bar ps mtm).
Proof.
  intros s. unfold decide_phase.
  assert (Hdone : forall s', counts 0 1 0 s s' → decided s s').
  { intros s' Hs. split; [eapply counts_weaken; [exact Hs|lia..]|]. destruct Hs as (_ & ? & _ & ?). lia. }
  destruct (dleb mtm d0); [apply Hdone, counts_refl; lia|].
  assert (Hstop : steps_counts 0 0 0 (match _stop_loss_pct eng with
  | Some _ => on_broker (_apply_stop_loss eng bar ps) | None => ret false end)).
  { destruct (_stop_loss_pct eng); [apply sc_broker, stop_loss_still|apply sc_ret; lia]. }
  specialize (Hstop s). unfold bind at 1. destruct (match _stop_loss_pct eng with _ => _ end s) as [s1 [stopped|e]];
  simpl in Hstop; [|apply Hdone; eapply counts_weaken; [exact Hstop|lia..]].
  destruct stopped.
  { apply Hdone. eapply counts_weaken; [eapply counts_trans; [exact Hstop|apply (sc_add_orders 1); lia]|lia..]. }
  unfold bind at 1, get. unfold bind at 1.
  pose proof (sc_strategy (generate_signal (rs_history s1) (_ctx eng)) s1) as Hst.
  destruct (on_strategy _ s1) as [s2 [[signal|]|e]]; simpl in Hst;
  pose proof (counts_trans _ _ _ _ _ _ _ _ _ Hstop Hst) as C2;
  [|apply Hdone; eapply counts_weaken; [exact C2|lia..]..].
  unfold bind at 1, modify.
  match goal with |- context [set_counts ?x _ _ _ _ _ ?y] => set (s3 := set_counts x _ _ _ _ _ y) end.
  assert (C3 : framed s s3 ∧ rs_signals s3 = rs_signals s + 1 ∧ rs_orders s3 = rs_orders s ∧ rs_capped s3 = rs_capped s).
  { destruct C2 as (F2 & ? & ? & ?). split; [eapply framed_trans; [exact F2|by constructor]|]. simpl. lia. }
  destruct C3 as (F3 & Hsig & Hord & Hcap). clearbody s3.
  assert (Hk : forall s', counts 0 1 1 s3 s' → decided s s').
  { intros s' (F & ? & ? & ?). split; [split; [by eapply framed_trans|lia]|lia]. }
  apply Hk. destruct (direction signal =? 0); [|apply order_phase_counts].
  destruct (_target_position eng); [|apply counts_refl; lia].
  eapply counts_weaken; [apply flat_exit_counts|lia..].
Qed.

Lemma on_broker_run {A} (m : M B A) (s : RunState) : exists b, on_broker m s = (set_objects b (rs_strategy s) s, snd (m (rs_broker s)))
  ∧ b = fst (m (rs_broker s)).
Proof. unfold on_broker. destruct (m (rs_broker s)) as [b r]. by exists b. Qed.

Lemma execute_roll_count bar b b' n cost : _execute_roll (B := B) eng bar b = (b', Ok (n, cost)) → 0 <= n <= 1.
Proof.
  unfold _execute_roll. destruct (_roll_by_date eng) as [|ev0 evs]; [intros [= <- <- <-]; lia|].
  destruct (dget _ _) as [ev|]; [|intros [= <- <- <-]; lia].
  intros (b1 & pre & _ & E)%bind_Ok. destruct (_ =? 0); [injection E as <- <- <-; lia|].
  apply bind_Ok in E as (b2 & rolled & _ & E). destruct (rolled =? 0); [injection E as <- <- <-; lia|].
  apply bind_Ok in E as (b3 & mult & _ & [= <- <- <-]). lia.
Qed.

(** What the first part of a bar leaves alone. *)
Record filled (s s' : RunState) : Prop := {
  fi_history : rs_history s' = rs_history s;
  fi_curve : rs_curve s' = rs_curve s;
  fi_strategy : rs_strategy s' = rs_strategy s;
  fi_signals : rs_signals s' = rs_signals s;
  fi_orders : rs_orders s' = rs_orders s;
  fi_capped : rs_capped s' = rs_capped s;
  fi_rolls : 0 <= rs_rolls s' - rs_rolls s <= 1;
  fi_fills : rs_fills s <= rs_fills s';
}.

Lemma fill_phase_filled bar : steps filled (fill_phase eng bar).
Proof.
  intros s. unfold fill_phase, bind at 1.
  destruct (on_broker_run (bb_advance bar (_slippage eng)) s) as (b & -> & _).
  destruct (snd _) as [events|e]; [|constructor; simpl; done || lia].
  unfold bind at 1, modify at 1. unfold bind at 1, modify at 1. unfold bind at 1.
  match goal with |- context [on_broker _ ?x] => set (s1 := x) end.
  assert (F1 : filled s s1) by (constructor; simpl; done || lia).
  assert (E1 : rs_rolls s1 = rs_rolls s) by done. clearbody s1.
  destruct (on_broker_run (_execute_roll eng bar) s1) as (b2 & -> & ->).
  destruct (_execute_roll eng bar (rs_broker s1)) as [b2 [[n cost]|e]] eqn:Er; cbn [fst snd];
  destruct F1; [|constructor; simpl; done || lia].
  apply execute_roll_count in Er. unfold bind at 1, modify at 1.
  destruct (_survival_gate eng); constructor; simpl; done || lia.
Qed.

(** The marking step: a point on the curve and a bar in the history when it returns. *)
Definition marked (bar : VerifiedBar) (s s' : RunState) (r : result (list Position * decimal)) : Prop :=
  still (rs_broker s) (rs_broker s') ∧ rs_strategy s' = rs_strategy s
  ∧ rs_last_close s' = rs_last_close s ∧ rs_closes s' = rs_closes s
  ∧ rs_signals s' = rs_signals s ∧ rs_orders s' = rs_orders s ∧ rs_capped s' = rs_capped s
  ∧ rs_rolls s' = rs_rolls s ∧ rs_fills s' = rs_fills s
  ∧ match r with
  | Ok (ps, mtm) => ps = bb_positions (rs_broker s') ∧ rs_curve s' = rs_curve s ++ [mtm]
                    ∧ rs_history s' = rs_history s ++ [bar]
  | Err _ => rs_curve s' = rs_curve s ∧ rs_history s' = rs_history s
  end.

Lemma mark_phase_marked bar s s' r : mark_phase bar s = (s', r) → marked bar s s' r.
Proof.
  unfold mark_phase, bind at 1, on_broker at 1. pose proof (metrics_still (rs_broker s)) as Hm.
  destruct (get_account_metrics (rs_broker s)) as [b [metrics|e]]; cbn [fst] in Hm;
  [|intros [= <- <-]; unfold marked; by split_and!].
  unfold bind at 1, on_broker at 1. cbn [rs_broker set_objects].
  pose proof (snapshot_still (B := B) b) as Hp. pose proof (positions_snapshot (B := B) b) as Hs.
  destruct (get_positions b) as [b2 [ps|e]]; cbn [fst] in *;
  assert (Hst : still (rs_broker s) b2) by (by etrans);
  [|intros [= <- <-]; unfold marked; by split_and!].
  unfold bind at 1, get. unfold bind at 1, lift.
  destruct (_mark_to_market _ _ _) as [m|e]; [|intros [= <- <-]; unfold marked; by split_and!].
  intros [= <- <-]. unfold marked. split_and!; try done. simpl. rewrite (Hs _ _ eq_refl). symmetry. apply Hp.
Qed.

(** One bar, returning: a curve point, a history entry, and bounded counters. *)
Record bar_done (bar : VerifiedBar) (s s' : RunState) : Prop := {
  bd_history : rs_history s' = rs_history s ++ [bar];
  bd_curve : length (rs_curve s') = S (length (rs_curve s));
  bd_signals : 0 <= rs_signals s' - rs_signals s <= 1;
  bd_orders : 0 <= rs_orders s' - rs_orders s <= 1;
  bd_rolls : 0 <= rs_rolls s' - rs_rolls s <= 1;
  bd_capped : 0 <= rs_capped s' - rs_capped s <= rs_signals s' - rs_signals s;
  bd_fills : rs_fills s <= rs_fills s';
}.

(** Whatever a bar does, what the loop recorded before it stays recorded. *)
Record extends (s s' : RunState) : Prop := {
  ex_history : exists l, rs_history s' = rs_history s ++ l;
  ex_curve : exists l, rs_curve s' = rs_curve s ++ l;
  ex_signals : rs_signals s <= rs_signals s';
  ex_orders : rs_orders s <= rs_orders s';
  ex_fills : rs_fills s <= rs_fills s';
  ex_rolls : rs_rolls s <= rs_rolls s';
}.

#[local] Instance extends_preorder : PreOrder extends.
Proof.
  split.
  - intros s. constructor; try lia; exists []; by rewrite app_nil_r.
  - intros a b c [[h1 Eh1] [c1 Ec1] ????] [[h2 Eh2] [c2 Ec2] ????].
  constructor; try lia; [exists (h1 ++ h2)|exists (c1 ++ c2)]; rewrite app_assoc; congruence.
Qed.

Lemma run_bar_cases i bar s s' r : run_bar eng i bar s = (s', r) →
  extends s s' ∧ match r with Ok _ => bar_done bar s s' | Err _ => True end.
Proof.
  unfold run_bar, bind at 1. pose proof (fill_phase_filled bar s) as Hf.
  destruct (fill_phase eng bar s) as [s1 [[]|e]]; cbn [fst] in Hf; destruct Hf as [fh fc _ fs fo fk fr ff].
  2: { intros [= <- <-]. split; [|done].
     constructor; try lia; exists []; rewrite app_nil_r; congruence. }
  unfold bind at 1. destruct (mark_phase bar s1) as [s2 [[ps mtm]|e]] eqn:Em;
  apply mark_phase_marked in Em as (_ & _ & _ & _ & ms & mo & mk & mr & mf & mrest).
  2: { intros [= <- <-]. destruct mrest as [mc mh]. split; [|done].
     constructor; try lia; exists []; rewrite app_nil_r; congruence. }
  cbv zeta beta. destruct mrest as (_ & mc & mh).
  pose proof (decide_phase_decided i bar ps mtm s2) as [(Fr & ds & dord & dk) Hk].
  intros E. rewrite E in *. cbn [fst] in *. destruct Fr as [gh _ _ gc gf gr _ _].
  split; [constructor; try lia; eexists; etrans; [exact gh| |exact gc|]; [rewrite mh, fh|rewrite mc, fc]; reflexivity|].
  destruct r as [u|e]; [|done]. constructor; try lia.
  - congruence.
  - rewrite gc, mc, length_app, fc. simpl. lia.
Qed.

Lemma run_bars_extends bars : forall i, steps extends (run_bars (St := St) eng i bars).
Proof.
  induction bars as [|bar bars IH]; intros i; simpl; [apply (steps_ret extends)|].
  apply (steps_bind extends); [|intros _; apply IH].
  intros s. destruct (run_bar eng i bar s) as [s' r] eqn:E. by apply run_bar_cases in E as [Hx _].
Qed.

Lemma run_bars_app l1 : forall l2 i s,
  run_bars (St := St) eng i (l1 ++ l2) s
  = bind (run_bars eng i l1) (fun _ => run_bars eng (i + Z.of_nat (length l1)) l2) s.
Proof.
  induction l1 as [|bar l1 IH]; intros l2 i s; simpl.
  - unfold bind, ret. by rewrite Z.add_0_r.
  - unfold bind at 1. unfold bind at 1, bind at 1. destruct (run_bar eng i bar s) as [s1 [[]|e]]; [|done].
  rewrite IH. unfold bind. replace (i + 1 + Z.of_nat (length l1)) with (i + Z.pos (Pos.of_succ_nat (length l1))) by lia.
  done.
Qed.

Lemma run_bars_done bars : forall i s s', run_bars eng i bars s = (s', Ok tt) →
  rs_history s' = rs_history s ++ bars ∧
  length (rs_curve s') = (length (rs_curve s) + length bars)%nat ∧
  0 <= rs_signals s' - rs_signals s <= Z.of_nat (length bars) ∧
  0 <= rs_orders s' - rs_orders s <= Z.of_nat (length bars) ∧
  0 <= rs_rolls s' - rs_rolls s <= Z.of_nat (length bars) ∧
  0 <= rs_capped s' - rs_capped s <= rs_signals s' - rs_signals s ∧
  rs_fills s <= rs_fills s'.
Proof.
  induction bars as [|bar bars IH]; intros i s s'; simpl.
  - intros [= <-]. rewrite app_nil_r. split_and!; try done; lia.
  - intros (s1 & [] & E & Er)%bind_Ok. apply run_bar_cases in E as [_ D]. destruct D.
  apply IH in Er as (Hh & ? & ? & ? & ? & ? & ?). split_and!; try lia.
  by rewrite Hh, bd_history0, <- app_assoc.
Qed.

Lemma finish_same n (s : RunState) : exists b, fst (finish n s) = set_objects b (rs_strategy s) s.
Proof.
  unfold finish, bind at 1, on_broker at 1. destruct (get_account_metrics _) as [b [m|e]]; [|by exists b].
  unfold bind at 1, on_broker at 1. destruct (get_positions _) as [b2 [ps|e]]; by exists b2.
Qed.

(** ** Theorems *)

(** C1: no look-ahead.  What the engine has recorded after any prefix of the bars - its history,
  equity curve and counters - does not depend on the bars that follow: with any continuation the
  run ends in a state that extends the prefix's own, or, when the prefix already raised, in that
  very state and error.  After a prefix that returned, the strategy's history is exactly the
  prefix and the curve has one point per bar of it. *)
Theorem run_no_lookahead past future b st s1 r :
  run_bars eng 0 past (init_state b st) = (s1, r) →
  match r with
  | Ok _ => rs_history s1 = past ∧ length (rs_curve s1) = length past ∧
            extends s1 (fst (run eng (past ++ future) b st))
  | Err e => run eng (past ++ future) b st = (s1, Err e)
  end.
Proof.
  intros E. unfold run, run_loop. unfold bind. rewrite run_bars_app. unfold bind. rewrite E.
  destruct r as [[]|e]; [|done].
  apply run_bars_done in E as (Hh & Hc & _). split; [exact Hh|]. split; [exact Hc|].
  pose proof (run_bars_extends future (0 + Z.of_nat (length past)) s1) as Hx.
  destruct (run_bars eng (0 + Z.of_nat (length past)) future s1) as [s2 [u|e]]; [|exact Hx].
  etrans; [exact Hx|]. destruct (finish_same (Z.of_nat (length (past ++ future))) s2) as [b' ->].
  simpl. constructor; simpl; try lia; exists []; by rewrite app_nil_r.
Qed.

(** the run's accounting.  A run that returns has processed every bar and marked each one: the
  equity curve has one point per bar and the final equity is the last of them.  It places at most
  one order, emits at most one signal and executes at most one roll per bar, counts a survival cap
  only on a signal, and reports the broker's own positions. *)
Theorem run_accounting bars b st s' r :
  run eng bars b st = (s', Ok r) →
  bars_processed r = Z.of_nat (length bars) ∧ length (equity_curve r) = length bars ∧
  (bars ≠ [] → List.last (equity_curve r) d0 = final_equity r) ∧
  0 <= signals_generated r <= Z.of_nat (length bars) ∧
  0 <= orders_placed r <= Z.of_nat (length bars) ∧
  0 <= rolls_executed r <= Z.of_nat (length bars) ∧
  0 <= survival_capped_bars r <= signals_generated r ∧ 0 <= fills r ∧
  final_positions r = bb_positions (rs_broker s') ∧ trade_pnls r = bb_trade_pnls (rs_broker s').
Proof.
  unfold run, run_loop. intros (s1 & [] & E & Ef)%bind_Ok.
  apply run_bars_done in E as (Hh & Hc & Hs & Ho & Hr & Hk & Hf). simpl in *.
  unfold finish in Ef. apply bind_Ok in Ef as (s2 & metrics & Em & Ef).
  apply bind_Ok in Ef as (s3 & ps & Ep & Ef). apply bind_Ok in Ef as (s4 & s5 & [= <- <-] & [= <- <-]).
  unfold on_broker in Em, Ep. destruct (get_account_metrics (rs_broker s1)) as [b1 rm]. injection Em as <- ->.
  cbn [rs_broker set_objects] in Ep. pose proof (positions_snapshot (B := B) b1) as Hsnap.
  pose proof (snapshot_still (B := B) b1) as Hst. destruct (get_positions b1) as [b2 rp]. injection Ep as <- ->.
  simpl in *. split_and!; try done; try lia.
  - intros Hne. destruct (rs_curve s1) as [|x l] eqn:El; [destruct bars; done|].
  clear. revert x. induction l as [|y l IH]; intros x; [done|]. apply (IH y).
  - rewrite (Hsnap _ _ eq_refl). symmetry. apply Hst.
Qed.

(** C2: an order decided on a bar fills no earlier than the next bar's [advance].  Once a bar's fills
  and rolls are done, the rest of the bar - marking, deciding, placing - moves no position and
  closes no trade, whatever the strategy, the sizer and the gate do and even when they raise. *)
Theorem orders_fill_on_a_later_bar i bar s s1 :
  fill_phase eng bar s = (s1, Ok tt) →
  still (rs_broker s1) (rs_broker (fst (run_bar eng i bar s))).
Proof.
  intros Ef. unfold run_bar, bind at 1. rewrite Ef. unfold bind.
  destruct (mark_phase bar s1) as [s2 [[ps mtm]|e]] eqn:Em; apply mark_phase_marked in Em as (Hst & _); [|done].
  etrans; [exact Hst|]. by destruct (decide_phase_decided i bar ps mtm s2) as [[[] _] _].
Qed.

(** a ruined account trades nothing.  On a bar that marks the account to zero or less, the run
  keeps marking but consults neither the stop, the strategy nor the sizer: the bar ends in exactly
  the state the marking left, with the curve extended by that equity and no order, signal or
  strategy step. *)
Theorem ruined_account_only_marks i bar s s1 s2 ps mtm :
  fill_phase eng bar s = (s1, Ok tt) → mark_phase bar s1 = (s2, Ok (ps, mtm)) →
  dcoef mtm <= 0 →
  run_bar eng i bar s = (s2, Ok tt) ∧ rs_curve s2 = rs_curve s ++ [mtm] ∧
  rs_orders s2 = rs_orders s ∧ rs_signals s2 = rs_signals s ∧ rs_strategy s2 = rs_strategy s.
Proof.
  intros Ef Em Hm. pose proof (fill_phase_filled bar s) as Hf. rewrite Ef in Hf. destruct Hf as [_ fc fst_ fs fo _ _ _].
  split.
  - unfold run_bar, bind. rewrite Ef, Em. unfold decide_phase. rewrite dleb_0_r.
  apply Z.leb_le in Hm. by rewrite Hm.
  - apply mark_phase_marked in Em as (_ & mst & _ & _ & ms & mo & _ & _ & _ & _ & mc & _).
  simpl in *. split_and!; congruence.
Qed.

(** target-position netting trades exactly the difference.  With netting on, the order resolved
  for a signal brings the net position in its contract to the gate-capped size with the signal's
  sign, and there is no order exactly when the position is already there; with netting off the
  whole sized clip is traded.  Either way the quantity is positive. *)
Theorem resolve_order_target decision signal ps :
  0 < contracts decision → direction signal ≠ 0 →
  let target := if 0 <? direction signal then contracts decision else - contracts decision in
  match _resolve_order eng decision signal ps with
  | Some (side, q) =>
      0 < q ∧ (if _target_position eng
               then _net_position ps (sg_contract signal) + signed_qty side q = target
               else signed_qty side q = target)
  | None => _target_position eng = true ∧ _net_position ps (sg_contract signal) = target
  end.
Proof.
  intros Hc Hd target. subst target. unfold _resolve_order. destruct (_target_position eng).
  - set (target := if 0 <? direction signal then _ else _). cbv zeta.
  destruct (Z.eqb_spec (target - _net_position ps (sg_contract signal)) 0); [split; [done|lia]|].
  destruct (Z.ltb_spec 0 (target - _net_position ps (sg_contract signal))); simpl; lia.
  - destruct (0 <? direction signal); simpl; lia.
Qed.

(** the stop-loss.  When the overlay fires on a bar it has placed one market order, in the bar's
  own contract, for a held position whose adverse move from its average entry - for a long, the
  fall; for a short, the rise - is at least the stop fraction, and that order is for exactly the
  opposite of the held quantity, so its fill leaves the position flat. *)
Theorem stop_loss_flattens bar ps b b' :
  _apply_stop_loss (B := B) eng bar ps b = (b', Ok true) →
  exists pos pct adverse o b1 id,
    In pos ps ∧ p_contract pos = vb_contract bar ∧ p_quantity pos ≠ 0 ∧
    _stop_loss_pct eng = Some pct ∧
    ddiv (if 0 <? p_quantity pos then dsub (p_avg_entry_price pos) (vb_close bar)
          else dsub (vb_close bar) (p_avg_entry_price pos)) (p_avg_entry_price pos) = Ok adverse ∧
    (dval pct <= dval adverse)%Q ∧
    place_order o b1 = (b', Ok id) ∧ still b b1 ∧
    o_contract o = vb_contract bar ∧ o_order_type o = MKT ∧
    p_quantity pos + signed_qty (o_side o) (o_quantity o) = 0.
Proof.
  unfold _apply_stop_loss. destruct (List.find _ ps) as [pos|] eqn:Ep; [|done].
  apply List.find_some in Ep as [Hin [Hc%String.eqb_eq Hq%negb_true_iff]%andb_true_iff].
  apply Z.eqb_neq in Hq. destruct (_stop_loss_pct eng) as [pct|]; [|done].
  destruct (dleb _ d0); [done|]. intros (b0 & adverse & [-> Ha]%lift_Ok & E)%bind_Ok.
  destruct (dltb adverse pct) eqn:Elt; [done|]. cbv zeta in E. unfold gated_order in E.
  apply bind_Ok in E as (b1 & [allowed reason] & Eg & E). cbv zeta in E.
  destruct (negb allowed); [done|]. apply bind_Ok in E as (b2 & o & [-> Eo]%lift_Ok & E).
  apply bind_Ok in E as (b3 & id & Epl & [= <-]).
  apply Order_post_init_Ok in Eo as [-> _].
  pose proof (gate_still (B := B) (vb_contract bar) (if 0 <? p_quantity pos then SELL else BUY) (Z.abs (p_quantity pos)) b0) as Hst.
  rewrite Eg in Hst.
  do 6 eexists. split_and!; [exact Hin|exact Hc|exact Hq|reflexivity| |by apply dltb_false in Elt|exact Epl|exact Hst|done|done|].
  - by destruct (0 <? p_quantity pos).
  - simpl. destruct (Z.ltb_spec 0 (p_quantity pos)); simpl; lia.
Qed.
End EngineFacts.

(** ** The engine over [MockBroker] *)
Section OverMock.
Context {SM R St Clock : Type} `{SlippageModel SM} `{Sizer R} `{Strategy St Clock}.
Variable eng : BacktestEngine (SM := SM) (R := R) (Clock := Clock).

(** The broker has been driven by a sequence of its own valid operations. *)
Definition driven (b b' : MockBroker) : Prop :=
  exists ops, Forall op_valid ops ∧ b' = run_ops (_slippage eng) ops b.

Lemma run_ops_app ops1 : forall ops2 b,
  run_ops (_slippage eng) (ops1 ++ ops2) b = run_ops (_slippage eng) ops2 (run_ops (_slippage eng) ops1 b).
Proof. induction ops1 as [|op ops1 IH]; intros ops2 b; simpl; [done|]. apply IH. Qed.

#[local] Instance driven_preorder : PreOrder driven.
Proof.
  split; [intros b; by exists []|]. intros a b c (o1 & V1 & ->) (o2 & V2 & ->).
  exists (o1 ++ o2). split; [by apply Forall_app|]. by rewrite run_ops_app.
Qed.

Lemma driven_op {A} op (m : M MockBroker A) : op_valid op →
  (forall b, fst (m b) = fst (run_op (_slippage eng) op b)) → steps driven m.
Proof. intros Hv Hm b. exists [op]. split; [by constructor|]. apply Hm. Qed.

Lemma driven_same {A} (m : M MockBroker A) : (forall b, fst (m b) = b) → steps driven m.
Proof. intros Hm b. rewrite Hm. reflexivity. Qed.

Lemma snapshot_same b : fst (get_positions (B := MockBroker) b) = b.
Proof. done. Qed.
Lemma metrics_same b : fst (get_account_metrics (B := MockBroker) b) = b.
Proof.
  change (fst (Mock_get_account_metrics b) = b). unfold Mock_get_account_metrics, bind, get, lift. cbv zeta.
  by destruct (if dltb d0 _ then _ else _).
Qed.
Lemma gate_same c sd q b : fst (is_trade_allowed (B := MockBroker) c sd q b) = b.
Proof.
  change (fst (Mock_is_trade_allowed c sd q b) = b). unfold Mock_is_trade_allowed, bind, get.
  destruct (_ <=? _); [done|]. by destruct (_block_all_trades b).
Qed.

Lemma place_driven o : Order_wf o → steps driven (place_order o).
Proof. intros Ho. apply (driven_op (OpPlace o)); [exact Ho|]. intros b. simpl. by rewrite fst_bind_ret. Qed.

Lemma gated_driven c sd q tag bar : steps driven (gated_order c sd q tag bar).
Proof.
  unfold gated_order. apply (steps_bind driven); [apply driven_same; intros; apply gate_same|].
  intros [allowed reason]. cbv zeta. destruct (negb allowed); [apply (steps_ret driven)|].
  intros b. unfold bind, lift. destruct (market_order c sd q tag bar) as [o|e] eqn:Eo; [|reflexivity].
  apply Order_post_init_Ok in Eo as [-> Ho].
  pose proof (place_driven _ Ho) as Hp. specialize (Hp b). by destruct (place_order _ b) as [b1 [id|e]].
Qed.

Lemma flatten_driven signal ps bar : steps driven (_flatten_on_flat signal ps bar).
Proof.
  unfold _flatten_on_flat. cbv zeta. destruct (_ =? 0); [apply (steps_ret driven)|].
  apply (steps_bind driven); [apply gated_driven|]. intros placed. apply (steps_ret driven).
Qed.

Lemma stop_driven bar ps : steps driven (_apply_stop_loss eng bar ps).
Proof.
  unfold _apply_stop_loss. destruct (List.find _ ps) as [pos|]; [|apply (steps_ret driven)].
  destruct (_stop_loss_pct eng) as [pct|]; [|apply (steps_ret driven)].
  destruct (dleb _ d0); [apply (steps_ret driven)|].
  apply (steps_bind driven); [apply (steps_lift driven)|]. intros adverse.
  destruct (dltb adverse pct); [apply (steps_ret driven)|]. apply gated_driven.
Qed.

Lemma execute_roll_driven bar : steps driven (_execute_roll eng bar).
Proof.
  unfold _execute_roll. destruct (_roll_by_date eng) as [|ev0 evs] eqn:Eev; [apply (steps_ret driven)|].
  destruct (dget _ _) as [ev|] eqn:Ed; [|apply (steps_ret driven)].
  apply (steps_bind driven); [apply driven_same; intros; apply snapshot_same|]. intros pre.
  destruct (_ =? 0); [apply (steps_ret driven)|].
  apply (steps_bind driven).
  { apply (driven_op (OpRoll (old_contract ev) (new_contract ev) (front_settle ev) (back_settle ev))); [exact I|].
  intros b. simpl. by rewrite fst_bind_ret. }
  intros rolled. destruct (rolled =? 0); [apply (steps_ret driven)|].
  apply (steps_bind driven); [apply (steps_lift driven)|]. intros mult. apply (steps_ret driven).
Qed.

(** The same of the engine's state. *)
Definition rs_driven (s s' : RunState (B := MockBroker) (St := St)) : Prop :=
  driven (rs_broker s) (rs_broker s').

#[local] Instance rs_driven_preorder : PreOrder rs_driven.
Proof. split; [intros s; unfold rs_driven; reflexivity|]. intros a b c P Q. unfold rs_driven in *. by etrans. Qed.

Lemma rd_broker {A} (m : M MockBroker A) : steps driven m → steps rs_driven (on_broker m).
Proof.
  intros Hm s. unfold on_broker. specialize (Hm (rs_broker s)). by destruct (m (rs_broker s)) as [b r].
Qed.
Lemma rd_strategy {A} (m : M St A) : steps rs_driven (on_strategy m).
Proof.
  intros s. unfold on_strategy. destruct (m (rs_strategy s)) as [st r]. unfold rs_driven. simpl. reflexivity.
Qed.
Lemma rd_modify f : (forall s, rs_broker (f s) = rs_broker s) → steps rs_driven (modify f).
Proof. intros Hf s. unfold rs_driven. simpl. rewrite Hf. reflexivity. Qed.

#[local] Ltac rd :=
  repeat first
  [ apply (steps_ret rs_driven) | apply (steps_lift rs_driven) | apply (steps_get rs_driven)
  | apply rd_modify; by intros ? | apply rd_strategy
  | apply rd_broker; first [ apply gated_driven | apply flatten_driven | apply stop_driven
                           | apply execute_roll_driven
                           | apply driven_same; intros; first [apply metrics_same | apply snapshot_same] ]
  | apply (steps_bind rs_driven); [|intros ?]
  | match goal with |- steps _ (match ?x with _ => _ end) => destruct x end ].

Lemma fill_phase_driven bar : steps rs_driven (fill_phase eng bar).
Proof.
  unfold fill_phase. apply (steps_bind rs_driven).
  { apply rd_broker, (driven_op (OpAdvance bar)); [done|]. intros b. simpl. by rewrite fst_bind_ret. }
  intros evs. rd.
Qed.

Lemma decide_phase_driven i bar ps mtm : steps rs_driven (decide_phase eng i bar ps mtm).
Proof.
  unfold decide_phase, order_phase, add_orders. cbv zeta. rd.
Qed.

Lemma run_bars_driven bars : forall i, steps rs_driven (run_bars eng i bars).
Proof.
  induction bars as [|bar bars IH]; intros i; simpl; [rd|].
  apply (steps_bind rs_driven); [|intros _; apply IH]. unfold run_bar.
  apply (steps_bind rs_driven); [apply fill_phase_driven|]. intros _.
  apply (steps_bind rs_driven); [unfold mark_phase; rd|]. intros [ps mtm]. apply decide_phase_driven.
Qed.

(** C3: the engine drives the broker only through the broker's own operations.  Whatever the
  strategy, the sizer, the options, the roll map and the bars are, and whether the run returns or
  raises, the broker a run over [MockBroker] leaves behind is the result of a sequence of broker
  operations whose placed orders all passed the checks of [Order], so the broker's invariant holds
  of it when the run started on a new broker whose clock reads UTC. *)
Theorem run_refines_broker_ops equity acct blk restrict clk b0 bars st :
  new_MockBroker equity acct blk restrict clk = Ok b0 → (forall n, dt_off (clk n) = Some 0) →
  let b := rs_broker (fst (run eng bars b0 st)) in
  (exists ops, Forall op_valid ops ∧ b = run_ops (_slippage eng) ops b0) ∧ mock_wf b.
Proof.
  intros Hnew Hclk b.
  assert (Hd : driven b0 b).
  { assert (Hs : steps rs_driven (run_loop eng bars)).
  { unfold run_loop. apply (steps_bind rs_driven); [apply run_bars_driven|]. intros _. unfold finish. rd. }
  exact (Hs (init_state b0 st)). }
  destruct Hd as (ops & Hops & ->). split; [by exists ops|].
  apply new_MockBroker_wf in Hnew as [Hwf _]; [|done].
  clear -Hops Hwf. revert b0 Hwf. induction Hops as [|op ops Hop Hops IH]; intros b0 Hwf; [done|].
  apply IH. by apply run_op_wf.
Qed.
End OverMock.

(** ** Witnesses: a strategy that is always long, over three bars

    The strategy, the C library and the generator are parameters; these instances are for the
    witnesses only. *)
#[local] Instance toy_libm : Libm := { log x := x; log10 x := x; pow x y := x }.
#[local] Instance toy_random : PyRandom := {
  rng := Z; rng_seed s := match s with Some n => n | None => 0 end;
  randrange g n := (g + 1, g mod n); random g := (g + 1, f_zero) }.

Definition wit_signal : Signal := {|
  sg_contract := "MNQM26"; sg_ts := DT 0 (Some 0); strategy_id := "long"; direction := 1;
  full_kelly_fraction := Dec 12 0; confidence := d1 |}.

(** The strategy counts its calls. *)
#[local] Instance always_long : Strategy nat unit := {
  generate_signal history ctx := modify S ;; ret (Some wit_signal) }.

Definition wit_engine (target : bool) (stop : option decimal)
    : BacktestEngine (SM := TickHaircutSlippageModel) (R := RiskManager StaticMarginSource) (Clock := unit) := {|
  _ctx := {| mode := BACKTEST; verifier_policy := wit_policy; clock := tt; degraded_mode_allowed := false |};
  _risk := default_RiskManager; _slippage := None; _survival_gate := false; _survival_seed := 0;
  _target_position := target; _roll_by_date := []; _stop_loss_pct := stop |}.

Definition wit_bars : list VerifiedBar := map (wit_vbar "MNQM26") [15000; 15010; 15020].
Definition wit_run target bars := run (wit_engine target None) bars wit_broker 0%nat.

Lemma run_no_lookahead_witness : exists s1,
  run_bars (wit_engine true None) 0 (firstn 2 wit_bars) (init_state wit_broker 0%nat) = (s1, Ok tt) ∧
  length (rs_curve s1) = 2%nat ∧ extends s1 (fst (run (wit_engine true None) (firstn 2 wit_bars ++ skipn 2 wit_bars) wit_broker 0%nat)).
Proof.
  eexists. run_as E.
  destruct (run_no_lookahead (wit_engine true None) (firstn 2 wit_bars) (skipn 2 wit_bars)
              wit_broker 0%nat _ _ E) as (_ & Hlen & Hx).
  split; [exact Hlen|exact Hx].
Defined.

Lemma run_accounting_witness : exists s' r,
  run (wit_engine true None) wit_bars wit_broker 0%nat = (s', Ok r) ∧ length (equity_curve r) = 3%nat ∧
  0 <= orders_placed r <= 3.
Proof.
  eexists _, _. run_as E.
  destruct (run_accounting (wit_engine true None) wit_bars wit_broker 0%nat _ _ E)
    as (_ & Hlen & _ & _ & Ho & _).
  split; [exact Hlen|exact Ho].
Defined.

(** The state after the first bar and the fills of the second. *)
Definition wit_after_one : RunState (B := MockBroker) (St := nat) :=
  fst (run_bars (wit_engine true None) 0 (firstn 1 wit_bars) (init_state wit_broker 0%nat)).

Lemma orders_fill_on_a_later_bar_witness : exists s1,
  fill_phase (wit_engine true None) (wit_vbar "MNQM26" 15010) wit_after_one = (s1, Ok tt) ∧
  still (rs_broker s1)
        (rs_broker (fst (run_bar (wit_engine true None) 1 (wit_vbar "MNQM26" 15010) wit_after_one))).
Proof.
  eexists. run_as E.
  exact (orders_fill_on_a_later_bar (wit_engine true None) 1 (wit_vbar "MNQM26" 15010) wit_after_one _ E).
Defined.

(** A bar so low that the account marks below zero. *)
Definition crash : VerifiedBar := {|
  vb_contract := "MNQM26"; vb_ts := DT 0 (Some 0); vb_resolution := DAY_1; vb_open := dec_of_Z 15000;
  vb_high := dec_of_Z 15000; vb_low := dec_of_Z 1; vb_close := dec_of_Z 1; vb_volume := 1;
  vb_n_sources_agreed := 1; vb_source_provenance_hashes := []; vb_verifier_run_hash := "";
  vb_prev_bar_hash := None; vb_tier_used := T2_BROKER; vb_policy_id := "p" |}.

Lemma ruined_account_only_marks_witness : exists s1 s2 ps mtm,
  fill_phase (wit_engine true None) crash wit_after_one = (s1, Ok tt) ∧
  mark_phase (St := nat) crash s1 = (s2, Ok (ps, mtm)) ∧
  run_bar (wit_engine true None) 1 crash wit_after_one = (s2, Ok tt).
Proof.
  eexists _, _, _, _. run_as Ef. run_as Em.
  destruct (ruined_account_only_marks (wit_engine true None) 1 crash wit_after_one _ _ _ _ Ef Em
              ltac:(vm_compute; discriminate)) as [Hrun _].
  exact Hrun.
Defined.

Definition wit_sizing (n : Z) : SizingDecision := {|
  contracts := n; binding_constraint := kelly; kelly_contracts := n; margin_contracts := n;
  leverage_contracts := n; notional_per_contract := d1; margin_per_contract := d1;
  survival_contracts := None |}.

Lemma resolve_order_target_witness : exists side q,
  _resolve_order (wit_engine true None) (wit_sizing 2) wit_signal [wit_pos "MNQM26" 5] = Some (side, q) ∧
  0 < q ∧ _net_position [wit_pos "MNQM26" 5] "MNQM26" + signed_qty side q = 2.
Proof.
  pose proof (resolve_order_target (wit_engine true None) (wit_sizing 2) wit_signal [wit_pos "MNQM26" 5]
                eq_refl ltac:(discriminate)) as H.
  exists SELL, 3. split; [vm_compute; reflexivity|].
  assert (E : _resolve_order (wit_engine true None) (wit_sizing 2) wit_signal [wit_pos "MNQM26" 5] = Some (SELL, 3))
    by (vm_compute; reflexivity).
  rewrite E in H. exact H.
Defined.

Lemma stop_loss_flattens_witness : exists b' pos o b1 id,
  _apply_stop_loss (wit_engine true (Some (Dec 1 (-2)))) (wit_vbar "MNQM26" 10000)
    [wit_pos "MNQM26" 1] wit_long = (b', Ok true) ∧
  place_order (B := MockBroker) o b1 = (b', Ok id) ∧
  p_quantity pos + signed_qty (o_side o) (o_quantity o) = 0.
Proof.
  assert (E : exists b', _apply_stop_loss (wit_engine true (Some (Dec 1 (-2)))) (wit_vbar "MNQM26" 10000)
    [wit_pos "MNQM26" 1] wit_long = (b', Ok true)) by (eexists; vm_compute; reflexivity).
  destruct E as [b' E].
  destruct (stop_loss_flattens (wit_engine true (Some (Dec 1 (-2)))) (wit_vbar "MNQM26" 10000)
              [wit_pos "MNQM26" 1] wit_long b' E)
    as (pos & pct & adverse & o & b1 & id & _ & _ & _ & _ & _ & _ & Hp & _ & _ & _ & Hz).
  exists b', pos, o, b1, id. split; [exact E|]. split; [exact Hp|exact Hz].
Defined.

Definition wit_new_broker : result MockBroker := new_MockBroker (Dec 50000 0) "A" false None wit_clock.

(** Three daily bars: the long of the first bar's signal fills on the second and rolls into the
    September contract on the third. *)
Definition wit_dated (d : Z) (c : ContractSymbol) (px : Z) : VerifiedBar := {|
  vb_contract := c; vb_ts := DT (d * us_per_day) (Some 0); vb_resolution := DAY_1;
  vb_open := dec_of_Z px; vb_high := dec_of_Z (px + 10); vb_low := dec_of_Z (px - 10);
  vb_close := dec_of_Z px; vb_volume := 1; vb_n_sources_agreed := 1;
  vb_source_provenance_hashes := []; vb_verifier_run_hash := ""; vb_prev_bar_hash := None;
  vb_tier_used := T2_BROKER; vb_policy_id := "p" |}.

Definition wit_dated_bars : list VerifiedBar :=
  [wit_dated 0 "MNQM26" 15000; wit_dated 1 "MNQM26" 15010; wit_dated 2 "MNQU26" 15120].

Definition wit_roll_engine
    : BacktestEngine (SM := TickHaircutSlippageModel) (R := RiskManager StaticMarginSource) (Clock := unit) := {|
  _ctx := {| mode := BACKTEST; verifier_policy := wit_policy; clock := tt; degraded_mode_allowed := false |};
  _risk := default_RiskManager; _slippage := None; _survival_gate := false; _survival_seed := 0;
  _target_position := true; _stop_loss_pct := None;
  _roll_by_date := [(2, {| roll_date := 2; old_contract := "MNQM26"; new_contract := "MNQU26";
                           front_settle := dec_of_Z 15020; back_settle := dec_of_Z 15120;
                           roll_gap := dec_of_Z 100 |})] |}.

Lemma run_refines_broker_ops_witness : exists b0, wit_new_broker = Ok b0 ∧
  let s := fst (run wit_roll_engine wit_dated_bars b0 0%nat) in
  rs_rolls s = 1 ∧ net (rs_broker s) "MNQM26" = 0 ∧ 0 < net (rs_broker s) "MNQU26" ∧
  mock_wf (rs_broker s).
Proof.
  eexists. split; [vm_compute; reflexivity|]. cbv zeta. split; [vm_compute; reflexivity|].
  split; [vm_compute; reflexivity|]. split; [vm_compute; reflexivity|].
  eapply (run_refines_broker_ops wit_roll_engine (Dec 50000 0) "A" false None wit_clock _
            wit_dated_bars 0%nat); [vm_compute; reflexivity|done].
Defined.
