(* ===== verification/Portfolio.v ===== *)
(** * futur3/engine/portfolio_backtest.py: the cross-sectional backtest engine

    One account, a set of streams, one step per date.  The engine's state is a record threaded
    through the dates, over the broker interface of [Backtest] (the source's broker is a
    [MockBroker]), a [Sizer] and a [CrossSectionalStrategy].  A stream's key is the ranking id; a
    bar's own contract is what is traded. *)

From Stdlib Require Import QArith.
From S2P Require Import Prelude PyDecimal PyText PyTime Types Broker PyFloat Survival RiskManager Slippage Verifier Policies MockBroker PropBroker Calendar Roll Continuous VolParity Strategy Backtest.

#[local] Open Scope Z_scope.

(** [l[i:]] *)
Definition slice_from {A} (i : Z) (l : list A) : list A :=
  drop (Z.to_nat (if i <? 0 then Z.max 0 (Z.of_nat (length l) + i) else i)) l.

(** [closes[i] / closes[i-1] - 1] *)
Fixpoint simple_returns (closes : list decimal) : result (list decimal) :=
  match closes with
  | prev :: (cur :: _) as rest =>
      let! q := ddiv cur prev in
      let! rs := simple_returns rest in
      Ok (dsub q d1 :: rs)
  | _ => Ok []
  end.

Definition _trailing_returns (bars : list VerifiedBar) (lookback : Z) : result (list decimal) :=
  simple_returns (map vb_close (slice_from (- (lookback + 1)) bars)).

(** ** The date axis *)

(** [(b.ts.date(), str(key), key, b)], sorted by its first two components; [str(key)] is the key. *)
Definition indexed_bar : Type := date * (ContractSymbol * VerifiedBar).

Definition indexed_leb (x y : indexed_bar) : bool :=
  (fst x <? fst y) || ((fst x =? fst y) && String.leb (fst (snd x)) (fst (snd y))).

Definition stream_bars (kb : ContractSymbol * list VerifiedBar) : list indexed_bar :=
  map (fun b => (dt_date (vb_ts b), (fst kb, b))) (snd kb).

Definition indexed (histories : dict ContractSymbol (list VerifiedBar)) : list indexed_bar :=
  sort_by indexed_leb (flat_map stream_bars histories).

(** [itertools.groupby] on the date: runs of equal dates. *)
Fixpoint groupby {X} (l : list (date * X)) : list (date * list X) :=
  match l with
  | [] => []
  | (d, x) :: rest =>
      match groupby rest with
      | (d', g) :: gs => if d =? d' then (d, x :: g) :: gs else (d, [x]) :: (d', g) :: gs
      | [] => [(d, [x])]
      end
  end.

Definition date_groups (histories : dict ContractSymbol (list VerifiedBar))
    : list (date * list (ContractSymbol * VerifiedBar)) := groupby (indexed histories).

(** ** The engine *)
Section Engine.
Context {B SM R St Clock : Type} `{BacktestBroker B} `{SlippageModel SM} `{Sizer R}
  `{CrossSectionalStrategy St Clock}.

Record PortfolioBacktestEngine := {
  pe_ctx : RuntimeContext Clock;
  pe_risk : R;
  pe_slippage : option SM;
  pe_target_position : bool;
  pe_risk_parity : bool;
  pe_vol_lookback : Z;
  _rolls_by_date : dict date (list RollEvent);
}.

(** [self._rolls_by_date.setdefault(event.roll_date, []).append(event)] *)
Definition add_roll (d : dict date (list RollEvent)) (event : RollEvent) : dict date (list RollEvent) :=
  dset (roll_date event) (dget_or (roll_date event) [] d ++ [event]) d.

Definition new_PortfolioBacktestEngine (ctx : RuntimeContext Clock) (risk : R)
    (slippage : option SM) (target_position : bool) (roll_events : option (list RollEvent))
    (risk_parity : bool) (vol_lookback : Z) : PortfolioBacktestEngine := {|
  pe_ctx := ctx; pe_risk := risk; pe_slippage := slippage; pe_target_position := target_position;
  pe_risk_parity := risk_parity; pe_vol_lookback := vol_lookback;
  _rolls_by_date := fold_left add_roll (match roll_events with Some es => es | None => [] end) [] |}.

Record PortfolioState := {
  ps_broker : B;
  ps_strategy : St;
  ps_history : dict ContractSymbol (list VerifiedBar);
  ps_last_close : dict ContractSymbol decimal;
  ps_curve : list decimal;
  ps_signals : Z;
  ps_orders : Z;
  ps_fills : Z;
  ps_rolls : Z;
  ps_roll_cost : decimal;
}.

Definition p_init (histories : dict ContractSymbol (list VerifiedBar)) (b : B) (st : St)
    : PortfolioState := {|
  ps_broker := b; ps_strategy := st; ps_history := map (fun kb => (fst kb, [])) histories;
  ps_last_close := []; ps_curve := []; ps_signals := 0; ps_orders := 0; ps_fills := 0;
  ps_rolls := 0; ps_roll_cost := d0 |}.

Definition p_objects (b : B) (st : St) (s : PortfolioState) : PortfolioState := {|
  ps_broker := b; ps_strategy := st; ps_history := ps_history s; ps_last_close := ps_last_close s;
  ps_curve := ps_curve s; ps_signals := ps_signals s; ps_orders := ps_orders s;
  ps_fills := ps_fills s; ps_rolls := ps_rolls s; ps_roll_cost := ps_roll_cost s |}.
Definition p_marks (history : dict ContractSymbol (list VerifiedBar))
    (last_close : dict ContractSymbol decimal) (curve : list decimal) (s : PortfolioState)
    : PortfolioState := {|
  ps_broker := ps_broker s; ps_strategy := ps_strategy s; ps_history := history;
  ps_last_close := last_close; ps_curve := curve; ps_signals := ps_signals s;
  ps_orders := ps_orders s; ps_fills := ps_fills s; ps_rolls := ps_rolls s;
  ps_roll_cost := ps_roll_cost s |}.
Definition p_counts (signals orders fls rolls : Z) (cost : decimal) (s : PortfolioState)
    : PortfolioState := {|
  ps_broker := ps_broker s; ps_strategy := ps_strategy s; ps_history := ps_history s;
  ps_last_close := ps_last_close s; ps_curve := ps_curve s; ps_signals := signals;
  ps_orders := orders; ps_fills := fls; ps_rolls := rolls; ps_roll_cost := cost |}.

Definition p_broker {A} (m : M B A) : M PortfolioState A :=
  fun s => let '(b, r) := m (ps_broker s) in (p_objects b (ps_strategy s) s, r).
Definition p_strategy {A} (m : M St A) : M PortfolioState A :=
  fun s => let '(st, r) := m (ps_strategy s) in (p_objects (ps_broker s) st s, r).

Variable eng : PortfolioBacktestEngine.

Definition roll_one (totals : Z * decimal) (event : RollEvent) : M B (Z * decimal) :=
  rolled <- bb_roll_position (old_contract event) (new_contract event) (front_settle event)
              (back_settle event) ;;
  if rolled =? 0 then ret totals
  else
    mult <- lift (multiplier_for (new_contract event)) ;;
    ret (fst totals + 1,
         dadd (snd totals)
           (dmul (dmul (dsub (back_settle event) (front_settle event)) (dec_of_Z rolled)) mult)).

Definition _execute_rolls (d : date) : M B (Z * decimal) :=
  mfold roll_one (dget_or d [] (_rolls_by_date eng)) (0, d0).

(** [history[key]] raises [KeyError] for a stream the engine does not run. *)
Definition _leg_weights (signals : dict ContractSymbol Signal)
    (history : dict ContractSymbol (list VerifiedBar)) : result (option (dict ContractSymbol decimal)) :=
  if negb (pe_risk_parity eng) then Ok None
  else
    let! returns := rmap (fun ks =>
      let! bars := of_option (dget (fst ks) history) KeyError in
      let! rs := _trailing_returns bars (pe_vol_lookback eng) in
      Ok (fst ks, rs)) signals in
    let! w := inverse_vol_weights returns in
    Ok (Some w).

Definition p_resolve_order (decision : SizingDecision) (signal : Signal) (positions : list Position)
    (contract : ContractSymbol) : option (Side * Z) :=
  if pe_target_position eng then
    let target := if 0 <? direction signal then contracts decision else - contracts decision in
    let delta := target - _net_position positions contract in
    if delta =? 0 then None
    else Some (if 0 <? delta then BUY else SELL, Z.abs delta)
  else Some (if 0 <? direction signal then BUY else SELL, contracts decision).

(** The trade gate, then a market order; the number of orders placed. *)
Definition gated_market_order (contract : ContractSymbol) (side : Side) (quantity : Z)
    (client_order_id : string) : M B Z :=
  do (allowed, _) <- is_trade_allowed contract side quantity ;;
  if negb allowed then ret 0
  else
    o <- lift (Order_post_init {|
           o_contract := contract; o_side := side; o_quantity := quantity; o_order_type := MKT;
           o_limit_price := None; o_stop_price := None; o_duration := DAY;
           o_parent_order_id := None; o_oco_group_id := None;
           o_client_order_id := Some client_order_id |}) ;;
    place_order o ;;
    ret 1.

Definition _flatten (contract : ContractSymbol) (positions : list Position) : M B Z :=
  let net := _net_position positions contract in
  if net =? 0 then ret 0
  else gated_market_order contract (if 0 <? net then SELL else BUY) (Z.abs net)
         (str_concat ["flat@"%string; contract]).

(** One leg: the number of orders it placed. *)
Definition place_leg (positions : list Position) (last_close : dict ContractSymbol decimal)
    (mtm_equity : decimal) (weights : option (dict ContractSymbol decimal))
    (leg : ContractSymbol * Signal) : M B Z :=
  let '(key, signal) := leg in
  let contract := sg_contract signal in
  match dget contract last_close with
  | None => ret 0
  | Some price =>
      if direction signal =? 0
      then if pe_target_position eng then _flatten contract positions else ret 0
      else
        let kelly := match weights with
                     | Some w => dmul (full_kelly_fraction signal) (dget_or key d1 w)
                     | None => full_kelly_fraction signal
                     end in
        decision <- lift (sizer_size (pe_risk eng) contract kelly mtm_equity price None None) ;;
        if contracts decision <=? 0 then ret 0
        else
          match p_resolve_order decision signal positions contract with
          | None => ret 0
          | Some (side, quantity) =>
              gated_market_order contract side quantity
                (str_concat [strategy_id signal; "@"%string; dt_iso (sg_ts signal); "#"%string; contract])
          end
  end.

Definition contract_leb (x y : ContractSymbol * Signal) : bool :=
  String.leb (sg_contract (snd x)) (sg_contract (snd y)).

Definition _place_signals (signals : dict ContractSymbol Signal) (positions : list Position)
    (last_close : dict ContractSymbol decimal) (mtm_equity : decimal)
    (weights : option (dict ContractSymbol decimal)) : M B Z :=
  mfold (fun orders leg => n <- place_leg positions last_close mtm_equity weights leg ;; ret (orders + n))
    (sort_by contract_leb signals) 0.

(** ** One date *)
Definition advance_bar (kb : ContractSymbol * VerifiedBar) : M PortfolioState unit :=
  let '(key, bar) := kb in
  events <- p_broker (bb_advance bar (pe_slippage eng)) ;;
  modify (fun s => p_counts (ps_signals s) (ps_orders s) (ps_fills s + Z.of_nat (length events))
                     (ps_rolls s) (ps_roll_cost s) s) ;;
  modify (fun s => p_marks (ps_history s) (dset (vb_contract bar) (vb_close bar) (ps_last_close s))
                     (ps_curve s) s) ;;
  s <- get ;;
  bars <- lift (of_option (dget key (ps_history s)) KeyError) ;;
  modify (fun s => p_marks (dset key (bars ++ [bar]) (ps_history s)) (ps_last_close s) (ps_curve s) s).

Definition roll_phase (d : date) : M PortfolioState unit :=
  do (rolled_n, roll_cost) <- p_broker (_execute_rolls d) ;;
  modify (fun s => p_counts (ps_signals s) (ps_orders s) (ps_fills s) (ps_rolls s + rolled_n)
                     (dadd (ps_roll_cost s) roll_cost) s).

Definition p_mark_phase : M PortfolioState (list Position * decimal) :=
  metrics <- p_broker get_account_metrics ;;
  positions <- p_broker get_positions ;;
  s <- get ;;
  mtm_equity <- lift (_mark_to_market (am_equity metrics) positions (ps_last_close s)) ;;
  modify (fun s => p_marks (ps_history s) (ps_last_close s) (ps_curve s ++ [mtm_equity]) s) ;;
  ret (positions, mtm_equity).

Definition p_decide_phase (positions : list Position) (mtm_equity : decimal) : M PortfolioState unit :=
  if dleb mtm_equity d0 then ret tt
  else
    s <- get ;;
    signals <- p_strategy (generate_signals (ps_history s) (pe_ctx eng)) ;;
    match signals with
    | [] => ret tt
    | _ =>
        modify (fun s => p_counts (ps_signals s + Z.of_nat (length signals)) (ps_orders s) (ps_fills s)
                           (ps_rolls s) (ps_roll_cost s) s) ;;
        s <- get ;;
        weights <- lift (_leg_weights signals (ps_history s)) ;;
        n <- p_broker (_place_signals signals positions (ps_last_close s) mtm_equity weights) ;;
        modify (fun s => p_counts (ps_signals s) (ps_orders s + n) (ps_fills s) (ps_rolls s)
                           (ps_roll_cost s) s)
    end.

Definition p_fill_phase (g : date * list (ContractSymbol * VerifiedBar)) : M PortfolioState unit :=
  mfold (fun _ kb => advance_bar kb) (snd g) tt ;; roll_phase (fst g).

Definition run_date (g : date * list (ContractSymbol * VerifiedBar)) : M PortfolioState unit :=
  p_fill_phase g ;;
  do (positions, mtm_equity) <- p_mark_phase ;;
  p_decide_phase positions mtm_equity.

Definition run_dates (gs : list (date * list (ContractSymbol * VerifiedBar))) : M PortfolioState unit :=
  mfold (fun _ g => run_date g) gs tt.

Definition p_finish (n : Z) : M PortfolioState RunResult :=
  final_metrics <- p_broker get_account_metrics ;;
  final_positions <- p_broker get_positions ;;
  s <- get ;;
  ret {| bars_processed := n; signals_generated := ps_signals s; orders_placed := ps_orders s;
         fills := ps_fills s; final_equity := List.last (ps_curve s) (am_equity final_metrics);
         realized_pnl := am_realized_pnl_today final_metrics; final_positions := final_positions;
         equity_curve := ps_curve s; survival_capped_bars := 0;
         rolls_executed := ps_rolls s; total_roll_cost := ps_roll_cost s;
         trade_pnls := bb_trade_pnls (ps_broker s) |}.

(** [PortfolioBacktestEngine.run] *)
Definition p_run (histories : dict ContractSymbol (list VerifiedBar)) (b : B) (st : St)
    : PortfolioState * result RunResult :=
  (run_dates (date_groups histories) ;; p_finish (Z.of_nat (length (indexed histories))))
    (p_init histories b st).
End Engine.

(** ** Facts about the date axis *)
Lemma indexed_leb_total x y : indexed_leb x y = true ∨ indexed_leb y x = true.
Proof.
  unfold indexed_leb. destruct (Z.lt_trichotomy (fst x) (fst y)) as [E|[E|E]].
  - left. apply Z.ltb_lt in E. by rewrite E.
  - rewrite E, Z.ltb_irrefl, Z.eqb_refl. simpl. apply String.leb_total.
  - right. apply Z.ltb_lt in E. by rewrite E.
Qed.

Lemma indexed_leb_trans x y z : indexed_leb x y = true → indexed_leb y z = true → indexed_leb x z = true.
Proof.
  unfold indexed_leb. rewrite !orb_true_iff, !andb_true_iff, !Z.ltb_lt, !Z.eqb_eq.
  intros [?|[? ?]] [?|[? ?]]; try (left; lia). right. split; [lia|]. by eapply string_leb_trans.
Qed.

(** The streams cut at date [d]. *)
Definition before (d : date) (histories : dict ContractSymbol (list VerifiedBar))
    : dict ContractSymbol (list VerifiedBar) :=
  map (fun kb => (fst kb, List.filter (fun b => dt_date (vb_ts b) <=? d) (snd kb))) histories.

Lemma filter_flat_map {A B} (p : B -> bool) (f : A -> list B) l :
  List.filter p (flat_map f l) = flat_map (fun x => List.filter p (f x)) l.
Proof. induction l as [|x xs IH]; simpl; [done|]. by rewrite List.filter_app, IH. Qed.

Lemma filter_map {A B} (p : B -> bool) (f : A -> B) l :
  List.filter p (map f l) = map f (List.filter (fun x => p (f x)) l).
Proof. induction l as [|x xs IH]; simpl; [done|]. rewrite IH. by destruct (p (f x)). Qed.

Lemma indexed_before d h :
  List.filter (fun x => fst x <=? d) (indexed h) = indexed (before d h).
Proof.
  unfold indexed. rewrite sort_by_filter by (apply indexed_leb_total || apply indexed_leb_trans).
  f_equal. rewrite filter_flat_map. unfold before. rewrite !flat_map_concat_map, map_map. f_equal.
  apply map_ext. intros [k bars]. unfold stream_bars. cbn [fst snd]. apply filter_map.
Qed.

(** A list sorted by date splits at any date. *)
Lemma sorted_split {X} (d : date) (l : list (date * X)) :
  StronglySorted (fun x y => fst x <= fst y) l →
  l = List.filter (fun x => fst x <=? d) l ++ List.filter (fun x => negb (fst x <=? d)) l.
Proof.
  induction 1 as [|x xs Hs IH Hall]; [done|]. cbn [List.filter].
  destruct (Z.leb_spec (fst x) d); cbn [negb]; [simpl; by f_equal|].
  assert (Hnone : List.filter (fun x => fst x <=? d) xs = []).
  { rewrite List.Forall_forall in Hall. clear - Hall H. induction xs as [|y ys IH]; [done|]. simpl.
    pose proof (Hall y (or_introl eq_refl)) as Hy. cbn beta in Hy. destruct (Z.leb_spec (fst y) d); [lia|].
    apply IH. intros z Hz. apply Hall. by right. }
  rewrite Hnone in *. simpl in *. by f_equal.
Qed.

Lemma indexed_sorted h : StronglySorted (fun x y => fst x <= fst y) (indexed h).
Proof.
  pose proof (sort_by_sorted indexed_leb indexed_leb_total indexed_leb_trans
                (flat_map stream_bars h)) as Hs.
  fold (indexed h) in Hs. induction Hs as [|x xs Hs IH Hall]; constructor; [done|].
  eapply List.Forall_impl; [|exact Hall]. intros y Hy. cbn beta in *. unfold indexed_leb in Hy.
  apply orb_true_iff in Hy as [Hy%Z.ltb_lt|[Hy%Z.eqb_eq _]%andb_true_iff]. all: unfold indexed_bar, date in *; lia.
Qed.

Lemma groupby_head {X} (l : list (date * X)) x : forall d, exists g gs,
  groupby ((d, x) :: l) = (d, g) :: gs.
Proof.
  intros d. simpl. destruct (groupby l) as [|[d' g] gs]; [by eexists _, _|].
  destruct (Z.eqb_spec d d'); by eexists _, _.
Qed.

Lemma groupby_app {X} (l1 l2 : list (date * X)) :
  (forall x y, In x l1 → In y l2 → fst x < fst y) → groupby (l1 ++ l2) = groupby l1 ++ groupby l2.
Proof.
  induction l1 as [|[d x] l1 IH]; intros Hlt; [done|]. cbn [app groupby].
  rewrite IH by (intros; apply Hlt; [by right|done]).
  destruct l1 as [|[d1 x1] l1].
  - simpl. destruct l2 as [|[d2 y] l2]; [done|]. destruct (groupby_head l2 y d2) as (g & gs & ->).
    pose proof (Hlt (d, x) (d2, y) (or_introl eq_refl) (or_introl eq_refl)) as Hd. simpl in Hd.
    by destruct (Z.eqb_spec d d2); [lia|].
  - destruct (groupby_head l1 x1 d1) as (g & gs & ->). simpl. by destruct (d =? d1).
Qed.

(** What a group of the axis holds. *)
Lemma groupby_concat {X} (l : list (date * X)) :
  flat_map (fun g => map (fun x => (fst g, x)) (snd g)) (groupby l) = l.
Proof.
  induction l as [|[d x] l IH]; [done|]. cbn [groupby]. rewrite <- IH at 2.
  destruct (groupby l) as [|[d' g] gs]; [done|]. simpl. by destruct (Z.eqb_spec d d') as [->|].
Qed.

Lemma groupby_dates {X} (l : list (date * X)) g : In g (groupby l) → exists x, In (fst g, x) l.
Proof.
  revert g. induction l as [|[d x] l IH]; intros g; [done|]. cbn [groupby].
  destruct (groupby l) as [|[d' g'] gs]; [intros [<-|[]]; eexists; by left|].
  destruct (d =? d') eqn:E; intros [<-|Hin]; try (eexists; by left).
  - destruct (IH g (or_intror Hin)) as [y Hy]. exists y. by right.
  - destruct (IH g Hin) as [y Hy]. exists y. by right.
Qed.

(** The dates of the axis increase strictly. *)
Lemma groupby_increasing {X} (l : list (date * X)) :
  StronglySorted (fun x y => fst x <= fst y) l → StronglySorted Z.lt (map fst (groupby l)).
Proof.
  induction 1 as [|[d x] xs Hs IH Hall]; [constructor|]. cbn [groupby].
  destruct (groupby xs) as [|[d' g] gs] eqn:Eg; [repeat constructor|].
  destruct (Z.eqb_spec d d') as [->|Hne]; [exact IH|]. constructor; [exact IH|].
  assert (Hd' : d <= d').
  { destruct (groupby_dates xs (d', g)) as [y Hy]; [rewrite Eg; by left|].
    rewrite List.Forall_forall in Hall. by apply Hall in Hy. }
  simpl in *. constructor; [lia|]. inversion IH as [|? ? _ Hlt]; subst.
  eapply List.Forall_impl; [|exact Hlt]. simpl. lia.
Qed.

(** The groups up to date [d] are those of the streams cut at [d]. *)
Lemma date_groups_split d h : exists future,
  date_groups h = date_groups (before d h) ++ future
  ∧ (forall g, In g (date_groups (before d h)) → fst g <= d) ∧ (forall g, In g future → d < fst g).
Proof.
  exists (groupby (List.filter (fun x => negb (fst x <=? d)) (indexed h))).
  unfold date_groups. rewrite <- indexed_before. split_and!.
  - rewrite <- groupby_app; [by rewrite <- sorted_split by apply indexed_sorted|].
    intros x y [_ Hx%Z.leb_le]%filter_In [_ Hy%negb_true_iff]%filter_In. apply Z.leb_gt in Hy.
    unfold indexed_bar, date in *; lia.
  - intros g [x [_ Hx%Z.leb_le]%filter_In]%groupby_dates. done.
  - intros g [x [_ Hx%negb_true_iff]%filter_In]%groupby_dates. by apply Z.leb_gt in Hx.
Qed.

(** ** Facts about the loop *)
Section PortfolioFacts.
Context {B SM R St Clock : Type} `{BacktestBrokerLaws B} `{SlippageModel SM} `{Sizer R}
  `{CrossSectionalStrategy St Clock}.
Variable eng : PortfolioBacktestEngine (SM := SM) (R := R) (Clock := Clock).

#[local] Notation PState := (PortfolioState (B := B) (St := St)).

(** Whatever a date does, what the loop recorded before it stays recorded. *)
Record p_extends (s s' : PState) : Prop := {
  px_history : forall k l, dget k (ps_history s) = Some l → exists l', dget k (ps_history s') = Some (l ++ l');
  px_curve : exists l, ps_curve s' = ps_curve s ++ l;
  px_signals : ps_signals s <= ps_signals s';
  px_orders : ps_orders s' - ps_orders s <= ps_signals s' - ps_signals s ∧ ps_orders s <= ps_orders s';
  px_fills : ps_fills s <= ps_fills s';
  px_rolls : ps_rolls s <= ps_rolls s';
}.

#[local] Instance p_extends_preorder : PreOrder p_extends.
Proof.
  split.
  - intros s. constructor; try lia; [|exists []; by rewrite app_nil_r].
    intros k l Hk. exists []. by rewrite app_nil_r.
  - intros a b c [h1 [c1 E1] ????] [h2 [c2 E2] ????]. constructor; try lia.
    + intros k l Hk. apply h1 in Hk as [l1 Hk]. apply h2 in Hk as [l2 Hk].
      exists (l1 ++ l2). by rewrite app_assoc.
    + exists (c1 ++ c2). rewrite app_assoc. congruence.
Qed.

(** What a step leaves alone besides the broker, the strategy and the counters. *)
Definition p_quiet (s s' : PState) : Prop :=
  ps_history s' = ps_history s ∧ ps_last_close s' = ps_last_close s ∧ ps_curve s' = ps_curve s
  ∧ ps_fills s' = ps_fills s ∧ ps_rolls s' = ps_rolls s ∧ ps_roll_cost s' = ps_roll_cost s
  ∧ still (ps_broker s) (ps_broker s').

#[local] Instance p_quiet_preorder : PreOrder p_quiet.
Proof.
  split; [intros s; unfold p_quiet; split_and!; done|].
  intros a b c (?&?&?&?&?&?&?) (?&?&?&?&?&?&?). unfold p_quiet. split_and!; try congruence. by etrans.
Qed.

Lemma p_broker_quiet {A} (m : M B A) : steps still m → steps p_quiet (p_broker (St := St) m).
Proof.
  intros Hm s. unfold p_broker. specialize (Hm (ps_broker s)). destruct (m (ps_broker s)) as [b r].
  unfold p_quiet. simpl. split_and!; done.
Qed.
Lemma p_strategy_quiet {A} (m : M St A) : steps p_quiet (p_strategy (B := B) m).
Proof.
  intros s. unfold p_strategy. destruct (m (ps_strategy s)) as [st r]. unfold p_quiet. simpl. by split_and!.
Qed.

(** Steps that record nothing but what they are told extend the record. *)
Lemma p_broker_extends {A} (m : M B A) : steps p_extends (p_broker (St := St) m).
Proof.
  intros s. unfold p_broker. destruct (m (ps_broker s)) as [b r].
  constructor; simpl; try lia; [|exists []; by rewrite app_nil_r].
  intros k l Hk. exists []. by rewrite app_nil_r.
Qed.
Lemma p_strategy_extends {A} (m : M St A) : steps p_extends (p_strategy (B := B) m).
Proof.
  intros s. unfold p_strategy. destruct (m (ps_strategy s)) as [b r].
  constructor; simpl; try lia; [|exists []; by rewrite app_nil_r].
  intros k l Hk. exists []. by rewrite app_nil_r.
Qed.
Lemma p_modify_extends f :
  (forall s, p_extends s (f s)) → steps p_extends (modify f).
Proof. intros Hf s. apply Hf. Qed.

(** Counters that only grow, nothing else. *)
Lemma p_counts_extends sg o fl rl c (s : PState) :
  ps_signals s <= sg → ps_orders s <= o → o - ps_orders s <= sg - ps_signals s → ps_fills s <= fl →
  ps_rolls s <= rl → p_extends s (p_counts sg o fl rl c s).
Proof.
  intros. constructor; simpl; try lia; [|exists []; by rewrite app_nil_r].
  intros k l Hk. exists []. by rewrite app_nil_r.
Qed.
Lemma p_marks_extends hs lc l (s : PState) :
  (forall k h, dget k (ps_history s) = Some h → exists h', dget k hs = Some (h ++ h')) →
  p_extends s (p_marks hs lc (ps_curve s ++ l) s).
Proof. intros Hh. constructor; simpl; try lia; [exact Hh|by exists l]. Qed.

Lemma same_history (s : PState) : forall k h,
  dget k (ps_history s) = Some h → exists h', dget k (ps_history s) = Some (h ++ h').
Proof. intros k h Hk. exists []. by rewrite app_nil_r. Qed.

(** *** Placing the legs *)
Lemma gated_market_still c sd q id : steps still (gated_market_order (B := B) c sd q id).
Proof.
  unfold gated_market_order. apply (steps_bind still); [apply gate_still|]. intros [allowed reason].
  cbv zeta. destruct (negb allowed); [apply (steps_ret still)|].
  apply (steps_bind still); [apply (steps_lift still)|]. intros o.
  apply (steps_bind still); [apply place_still|]. intros _. apply (steps_ret still).
Qed.

Lemma gated_market_yields c sd q id :
  yields (fun n => 0 <= n <= 1) (gated_market_order (B := B) c sd q id).
Proof.
  unfold gated_market_order. apply yields_seq. intros [allowed reason]. cbv zeta.
  destruct (negb allowed); [apply yields_ret; lia|].
  apply yields_seq. intros o. apply yields_seq. intros _. apply yields_ret. lia.
Qed.

Lemma place_leg_still ps lc mtm w leg : steps still (place_leg (B := B) eng ps lc mtm w leg).
Proof.
  destruct leg as [key sg]. unfold place_leg, _flatten.
  repeat first
    [ apply (steps_ret still) | apply gated_market_still
    | apply (steps_bind still); [apply (steps_lift still)|intros ?]
    | case_match ].
Qed.

Lemma place_leg_yields ps lc mtm w leg :
  yields (fun n => 0 <= n <= 1) (place_leg (B := B) eng ps lc mtm w leg).
Proof.
  destruct leg as [key sg]. unfold place_leg, _flatten.
  repeat first
    [ apply yields_ret; lia | apply gated_market_yields | apply yields_seq; intros ? | case_match ].
Qed.

Lemma place_signals_still sgs ps lc mtm w : steps still (_place_signals (B := B) eng sgs ps lc mtm w).
Proof.
  unfold _place_signals. apply (steps_mfold still). intros n leg.
  apply (steps_bind still); [apply place_leg_still|]. intros k. apply (steps_ret still).
Qed.

Lemma place_signals_yields sgs ps lc mtm w :
  yields (fun n => 0 <= n <= Z.of_nat (length sgs)) (_place_signals (B := B) eng sgs ps lc mtm w).
Proof.
  unfold _place_signals. intros s s' n E. eapply (yields_mfold _ 1) in E; [|lia|].
  - rewrite sort_by_length in E. lia.
  - intros b leg. eapply yields_bind; [apply place_leg_yields|]. intros k Hk. apply yields_ret.
    cbn beta in *. lia.
Qed.

(** *** The decision part of a date *)
Definition p_decided (s s' : PState) : Prop :=
  p_quiet s s' ∧ ps_signals s <= ps_signals s'
  ∧ 0 <= ps_orders s' - ps_orders s <= ps_signals s' - ps_signals s.

Lemma p_decided_extends s s' : p_decided s s' → p_extends s s'.
Proof.
  intros ((Hh & _ & Hc & Hf & Hr & _) & ? & ?). constructor; try lia; rewrite ?Hh, ?Hc.
  - apply same_history.
  - exists []. by rewrite app_nil_r.
Qed.

Lemma p_broker_run {A} (m : M B A) (s : PState) :
  p_broker m s = (p_objects (fst (m (ps_broker s))) (ps_strategy s) s, snd (m (ps_broker s))).
Proof. unfold p_broker. by destruct (m (ps_broker s)). Qed.
Lemma p_strategy_run {A} (m : M St A) (s : PState) :
  p_strategy m s = (p_objects (ps_broker s) (fst (m (ps_strategy s))) s, snd (m (ps_strategy s))).
Proof. unfold p_strategy. by destruct (m (ps_strategy s)). Qed.

Lemma p_decide_decided ps mtm : steps p_decided (p_decide_phase eng ps mtm).
Proof.
  assert (Hrefl : forall s, p_decided s s) by (intros s; split; [reflexivity|lia]).
  intros s. unfold p_decide_phase. destruct (dleb mtm d0); [apply Hrefl|].
  unfold bind at 1, get at 1. unfold bind at 1. rewrite p_strategy_run.
  destruct (snd (generate_signals _ _ _)) as [sgs|e]; [|split; [unfold p_quiet; by split_and!|simpl; lia]].
  set (s1 := p_objects _ _ s). assert (Q1 : p_quiet s s1) by (unfold p_quiet; by split_and!).
  assert (C1 : ps_signals s1 = ps_signals s ∧ ps_orders s1 = ps_orders s) by done. clearbody s1.
  destruct C1 as [Es Eo]. destruct sgs as [|sg sgs]; [split; [exact Q1|cbn; lia]|]. set (l := sg :: sgs).
  unfold bind at 1, modify at 1. unfold bind at 1, get at 1. unfold bind at 1, lift at 1.
  set (s2 := p_counts _ _ _ _ _ s1).
  assert (Q2 : p_quiet s s2) by (etrans; [exact Q1|unfold p_quiet; by split_and!]).
  assert (C2 : ps_signals s2 = ps_signals s + Z.of_nat (length l) ∧ ps_orders s2 = ps_orders s)
    by (simpl; lia). clearbody s2. destruct C2 as [Es2 Eo2].
  destruct (_leg_weights _ _ _) as [w|e]; [|split; [exact Q2|cbn; lia]].
  unfold bind at 1. pose proof (p_broker_quiet _ (place_signals_still l ps (ps_last_close s2) mtm w) s2) as Q3.
  destruct (p_broker _ s2) as [s3 [n|e]] eqn:E3; cbn [fst] in Q3;
    rewrite p_broker_run in E3; injection E3 as <- E3.
  - destruct (_place_signals _ _ _ _ _ _ _) as [b r] eqn:Ep. cbn [snd] in E3. subst r.
    apply place_signals_yields in Ep. split; [|cbn; lia].
    etrans; [exact Q2|]. etrans; [exact Q3|]. unfold p_quiet. by split_and!.
  - split; [by etrans|cbn; lia].
Qed.

(** *** The fills, the rolls and the mark *)
Lemma advance_bar_extends kb : steps p_extends (advance_bar eng kb).
Proof.
  destruct kb as [key bar]. unfold advance_bar.
  apply (steps_bind p_extends); [apply p_broker_extends|]. intros events.
  apply (steps_bind p_extends); [apply p_modify_extends; intros s; apply p_counts_extends; lia|]. intros _.
  apply (steps_bind p_extends).
  { apply p_modify_extends. intros s. rewrite <- (app_nil_r (ps_curve s)) at 1.
    apply p_marks_extends, same_history. }
  intros _ s. unfold bind at 1, get at 1. unfold bind at 1, lift.
  destruct (dget key (ps_history s)) as [bars|] eqn:Ek; cbn [of_option]; [|reflexivity].
  unfold modify. cbn [fst]. rewrite <- (app_nil_r (ps_curve s)) at 1. apply p_marks_extends.
  intros k h Hk. rewrite dget_dset. destruct (decide (k = key)) as [->|]; [|exists []; by rewrite app_nil_r].
  exists [bar]. congruence.
Qed.

Lemma execute_rolls_yields d :
  yields (fun r => 0 <= fst r <= Z.of_nat (length (dget_or d [] (_rolls_by_date eng))))
    (_execute_rolls (B := B) eng d).
Proof.
  unfold _execute_rolls. generalize (dget_or d [] (_rolls_by_date eng)). intros l.
  assert (Hg : forall t, yields (fun r => fst t <= fst r <= fst t + Z.of_nat (length l)) (mfold (S := B) roll_one l t)).
  { induction l as [|ev l IH]; intros t; cbn [mfold length]; [apply yields_ret; lia|].
    eapply (yields_bind (fun t' => fst t <= fst t' <= fst t + 1)).
    - unfold roll_one. apply yields_seq. intros rolled. destruct (rolled =? 0); [apply yields_ret; lia|].
      apply yields_seq. intros mult. apply yields_ret. cbn [fst]. lia.
    - intros t' Ht' s s' r E%IH. cbn beta in *. lia. }
  intros s s' r E%Hg. exact E.
Qed.

Lemma roll_phase_extends d : steps p_extends (roll_phase (St := St) eng d).
Proof.
  intros s. unfold roll_phase, bind at 1. rewrite p_broker_run.
  pose proof (p_broker_extends (_execute_rolls eng d) s) as Hx. rewrite p_broker_run in Hx. cbn [fst] in Hx.
  destruct (_execute_rolls eng d (ps_broker s)) as [b [[n cost]|e]] eqn:E; cbn [fst snd] in *; [|exact Hx].
  apply execute_rolls_yields in E. cbn [fst] in E. etrans; [exact Hx|].
  unfold modify. cbn [fst]. apply p_counts_extends; simpl; lia.
Qed.

Lemma p_fill_extends g : steps p_extends (p_fill_phase eng g).
Proof.
  unfold p_fill_phase. apply (steps_bind p_extends); [|intros _; apply roll_phase_extends].
  apply (steps_mfold p_extends). intros _ kb. apply advance_bar_extends.
Qed.

(** The mark: nothing moves, and a point is added to the curve when it returns. *)
Lemma p_mark_marked (s s' : PState) r : p_mark_phase s = (s', r) →
  ps_history s' = ps_history s ∧ ps_last_close s' = ps_last_close s ∧ ps_strategy s' = ps_strategy s
  ∧ ps_signals s' = ps_signals s ∧ ps_orders s' = ps_orders s ∧ ps_fills s' = ps_fills s
  ∧ ps_rolls s' = ps_rolls s ∧ still (ps_broker s) (ps_broker s')
  ∧ match r with
    | Ok (ps, mtm) => ps = bb_positions (ps_broker s') ∧ ps_curve s' = ps_curve s ++ [mtm]
    | Err _ => ps_curve s' = ps_curve s
    end.
Proof.
  unfold p_mark_phase, bind at 1. rewrite p_broker_run.
  pose proof (metrics_still (ps_broker s)) as Hm.
  destruct (get_account_metrics (ps_broker s)) as [b [metrics|e]]; cbn [fst snd] in *;
    [|intros [= <- <-]; by split_and!].
  unfold bind at 1. rewrite p_broker_run. cbn [ps_broker p_objects].
  pose proof (snapshot_still (B := B) b) as Hp. pose proof (positions_snapshot (B := B) b) as Hs.
  destruct (get_positions b) as [b2 [ps|e]]; cbn [fst snd] in *;
    assert (Hst : still (ps_broker s) b2) by (by etrans);
    [|intros [= <- <-]; by split_and!].
  unfold bind at 1, get. unfold bind at 1, lift.
  destruct (_mark_to_market _ _ _) as [m|e]; [|intros [= <- <-]; by split_and!].
  intros [= <- <-]. split_and!; try done. simpl. rewrite (Hs _ _ eq_refl). symmetry. apply Hp.
Qed.

Lemma mark_extends : steps p_extends (p_mark_phase (B := B) (St := St)).
Proof.
  intros s. destruct (p_mark_phase s) as [s' r] eqn:E. apply p_mark_marked in E
    as (Hh & _ & _ & Hs & Ho & Hf & Hr & _ & Hc). cbn [fst]. constructor; try lia; rewrite ?Hh.
  - apply same_history.
  - destruct r as [[ps mtm]|e]; [by destruct Hc as [_ ->]; eexists|exists []; by rewrite app_nil_r].
Qed.

Lemma run_date_extends g : steps p_extends (run_date eng g).
Proof.
  unfold run_date. apply (steps_bind p_extends); [apply p_fill_extends|]. intros _.
  apply (steps_bind p_extends); [apply mark_extends|]. intros [ps mtm] s. cbv zeta.
  apply p_decided_extends, p_decide_decided.
Qed.

Lemma run_dates_extends gs : steps p_extends (run_dates eng gs).
Proof. apply (steps_mfold p_extends). intros _ g. apply run_date_extends. Qed.

Lemma mfold_unit_app {S A} (f : A -> M S unit) l1 l2 (s : S) :
  mfold (fun _ => f) (l1 ++ l2) tt s = bind (mfold (fun _ => f) l1 tt) (fun _ => mfold (fun _ => f) l2 tt) s.
Proof.
  revert s. induction l1 as [|x l1 IH]; intros s; [done|]. cbn [mfold app]. unfold bind.
  destruct (f x s) as [s1 [[]|e]]; [|done]. by rewrite IH.
Qed.

Lemma p_finish_same n (s : PState) : exists b, fst (p_finish n s) = p_objects b (ps_strategy s) s.
Proof.
  unfold p_finish, bind at 1. rewrite p_broker_run. destruct (snd (get_account_metrics _)); [|by eexists].
  unfold bind at 1. rewrite p_broker_run. cbn. destruct (snd (get_positions _)); by eexists.
Qed.

(** *** What a date adds when it returns *)

(** The bars of group [g] in stream [k]. *)
Definition group_bars (k : ContractSymbol) (g : list (ContractSymbol * VerifiedBar)) : list VerifiedBar :=
  map snd (List.filter (fun kb => String.eqb (fst kb) k) g).

Lemma advance_bar_history kb (s s' : PState) k h : advance_bar eng kb s = (s', Ok tt) →
  dget k (ps_history s) = Some h →
  dget k (ps_history s') = Some (h ++ group_bars k [kb]) ∧ ps_curve s' = ps_curve s.
Proof.
  destruct kb as [key bar]. unfold advance_bar. intros (s1 & events & E1 & E)%bind_Ok Hk.
  rewrite p_broker_run in E1. injection E1 as <- _.
  apply bind_Ok in E as (s2 & [] & [-> _]%modify_Ok & E).
  apply bind_Ok in E as (s3 & [] & [-> _]%modify_Ok & E).
  apply bind_Ok in E as (s4 & s5 & [= <- <-] & E). apply bind_Ok in E as (s6 & bars & [<- Eb]%lift_Ok & E).
  apply modify_Ok in E as [-> _]. cbn in Eb |- *. split; [|done].
  destruct (dget key (ps_history s)) as [l|] eqn:El; [|done]. injection Eb as <-.
  unfold group_bars. cbn. rewrite dget_dset. destruct (decide (k = key)) as [->|Hne].
  - rewrite String.eqb_refl. cbn. congruence.
  - destruct (String.eqb_spec key k); [congruence|]. cbn. by rewrite app_nil_r.
Qed.

Lemma group_history g : forall (s s' : PState) k h, mfold (fun _ kb => advance_bar eng kb) g tt s = (s', Ok tt) →
  dget k (ps_history s) = Some h →
  dget k (ps_history s') = Some (h ++ group_bars k g) ∧ ps_curve s' = ps_curve s.
Proof.
  induction g as [|kb g IH]; intros s s' k h; cbn [mfold].
  - intros [= <-] Hk. split; [|done]. cbn. by rewrite app_nil_r.
  - intros (s1 & [] & E1 & E)%bind_Ok Hk.
    destruct (advance_bar_history _ _ _ _ _ E1 Hk) as [P1 C1].
    destruct (IH _ _ _ _ E P1) as [P2 C2]. split; [|congruence]. rewrite P2, <- app_assoc. do 2 f_equal.
    unfold group_bars. rewrite <- map_app. f_equal. cbn. by destruct (String.eqb _ _).
Qed.

Lemma run_date_history g (s s' : PState) k h : run_date eng g s = (s', Ok tt) →
  dget k (ps_history s) = Some h →
  dget k (ps_history s') = Some (h ++ group_bars k (snd g))
  ∧ length (ps_curve s') = S (length (ps_curve s)).
Proof.
  unfold run_date, p_fill_phase. intros (s1 & [] & E1 & E)%bind_Ok Hk.
  apply bind_Ok in E1 as (s0 & [] & E0 & E1). destruct (group_history _ _ _ _ _ E0 Hk) as [P0 C0].
  assert (E1' : ps_history s1 = ps_history s0 ∧ ps_curve s1 = ps_curve s0).
  { unfold roll_phase in E1. apply bind_Ok in E1 as (sr & [n c] & Er & E1). rewrite p_broker_run in Er.
    injection Er as <- _. apply modify_Ok in E1 as [-> _]. done. }
  destruct E1' as [P1 C1]. apply bind_Ok in E as (s2 & [ps mtm] & E2 & E).
  apply p_mark_marked in E2 as (P2 & _ & _ & _ & _ & _ & _ & _ & _ & C2).
  pose proof (p_decide_decided ps mtm s2) as [(P3 & _ & C3 & _) _]. cbv zeta in E. rewrite E in P3, C3.
  cbn [fst] in P3, C3. split; [congruence|]. rewrite C3, C2, length_app, C1, C0. simpl. lia.
Qed.

Lemma run_dates_history gs : forall (s s' : PState) k h, run_dates eng gs s = (s', Ok tt) →
  dget k (ps_history s) = Some h →
  dget k (ps_history s') = Some (h ++ flat_map (fun g => group_bars k (snd g)) gs)
  ∧ length (ps_curve s') = (length (ps_curve s) + length gs)%nat.
Proof.
  unfold run_dates. induction gs as [|g gs IH]; intros s s' k h; cbn [mfold].
  - intros [= <-] Hk. cbn. rewrite app_nil_r. split; [done|lia].
  - intros (s1 & [] & E1 & E)%bind_Ok Hk. destruct (run_date_history _ _ _ _ _ E1 Hk) as [P1 C1].
    destruct (IH _ _ _ _ E P1) as [P2 C2]. split; [|simpl; lia]. by rewrite P2, <- app_assoc.
Qed.

(** *** What a stream's history holds *)
Definition bar_date_leb (x y : VerifiedBar) : bool := dt_date (vb_ts x) <=? dt_date (vb_ts y).

Lemma group_bars_flat k (l : list indexed_bar) :
  flat_map (fun g => group_bars k (snd g)) (groupby l)
  = map (fun x => snd (snd x)) (List.filter (fun x => String.eqb (fst (snd x)) k) l).
Proof.
  rewrite <- (groupby_concat l) at 2. rewrite filter_flat_map.
  generalize (groupby l). intros gs. induction gs as [|g gs IH]; [done|].
  cbn [flat_map]. rewrite map_app, IH. f_equal. unfold group_bars. rewrite filter_map, map_map. done.
Qed.

Lemma stream_of_key k bars (h : dict ContractSymbol (list VerifiedBar)) :
  List.NoDup (dkeys h) → dget k h = Some bars →
  List.filter (fun x => String.eqb (fst (snd x)) k) (flat_map stream_bars h)
  = map (fun b => (dt_date (vb_ts b), (k, b))) bars.
Proof.
  assert (Hnone : forall h, ¬ In k (dkeys h) →
            List.filter (fun x => String.eqb (fst (snd x)) k) (flat_map stream_bars h) = []).
  { intros h'. rewrite filter_flat_map. induction h' as [|[k' l] h' IH]; intros Hk; [done|]. simpl in Hk |- *.
    rewrite IH by tauto. unfold stream_bars. rewrite filter_map. cbn [fst snd].
    destruct (String.eqb_spec k' k); [tauto|]. rewrite app_nil_r.
    induction l as [|x l IHl]; [done|]. exact IHl. }
  intros Hnd. induction h as [|[k' l] h IH]; intros Hk; [done|].
  cbn [dkeys map] in Hnd. apply NoDup_cons_iff in Hnd as [Hk' Hnd].
  cbn [flat_map]. rewrite List.filter_app. unfold stream_bars at 1. rewrite filter_map. cbn [fst snd].
  cbn [dget] in Hk. case_decide as Hne; [subst k'|].
  - injection Hk as ->. rewrite Hnone by done. rewrite app_nil_r. f_equal.
    clear. induction bars as [|x xs IHx]; [done|]. simpl. rewrite String.eqb_refl in *. f_equal. exact IHx.
  - destruct (String.eqb_spec k' k); [congruence|]. assert (El : List.filter (fun _ : VerifiedBar => false) l = []) by (clear; by induction l).
    rewrite El. exact (IH Hnd Hk).
Qed.

Lemma history_sorted k bars (h : dict ContractSymbol (list VerifiedBar)) :
  List.NoDup (dkeys h) → dget k h = Some bars →
  flat_map (fun g => group_bars k (snd g)) (date_groups h) = sort_by bar_date_leb bars.
Proof.
  intros Hnd Hk. unfold date_groups. rewrite group_bars_flat. unfold indexed.
  rewrite sort_by_filter by (apply indexed_leb_total || apply indexed_leb_trans).
  rewrite (stream_of_key k bars) by done.
  rewrite (sort_by_map bar_date_leb indexed_leb).
  - rewrite map_map. apply map_id.
  - intros x y. unfold indexed_leb, bar_date_leb. cbn [fst snd]. assert (Hkk : String.leb k k = true) by (by destruct (String.leb_total k k)).
    rewrite Hkk, andb_true_r. destruct (Z.leb_spec (dt_date (vb_ts x)) (dt_date (vb_ts y))) as [Hle|Hlt].
    + apply orb_true_iff. rewrite Z.ltb_lt, Z.eqb_eq. lia.
    + apply orb_false_iff. rewrite Z.ltb_ge, Z.eqb_neq. lia.
Qed.

Lemma dget_map_vals {V W} (f : V -> W) k (h : dict ContractSymbol V) :
  dget k (map (fun kv => (fst kv, f (snd kv))) h) = option_map f (dget k h).
Proof. induction h as [|[k' v] h IH]; [done|]. cbn. by case_decide. Qed.

Lemma dkeys_map_vals {V W} (f : V -> W) (h : dict ContractSymbol V) :
  dkeys (map (fun kv => (fst kv, f (snd kv))) h) = dkeys h.
Proof. unfold dkeys. rewrite map_map. done. Qed.

(** ** Theorems *)

(** C21: the cross-sectional engine never looks ahead.  Take two sets of streams that agree on every
    bar dated up to [d].  Either the dates up to [d] raise, and then both runs raise the same error
    in the same state; or they end in one common state, which both runs only extend - the equity
    curve, the histories and the counters recorded up to [d] do not depend on a later bar - and in
    which the history the strategy ranks on holds, for each stream, exactly its bars up to [d] in
    date order, with one equity point per date. *)
Theorem portfolio_no_lookahead d h1 h2 b st s r :
  List.NoDup (dkeys h1) → before d h1 = before d h2 →
  run_dates eng (date_groups (before d h1)) (p_init h1 b st) = (s, r) →
  match r with
  | Ok _ =>
      p_extends s (fst (p_run eng h1 b st)) ∧ p_extends s (fst (p_run eng h2 b st))
      ∧ (forall k bars, dget k (before d h1) = Some bars →
         dget k (ps_history s) = Some (sort_by bar_date_leb bars))
      ∧ length (ps_curve s) = length (date_groups (before d h1))
  | Err e => p_run eng h1 b st = (s, Err e) ∧ p_run eng h2 b st = (s, Err e)
  end.
Proof.
  intros Hnd Hb E.
  assert (Hinit : p_init h1 b st = p_init h2 b st).
  { unfold p_init. f_equal. apply (f_equal (map (fun kb => (fst kb, @nil VerifiedBar)))) in Hb.
    unfold before in Hb. rewrite !map_map in Hb. exact Hb. }
  assert (Hrun : forall h, before d h = before d h1 → p_init h b st = p_init h1 b st →
            match r with
            | Ok _ => p_extends s (fst (p_run eng h b st))
            | Err e => p_run eng h b st = (s, Err e)
            end).
  { intros h Hh Hi. destruct (date_groups_split d h) as (future & Eg & _). unfold p_run. rewrite Eg, Hh, Hi.
    unfold bind, run_dates. rewrite mfold_unit_app. unfold bind. fold (run_dates eng (date_groups (before d h1))).
    rewrite E. destruct r as [[]|e]; [|done].
    pose proof (run_dates_extends future s) as Hx. unfold run_dates in Hx.
    destruct (mfold _ future tt s) as [s2 [u|e]]; [|exact Hx]. etrans; [exact Hx|].
    destruct (p_finish_same (Z.of_nat (length (indexed h))) s2) as [b' ->].
    cbn [fst]. constructor; simpl; try lia; [apply same_history|exists []; by rewrite app_nil_r]. }
  pose proof (Hrun h1 eq_refl eq_refl) as R1. pose proof (Hrun h2 (eq_sym Hb) (eq_sym Hinit)) as R2.
  destruct r as [[]|e]; [|done]. split; [done|]. split; [done|].
  assert (Hh : forall k bars, dget k (before d h1) = Some bars →
    dget k (ps_history s) = Some (sort_by bar_date_leb bars)
    ∧ length (ps_curve s) = length (date_groups (before d h1))).
  { intros k bars Hk.
    assert (Hk0 : dget k (ps_history (p_init h1 b st)) = Some []).
    { unfold before in Hk. rewrite dget_map_vals in Hk. unfold p_init. cbn [ps_history].
      rewrite (dget_map_vals (fun _ => [])). by destruct (dget k h1). }
    destruct (run_dates_history _ _ _ _ _ E Hk0) as [P1 C1]. cbn in C1. split; [|exact C1].
    rewrite P1. cbn [app]. f_equal. apply history_sorted; [|exact Hk].
    unfold before. by rewrite dkeys_map_vals. }
  split; [intros k bars Hk; by apply Hh|].
  destruct h1 as [|[k bars] h1]; [by injection E as <-|]. cbn in Hh.
  eapply (Hh k). by rewrite decide_True.
Qed.

(** on each date every order is decided on one snapshot and fills no earlier than the next
    date.  Once the date's fills and rolls are done, marking, ranking, sizing and placing any number
    of legs moves no position and closes no trade, whatever the strategy, the sizer and the gate do
    and even when they raise. *)
Theorem portfolio_orders_fill_later g s s1 :
  p_fill_phase eng g s = (s1, Ok tt) →
  still (ps_broker s1) (ps_broker (fst (run_date eng g s))).
Proof.
  intros Ef. unfold run_date, bind at 1. rewrite Ef. unfold bind.
  destruct (p_mark_phase s1) as [s2 [[ps mtm]|e]] eqn:Em;
    apply p_mark_marked in Em as (_ & _ & _ & _ & _ & _ & _ & Hst & _); [|exact Hst].
  etrans; [exact Hst|]. cbv zeta. by destruct (p_decide_decided ps mtm s2) as [(_ & _ & _ & _ & _ & _ & ?) _].
Qed.

(** the run's accounting.  A run that returns has processed every bar of every stream and
    marked the account once per date: the equity curve has exactly one point per date, the dates
    increase strictly and are those on which some stream has a bar.  It placed at most one order per
    signal, and reports the last mark and the broker's own positions and trades. *)
Theorem portfolio_accounting h b st s' r :
  p_run eng h b st = (s', Ok r) →
  bars_processed r = Z.of_nat (length (flat_map snd h)) ∧
  (h ≠ [] → length (equity_curve r) = length (date_groups h)) ∧
  StronglySorted Z.lt (map fst (date_groups h)) ∧
  (forall d, In d (map fst (date_groups h)) ↔
     exists k bars bar, In (k, bars) h ∧ In bar bars ∧ dt_date (vb_ts bar) = d) ∧
  (equity_curve r ≠ [] → List.last (equity_curve r) d0 = final_equity r) ∧
  0 <= orders_placed r <= signals_generated r ∧ 0 <= fills r ∧ 0 <= rolls_executed r ∧
  final_positions r = bb_positions (ps_broker s') ∧ trade_pnls r = bb_trade_pnls (ps_broker s').
Proof.
  unfold p_run. intros (s1 & [] & E & Ef)%bind_Ok.
  pose proof (run_dates_extends (date_groups h) (p_init h b st)) as Hx. rewrite E in Hx. cbn [fst] in Hx.
  destruct Hx as [_ _ Xs Xo Xf Xr]. cbn in Xs, Xo, Xf, Xr.
  assert (Hc : h ≠ [] → length (ps_curve s1) = length (date_groups h)).
  { intros Hne. destruct h as [|[k bars] h]; [done|].
    destruct (run_dates_history _ _ _ k [] E) as [_ C]; [cbn; by rewrite decide_True|]. exact C. }
  unfold p_finish in Ef. apply bind_Ok in Ef as (s2 & metrics & Em & Ef).
  apply bind_Ok in Ef as (s3 & ps & Ep & Ef). apply bind_Ok in Ef as (s4 & s5 & [= <- <-] & [= <- <-]).
  unfold p_broker in Em, Ep. destruct (get_account_metrics (ps_broker s1)) as [b1 rm].
  injection Em as <- ->. cbn [ps_broker p_objects] in Ep.
  pose proof (positions_snapshot (B := B) b1) as Hsnap. pose proof (snapshot_still (B := B) b1) as Hst.
  destruct (get_positions b1) as [b2 rp]. injection Ep as <- ->. simpl in *.
  split_and!; try done; try lia.
  - f_equal. unfold indexed. rewrite sort_by_length. clear. induction h as [|[k bars] h IH]; [done|].
    simpl. rewrite !length_app, IH. unfold stream_bars. by rewrite length_map.
  - apply groupby_increasing, indexed_sorted.
  - intros d. rewrite in_map_iff. split.
    + intros (g & <- & [[k bar] Hin]%groupby_dates). unfold indexed in Hin.
      apply sort_by_In, in_flat_map in Hin as ([k' bars] & Hkb & Hb).
      apply in_map_iff in Hb as (bar' & [= E1 E2 E3] & Hb'). subst. by exists k, bars, bar.
    + intros (k & bars & bar & Hkb & Hb & <-).
      assert (Hin : In (dt_date (vb_ts bar), (k, bar)) (indexed h)).
      { apply sort_by_In, in_flat_map. exists (k, bars). split; [done|]. apply in_map_iff. by exists bar. }
      rewrite <- groupby_concat in Hin. apply in_flat_map in Hin as (g & Hg & Hin).
      apply in_map_iff in Hin as (x & [= E1 E2] & _). by exists g.
  - destruct (ps_curve s1) as [|x l]; [done|]. intros _. clear. revert x.
    induction l as [|y l IH]; intros x; [done|]. apply (IH y).
  - rewrite (Hsnap _ _ eq_refl). symmetry. apply Hst.
Qed.
End PortfolioFacts.

(** ** Witnesses *)
#[local] Existing Instances toy_libm toy_random.

Definition wit_day (c : ContractSymbol) (dpx : Z * Z) : VerifiedBar := {|
  vb_contract := c; vb_ts := DT (fst dpx * us_per_day) (Some 0); vb_resolution := DAY_1;
  vb_open := dec_of_Z (snd dpx); vb_high := dec_of_Z (snd dpx); vb_low := dec_of_Z (snd dpx);
  vb_close := dec_of_Z (snd dpx); vb_volume := 1; vb_n_sources_agreed := 1;
  vb_source_provenance_hashes := []; vb_verifier_run_hash := ""; vb_prev_bar_hash := None;
  vb_tier_used := T2_BROKER; vb_policy_id := "p" |}.

Definition wit_streams (last : Z) : dict ContractSymbol (list VerifiedBar) :=
  [("NQ"%string, map (wit_day "MNQM26") [(1, 15000); (2, 15010); (4, last)]);
   ("ES"%string, map (wit_day "MESM26") [(2, 5000); (3, 5010); (4, 5020)])].

(** Long every stream that has a bar. *)
#[local] Instance long_all : CrossSectionalStrategy nat unit := {
  generate_signals history ctx :=
    modify S ;;
    ret (flat_map (fun kb => match List.rev (snd kb) with
                             | [] => []
                             | bar :: _ => [(fst kb, {|
                                 sg_contract := vb_contract bar; sg_ts := vb_ts bar;
                                 strategy_id := "long"; direction := 1;
                                 full_kelly_fraction := Dec 5 (-1); confidence := Dec 5 (-1) |})]
                             end) history) }.

Definition wit_portfolio : PortfolioBacktestEngine (SM := TickHaircutSlippageModel)
    (R := RiskManager StaticMarginSource) (Clock := unit) :=
  new_PortfolioBacktestEngine
    {| mode := BACKTEST; verifier_policy := wit_policy; clock := tt; degraded_mode_allowed := false |}
    default_RiskManager None true None true 60.

Lemma portfolio_no_lookahead_witness : exists s,
  run_dates wit_portfolio (date_groups (before 3 (wit_streams 14000)))
    (p_init (wit_streams 14000) wit_broker 0%nat) = (s, Ok tt) ∧
  length (ps_curve s) = 3%nat ∧
  p_extends s (fst (p_run wit_portfolio (wit_streams 16000) wit_broker 0%nat)).
Proof.
  eexists. run_as E.
  destruct (portfolio_no_lookahead wit_portfolio 3 (wit_streams 14000) (wit_streams 16000) wit_broker 0%nat _ _
              ltac:(repeat constructor; simpl; intuition discriminate) eq_refl E) as (_ & Hx & _ & Hlen).
  split; [exact Hlen|exact Hx].
Defined.

Lemma portfolio_orders_fill_later_witness : exists s1,
  let g := (1, [("NQ"%string, wit_day "MNQM26" (1, 15000))]) in
  let s := p_init (wit_streams 16000) wit_broker 0%nat in
  p_fill_phase wit_portfolio g s = (s1, Ok tt) ∧
  still (ps_broker s1) (ps_broker (fst (run_date wit_portfolio g s))).
Proof.
  eexists. cbv zeta. run_as E.
  exact (portfolio_orders_fill_later wit_portfolio _ (p_init (wit_streams 16000) wit_broker 0%nat) _ E).
Defined.

Lemma portfolio_accounting_witness : exists s' r,
  p_run wit_portfolio (wit_streams 16000) wit_broker 0%nat = (s', Ok r) ∧
  length (equity_curve r) = length (date_groups (wit_streams 16000)) ∧
  0 <= orders_placed r <= signals_generated r.
Proof.
  eexists _, _. run_as E.
  destruct (portfolio_accounting wit_portfolio (wit_streams 16000) wit_broker 0%nat _ _ E)
    as (_ & Hlen & _ & _ & _ & Ho & _).
  split; [apply Hlen; discriminate|exact Ho].
Defined.
