(* ===== verification/Gauntlet.v ===== *)
(** * From the engines to the verdict

    The composition the documentation of stats/backtest_validation.py describes: equity curves of runs of the
    two engines, over one window of bars, given to the promotion gates.  The engines are those of [Backtest] and
    [Portfolio], the gates those of [Promotion]; nothing is modelled here, the file relates the parts. *)

From S2P Require Import Prelude PyDecimal PyText PyTime Types Broker PyFloat PyStats Survival RiskManager Slippage Verifier Policies MockBroker PropBroker Calendar Roll Continuous Strategy Backtest Portfolio MultiTest Sharpe Performance Resample Promotion.

#[local] Open Scope Z_scope.

(** [r] is what a run of one of the engines returned, over a window of [n] bars or of [n] dates. *)
Inductive run_over (n : nat) : RunResult -> Prop :=
| SingleRun {B SM R St Clock : Type} `{BacktestBrokerLaws B} `{SlippageModel SM} `{Sizer R} `{Strategy St Clock}
    (eng : BacktestEngine (SM := SM) (R := R) (Clock := Clock)) bars b st s' r :
    Backtest.run eng bars b st = (s', Ok r) → length bars = n → run_over n r
| PortfolioRun {B SM R St Clock : Type} `{BacktestBrokerLaws B} `{SlippageModel SM} `{Sizer R} `{CrossSectionalStrategy St Clock}
    (eng : PortfolioBacktestEngine (SM := SM) (R := R) (Clock := Clock)) h b st s' r :
    p_run eng h b st = (s', Ok r) → h ≠ [] → length (date_groups h) = n → run_over n r.

(** The account is worth something at the first mark. *)
Definition starts_positive (r : RunResult) : Prop := exists e rest, equity_curve r = e :: rest ∧ fleb (f_of_decimal e) f_zero = false.

Lemma run_points n r : run_over n r → length (equity_curve r) = n.
Proof.
  intros [B SM R St Clock ? ? ? ? ? ? eng bars b st s' r' E Hn|B SM R St Clock ? ? ? ? ? ? eng h b st s' r' E Hne Hn].
  - apply run_accounting in E as (_ & Hl & _). congruence.
  - apply portfolio_accounting in E as (_ & Hl & _). rewrite Hl; done.
Qed.

(** The curve of a run is one the gates take. *)
Lemma run_returns n r : run_over n r → (2 <= n)%nat → starts_positive r → exists rs,
  equity_curve_to_returns (equity_curve r) = Ok rs ∧ length rs = (n - 1)%nat.
Proof.
  intros Hr Hn (e & rest & E & He). apply run_points in Hr. pose proof (curve_returns_length (equity_curve r)) as Hl.
  unfold equity_curve_to_returns in *. rewrite E in *. rewrite Hr in *. unfold _MIN_EQUITY_POINTS in *.
  rewrite (proj2 (Nat.ltb_ge _ _) Hn) in *. cbn [reject rbind map] in *. rewrite He in *. cbn [reject rbind] in *. eauto.
Qed.

Lemma family_returns n results : Forall (run_over n) results → (2 <= n)%nat → Forall starts_positive results → exists family,
  rmap equity_curve_to_returns (map equity_curve results) = Ok family ∧
  Forall2 (fun r rs => equity_curve_to_returns (equity_curve r) = Ok rs ∧ length rs = (n - 1)%nat) results family.
Proof.
  intros Hr Hn Hs. induction Hr as [|r results Hr _ IH]; [by exists []|]. apply List.Forall_cons_iff in Hs as [Hp Hs].
  destruct (IH Hs) as (family & E & Hf). destruct (run_returns n r Hr Hn Hp) as (rs & Er & Hl).
  exists (rs :: family). split; [|by constructor]. cbn [map rmap]. rewrite Er. cbn [rbind]. by rewrite E.
Qed.

(** One length: the window's. *)
Lemma family_lengths n results : Forall (run_over n) results →
  let lengths := map (@length decimal) (map equity_curve results) in
  existsb (fun l => negb (l =? nth 0 lengths 0)%nat) lengths = false.
Proof.
  intros Hr lengths. assert (Hl : Forall (eq n) lengths).
  { unfold lengths. induction Hr as [|r results Hr _ IH]; [constructor|]. constructor; [|done]. symmetry. by apply run_points. }
  destruct (existsb _ lengths) eqn:E; [|done]. apply existsb_exists in E as (l & Hin & Hne).
  rewrite List.Forall_forall in Hl. rewrite <- (Hl l Hin) in Hne. destruct lengths as [|l' ls]; [done|].
  cbn [nth] in Hne. rewrite <- (Hl l') in Hne by (by left). by rewrite Nat.eqb_refl in Hne.
Qed.

(** C40: the runs of a family reach the gates.  Take runs of either engine, with any brokers, sizers and strategies, over
    windows of the same number of bars (or dates, for a portfolio), at least two, whose accounts are worth
    something at the first mark; select one, and perhaps a benchmark run over a window of that length.  Their
    curves are never refused: the evaluation is that of the gates on the returns of the curves, one return for
    every step of the window, the selected run's first, the trials' Sharpe ratios computed from the same returns.
    (An account that is ruined on the way is not refused either: the code records the ruin as a total loss, where the
    docstring of [equity_curve_to_returns] announces an error, [Promotion.TwoCurves.ruin_is_accepted].) *)
Theorem runs_reach_the_gates n results selected ppy bench method n_resamples seed :
  Forall (run_over n) results → (2 <= n)%nat → Forall starts_positive results →
  0 <= selected < Z.of_nat (length results) →
  match bench with None => True | Some r => run_over n r ∧ starts_positive r end →
  forall `{PyRandom} `{Libm} `{NormalDist}, exists family bench_returns,
    Forall2 (fun r rs => equity_curve_to_returns (equity_curve r) = Ok rs ∧ length rs = (n - 1)%nat) results family ∧
    match bench, bench_returns with
    | None, None => True
    | Some r, Some rs => equity_curve_to_returns (equity_curve r) = Ok rs ∧ length rs = (n - 1)%nat
    | _, _ => False
    end ∧
    evaluate_backtests (map equity_curve results) selected ppy (option_map equity_curve bench) method n_resamples seed =
      (let! trials := rmap (fun rs => _annualized_sharpe rs ppy) family in
       evaluate_promotion (nth (Z.to_nat selected) family []) family trials ppy bench_returns method n_resamples seed).
Proof.
  intros Hr Hn Hs Hsel Hb ? ? ?. destruct (family_returns n results Hr Hn Hs) as (family & Ef & Hf). exists family.
  assert (Hbench : exists bench_returns,
    match bench, bench_returns with
    | None, None => True
    | Some r, Some rs => equity_curve_to_returns (equity_curve r) = Ok rs ∧ length rs = (n - 1)%nat
    | _, _ => False
    end ∧ match option_map equity_curve bench with
          | None => Ok None
          | Some c => let! r := equity_curve_to_returns c in Ok (Some r)
          end = Ok bench_returns).
  { destruct bench as [b|]; [|by exists None]. destruct (run_returns n b (proj1 Hb) Hn (proj2 Hb)) as (rs & Er & Hl).
    exists (Some rs). split; [done|]. cbn [option_map]. by rewrite Er. }
  destruct Hbench as (bench_returns & Hbr & Eb). exists bench_returns. split; [done|]. split; [done|].
  unfold evaluate_backtests. rewrite (family_lengths n results Hr), Ef, length_map.
  replace ((0 <=? selected) && (selected <? Z.of_nat (length results))) with true by lia.
  destruct results as [|r results]; [cbn in Hsel; lia|]. cbn [map reject rbind negb].
  by rewrite Eb.
Qed.

(** ** A witness: two runs of the always-long strategy *)
Module TwoRuns.
#[local] Instance normal : NormalDist := { norm_cdf z := z; norm_quantile p := p }.

#[local] Existing Instance always_long.
#[local] Existing Instance toy_libm.
#[local] Existing Instance toy_random.

Ltac long_run :=
  eexists _, _; let E := fresh "E" in run_as E; split; [match goal with H : _ = (_, Ok _) |- _ => exact (SingleRun 3 _ _ _ _ _ _ H eq_refl) end|];
  eexists _, _; split; [reflexivity|vm_compute; reflexivity].

(** Targeting a position, and signal by signal. *)
Lemma long_target : exists s r, Backtest.run (wit_engine true None) wit_bars wit_broker 0%nat = (s, Ok r) ∧ run_over 3 r ∧ starts_positive r.
Proof. long_run. Qed.
Lemma long_signals : exists s r, Backtest.run (wit_engine false None) wit_bars wit_broker 0%nat = (s, Ok r) ∧ run_over 3 r ∧ starts_positive r.
Proof. long_run. Qed.

Lemma runs_reach_the_gates_witness : exists r1 r2 family, length family = 2%nat ∧
  (exists bench_returns, evaluate_backtests [equity_curve r1; equity_curve r2] 1 (f_of_Z 252) (Some (equity_curve r1)) "wrc" 1000 (Some 1) =
     (let! trials := rmap (fun rs => _annualized_sharpe rs (f_of_Z 252)) family in
      evaluate_promotion (nth 1 family []) family trials (f_of_Z 252) bench_returns "wrc" 1000 (Some 1))) ∧
  Forall2 (fun r rs => equity_curve_to_returns (equity_curve r) = Ok rs ∧ length rs = 2%nat) [r1; r2] family.
Proof.
  destruct long_target as (s1 & r1 & _ & R1 & P1). destruct long_signals as (s2 & r2 & _ & R2 & P2).
  destruct (runs_reach_the_gates 3 [r1; r2] 1 (f_of_Z 252) (Some r1) "wrc" 1000 (Some 1)
    ltac:(by repeat constructor) ltac:(lia) ltac:(by repeat constructor) ltac:(cbn; lia) (conj R1 P1)) as (family & bench & Hf & _ & E).
  exists r1, r2, family. split; [symmetry; exact (Forall2_length Hf)|]. split; [exists bench; exact E|exact Hf].
Defined.
End TwoRuns.
